(* ===== verification/_CoqProject ===== *)
-Q . S2P
Prelude.v
Domain.v
State.v
Config.v
Retry.v
Dispatch.v
Order.v
TickGraph.v
Scc.v
Kahn.v
GraphAnalysis.v
Cron.v
Tracker.v
Rfc3339.v
LocalFile.v
LocalTracker.v
RateGate.v
Ledger.v
Outbox.v
WriteSink.v
Flusher.v
Resolve.v
RunnerCommand.v
BackendHealth.v
AgentTurn.v
Evidence.v
BackendGate.v
AutomationQueue.v
Grants.v
StatusHistory.v
DependencyAudit.v
Janitor.v
Orchestrator.v
LimitText.v
InputDetector.v
Failures.v
Automation.v
Triggers.v
RefreshWorker.v
World.v
DependencyRefresh.v
RateLimited.v
Reviews.v
Replies.v
Workers.v
Exits.v
Worker.v
WorkerFacts.v
Reconcile.v
Events.v
TickViews.v
Tick.v
Lifecycle.v
Frames.v
Handlers.v
ExitHandlers.v
LoopHandlers.v
Loop.v
Control.v
Restart.v
Handoff.v
Producers.v
CommentCommands.v
