(* ===== verification/Prelude.v ===== *)
(** * Itervox: a verification development of the orchestrator's core

    Itervox is a Go daemon.  It polls an issue tracker, decides which issues
    an AI agent should work on, runs the agents as subprocesses, and writes
    the results back to the tracker.  One goroutine, the event loop of
    internal/orchestrator, owns a [State] record and changes it in response to
    ticks and to the messages of its workers.  This library models that
    record, the decisions taken over it and the write-ahead outbox that
    carries the daemon's writes to the tracker.

    ** The parts and the files that model them

    - Prelude: machine integers, time, Go strings, lists, comparators, stable
      sorting, and the hint database [itervox].
    - Domain (internal/domain): issues, blockers, comments.
    - State (orchestrator/state.go): the event loop's record and the records
      it holds.  Every other component is a set of functions on it.
    - Config (internal/config): the settings the decisions read, and the
      backend hint of a command line.
    - Retry (retry.go): back-off delays, the retry ledger.
    - Dispatch (dispatch.go, pause_dispatch.go): the guards an issue must pass.
    - Order (dispatch.go, sort_critical_path.go): the order of dispatch.
    - TickGraph (tick_graph.go): the blocker graph of a tick.
    - Scc (tick_graph_scc.go): Tarjan's algorithm with an explicit stack.
    - Kahn (tick_graph_scc.go): topological order of the condensation.
    - GraphAnalysis (tick_graph.go): fan-out,
      depth and chain length of every issue, and the cycles.
    - Cron (internal/schedule): cron rules.
    - Tracker (internal/tracker): comment keys; the interface a keyed tracker
      offers, as the class [KeyedTracker] with its laws; the in-memory adapter,
      which is shown to satisfy them.
    - Rfc3339: reading and writing such times, as package time does.
      LocalFile (internal/tracker/local/file.go): an issue as a Markdown file,
      with YAML as an argument.  LocalTracker (tracker/local/tracker.go): the
      tracker over a directory of such files that others edit too.
    - RateGate (internal/tracker/ratelimit_*.go): the gate all calls to a
      tracker share, what counts as a rate limit, and how a call re-sends.
    - Ledger (persist_ledger.go): the writer that puts each ledger on disk off
      the loop, with its goroutine, its retry timer and the shutdown flush.
    - Outbox (internal/outbox): the durable queue of tracker writes.
    - WriteSink (write_sink.go): the worker's way to the tracker as a class with
      laws; the direct sink and the outbox sink are shown to keep them.
    - Flusher (cmd/itervox/outbox_flusher.go, outbox/reconcile.go,
      outbox_overlay.go): delivery of the outbox against [KeyedTracker], and
      how pending writes are reconciled with and laid over what is polled.
    - Resolve (dispatch_resolve.go, agent/multi.go): which command and backend
      run an issue.  RunnerCommand (worker.go 1549-1587): variables put before
      the command, and the runner it selects then.
    - BackendHealth (backend_health.go, limit_signal.go): the breaker of each
      backend and host.
    - AgentTurn, InputDetector (internal/agent): what a turn's events add up
      to, and whether its text asks a human.
    - Evidence (evidence_gate.go): the proof a profile may have to give.
    - BackendGate (backend_gate.go): admission of a dispatch, fallback to
      another backend, and the way back.
    - AutomationQueue (automation_queue.go): automations that wait.
    - Grants (internal/agentactions): the tokens that let an agent act.
    - StatusHistory (status_history.go, pause_reason.go): what is remembered of
      tracker states.
    - DependencyAudit (dependency_audit.go): blockers, and the transition that
      fires when they are resolved.
    - Janitor (janitor.go): the sweeps that bound the ledgers.
    - Automation (automation.go, automation_queue.go, ssh_host.go, drain.go):
      starting, holding, queueing and draining automation runs.
    - Triggers (automation.go): which rules match an event.
    - Orchestrator (orchestrator.go, ssh_host.go, drain.go): the fields of the
      orchestrator besides [State], the registry of workers, host choice.
    - LimitText, RateLimited (automation_rate_limited.go): recognising a rate
      limit in a message, and switching an issue to another profile.
    - Failures (recent_failures.go, tracker_error.go): the failure ring.
    - RefreshWorker, DependencyRefresh (dependency_refresh.go): the batch that
      runs off the loop, and what the loop makes of its result.
    - World: what a handler reads and changes.  [World] is the orchestrator,
      the state and the list of effects so far; [Env] is what the outside
      answers during one event.
    - Reviews (review_quorum.go, pending_review.go), Replies (event_loop.go):
      reviewers' verdicts; questions to a human and their answers.
    - Worker (worker.go): a run from its workspace to its exit, as a program
      over [WriteSink] in a monad that records what it does; WorkerFacts: a
      small program logic for it and what holds of every run.
    - Workers, Exits, Reconcile, Events, TickViews, Tick (event_loop.go,
      reconcile.go): starting a worker, its exit, stopping stalled runs, the
      event handler, the views of a tick and the tick.
    - Lifecycle: an abstract machine of runs, claims, retries and workers, its
      invariant, and [evolves], which says that a change of the world is a
      sequence of its moves.  Frames: what the operations leave alone.
      Handlers, ExitHandlers, LoopHandlers: every handler and the tick evolve.
    - Loop (event_loop.go 24-111, drain.go, drain_collect.go): iterations, the
      drain, the forced stop, and the sequences of steps the theorems on the
      whole loop speak of.
    - Control (issue_control.go, reviewer.go, deps_override.go,
      backend_health_ops.go, failure_ack.go, drain.go): the requests other
      goroutines make, over the published copy of the state and the channel of
      events; a cancel taken apart lock by lock.
    - Restart (snapshot.go, backend_health_persist.go, deps_override.go,
      pending_review.go, queue_persistence_envelope.go, automation.go
      517-564): what each ledger holds, how it is read back, and the state the
      next loop starts from.
    - Handoff (handoff.go, review_feedback.go 100-130): the files that a run
      leaves for the next one and the blocks of a prompt that show them.
    - Producers (cmd/itervox/automations.go, automations_input_required.go,
      tracker/prefetch.go, config/automations.go): the goroutine that compiles
      the rules and watches the clock, the tracker and the questions that
      wait; the other senders of automation events.

    ** What the theorems show

    Each property is marked C<n> in its file.

    - The loop as a whole: its iterations are moves of the lifecycle machine
      (C9), an issue has at most one live worker and the loop can cancel it
      (C1), a drain starts nothing (C2), its signal is true (C14), a
      forced stop settles (C15).  The theorems on draining hold of every
      sequence of steps.  Those on live workers hold the steps to [input_ok]:
      the tracker names issues consistently, and events are what their senders
      mean them to be ([event_ok], [exit_ok]).
    - Requests: answering them is a refinement of the loop
      (C10), an accepted one does what it promises
      (C28), a cancel that found its worker is not
      lost among the locks (C11).  A cancel of a retry
      can come after the retry has fired ([late_cancel_pauses_a_live_run]):
      [event_ok] leaves that case out of the theorems on live workers.
    - Restarts: what was saved comes back (C13), the
      start is in order whatever the files hold (C21),
      a pause stays a pause (C22), and the
      guarantee on live workers goes on across any number of restarts
      (C12).
    - The local tracker: what is written is read back
      (C18), what is served is what is on disk
      (C17), updates are applied to it
      (C27), keyed comments are found
      (C33), new issues are new
      ([create_issue_fresh]).
    - The worker: one exit per run (C6), which
      is the exit the loop's theorems ask for; a move only with everything
      proved (C3); what reviewers and
      automations leave alone (C31); its turns
      ([worker_turns]).  What a turn amounts to
      ([turn_result_meaning]), when it asks
      ([detector_exact]), what counts as evidence
      (C38), what a token allows
      (C39), and when the action variables change the runner
      ([actions_keep_backend]).
    - The ledgers' files: each is a submitted version and only gets newer
      (C7), the flush is short and honest
      (C32), no version is stranded
      ([never_stranded]).
    - The tracker's limits: how often and how long a call waits
      (C34), and that all callers respect one gate
      that opens again ([shared_gate]).
    - The outbox: nothing is lost (C5), an accepted write is durable
      ([Enqueue_atomic_durable]), order is kept ([outbox_fifo]), what is due
      ([Due_heads]) and when a failed write is tried again
      ([MarkFailed_schedule]), every entry can be delivered (C40) and
      survives a restart ([reopen_stable]).
    - The flusher: a comment is delivered at most once and, when its entry is
      gone, is on the tracker (C4); an issue whose last transition is still
      queued is never seen in its old state (C36).
    - Dispatch: eligibility is exactly its guards (C16), the automation check is
      the same less two; the order is sorted ([critical_path_sorted]) and does not
      depend on the tracker's ([dispatch_order_canonical]).
    - The graph: its edges ([tick_edges]), Tarjan's components are the mutually reachable
      classes ([scc_exact]), the metrics mean what their names say
      ([metrics_meaning]), and the cycles reported are the deadlocks
      ([cycles_exact], [cycle_members_wait]).
    - Backends: the resolver's command runs the backend it names ([resolve_sound],
      [resume_runs_stored_backend]), a breaker always heals (C20) and admits one probe ([single_probe]), the gate is
      sound (C19), a reroute is undone when it should be ([switch_back_at_reset]).
    - Automations: the queue is well formed, bounded and first-in first-out
      ([queue_invariant], [queue_fifo]), a drain pass is safe (C8), an automation is
      accounted for (C35, [automation_dropped_iff]).
    - Ledgers: the transition blockers_resolved fires exactly when it should
      (C37), the sweeps remove what they should and nothing else ([terminal_sweep_exact],
      [absent_sweep_grace]), the status history is what was observed ([observed_history]).
    - What makes automations fire: a cron rule once a minute
      (C26), a comment once
      (C25), a question once for a rule
      (C24).  Each holds the tracker to
      naming things consistently, and no more.
    - Handoffs: a complete one is a success's
      (C23), a prompt shows the newest that fit
      (C29), a reviewer sees the last
      (C30); their names sort by time
      ([handoff_names_chronological]).
    - Retries: the back-off has a closed form and does not overflow ([backoff_formula]).
    - Defects, stated as what the code does: [announced_drain_loses], [sweeps_miss_running_worker],
      [step_overflow_adds_values], [failed_fetches_are_free],
      [retried_reviewer_doubles], [stalls_never_exhaust], [resumed_run_unstoppable],
      [carriage_return_forges_comment], [read_error_sticks],
      [two_cancels_lose_one], [late_cancel_pauses_a_live_run],
      [broken_envelope_empties_queue], [rejections_survive],
      [hasty_failure_spoils_predecessor], [steady_state_spends_requests],
      [replay_ignores_max_age], [failed_detail_loses_comment],
      [deleted_comment_refires], [own_comment_hides_users],
      [merged_rules_counted_dropped].
    - The dependency refresh reports the truth ([refresh_reports]) within a budget of
      requests ([refresh_requests]).

    ** Modelling choices

    - An [int] or [int64] is a [Z] with its wrap-around written out
      ([wrap64]); a [time.Time] is nanoseconds since Go's zero time and a
      Duration an int64.
    - A string is its bytes.  Case folding and white space are those of ASCII.
    - A Go map is a [gmap]; an entry reached through a pointer is the map's
      entry.  Where the code ranges over a map and the order cannot matter the
      model filters the map; where it can, the order is an argument or the
      list [map_to_list] gives.
    - A function that returns a changed [State], or changes it through a
      pointer, returns the new record.
    - What the environment decides (clock, random bytes, whether a file could
      be written, what the tracker answers, whether a response was lost) is an
      argument of the operation; theorems about histories quantify over it.
    - The outbox file is the list of entries it encodes.  An atomic write
      succeeds or leaves the old file.
    - SHA-256 and compiled regular expressions are arguments.
    - Starting a worker is a value, [Launch]; log lines and dashboard messages
      are left out.
    - Loops: all are structural on the list or map they walk but the step loop
      of Cron, which runs with fuel 512; [step_terminates] shows that the loop
      ends before it runs out, for every step, the overflowing ones included;
      Tarjan's loop, with one turn per node, edge and closed frame, and Kahn's,
      with one turn per component, both proved to be enough.
    - An event reads the clock once ([env_now]), where the code may call
      time.Now several times in it.  What the tracker answers is a function of
      the request; in RefreshWorker also of the number of requests before it.
    - A worker is a number.  Its registered cancel function is the entry of
      [o_workerCancels], and cancelling puts it into [o_cancelled].
    - Goroutines the loop starts are [Effect]s in the order they are started;
      so are the exit events it sends itself.  Their completions are events.
    - Redaction of secrets is an argument.

    ** What is not modelled

    The text of prompts, subprocesses, git and gh (a run asks them through
    [WorkerEnv]); the adapters of Linear and GitHub; the parsing of a line of
    agent output; workspaces; the HTTP server and dashboard; the JSON
    text of the ledgers (a file is the value its text encodes), the copies kept
    of those in quarantine and the run history; flags and daemon start-up; see the component
    list for the reason of each.
    Of the event loop: the cost totals and the log buffers.  The renaming of
    handoff files when a run ends is in Handoff, not in the model of the event.
*)

From stdpp Require Import base gmap sets list strings sorting.
From Stdlib Require Import ZArith Lia Ascii DecimalString HexadecimalString.

#[global] Open Scope Z_scope.

(** ** Functional record update

    [r <| f := v |>] is Go's [r.f = v] on a copied struct. *)
Class Settable (R : Type) := { eta_record : R -> R }.
Class Setter {R E : Type} (getter : R -> E) := set_field : (E -> E) -> R -> R.
Arguments set_field {R E} getter {_} _ _.

Ltac solve_setter :=
  lazymatch goal with
  | |- @Setter ?R ?E ?getter =>
      let inst := constr:(_ : Settable R) in
      let e := eval hnf in (@eta_record R inst) in
      lazymatch eval pattern getter in e with
      | ?f _ =>
          let b := eval cbv beta in (fun upd : E -> E => f (fun r => upd (getter r))) in
          exact b
      end
  end.
#[export] Hint Extern 0 (Setter _) => solve_setter : typeclass_instances.

Notation "s <| f := v |>" := (set_field f (fun _ => v) s)
  (at level 12, left associativity, f at next level, v at level 60,
   format "s  <| f  :=  v |>").

(** ** Machine integers

    Go's [int] and [int64] are 64-bit two's complement on every target the
    daemon is built for; [wrap64] is the value an overflowing operation
    leaves. *)
Definition int64_max : Z := 2 ^ 63 - 1.
Definition int64_min : Z := - 2 ^ 63.
Definition wrap64 (z : Z) : Z := (z + 2 ^ 63) mod 2 ^ 64 - 2 ^ 63.
Definition is_int64 (z : Z) : Prop := int64_min <= z <= int64_max.

Definition add64 (a b : Z) : Z := wrap64 (a + b).
(** uint64 addition. *)
Definition addu64 (a b : Z) : Z := (a + b) mod 2 ^ 64.
Definition mul64 (a b : Z) : Z := wrap64 (a * b).
(** [a << b] on an int64; a shift count of 64 or more gives 0. *)
Definition shl64 (a b : Z) : Z := wrap64 (Z.shiftl a b).

Lemma wrap64_id z : is_int64 z -> wrap64 z = z.
Proof.
  unfold is_int64, wrap64, int64_min, int64_max. intros H.
  rewrite Z.mod_small; lia.
Qed.

(** ** Time

    A [time.Duration] is an int64 count of nanoseconds. A [time.Time] is the
    count of nanoseconds since Go's zero time, so [IsZero] is [=? 0];
    its wall-clock range (int64 seconds) is wider than any sum the program
    forms, so [Add] does not wrap, while [Sub] saturates to the range of a
    Duration as [time.Time.Sub] does. *)
Definition Time := Z.
Definition Duration := Z.

Definition zero_time : Time := 0.
Definition time_is_zero (t : Time) : bool := t =? 0.
Definition time_add (t : Time) (d : Duration) : Time := t + d.
Definition time_after (t u : Time) : bool := u <? t.
Definition time_before (t u : Time) : bool := t <? u.
Definition time_sub (t u : Time) : Duration :=
  Z.max int64_min (Z.min int64_max (t - u)).

(** Nanoseconds from Go's zero time to the Unix epoch. *)
Definition unix_epoch : Time := 62135596800 * (1000 * 1000 * 1000).
(** [t.UnixNano()]: an int64, wrapped outside the years 1678 to 2262. *)
Definition UnixNano (t : Time) : Z := wrap64 (t - unix_epoch).

Definition Nanosecond : Duration := 1.
Definition Millisecond : Duration := 1000 * 1000.
Definition Second : Duration := 1000 * Millisecond.
Definition Minute : Duration := 60 * Second.
Definition Hour : Duration := 60 * Minute.

(** ** Strings

    Go strings are byte strings. Case mapping and white space are those of the
    ASCII range; other bytes are compared as they are. *)
Definition lower_byte (c : ascii) : ascii :=
  let n := N_of_ascii c in
  if ((65 <=? n) && (n <=? 90))%N then ascii_of_N (n + 32) else c.

Fixpoint to_lower (s : string) : string :=
  match s with
  | EmptyString => EmptyString
  | String c s' => String (lower_byte c) (to_lower s')
  end.

(** [strings.EqualFold]. *)
Fixpoint equal_fold (s t : string) : bool :=
  match s, t with
  | EmptyString, EmptyString => true
  | String a s', String b t' => Ascii.eqb (lower_byte a) (lower_byte b) && equal_fold s' t'
  | _, _ => false
  end.

(** [asciiSpace] of package strings: tab, newline, vertical tab, form feed,
    carriage return and blank. *)
Definition is_space (c : ascii) : bool :=
  let n := N_of_ascii c in ((9 <=? n) && (n <=? 13) || (n =? 32))%N.

Fixpoint trim_left (s : string) : string :=
  match s with
  | EmptyString => EmptyString
  | String c s' => if is_space c then trim_left s' else s
  end.

Fixpoint trim_right (s : string) : string :=
  match s with
  | EmptyString => EmptyString
  | String c s' =>
      match trim_right s' with
      | EmptyString => if is_space c then EmptyString else String c EmptyString
      | r => String c r
      end
  end.

(** [strings.TrimSpace]. *)
Definition trim_space (s : string) : string := trim_right (trim_left s).

(** [strings.HasPrefix s p]. *)
Definition has_prefix (s p : string) : bool := String.prefix p s.

(** [strings.CutPrefix]. *)
Fixpoint cut_prefix (s p : string) {struct p} : option string :=
  match p, s with
  | EmptyString, _ => Some s
  | String a p', String b s' => if Ascii.eqb a b then cut_prefix s' p' else None
  | String _ _, EmptyString => None
  end.

(** [strings.Cut] at a one-byte separator: before, after and whether found. *)
Fixpoint cut_at (c : ascii) (s : string) : string * string * bool :=
  match s with
  | EmptyString => (EmptyString, EmptyString, false)
  | String d s' =>
      if Ascii.eqb c d then (EmptyString, s', true)
      else let '(b, a, ok) := cut_at c s' in (String d b, a, ok)
  end.

(** [strings.Split] at a one-byte separator. *)
Fixpoint split_at (c : ascii) (s : string) : list string :=
  match s with
  | EmptyString => [EmptyString]
  | String d s' =>
      if Ascii.eqb c d then EmptyString :: split_at c s'
      else match split_at c s' with
           | [] => [String d EmptyString]
           | w :: ws => String d w :: ws
           end
  end.

(** [strings.ContainsRune] / [strings.Contains] for a one-byte needle. *)
Fixpoint contains_byte (c : ascii) (s : string) : bool :=
  match s with
  | EmptyString => false
  | String d s' => Ascii.eqb c d || contains_byte c s'
  end.

(** [strings.Contains]. *)
Fixpoint contains (s sub : string) : bool :=
  has_prefix s sub ||
  match s with
  | EmptyString => false
  | String _ s' => contains s' sub
  end.

(** [%d] of an integer and [%x] of a natural number. *)
Definition format_d (z : Z) : string := DecimalString.NilZero.string_of_int (Z.to_int z).
Definition format_x (z : Z) : string :=
  HexadecimalString.NilZero.string_of_uint (N.to_hex_uint (Z.to_N z)).

(** [hex.EncodeToString] and [%x] of a byte slice: two digits a byte. *)
Definition hex_digit (d : Z) : ascii :=
  ascii_of_N (Z.to_N (if d <? 10 then 48 + d else 87 + d)).
Definition hex_byte (b : Z) : string :=
  String (hex_digit (b / 16)) (String (hex_digit (b mod 16)) EmptyString).
Definition hex_encode (bs : list Z) : string := foldr (fun b s => hex_byte b +:+ s) "" bs.

(** A string given by its bytes. *)
Definition utf8_bytes (bs : list N) : string := foldr (fun b s => String (ascii_of_N b) s) EmptyString bs.

(** [strconv.Quote] ([%q]): ASCII is escaped as Go does it; the bytes of a
    longer rune are kept, as they are for a printable one. *)
Definition quote_char : ascii := "034"%char.
Definition quote_byte (c : ascii) : string :=
  let escaped l := String "\"%char (String l EmptyString) in
  if Ascii.eqb c quote_char then escaped quote_char
  else if Ascii.eqb c "\"%char then escaped "\"%char
  else match nat_of_ascii c with
       | 7%nat => escaped "a"%char | 8%nat => escaped "b"%char | 9%nat => escaped "t"%char
       | 10%nat => escaped "n"%char | 11%nat => escaped "v"%char | 12%nat => escaped "f"%char
       | 13%nat => escaped "r"%char
       | n => if (n <? 32)%nat || (n =? 127)%nat
              then String "\"%char (String "x"%char (hex_byte (Z.of_nat n)))
              else String c EmptyString
       end.
Fixpoint quote_bytes (s : string) : string :=
  match s with
  | EmptyString => EmptyString
  | String c s' => quote_byte c +:+ quote_bytes s'
  end.
Definition go_quote (s : string) : string :=
  String quote_char (quote_bytes s +:+ String quote_char EmptyString).

(** [%0wx]: zeros on the left up to the width. *)
Definition pad_left (w : nat) (c : ascii) (s : string) : string :=
  Nat.iter (w - String.length s) (String c) s.

(** [utf8.RuneStart] of the byte at [n]; no byte starts a rune past the end. *)
Definition rune_start (s : string) (n : nat) : bool :=
  match String.get n s with
  | Some c => negb (N.eqb (N.land (N_of_ascii c) 192) 128)
  | None => false
  end.

(** The nearest rune boundary at or before [n], and at or after it. *)
Fixpoint cut_back (s : string) (n : nat) : nat :=
  match n with
  | O => O
  | S m => if rune_start s n then n else cut_back s m
  end.
Fixpoint cut_forward (s : string) (n fuel : nat) : nat :=
  match fuel with
  | O => n
  | S fuel => if rune_start s n then n else cut_forward s (S n) fuel
  end.

(** [s[:n]] and [s[n:]]. *)
Definition take_bytes (n : nat) (s : string) : string := String.substring 0 n s.
Definition drop_bytes (n : nat) (s : string) : string := String.substring n (String.length s) s.

(** [t.UTC().Format(time.RFC3339)]: the civil date of a day count by the usual
    400-year cycle, with years starting in March. *)
Definition civil_of_days (days : Z) : Z * Z * Z :=
  let z := days + 306 in
  let era := z / 146097 in
  let doe := z mod 146097 in
  let yoe := (doe - doe / 1460 + doe / 36524 - doe / 146096) / 365 in
  let doy := doe - (365 * yoe + yoe / 4 - yoe / 100) in
  let mp := (5 * doy + 2) / 153 in
  let month := if mp <? 10 then mp + 3 else mp - 9 in
  (yoe + era * 400 + (if month <=? 2 then 1 else 0), month, doy - (153 * mp + 2) / 5 + 1).

(** The last [w] decimal digits of a number, and [appendInt] of package time:
    a sign, zeros up to the width, the digits. *)
Definition digit (d : Z) : ascii := ascii_of_N (Z.to_N (48 + d)).
Fixpoint last_digits (w : nat) (z : Z) : string :=
  match w with
  | O => EmptyString
  | S w => last_digits w (z / 10) +:+ String (digit (z mod 10)) EmptyString
  end.
Definition format_width (w : nat) (z : Z) : string :=
  let digits u := if u <? 10 ^ Z.of_nat w then last_digits w u else format_d u in
  if z <? 0 then "-" +:+ digits (- z) else digits z.

Definition FormatRFC3339 (t : Time) : string :=
  let secs := t / Second in
  let '(y, m, d) := civil_of_days (secs / 86400) in
  let s := secs mod 86400 in
  format_width 4 y +:+ "-" +:+ format_width 2 m +:+ "-" +:+ format_width 2 d +:+ "T" +:+
  format_width 2 (s / 3600) +:+ ":" +:+ format_width 2 (s / 60 mod 60) +:+ ":" +:+
  format_width 2 (s mod 60) +:+ "Z".

Example rfc3339_unix_epoch : FormatRFC3339 unix_epoch = "1970-01-01T00:00:00Z".
Proof. reflexivity. Qed.
Example rfc3339_leap : FormatRFC3339 (unix_epoch + 1709164799 * Second) = "2024-02-28T23:59:59Z".
Proof. reflexivity. Qed.

(** [strings.Join]. *)
Fixpoint join (sep : string) (l : list string) : string :=
  match l with
  | [] => EmptyString
  | [s] => s
  | s :: l' => s +:+ sep +:+ join sep l'
  end.

(** [a < b] on strings is bytewise lexicographic. *)
Definition string_less (a b : string) : bool :=
  match String.compare a b with Lt => true | _ => false end.

Lemma equal_fold_spec s t : equal_fold s t = true <-> to_lower s = to_lower t.
Proof.
  revert t; induction s as [|c s IH]; destruct t as [|d t]; cbn; try easy.
  rewrite andb_true_iff, IH, Ascii.eqb_eq.
  split; [by intros [-> ->] | by intros [= -> ->]].
Qed.

Lemma equal_fold_refl s : equal_fold s s = true.
Proof. by apply equal_fold_spec. Qed.

Lemma equal_fold_sym s t : equal_fold s t = equal_fold t s.
Proof.
  apply eq_true_iff_eq. rewrite !equal_fold_spec. by split.
Qed.

Lemma equal_fold_trans s t u :
  equal_fold s t = true -> equal_fold t u = true -> equal_fold s u = true.
Proof. rewrite !equal_fold_spec. congruence. Qed.

#[export] Instance equal_fold_equivalence : Equivalence (fun s t => equal_fold s t = true).
Proof.
  split.
  - intros s. apply equal_fold_refl.
  - intros s t. by rewrite equal_fold_sym.
  - intros s t u. apply equal_fold_trans.
Qed.

Lemma append_nil_l (s : string) : EmptyString +:+ s = s.
Proof. done. Qed.

Lemma append_cons_l c (s t : string) : String c s +:+ t = String c (s +:+ t).
Proof. done. Qed.

Lemma append_nil_r (s : string) : s +:+ EmptyString = s.
Proof. induction s as [|c s IH]; [done|]. by rewrite append_cons_l, IH. Qed.

Lemma append_assoc (s t u : string) : (s +:+ t) +:+ u = s +:+ (t +:+ u).
Proof. induction s as [|c s IH]; [done|]. by rewrite !append_cons_l, IH. Qed.

Lemma length_app_string a b : String.length (a +:+ b) = (String.length a + String.length b)%nat.
Proof. induction a as [|c a IH]; [done|]. rewrite append_cons_l. cbn. by rewrite IH. Qed.

Lemma has_prefix_app p r : has_prefix (p +:+ r) p = true.
Proof.
  unfold has_prefix. induction p as [|a p IH]; [by destruct r|].
  rewrite append_cons_l. cbn. by destruct (ascii_dec a a).
Qed.

Lemma has_prefix_spec s p : has_prefix s p = true <-> exists r, s = p +:+ r.
Proof.
  split; [|intros [r ->]; apply has_prefix_app].
  unfold has_prefix. revert s; induction p as [|a p IH]; intros s H; [by exists s|].
  destruct s as [|b s]; [done|]. cbn in H. destruct (ascii_dec a b) as [->|]; [|done].
  destruct (IH s H) as [r ->]. by exists r.
Qed.

Lemma contains_app s t sub : contains t sub = true -> contains (s +:+ t) sub = true.
Proof.
  intros H. induction s as [|c s IH]; [done|].
  rewrite append_cons_l. cbn. by rewrite IH, orb_true_r.
Qed.

Lemma contains_refl s : contains s s = true.
Proof.
  assert (H : has_prefix s s = true).
  { apply has_prefix_spec. exists "". clear.
    induction s as [|c s IH]; [done|]. by rewrite append_cons_l, <- IH. }
  destruct s; cbn [contains]; by rewrite H.
Qed.

Lemma cut_prefix_spec s p r : cut_prefix s p = Some r <-> s = p +:+ r.
Proof.
  revert s; induction p as [|a p IH]; intros s; cbn; rewrite ?append_nil_l, ?append_cons_l.
  - split; congruence.
  - destruct s as [|b s]; [by split|]. destruct (Ascii.eqb_spec a b) as [->|Hn].
    + rewrite IH. split; congruence.
    + split; congruence.
Qed.

Lemma has_prefix_around c x y m :
  contains_byte c m = false -> has_prefix (x +:+ String c y) m = has_prefix x m.
Proof.
  unfold has_prefix. revert x. induction m as [|a m IH]; intros x Hm; [by destruct x|].
  cbn in Hm. apply orb_false_iff in Hm as [Ha Hm].
  destruct x as [|b x]; [rewrite append_nil_l|rewrite append_cons_l]; cbn.
  - destruct (ascii_dec a c) as [->|]; [|done]. by rewrite Ascii.eqb_refl in Ha.
  - destruct (ascii_dec a b); [|done]. by apply IH.
Qed.

(** A needle without the byte [c] lies wholly before or wholly after it. *)
Lemma contains_around c x y m :
  contains_byte c m = false ->
  contains (x +:+ String c y) m = contains x m || contains y m.
Proof.
  intros Hm. induction x as [|b x IH].
  - rewrite append_nil_l. cbn [contains]. rewrite orb_false_r.
    f_equal. apply (has_prefix_around c "" y m Hm).
  - rewrite append_cons_l. cbn [contains]. rewrite IH, orb_assoc. f_equal. f_equal.
    apply (has_prefix_around c (String b x) y m Hm).
Qed.

Lemma contains_first c m s : contains s (String c m) = true -> contains_byte c s = true.
Proof.
  induction s as [|b s IH]; [done|]. cbn [contains contains_byte].
  intros [H|H]%orb_true_iff; [|by rewrite IH, orb_true_r].
  apply has_prefix_spec in H as [r H]. rewrite append_cons_l in H.
  injection H as -> _. by rewrite Ascii.eqb_refl.
Qed.

Lemma contains_spec s m : contains s m = true <-> exists a b, s = a +:+ m +:+ b.
Proof.
  split.
  - induction s as [|c s IH]; cbn [contains]; intros [H|H]%orb_true_iff; try done.
    + apply has_prefix_spec in H as [r ->]. by exists "", r.
    + apply has_prefix_spec in H as [r ->]. by exists "", r.
    + destruct (IH H) as (a & b & ->). by exists (String c a), b.
  - intros (a & b & ->). apply contains_app.
    pose proof (has_prefix_app m b) as H. destruct (m +:+ b); cbn [contains]; by rewrite H.
Qed.

Lemma trim_left_suffix s : exists a, s = a +:+ trim_left s.
Proof.
  induction s as [|c s [a Ha]]; [by exists ""|]. cbn. destruct (is_space c).
  - exists (String c a). by rewrite append_cons_l, <- Ha.
  - by exists "".
Qed.

Lemma trim_right_prefix s : exists b, s = trim_right s +:+ b.
Proof.
  induction s as [|c s [b Hb]]; [by exists ""|]. cbn.
  destruct (trim_right s) as [|d r] eqn:E.
  - destruct (is_space c); [by exists (String c s)|]. by exists s.
  - exists b. rewrite append_cons_l. by rewrite <- Hb.
Qed.

(** Trimming only drops text. *)
Lemma contains_trim s m : contains (trim_space s) m = true -> contains s m = true.
Proof.
  unfold trim_space. destruct (trim_left_suffix s) as [a Ha].
  destruct (trim_right_prefix (trim_left s)) as [b Hb].
  intros (x & y & Hx)%contains_spec. apply contains_spec.
  exists (a +:+ x), (y +:+ b). rewrite Ha at 1. rewrite Hb, Hx, !append_assoc. done.
Qed.

Lemma contains_byte_app c s t : contains_byte c (s +:+ t) = contains_byte c s || contains_byte c t.
Proof.
  induction s as [|d s IH]; [done|]. rewrite append_cons_l. cbn.
  by rewrite IH, orb_assoc.
Qed.

(** Two words ended by the same byte, neither holding it: one is a prefix of
    the other only when they are equal. *)
Lemma has_prefix_word c x y s t :
  contains_byte c x = false -> contains_byte c y = false ->
  has_prefix (x +:+ String c s) (y +:+ String c t) = true -> x = y.
Proof.
  unfold has_prefix. revert x. induction y as [|b y IH]; intros [|a x] Hx Hy;
    rewrite ?append_nil_l, ?append_cons_l; cbn in *; try done.
  - apply orb_false_iff in Hx as [Ha _]. destruct (ascii_dec c a) as [->|]; [|done].
    by rewrite Ascii.eqb_refl in Ha.
  - apply orb_false_iff in Hy as [Hb _]. destruct (ascii_dec b c) as [->|]; [|done].
    by rewrite Ascii.eqb_refl in Hb.
  - apply orb_false_iff in Hx as [_ Hx], Hy as [_ Hy].
    destruct (ascii_dec b a) as [->|]; [|done]. intros H. f_equal. by apply IH.
Qed.

(** A byte that neither word holds separates them in one way. *)
Lemma append_sep_inj c x y x' y' :
  contains_byte c x = false -> contains_byte c x' = false ->
  x +:+ String c y = x' +:+ String c y' -> x = x' /\ y = y'.
Proof.
  revert x'. induction x as [|a x IH]; intros [|a' x'] Hx Hx' E;
    rewrite ?append_nil_l, ?append_cons_l in E; cbn in Hx, Hx'.
  - by injection E as ->.
  - injection E as -> _. by rewrite Ascii.eqb_refl in Hx'.
  - injection E as -> _. by rewrite Ascii.eqb_refl in Hx.
  - injection E as -> E. apply orb_false_iff in Hx as [_ Hx], Hx' as [_ Hx'].
    by destruct (IH x' Hx Hx' E) as [-> ->].
Qed.

Lemma append_last_inj c x x' : x +:+ String c "" = x' +:+ String c "" -> x = x'.
Proof.
  revert x'. induction x as [|a x IH]; intros [|a' x'] E;
    rewrite ?append_nil_l, ?append_cons_l in E; [done| | |].
  - injection E as _ E. by destruct x'.
  - injection E as _ E. by destruct x.
  - injection E as -> E. by rewrite (IH x' E).
Qed.

Definition is_digit (c : ascii) : bool :=
  let n := N_of_ascii c in ((48 <=? n) && (n <=? 57))%N.

(** ** strconv.Atoi *)

Fixpoint digits_value (acc : Z) (s : string) : option Z :=
  match s with
  | EmptyString => Some acc
  | String c s' =>
      if is_digit c then digits_value (10 * acc + (Z.of_N (N_of_ascii c) - 48)) s' else None
  end.

Definition unsigned_value (s : string) : option Z :=
  match s with EmptyString => None | _ => digits_value 0 s end.

(** Base 10, an optional sign, at least one digit, and the int64 range. *)
Definition Atoi (s : string) : option Z :=
  let v :=
    match s with
    | String c s' =>
        if Ascii.eqb c "+"%char then unsigned_value s'
        else if Ascii.eqb c "-"%char then Z.opp <$> unsigned_value s'
        else unsigned_value s
    | EmptyString => None
    end in
  match v with
  | Some n => if (int64_min <=? n) && (n <=? int64_max) then Some n else None
  | None => None
  end.

Lemma Atoi_max s n : Atoi s = Some n -> n <= int64_max.
Proof.
  unfold Atoi. case_match; [|done].
  destruct (Z.leb_spec int64_min z), (Z.leb_spec z int64_max); cbn; intros; simplify_eq; done.
Qed.

(** ** Lists *)

Lemma filter_all {A} (P : A -> Prop) `{forall x, Decision (P x)} (l : list A) :
  Forall P l -> filter P l = l.
Proof. induction 1 as [|x l Hx Hl IH]; [done|]. by rewrite filter_cons_True, IH. Qed.

Lemma filter_none {A} (P : A -> Prop) `{forall x, Decision (P x)} (l : list A) :
  Forall (fun x => ~ P x) l -> filter P l = [].
Proof. induction 1 as [|x l Hx Hl IH]; [done|]. by rewrite filter_cons_False, IH. Qed.

Lemma elem_of_map {A B} (f : A -> B) l y : y ∈ map f l <-> exists x, y = f x /\ x ∈ l.
Proof. apply list_elem_of_fmap. Qed.

Lemma elem_of_map_intro {A B} (f : A -> B) l x : x ∈ l -> f x ∈ map f l.
Proof. intros H. apply elem_of_map. by exists x. Qed.

Lemma NoDup_map_filter {A B} (f : A -> B) (P : A -> Prop) `{forall x, Decision (P x)} l :
  NoDup (map f l) -> NoDup (map f (filter P l)).
Proof.
  intros H1. apply (sublist_NoDup _ (map f l)); [done|].
  apply (fmap_sublist f), sublist_filter.
Qed.

Lemma filter_ext_elem {A} (P Q : A -> Prop) `{forall x, Decision (P x)}
    `{forall x, Decision (Q x)} (l : list A) :
  (forall x, x ∈ l -> P x <-> Q x) -> filter P l = filter Q l.
Proof.
  induction l as [|x l IH]; intros HPQ; [done|].
  rewrite !filter_cons, IH by (intros; apply HPQ; by right).
  pose proof (HPQ x ltac:(by left)). by destruct (decide (P x)), (decide (Q x)); try tauto.
Qed.

(** Searching from the end finds the last match. *)
Lemma find_rev_last {A} (f : A -> bool) l :
  List.find f (rev l) = last (filter (fun x => f x = true) l).
Proof.
  induction l as [|x l IH] using rev_ind; [done|].
  rewrite rev_app_distr, filter_app, filter_cons, filter_nil. cbn [rev app List.find].
  destruct (f x) eqn:E.
  - rewrite decide_True by done. by rewrite last_snoc.
  - rewrite decide_False by congruence. by rewrite app_nil_r.
Qed.

(** A boolean fact about the numbers below [n], checked one by one. *)
Lemma below_cases n (P : Z -> bool) z :
  forallb P (map Z.of_nat (seq 0 n)) = true -> 0 <= z < Z.of_nat n -> P z = true.
Proof.
  intros H Hz. rewrite forallb_forall in H. apply H, in_map_iff.
  exists (Z.to_nat z). split; [lia|apply in_seq; lia].
Qed.

(** A function without duplicate values on a list is injective there. *)
Lemma NoDup_map_inj {A B} (f : A -> B) l x y :
  NoDup (map f l) -> x ∈ l -> y ∈ l -> f x = f y -> x = y.
Proof.
  induction l as [|z l IH]; cbn; [by intros _ ?%elem_of_nil|].
  intros [Hz Hnd]%NoDup_cons. rewrite !elem_of_cons. intros [->|Hx] [->|Hy] E; try done.
  - destruct Hz. rewrite E. by apply elem_of_map_intro.
  - destruct Hz. rewrite <- E. by apply elem_of_map_intro.
  - by apply IH.
Qed.

(** In a list without duplicates an element splits it in one way. *)
Lemma NoDup_split_unique {A} (x : A) a b a' b' :
  NoDup (a ++ x :: b) -> a ++ x :: b = a' ++ x :: b' -> a = a' /\ b = b'.
Proof.
  revert a'. induction a as [|y a IH]; intros [|y' a'] Hnd E; cbn in *.
  - by injection E.
  - injection E as -> E2. subst. apply NoDup_cons in Hnd as [Hn _].
    destruct Hn. apply elem_of_app. right. by left.
  - injection E as -> E2. subst. apply NoDup_cons in Hnd as [Hn _].
    destruct Hn. apply elem_of_app. right. by left.
  - injection E as -> E. apply NoDup_cons in Hnd as [_ Hnd]. by destruct (IH a' Hnd E) as [-> ->].
Qed.

(** A map filled from a list of keys. *)
Lemma lookup_fill {A} (f : string -> A) l x :
  foldl (fun m n => <[n := f n]> m) (∅ : gmap string A) l !! x =
    if decide (x ∈ l) then Some (f x) else None.
Proof.
  induction l as [|n l IH] using rev_ind; [done|]. rewrite foldl_snoc.
  destruct (decide (n = x)) as [->|Hn].
  - rewrite lookup_insert_eq, decide_True; [done|]. apply elem_of_app. right. by left.
  - rewrite lookup_insert_ne, IH by done. apply decide_ext.
    rewrite elem_of_app, list_elem_of_singleton. naive_solver.
Qed.

(** ** Comparators

    Go's three-way comparators return a negative, zero or positive number. *)
Definition cmp_then (c d : comparison) : comparison :=
  match c with Eq => d | _ => c end.

(** A comparator that orders by a key with absent keys last. *)
Definition cmp_nil_last {K} (cmp : K -> K -> comparison) (a b : option K) : comparison :=
  match a, b with
  | None, None => Eq
  | None, Some _ => Gt
  | Some _, None => Lt
  | Some x, Some y => cmp x y
  end.

Definition cmp_less {A} (cmp : A -> A -> comparison) (a b : A) : bool :=
  match cmp a b with Lt => true | _ => false end.

(** The laws of a total preorder, stated on its comparator. *)
Class CmpOrder {A} (cmp : A -> A -> comparison) : Prop := {
  cmp_antisym : forall x y, cmp y x = CompOpp (cmp x y);
  cmp_trans : forall x y z, cmp x y <> Gt -> cmp y z <> Gt -> cmp x z <> Gt;
}.

Section CmpOrderFacts.
Context {A : Type} (cmp : A -> A -> comparison) `{!CmpOrder cmp}.

Lemma cmp_refl x : cmp x x = Eq.
Proof. pose proof (cmp_antisym x x). by destruct (cmp x x). Qed.

Lemma cmp_lt_le_trans x y z : cmp x y = Lt -> cmp y z <> Gt -> cmp x z = Lt.
Proof.
  intros Hxy Hyz.
  assert (Hxz : cmp x z <> Gt) by (apply (cmp_trans x y z); congruence).
  destruct (cmp x z) eqn:E; [|done|done].
  exfalso. apply (cmp_trans y z x Hyz).
  - rewrite (cmp_antisym x z), E. done.
  - rewrite (cmp_antisym x y), Hxy. done.
Qed.

Lemma cmp_le_lt_trans x y z : cmp x y <> Gt -> cmp y z = Lt -> cmp x z = Lt.
Proof.
  intros Hxy Hyz.
  assert (Hxz : cmp x z <> Gt) by (apply (cmp_trans x y z); congruence).
  destruct (cmp x z) eqn:E; [|done|done].
  exfalso. refine (cmp_trans z x y _ Hxy _).
  - rewrite (cmp_antisym x z), E. done.
  - rewrite (cmp_antisym y z), Hyz. done.
Qed.

Lemma cmp_eq_trans x y z : cmp x y = Eq -> cmp y z = cmp x z.
Proof.
  intros Hxy. destruct (cmp y z) eqn:Hyz.
  - assert (Hle : cmp x z <> Gt) by (apply (cmp_trans x y z); congruence).
    assert (Hge : cmp z x <> Gt).
    { apply (cmp_trans z y x).
      - rewrite (cmp_antisym y z), Hyz. done.
      - rewrite (cmp_antisym x y), Hxy. done. }
    rewrite (cmp_antisym x z) in Hge. by destruct (cmp x z).
  - symmetry. apply (cmp_le_lt_trans x y z); congruence.
  - pose proof (cmp_antisym y z) as Hzy. rewrite Hyz in Hzy.
    assert (Hzx : cmp z x = Lt).
    { apply (cmp_lt_le_trans z y x); [done|]. rewrite (cmp_antisym x y), Hxy. done. }
    pose proof (cmp_antisym z x) as Hxz. rewrite Hzx in Hxz. done.
Qed.
End CmpOrderFacts.

#[export] Instance cmp_order_Z : CmpOrder Z.compare.
Proof.
  split; intros.
  - apply Z.compare_antisym.
  - rewrite Z.compare_gt_iff in *. lia.
Qed.

#[export] Instance cmp_order_key {A B} (f : A -> B) cmp :
  CmpOrder cmp -> CmpOrder (fun a b => cmp (f a) (f b)).
Proof. intros [H1 H2]. split; intros; [apply H1 | by eapply H2]. Qed.

#[export] Instance cmp_order_flip {A} (cmp : A -> A -> comparison) :
  CmpOrder cmp -> CmpOrder (fun a b => cmp b a).
Proof. intros [H1 H2]. split; intros; [apply H1 | by eapply H2]. Qed.

#[export] Instance cmp_order_nil_last {K} (cmp : K -> K -> comparison) :
  CmpOrder cmp -> CmpOrder (cmp_nil_last cmp).
Proof.
  intros H. split.
  - intros [x|] [y|]; cbn; try done. apply cmp_antisym.
  - intros [x|] [y|] [z|]; cbn; try done. apply cmp_trans.
Qed.

#[export] Instance cmp_order_then {A} (c d : A -> A -> comparison) :
  CmpOrder c -> CmpOrder d -> CmpOrder (fun a b => cmp_then (c a b) (d a b)).
Proof.
  intros Hc Hd. split.
  - intros x y. rewrite (cmp_antisym (cmp := c) x y), (cmp_antisym (cmp := d) x y).
    by destruct (c x y).
  - intros x y z Hxy Hyz. destruct (c x y) eqn:E1; [| |done].
    + rewrite <- (cmp_eq_trans c x y z E1). destruct (c y z) eqn:E2; [|done|done].
      cbn in *. by apply (cmp_trans x y z).
    + rewrite (cmp_lt_le_trans c x y z E1); [done|]. by destruct (c y z).
Qed.

Lemma ascii_compare_nat a b : Ascii.compare a b = N.compare (N_of_ascii a) (N_of_ascii b).
Proof. done. Qed.

#[export] Instance cmp_order_string : CmpOrder String.compare.
Proof.
  split.
  - intros x y. apply String.compare_antisym.
  - induction x as [|a x IH]; intros [|b y] [|c z]; cbn; try done.
    rewrite !ascii_compare_nat.
    destruct (N.compare_spec (N_of_ascii a) (N_of_ascii b)) as [E1|E1|E1];
      destruct (N.compare_spec (N_of_ascii b) (N_of_ascii c)) as [E2|E2|E2];
      destruct (N.compare_spec (N_of_ascii a) (N_of_ascii c)) as [E3|E3|E3];
      try done; try lia.
    apply IH.
Qed.

(** ** Sorting

    [sort.SliceStable(s, less)]: a stable sort.  For a strict weak order the
    result is determined by the input, so insertion sort computes it. *)
Section StableSort.
Context {A : Type} (less : A -> A -> bool).

Fixpoint insert_stable (x : A) (l : list A) : list A :=
  match l with
  | [] => [x]
  | y :: l' => if less y x then y :: insert_stable x l' else x :: y :: l'
  end.

Definition sort_stable (l : list A) : list A := foldr insert_stable [] l.

Lemma insert_stable_perm x l : insert_stable x l ≡ₚ x :: l.
Proof.
  induction l as [|y l IH]; cbn; [done|]. destruct (less y x); [|done].
  rewrite IH. apply Permutation_swap.
Qed.

Lemma sort_stable_perm l : sort_stable l ≡ₚ l.
Proof.
  induction l as [|x l IH]; cbn; [done|]. by rewrite insert_stable_perm, IH.
Qed.
End StableSort.

Lemma sorted_app_le {A} (R : A -> A -> Prop) l1 l2 x y : StronglySorted R (l1 ++ l2) -> x ∈ l1 -> y ∈ l2 -> R x y.
Proof.
  induction l1 as [|z l1 IH]; intros H Hx Hy; [by apply not_elem_of_nil in Hx|].
  inversion H as [|? ? H1 H2]; subst. rewrite Forall_forall in H2.
  apply elem_of_cons in Hx as [->|Hx]; [apply H2, elem_of_app; by right|by apply IH].
Qed.

Section SortByCmp.
Context {A : Type} (cmp : A -> A -> comparison) `{!CmpOrder cmp}.

(** [x] may stand before [y]. *)
Definition cmp_le (x y : A) : Prop := cmp x y <> Gt.

#[export] Instance cmp_le_preorder : PreOrder cmp_le.
Proof.
  split.
  - intros x. unfold cmp_le. by rewrite (cmp_refl cmp).
  - intros x y z. apply cmp_trans.
Qed.

Lemma insert_stable_sorted x l :
  StronglySorted cmp_le l -> StronglySorted cmp_le (insert_stable (cmp_less cmp) x l).
Proof.
  induction 1 as [|y l Hl IH Hy]; cbn; [repeat constructor|].
  unfold cmp_less at 1. destruct (cmp y x) eqn:E.
  2: { constructor; [done|]. rewrite insert_stable_perm. constructor; [|done].
       unfold cmp_le. by rewrite E. }
  all: assert (Hxy : cmp_le x y) by (unfold cmp_le; rewrite (cmp_antisym y x), E; done);
    constructor; [by constructor|]; constructor; [done|];
    apply (Forall_impl _ _ _ Hy); intros z Hz; by transitivity y.
Qed.

Lemma sort_stable_sorted l : StronglySorted cmp_le (sort_stable (cmp_less cmp) l).
Proof.
  induction l as [|x l IH]; cbn; [constructor|]. by apply insert_stable_sorted.
Qed.

(** Stability: the elements that tie with [k] keep their order. *)
Lemma insert_stable_filter k x l :
  filter (fun y => cmp k y = Eq) (insert_stable (cmp_less cmp) x l) =
  filter (fun y => cmp k y = Eq) (x :: l).
Proof.
  induction l as [|y l IH]; [done|]. cbn [insert_stable].
  unfold cmp_less at 1. destruct (cmp y x) eqn:E; try done.
  rewrite filter_cons, IH, !filter_cons.
  destruct (decide (cmp k y = Eq)) as [Hy|Hy], (decide (cmp k x = Eq)) as [Hx|Hx]; try done.
  by rewrite (cmp_eq_trans cmp k y x Hy), Hx in E.
Qed.

Lemma sort_stable_filter k l :
  filter (fun y => cmp k y = Eq) (sort_stable (cmp_less cmp) l) =
  filter (fun y => cmp k y = Eq) l.
Proof.
  induction l as [|x l IH]; [done|]. cbn [sort_stable foldr].
  rewrite insert_stable_filter, !filter_cons. unfold sort_stable in IH. by rewrite IH.
Qed.

(** Where ties are equal, the result does not depend on the input's order. *)
Lemma sort_stable_canonical l l' :
  (forall x y, x ∈ l -> y ∈ l -> cmp x y = Eq -> x = y) ->
  l ≡ₚ l' -> sort_stable (cmp_less cmp) l = sort_stable (cmp_less cmp) l'.
Proof.
  intros Heq Hp. apply (StronglySorted_unique_strong cmp_le).
  - intros x y. rewrite !sort_stable_perm, <- Hp. intros Hx Hy Hxy Hyx.
    apply Heq; [done..|]. unfold cmp_le in *. rewrite (cmp_antisym x y) in Hyx.
    by destruct (cmp x y).
  - apply sort_stable_sorted.
  - apply sort_stable_sorted.
  - by rewrite !sort_stable_perm.
Qed.
End SortByCmp.

Lemma insert_stable_ext {A} (f g : A -> A -> bool) x l :
  (forall a b, f a b = g a b) -> insert_stable f x l = insert_stable g x l.
Proof. intros H. induction l as [|y l IH]; cbn; [done|]. by rewrite H, IH. Qed.

Lemma sort_stable_ext {A} (f g : A -> A -> bool) l :
  (forall a b, f a b = g a b) -> sort_stable f l = sort_stable g l.
Proof.
  intros H. induction l as [|x l IH]; cbn; [done|].
  unfold sort_stable in IH. rewrite IH. by apply insert_stable_ext.
Qed.

(** [sort.Strings]. *)
Definition sort_strings : list string -> list string := sort_stable string_less.

(** ** Automation

    The database [itervox] holds the facts that close the routine goals of the
    components: which part of the state an operation touches, and that it keeps
    the component's invariant.  Each component adds its own. *)
Create HintDb itervox.
Create Rewrite HintDb itervox.
#[export] Hint Resolve equal_fold_refl has_prefix_app contains_refl elem_of_map_intro
  sort_stable_perm sort_stable_sorted : itervox.
#[export] Hint Rewrite append_nil_l append_cons_l append_nil_r append_assoc : itervox.

(** Replace a string test by its outcome, from a disequality in the context. *)
Ltac eqb_neq H := let E := fresh in pose proof H as E; apply String.eqb_neq in E; rewrite E; clear E.
