(* ===== verification/Domain.v ===== *)
(** * Domain: the tracker-neutral data model (internal/domain)

    Pointers that may be nil are options.  Each record has its functional
    update instance, so [i <| issue_State := s |>] is a changed copy. *)

From stdpp Require Import base gmap list strings.
From S2P Require Import Prelude.

Record Comment := MkComment {
  comment_ID : string;
  comment_Body : string;
  comment_CreatedAt : option Time;
  comment_AuthorID : string;
  comment_AuthorName : string;
}.

Record BlockerRef := MkBlockerRef {
  br_ID : option string;
  br_Identifier : option string;
  br_State : option string;
  br_URL : option string;
  br_Origin : string;
  br_BranchName : option string;
}.

Definition BlockerOriginSubIssue : string := "sub_issue".

Record Issue := MkIssue {
  issue_ID : string;
  issue_Identifier : string;
  issue_Title : string;
  issue_Description : option string;
  issue_Priority : option Z;
  issue_State : string;
  issue_BranchName : option string;
  issue_URL : option string;
  issue_Labels : list string;
  issue_BlockedBy : list BlockerRef;
  issue_Comments : list Comment;
  issue_CreatedAt : option Time;
  issue_UpdatedAt : option Time;
}.

#[export] Instance eta_Issue : Settable Issue := {|
  eta_record i := MkIssue (issue_ID i) (issue_Identifier i) (issue_Title i)
    (issue_Description i) (issue_Priority i) (issue_State i) (issue_BranchName i)
    (issue_URL i) (issue_Labels i) (issue_BlockedBy i) (issue_Comments i)
    (issue_CreatedAt i) (issue_UpdatedAt i) |}.

#[export] Instance Comment_eq_dec : EqDecision Comment.
Proof. solve_decision. Defined.
#[export] Instance BlockerRef_eq_dec : EqDecision BlockerRef.
Proof. solve_decision. Defined.
#[export] Instance Issue_eq_dec : EqDecision Issue.
Proof. solve_decision. Defined.

(** The zero values Go gives an unset struct. *)
Definition zero_BlockerRef : BlockerRef := MkBlockerRef None None None None "" None.
Definition zero_Issue : Issue :=
  MkIssue "" "" "" None None "" None None [] [] [] None None.

(** ** Terminal states (terminal.go) *)

Definition IsTerminalState (state : string) (terminal : list string) : bool :=
  let s := trim_space state in
  if String.eqb s "" then false
  else existsb (fun t => equal_fold s (trim_space t)) terminal.

(** A terminal state matches a non-blank entry of the list up to surrounding
    white space and letter case. *)
Lemma IsTerminalState_spec state terminal :
  IsTerminalState state terminal = true <->
  trim_space state <> "" /\
  exists t, t ∈ terminal /\ to_lower (trim_space t) = to_lower (trim_space state).
Proof.
  unfold IsTerminalState. destruct (String.eqb_spec (trim_space state) "") as [E|E].
  - split; [done|]. by intros [? _].
  - rewrite existsb_exists. setoid_rewrite equal_fold_spec.
    setoid_rewrite <- list_elem_of_In. naive_solver.
Qed.

(** Spellings that differ in case and surrounding blanks are one state. *)
Lemma IsTerminalState_fold s s' terminal :
  equal_fold (trim_space s) (trim_space s') = true ->
  IsTerminalState s terminal = IsTerminalState s' terminal.
Proof.
  intros H. apply eq_true_iff_eq. rewrite !IsTerminalState_spec.
  apply equal_fold_spec in H. rewrite H.
  assert (Hb : trim_space s = "" <-> trim_space s' = "").
  { destruct (trim_space s), (trim_space s'); cbn in H; naive_solver. }
  by rewrite Hb.
Qed.
