(* ===== verification/State.v ===== *)
(** * State: the event loop's data (internal/orchestrator/state.go and the
    record types of its package)

    A Go map with pointer values becomes a map to the pointed-to record: the
    program never stores a nil pointer in these maps, and an update through the
    pointer is an update of the entry.  A nil map reads as the empty one.
    Fields that hold functions or channels are left out. *)

From stdpp Require Import base gmap list strings.
From Stdlib Require Import SpecFloat.
From S2P Require Import Prelude Domain.

(** ** Worker runs *)

Inductive TerminalReason :=
  | TerminalNone  (* the zero value of a live run *)
  | TerminalSucceeded
  | TerminalFailed
  | TerminalCanceledByReconciliation
  | TerminalStalled
  | TerminalInputRequired
  | TerminalRateLimited
  | TerminalStackUnavailable.

#[export] Instance TerminalReason_eq_dec : EqDecision TerminalReason.
Proof. solve_decision. Defined.

(** Without the floating-point cost.  [run_WorkerCancel] names the worker whose
    cancel function the entry holds; [None] is a nil function. *)
Record RunEntry := MkRunEntry {
  run_Issue : Issue;
  run_SessionID : string;
  run_AgentSessionID : string;
  run_WorkerHost : string;
  run_Backend : string;
  run_ProfileName : string;
  run_Kind : string;
  run_AutomationID : string;
  run_TriggerType : string;
  run_CommentCount : Z;
  run_PendingInputResume : bool;
  run_BranchName : string;
  run_PRURL : string;
  run_TerminalReason : TerminalReason;
  run_LastEventAt : option Time;
  run_LastMessage : string;
  run_InputTokens : Z;
  run_OutputTokens : Z;
  run_TotalTokens : Z;
  run_TurnCount : Z;
  run_RetryAttempt : option Z;
  run_StartedAt : Time;
  run_totalsInput : Z;
  run_totalsOutput : Z;
  run_totalsCounted : bool;
  run_WorkerCancel : option nat;
}.

#[export] Instance eta_RunEntry : Settable RunEntry := {|
  eta_record r := MkRunEntry (run_Issue r) (run_SessionID r) (run_AgentSessionID r)
    (run_WorkerHost r) (run_Backend r) (run_ProfileName r) (run_Kind r) (run_AutomationID r)
    (run_TriggerType r) (run_CommentCount r) (run_PendingInputResume r) (run_BranchName r)
    (run_PRURL r) (run_TerminalReason r) (run_LastEventAt r) (run_LastMessage r)
    (run_InputTokens r) (run_OutputTokens r) (run_TotalTokens r) (run_TurnCount r)
    (run_RetryAttempt r) (run_StartedAt r) (run_totalsInput r) (run_totalsOutput r)
    (run_totalsCounted r) (run_WorkerCancel r) |}.

Definition zero_RunEntry : RunEntry :=
  MkRunEntry zero_Issue "" "" "" "" "" "" "" "" 0 false "" "" TerminalNone None "" 0 0 0 0
    None zero_time 0 0 false None.

Record RetryEntry := MkRetryEntry {
  retry_IssueID : string;
  retry_Identifier : string;
  retry_Attempt : Z;
  retry_DueAt : Time;
  retry_Error : option string;
}.

Record InputRequiredEntry := MkInputRequiredEntry {
  ir_IssueID : string;
  ir_Identifier : string;
  ir_SessionID : string;
  ir_Context : string;
  ir_BranchName : string;
  ir_Backend : string;
  ir_Command : string;
  ir_WorkerHost : string;
  ir_ProfileName : string;
  ir_QuestionCommentKey : string;
  ir_QuestionCommentID : string;
  ir_QuestionAuthorID : string;
  ir_QuestionAuthorName : string;
  ir_QueuedAt : Time;
  ir_LastReplyCheckAt : Time;
  ir_QuestionStuckWarned : bool;
}.

#[export] Instance eta_InputRequiredEntry : Settable InputRequiredEntry := {|
  eta_record r := MkInputRequiredEntry (ir_IssueID r) (ir_Identifier r) (ir_SessionID r)
    (ir_Context r) (ir_BranchName r) (ir_Backend r) (ir_Command r) (ir_WorkerHost r)
    (ir_ProfileName r) (ir_QuestionCommentKey r) (ir_QuestionCommentID r)
    (ir_QuestionAuthorID r) (ir_QuestionAuthorName r) (ir_QueuedAt r) (ir_LastReplyCheckAt r)
    (ir_QuestionStuckWarned r) |}.

Record PendingInputResumeEntry := MkPendingInputResumeEntry {
  pir_IssueID : string;
  pir_Identifier : string;
  pir_SessionID : string;
  pir_Context : string;
  pir_UserMessage : string;
  pir_BranchName : string;
  pir_Backend : string;
  pir_Command : string;
  pir_WorkerHost : string;
  pir_ProfileName : string;
  pir_QuestionCommentKey : string;
  pir_QuestionCommentID : string;
  pir_QuestionAuthorID : string;
  pir_QuestionAuthorName : string;
  pir_QueuedAt : Time;
  pir_LastResumeAttemptAt : Time;
}.

#[export] Instance eta_PendingInputResumeEntry : Settable PendingInputResumeEntry := {|
  eta_record r := MkPendingInputResumeEntry (pir_IssueID r) (pir_Identifier r)
    (pir_SessionID r) (pir_Context r) (pir_UserMessage r) (pir_BranchName r) (pir_Backend r)
    (pir_Command r) (pir_WorkerHost r) (pir_ProfileName r) (pir_QuestionCommentKey r)
    (pir_QuestionCommentID r) (pir_QuestionAuthorID r) (pir_QuestionAuthorName r)
    (pir_QueuedAt r) (pir_LastResumeAttemptAt r) |}.

Record PausedSessionInfo := MkPausedSessionInfo {
  psi_IssueID : string;
  psi_SessionID : string;
  psi_WorkerHost : string;
  psi_Backend : string;
  psi_Command : string;
  psi_ProfileName : string;
}.

Record DiscardMarker := MkDiscardMarker {
  discard_Gen : Z;
  discard_At : Time;
}.

(** ** Inferred dependencies *)

Record InferredDepEntry := MkInferredDepEntry {
  ide_Source : string;
  ide_Evidence : string;
  ide_Confidence : spec_float;  (* an IEEE binary64 *)
  ide_InferredAt : Time;
  ide_Stale : bool;
  ide_BelowThreshold : bool;
  ide_SourceKnown : bool;
  ide_SourceTerminal : bool;
  ide_Overridden : bool;
  ide_Gating : bool;
}.

#[export] Instance eta_InferredDepEntry : Settable InferredDepEntry := {|
  eta_record e := MkInferredDepEntry (ide_Source e) (ide_Evidence e) (ide_Confidence e) (ide_InferredAt e)
    (ide_Stale e) (ide_BelowThreshold e) (ide_SourceKnown e) (ide_SourceTerminal e)
    (ide_Overridden e) (ide_Gating e) |}.

(** ** Backend health *)

Definition BackendStatusWarning : string := "warning".
Definition BackendStatusLimited : string := "limited".
Definition BackendStatusProbing : string := "probing".

Record BackendHealthEntry := MkBackendHealthEntry {
  bh_Backend : string;
  bh_Host : string;
  bh_Status : string;
  bh_Kind : string;
  bh_LimitType : string;
  bh_Source : string;
  bh_LimitedUntil : Time;
  bh_ResetKnown : bool;
  bh_Since : Time;
  bh_Hits : Z;
  bh_LastIssue : string;
  bh_ProbeIssue : string;
  bh_ThrottleCount : Z;
  bh_ThrottleWindowStart : Time;
}.

#[export] Instance eta_BackendHealthEntry : Settable BackendHealthEntry := {|
  eta_record e := MkBackendHealthEntry (bh_Backend e) (bh_Host e) (bh_Status e) (bh_Kind e)
    (bh_LimitType e) (bh_Source e) (bh_LimitedUntil e) (bh_ResetKnown e) (bh_Since e)
    (bh_Hits e) (bh_LastIssue e) (bh_ProbeIssue e) (bh_ThrottleCount e)
    (bh_ThrottleWindowStart e) |}.

#[export] Instance BackendHealthEntry_eq_dec : EqDecision BackendHealthEntry.
Proof. solve_decision. Defined.

Definition zero_BackendHealthEntry : BackendHealthEntry :=
  MkBackendHealthEntry "" "" "" "" "" "" zero_time false zero_time 0 "" "" 0 zero_time.

Record BackendHold := MkBackendHold {
  hold_Key : string;
  hold_Until : Time;
}.

Record AutoSwitchRecord := MkAutoSwitchRecord {
  asr_Source : string;
  asr_FromBackend : string;
  asr_FromProfile : string;
  asr_ToBackend : string;
  asr_ToProfile : string;
  asr_Reason : string;
  asr_FromKey : string;
  asr_SwitchedAt : Time;
}.

(** ** Automations *)

Record AutomationTriggerContext := MkAutomationTriggerContext {
  trig_Type : string;
  trig_FiredAt : Time;
  trig_AutomationID : string;
  trig_CurrentState : string;
  trig_Cron : string;
  trig_Timezone : string;
  trig_TriggerState : string;
  trig_PreviousState : string;
  trig_InputContext : string;
  trig_BlockedProfile : string;
  trig_BlockedBackend : string;
  trig_CommentID : string;
  trig_CommentBody : string;
  trig_CommentAuthorID : string;
  trig_CommentAuthorName : string;
  trig_CommentCreatedAt : string;
  trig_ErrorMessage : string;
  trig_WillRetry : bool;
  trig_RetryAttempt : Z;
  trig_RetryBackoffMs : Z;
  trig_PRURL : string;
  trig_PRBranch : string;
  trig_PRBaseBranch : string;
  trig_PRNumber : Z;
  trig_MergedSHA : string;
  trig_MergedAt : Time;
  trig_FailedProfile : string;
  trig_FailedBackend : string;
  trig_PromptTokensTotal : Z;
  trig_CompletionTokensTotal : Z;
  trig_SwitchedToProfile : string;
  trig_SwitchedToBackend : string;
  trig_ResolvedBlockers : list BlockerRef;
  trig_PreviouslyBlockedBy : list BlockerRef;
  trig_DependencyAuditVersion : Z;
  trig_DependencyUnblockedAt : Time;
  trig_MoveToState : string;
}.

#[export] Instance eta_AutomationTriggerContext : Settable AutomationTriggerContext := {|
  eta_record r := MkAutomationTriggerContext (trig_Type r) (trig_FiredAt r)
    (trig_AutomationID r) (trig_CurrentState r) (trig_Cron r) (trig_Timezone r)
    (trig_TriggerState r) (trig_PreviousState r) (trig_InputContext r) (trig_BlockedProfile r)
    (trig_BlockedBackend r) (trig_CommentID r) (trig_CommentBody r) (trig_CommentAuthorID r)
    (trig_CommentAuthorName r) (trig_CommentCreatedAt r) (trig_ErrorMessage r)
    (trig_WillRetry r) (trig_RetryAttempt r) (trig_RetryBackoffMs r) (trig_PRURL r)
    (trig_PRBranch r) (trig_PRBaseBranch r) (trig_PRNumber r) (trig_MergedSHA r)
    (trig_MergedAt r) (trig_FailedProfile r) (trig_FailedBackend r) (trig_PromptTokensTotal r)
    (trig_CompletionTokensTotal r) (trig_SwitchedToProfile r) (trig_SwitchedToBackend r)
    (trig_ResolvedBlockers r) (trig_PreviouslyBlockedBy r) (trig_DependencyAuditVersion r)
    (trig_DependencyUnblockedAt r) (trig_MoveToState r) |}.

Definition zero_AutomationTriggerContext : AutomationTriggerContext :=
  MkAutomationTriggerContext "" zero_time "" "" "" "" "" "" "" "" "" "" "" "" "" "" "" false 0
    0 "" "" "" 0 "" zero_time "" "" 0 0 "" "" [] [] 0 zero_time "".

Record AutomationDispatch := MkAutomationDispatch {
  ad_AutomationID : string;
  ad_ProfileName : string;
  ad_Instructions : string;
  ad_Trigger : AutomationTriggerContext;
  ad_AutoResume : bool;
  ad_MoveToState : string;
  ad_UseIssueLifecycle : bool;
}.

#[export] Instance eta_AutomationDispatch : Settable AutomationDispatch := {|
  eta_record d := MkAutomationDispatch (ad_AutomationID d) (ad_ProfileName d)
    (ad_Instructions d) (ad_Trigger d) (ad_AutoResume d) (ad_MoveToState d)
    (ad_UseIssueLifecycle d) |}.

Inductive AutomationQueueStatus :=
  | AutomationQueueQueued
  | AutomationQueueBlocked
  | AutomationQueueDispatching.

Record AutomationQueueEntry := MkAutomationQueueEntry {
  aq_ID : string;
  aq_AutomationID : string;
  aq_TriggerType : string;
  aq_Issue : Issue;
  aq_ProfileName : string;
  aq_Instructions : string;
  aq_Trigger : AutomationTriggerContext;
  aq_AutoResume : bool;
  aq_MoveToState : string;
  aq_UseIssueLifecycle : bool;
  aq_Status : AutomationQueueStatus;
  aq_Reason : string;
  aq_ReasonDetail : string;
  aq_QueuedAt : Time;
  aq_FiredAt : Time;
  aq_LastFiredAt : Time;
  aq_LastAttemptAt : Time;
  aq_AttemptCount : Z;
  aq_LastError : string;
}.

#[export] Instance eta_AutomationQueueEntry : Settable AutomationQueueEntry := {|
  eta_record e := MkAutomationQueueEntry (aq_ID e) (aq_AutomationID e) (aq_TriggerType e)
    (aq_Issue e) (aq_ProfileName e) (aq_Instructions e) (aq_Trigger e) (aq_AutoResume e)
    (aq_MoveToState e) (aq_UseIssueLifecycle e) (aq_Status e) (aq_Reason e)
    (aq_ReasonDetail e) (aq_QueuedAt e) (aq_FiredAt e) (aq_LastFiredAt e)
    (aq_LastAttemptAt e) (aq_AttemptCount e) (aq_LastError e) |}.

Record AutomationQueueBackpressure := MkAutomationQueueBackpressure {
  bp_Length : Z;
  bp_MaxLength : Z;
  bp_Saturated : bool;
  bp_PausedProducers : bool;
  bp_RejectedSinceBoot : Z;
  bp_LastRejectedAt : Time;
  bp_LastRejectedReason : string;
  bp_LastRejectedAutomationID : string;
  bp_LastRejectedTrigger : string;
  bp_LastRejectedIdentifier : string;
}.

#[export] Instance eta_AutomationQueueBackpressure : Settable AutomationQueueBackpressure := {|
  eta_record b := MkAutomationQueueBackpressure (bp_Length b) (bp_MaxLength b)
    (bp_Saturated b) (bp_PausedProducers b) (bp_RejectedSinceBoot b) (bp_LastRejectedAt b)
    (bp_LastRejectedReason b) (bp_LastRejectedAutomationID b) (bp_LastRejectedTrigger b)
    (bp_LastRejectedIdentifier b) |}.

(** ** Dependency audit *)

Inductive DependencyAuditStatus :=
  | DependencyAuditUnknown
  | DependencyAuditBlocked
  | DependencyAuditUnblocked.

#[export] Instance DependencyAuditStatus_eq_dec : EqDecision DependencyAuditStatus.
Proof. solve_decision. Defined.

Inductive DependencyAuditSource :=
  | DependencySourceTrackerRelation
  | DependencySourceIssueText
  | DependencySourceIssueComment
  | DependencySourceSubIssue.

#[export] Instance DependencyAuditSource_eq_dec : EqDecision DependencyAuditSource.
Proof. solve_decision. Defined.

Record DependencyAuditEntry := MkDependencyAuditEntry {
  da_IssueID : string;
  da_Identifier : string;
  da_IssueState : string;
  da_Status : DependencyAuditStatus;
  da_Sources : list DependencyAuditSource;
  da_BlockedBy : list BlockerRef;
  da_UnresolvedBlockers : list BlockerRef;
  da_ResolvedBlockers : list BlockerRef;
  da_WasBlocked : bool;
  da_FirstBlockedAt : Time;
  da_UnblockedAt : Time;
  da_LastAuditedAt : Time;
  da_LastTransitionVersion : Z;
  da_LastTransitionReason : string;
  da_InFlight : bool;
  da_ConsecutiveFailures : Z;
  da_LastRefreshAttemptAt : Time;
}.

#[export] Instance eta_DependencyAuditEntry : Settable DependencyAuditEntry := {|
  eta_record e := MkDependencyAuditEntry (da_IssueID e) (da_Identifier e) (da_IssueState e)
    (da_Status e) (da_Sources e) (da_BlockedBy e) (da_UnresolvedBlockers e)
    (da_ResolvedBlockers e) (da_WasBlocked e) (da_FirstBlockedAt e) (da_UnblockedAt e)
    (da_LastAuditedAt e) (da_LastTransitionVersion e) (da_LastTransitionReason e)
    (da_InFlight e) (da_ConsecutiveFailures e) (da_LastRefreshAttemptAt e) |}.

(** ** Reviews *)

Record ReviewComment := MkReviewComment {
  rc_Path : string;
  rc_Line : Z;
  rc_Body : string;
}.

Record ReviewVerdict := MkReviewVerdict {
  rv_Profile : string;
  rv_Verdict : string;
  rv_Reasons : list string;
  rv_Comments : list ReviewComment;
  rv_RecordedAt : Time;
}.

#[export] Instance eta_ReviewVerdict : Settable ReviewVerdict := {|
  eta_record v := MkReviewVerdict (rv_Profile v) (rv_Verdict v) (rv_Reasons v)
    (rv_Comments v) (rv_RecordedAt v) |}.

Record ReviewOutcome := MkReviewOutcome {
  ro_Blocked : bool;
  ro_Approvals : Z;
  ro_Blocks : Z;
  ro_Quorum : string;
}.

#[export] Instance eta_ReviewOutcome : Settable ReviewOutcome := {|
  eta_record o := MkReviewOutcome (ro_Blocked o) (ro_Approvals o) (ro_Blocks o) (ro_Quorum o) |}.

Record PendingReview := MkPendingReview {
  pr_IssueID : string;
  pr_Identifier : string;
  pr_Profile : string;
  pr_QueuedAt : Time;
  pr_IssueState : string;
}.

(** ** Failures and status history *)

Inductive FailureKind :=
  | FailureKindWorkerFailed | FailureKindWorkerStalled | FailureKindTrackerPoll
  | FailureKindTrackerWrite | FailureKindPersist | FailureKindOutbox
  | FailureKindPanic | FailureKindClient | FailureKindAutomation.

#[export] Instance FailureKind_eq_dec : EqDecision FailureKind.
Proof. solve_decision. Defined.

Record FailureRecord := MkFailureRecord {
  fr_Kind : FailureKind;
  fr_Identifier : string;
  fr_Source : string;
  fr_Message : string;
  fr_OccurredAt : Time;
  fr_RecordedAt : Time;
  fr_Count : Z;
}.

#[export] Instance eta_FailureRecord : Settable FailureRecord := {|
  eta_record f := MkFailureRecord (fr_Kind f) (fr_Identifier f) (fr_Source f) (fr_Message f)
    (fr_OccurredAt f) (fr_RecordedAt f) (fr_Count f) |}.

Record IssueStatusChange := MkIssueStatusChange {
  sc_Identifier : string;
  sc_FromState : string;
  sc_ToState : string;
  sc_Source : string;
  sc_AutomationID : string;
  sc_TriggerType : string;
  sc_ProfileName : string;
  sc_Backend : string;
  sc_WorkerHost : string;
  sc_Reason : string;
  sc_At : Time;
}.

#[export] Instance eta_IssueStatusChange : Settable IssueStatusChange := {|
  eta_record c := MkIssueStatusChange (sc_Identifier c) (sc_FromState c) (sc_ToState c)
    (sc_Source c) (sc_AutomationID c) (sc_TriggerType c) (sc_ProfileName c) (sc_Backend c)
    (sc_WorkerHost c) (sc_Reason c) (sc_At c) |}.

(** ** The loop state *)

(** Dependency cycles and attention rows (tick_graph.go, dependency_attention.go),
    the tick's counters (dispatch_pressure.go), the last tracker error
    (tracker_error.go) and the candidate rows (candidate_seen.go). *)
Record DependencyCycle := MkDependencyCycle {
  dc_Members : list string;
  dc_Kind : string;
  dc_DetectedAt : Time;
}.

Record DependencyAttentionEntry := MkDependencyAttentionEntry {
  att_Identifier : string;
  att_Blockers : list string;
  att_BlockedSince : Time;
  att_Kind : string;
}.

Record DispatchPressure := MkDispatchPressure {
  dp_TicksObserved : Z;
  dp_TicksSlotBound : Z;
  dp_TicksDependencyBound : Z;
  dp_SlotsOccupiedTotal : Z;
  dp_SlotsCapacityTotal : Z;
  dp_BlockedByDependency : Z;
  dp_EligibleWaiting : Z;
}.

#[export] Instance eta_DispatchPressure : Settable DispatchPressure := {|
  eta_record d := MkDispatchPressure (dp_TicksObserved d) (dp_TicksSlotBound d)
    (dp_TicksDependencyBound d) (dp_SlotsOccupiedTotal d) (dp_SlotsCapacityTotal d)
    (dp_BlockedByDependency d) (dp_EligibleWaiting d) |}.

Record TrackerErrorInfo := MkTrackerErrorInfo {
  te_At : Time;
  te_Op : string;
  te_Kind : string;
  te_Message : string;
  te_ResetAt : Time;
}.

Record CandidateSeenRow := MkCandidateSeenRow {
  cs_Identifier : string;
  cs_UpdatedAt : Time;
}.

(** The event loop's state.  Its one field left out is [Totals], the
    floating-point cost accounting no decision reads. *)
Record State := MkState {
  Draining : bool;
  PollIntervalMs : Z;
  MaxConcurrentAgents : Z;
  ActiveStates : list string;
  TerminalStates : list string;
  PauseDispatchWhenAnyInState : list string;
  Running : gmap string RunEntry;
  ExitPending : gset string;
  Claimed : gset string;
  RetryAttempts : gmap string RetryEntry;
  PausedIdentifiers : gmap string string;
  PauseReasons : gmap string string;
  PausedSessions : gmap string PausedSessionInfo;
  IssueProfiles : gmap string string;
  IssueBackends : gmap string string;
  AutoSwitchedIdentifiers : gset string;
  AutoSwitchedAt : gmap string Time;
  SwitchHistory : gmap string (list Time);
  RateLimitCooldowns : gmap string Time;
  RateLimitCapCommentUntil : gmap string Time;
  AutoSwitchInfo : gmap string AutoSwitchRecord;
  BackendHealth : gmap string BackendHealthEntry;
  BackendLimitedHolds : gmap string BackendHold;
  ForceReanalyze : gset string;
  PendingRestacks : gset string;
  PrevActiveIdentifiers : gset string;
  PrevIssueStates : gmap string string;
  IssueStatusHistory : gmap string (list IssueStatusChange);
  DiscardingIdentifiers : gmap string DiscardMarker;
  DiscardGeneration : Z;
  FailureAcks : gmap string Time;
  InputRequiredIssues : gmap string InputRequiredEntry;
  PendingInputResumes : gmap string PendingInputResumeEntry;
  AutomationQueue : gmap string AutomationQueueEntry;
  AutomationQueueOrder : list string;
  QueueBackpressure : AutomationQueueBackpressure;
  ReviewVerdicts : gmap string (list ReviewVerdict);
  ReviewChainIndex : gmap string Z;
  ReviewOutcomes : gmap string ReviewOutcome;
  PersistWriteErrors : Z;
  Pressure : DispatchPressure;
  LastTrackerError : TrackerErrorInfo;
  ConsecutivePollFailures : Z;
  RecentFailures : list FailureRecord;
  DependencyAudit : gmap string DependencyAuditEntry;
  DependencyTransitionSeq : Z;
  LastBlockersResolvedAuditSeq : Z;
  DepsRefreshInFlight : bool;
  DepsRefreshStartedAt : Time;
  DepsRefreshBatchSize : Z;
  DepsRefreshLastDurationMs : Z;
  DepsRefreshGeneration : Z;
  PROpenedDispatched : gset string;
  PRMergedDispatched : gset string;
  AutomationDropsSelfReentryTotal : Z;
  AutomationDispatchesPROpenedTotal : Z;
  AutomationDroppedPROpenedDedupTotal : Z;
  AutomationDispatchesPRMergedTotal : Z;
  AutomationDroppedPRMergedDedupTotal : Z;
  TransportFailureCount : Z;
  InferredDeps : gmap string (list InferredDepEntry);
  DepsOverrides : gmap string Time;
  StackOnReviewState : string;
  CompletionState : string;
  StackUnavailable : gmap string string;
  PendingReviews : gmap string PendingReview;
  DependencyCycles : list DependencyCycle;
  DependencyAttention : list DependencyAttentionEntry;
  CandidateSeen : list CandidateSeenRow;
  OutboxSyncing : gset string;
}.

#[export] Instance eta_State : Settable State := {|
  eta_record s := MkState (Draining s) (PollIntervalMs s) (MaxConcurrentAgents s)
    (ActiveStates s) (TerminalStates s) (PauseDispatchWhenAnyInState s) (Running s)
    (ExitPending s) (Claimed s) (RetryAttempts s) (PausedIdentifiers s) (PauseReasons s)
    (PausedSessions s) (IssueProfiles s) (IssueBackends s) (AutoSwitchedIdentifiers s)
    (AutoSwitchedAt s) (SwitchHistory s) (RateLimitCooldowns s) (RateLimitCapCommentUntil s)
    (AutoSwitchInfo s) (BackendHealth s) (BackendLimitedHolds s) (ForceReanalyze s)
    (PendingRestacks s) (PrevActiveIdentifiers s) (PrevIssueStates s) (IssueStatusHistory s)
    (DiscardingIdentifiers s) (DiscardGeneration s) (FailureAcks s) (InputRequiredIssues s)
    (PendingInputResumes s) (AutomationQueue s) (AutomationQueueOrder s) (QueueBackpressure s)
    (ReviewVerdicts s) (ReviewChainIndex s) (ReviewOutcomes s) (PersistWriteErrors s)
    (Pressure s) (LastTrackerError s) (ConsecutivePollFailures s) (RecentFailures s)
    (DependencyAudit s) (DependencyTransitionSeq s) (LastBlockersResolvedAuditSeq s)
    (DepsRefreshInFlight s) (DepsRefreshStartedAt s) (DepsRefreshBatchSize s)
    (DepsRefreshLastDurationMs s) (DepsRefreshGeneration s) (PROpenedDispatched s)
    (PRMergedDispatched s) (AutomationDropsSelfReentryTotal s)
    (AutomationDispatchesPROpenedTotal s) (AutomationDroppedPROpenedDedupTotal s)
    (AutomationDispatchesPRMergedTotal s) (AutomationDroppedPRMergedDedupTotal s)
    (TransportFailureCount s) (InferredDeps s) (DepsOverrides s) (StackOnReviewState s)
    (CompletionState s) (StackUnavailable s) (PendingReviews s) (DependencyCycles s)
    (DependencyAttention s) (CandidateSeen s) (OutboxSyncing s) |}.

(** A state to evaluate examples on. *)
Definition empty_State : State :=
  MkState false 30000 3 ["Todo"] ["Done"] [] ∅ ∅ ∅ ∅ ∅ ∅ ∅ ∅ ∅ ∅ ∅ ∅ ∅ ∅ ∅ ∅ ∅ ∅ ∅ ∅ ∅ ∅ ∅ 0 ∅
    ∅ ∅ ∅ [] (MkAutomationQueueBackpressure 0 0 false false 0 zero_time "" "" "" "") ∅ ∅ ∅ 0
    (MkDispatchPressure 0 0 0 0 0 0 0) (MkTrackerErrorInfo zero_time "" "" "" zero_time) 0 []
    ∅ 0 0 false zero_time 0 0 0 ∅ ∅ 0 0 0 0 0 0 ∅ ∅ "" "" ∅ ∅ [] [] [] ∅.
