(* ===== verification/Config.v ===== *)
(** * Config: the settings the orchestrator reads (internal/config) and the
    backend a command line runs (backend_command.go, agent/multi.go)

    Only the fields some modelled operation reads are kept. *)

From stdpp Require Import base gmap list strings.
From Stdlib Require Import SpecFloat Ascii.
From S2P Require Import Prelude.

Record AgentProfile := MkAgentProfile {
  profile_Command : string;
  profile_Backend : string;
  profile_Enabled : option bool;
}.

Definition ProfileEnabled (p : AgentProfile) : bool :=
  match profile_Enabled p with None => true | Some b => b end.

(** ** agent.backend_fallback *)

Definition BackendFallbackDefaultProfileKey : string := "default".
Definition BackendFallbackUnmappedBackendHint : string := "backend_hint".
Definition BackendFallbackSwitchBackAtReset : string := "at_reset".
Definition BackendFallbackSwitchBackOnSuccess : string := "on_success".
Definition DefaultBackendFallbackCooldownMinutes : Z := 15.

Record BackendFallbackConfig := MkBackendFallbackConfig {
  fb_Enabled : bool;
  fb_Chain : list string;
  fb_ProfileMap : gmap string (gmap string string);
  fb_OnUnmapped : string;
  fb_DefaultCooldownMinutes : Z;
  fb_MinDwellMinutes : Z;
  fb_SwitchBack : string;
}.

(** An absent key of either map reads as the empty string. *)
Definition Lookup (b : BackendFallbackConfig) (profile backend : string) : string :=
  let profile := if String.eqb profile "" then BackendFallbackDefaultProfileKey else profile in
  match fb_ProfileMap b !! profile with
  | Some row => default "" (row !! backend)
  | None => ""
  end.

Definition CooldownMinutes (b : BackendFallbackConfig) : Z :=
  if 0 <? fb_DefaultCooldownMinutes b then fb_DefaultCooldownMinutes b
  else DefaultBackendFallbackCooldownMinutes.

(** ** The configuration *)

Record AgentConfig := MkAgentConfig {
  agent_Command : string;
  agent_Backend : string;
  agent_MaxConcurrentAgents : Z;
  agent_MaxConcurrentAgentsByState : gmap string Z;
  agent_StallTimeoutMs : Z;
  agent_MaxRetryBackoffMs : Z;
  agent_MaxAutomationQueueLength : Z;
  agent_Profiles : gmap string AgentProfile;
  agent_BackendFallback : BackendFallbackConfig;
  agent_ReviewerProfile : string;
  agent_ReviewerProfiles : list string;
  agent_ReviewQuorum : string;
  agent_PauseDispatchWhenAnyInState : list string;
  agent_SSHHosts : list string;
  agent_DispatchStrategy : string;
  agent_MaxRetries : Z;
  agent_AutoReview : bool;
  agent_InlineInput : bool;
  agent_MaxSwitchesPerIssuePerWindow : Z;
  agent_SwitchWindowHours : Z;
  agent_SwitchRevertHours : Z;
  agent_RateLimitErrorPatterns : list string;
  agent_RateLimitErrorPatternsMode : string;
  agent_TransportErrorPatterns : list string;
  agent_DependencyAuditRefreshIntervalMs : Z;
  agent_DependencyAuditRefreshTimeoutMs : Z;
  agent_DependencyAuditRefreshBatchSize : Z;
}.

Definition DefaultDependencyAuditRefreshIntervalMs : Z := 600000.
Definition DefaultDependencyAuditRefreshTimeoutMs : Z := 30000.
Definition DefaultDependencyAuditRefreshBatchSize : Z := 100.

#[export] Instance eta_AgentConfig : Settable AgentConfig := {|
  eta_record a := MkAgentConfig (agent_Command a) (agent_Backend a) (agent_MaxConcurrentAgents a)
    (agent_MaxConcurrentAgentsByState a) (agent_StallTimeoutMs a) (agent_MaxRetryBackoffMs a)
    (agent_MaxAutomationQueueLength a) (agent_Profiles a) (agent_BackendFallback a)
    (agent_ReviewerProfile a) (agent_ReviewerProfiles a) (agent_ReviewQuorum a)
    (agent_PauseDispatchWhenAnyInState a) (agent_SSHHosts a) (agent_DispatchStrategy a)
    (agent_MaxRetries a) (agent_AutoReview a) (agent_InlineInput a)
    (agent_MaxSwitchesPerIssuePerWindow a) (agent_SwitchWindowHours a) (agent_SwitchRevertHours a)
    (agent_RateLimitErrorPatterns a) (agent_RateLimitErrorPatternsMode a)
    (agent_TransportErrorPatterns a) (agent_DependencyAuditRefreshIntervalMs a)
    (agent_DependencyAuditRefreshTimeoutMs a) (agent_DependencyAuditRefreshBatchSize a) |}.

Record DependenciesConfig := MkDependenciesConfig {
  deps_InferredGating : bool;
  deps_ConfidenceThreshold : spec_float;
  deps_StalenessHours : Z;
  deps_StackedPRs : bool;
  deps_Ordering : string;
  deps_EscalateBlockedAfterHours : Z;
}.

Definition DependenciesOrderingSimple : string := "simple".
Definition DependenciesOrderingCriticalPathStrict : string := "critical_path_strict".
Definition DefaultDependenciesConfidenceThreshold : spec_float :=
  S754_finite false 6305039478318694 (-53).  (* 0.7 *)
Definition DefaultDependenciesStalenessHours : Z := 168.

Record TrackerConfig := MkTrackerConfig {
  tracker_ActiveStates : list string;
  tracker_TerminalStates : list string;
  tracker_CompletionState : string;
  tracker_BacklogStates : list string;
  tracker_FailedState : string;
  tracker_Outbox : bool;
}.

#[export] Instance eta_TrackerConfig : Settable TrackerConfig := {|
  eta_record t := MkTrackerConfig (tracker_ActiveStates t) (tracker_TerminalStates t)
    (tracker_CompletionState t) (tracker_BacklogStates t) (tracker_FailedState t)
    (tracker_Outbox t) |}.

Record Config := MkConfig {
  cfg_Tracker : TrackerConfig;
  cfg_PollingIntervalMs : Z;
  cfg_Agent : AgentConfig;
  cfg_Dependencies : DependenciesConfig;
  cfg_AutoClearWorkspace : bool;
  cfg_RateLimitReservePercent : Z;
}.

#[export] Instance eta_Config : Settable Config := {|
  eta_record c := MkConfig (cfg_Tracker c) (cfg_PollingIntervalMs c) (cfg_Agent c)
    (cfg_Dependencies c) (cfg_AutoClearWorkspace c) (cfg_RateLimitReservePercent c) |}.

(** A configuration to evaluate examples on. *)
Definition empty_config : Config :=
  MkConfig (MkTrackerConfig [] [] "" [] "" true) 30000
    (MkAgentConfig "claude" "" 3 ∅ 0 300000 0 ∅
       (MkBackendFallbackConfig false [] ∅ "" 0 0 "") "" [] "" [] [] "" 5 false false 2 6 0 [] "" []
       600000 30000 100)
    (MkDependenciesConfig false SpecFloat.S754_nan 0 false "critical_path" 0) false 10.

(** ** Commands *)

Definition BackendHintPrefix : string := "@@itervox-backend=".

Definition IsSupportedBackend (backend : string) : bool :=
  String.eqb backend "claude" || String.eqb backend "codex".

Definition is_blank_or_tab (c : ascii) : bool :=
  Ascii.eqb c " "%char || Ascii.eqb c "009"%char.

(** [rest[:IndexAny(rest, " \t")]] and the rest from that index on; [None]
    when there is no blank. *)
Fixpoint split_blank (s : string) : option (string * string) :=
  match s with
  | EmptyString => None
  | String c s' =>
      if is_blank_or_tab c then Some ("", s)
      else match split_blank s' with
           | Some (b, a) => Some (String c b, a)
           | None => None
           end
  end.

Fixpoint trim_left_blank (s : string) : string :=
  match s with
  | EmptyString => EmptyString
  | String c s' => if is_blank_or_tab c then trim_left_blank s' else s
  end.

(** [ParseBackendHint]: the hinted backend ("" for none) and the cleaned
    command. *)
Definition ParseBackendHint (command : string) : string * string :=
  let trimmed := trim_space command in
  match cut_prefix trimmed BackendHintPrefix with
  | None => ("", command)
  | Some "" => ("", command)
  | Some rest =>
      match split_blank rest with
      | None => (rest, "")
      | Some (b, a) => (b, trim_left_blank a)
      end
  end.

(** [strings.Fields]: the maximal runs of non-space bytes. [word] is the run
    being read. *)
Fixpoint fields_from (word : string) (s : string) : list string :=
  match s with
  | EmptyString => if String.eqb word "" then [] else [word]
  | String c s' =>
      if is_space c then
        if String.eqb word "" then fields_from "" s' else word :: fields_from "" s'
      else fields_from (word +:+ String c "") s'
  end.
Definition fields (s : string) : list string := fields_from "" s.

Definition is_letter (c : ascii) : bool :=
  let n := N_of_ascii c in ((65 <=? n) && (n <=? 90) || (97 <=? n) && (n <=? 122))%N.
Fixpoint forall_bytes (p : ascii -> bool) (s : string) : bool :=
  match s with
  | EmptyString => true
  | String c s' => p c && forall_bytes p s'
  end.

Definition IsEnvAssignment (token : string) : bool :=
  let '(key, _, ok) := cut_at "="%char token in
  if negb ok then false
  else match key with
       | EmptyString => false
       | String c rest =>
           (Ascii.eqb c "_"%char || is_letter c) &&
           forall_bytes (fun r => Ascii.eqb r "_"%char || is_letter r || is_digit r) rest
       end.

(** [filepath.Base] on a slash-separated path: trailing slashes are dropped;
    the last element is returned, "." for the empty path and "/" for a path
    of slashes only. *)
Definition path_base (p : string) : string :=
  if String.eqb p "" then "."
  else match filter (fun w => w <> "") (split_at "/"%char p) with
       | [] => "/"
       | w :: ws => List.last (w :: ws) ""
       end.

(** The scan after a token whose base is [env]. *)
Fixpoint first_after_env (ts : list string) : string :=
  match ts with
  | [] => ""
  | next :: ts' =>
      if IsEnvAssignment next || has_prefix next "-" then first_after_env ts' else next
  end.

(** The scan of [FirstCommandToken] over the fields, none of which is
    empty. *)
Fixpoint first_token (ts : list string) : string :=
  match ts with
  | [] => ""
  | token :: ts' =>
      if IsEnvAssignment token then first_token ts'
      else if String.eqb (path_base token) "env" then first_after_env ts'
      else token
  end.

Definition FirstCommandToken (command : string) : string := first_token (fields command).

Definition SplitBackendFromCommand (command : string) : string * string :=
  let '(hinted, rest) := ParseBackendHint command in
  if negb (String.eqb hinted "") then (hinted, rest)
  else
    let first := FirstCommandToken command in
    if String.eqb first "" then ("", command)
    else if IsSupportedBackend (path_base first) then (path_base first, command)
    else ("", command).

Definition BackendFromCommand (command : string) : string :=
  fst (SplitBackendFromCommand command).

Definition CommandWithBackendHint (command backend : string) : string :=
  if String.eqb backend "" then command
  else if String.eqb (BackendFromCommand command) backend then command
  else
    let '(current, cleaned) := ParseBackendHint command in
    if String.eqb current backend then command
    else
      let command := if negb (String.eqb current "") then cleaned else command in
      BackendHintPrefix +:+ backend +:+ " " +:+ command.

Definition ProfileRunsBackend (profile : AgentProfile) (defaultCommand : string) : string :=
  let command :=
    if String.eqb (trim_space (profile_Command profile)) "" then defaultCommand
    else profile_Command profile in
  let bin := BackendFromCommand command in
  if negb (String.eqb bin "") then bin
  else if IsSupportedBackend (profile_Backend profile) then profile_Backend profile
  else "".
