(* ===== verification/Retry.v ===== *)
(** * Retry: the back-off and the retry queue (internal/orchestrator/retry.go) *)

From stdpp Require Import base gmap list strings.
From S2P Require Import Prelude Domain State.

Definition BackoffMs (attempt maxMs : Z) : Z :=
  let attempt := if attempt <=? 0 then 1 else attempt in
  let shift := attempt - 1 in
  let shift := if 30 <? shift then 30 else shift in
  let delay := mul64 10000 (shl64 1 shift) in
  Z.min delay maxMs.

(** [time.Duration(delayMs) * time.Millisecond] is an int64 product. *)
Definition ScheduleRetry (state : State) (issueID : string) (attempt : Z)
    (identifier errMsg : string) (now : Time) (delayMs : Z) : State :=
  let dueAt := time_add now (mul64 delayMs Millisecond) in
  let errPtr := if String.eqb errMsg "" then None else Some errMsg in
  state
    <| RetryAttempts := <[issueID := MkRetryEntry issueID identifier attempt dueAt errPtr]>
                          (RetryAttempts state) |>
    <| Claimed := {[issueID]} ∪ Claimed state |>.

Definition CancelRetry (state : State) (issueID : string) : State :=
  state
    <| RetryAttempts := delete issueID (RetryAttempts state) |>
    <| Claimed := Claimed state ∖ {[issueID]} |>.

(** The exponent [BackoffMs] uses. *)
Definition backoff_shift (attempt : Z) : Z := Z.min 30 (Z.max 1 attempt - 1).

Lemma shl64_one_small n : 0 <= n <= 30 -> shl64 1 n = 2 ^ n.
Proof.
  intros H. unfold shl64. rewrite Z.shiftl_1_l. apply wrap64_id.
  unfold is_int64, int64_min, int64_max.
  pose proof (Z.pow_le_mono_r 2 n 30). pose proof (Z.pow_nonneg 2 n). lia.
Qed.

Lemma backoff_delay_exact n : 0 <= n <= 30 -> mul64 10000 (shl64 1 n) = 10000 * 2 ^ n.
Proof.
  intros H. rewrite (shl64_one_small n H). apply wrap64_id.
  unfold is_int64, int64_min, int64_max.
  pose proof (Z.pow_le_mono_r 2 n 30). pose proof (Z.pow_nonneg 2 n). lia.
Qed.

Lemma backoff_unfold attempt maxMs :
  BackoffMs attempt maxMs = Z.min (10000 * 2 ^ backoff_shift attempt) maxMs.
Proof.
  unfold BackoffMs, backoff_shift. rewrite <- backoff_delay_exact by lia.
  f_equal. f_equal. f_equal.
  destruct (Z.leb_spec attempt 0); case (Z.ltb_spec 30 _); intros; lia.
Qed.

Lemma backoff_shift_mono a b : a <= b -> backoff_shift a <= backoff_shift b.
Proof. unfold backoff_shift. lia. Qed.

(** [BackoffMs] is the documented formula, exactly: for every attempt the
    int64 arithmetic does not overflow and the delay is
    [min (10 s * 2^(attempt-1)) maxMs] with the exponent held at 30; the delay
    never exceeds the ceiling, is positive when the ceiling is, and never
    shrinks from one attempt to the next. *)
Theorem backoff_formula (attempt maxMs : Z) :
  BackoffMs attempt maxMs = Z.min (10000 * 2 ^ Z.min 30 (Z.max 1 attempt - 1)) maxMs /\
  BackoffMs attempt maxMs <= maxMs /\
  BackoffMs attempt maxMs <= BackoffMs (attempt + 1) maxMs /\
  (0 < maxMs -> 0 < BackoffMs attempt maxMs).
Proof.
  rewrite !backoff_unfold. split; [done|].
  pose proof (Z.pow_le_mono_r 2 (backoff_shift attempt) (backoff_shift (attempt + 1)) ltac:(lia)
                ltac:(apply backoff_shift_mono; lia)).
  pose proof (Z.pow_pos_nonneg 2 (backoff_shift attempt) ltac:(lia) ltac:(unfold backoff_shift; lia)).
  lia.
Qed.

Lemma schedule_retry_lookup state id attempt ident err now delayMs :
  RetryAttempts (ScheduleRetry state id attempt ident err now delayMs) !! id =
  Some (MkRetryEntry id ident attempt (time_add now (mul64 delayMs Millisecond))
          (if String.eqb err "" then None else Some err)).
Proof. cbn. by rewrite lookup_insert_eq. Qed.

Lemma schedule_retry_claims state id attempt ident err now delayMs :
  id ∈ Claimed (ScheduleRetry state id attempt ident err now delayMs).
Proof. cbn. set_solver. Qed.

(** Scheduling and then cancelling an issue that was neither claimed nor
    queued gives the state back. *)
Lemma cancel_schedule_retry state id attempt ident err now delayMs :
  RetryAttempts state !! id = None -> id ∉ Claimed state ->
  CancelRetry (ScheduleRetry state id attempt ident err now delayMs) id = state.
Proof.
  intros Hr Hc. unfold CancelRetry, ScheduleRetry. destruct state. cbn in *.
  rewrite delete_insert_id by done.
  assert (({[id]} ∪ Claimed) ∖ {[id]} = Claimed) as -> by (apply set_eq; set_solver).
  done.
Qed.
