(* ===== verification/Dispatch.v ===== *)
(** * Dispatch: who may be dispatched (internal/orchestrator/dispatch.go,
    pause_dispatch.go, and the parts of dependency_audit.go, stacked_base.go
    and backend_health.go its guards call) *)

From stdpp Require Import base gmap list strings.
From S2P Require Import Prelude Domain State Config.

(** ** State lists *)

Definition isActiveState (s : string) (state : State) : bool :=
  existsb (fun a => equal_fold s a) (ActiveStates state).

Definition isTerminalState (s : string) (state : State) : bool :=
  IsTerminalState s (TerminalStates state).

(** ** Slots *)

Definition running_count (state : State) : Z := Z.of_nat (size (Running state)).

Definition AvailableSlots (state : State) : Z :=
  if Draining state then 0
  else
    let n := MaxConcurrentAgents state - running_count state in
    if n <? 0 then 0 else n.

Definition countRunningInState (state : State) (issueState : string) : Z :=
  map_fold (fun _ entry count =>
    if equal_fold (issue_State (run_Issue entry)) issueState then count + 1 else count)
    0 (Running state).

(** ** The pause guard *)

(** The loop of [normalizePauseStates]: the entries in order, trimmed and
    lower-cased, without blanks and repetitions. *)
Fixpoint normalize_pause_from (seen : list string) (states : list string) : list string :=
  match states with
  | [] => []
  | s :: rest =>
      let normalized := to_lower (trim_space s) in
      if String.eqb normalized "" then normalize_pause_from seen rest
      else if bool_decide (normalized ∈ seen) then normalize_pause_from seen rest
      else normalized :: normalize_pause_from (normalized :: seen) rest
  end.
Definition normalizePauseStates (states : list string) : list string :=
  normalize_pause_from [] states.

(** The first state name of the list that lies in the pause set. *)
Fixpoint first_paused (pauseSet : list string) (states : list string) : option string :=
  match states with
  | [] => None
  | s :: rest =>
      if bool_decide (to_lower s ∈ pauseSet) then Some s else first_paused pauseSet rest
  end.

(** Go visits both maps in an unspecified order; only which of several
    matching names is reported depends on it. *)
Definition pausedByAnyInState (state : State) : string * bool :=
  match PauseDispatchWhenAnyInState state with
  | [] => ("", false)
  | pauseSet =>
      let running := (fun p => issue_State (run_Issue p.2)) <$> map_to_list (Running state) in
      let prev := snd <$> map_to_list (PrevIssueStates state) in
      match first_paused pauseSet running with
      | Some s => (s, true)
      | None =>
          match first_paused pauseSet prev with
          | Some s => (s, true)
          | None => ("", false)
          end
      end
  end.

(** ** Blockers *)

Definition blockerResolvedForDispatch (blocker : BlockerRef) (state : State) : bool :=
  match br_State blocker with
  | Some s => isTerminalState s state
  | None => false
  end.

Definition unresolvedBlockers (issue : Issue) (state : State) : list BlockerRef :=
  filter (fun b => blockerResolvedForDispatch b state = false) (issue_BlockedBy issue).

Definition firstUnresolvedBlocker (issue : Issue) (state : State) : option BlockerRef :=
  head (unresolvedBlockers issue state).

Definition blockerIdentifier (blocker : BlockerRef) : string :=
  default "" (br_Identifier blocker).

(** ** Stacked pull requests *)

Definition stackOnReviewState (cfg : Config) : string :=
  if negb (deps_StackedPRs (cfg_Dependencies cfg)) then ""
  else to_lower (trim_space (tracker_CompletionState (cfg_Tracker cfg))).

Definition reviewStackKey (issue : Issue) (state : State) : string :=
  if String.eqb (StackOnReviewState state) "" then ""
  else
    match unresolvedBlockers issue state with
    | [b] =>
        match br_State b with
        | None => ""
        | Some bs =>
            if negb (equal_fold (trim_space bs) (StackOnReviewState state)) then ""
            else
              match br_Identifier b with
              | None => ""
              | Some ident =>
                  if String.eqb ident "" then ""
                  else ident +:+ "@" +:+ to_lower (trim_space bs)
              end
        end
    | _ => ""
    end.

Definition reviewStackAdmits (issue : Issue) (state : State) : bool :=
  let key := reviewStackKey issue state in
  negb (String.eqb key "") &&
  negb (String.eqb (default "" (StackUnavailable state !! issue_Identifier issue)) key).

(** ** Backend holds *)

Definition backendHoldActive (state : State) (identifier : string) : bool :=
  match BackendLimitedHolds state !! identifier with
  | None => false
  | Some h =>
      match BackendHealth state !! hold_Key h with
      | None => false
      | Some e =>
          if String.eqb (bh_Status e) BackendStatusLimited then true
          else if String.eqb (bh_Status e) BackendStatusProbing then
            negb (String.eqb (bh_ProbeIssue e) "") &&
            negb (String.eqb (bh_ProbeIssue e) identifier)
          else false
      end
  end.

(** ** Eligibility *)

Definition IneligibleBackendLimited : string := "backend_limited".
Definition IneligibleBlockedByPrefix : string := "blocked_by:".
Definition IneligibleInferredBlockedByPrefix : string := "inferred_blocked_by:".

Definition missing_fields (issue : Issue) : bool :=
  String.eqb (issue_ID issue) "" || String.eqb (issue_Identifier issue) "" ||
  String.eqb (issue_Title issue) "" || String.eqb (issue_State issue) "".

(** The per-state limit, when one is configured for the issue's state. *)
Definition per_state_limited (issue : Issue) (state : State) (cfg : Config) : bool :=
  match agent_MaxConcurrentAgentsByState (cfg_Agent cfg) !! to_lower (issue_State issue) with
  | Some limit => limit <=? countRunningInState state (issue_State issue)
  | None => false
  end.

(** The first inferred edge that gates the issue. *)
Definition first_gating (issue : Issue) (state : State) : option InferredDepEntry :=
  find ide_Gating (default [] (InferredDeps state !! issue_Identifier issue)).

Definition ineligibleReasonShared (issue : Issue) (state : State) (cfg : Config)
    (allowInputRequired : bool) : string :=
  let ident := issue_Identifier issue in
  if isTerminalState (issue_State issue) state then "terminal_state"
  else if bool_decide (is_Some (PausedIdentifiers state !! ident)) then "paused"
  else if bool_decide (is_Some (DiscardingIdentifiers state !! ident)) then "discarding"
  else if bool_decide (is_Some (InputRequiredIssues state !! ident)) && negb allowInputRequired
  then "input_required"
  else if bool_decide (is_Some (PendingInputResumes state !! ident)) then "pending_input_resume"
  else if bool_decide (is_Some (Running state !! issue_ID issue)) then "already_running"
  else if bool_decide (issue_ID issue ∈ Claimed state) then "claimed"
  else if AvailableSlots state <=? 0 then "no_slots"
  else if snd (pausedByAnyInState state) then
    "paused_by_state:" +:+ fst (pausedByAnyInState state)
  else if per_state_limited issue state cfg then "per_state_limit"
  else
    match
      match firstUnresolvedBlocker issue state with
      | Some blocker => if reviewStackAdmits issue state then None else Some blocker
      | None => None
      end
    with
    | Some blocker => IneligibleBlockedByPrefix +:+ blockerIdentifier blocker
    | None =>
        match first_gating issue state with
        | Some entry => IneligibleInferredBlockedByPrefix +:+ ide_Source entry
        | None => if backendHoldActive state ident then IneligibleBackendLimited else ""
        end
    end.

Definition IneligibleReason (issue : Issue) (state : State) (cfg : Config) : string :=
  if missing_fields issue then "missing_fields"
  else if negb (isActiveState (issue_State issue) state) then "not_active_state"
  else ineligibleReasonShared issue state cfg false.

Definition IneligibleReasonForAutomation (issue : Issue) (state : State) (cfg : Config) : string :=
  if missing_fields issue then "missing_fields"
  else ineligibleReasonShared issue state cfg true.

Definition IsEligible (issue : Issue) (state : State) (cfg : Config) : bool :=
  String.eqb (IneligibleReason issue state cfg) "".

(** ** The guards as a specification *)

Lemma first_paused_spec pauseSet states :
  is_Some (first_paused pauseSet states) <-> exists s, s ∈ states /\ to_lower s ∈ pauseSet.
Proof.
  induction states as [|s states IH]; cbn.
  - split; [by intros [? ?] | by intros (? & ?%elem_of_nil & _)].
  - case_bool_decide as Hs.
    + split; [|by eauto]. intros _. exists s. split; [constructor | done].
    + rewrite IH. setoid_rewrite elem_of_cons. naive_solver.
Qed.

(** A state name in sight of the pause guard. *)
Definition pause_witness (state : State) (name : string) : Prop :=
  (exists id entry, Running state !! id = Some entry /\ name = issue_State (run_Issue entry)) \/
  (exists id, PrevIssueStates state !! id = Some name).

Definition paused_by_state (state : State) : Prop :=
  exists name, pause_witness state name /\ to_lower name ∈ PauseDispatchWhenAnyInState state.

Lemma elem_of_running_states (state : State) name :
  name ∈ ((fun p => issue_State (run_Issue p.2)) <$> map_to_list (Running state)) <->
  exists id entry, Running state !! id = Some entry /\ name = issue_State (run_Issue entry).
Proof.
  rewrite list_elem_of_fmap. split.
  - intros ([id entry] & -> & H%elem_of_map_to_list). eauto.
  - intros (id & entry & H & ->). exists (id, entry). by rewrite elem_of_map_to_list.
Qed.

Lemma elem_of_prev_states (state : State) name :
  name ∈ (snd <$> map_to_list (PrevIssueStates state)) <->
  exists id, PrevIssueStates state !! id = Some name.
Proof.
  rewrite list_elem_of_fmap. split.
  - intros ([id n] & -> & H%elem_of_map_to_list). eauto.
  - intros (id & H). exists (id, name). by rewrite elem_of_map_to_list.
Qed.

Lemma pausedByAnyInState_spec state :
  snd (pausedByAnyInState state) = true <-> paused_by_state state.
Proof.
  assert (Hdef : paused_by_state state <->
    is_Some (first_paused (PauseDispatchWhenAnyInState state)
      ((fun p => issue_State (run_Issue p.2)) <$> map_to_list (Running state))) \/
    is_Some (first_paused (PauseDispatchWhenAnyInState state)
      (snd <$> map_to_list (PrevIssueStates state)))).
  { rewrite !first_paused_spec. setoid_rewrite elem_of_running_states.
    setoid_rewrite elem_of_prev_states. unfold paused_by_state, pause_witness. naive_solver. }
  rewrite Hdef. clear Hdef. unfold pausedByAnyInState.
  destruct (PauseDispatchWhenAnyInState state) as [|p ps] eqn:E.
  { rewrite !first_paused_spec. setoid_rewrite elem_of_nil. split; [done | naive_solver]. }
  destruct (first_paused (p :: ps) _) as [s|] eqn:E1; [split; [by left | done]|].
  destruct (first_paused (p :: ps) (snd <$> _)) as [s|] eqn:E2; [split; [by right | done]|].
  split; [done | by intros [[? ?]|[? ?]]].
Qed.

Lemma AvailableSlots_pos state :
  0 < AvailableSlots state <-> Draining state = false /\ running_count state < MaxConcurrentAgents state.
Proof.
  unfold AvailableSlots. destruct (Draining state).
  { split; [lia | by intros [? _]]. }
  case (Z.ltb_spec (MaxConcurrentAgents state - running_count state) 0); intros; split; lia.
Qed.

(** What the shared guards let through, condition by condition. *)
Record dispatchable (issue : Issue) (state : State) (cfg : Config) (allowInput : bool) : Prop := {
  d_not_terminal : isTerminalState (issue_State issue) state = false;
  d_not_paused : PausedIdentifiers state !! issue_Identifier issue = None;
  d_not_discarding : DiscardingIdentifiers state !! issue_Identifier issue = None;
  d_no_input : allowInput = true \/ InputRequiredIssues state !! issue_Identifier issue = None;
  d_no_resume : PendingInputResumes state !! issue_Identifier issue = None;
  d_not_running : Running state !! issue_ID issue = None;
  d_not_claimed : issue_ID issue ∉ Claimed state;
  d_not_draining : Draining state = false;
  d_slot : running_count state < MaxConcurrentAgents state;
  d_no_pause_state : ~ paused_by_state state;
  d_per_state : forall limit,
    agent_MaxConcurrentAgentsByState (cfg_Agent cfg) !! to_lower (issue_State issue) = Some limit ->
    countRunningInState state (issue_State issue) < limit;
  d_blockers : unresolvedBlockers issue state = [] \/ reviewStackAdmits issue state = true;
  d_inferred : forall e,
    e ∈ default [] (InferredDeps state !! issue_Identifier issue) -> ide_Gating e = false;
  d_no_hold : backendHoldActive state (issue_Identifier issue) = false;
}.

Lemma append_nonempty (p s : string) : p <> "" -> p +:+ s <> "".
Proof. destruct p; [done|]. by rewrite append_cons_l. Qed.

(** Take the first guard of a chain of early returns: it did not fire, since
    the reason it returns is not empty. *)
Ltac next_guard H :=
  lazymatch goal with
  | |- (if ?b then _ else _) = "" -> _ =>
      destruct b eqn:H;
      [let Hx := fresh in intros Hx; first [discriminate Hx | by apply append_nonempty in Hx]|]
  end.

Lemma shared_empty_dispatchable issue state cfg allow :
  ineligibleReasonShared issue state cfg allow = "" -> dispatchable issue state cfg allow.
Proof.
  unfold ineligibleReasonShared.
  next_guard Hterm. next_guard Hpaused. next_guard Hdisc. next_guard Hinput.
  next_guard Hres. next_guard Hrun. next_guard Hcl. next_guard Hslots.
  next_guard Hps. next_guard Hlim. intros H.
  apply Z.leb_gt, AvailableSlots_pos in Hslots as [Hdr Hcap].
  apply bool_decide_eq_false in Hpaused, Hdisc, Hres, Hrun, Hcl.
  apply eq_None_not_Some in Hpaused, Hdisc, Hres, Hrun.
  assert (Hblk : unresolvedBlockers issue state = [] \/ reviewStackAdmits issue state = true).
  { revert H. unfold firstUnresolvedBlocker.
    destruct (unresolvedBlockers issue state) as [|b bs]; [by left|]. cbn.
    destruct (reviewStackAdmits issue state); [by right|]. by intros ?%append_nonempty. }
  assert (Hrest : match first_gating issue state with
    | Some entry => IneligibleInferredBlockedByPrefix +:+ ide_Source entry
    | None => if backendHoldActive state (issue_Identifier issue)
              then IneligibleBackendLimited else "" end = "").
  { revert H. unfold firstUnresolvedBlocker. destruct Hblk as [-> | Ha]; [done|].
    rewrite Ha. by destruct (head _). }
  destruct (first_gating issue state) as [g|] eqn:Hg; [by apply append_nonempty in Hrest|].
  constructor; try done.
  - apply andb_false_iff in Hinput as [Hi|Hi]; [right|left; by destruct allow].
    apply eq_None_not_Some. by apply bool_decide_eq_false in Hi.
  - rewrite <- pausedByAnyInState_spec. by rewrite Hps.
  - intros limit Hl. unfold per_state_limited in Hlim. rewrite Hl in Hlim.
    by apply Z.leb_gt in Hlim.
  - intros e He%list_elem_of_In. by apply (find_none _ _ Hg).
  - by destruct (backendHoldActive _ _).
Qed.

Lemma dispatchable_shared_empty issue state cfg allow :
  dispatchable issue state cfg allow -> ineligibleReasonShared issue state cfg allow = "".
Proof.
  intros []. unfold ineligibleReasonShared. rewrite d_not_terminal0.
  rewrite d_not_paused0, d_not_discarding0, d_no_resume0, d_not_running0.
  rewrite !(bool_decide_eq_false_2 (is_Some None)) by apply is_Some_None.
  replace (bool_decide (is_Some (InputRequiredIssues state !! issue_Identifier issue)) && negb allow)
    with false.
  2: { destruct d_no_input0 as [-> | ->]; [by rewrite andb_false_r|].
       by rewrite bool_decide_eq_false_2 by apply is_Some_None. }
  rewrite bool_decide_eq_false_2 by done.
  replace (AvailableSlots state <=? 0) with false.
  2: { symmetry. apply Z.leb_gt, AvailableSlots_pos. done. }
  destruct (snd (pausedByAnyInState state)) eqn:Hps.
  { apply pausedByAnyInState_spec in Hps. done. }
  replace (per_state_limited issue state cfg) with false.
  2: { unfold per_state_limited. destruct (agent_MaxConcurrentAgentsByState _ !! _) eqn:El; [|done].
       symmetry. apply Z.leb_gt. by apply d_per_state0. }
  replace (first_gating issue state) with (@None InferredDepEntry).
  2: { unfold first_gating. symmetry. destruct (find _ _) as [e|] eqn:E; [|done].
       apply find_some in E as [He%list_elem_of_In Hg].
       by rewrite (d_inferred0 _ He) in Hg. }
  rewrite d_no_hold0. unfold firstUnresolvedBlocker.
  destruct d_blockers0 as [-> | ->]; [done | by destruct (head _)].
Qed.

Lemma shared_empty_iff issue state cfg allow :
  ineligibleReasonShared issue state cfg allow = "" <-> dispatchable issue state cfg allow.
Proof. split; [apply shared_empty_dispatchable | apply dispatchable_shared_empty]. Qed.

(** C16: an issue is eligible for normal dispatch exactly when it is complete,
    in an active state, and every guard of the shared check holds: not
    terminal, paused, discarding, waiting for input or a resume, running or
    claimed; the loop is not draining and has a free slot; no tracked issue is
    in a pause state; its state's limit is not reached; its blockers are
    resolved or the one left is in review and may be stacked on; no inferred
    edge gates it; and no backend hold applies. *)
Theorem eligible_iff (issue : Issue) (state : State) (cfg : Config) :
  IsEligible issue state cfg = true <->
  missing_fields issue = false /\ isActiveState (issue_State issue) state = true /\
  dispatchable issue state cfg false.
Proof.
  unfold IsEligible. rewrite String.eqb_eq. unfold IneligibleReason.
  destruct (missing_fields issue); [naive_solver|].
  destruct (isActiveState _ _); cbn [negb]; [|naive_solver].
  rewrite shared_empty_iff. naive_solver.
Qed.

Lemma dispatchable_relax issue state cfg :
  dispatchable issue state cfg false <->
  dispatchable issue state cfg true /\ InputRequiredIssues state !! issue_Identifier issue = None.
Proof.
  split.
  - intros []. split; [constructor; auto|]. by destruct d_no_input0.
  - intros [[] Hi]. constructor; auto.
Qed.

(** the automation check is the normal check without its active-state and
    input-required conditions: an issue normal dispatch admits is admitted for
    automations, and one admitted for automations lacks at most those two
    conditions. *)
Theorem automation_check_relaxes (issue : Issue) (state : State) (cfg : Config) :
  IsEligible issue state cfg = true <->
  IneligibleReasonForAutomation issue state cfg = "" /\
  isActiveState (issue_State issue) state = true /\
  InputRequiredIssues state !! issue_Identifier issue = None.
Proof.
  unfold IsEligible, IneligibleReason, IneligibleReasonForAutomation. rewrite String.eqb_eq.
  destruct (missing_fields issue); [naive_solver|].
  destruct (isActiveState _ _); cbn [negb]; [|naive_solver].
  rewrite !shared_empty_iff, dispatchable_relax. naive_solver.
Qed.

Lemma dispatchable_slot issue state cfg allow :
  dispatchable issue state cfg allow -> 0 < AvailableSlots state.
Proof. intros []. by apply AvailableSlots_pos. Qed.
