(* ===== verification/Order.v ===== *)
(** * Order: the dispatch order (internal/orchestrator/dispatch.go
    [SortForDispatch] and sort_critical_path.go) *)

From stdpp Require Import base gmap list strings sorting.
From S2P Require Import Prelude Domain.

(** The two metrics of [GraphMetrics] the order reads; an absent identifier
    reads as 0. *)
Record GraphMetrics := MkGraphMetrics {
  TransitiveDependents : gmap string Z;
  LongestChain : gmap string Z;
  CycleMembers : gmap string Z;
}.
Definition empty_metrics : GraphMetrics := MkGraphMetrics ∅ ∅ ∅.

Definition metric (m : gmap string Z) (identifier : string) : Z := default 0 (m !! identifier).

(** ** Comparators *)

Definition cmpPriority (a b : Issue) : comparison :=
  match issue_Priority a, issue_Priority b with
  | None, None => Eq
  | None, Some _ => Gt
  | Some _, None => Lt
  | Some pa, Some pb => Z.compare pa pb
  end.

Definition cmpGraph (a b : Issue) (m : GraphMetrics) : comparison :=
  let da := metric (TransitiveDependents m) (issue_Identifier a) in
  let db := metric (TransitiveDependents m) (issue_Identifier b) in
  if negb (da =? db) then Z.compare db da
  else Z.compare (metric (LongestChain m) (issue_Identifier b))
                 (metric (LongestChain m) (issue_Identifier a)).

Definition cmpCreatedAt (a b : Issue) : comparison :=
  match issue_CreatedAt a, issue_CreatedAt b with
  | None, None => Eq
  | None, Some _ => Gt
  | Some _, None => Lt
  | Some ta, Some tb => if ta =? tb then Eq else if time_before ta tb then Lt else Gt
  end.

Definition cmpIdentifier (a b : Issue) : comparison :=
  String.compare (issue_Identifier a) (issue_Identifier b).

(** [sortForDispatchBy]: a sorted copy. *)
Definition sortForDispatchBy (issues : list Issue) (cmpFn : Issue -> Issue -> comparison) :
    list Issue :=
  sort_stable (cmp_less cmpFn) issues.

Definition cmp_critical_path (m : GraphMetrics) (a b : Issue) : comparison :=
  match cmpPriority a b with
  | Eq =>
      match cmpGraph a b m with
      | Eq => match cmpCreatedAt a b with Eq => cmpIdentifier a b | c => c end
      | c => c
      end
  | c => c
  end.

Definition cmp_critical_path_strict (m : GraphMetrics) (a b : Issue) : comparison :=
  match cmpGraph a b m with
  | Eq =>
      match cmpPriority a b with
      | Eq => match cmpCreatedAt a b with Eq => cmpIdentifier a b | c => c end
      | c => c
      end
  | c => c
  end.

Definition SortForDispatchCriticalPath (issues : list Issue) (m : GraphMetrics) : list Issue :=
  sortForDispatchBy issues (cmp_critical_path m).

Definition SortForDispatchCriticalPathStrict (issues : list Issue) (m : GraphMetrics) : list Issue :=
  sortForDispatchBy issues (cmp_critical_path_strict m).

(** The [less] function of [SortForDispatch]. *)
Definition less_created (a b : Issue) : bool :=
  match issue_CreatedAt a, issue_CreatedAt b with
  | None, None => string_less (issue_Identifier a) (issue_Identifier b)
  | None, Some _ => false
  | Some _, None => true
  | Some ta, Some tb =>
      if negb (ta =? tb) then time_before ta tb
      else string_less (issue_Identifier a) (issue_Identifier b)
  end.

Definition less_for_dispatch (a b : Issue) : bool :=
  match issue_Priority a, issue_Priority b with
  | None, None => less_created a b
  | None, Some _ => false
  | Some _, None => true
  | Some pa, Some pb => if negb (pa =? pb) then pa <? pb else less_created a b
  end.

Definition SortForDispatch (issues : list Issue) : list Issue :=
  sort_stable less_for_dispatch issues.

(** ** The comparators are total preorders *)

Lemma cmpPriority_key a b :
  cmpPriority a b = cmp_nil_last Z.compare (issue_Priority a) (issue_Priority b).
Proof. done. Qed.

Lemma cmpCreatedAt_key a b :
  cmpCreatedAt a b = cmp_nil_last Z.compare (issue_CreatedAt a) (issue_CreatedAt b).
Proof.
  unfold cmpCreatedAt, cmp_nil_last, time_before.
  destruct (issue_CreatedAt a) as [ta|], (issue_CreatedAt b) as [tb|]; try done.
  destruct (Z.eqb_spec ta tb) as [->|]; [by rewrite Z.compare_refl|].
  destruct (Z.ltb_spec ta tb).
  - symmetry. by apply Z.compare_lt_iff.
  - symmetry. apply Z.compare_gt_iff. lia.
Qed.

Lemma cmpGraph_key m a b :
  cmpGraph a b m =
  cmp_then
    (Z.compare (metric (TransitiveDependents m) (issue_Identifier b))
               (metric (TransitiveDependents m) (issue_Identifier a)))
    (Z.compare (metric (LongestChain m) (issue_Identifier b))
               (metric (LongestChain m) (issue_Identifier a))).
Proof.
  unfold cmpGraph. destruct (Z.eqb_spec (metric (TransitiveDependents m) (issue_Identifier a))
    (metric (TransitiveDependents m) (issue_Identifier b))) as [->|Hne]; cbn.
  - by rewrite Z.compare_refl.
  - destruct (Z.compare_spec (metric (TransitiveDependents m) (issue_Identifier b))
      (metric (TransitiveDependents m) (issue_Identifier a))); by try lia.
Qed.

Lemma CmpOrder_ext {A} (c d : A -> A -> comparison) :
  (forall a b, c a b = d a b) -> CmpOrder d -> CmpOrder c.
Proof. intros E [H1 H2]. split; intros *; rewrite !E; [apply H1 | apply H2]. Qed.

#[export] Instance cmpPriority_order : CmpOrder cmpPriority.
Proof.
  eapply CmpOrder_ext; [apply cmpPriority_key|].
  apply (cmp_order_key issue_Priority (cmp_nil_last Z.compare)), _.
Qed.

#[export] Instance cmpCreatedAt_order : CmpOrder cmpCreatedAt.
Proof.
  eapply CmpOrder_ext; [apply cmpCreatedAt_key|].
  apply (cmp_order_key issue_CreatedAt (cmp_nil_last Z.compare)), _.
Qed.

#[export] Instance cmpIdentifier_order : CmpOrder cmpIdentifier.
Proof. apply (cmp_order_key issue_Identifier String.compare), _. Qed.

#[export] Instance cmpGraph_order m : CmpOrder (fun a b => cmpGraph a b m).
Proof.
  eapply CmpOrder_ext; [intros a b; apply cmpGraph_key|].
  apply cmp_order_then; apply cmp_order_flip; apply (cmp_order_key _ Z.compare), _.
Qed.

(** The two modes are chains of the same stages. *)
Lemma cmp_critical_path_chain m a b :
  cmp_critical_path m a b =
  cmp_then (cmpPriority a b) (cmp_then (cmpGraph a b m)
    (cmp_then (cmpCreatedAt a b) (cmpIdentifier a b))).
Proof.
  unfold cmp_critical_path, cmp_critical_path_strict.
  by destruct (cmpPriority a b), (cmpGraph a b m), (cmpCreatedAt a b).
Qed.

Lemma cmp_critical_path_strict_chain m a b :
  cmp_critical_path_strict m a b =
  cmp_then (cmpGraph a b m) (cmp_then (cmpPriority a b)
    (cmp_then (cmpCreatedAt a b) (cmpIdentifier a b))).
Proof.
  unfold cmp_critical_path, cmp_critical_path_strict.
  by destruct (cmpPriority a b), (cmpGraph a b m), (cmpCreatedAt a b).
Qed.

#[export] Instance cmp_critical_path_order m : CmpOrder (cmp_critical_path m).
Proof.
  eapply CmpOrder_ext; [intros a b; apply cmp_critical_path_chain|].
  repeat (apply cmp_order_then; [apply _|]). apply _.
Qed.

#[export] Instance cmp_critical_path_strict_order m : CmpOrder (cmp_critical_path_strict m).
Proof.
  eapply CmpOrder_ext; [intros a b; apply cmp_critical_path_strict_chain|].
  repeat (apply cmp_order_then; [apply _|]). apply _.
Qed.

Lemma cmpGraph_empty a b : cmpGraph a b empty_metrics = Eq.
Proof. unfold cmpGraph, metric, empty_metrics. cbn. by rewrite !lookup_empty. Qed.

(** The plain order as a comparator. *)
Lemma less_for_dispatch_cmp a b :
  less_for_dispatch a b = cmp_less (cmp_critical_path empty_metrics) a b.
Proof.
  unfold cmp_less. rewrite cmp_critical_path_chain, cmpGraph_empty, cmpCreatedAt_key.
  cbn [cmp_then]. unfold less_for_dispatch, less_created, cmpPriority, cmp_nil_last, time_before,
    string_less, cmpIdentifier.
  repeat match goal with
  | |- context [match ?o with Some _ => _ | None => _ end] => destruct o
  end; cbn [cmp_then]; try done;
  repeat match goal with
  | |- context [Z.compare ?x ?y] =>
      destruct (Z.compare_spec x y); cbn [cmp_then];
      repeat match goal with
      | |- context [Z.eqb x y] => destruct (Z.eqb_spec x y); cbn [negb]; try lia
      | |- context [Z.ltb x y] => destruct (Z.ltb_spec x y); try lia
      end
  end; try done.
Qed.

Lemma cmp_strict_empty a b :
  cmp_critical_path_strict empty_metrics a b = cmp_critical_path empty_metrics a b.
Proof.
  rewrite cmp_critical_path_strict_chain, cmp_critical_path_chain, !cmpGraph_empty. done.
Qed.

(** ** The sorted queue *)

Lemma cmp_then_le_l c d : cmp_then c d <> Gt -> c <> Gt.
Proof. by destruct c. Qed.

Lemma StronglySorted_impl {A} (R S : A -> A -> Prop) l :
  (forall x y, R x y -> S x y) -> StronglySorted R l -> StronglySorted S l.
Proof.
  intros HRS. induction 1 as [|x l _ IH Hx]; constructor; [done|].
  apply (Forall_impl _ _ _ Hx). by intros y; apply HRS.
Qed.

Lemma cmp_critical_path_eq m a b :
  cmp_critical_path m a b = Eq -> issue_Identifier a = issue_Identifier b.
Proof.
  rewrite cmp_critical_path_chain. unfold cmpIdentifier.
  destruct (cmpPriority a b), (cmpGraph a b m), (cmpCreatedAt a b); cbn; try done.
  apply String.compare_eq_iff.
Qed.

Lemma cmp_critical_path_strict_eq m a b :
  cmp_critical_path_strict m a b = Eq -> issue_Identifier a = issue_Identifier b.
Proof.
  rewrite cmp_critical_path_strict_chain. unfold cmpIdentifier.
  destruct (cmpPriority a b), (cmpGraph a b m), (cmpCreatedAt a b); cbn; try done.
  apply String.compare_eq_iff.
Qed.

(** With distinct identifiers an issue is known by its identifier. *)
Lemma identifier_inj (l : list Issue) a b :
  NoDup (issue_Identifier <$> l) -> a ∈ l -> b ∈ l ->
  issue_Identifier a = issue_Identifier b -> a = b.
Proof.
  intros Hnd [i Hi]%list_elem_of_lookup [j Hj]%list_elem_of_lookup E.
  assert (i = j) as ->; [|congruence].
  apply (NoDup_lookup _ _ _ (issue_Identifier a) Hnd); rewrite list_lookup_fmap.
  - by rewrite Hi.
  - by rewrite Hj, E.
Qed.

Lemma sortForDispatchBy_canonical cmp `{!CmpOrder cmp} l l' :
  (forall a b, cmp a b = Eq -> issue_Identifier a = issue_Identifier b) ->
  NoDup (issue_Identifier <$> l) -> l ≡ₚ l' ->
  sortForDispatchBy l cmp = sortForDispatchBy l' cmp.
Proof.
  intros Heq Hnd Hp. apply sort_stable_canonical; [done| |done].
  intros a b Ha Hb E. by apply (identifier_inj l), Heq.
Qed.

Lemma SortForDispatch_cmp l :
  SortForDispatchCriticalPath l empty_metrics = SortForDispatch l.
Proof. apply sort_stable_ext. intros a b. by rewrite less_for_dispatch_cmp. Qed.

(** Both critical-path modes return every issue exactly once, in an order
    that puts no issue before one its comparator ranks ahead; in the default
    mode a lower priority number always goes first (absent priorities last),
    in the strict mode a higher graph leverage does. *)
Theorem critical_path_sorted (l : list Issue) (m : GraphMetrics) :
  (SortForDispatchCriticalPath l m ≡ₚ l /\
   StronglySorted (fun a b => cmp_critical_path m a b <> Gt) (SortForDispatchCriticalPath l m) /\
   StronglySorted (fun a b => cmpPriority a b <> Gt) (SortForDispatchCriticalPath l m)) /\
  (SortForDispatchCriticalPathStrict l m ≡ₚ l /\
   StronglySorted (fun a b => cmp_critical_path_strict m a b <> Gt)
     (SortForDispatchCriticalPathStrict l m) /\
   StronglySorted (fun a b => cmpGraph a b m <> Gt) (SortForDispatchCriticalPathStrict l m)).
Proof.
  assert (H1 := sort_stable_sorted (cmp_critical_path m) l).
  assert (H2 := sort_stable_sorted (cmp_critical_path_strict m) l).
  split_and!; try apply sort_stable_perm; try done.
  - eapply StronglySorted_impl, H1. intros a b. unfold cmp_le.
    rewrite cmp_critical_path_chain. apply cmp_then_le_l.
  - eapply StronglySorted_impl, H2. intros a b. unfold cmp_le.
    rewrite cmp_critical_path_strict_chain. apply cmp_then_le_l.
Qed.

(** without graph metrics both critical-path modes are the plain order, as
    their comments say. *)
Theorem critical_path_without_metrics (l : list Issue) :
  SortForDispatchCriticalPath l empty_metrics = SortForDispatch l /\
  SortForDispatchCriticalPathStrict l empty_metrics = SortForDispatch l.
Proof.
  split; [apply SortForDispatch_cmp|]. rewrite <- SortForDispatch_cmp.
  apply sort_stable_ext. intros a b. unfold cmp_less. by rewrite cmp_strict_empty.
Qed.

(** The dispatch order is a function of the set of candidates: when
    identifiers are distinct, the order in which the tracker lists them does
    not matter, in any of the three modes. *)
Theorem dispatch_order_canonical (l l' : list Issue) (m : GraphMetrics) :
  NoDup (issue_Identifier <$> l) -> l ≡ₚ l' ->
  SortForDispatch l = SortForDispatch l' /\
  SortForDispatchCriticalPath l m = SortForDispatchCriticalPath l' m /\
  SortForDispatchCriticalPathStrict l m = SortForDispatchCriticalPathStrict l' m.
Proof.
  intros Hnd Hp. split_and!.
  - rewrite <- !SortForDispatch_cmp.
    apply sortForDispatchBy_canonical; [apply _|apply cmp_critical_path_eq|done..].
  - apply sortForDispatchBy_canonical; [apply _|apply cmp_critical_path_eq|done..].
  - apply sortForDispatchBy_canonical; [apply _|apply cmp_critical_path_strict_eq|done..].
Qed.

(** Two issues whose listing order differs. *)
Definition sample_issue (ident : string) (prio : option Z) : Issue :=
  zero_Issue <| issue_ID := ident |> <| issue_Identifier := ident |> <| issue_Priority := prio |>.

Lemma dispatch_order_canonical_witness :
  SortForDispatch [sample_issue "B" None; sample_issue "A" (Some 2)] =
  SortForDispatch [sample_issue "A" (Some 2); sample_issue "B" None].
Proof.
  apply (dispatch_order_canonical _ _ empty_metrics).
  - apply (bool_decide_unpack _). vm_compute. exact I.
  - apply Permutation_swap.
Defined.
