(* ===== verification/TickGraph.v ===== *)
(** * TickGraph: the dependency graph of a tick
    (internal/orchestrator/tick_graph.go 14-134)

    Nodes are the candidates' identifiers; an edge points from a blocker to the
    issue it blocks.  [EdgeKinds] is keyed by the text "from->to", as in the
    code. *)

From stdpp Require Import base gmap sets list strings sorting.
From Stdlib Require Import Ascii.
From S2P Require Import Prelude Domain State Config Dispatch.

Definition edgeKindTracker : string := "tracker".
Definition edgeKindInferred : string := "inferred".

Record TickGraph := MkTickGraph {
  Nodes : gset string;
  Out : gmap string (list string);
  EdgeKinds : gmap string (gset string);
}.

#[export] Instance eta_TickGraph : Settable TickGraph := {|
  eta_record g := MkTickGraph (Nodes g) (Out g) (EdgeKinds g) |}.

Definition edge_key (from to : string) : string := from +:+ "->" +:+ to.

Definition add_edge (from to kind : string) (g : TickGraph) : TickGraph :=
  let key := edge_key from to in
  match EdgeKinds g !! key with
  | Some kinds => g <| EdgeKinds := <[key := {[kind]} ∪ kinds]> (EdgeKinds g) |>
  | None =>
      g <| EdgeKinds := <[key := {[kind]}]> (EdgeKinds g) |>
        <| Out := <[from := default [] (Out g !! from) ++ [to]]> (Out g) |>
  end.

(** The node set: the candidates' identifiers, the empty one left out. *)
Definition graph_nodes (candidates : list Issue) : gset string :=
  foldl (fun nodes c =>
           if String.eqb (issue_Identifier c) "" then nodes
           else {[issue_Identifier c]} ∪ nodes) ∅ candidates.

(** One blocker of one candidate. *)
Definition add_blocker (state : State) (to : string) (g : TickGraph) (blocker : BlockerRef) :
    TickGraph :=
  if blockerResolvedForDispatch blocker state then g
  else
    match br_Identifier blocker with
    | None => g
    | Some from =>
        if String.eqb from "" || negb (bool_decide (from ∈ Nodes g)) then g
        else add_edge from to edgeKindTracker g
    end.

Definition add_candidate (state : State) (g : TickGraph) (c : Issue) : TickGraph :=
  if bool_decide (issue_Identifier c ∈ Nodes g)
  then foldl (add_blocker state (issue_Identifier c)) g (issue_BlockedBy c)
  else g.

Definition add_inferred_entry (to : string) (g : TickGraph) (entry : InferredDepEntry) : TickGraph :=
  if negb (ide_Gating entry) || String.eqb (ide_Source entry) ""
     || negb (bool_decide (ide_Source entry ∈ Nodes g))
  then g else add_edge (ide_Source entry) to edgeKindInferred g.

Definition add_inferred (g : TickGraph) (p : string * list InferredDepEntry) : TickGraph :=
  if bool_decide (p.1 ∈ Nodes g) then foldl (add_inferred_entry p.1) g p.2 else g.

(** [BuildTickGraph].  The order in which the code ranges over [inferred] is
    that of the list [entries]; any order of the map's bindings will do. *)
Definition BuildTickGraph_from (candidates : list Issue)
    (entries : list (string * list InferredDepEntry)) (state : State) : TickGraph :=
  let g := MkTickGraph (graph_nodes candidates) ∅ ∅ in
  let g := foldl (add_candidate state) g candidates in
  let g := foldl add_inferred g entries in
  g <| Out := (sort_strings <$> Out g) |>.

Definition BuildTickGraph (candidates : list Issue)
    (inferred : gmap string (list InferredDepEntry)) (state : State) : TickGraph :=
  BuildTickGraph_from candidates (map_to_list inferred) state.

(** ** What the graph holds *)

(** [x] blocks [y], both candidates. *)
Definition linked (g : TickGraph) (x y : string) : Prop :=
  x ∈ Nodes g /\ y ∈ Nodes g /\ y ∈ default [] (Out g !! x).

(** The issue that [a] names blocks the candidate [b] and is unresolved. *)
Definition tracker_edge (candidates : list Issue) (state : State) (a b : string) : Prop :=
  exists c blocker, c ∈ candidates /\ issue_Identifier c = b /\ blocker ∈ issue_BlockedBy c /\
    blockerResolvedForDispatch blocker state = false /\ br_Identifier blocker = Some a.

Definition inferred_edge (inferred : gmap string (list InferredDepEntry)) (a b : string) : Prop :=
  exists es e, inferred !! b = Some es /\ e ∈ es /\ ide_Gating e = true /\ ide_Source e = a.

(** No [>] in an identifier, so "from->to" tells the two apart. *)
Definition clean (x : string) : Prop := contains_byte ">"%char x = false.

Lemma edge_key_inj a b a' b' :
  clean a -> clean a' -> edge_key a b = edge_key a' b' -> a = a' /\ b = b'.
Proof.
  unfold edge_key. intros Ha Ha' E.
  change ("->" +:+ b) with (String "-"%char "" +:+ String ">"%char b) in E.
  change ("->" +:+ b') with (String "-"%char "" +:+ String ">"%char b') in E.
  rewrite <- !append_assoc in E. apply append_sep_inj in E as [E ->].
  - by apply append_last_inj in E.
  - rewrite contains_byte_app. by rewrite Ha.
  - rewrite contains_byte_app. by rewrite Ha'.
Qed.

(** [g] has the nodes [N] and the edges [E]. *)
Record built (N : gset string) (E : string -> string -> string -> Prop) (g : TickGraph) : Prop := {
  bt_nodes : Nodes g = N;
  bt_clean : forall a b k, E a b k -> clean a;
  bt_kinds : forall a b k, clean a -> (k ∈ default ∅ (EdgeKinds g !! edge_key a b) <-> E a b k);
  bt_keys : forall a b, clean a -> (is_Some (EdgeKinds g !! edge_key a b) <-> exists k, E a b k);
  bt_out : forall a b, b ∈ default [] (Out g !! a) <-> exists k, E a b k;
  bt_nodup : forall a, NoDup (default [] (Out g !! a));
  bt_some : forall a, Out g !! a <> Some [];
}.

Lemma built_ext N E E' g :
  (forall a b k, E a b k <-> E' a b k) -> built N E g -> built N E' g.
Proof.
  intros HE [H1 H2 H3 H4 H5 H6 H7]. split; [done| | | | |done|done].
  - intros a b k H%HE. by eapply H2.
  - intros a b k Ha. by rewrite H3, HE.
  - intros a b Ha. rewrite H4 by done. by setoid_rewrite HE.
  - intros a b. rewrite H5. by setoid_rewrite HE.
Qed.

Lemma built_add N E g a b k :
  built N E g -> clean a ->
  built N (fun a' b' k' => E a' b' k' \/ (a' = a /\ b' = b /\ k' = k)) (add_edge a b k g).
Proof.
  intros [H1 H2 H3 H4 H5 H6 H7] Ha. unfold add_edge.
  assert (Hkey : forall a' b', clean a' -> edge_key a' b' = edge_key a b -> a' = a /\ b' = b).
  { intros a' b' Ha'. by apply edge_key_inj. }
  destruct (EdgeKinds g !! edge_key a b) as [kinds|] eqn:Ek.
  - assert (Hab : exists k, E a b k) by (by apply H4; [|rewrite Ek]).
    split; cbn; try done.
    + intros a' b' k' [H|(-> & _)]; [by eapply H2|done].
    + intros a' b' k' Ha'. rewrite <- H3 by done. destruct (decide (edge_key a' b' = edge_key a b)) as [Eq|Hn].
      * destruct (Hkey a' b' Ha' Eq) as [-> ->]. rewrite lookup_insert_eq, Ek. cbn. set_solver.
      * rewrite lookup_insert_ne by done. naive_solver.
    + intros a' b' Ha'. destruct (decide (edge_key a' b' = edge_key a b)) as [Eq|Hn].
      * destruct (Hkey a' b' Ha' Eq) as [-> ->]. rewrite lookup_insert_eq. split; [eauto|]. by intros _.
      * rewrite lookup_insert_ne, H4 by done. naive_solver.
    + intros a' b'. rewrite H5. naive_solver.
  - assert (Hab : ~ exists k, E a b k).
    { intros H. apply H4 in H; [|done]. rewrite Ek in H. by destruct H. }
    split; cbn; try done.
    + intros a' b' k' [H|(-> & _)]; [by eapply H2|done].
    + intros a' b' k' Ha'. rewrite <- H3 by done. destruct (decide (edge_key a' b' = edge_key a b)) as [Eq|Hn].
      * destruct (Hkey a' b' Ha' Eq) as [-> ->]. rewrite lookup_insert_eq, Ek. cbn. set_solver.
      * rewrite lookup_insert_ne by done. naive_solver.
    + intros a' b' Ha'. destruct (decide (edge_key a' b' = edge_key a b)) as [Eq|Hn].
      * destruct (Hkey a' b' Ha' Eq) as [-> ->]. rewrite lookup_insert_eq. split; [eauto|]. by intros _.
      * rewrite lookup_insert_ne, H4 by done. naive_solver.
    + intros a' b'. destruct (decide (a' = a)) as [->|Hn].
      * rewrite lookup_insert_eq. cbn. rewrite elem_of_app, H5, list_elem_of_singleton. naive_solver.
      * rewrite lookup_insert_ne, H5 by done. naive_solver.
    + intros a'. destruct (decide (a' = a)) as [->|Hn]; [|by rewrite lookup_insert_ne].
      rewrite lookup_insert_eq. cbn. apply NoDup_app. split_and!; [apply H6| |apply NoDup_singleton].
      intros b' Hb' ->%list_elem_of_singleton. by apply H5 in Hb'.
    + intros a'. destruct (decide (a' = a)) as [->|Hn]; [|by rewrite lookup_insert_ne].
      rewrite lookup_insert_eq. intros [= E0]. by apply app_nil in E0 as [_ ?].
Qed.

(** A loop that adds the edges [F x] for each [x]. *)
Lemma built_foldl {A} (step : TickGraph -> A -> TickGraph) (F : A -> string -> string -> string -> Prop)
    N l E g :
  (forall E g x, x ∈ l -> built N E g -> built N (fun a b k => E a b k \/ F x a b k) (step g x)) ->
  built N E g ->
  built N (fun a b k => E a b k \/ exists x, x ∈ l /\ F x a b k) (foldl step g l).
Proof.
  revert E g. induction l as [|x l IH]; intros E g Hstep Hg; cbn [foldl].
  - apply (built_ext N E); [|done]. intros a b k. split; [by left|].
    by intros [?|(x & ?%elem_of_nil & _)].
  - eapply built_ext; [|apply (IH (fun a b k => E a b k \/ F x a b k))].
    + intros a b k. setoid_rewrite elem_of_cons. naive_solver.
    + intros E' g' y Hy. apply Hstep. by right.
    + apply Hstep; [by left|done].
Qed.

Lemma graph_nodes_spec candidates x :
  x ∈ graph_nodes candidates <-> x <> "" /\ exists c, c ∈ candidates /\ issue_Identifier c = x.
Proof.
  unfold graph_nodes. induction candidates as [|c l IH] using rev_ind.
  - cbn. split; [by intros ?%elem_of_empty|by intros [_ (c & ?%elem_of_nil & _)]].
  - rewrite foldl_snoc. setoid_rewrite elem_of_app. setoid_rewrite list_elem_of_singleton.
    destruct (String.eqb_spec (issue_Identifier c) "") as [E|E].
    + rewrite IH. split.
      * intros [Hx (c' & ? & ?)]. eauto.
      * intros [Hx (c' & [?| ->] & ?)]; [eauto|congruence].
    + rewrite elem_of_union, elem_of_singleton, IH. split.
      * intros [->|[Hx (c' & ? & ?)]]; eauto.
      * intros [Hx (c' & [?| ->] & ?)]; [right; eauto|by left].
Qed.

Definition cand_edge (state : State) (N : gset string) (c : Issue) (a b k : string) : Prop :=
  k = edgeKindTracker /\ b = issue_Identifier c /\ b ∈ N /\ a ∈ N /\ a <> "" /\
  exists blocker, blocker ∈ issue_BlockedBy c /\
    blockerResolvedForDispatch blocker state = false /\ br_Identifier blocker = Some a.

Definition deps_edge (N : gset string) (p : string * list InferredDepEntry) (a b k : string) : Prop :=
  k = edgeKindInferred /\ b = p.1 /\ b ∈ N /\ a ∈ N /\ a <> "" /\
  exists e, e ∈ p.2 /\ ide_Gating e = true /\ ide_Source e = a.

Lemma built_candidate state N E g c :
  (forall x, x ∈ N -> clean x) -> built N E g ->
  built N (fun a b k => E a b k \/ cand_edge state N c a b k) (add_candidate state g c).
Proof.
  intros HN Hg. unfold add_candidate. rewrite (bt_nodes _ _ _ Hg).
  destruct (bool_decide_reflect (issue_Identifier c ∈ N)) as [Hc|Hc].
  2: { apply (built_ext N E); [|done]. intros a b k. split; [by left|].
       intros [?|(_ & -> & ? & _)]; done. }
  eapply built_ext; [|apply (built_foldl _ (fun blocker a b k => k = edgeKindTracker /\
      b = issue_Identifier c /\ a ∈ N /\ a <> "" /\
      blockerResolvedForDispatch blocker state = false /\ br_Identifier blocker = Some a) N); [|exact Hg]].
  - intros a b k. unfold cand_edge. split.
    + intros [?|(x & Hx & -> & -> & H1 & H2 & H3)]; [by left|]. right. split_and!; [done..|].
      exists x. tauto.
    + intros [?|(-> & -> & _ & H1 & H2 & x & Hx & H3)]; [by left|]. right. exists x. tauto.
  - clear Hg E g. intros E g x _ Hg. unfold add_blocker. rewrite (bt_nodes _ _ _ Hg).
    assert (Hno : (forall a, ~ (a ∈ N /\ a <> "" /\ blockerResolvedForDispatch x state = false /\
      br_Identifier x = Some a)) -> built N (fun a b k => E a b k \/ (k = edgeKindTracker /\
      b = issue_Identifier c /\ a ∈ N /\ a <> "" /\
      blockerResolvedForDispatch x state = false /\ br_Identifier x = Some a)) g).
    { intros H. apply (built_ext N E); [|done]. intros a b k. specialize (H a). tauto. }
    destruct (blockerResolvedForDispatch x state); [apply Hno; naive_solver|].
    destruct (br_Identifier x) as [a|]; [|apply Hno; naive_solver].
    destruct (String.eqb_spec a "") as [->|Ha]; cbn [orb]; [apply Hno; naive_solver|].
    destruct (bool_decide_reflect (a ∈ N)) as [HaN|HaN]; cbn [negb]; [|apply Hno; naive_solver].
    eapply built_ext; [|by apply built_add; [exact Hg|apply HN]].
    intros a' b' k'. cbn. naive_solver.
Qed.

Lemma built_inferred N E g p :
  (forall x, x ∈ N -> clean x) -> built N E g ->
  built N (fun a b k => E a b k \/ deps_edge N p a b k) (add_inferred g p).
Proof.
  intros HN Hg. unfold add_inferred. rewrite (bt_nodes _ _ _ Hg).
  destruct (bool_decide_reflect (p.1 ∈ N)) as [Hp|Hp].
  2: { apply (built_ext N E); [|done]. intros a b k. split; [by left|].
       intros [?|(_ & -> & ? & _)]; done. }
  eapply built_ext; [|apply (built_foldl _ (fun e a b k => k = edgeKindInferred /\ b = p.1 /\
      a ∈ N /\ a <> "" /\ ide_Gating e = true /\ ide_Source e = a) N); [|exact Hg]].
  - intros a b k. unfold deps_edge. split.
    + intros [?|(x & Hx & -> & -> & H1 & H2 & H3)]; [by left|]. right. split_and!; [done..|].
      exists x. tauto.
    + intros [?|(-> & -> & _ & H1 & H2 & x & Hx & H3)]; [by left|]. right. exists x. tauto.
  - clear Hg E g. intros E g e _ Hg. unfold add_inferred_entry. rewrite (bt_nodes _ _ _ Hg).
    assert (Hno : (~ (ide_Source e ∈ N /\ ide_Source e <> "" /\ ide_Gating e = true)) ->
      built N (fun a b k => E a b k \/ (k = edgeKindInferred /\ b = p.1 /\ a ∈ N /\ a <> "" /\
        ide_Gating e = true /\ ide_Source e = a)) g).
    { intros H. apply (built_ext N E); [|done]. intros a b k. naive_solver. }
    destruct (ide_Gating e); cbn [negb orb]; [|apply Hno; naive_solver].
    destruct (String.eqb_spec (ide_Source e) "") as [Ha|Ha]; cbn [orb]; [apply Hno; naive_solver|].
    destruct (bool_decide_reflect (ide_Source e ∈ N)) as [HaN|HaN]; cbn [negb];
      [|apply Hno; naive_solver].
    eapply built_ext; [|by apply built_add; [exact Hg|apply HN]].
    intros a' b' k'. cbn. naive_solver.
Qed.

Lemma built_graph candidates entries state :
  (forall c, c ∈ candidates -> clean (issue_Identifier c)) ->
  let N := graph_nodes candidates in
  let g := foldl add_inferred (foldl (add_candidate state) (MkTickGraph N ∅ ∅) candidates) entries in
  built N (fun a b k => (exists c, c ∈ candidates /\ cand_edge state N c a b k) \/
                        (exists p, p ∈ entries /\ deps_edge N p a b k)) g.
Proof.
  intros Hclean N g.
  assert (HN : forall x, x ∈ N -> clean x).
  { intros x (_ & c & Hc & <-)%graph_nodes_spec. by apply Hclean. }
  assert (H0 : built N (fun _ _ _ => False) (MkTickGraph N ∅ ∅)).
  { split; cbn [Nodes Out EdgeKinds]; [done|done|intros a b k _|intros a b _|intros a b|intros a|intros a];
      rewrite lookup_empty; cbn [default from_option id].
    - set_solver.
    - split; [by intros [? ?]|by intros [? ?]].
    - split; [by intros ?%elem_of_nil|by intros [? ?]].
    - apply NoDup_nil_2.
    - done. }
  pose proof (built_foldl _ (cand_edge state N) N candidates _ _
    (fun E g' c _ => built_candidate state N E g' c HN) H0) as H1.
  pose proof (built_foldl _ (deps_edge N) N entries _ _
    (fun E g' p _ => built_inferred N E g' p HN) H1) as H2.
  eapply built_ext; [|exact H2]. intros a b k. cbn. tauto.
Qed.

(** The edges of the graph, by kind. *)
Definition graph_edge (candidates : list Issue) (inferred : gmap string (list InferredDepEntry))
    (state : State) (a b k : string) : Prop :=
  a ∈ graph_nodes candidates /\ b ∈ graph_nodes candidates /\
  ((k = edgeKindTracker /\ tracker_edge candidates state a b) \/
   (k = edgeKindInferred /\ inferred_edge inferred a b)).

Lemma built_edges candidates inferred entries state :
  (forall c, c ∈ candidates -> clean (issue_Identifier c)) ->
  entries ≡ₚ map_to_list inferred ->
  let N := graph_nodes candidates in
  built N (graph_edge candidates inferred state)
    (foldl add_inferred (foldl (add_candidate state) (MkTickGraph N ∅ ∅) candidates) entries).
Proof.
  intros Hclean Hentries N. eapply built_ext; [|by apply built_graph].
  intros a b k. fold N. unfold graph_edge, cand_edge, deps_edge, tracker_edge, inferred_edge. fold N.
  split.
  - intros [(c & Hc & -> & -> & Hb & Ha & _ & x & Hx)|(p & Hp & -> & -> & Hb & Ha & _ & e & He)];
      (split_and!; [done|done|]).
    + left. split; [done|]. exists c, x. tauto.
    + right. split; [done|]. destruct p as [b es]. rewrite Hentries in Hp.
      apply elem_of_map_to_list in Hp. by exists es, e.
  - intros (Ha & Hb & H). pose proof (proj1 (graph_nodes_spec _ _) Ha) as [Ha' _].
    destruct H as [[-> (c & x & Hc & <- & Hx)]|[-> (es & e & Hes & He)]].
    + left. exists c. split_and!; try done. eauto.
    + right. exists (b, es). rewrite Hentries, elem_of_map_to_list. split_and!; try done. by exists e.
Qed.

Lemma built_sorted N E E' g g' a :
  (forall a b k, E a b k <-> E' a b k) -> built N E g -> built N E' g' ->
  sort_strings <$> Out g !! a = sort_strings <$> Out g' !! a.
Proof.
  intros HE Hg Hg'.
  assert (Hel : forall b, b ∈ default [] (Out g !! a) <-> b ∈ default [] (Out g' !! a)).
  { intros b. rewrite (bt_out _ _ _ Hg), (bt_out _ _ _ Hg'). by setoid_rewrite HE. }
  pose proof (bt_nodup _ _ _ Hg a) as Hn. pose proof (bt_nodup _ _ _ Hg' a) as Hn'.
  pose proof (NoDup_Permutation _ _ Hn Hn' Hel) as Hp.
  pose proof (bt_some _ _ _ Hg a) as Hs. pose proof (bt_some _ _ _ Hg' a) as Hs'.
  destruct (Out g !! a) as [l|], (Out g' !! a) as [l'|]; cbn in *; [|..|done].
  - f_equal. apply (sort_stable_canonical String.compare); [|done].
    intros x y _ _ Hxy. by apply String.compare_eq_iff.
  - by apply Permutation_nil_r in Hp as ->.
  - by symmetry in Hp; apply Permutation_nil_r in Hp as ->.
Qed.

(** The tick graph has the waits that hold dispatch.  Its nodes are the
    candidates' identifiers; [a] is linked to [b] exactly when both are nodes
    and a candidate [b] lists [a] as an unresolved blocker or a gating inferred
    dependency of [b] names it; the edge carries the kind of each source that
    asserts it; and each list of edges is sorted and free of repetitions,
    whatever the order the inferred dependencies are visited in. *)
Theorem tick_edges candidates inferred entries state
    (Hclean : forall c, c ∈ candidates -> contains_byte ">"%char (issue_Identifier c) = false)
    (Hentries : entries ≡ₚ map_to_list inferred) :
  let g := BuildTickGraph_from candidates entries state in
  (forall x, x ∈ Nodes g <-> x <> "" /\ exists c, c ∈ candidates /\ issue_Identifier c = x) /\
  (forall a b, linked g a b <-> a ∈ Nodes g /\ b ∈ Nodes g /\
     (tracker_edge candidates state a b \/ inferred_edge inferred a b)) /\
  (forall a b, a ∈ Nodes g -> b ∈ Nodes g ->
     (edgeKindTracker ∈ default ∅ (EdgeKinds g !! edge_key a b) <-> tracker_edge candidates state a b) /\
     (edgeKindInferred ∈ default ∅ (EdgeKinds g !! edge_key a b) <-> inferred_edge inferred a b)) /\
  (forall a l, Out g !! a = Some l -> StronglySorted (cmp_le String.compare) l /\ NoDup l) /\
  Out g = Out (BuildTickGraph candidates inferred state).
Proof.
  cbn zeta. pose proof (built_edges candidates inferred entries state Hclean Hentries) as HB.
  pose proof (built_edges candidates inferred (map_to_list inferred) state Hclean ltac:(done)) as HB'.
  unfold BuildTickGraph, BuildTickGraph_from in *. cbn zeta in *.
  set (g := foldl add_inferred _ entries) in *. set (g' := foldl add_inferred _ (map_to_list _)) in *.
  assert (Hnodes : Nodes g = graph_nodes candidates) by apply (bt_nodes _ _ _ HB).
  assert (Hout : forall a b, b ∈ default [] (sort_strings <$> Out g !! a) <->
    exists k, graph_edge candidates inferred state a b k).
  { intros a b. rewrite <- (bt_out _ _ _ HB). destruct (Out g !! a) as [l|]; cbn; [|done].
    unfold sort_strings. by rewrite sort_stable_perm. }
  split_and!.
  - intros x. cbn. rewrite Hnodes. apply graph_nodes_spec.
  - intros a b. unfold linked. cbn. rewrite lookup_fmap, Hout, Hnodes. unfold graph_edge.
    naive_solver.
  - intros a b Ha Hb. cbn in *. rewrite Hnodes in *.
    assert (Hc : clean a) by (apply graph_nodes_spec in Ha as (_ & c & Hc & <-); by apply Hclean).
    rewrite !(bt_kinds _ _ _ HB) by done. unfold graph_edge. split; naive_solver.
  - intros a l. cbn. rewrite lookup_fmap. destruct (Out g !! a) as [l0|] eqn:El; [|done].
    intros [= <-]. split; [apply (sort_stable_sorted String.compare)|].
    unfold sort_strings. rewrite sort_stable_perm. pose proof (bt_nodup _ _ _ HB a) as Hnd.
    by rewrite El in Hnd.
  - cbn. apply map_eq. intros a. rewrite !lookup_fmap.
    by apply (built_sorted _ _ _ g g' a (fun _ _ _ => iff_refl _) HB HB').
Qed.

(** "A" waits on "B", and "C" is inferred to wait on "A". *)
Definition two_waits : list Issue :=
  [zero_Issue <| issue_Identifier := "A" |>
     <| issue_BlockedBy := [MkBlockerRef None (Some "B") (Some "Todo") None "" None] |>;
   zero_Issue <| issue_Identifier := "B" |>; zero_Issue <| issue_Identifier := "C" |>].
Definition one_inferred : gmap string (list InferredDepEntry) :=
  {["C" := [MkInferredDepEntry "A" "" (SpecFloat.S754_zero false) 0 false false true false false true]]}.

Lemma tick_edges_witness :
  let g := BuildTickGraph_from two_waits (map_to_list one_inferred) empty_State in
  Out g !! "B" = Some ["A"] /\ Out g !! "A" = Some ["C"] /\
  (linked g "B" "A" <-> "B" ∈ Nodes g /\ "A" ∈ Nodes g /\
     (tracker_edge two_waits empty_State "B" "A" \/ inferred_edge one_inferred "B" "A")).
Proof.
  split; [by vm_compute|]. split; [by vm_compute|].
  apply (tick_edges two_waits one_inferred (map_to_list one_inferred) empty_State); [|done].
  intros c Hc. repeat (apply elem_of_cons in Hc as [->|Hc]; [done|]). by apply elem_of_nil in Hc.
Defined.
