(* ===== verification/Scc.v ===== *)
(** * Scc: strongly connected components of the tick graph
    (internal/orchestrator/tick_graph_scc.go)

    Tarjan's algorithm with an explicit call stack.  The top of a stack is the
    head of its list.  Indices and component ids count nodes, so they are
    natural numbers that never reach the width of an int; a missing key of an
    int map reads as 0. *)

From stdpp Require Import base gmap sets list strings sorting relations.
From S2P Require Import Prelude Domain State TickGraph.

Local Open Scope nat_scope.

(** ** Nodes and adjacency *)

Definition sortedNodes (g : TickGraph) : list string := sort_strings (elements (Nodes g)).

Definition adjacency (g : TickGraph) (nodes : list string) : gmap string (list string) :=
  foldl (fun adj n =>
           let out := default [] (Out g !! n) in
           if length out =? 0 then adj
           else <[n := filter (fun to => to ∈ Nodes g) out]> adj) ∅ nodes.

Definition children (adj : gmap string (list string)) (node : string) : list string :=
  default [] (adj !! node).

Definition hasSelfEdge (adj : gmap string (list string)) (node : string) : bool :=
  existsb (fun to => String.eqb to node) (children adj node).

(** ** Tarjan's algorithm *)

Record tarjanFrame := MkFrame {
  fr_node : string;
  fr_children : list string;
  fr_idx : nat;
}.

(** The variables of [tarjanSCC]. *)
Record Tarjan := MkTarjan {
  indices : gmap string nat;
  lowlink : gmap string nat;
  onStack : gmap string bool;
  tstack : list string;
  compOf : gmap string nat;
  compSize : gmap nat nat;
  nextIndex : nat;
  nextComp : nat;
  work : list tarjanFrame;
}.

#[export] Instance eta_Tarjan : Settable Tarjan := {|
  eta_record s := MkTarjan (indices s) (lowlink s) (onStack s) (tstack s) (compOf s) (compSize s)
    (nextIndex s) (nextComp s) (work s) |}.

Definition num {K} `{Countable K} (m : gmap K nat) (k : K) : nat := default 0 (m !! k).

(** A node is numbered, put on both stacks and given a frame. *)
Definition visit (adj : gmap string (list string)) (node : string) (s : Tarjan) : Tarjan :=
  s <| indices := <[node := nextIndex s]> (indices s) |>
    <| lowlink := <[node := nextIndex s]> (lowlink s) |>
    <| nextIndex := S (nextIndex s) |>
    <| tstack := node :: tstack s |>
    <| onStack := <[node := true]> (onStack s) |>
    <| work := MkFrame node (children adj node) 0 :: work s |>.

(** The inner loop: pop the component of [root]. *)
Fixpoint pop_component (root : string) (stack : list string) (s : Tarjan) : Tarjan :=
  match stack with
  | [] => s
  | w :: stack' =>
      let s := s <| tstack := stack' |>
                 <| onStack := <[w := false]> (onStack s) |>
                 <| compOf := <[w := nextComp s]> (compOf s) |>
                 <| compSize := <[nextComp s := S (num (compSize s) (nextComp s))]> (compSize s) |> in
      if String.eqb w root then s else pop_component root stack' s
  end.

Definition close_frame (top : tarjanFrame) (below : list tarjanFrame) (s : Tarjan) : Tarjan :=
  let s := s <| work := below |> in
  let node := fr_node top in
  let s :=
    match below with
    | [] => s
    | parent :: _ =>
        if num (lowlink s) node <? num (lowlink s) (fr_node parent)
        then s <| lowlink := <[fr_node parent := num (lowlink s) node]> (lowlink s) |> else s
    end in
  if num (lowlink s) node =? num (indices s) node then
    let s := pop_component node (tstack s) s in s <| nextComp := S (nextComp s) |>
  else s.

Definition follow (adj : gmap string (list string)) (top : tarjanFrame)
    (below : list tarjanFrame) (child : string) (s : Tarjan) : Tarjan :=
  let s := s <| work := MkFrame (fr_node top) (fr_children top) (S (fr_idx top)) :: below |> in
  match indices s !! child with
  | None => visit adj child s
  | Some _ =>
      if default false (onStack s !! child) then
        if num (indices s) child <? num (lowlink s) (fr_node top)
        then s <| lowlink := <[fr_node top := num (indices s) child]> (lowlink s) |> else s
      else s
  end.

(** One turn of the loop [for len(work) > 0]. *)
Definition tarjan_step (adj : gmap string (list string)) (s : Tarjan) : Tarjan :=
  match work s with
  | [] => s
  | top :: below =>
      match fr_children top !! fr_idx top with
      | Some child => follow adj top below child s
      | None => close_frame top below s
      end
  end.

Fixpoint tarjan_loop (adj : gmap string (list string)) (fuel : nat) (s : Tarjan) : Tarjan :=
  match work s, fuel with
  | [], _ | _, O => s
  | _, S fuel' => tarjan_loop adj fuel' (tarjan_step adj s)
  end.

(** Every turn follows an edge or closes a frame. *)
Definition tarjan_fuel (adj : gmap string (list string)) (nodes : list string) : nat :=
  sum_list_with (fun n => S (length (children adj n))) nodes.

Definition tarjan_start (adj : gmap string (list string)) (fuel : nat) (s : Tarjan)
    (start : string) : Tarjan :=
  match indices s !! start with
  | Some _ => s
  | None => tarjan_loop adj fuel (visit adj start (s <| work := [] |>))
  end.

Definition tarjan_init : Tarjan := MkTarjan ∅ ∅ ∅ [] ∅ ∅ 0 0 [].

Record sccResult := MkScc {
  scc_compOf : gmap string nat;
  scc_compSize : gmap nat nat;
  scc_numComp : nat;
}.

Definition tarjanSCC (nodes : list string) (adj : gmap string (list string)) : sccResult :=
  let s := foldl (tarjan_start adj (tarjan_fuel adj nodes)) tarjan_init nodes in
  MkScc (compOf s) (compSize s) (nextComp s).

(** ** Tarjan's invariant *)

Section tarjan.
Context (adj : gmap string (list string)).

Definition edge (x y : string) : Prop := y ∈ children adj x.

(** The rank and the low link of a visited node, and the nodes being explored,
    deepest first. *)
Definition rk (s : Tarjan) (x : string) : nat := num (indices s) x.
Definition low (s : Tarjan) (x : string) : nat := num (lowlink s) x.
Definition gray (s : Tarjan) : list string := map fr_node (work s).

(** The edges a stacked node has followed. *)
Definition explored (s : Tarjan) (x y : string) : Prop :=
  (exists f, f ∈ work s /\ fr_node f = x /\ y ∈ take (fr_idx f) (fr_children f)) \/
  ((x ∉ gray s) /\ edge x y).

(** The gray node whose subtree holds the stacked node [x]. *)
Definition anchor (s : Tarjan) (g x : string) : Prop :=
  g ∈ gray s /\ rk s g <= rk s x /\
  forall g', g' ∈ gray s -> rk s g' <= rk s x -> rk s g' <= rk s g.

Definition sizes_ok (s : Tarjan) : Prop :=
  forall c, num (compSize s) c = size (filter (fun p : string * nat => p.2 = c) (compOf s)).

(** The invariant has three parts: the stacks and the ranks, *)
Record Shape (s : Tarjan) : Prop := {
  iv_stack : StronglySorted (fun x y => rk s y < rk s x) (tstack s);
  iv_next : forall x i, indices s !! x = Some i -> i < nextIndex s;
  iv_on : forall x, onStack s !! x = Some true <-> x ∈ tstack s;
  iv_visited : forall x, is_Some (indices s !! x) <-> x ∈ tstack s \/ is_Some (compOf s !! x);
  iv_disj : forall x, x ∈ tstack s -> compOf s !! x = None;
  iv_gray : forall g, g ∈ gray s -> g ∈ tstack s;
  iv_gray_sorted : StronglySorted (fun x y => rk s y < rk s x) (gray s);
  iv_frames : forall f, f ∈ work s -> fr_children f = children adj (fr_node f);
}.

(** the components found so far, *)
Record Comps (s : Tarjan) : Prop := {
  iv_closed : forall x y, is_Some (compOf s !! x) -> edge x y -> is_Some (compOf s !! y);
  iv_scc : forall x y c, compOf s !! x = Some c ->
             (compOf s !! y = Some c <-> rtc edge x y /\ rtc edge y x);
  iv_order : forall x y c d, compOf s !! x = Some c -> edge x y -> compOf s !! y = Some d -> d <= c;
  iv_comp : forall x c, compOf s !! x = Some c -> c < nextComp s;
  iv_sizes : sizes_ok s;
}.

(** and how the stacked nodes reach each other, for a relation [E] that holds
    the explored edges. *)
Record Links (E : string -> string -> Prop) (s : Tarjan) : Prop := {
  iv_up : forall x y, x ∈ tstack s -> y ∈ tstack s -> rk s x <= rk s y -> rtc edge x y;
  iv_down : forall x, x ∈ tstack s -> exists g, g ∈ gray s /\ rk s g <= rk s x /\ rtc edge x g;
  iv_followed : forall x y, x ∈ tstack s -> E x y -> is_Some (indices s !! y);
  iv_anchor : forall x y, x ∈ tstack s -> y ∈ tstack s -> E x y ->
                exists g, anchor s g x /\ low s g <= rk s y;
  iv_low : forall g, g ∈ gray s ->
             exists w, w ∈ tstack s /\ rk s w = low s g /\ rk s w <= rk s g /\ rtc edge g w;
}.

Record Inv (E : string -> string -> Prop) (s : Tarjan) : Prop := {
  iv_shape :> Shape s;
  iv_comps :> Comps s;
  iv_links :> Links E s;
}.

Lemma links_weaken (E E' : string -> string -> Prop) s :
  (forall x y, x ∈ tstack s -> E' x y -> E x y) -> Links E s -> Links E' s.
Proof. intros HE []. constructor; eauto. Qed.

(** Only these parts of the state matter. *)
Definition same_but_idx (s s' : Tarjan) : Prop :=
  s' = s <| work := work s' |> /\ gray s' = gray s /\
  forall f, f ∈ work s' -> fr_children f = children adj (fr_node f).

Lemma inv_same E s s' : same_but_idx s s' -> Inv E s -> Inv E s'.
Proof.
  intros (Hs & Hg & Hf) [[] [] []]. rewrite Hs in *. clear Hs.
  constructor; constructor; unfold anchor, gray in *; cbn in *; rewrite ?Hg; eauto.
Qed.

Lemma sorted_rank_le s x l y :
  StronglySorted (fun x y => rk s y < rk s x) (x :: l) -> y ∈ x :: l -> rk s y <= rk s x.
Proof.
  intros [_ Hx]%StronglySorted_inv. intros [->|Hy]%elem_of_cons; [done|].
  rewrite Forall_forall in Hx. specialize (Hx y Hy). lia.
Qed.

Lemma sorted_rank_inj s l x y :
  StronglySorted (fun x y => rk s y < rk s x) l -> x ∈ l -> y ∈ l -> rk s x = rk s y -> x = y.
Proof.
  induction 1 as [|z l Hl IH Hz]; [by intros ?%elem_of_nil|].
  rewrite Forall_forall in Hz. rewrite !elem_of_cons. intros [->|Hx] [->|Hy] Hr; auto.
  - specialize (Hz y Hy). lia.
  - specialize (Hz x Hx). lia.
Qed.

Lemma sorted_rank_nodup s l : StronglySorted (fun x y => rk s y < rk s x) l -> NoDup l.
Proof.
  induction 1 as [|x l _ IH Hx]; [by apply NoDup_nil_2|]. constructor; [|done].
  intros Hin. rewrite Forall_forall in Hx. specialize (Hx x Hin). lia.
Qed.

(** A stacked node has a rank below the next index. *)
Lemma stacked_visited s x : Shape s -> x ∈ tstack s -> indices s !! x = Some (rk s x).
Proof.
  intros HS Hx. assert (H : is_Some (indices s !! x)) by (apply (iv_visited s HS); by left).
  unfold rk, num. by destruct H as [i ->].
Qed.

Lemma stacked_rank s x : Shape s -> x ∈ tstack s -> rk s x < nextIndex s.
Proof. intros HS Hx. by eapply (iv_next s HS), stacked_visited. Qed.

(** Every stacked node reaches the deepest gray node. *)
Lemma reach_top E s top rest x :
  Inv E s -> gray s = top :: rest -> x ∈ tstack s -> rtc edge x top.
Proof.
  intros HI Hg Hx. destruct (iv_down _ _ HI x Hx) as (g & Hgg & _ & Hr).
  etransitivity; [exact Hr|]. apply (iv_up _ _ HI).
  - by apply (iv_gray _ HI).
  - apply (iv_gray _ HI). rewrite Hg. by left.
  - rewrite Hg in Hgg. eapply sorted_rank_le; [|exact Hgg]. rewrite <- Hg. apply (iv_gray_sorted _ HI).
Qed.

(** ** Visiting a node *)

Lemma rk_visit s child x :
  rk (visit adj child s) x = if decide (x = child) then nextIndex s else rk s x.
Proof.
  unfold rk, num, visit. cbn. destruct (decide (x = child)) as [->|Hn].
  - by rewrite lookup_insert_eq.
  - by rewrite lookup_insert_ne.
Qed.

Lemma low_visit s child x :
  low (visit adj child s) x = if decide (x = child) then nextIndex s else low s x.
Proof.
  unfold low, num, visit. cbn. destruct (decide (x = child)) as [->|Hn].
  - by rewrite lookup_insert_eq.
  - by rewrite lookup_insert_ne.
Qed.

(** [l] is sorted by rank, and stays so when ranks outside [l] change. *)
Lemma sorted_rank_ext s s' l :
  (forall x, x ∈ l -> rk s' x = rk s x) ->
  StronglySorted (fun x y => rk s y < rk s x) l ->
  StronglySorted (fun x y => rk s' y < rk s' x) l.
Proof.
  intros Hr. induction 1 as [|z l Hl IH Hz]; constructor.
  - apply IH. intros x Hx. apply Hr. by right.
  - rewrite Forall_forall in *. intros x Hx. rewrite !Hr by set_solver. auto.
Qed.

Section visit.
Context (s : Tarjan) (child : string) (HS : Shape s) (Hnew : indices s !! child = None).
Let s' := visit adj child s.

Lemma visit_fresh x : x ∈ tstack s -> x <> child.
Proof. intros Hx ->. apply stacked_visited in Hx; [congruence|done]. Qed.

Lemma visit_rank x : x ∈ tstack s -> rk s' x = rk s x.
Proof. intros Hx. unfold s'. rewrite rk_visit, decide_False by (by apply visit_fresh). done. Qed.

Lemma visit_rank_child : rk s' child = nextIndex s.
Proof. unfold s'. by rewrite rk_visit, decide_True. Qed.

Lemma visit_low x : x ∈ tstack s -> low s' x = low s x.
Proof. intros Hx. unfold s'. rewrite low_visit, decide_False by (by apply visit_fresh). done. Qed.

Lemma visit_stacked x : x ∈ tstack s' <-> x = child \/ x ∈ tstack s.
Proof. apply elem_of_cons. Qed.

Lemma visit_gray : gray s' = child :: gray s.
Proof. done. Qed.

Lemma visit_anchor g x : x ∈ tstack s -> anchor s g x -> anchor s' g x.
Proof.
  intros Hx (Hg & Hle & Hmax). pose proof (iv_gray s HS) as Hgray. split_and!.
  - rewrite visit_gray. by right.
  - rewrite !visit_rank by auto. done.
  - intros g'. rewrite visit_gray, (visit_rank x) by done. intros [->|Hg']%elem_of_cons.
    + rewrite visit_rank_child. pose proof (stacked_rank s x HS Hx). lia.
    + rewrite !visit_rank by auto. auto.
Qed.

Lemma shape_visit : Shape s'.
Proof.
  assert (Hcomp : compOf s !! child = None).
  { apply eq_None_not_Some. intros Hc.
    destruct (proj2 (iv_visited _ HS child) (or_intror Hc)). congruence. }
  assert (Hsort : forall l, (forall x, x ∈ l -> x ∈ tstack s) ->
    StronglySorted (fun x y => rk s y < rk s x) l ->
    StronglySorted (fun x y => rk s' y < rk s' x) (child :: l)).
  { intros l Hl Hs. constructor; [apply (sorted_rank_ext s); [|done]|apply Forall_forall];
      intros x Hx; rewrite ?visit_rank_child, visit_rank by auto; [done|]. by apply stacked_rank, Hl. }
  constructor.
  - apply Hsort; [done|apply (iv_stack _ HS)].
  - intros x i. cbn. destruct (decide (x = child)) as [->|Hn].
    + rewrite lookup_insert_eq. intros [= <-]. lia.
    + rewrite lookup_insert_ne by done. intros H%(iv_next _ HS). lia.
  - intros x. rewrite visit_stacked. cbn. destruct (decide (x = child)) as [->|Hn].
    + rewrite lookup_insert_eq. naive_solver.
    + rewrite lookup_insert_ne by done. rewrite (iv_on _ HS). naive_solver.
  - intros x. rewrite visit_stacked. cbn. destruct (decide (x = child)) as [->|Hn].
    + rewrite lookup_insert_eq. naive_solver.
    + rewrite lookup_insert_ne by done. rewrite (iv_visited _ HS). naive_solver.
  - intros x [->|Hx]%visit_stacked; [done|]. by apply (iv_disj _ HS).
  - intros g. rewrite visit_gray, elem_of_cons, visit_stacked.
    intros [->|Hg]; [by left|right; by apply (iv_gray _ HS)].
  - rewrite visit_gray. apply Hsort; [apply (iv_gray _ HS)|apply (iv_gray_sorted _ HS)].
  - intros f. cbn. intros [->|Hf]%elem_of_cons; [done|]. by apply (iv_frames _ HS).
Qed.

(** The edges explored after the visit: at most one more, into the new node. *)
Lemma links_visit E E' :
  Links E s -> (forall x, x ∈ tstack s -> rtc edge x child) ->
  (forall x y, E' x y -> x <> child /\
     (E x y \/ (y = child /\ exists rest, gray s = x :: rest))) ->
  Links E' s'.
Proof.
  intros HL Hreach HE. pose proof (iv_gray s HS) as Hgray.
  assert (Hlt : forall x, x ∈ tstack s -> rk s x < nextIndex s) by (intros; by apply stacked_rank).
  constructor.
  - intros x y [->|Hx]%visit_stacked [->|Hy]%visit_stacked; auto.
    + done.
    + rewrite visit_rank_child, visit_rank by done. specialize (Hlt y Hy). lia.
    + rewrite !visit_rank by done. by apply (iv_up _ _ HL).
  - intros x [->|Hx]%visit_stacked.
    + exists child. rewrite visit_gray. split_and!; [by left|done|done].
    + destruct (iv_down _ _ HL x Hx) as (g & Hg & Hle & Hr). exists g.
      rewrite visit_gray, !visit_rank by auto. split_and!; [by right|done|done].
  - intros x y [->|Hx]%visit_stacked (Hxc & He)%HE; [done|]. cbn.
    destruct (decide (y = child)) as [->|Hn]; [by rewrite lookup_insert_eq|].
    rewrite lookup_insert_ne by done. destruct He as [He|[? _]]; [|done].
    by apply (iv_followed _ _ HL x).
  - intros x y Hx Hy (Hxc & He)%HE. apply visit_stacked in Hx as [?|Hx]; [done|].
    destruct He as [He|(-> & rest & Hr)].
    + apply visit_stacked in Hy as [->|Hy].
      { destruct (iv_followed _ _ HL x child Hx He). congruence. }
      destruct (iv_anchor _ _ HL x y Hx Hy He) as (g & Ha & Hle). exists g.
      split; [by apply visit_anchor|]. assert (g ∈ tstack s) by apply Hgray, Ha.
      by rewrite visit_low, visit_rank.
    + assert (Hxg : x ∈ gray s) by (rewrite Hr; by left). exists x.
      split; [apply visit_anchor; [done|split_and!; auto]|].
      rewrite visit_rank_child, visit_low by done.
      destruct (iv_low _ _ HL x Hxg) as (w & Hw & <- & _). specialize (Hlt w Hw). lia.
  - intros g. rewrite visit_gray. intros [->|Hg]%elem_of_cons.
    + exists child. split_and!; [by apply visit_stacked; left| |done|done].
      unfold s'. by rewrite rk_visit, low_visit, !decide_True.
    + destruct (iv_low _ _ HL g Hg) as (w & Hw & Hlw & Hle & Hr). exists w.
      rewrite !visit_rank, visit_low by auto. split_and!; [by apply visit_stacked; right|done..].
Qed.
End visit.

Lemma inv_visit E E' s child :
  Inv E s -> indices s !! child = None ->
  (forall x, x ∈ tstack s -> rtc edge x child) ->
  (forall x y, E' x y -> x <> child /\
     (E x y \/ (y = child /\ exists rest, gray s = x :: rest))) ->
  Inv E' (visit adj child s).
Proof.
  intros HI Hnew Hreach HE. split.
  - by apply shape_visit; [apply HI|].
  - destruct HI as [_ [] _]. by constructor.
  - apply (links_visit s child HI Hnew E); [apply HI|done|done].
Qed.

(** ** Following an edge to a visited node *)

(** [s'] differs from [s] in low links that went down. *)
Lemma shape_low s s' : s' = s <| lowlink := lowlink s' |> -> Shape s -> Shape s'.
Proof. intros -> []. by constructor. Qed.

Lemma comps_low s s' : s' = s <| lowlink := lowlink s' |> -> Comps s -> Comps s'.
Proof. intros -> []. by constructor. Qed.

Lemma low_le E s g : Links E s -> g ∈ gray s -> low s g <= rk s g.
Proof. intros HL Hg. destruct (iv_low _ _ HL g Hg) as (w & _ & <- & Hle & _). done. Qed.

Lemma links_follow E E' s s' top rest child :
  Shape s -> Links E s -> gray s = top :: rest -> is_Some (indices s !! child) -> edge top child ->
  s' = s <| lowlink := lowlink s' |> ->
  (forall g, low s' g <= low s g) ->
  (child ∈ tstack s -> low s' top <= rk s child) ->
  (forall g, low s' g = low s g \/ (g = top /\ child ∈ tstack s /\ low s' g = rk s child)) ->
  (forall x y, E' x y -> E x y \/ (x = top /\ y = child)) ->
  Links E' s'.
Proof.
  intros HS HL Hg Hc Hedge Hs Hle Hchild Hval HE.
  assert (Hrk : forall x, rk s' x = rk s x) by (intros; by rewrite Hs).
  assert (Hst : tstack s' = tstack s) by (by rewrite Hs).
  assert (Hgr : gray s' = gray s) by (by rewrite Hs).
  assert (Hix : indices s' = indices s) by (by rewrite Hs).
  assert (Hanch : forall g x, anchor s g x -> anchor s' g x).
  { intros g x (H1 & H2 & H3). split_and!; rewrite ?Hgr, ?Hrk; [done|done|].
    intros g'. rewrite ?Hgr, !Hrk. auto. }
  constructor; rewrite ?Hst, ?Hgr, ?Hix.
  - intros x y. rewrite !Hrk. apply (iv_up _ _ HL).
  - intros x Hx. destruct (iv_down _ _ HL x Hx) as (g & ? & ? & ?). exists g. by rewrite !Hrk.
  - intros x y Hx [He|[-> ->]]%HE; [by eapply (iv_followed _ _ HL)|done].
  - intros x y Hx Hy [He|[-> ->]]%HE.
    + destruct (iv_anchor _ _ HL x y Hx Hy He) as (g & Ha & Hlg). exists g. rewrite Hrk.
      split; [auto|]. specialize (Hle g). lia.
    + assert (Htop : top ∈ gray s) by (rewrite Hg; by left).
      exists top. rewrite Hrk. split; [apply Hanch; split_and!; auto|auto].
  - intros g Hgg. destruct (iv_low _ _ HL g Hgg) as (w & Hw & Hlw & Hwg & Hr).
    destruct (Hval g) as [->|(-> & Hst' & Hl)].
    + exists w. by rewrite !Hrk.
    + exists child. rewrite !Hrk, Hl. specialize (Hle top).
      split_and!; [done|done|lia|by apply rtc_once].
Qed.

(** ** Leaving a node *)

Lemma gray_cons s f below : work s = f :: below -> gray s = fr_node f :: map fr_node below.
Proof. unfold gray. by intros ->. Qed.

(** Deeper gray nodes have higher ranks. *)
Lemma below_rank s top rest g : Shape s -> gray s = top :: rest -> g ∈ rest -> rk s g < rk s top.
Proof.
  intros HS Hg Hin. pose proof (iv_gray_sorted _ HS) as H. rewrite Hg in H.
  apply StronglySorted_inv in H as [_ H]. rewrite Forall_forall in H. by apply H.
Qed.

(** The frame of [top] has no edge left, so all of its edges are explored. *)
Definition exhausted (s : Tarjan) (f : tarjanFrame) (below : list tarjanFrame) : Prop :=
  work s = f :: below /\ fr_children f !! fr_idx f = None.

Lemma exhausted_all s f below y :
  Shape s -> exhausted s f below -> edge (fr_node f) y -> explored s (fr_node f) y.
Proof.
  intros HS [Hw Hidx] He. left. exists f. rewrite Hw. split_and!; [by left|done|].
  rewrite take_ge by (by apply lookup_ge_None). rewrite (iv_frames _ HS f) by (rewrite Hw; by left).
  done.
Qed.

(** Dropping the frame explores nothing new. *)
Lemma explored_retire s s' f below x y :
  Shape s -> exhausted s f below -> work s' = below -> explored s' x y -> explored s x y.
Proof.
  intros HS [Hw Hidx] Hw' [(f' & Hf & Hx & Hy)|[Hg He]].
  - left. exists f'. rewrite Hw. split_and!; [right; by rewrite <- Hw'|done|done].
  - destruct (decide (x = fr_node f)) as [->|Hn]; [by eapply exhausted_all|].
    right. split; [|done]. rewrite (gray_cons _ _ _ Hw). unfold gray in Hg. rewrite Hw' in Hg.
    by apply not_elem_of_cons.
Qed.

(** *** A node that is not the root of its component *)

Section retire.
Context (s s' : Tarjan) (f parent : tarjanFrame) (below : list tarjanFrame).
Context (HI : Inv (explored s) s) (Hex : exhausted s f (parent :: below)).
Let v := fr_node f.
Let p := fr_node parent.
Context (Hnonroot : low s v < rk s v).
Context (Hs : s' = s <| work := parent :: below |> <| lowlink := lowlink s' |>).
Context (Hlow : forall g, low s' g = if decide (g = p) then Nat.min (low s p) (low s v) else low s g).

Lemma retire_rank x : rk s' x = rk s x.
Proof. by rewrite Hs. Qed.

Lemma retire_gray : gray s = v :: gray s'.
Proof. rewrite Hs. by apply gray_cons, Hex. Qed.

Lemma retire_below g : g ∈ gray s' -> rk s g < rk s v.
Proof. apply (below_rank s); [apply HI|apply retire_gray]. Qed.

Lemma retire_gray_sub g : g ∈ gray s' -> g ∈ gray s.
Proof. rewrite retire_gray. by right. Qed.

(** The low link of [v] leads to a gray node further up. *)
Lemma retire_up : exists w, w ∈ tstack s /\ rk s w = low s v /\ rtc edge v w /\
  exists g, g ∈ gray s' /\ rk s g <= rk s w /\ rtc edge w g.
Proof.
  assert (Hv : v ∈ gray s) by (rewrite retire_gray; by left).
  destruct (iv_low _ _ HI v Hv) as (w & Hw & Hlw & Hle & Hr). exists w. split_and!; [done..|].
  destruct (iv_down _ _ HI w Hw) as (g & Hg & Hgw & Hrg). exists g. split_and!; [|done..].
  rewrite retire_gray in Hg. apply elem_of_cons in Hg as [->|Hg]; [lia|done].
Qed.

Lemma shape_retire : Shape s'.
Proof.
  pose proof retire_gray as Hg. destruct (iv_shape _ _ HI) as [? ? ? ? ? Hgray Hsort Hframes].
  assert (Hsub := retire_gray_sub). rewrite Hg in Hsort. apply StronglySorted_inv in Hsort as [Hsort _].
  rewrite Hs in *. constructor; try done.
  - intros g Hin. by apply Hgray, Hsub.
  - intros f' Hf'. apply Hframes. destruct Hex as [-> _]. by right.
Qed.

Lemma links_retire : Links (explored s') s'.
Proof.
  pose proof (iv_shape _ _ HI) as HS. pose proof (iv_links _ _ HI) as HL.
  assert (Hst : tstack s' = tstack s) by (by rewrite Hs).
  assert (Hix : indices s' = indices s) by (by rewrite Hs).
  assert (Hvg : v ∈ gray s) by (rewrite retire_gray; by left).
  assert (Hpg : p ∈ gray s') by (rewrite Hs; by left).
  assert (Hexp : forall x y, explored s' x y -> explored s x y).
  { intros x y. apply (explored_retire s s' f (parent :: below)); [done|done|by rewrite Hs]. }
  assert (Hpmax : forall g, g ∈ gray s' -> rk s g <= rk s p).
  { intros g Hg. pose proof (iv_gray_sorted _ shape_retire) as Hsort. rewrite Hs in Hsort, Hg.
    by eapply sorted_rank_le in Hg; [|exact Hsort]. }
  constructor; rewrite ?Hst, ?Hix.
  - intros x y. rewrite !retire_rank. apply (iv_up _ _ HL).
  - intros x Hx. destruct (iv_down _ _ HL x Hx) as (g & Hg & Hle & Hr).
    rewrite retire_gray in Hg. apply elem_of_cons in Hg as [->|Hg].
    + destruct retire_up as (w & _ & Hw & Hrw & g' & Hg' & Hle' & Hr'). exists g'.
      rewrite !retire_rank. split_and!; [done|lia|]. by repeat (etransitivity; [eassumption|]).
    + exists g. by rewrite !retire_rank.
  - intros x y Hx He. eapply (iv_followed _ _ HL); [done|by apply Hexp].
  - intros x y Hx Hy He%Hexp. destruct (iv_anchor _ _ HL x y Hx Hy He) as (g & (Hg & Hle & Hmax) & Hlg).
    rewrite retire_gray in Hg. apply elem_of_cons in Hg as [->|Hg].
    + exists p. unfold anchor. rewrite !retire_rank, Hlow, decide_True by done.
      pose proof (retire_below p Hpg). split_and!; [done|lia| |lia].
      intros g'. rewrite !retire_rank. auto.
    + exists g. unfold anchor. rewrite !retire_rank, Hlow. split_and!; [done..| |].
      * intros g'. rewrite !retire_rank. intros Hg'. apply Hmax. by apply retire_gray_sub.
      * destruct (decide (g = p)) as [->|]; lia.
  - intros g Hg. rewrite Hlow. destruct (iv_low _ _ HL g (retire_gray_sub g Hg)) as (w & Hw & Hlw & Hle & Hr).
    destruct (decide (g = p)) as [->|]; [|exists w; by rewrite !retire_rank].
    destruct (le_lt_dec (low s p) (low s v)).
    { exists w. rewrite !retire_rank. split_and!; [done|lia|done|done]. }
    destruct retire_up as (w' & Hw' & Hrk' & Hr' & _). exists w'. rewrite !retire_rank.
    split_and!; [done|lia|lia|]. etransitivity; [|exact Hr'].
    pose proof (retire_below p Hg). apply (iv_up _ _ HL); [|by apply (iv_gray _ HS)|lia].
    apply (iv_gray _ HS). by apply retire_gray_sub.
Qed.

Lemma inv_retire : Inv (explored s') s'.
Proof.
  split; [apply shape_retire| |apply links_retire].
  destruct HI as [_ [] _]. rewrite Hs. by constructor.
Qed.
End retire.

(** *** The root of a component *)

(** What popping the nodes [C] does; [n] is their component. *)
Record popped (C rest : list string) (n : nat) (s s' : Tarjan) : Prop := {
  pp_stack : tstack s' = rest;
  pp_rest : s' = s <| tstack := rest |> <| onStack := onStack s' |> <| compOf := compOf s' |>
                   <| compSize := compSize s' |>;
  pp_on : forall x, onStack s' !! x = if decide (x ∈ C) then Some false else onStack s !! x;
  pp_comp : forall x, compOf s' !! x = if decide (x ∈ C) then Some n else compOf s !! x;
  pp_sizes : NoDup C -> (forall x, x ∈ C -> compOf s !! x = None) -> sizes_ok s -> sizes_ok s';
}.

Lemma sizes_insert (s : Tarjan) w n :
  compOf s !! w = None -> sizes_ok s ->
  sizes_ok (s <| compOf := <[w := n]> (compOf s) |>
              <| compSize := <[n := S (num (compSize s) n)]> (compSize s) |>).
Proof.
  intros Hw Hok c. cbn. specialize (Hok c). unfold num in *.
  rewrite map_filter_insert. cbn. destruct (decide (n = c)) as [->|Hn].
  - rewrite lookup_insert_eq. cbn. rewrite map_size_insert_None; [by rewrite Hok|].
    apply map_lookup_filter_None. by left.
  - rewrite lookup_insert_ne by done. rewrite delete_id by done. exact Hok.
Qed.

Lemma pop_spec root C rest s :
  root ∉ C ->
  popped (C ++ [root]) rest (nextComp s) s (pop_component root (C ++ root :: rest) s).
Proof.
  revert s. induction C as [|w C IH]; intros s Hroot; cbn [app pop_component].
  - rewrite String.eqb_refl. split; try done.
    + intros x. cbn. destruct (decide (x ∈ [root])) as [->%list_elem_of_singleton|Hx];
        [by rewrite lookup_insert_eq|]. by rewrite lookup_insert_ne by set_solver.
    + intros x. cbn. destruct (decide (x ∈ [root])) as [->%list_elem_of_singleton|Hx];
        [by rewrite lookup_insert_eq|]. by rewrite lookup_insert_ne by set_solver.
    + intros _ Hfresh Hok. apply (sizes_insert s root); [apply Hfresh; by left|done].
  - apply not_elem_of_cons in Hroot as [Hne Hroot].
    replace (String.eqb w root) with false by (symmetry; apply String.eqb_neq; congruence).
    match goal with |- popped _ _ _ _ (pop_component _ _ ?s1) => set (s1' := s1) end.
    destruct (IH s1' Hroot) as [H1 H2 H3 H4 H5].
    set (s' := pop_component root (C ++ root :: rest) s1') in *. clearbody s'. split; try done.
    + intros x. rewrite H3. cbn. destruct (decide (x = w)) as [->|Hx].
      * rewrite lookup_insert_eq. by repeat case_decide; set_solver.
      * rewrite lookup_insert_ne by done. by repeat case_decide; set_solver.
    + intros x. rewrite H4. cbn. destruct (decide (x = w)) as [->|Hx].
      * rewrite lookup_insert_eq. by repeat case_decide; set_solver.
      * rewrite lookup_insert_ne by done. by repeat case_decide; set_solver.
    + intros [Hw Hnd]%NoDup_cons Hfresh Hok. apply H5; [done| |].
      * intros x Hx. cbn. rewrite lookup_insert_ne by (intros ->; done). apply Hfresh. by right.
      * apply (sizes_insert s w); [apply Hfresh; by left|done].
Qed.

Section close_root.
Context (s s1 : Tarjan) (f : tarjanFrame) (below : list tarjanFrame) (C rest : list string).
Context (HI : Inv (explored s) s) (Hex : exhausted s f below).
Let v := fr_node f.
Context (Hroot : low s v = rk s v) (Hsplit : tstack s = C ++ v :: rest).
Let members := C ++ [v].
Context (Hpop : popped members rest (nextComp s) (s <| work := below |>) s1).
Let s' := s1 <| nextComp := S (nextComp s1) |>.

Lemma root_gray : gray s = v :: map fr_node below.
Proof. apply gray_cons, Hex. Qed.

Lemma members_spec x : x ∈ members <-> x ∈ tstack s /\ rk s v <= rk s x.
Proof.
  pose proof (iv_stack _ HI) as H. unfold members. rewrite Hsplit in *.
  assert (Hr : forall y, y ∈ rest -> rk s y < rk s v).
  { apply StronglySorted_app_1_r, StronglySorted_inv in H as [_ H]. by apply Forall_forall. }
  assert (Hc : forall y, y ∈ C -> rk s v < rk s y).
  { intros y Hy. apply (StronglySorted_app_1_elem_of _ _ _ y v H); [done|by left]. }
  rewrite !elem_of_app, (elem_of_cons rest), list_elem_of_singleton. split.
  - intros [Hx| ->]; [split; [by left|by apply Nat.lt_le_incl, Hc]|]. split; [by right; left|done].
  - intros [[Hx|[->|Hx]] Hle]; [by left|by right|]. specialize (Hr x Hx). lia.
Qed.

Lemma rest_spec x : x ∈ rest <-> x ∈ tstack s /\ rk s x < rk s v.
Proof.
  pose proof (iv_stack _ HI) as H. pose proof (members_spec x) as Hm. unfold members in Hm.
  rewrite Hsplit in *. split.
  - intros Hx. split; [by apply elem_of_app; right; right|].
    apply StronglySorted_app_1_r, StronglySorted_inv in H as [_ H].
    rewrite Forall_forall in H. by apply H.
  - intros [Hx Hlt]. apply elem_of_app in Hx as [Hx|Hx].
    + destruct (proj1 Hm); [by apply elem_of_app; left|lia].
    + apply elem_of_cons in Hx as [->|Hx]; [lia|done].
Qed.

Lemma members_nodup : NoDup members.
Proof.
  pose proof (sorted_rank_nodup s _ (iv_stack _ HI)) as Hnd.
  rewrite Hsplit in Hnd. unfold members. apply (sublist_NoDup _ (C ++ v :: rest)); [done|].
  apply sublist_app; [done|]. apply sublist_skip, sublist_nil_l.
Qed.

Lemma members_fresh x : x ∈ members -> compOf s !! x = None.
Proof. intros [Hx _]%members_spec. by apply (iv_disj _ HI). Qed.

(** Edges of the component's members stay in it or lead to closed ones. *)
Lemma members_closed x y :
  x ∈ members -> edge x y -> y ∈ members \/ is_Some (compOf s !! y).
Proof.
  intros [Hx Hle]%members_spec He. pose proof (iv_shape _ _ HI) as HS.
  assert (Hxy : explored s x y).
  { destruct (decide (x = v)) as [->|Hn]; [by apply (exhausted_all s f below)|].
    right. split; [|done]. rewrite root_gray. intros [->|Hg]%elem_of_cons; [done|].
    pose proof (below_rank s v _ x HS root_gray Hg). lia. }
  pose proof (iv_followed _ _ HI x y Hx Hxy) as Hy.
  apply (iv_visited _ HS) in Hy as [Hy|Hy]; [|by right]. left. apply members_spec. split; [done|].
  destruct (iv_anchor _ _ HI x y Hx Hy Hxy) as (g & (Hg & Hgx & Hmax) & Hlg).
  assert (Hv : v ∈ gray s) by (rewrite root_gray; by left).
  specialize (Hmax v Hv Hle).
  assert (g = v) as ->; [|lia].
  rewrite root_gray in Hg. apply elem_of_cons in Hg as [->|Hg]; [done|].
  pose proof (below_rank s v _ g HS root_gray Hg). lia.
Qed.

Lemma closed_reach x y : is_Some (compOf s !! x) -> rtc edge x y -> is_Some (compOf s !! y).
Proof.
  intros Hx Hr. revert Hx. induction Hr as [|x z y He Hr IH]; intros Hx; [done|].
  apply IH. by eapply (iv_closed _ HI).
Qed.

Lemma members_reach x y :
  x ∈ members -> rtc edge x y -> y ∈ members \/ is_Some (compOf s !! y).
Proof.
  intros Hx Hr. revert Hx. induction Hr as [|x z y He Hr IH]; intros Hx; [by left|].
  destruct (members_closed x z Hx He); [by apply IH|]. right. by eapply closed_reach.
Qed.

Lemma members_connected x y : x ∈ members -> y ∈ members -> rtc edge x y.
Proof.
  intros Hx Hy. apply members_spec in Hy as [Hy Hly].
  assert (Hv : v ∈ gray s) by (rewrite root_gray; by left).
  transitivity v; [|apply (iv_up _ _ HI); [by apply (iv_gray _ HI)|done|done]].
  pose proof (proj1 (members_spec x) Hx) as [Hxs Hlx].
  destruct (iv_down _ _ HI x Hxs) as (g & Hg & Hgx & Hr).
  destruct (members_reach x g Hx Hr) as [Hm|Hd].
  - apply members_spec in Hm as [_ Hm]. rewrite root_gray in Hg.
    apply elem_of_cons in Hg as [->|Hg]; [done|].
    pose proof (below_rank s v _ g (iv_shape _ _ HI) root_gray Hg). lia.
  - apply (iv_gray _ HI), (iv_disj _ HI) in Hg. rewrite Hg in Hd. by destruct Hd.
Qed.

Lemma close_fields :
  s' = s <| work := below |> <| tstack := rest |> <| onStack := onStack s' |>
         <| compOf := compOf s' |> <| compSize := compSize s' |> <| nextComp := S (nextComp s) |>.
Proof. pose proof (pp_rest _ _ _ _ _ Hpop) as H. unfold s'. by rewrite H. Qed.

Lemma close_comp x :
  compOf s' !! x = if decide (x ∈ members) then Some (nextComp s) else compOf s !! x.
Proof. apply (pp_comp _ _ _ _ _ Hpop). Qed.

Lemma close_gray g : g ∈ gray s' -> g ∈ gray s /\ g ∈ rest.
Proof.
  rewrite close_fields. cbn. intros Hg. split; [rewrite root_gray; by right|].
  apply rest_spec. split; [apply (iv_gray _ HI); rewrite root_gray; by right|].
  by eapply below_rank; [apply HI|apply root_gray|].
Qed.

Lemma shape_close : Shape s'.
Proof.
  pose proof (pp_on _ _ _ _ _ Hpop) as Hon. pose proof close_comp as Hcomp.
  pose proof close_gray as Hgr.
  assert (Hsub : forall x, x ∈ rest -> x ∈ tstack s) by (by intros x [? _]%rest_spec).
  assert (Hnot : forall x, x ∈ rest -> x ∉ members).
  { intros x [_ H1]%rest_spec [_ H2]%members_spec. lia. }
  assert (Hor : forall x, x ∈ tstack s -> x ∈ members \/ x ∈ rest).
  { intros x Hx. destruct (le_lt_dec (rk s v) (rk s x)); [left; by apply members_spec|].
    right. by apply rest_spec. }
  change (onStack s') with (onStack s1) in *.
  rewrite close_fields. destruct (iv_shape _ _ HI) as [Hst Hnx Hos Hvis Hdis Hgy Hgs Hfr].
  constructor; cbn.
  - rewrite Hsplit in Hst. by apply StronglySorted_app_1_r, StronglySorted_inv in Hst as [? _].
  - apply Hnx.
  - intros x. rewrite Hon. destruct (decide (x ∈ members)) as [Hm|Hm].
    + split; [done|]. intros Hr%Hnot. done.
    + rewrite Hos. split; [|auto]. intros [?|?]%Hor; done.
  - intros x. change (compOf s1) with (compOf s'). rewrite Hcomp, Hvis.
    destruct (decide (x ∈ members)) as [Hm|Hm].
    + split; [by right; eauto|]. intros _. left. by apply members_spec.
    + split; intros [Hx|Hx]; auto. apply Hor in Hx as [?|?]; [done|by left].
  - intros x Hx. change (compOf s1) with (compOf s'). rewrite Hcomp, decide_False by auto. auto.
  - intros g Hg. apply Hgr. by rewrite close_fields.
  - change (StronglySorted (fun x y => rk s y < rk s x) (gray s)) in Hgs.
    rewrite root_gray in Hgs. by apply StronglySorted_inv in Hgs as [? _].
  - intros f' Hf'. apply Hfr. destruct Hex as [-> _]. by right.
Qed.

Lemma comps_close : Comps s'.
Proof.
  destruct (iv_comps _ _ HI) as [Hcl Hscc Hord Hcmp Hsz].
  assert (Hold : forall x c, compOf s !! x = Some c -> x ∉ members).
  { intros x c Hx Hm%members_fresh. congruence. }
  constructor.
  - intros x y. rewrite !close_comp. intros Hx He. destruct (decide (y ∈ members)); [done|].
    destruct (decide (x ∈ members)) as [Hm|Hm]; [|by eapply Hcl].
    by destruct (members_closed x y Hm He).
  - intros x y c. rewrite !close_comp. destruct (decide (x ∈ members)) as [Hx|Hx].
    + intros [= <-]. destruct (decide (y ∈ members)) as [Hy|Hy].
      { split; [|done]. intros _. split; by apply members_connected. }
      split; [intros Hy'%Hcmp; lia|]. intros [Hxy Hyx].
      destruct (members_reach x y Hx Hxy) as [|Hy']; [done|].
      destruct (closed_reach y x Hy' Hyx) as [c Hc]. by destruct (Hold x c Hc).
    + intros Hc. destruct (decide (y ∈ members)) as [Hy|Hy]; [|by apply Hscc].
      split; [intros [= <-]; by apply Hcmp, Nat.lt_irrefl in Hc|].
      intros [Hxy _]. destruct (closed_reach x y (ex_intro _ c Hc) Hxy) as [d Hd].
      by destruct (Hold y d Hd).
  - intros x y c d. rewrite !close_comp. intros Hx He. destruct (decide (x ∈ members)) as [Hm|Hm].
    + injection Hx as <-. destruct (decide (y ∈ members)); [by intros [= <-]|].
      intros Hd%Hcmp. lia.
    + destruct (Hcl x y (ex_intro _ c Hx) He) as [e Hy].
      rewrite decide_False by (by eapply Hold). by eapply Hord.
  - intros x c. rewrite close_comp, close_fields. cbn.
    destruct (decide (x ∈ members)); [intros [= <-]; lia|]. intros Hc%Hcmp. lia.
  - apply (pp_sizes _ _ _ _ _ Hpop); [apply members_nodup|apply members_fresh|done].
Qed.

Lemma links_close : Links (explored s') s'.
Proof.
  pose proof (iv_shape _ _ HI) as HS. pose proof (iv_links _ _ HI) as HL.
  pose proof close_gray as Hgr.
  assert (Hst : tstack s' = rest) by (by rewrite close_fields).
  assert (Hrk : forall x, rk s' x = rk s x) by (intros; by rewrite close_fields).
  assert (Hlow : forall x, low s' x = low s x) by (intros; by rewrite close_fields).
  assert (Hix : indices s' = indices s) by (by rewrite close_fields).
  assert (Hback : forall g, g ∈ gray s -> rk s g < rk s v -> g ∈ gray s').
  { intros g. rewrite root_gray, close_fields. intros [->|?]%elem_of_cons ?; [lia|done]. }
  assert (Hexp : forall x y, explored s' x y -> explored s x y).
  { intros x y. apply (explored_retire s s' f below); [done|done|by rewrite close_fields]. }
  constructor; rewrite ?Hst, ?Hix.
  - intros x y [Hx _]%rest_spec [Hy _]%rest_spec. rewrite !Hrk. by apply (iv_up _ _ HL).
  - intros x [Hx Hlt]%rest_spec. destruct (iv_down _ _ HL x Hx) as (g & Hg & Hle & Hr).
    exists g. rewrite !Hrk. split_and!; [apply Hback; [done|lia]|done|done].
  - intros x y [Hx _]%rest_spec He. eapply (iv_followed _ _ HL); [done|by apply Hexp].
  - intros x y [Hx Hlt]%rest_spec [Hy _]%rest_spec He%Hexp.
    destruct (iv_anchor _ _ HL x y Hx Hy He) as (g & (Hg & Hle & Hmax) & Hlg).
    exists g. rewrite Hlow. unfold anchor. rewrite !Hrk. split_and!; [|done| |done].
    + apply Hback; [done|lia].
    + intros g' [Hg' _]%Hgr. rewrite Hrk. by apply Hmax.
  - intros g [Hg Hrest]%Hgr. apply rest_spec in Hrest as [_ Hlt].
    destruct (iv_low _ _ HL g Hg) as (w & Hw & Hlw & Hle & Hr). exists w.
    rewrite !Hrk, Hlow. split_and!; [|done..]. apply rest_spec. split; [done|lia].
Qed.

Lemma inv_close : Inv (explored s') s'.
Proof. split; [apply shape_close|apply comps_close|apply links_close]. Qed.
End close_root.

(** ** The loop *)

Section advance.
Context (s : Tarjan) (top : tarjanFrame) (below : list tarjanFrame) (child : string).
Context (HI : Inv (explored s) s) (Hw : work s = top :: below).
Context (Hidx : fr_children top !! fr_idx top = Some child).
Let adv := MkFrame (fr_node top) (fr_children top) (S (fr_idx top)).
Let s1 := s <| work := adv :: below |>.

Lemma advance_gray : gray s1 = fr_node top :: map fr_node below.
Proof. done. Qed.

Lemma advance_inv : Inv (explored s) s1.
Proof.
  assert (Htop : fr_children top = children adj (fr_node top)).
  { apply (iv_frames _ HI). rewrite Hw. by left. }
  apply (inv_same _ s); [|done]. split_and!; [done|unfold gray; by rewrite Hw|].
  intros f. cbn. intros [->|Hf]%elem_of_cons; [done|]. apply (iv_frames _ HI). rewrite Hw. by right.
Qed.

Lemma advance_edge : edge (fr_node top) child.
Proof.
  unfold edge. rewrite <- (iv_frames _ HI) by (rewrite Hw; by left).
  by apply list_elem_of_lookup_2 with (fr_idx top).
Qed.

Lemma advance_explored x y :
  explored s1 x y -> explored s x y \/ (x = fr_node top /\ y = child).
Proof.
  intros [(f & Hf & Hx & Hy)|[Hn He]].
  - apply elem_of_cons in Hf as [->|Hf].
    + cbn in Hx, Hy. rewrite (take_S_r _ _ _ Hidx), elem_of_app, list_elem_of_singleton in Hy.
      destruct Hy as [Hy|Hy]; [|by right]. left. left. exists top. rewrite Hw. by split_and!; [left|..].
    + left. left. exists f. rewrite Hw. by split_and!; [right|..].
  - left. right. split; [|done]. by rewrite (gray_cons _ _ _ Hw).
Qed.

(** The child was visited before. *)
Lemma advance_seen s' :
  is_Some (indices s !! child) -> s' = s1 <| lowlink := lowlink s' |> ->
  (forall g, low s' g <= low s1 g) ->
  (child ∈ tstack s -> low s' (fr_node top) <= rk s1 child) ->
  (forall g, low s' g = low s1 g \/
     (g = fr_node top /\ child ∈ tstack s /\ low s' g = rk s1 child)) ->
  Inv (explored s') s'.
Proof.
  intros Hc Hs' Ha Hb Hd. destruct advance_inv as [HS HC HL].
  split; [by eapply shape_low|by eapply comps_low|].
  eapply (links_follow (explored s) _ s1); try done; [apply advance_edge|].
  intros x y. rewrite Hs'. apply advance_explored.
Qed.

(** The child is new. *)
Lemma advance_new :
  indices s !! child = None -> Inv (explored (visit adj child s1)) (visit adj child s1).
Proof.
  intros Hnew. pose proof advance_inv as H1. apply (inv_visit (explored s)); [done|done| |].
  - intros x Hx. etransitivity; [by eapply (reach_top _ s1)|apply rtc_once, advance_edge].
  - intros x y He. assert (Hxc : forall z, z ∈ gray s1 -> z <> child).
    { intros z Hz ->. apply (iv_gray _ H1), (stacked_visited _ _ (iv_shape _ _ H1)) in Hz.
      cbn in Hz. congruence. }
    destruct He as [(f & Hf & <- & Hy)|[Hn He]].
    + apply elem_of_cons in Hf as [->|Hf]; [by apply elem_of_nil in Hy|].
      split; [apply Hxc; by apply elem_of_map_intro|].
      assert (He' : explored s1 (fr_node f) y) by (left; by exists f).
      destruct (advance_explored _ _ He') as [?|[Ht ->]]; [by left|]. right. split; [done|].
      rewrite advance_gray, Ht. eauto.
    + apply not_elem_of_cons in Hn as [Hn Hn']. split; [done|left].
      assert (He' : explored s1 x y) by (by right).
      destruct (advance_explored _ _ He') as [?|[-> _]]; [done|].
      destruct Hn'. by left.
Qed.

Lemma inv_follow : Inv (explored (follow adj top below child s)) (follow adj top below child s).
Proof.
  unfold follow. change (s <| work := _ |>) with s1. change (indices s1) with (indices s).
  destruct (indices s !! child) as [ic|] eqn:Hic; [|by apply advance_new].
  assert (Hc : is_Some (indices s !! child)) by (by rewrite Hic).
  assert (Hon : default false (onStack s1 !! child) = true <-> child ∈ tstack s).
  { rewrite <- (iv_on _ HI). cbn. destruct (onStack s !! child) as [[]|]; naive_solver. }
  destruct (default false (onStack s1 !! child)).
  2: { apply advance_seen; auto. intros H%Hon. done. }
  change (num (indices s) child) with (rk s1 child).
  change (num (lowlink s1) (fr_node top)) with (low s1 (fr_node top)).
  assert (Hst : child ∈ tstack s) by (by apply Hon).
  destruct (Nat.ltb_spec (rk s1 child) (low s1 (fr_node top))) as [Hlt|Hge];
    [|apply advance_seen; auto].
  set (s2 := s1 <| lowlink := <[fr_node top := rk s1 child]> (lowlink s1) |>).
  assert (Hl : forall g, low s2 g = if decide (g = fr_node top) then rk s1 child else low s1 g).
  { intros g. unfold low, num, s2. cbn. destruct (decide (g = fr_node top)) as [->|Hn].
    - by rewrite lookup_insert_eq.
    - by rewrite lookup_insert_ne. }
  apply advance_seen; [done|done|intros g|intros _|intros g]; rewrite Hl.
  - destruct (decide _) as [->|]; lia.
  - by rewrite decide_True.
  - destruct (decide _) as [->|]; [right|left]; done.
Qed.
End advance.

Section close_frame.
Context (s : Tarjan) (top : tarjanFrame) (below : list tarjanFrame).
Context (HI : Inv (explored s) s) (Hex : exhausted s top below).
Let v := fr_node top.

Lemma close_gray_top : gray s = v :: map fr_node below.
Proof. apply gray_cons, Hex. Qed.

Lemma close_low_le : low s v <= rk s v.
Proof. apply (low_le _ _ _ (iv_links _ _ HI)). rewrite close_gray_top. by left. Qed.

Lemma close_parent parent rest :
  below = parent :: rest -> rk s (fr_node parent) < rk s v /\
  low s (fr_node parent) <= rk s (fr_node parent).
Proof.
  pose proof close_gray_top as Hg. intros ->. split.
  - eapply below_rank; [apply HI|exact Hg|by left].
  - apply (low_le _ _ _ (iv_links _ _ HI)). rewrite Hg. by right; left.
Qed.

Lemma close_frame_root :
  low s v = rk s v ->
  close_frame top below s =
    let s1 := pop_component v (tstack s) (s <| work := below |>) in
    s1 <| nextComp := S (nextComp s1) |>.
Proof.
  intros Hroot. unfold close_frame. fold v. pose proof close_parent as Hpar.
  assert (E : match below with
    | [] => s <| work := below |>
    | parent :: _ =>
        if num (lowlink (s <| work := below |>)) v
           <? num (lowlink (s <| work := below |>)) (fr_node parent)
        then s <| work := below |> <| lowlink := <[fr_node parent :=
               num (lowlink (s <| work := below |>)) v]> (lowlink (s <| work := below |>)) |>
        else s <| work := below |>
    end = s <| work := below |>).
  { destruct below as [|parent rest] ; [done|]. destruct (Hpar parent rest eq_refl).
    change (num _ v) with (low s v). change (num _ (fr_node parent)) with (low s (fr_node parent)).
    destruct (Nat.ltb_spec (low s v) (low s (fr_node parent))); [lia|done]. }
  rewrite E. change (num (lowlink _) v) with (low s v). change (num (indices _) v) with (rk s v).
  by rewrite Hroot, Nat.eqb_refl.
Qed.

Lemma inv_close_frame_root :
  low s v = rk s v -> Inv (explored (close_frame top below s)) (close_frame top below s).
Proof.
  intros Hroot. rewrite close_frame_root by done. cbn zeta.
  assert (Hv : v ∈ tstack s) by (apply (iv_gray _ HI); rewrite close_gray_top; by left).
  apply list_elem_of_split in Hv as (C & rest & Hsplit).
  pose proof (sorted_rank_nodup s _ (iv_stack _ HI)) as Hnd. rewrite Hsplit in Hnd.
  assert (Hvc : v ∉ C).
  { apply NoDup_app in Hnd as (_ & Hd & _). intros Hin. apply (Hd v Hin). by left. }
  pose proof (pop_spec v C rest (s <| work := below |>) Hvc) as Hpop. rewrite <- Hsplit in Hpop.
  exact (inv_close s _ top below C rest HI Hex Hroot Hsplit Hpop).
Qed.

(** A node that is not a root has a parent. *)
Lemma nonroot_parent : low s v < rk s v -> exists parent rest, below = parent :: rest.
Proof.
  intros Hn. pose proof close_gray_top as Hg. destruct below as [|parent rest]; [|eauto]. exfalso.
  assert (Hv : v ∈ gray s) by (rewrite Hg; by left).
  destruct (iv_low _ _ HI v Hv) as (w & Hw & Hlw & _).
  destruct (iv_down _ _ HI w Hw) as (g & Hgg & Hle & _).
  rewrite Hg in Hgg. cbn in Hgg. apply list_elem_of_singleton in Hgg as ->. lia.
Qed.

Lemma inv_close_frame_nonroot :
  low s v < rk s v -> Inv (explored (close_frame top below s)) (close_frame top below s).
Proof.
  intros Hn. pose proof close_parent as Hpar. destruct (nonroot_parent Hn) as (parent & rest & ->).
  destruct (Hpar parent rest eq_refl) as [Hrk Hlow].
  set (p := fr_node parent) in *. set (s0 := s <| work := parent :: rest |>).
  set (s1 := if low s v <? low s p then s0 <| lowlink := <[p := low s v]> (lowlink s) |> else s0).
  assert (Hl : forall g, low s1 g = if decide (g = p) then Nat.min (low s p) (low s v) else low s g).
  { intros g. unfold s1. destruct (Nat.ltb_spec (low s v) (low s p)).
    - unfold low at 1, num. cbn. destruct (decide (g = p)) as [->|Hg].
      + rewrite lookup_insert_eq. cbn. lia.
      + by rewrite lookup_insert_ne.
    - change (low s0 g) with (low s g). destruct (decide (g = p)) as [->|]; lia. }
  assert (Hs1 : s1 = s <| work := parent :: rest |> <| lowlink := lowlink s1 |>).
  { unfold s1. by destruct (low s v <? low s p). }
  assert (E : close_frame top (parent :: rest) s = s1).
  { unfold close_frame. fold v. fold p. fold s0. change (num (lowlink s0) v) with (low s v).
    change (num (lowlink s0) p) with (low s p). change (lowlink s0) with (lowlink s). fold s1.
    change (num (lowlink s1) v) with (low s1 v). rewrite Hl, decide_False by (intros E; rewrite E in Hrk; lia).
    replace (num (indices s1) v) with (rk s v) by (rewrite Hs1; done).
    destruct (Nat.eqb_spec (low s v) (rk s v)); [lia|done]. }
  rewrite E. exact (inv_retire s s1 top parent rest HI Hex Hn Hs1 Hl).
Qed.

Lemma inv_close_frame : Inv (explored (close_frame top below s)) (close_frame top below s).
Proof.
  destruct (Nat.lt_trichotomy (low s v) (rk s v)) as [H|[H|H]].
  - by apply inv_close_frame_nonroot.
  - by apply inv_close_frame_root.
  - pose proof close_low_le. lia.
Qed.
End close_frame.

Lemma inv_step s : Inv (explored s) s -> Inv (explored (tarjan_step adj s)) (tarjan_step adj s).
Proof.
  intros HI. unfold tarjan_step. destruct (work s) as [|top below] eqn:Hw; [done|].
  destruct (fr_children top !! fr_idx top) as [child|] eqn:Hidx.
  - by apply inv_follow.
  - by apply inv_close_frame.
Qed.

(** ** Termination *)

Section loop.
Context (nodes : list string) (Hnodes : forall x y, edge x y -> y ∈ nodes).

Definition unvisited_cost (s : Tarjan) (n : string) : nat :=
  match indices s !! n with Some _ => 0 | None => S (length (children adj n)) end.

(** The edges and frames still to be dealt with: every turn takes one off. *)
Definition cost (s : Tarjan) : nat :=
  sum_list_with (fun f => S (length (fr_children f) - fr_idx f)) (work s) +
  sum_list_with (unvisited_cost s) nodes.

Lemma sum_drop {A} (f g : A -> nat) l c k :
  (forall x, f x <= g x) -> c ∈ l -> f c + k <= g c ->
  sum_list_with f l + k <= sum_list_with g l.
Proof.
  intros Hle Hc Hk. assert (Hall : forall l, sum_list_with f l <= sum_list_with g l).
  { clear -Hle. induction l as [|y l IH]; cbn; [done|]. specialize (Hle y). lia. }
  induction l as [|y l IH]; [by apply elem_of_nil in Hc|]. cbn.
  apply elem_of_cons in Hc as [<-|Hc].
  - specialize (Hall l). lia.
  - specialize (Hle y). specialize (IH Hc). lia.
Qed.

Lemma pop_component_same root stack s :
  indices (pop_component root stack s) = indices s /\ work (pop_component root stack s) = work s.
Proof.
  revert s. induction stack as [|w stack IH]; intros s; [done|]. cbn.
  destruct (String.eqb w root); [done|].
  match goal with |- context [pop_component root stack ?s1] => destruct (IH s1) as [-> ->] end. done.
Qed.

Lemma close_frame_same top below s :
  indices (close_frame top below s) = indices s /\ work (close_frame top below s) = below.
Proof.
  unfold close_frame.
  match goal with |- context [num (lowlink ?t) (fr_node top) =? _] => set (s1 := t) end.
  assert (H : indices s1 = indices s /\ work s1 = below).
  { unfold s1. destruct below; [done|]. by destruct (_ <? _). }
  destruct (_ =? _); [|done]. cbn.
  destruct (pop_component_same (fr_node top) (tstack s1) s1) as [-> ->]. done.
Qed.

Lemma visit_cost child s :
  child ∈ nodes -> indices s !! child = None -> cost (visit adj child s) <= cost s.
Proof.
  intros Hc Hnew. unfold cost. cbn.
  pose proof (sum_drop (unvisited_cost (visit adj child s)) (unvisited_cost s) nodes child
    (S (length (children adj child)))) as H.
  rewrite Nat.sub_0_r. enough (sum_list_with (unvisited_cost (visit adj child s)) nodes +
    S (length (children adj child)) <= sum_list_with (unvisited_cost s) nodes) by lia.
  apply H; [|done|].
  - intros x. unfold unvisited_cost. cbn. destruct (decide (x = child)) as [->|Hn].
    + rewrite lookup_insert_eq. lia.
    + by rewrite lookup_insert_ne.
  - unfold unvisited_cost. cbn. by rewrite lookup_insert_eq, Hnew.
Qed.

Lemma step_cost s : Inv (explored s) s -> work s <> [] -> cost (tarjan_step adj s) < cost s.
Proof.
  intros HI Hne. unfold tarjan_step. destruct (work s) as [|top below] eqn:Hw; [done|].
  destruct (fr_children top !! fr_idx top) as [child|] eqn:Hidx.
  - set (s1 := s <| work := MkFrame (fr_node top) (fr_children top) (S (fr_idx top)) :: below |>).
    assert (H1 : cost s1 < cost s).
    { apply lookup_lt_Some in Hidx. unfold cost. rewrite Hw. cbn.
      change (unvisited_cost s1) with (unvisited_cost s). lia. }
    unfold follow. change (s <| work := _ |>) with s1.
    destruct (indices s1 !! child) as [i|] eqn:Hi.
    + assert (Hsame : forall s', s' = s1 <| lowlink := lowlink s' |> -> cost s' < cost s).
      { intros s' ->. exact H1. }
      destruct (default false _); [destruct (_ <? _)|]; by apply Hsame.
    + assert (Hc : child ∈ nodes) by (eapply Hnodes, advance_edge; done).
      pose proof (visit_cost child s1 Hc Hi). lia.
  - destruct (close_frame_same top below s) as [Hi Hw']. unfold cost, unvisited_cost.
    rewrite Hi, Hw', Hw. cbn. lia.
Qed.

(** What a run of the loop keeps: the invariant, the visited nodes, and that
    only nodes are visited. *)
Lemma step_visited s x :
  is_Some (indices s !! x) -> is_Some (indices (tarjan_step adj s) !! x).
Proof.
  intros Hx. unfold tarjan_step. destruct (work s) as [|top below]; [done|].
  destruct (fr_children top !! fr_idx top) as [child|].
  - unfold follow. cbn. destruct (indices s !! child) eqn:Hc.
    + by repeat case_match.
    + cbn. destruct (decide (x = child)) as [->|]; [by rewrite lookup_insert_eq|].
      by rewrite lookup_insert_ne.
  - by destruct (close_frame_same top below s) as [-> _].
Qed.

Lemma step_nodes s x :
  Inv (explored s) s -> is_Some (indices (tarjan_step adj s) !! x) ->
  is_Some (indices s !! x) \/ x ∈ nodes.
Proof.
  intros HI. unfold tarjan_step. destruct (work s) as [|top below] eqn:Hw; [auto|].
  destruct (fr_children top !! fr_idx top) as [child|] eqn:Hidx.
  - assert (Hc : child ∈ nodes) by (eapply Hnodes, advance_edge; done).
    unfold follow. cbn. destruct (indices s !! child) eqn:Hic.
    + repeat case_match; auto.
    + cbn. destruct (decide (x = child)) as [->|]; [auto|]. rewrite lookup_insert_ne by done. auto.
  - destruct (close_frame_same top below s) as [-> _]. auto.
Qed.

Lemma loop_ends fuel s :
  Inv (explored s) s -> cost s <= fuel ->
  let s' := tarjan_loop adj fuel s in
  Inv (explored s') s' /\ work s' = [] /\
  (forall x, is_Some (indices s !! x) -> is_Some (indices s' !! x)) /\
  (forall x, is_Some (indices s' !! x) -> is_Some (indices s !! x) \/ x ∈ nodes).
Proof.
  revert s. induction fuel as [|fuel IH]; intros s HI Hc; cbn [tarjan_loop].
  - destruct (work s) as [|f w] eqn:Hw; [by split_and!; auto|].
    unfold cost in Hc. rewrite Hw in Hc. cbn in Hc. lia.
  - destruct (work s) as [|f w] eqn:Hw; [by split_and!; auto|].
    assert (Hne : work s <> []) by congruence. pose proof (step_cost s HI Hne).
    destruct (IH (tarjan_step adj s) (inv_step s HI) ltac:(lia)) as (H1 & H2 & H3 & H4).
    split_and!; [done|done| |].
    + intros x Hx. by apply H3, step_visited.
    + intros x [Hx|Hx]%H4; [|by right]. by apply step_nodes.
Qed.

(** Between two starts no node is stacked. *)
Definition resting (s : Tarjan) : Prop := Inv (explored s) s /\ work s = [].

Lemma resting_unstacked s x : resting s -> x ∉ tstack s.
Proof.
  intros [HI Hw] Hx. destruct (iv_down _ _ HI x Hx) as (g & Hg & _). unfold gray in Hg.
  rewrite Hw in Hg. by apply elem_of_nil in Hg.
Qed.

Lemma resting_init : resting tarjan_init.
Proof.
  split; [|done]. split.
  - constructor; cbn; [constructor|done| | | | |constructor|].
    + intros x. split; [done|by intros ?%elem_of_nil].
    + intros x. split; [by intros [? ?]|by intros [?%elem_of_nil|[? ?]]].
    + by intros x ?%elem_of_nil.
    + by intros g ?%elem_of_nil.
    + by intros f ?%elem_of_nil.
  - constructor; cbn; [|done|done|done|done]. by intros x y [? ?].
  - constructor; cbn.
    + by intros x y ?%elem_of_nil.
    + by intros x ?%elem_of_nil.
    + by intros x y ?%elem_of_nil.
    + by intros x y ?%elem_of_nil.
    + by intros g ?%elem_of_nil.
Qed.

Lemma start_ok fuel s start :
  resting s -> start ∈ nodes -> tarjan_fuel adj nodes <= fuel ->
  let s' := tarjan_start adj fuel s start in
  resting s' /\ is_Some (indices s' !! start) /\
  (forall x, is_Some (indices s !! x) -> is_Some (indices s' !! x)) /\
  (forall x, is_Some (indices s' !! x) -> is_Some (indices s !! x) \/ x ∈ nodes).
Proof.
  intros Hrest Hstart Hfuel. pose proof Hrest as [HI Hw]. unfold tarjan_start.
  destruct (indices s !! start) as [i|] eqn:Hi; [by split_and!; auto; rewrite Hi|].
  replace (s <| work := [] |>) with s by (rewrite <- Hw; by destruct s).
  assert (Hv : Inv (explored (visit adj start s)) (visit adj start s)).
  { apply (inv_visit (explored s)); [done|done| |].
    - intros x Hx. by destruct (resting_unstacked s x Hrest).
    - intros x y [(f & Hf & _ & Hy)|[Hn He]].
      + cbn in Hf. rewrite Hw in Hf. apply list_elem_of_singleton in Hf as ->.
        by apply elem_of_nil in Hy.
      + apply not_elem_of_cons in Hn as [Hn _]. split; [done|]. left. right. split; [|done].
        unfold gray. rewrite Hw. apply not_elem_of_nil. }
  assert (Hcost : cost (visit adj start s) <= fuel).
  { etransitivity; [by apply visit_cost|]. etransitivity; [|exact Hfuel].
    unfold cost. rewrite Hw. cbn [sum_list_with Nat.add].
    unfold tarjan_fuel. clear. induction nodes as [|n l IH]; cbn; [done|].
    assert (unvisited_cost s n <= S (length (children adj n))); [|lia].
    unfold unvisited_cost. destruct (indices s !! n); lia. }
  destruct (loop_ends fuel _ Hv Hcost) as (H1 & H2 & H3 & H4).
  assert (Hvis : forall x, is_Some (indices (visit adj start s) !! x) <->
    x = start \/ is_Some (indices s !! x)).
  { intros x. cbn. destruct (decide (x = start)) as [->|Hn].
    - rewrite lookup_insert_eq. naive_solver.
    - rewrite lookup_insert_ne by done. naive_solver. }
  split_and!; [done|apply H3, Hvis; by left| |].
  - intros x Hx. apply H3, Hvis. by right.
  - intros x [[->|Hx]%Hvis|Hx]%H4; auto.
Qed.

Lemma starts_ok fuel l s :
  resting s -> (forall x, x ∈ l -> x ∈ nodes) -> tarjan_fuel adj nodes <= fuel ->
  let s' := foldl (tarjan_start adj fuel) s l in
  resting s' /\ (forall x, x ∈ l -> is_Some (indices s' !! x)) /\
  (forall x, is_Some (indices s !! x) -> is_Some (indices s' !! x)) /\
  (forall x, is_Some (indices s' !! x) -> is_Some (indices s !! x) \/ x ∈ nodes).
Proof.
  revert s. induction l as [|start l IH]; intros s Hrest Hl Hfuel; cbn [foldl].
  - split_and!; auto. by intros ? ?%elem_of_nil.
  - destruct (start_ok fuel s start Hrest ltac:(apply Hl; by left) Hfuel) as (H1 & H2 & H3 & H4).
    destruct (IH _ H1 ltac:(intros; apply Hl; by right) Hfuel) as (K1 & K2 & K3 & K4).
    split_and!; auto.
    + intros x [->|Hx]%elem_of_cons; auto.
    + intros x [Hx|Hx]%K4; auto.
Qed.

(** [tarjanSCC] on a graph whose edges stay within the nodes. *)
Lemma tarjan_components :
  let r := tarjanSCC nodes adj in
  (forall x, is_Some (scc_compOf r !! x) <-> x ∈ nodes) /\
  (forall x y c, scc_compOf r !! x = Some c ->
     (scc_compOf r !! y = Some c <-> rtc edge x y /\ rtc edge y x)) /\
  (forall x y c d, scc_compOf r !! x = Some c -> edge x y -> scc_compOf r !! y = Some d -> d <= c) /\
  (forall x c, scc_compOf r !! x = Some c -> c < scc_numComp r) /\
  (forall c, num (scc_compSize r) c =
     size (filter (fun p : string * nat => p.2 = c) (scc_compOf r))).
Proof.
  unfold tarjanSCC.
  destruct (starts_ok (tarjan_fuel adj nodes) nodes tarjan_init resting_init ltac:(done) ltac:(done))
    as (Hrest & Hall & _ & Honly).
  set (s := foldl _ tarjan_init nodes) in *. clearbody s. cbn. pose proof Hrest as [[HS [] _] _].
  split_and!; try done. intros x. split.
  - intros Hx. assert (Hv : is_Some (indices s !! x)) by (apply (iv_visited _ HS); by right).
    apply Honly in Hv as [Hv|Hv]; [by destruct Hv|done].
  - intros Hx%Hall. apply (iv_visited _ HS) in Hx as [Hx|Hx]; [|done].
    by destruct (resting_unstacked s x Hrest).
Qed.
End loop.
End tarjan.

(** ** The graph of a tick *)

Lemma sortedNodes_spec g x : x ∈ sortedNodes g <-> x ∈ Nodes g.
Proof. unfold sortedNodes, sort_strings. by rewrite sort_stable_perm, elem_of_elements. Qed.

Lemma sortedNodes_nodup g : NoDup (sortedNodes g).
Proof. unfold sortedNodes, sort_strings. rewrite sort_stable_perm. apply NoDup_elements. Qed.

Lemma adjacency_children g l x :
  children (adjacency g l) x =
    if decide (x ∈ l) then filter (fun to => to ∈ Nodes g) (default [] (Out g !! x)) else [].
Proof.
  unfold adjacency, children. induction l as [|n l IH] using rev_ind; [done|].
  rewrite foldl_snoc. destruct (Nat.eqb_spec (length (default [] (Out g !! n))) 0) as [E|E].
  - rewrite IH. apply nil_length_inv in E.
    destruct (decide (x ∈ l)) as [H|H], (decide (x ∈ l ++ [n])) as [H'|H']; try done.
    + destruct H'. apply elem_of_app. by left.
    + apply elem_of_app in H' as [?|H1%list_elem_of_singleton]; [done|]. by rewrite H1, E.
  - destruct (decide (x = n)) as [->|Hn].
    + rewrite lookup_insert_eq, decide_True; [done|]. apply elem_of_app. right. by left.
    + rewrite lookup_insert_ne, IH by done.
      destruct (decide (x ∈ l)) as [H|H], (decide (x ∈ l ++ [n])) as [H'|H']; try done.
      * destruct H'. apply elem_of_app. by left.
      * apply elem_of_app in H' as [?|H1%list_elem_of_singleton]; done.
Qed.

Lemma edge_linked g x y : edge (adjacency g (sortedNodes g)) x y <-> linked g x y.
Proof.
  unfold edge, linked. rewrite adjacency_children.
  destruct (decide (x ∈ sortedNodes g)) as [H|H]; rewrite sortedNodes_spec in H.
  - rewrite list_elem_of_filter. naive_solver.
  - split; [by intros ?%elem_of_nil|naive_solver].
Qed.

Lemma reach_linked g x y : rtc (edge (adjacency g (sortedNodes g))) x y <-> rtc (linked g) x y.
Proof.
  split; (induction 1 as [|a b c Hab _ IH]; [done|]; eapply rtc_l; [by apply edge_linked|done]).
Qed.

Definition tick_scc (g : TickGraph) : sccResult :=
  tarjanSCC (sortedNodes g) (adjacency g (sortedNodes g)).

(** The components, as the other components of the library use them. *)
Record SccSpec (g : TickGraph) (r : sccResult) : Prop := {
  scc_dom : forall x, is_Some (scc_compOf r !! x) <-> x ∈ Nodes g;
  scc_mutual : forall x y c, scc_compOf r !! x = Some c ->
    (scc_compOf r !! y = Some c <-> rtc (linked g) x y /\ rtc (linked g) y x);
  scc_descends : forall x y c d, scc_compOf r !! x = Some c -> linked g x y ->
    scc_compOf r !! y = Some d -> d <= c;
  scc_bound : forall x c, scc_compOf r !! x = Some c -> c < scc_numComp r;
  scc_sizes : forall c, num (scc_compSize r) c =
    size (filter (fun x => scc_compOf r !! x = Some c) (Nodes g));
}.

Lemma tick_scc_spec g : SccSpec g (tick_scc g).
Proof.
  destruct (tarjan_components (adjacency g (sortedNodes g)) (sortedNodes g))
    as (Hdom & Hscc & Hord & Hlt & Hsz).
  { intros x y He%edge_linked. apply sortedNodes_spec, He. }
  fold (tick_scc g) in *. split.
  - intros x. by rewrite Hdom, sortedNodes_spec.
  - intros x y c Hx. rewrite (Hscc x y c Hx). by rewrite !reach_linked.
  - intros x y c d Hx Hl%edge_linked. by eapply Hord.
  - exact Hlt.
  - intros c. rewrite Hsz, <- size_dom. f_equal. apply set_eq. intros x.
    rewrite elem_of_dom, elem_of_filter, <- sortedNodes_spec, <- Hdom. split.
    + intros [d [Hd Hp]%map_lookup_filter_Some]. cbn in Hp. subst. eauto.
    + intros [Hc _]. exists c. by apply map_lookup_filter_Some.
Qed.

(** The iterative algorithm ends on every graph and finds its strongly
    connected components.  It labels exactly the nodes; two nodes have one label
    exactly when each reaches the other; labels do not increase along an edge,
    so they number the components in reverse topological order; and the size of
    a component is the number of nodes with its label. *)
Theorem scc_exact g :
  let r := tarjanSCC (sortedNodes g) (adjacency g (sortedNodes g)) in
  (forall x, is_Some (scc_compOf r !! x) <-> x ∈ Nodes g) /\
  (forall x y, x ∈ Nodes g -> y ∈ Nodes g ->
     (scc_compOf r !! x = scc_compOf r !! y <-> rtc (linked g) x y /\ rtc (linked g) y x)) /\
  (forall x y c d, linked g x y -> scc_compOf r !! x = Some c -> scc_compOf r !! y = Some d ->
     d <= c < scc_numComp r) /\
  (forall c, num (scc_compSize r) c =
     size (filter (fun x => scc_compOf r !! x = Some c) (Nodes g))).
Proof.
  fold (tick_scc g). destruct (tick_scc_spec g) as [Hdom Hmut Hdesc Hbound Hsizes]. split_and!.
  - exact Hdom.
  - intros x y Hx%Hdom Hy%Hdom. destruct Hx as [c Hc]. rewrite Hc, <- (Hmut x y c Hc).
    split; [by intros <-|by intros ->].
  - intros x y c d Hl Hc Hd. split; [by eapply Hdesc|by eapply Hbound].
  - exact Hsizes.
Qed.
