(* ===== verification/Kahn.v ===== *)
(** * Kahn: a topological order of the condensation
    (internal/orchestrator/tick_graph_scc.go 141-197)

    Components are numbered from 0; [condOut] lists the targets of each and
    [inDegree] counts its sources.  Each wave holds the components whose
    sources have all been drained. *)

From stdpp Require Import base gmap sets list strings sorting.
From S2P Require Import Prelude.

Local Open Scope nat_scope.

Definition sort_ints : list nat -> list nat := sort_stable Nat.ltb.
Definition sortedIntKeys (m : gset nat) : list nat := sort_ints (elements m).

(** One target of a drained component: its count goes down and, at zero, it
    joins the next wave. *)
Definition drain_target (acc : list Z * list nat) (t : nat) : list Z * list nat :=
  let '(remaining, next) := acc in
  let remaining := alter Z.pred t remaining in
  (remaining, if default 1%Z (remaining !! t) =? 0 then next ++ [t] else next)%Z.

Definition targets (condOut : list (gset nat)) (c : nat) : gset nat := default ∅ (condOut !! c).

Definition kahn_drain (condOut : list (gset nat)) (remaining : list Z) (wave : list nat) :
    list Z * list nat :=
  foldl (fun acc c => foldl drain_target acc (sortedIntKeys (targets condOut c)))
    (remaining, []) wave.

Fixpoint kahn_loop (condOut : list (gset nat)) (fuel : nat) (remaining : list Z)
    (wave topo : list nat) : list nat :=
  match wave, fuel with
  | [], _ | _, O => topo
  | _, S fuel' =>
      let '(remaining, next) := kahn_drain condOut remaining wave in
      kahn_loop condOut fuel' remaining (sort_ints next) (topo ++ wave)
  end.

(** Every wave holds a component that was not in an earlier one. *)
Definition kahnTopoOrder (condOut : list (gset nat)) (inDegree : list Z) : list nat :=
  let wave := filter (fun c => inDegree !! c = Some 0%Z) (seq 0 (length inDegree)) in
  kahn_loop condOut (length condOut) inDegree (sort_ints wave) [].


(** ** Draining a list of targets *)

Definition occurrences (t : nat) (l : list nat) : nat := length (filter (fun x => x = t) l).

Lemma occurrences_cons t x l :
  occurrences t (x :: l) = if decide (x = t) then S (occurrences t l) else occurrences t l.
Proof. unfold occurrences. rewrite filter_cons. by destruct (decide (x = t)). Qed.

Lemma occurrences_app t l l' : occurrences t (l ++ l') = occurrences t l + occurrences t l'.
Proof. unfold occurrences. by rewrite filter_app, length_app. Qed.

Lemma occurrences_elem t l : t ∈ l <-> 0 < occurrences t l.
Proof.
  induction l as [|x l IH].
  - split; [by intros ?%elem_of_nil|]. unfold occurrences. cbn. lia.
  - rewrite elem_of_cons, occurrences_cons. destruct (decide (x = t)); [|rewrite IH]; naive_solver lia.
Qed.

Lemma occurrences_nodup t l : NoDup l -> occurrences t l = if decide (t ∈ l) then 1 else 0.
Proof.
  induction 1 as [|x l Hx Hl IH]; [done|]. rewrite occurrences_cons, IH.
  destruct (decide (x = t)) as [->|Hn].
  - rewrite decide_False by done. by rewrite decide_True by left.
  - destruct (decide (t ∈ l)) as [H|H], (decide (t ∈ x :: l)) as [H'|H']; try done.
    + destruct H'. by right.
    + apply elem_of_cons in H' as [->|?]; done.
Qed.

(** Every target was counted when its sources were, so each reaches zero at its
    last occurrence. *)
Lemma drain_all T remaining next :
  (forall t, t ∈ T -> is_Some (remaining !! t)) ->
  (forall t z, remaining !! t = Some z -> (Z.of_nat (occurrences t T) <= z)%Z) ->
  NoDup next -> (forall t, t ∈ next -> remaining !! t = Some 0%Z) ->
  let '(remaining', next') := foldl drain_target (remaining, next) T in
  (forall t, remaining' !! t = (fun z => z - Z.of_nat (occurrences t T))%Z <$> remaining !! t) /\
  NoDup next' /\
  (forall t, t ∈ next' <-> t ∈ next \/ (t ∈ T /\ remaining' !! t = Some 0%Z)).
Proof.
  revert remaining next. induction T as [|x T IH]; intros remaining next Hin Hle Hnd Hz.
  { cbn. split_and!; [|done|].
    - intros t. destruct (remaining !! t); cbn; [|done]. f_equal. lia.
    - intros t. split; [by left|]. by intros [?|[H%elem_of_nil _]]. }
  cbn [foldl drain_target].
  assert (Hx : is_Some (remaining !! x)) by (apply Hin; by left). destruct Hx as [z Hzx].
  assert (Hocc : (Z.of_nat (S (occurrences x T)) <= z)%Z).
  { specialize (Hle x z Hzx). rewrite occurrences_cons, decide_True in Hle; done. }
  set (r1 := alter Z.pred x remaining).
  assert (Hr1 : forall t, r1 !! t = if decide (t = x) then Some (z - 1)%Z else remaining !! t).
  { intros t. unfold r1. destruct (decide (t = x)) as [->|Hn].
    - rewrite list_lookup_alter_eq, Hzx. cbn. by rewrite <- Z.sub_1_r.
    - by rewrite list_lookup_alter_ne. }
  rewrite (Hr1 x), decide_True by done. cbn [default from_option id].
  set (next1 := if Z.eqb (z - 1) 0 then next ++ [x] else next).
  assert (Hxn : x ∉ next) by (intros H%Hz; rewrite Hzx in H; injection H; lia).
  assert (Hnext1 : forall t, t ∈ next1 <-> t ∈ next \/ (t = x /\ z = 1%Z)).
  { intros t. unfold next1. destruct (Z.eqb_spec (z - 1) 0).
    - rewrite elem_of_app, list_elem_of_singleton. naive_solver lia.
    - naive_solver lia. }
  specialize (IH r1 next1). destruct (foldl drain_target (r1, next1) T) as [r' next'].
  destruct IH as (H1 & H2 & H3).
  - intros t Ht. rewrite Hr1. destruct (decide (t = x)); [eauto|]. apply Hin. by right.
  - intros t z'. rewrite Hr1. destruct (decide (t = x)) as [->|Hn].
    + intros [= <-]. lia.
    + intros Ht. specialize (Hle t z' Ht). rewrite occurrences_cons, decide_False in Hle; done.
  - unfold next1. destruct (Z.eqb_spec (z - 1) 0); [|done].
    apply NoDup_app. split_and!; [done| |apply NoDup_singleton].
    intros t Ht ->%list_elem_of_singleton. done.
  - intros t [Ht|[-> ->]]%Hnext1; rewrite Hr1.
    + rewrite decide_False by (intros ->; done). by apply Hz.
    + by rewrite decide_True.
  - assert (Hr' : forall t, r' !! t =
      (fun z => z - Z.of_nat (occurrences t (x :: T)))%Z <$> remaining !! t).
    { intros t. rewrite H1, Hr1, occurrences_cons. destruct (decide (t = x)) as [->|Hn].
      - rewrite Hzx, decide_True by done. cbn. f_equal. lia.
      - by rewrite decide_False. }
    split; [exact Hr'|split; [done|]]. intros t. rewrite H3, Hnext1, elem_of_cons.
    assert (Hx0 : z = 1%Z -> r' !! x = Some 0%Z).
    { intros ->. rewrite Hr', Hzx, occurrences_cons, decide_True by done. cbn. f_equal. lia. }
    assert (Hx1 : r' !! x = Some 0%Z -> z = 1%Z \/ x ∈ T).
    { rewrite Hr', Hzx, occurrences_cons, decide_True, occurrences_elem by done. cbn.
      intros [=]. lia. }
    naive_solver.
Qed.

Lemma sortedIntKeys_perm m : sortedIntKeys m ≡ₚ elements m.
Proof. apply sort_stable_perm. Qed.

Lemma foldl_concat {A B} (f : A -> B -> A) (ls : list (list B)) a :
  foldl (fun acc l => foldl f acc l) a ls = foldl f a (concat ls).
Proof. revert a. induction ls as [|l ls IH]; intros a; cbn; [done|]. by rewrite IH, foldl_app. Qed.

(** The targets of a wave, one after the other. *)
Definition wave_targets (condOut : list (gset nat)) (wave : list nat) : list nat :=
  concat (map (fun c => sortedIntKeys (targets condOut c)) wave).

Lemma kahn_drain_flat condOut remaining wave :
  kahn_drain condOut remaining wave =
    foldl drain_target (remaining, []) (wave_targets condOut wave).
Proof. unfold kahn_drain, wave_targets. by rewrite <- foldl_concat, foldl_fmap. Qed.

Lemma wave_targets_occurrences condOut wave t :
  occurrences t (wave_targets condOut wave) =
    length (filter (fun c => t ∈ targets condOut c) wave).
Proof.
  induction wave as [|c wave IH]; [done|]. unfold wave_targets in *. cbn [map concat].
  rewrite occurrences_app, IH, filter_cons, occurrences_nodup by
    (rewrite sortedIntKeys_perm; apply NoDup_elements).
  assert (Hiff : t ∈ sortedIntKeys (targets condOut c) <-> t ∈ targets condOut c).
  { by rewrite sortedIntKeys_perm, elem_of_elements. }
  repeat case_decide; cbn; try done; tauto.
Qed.

(** ** The order *)

Section kahn.
Context (condOut : list (gset nat)) (inDegree : list Z).
Let n := length condOut.
Context (Hlen : length inDegree = n).
Context (Hdeg : forall t, t < n -> inDegree !! t =
  Some (Z.of_nat (length (filter (fun c => t ∈ targets condOut c) (seq 0 n))))).
Context (Hdesc : forall c t, t ∈ targets condOut c -> t < c).

(** The sources of [t] that are not drained yet. *)
Definition pending (t : nat) (topo : list nat) : list nat :=
  filter (fun c => t ∈ targets condOut c /\ c ∉ topo) (seq 0 n).

Lemma source_bound c t : t ∈ targets condOut c -> c < n.
Proof.
  unfold targets. destruct (condOut !! c) eqn:Hc; [|by intros ?%elem_of_empty].
  intros _. by apply lookup_lt_Some in Hc.
Qed.

Lemma target_bound c t : t ∈ targets condOut c -> t < n.
Proof. intros H. pose proof (source_bound c t H). specialize (Hdesc c t H). lia. Qed.

Lemma pending_nil t topo : pending t topo = [] <-> forall c, t ∈ targets condOut c -> c ∈ topo.
Proof.
  split.
  - intros H c Hc. destruct (decide (c ∈ topo)) as [|Hn]; [done|]. exfalso.
    assert (Hin : c ∈ pending t topo).
    { apply list_elem_of_filter. split; [done|]. apply elem_of_seq.
      pose proof (source_bound c t Hc). lia. }
    rewrite H in Hin. by apply elem_of_nil in Hin.
  - intros H. unfold pending. apply filter_none, Forall_forall. intros c _ [Hc Hn]. auto.
Qed.

(** Draining a wave takes its members off the pending sources. *)
Lemma pending_app t topo wave :
  NoDup (topo ++ wave) -> (forall c, c ∈ wave -> c < n) ->
  length (pending t topo) =
    length (pending t (topo ++ wave)) + length (filter (fun c => t ∈ targets condOut c) wave).
Proof.
  intros Hnd Hb. apply NoDup_app in Hnd as (_ & Hdis & Hw). rewrite <- length_app.
  apply Permutation_length, NoDup_Permutation.
  - apply NoDup_filter, NoDup_seq.
  - apply NoDup_app. split_and!; [apply NoDup_filter, NoDup_seq| |by apply NoDup_filter].
    intros c [[_ Hc] _]%list_elem_of_filter [_ Hc']%list_elem_of_filter. set_solver.
  - intros c. rewrite elem_of_app. unfold pending. rewrite !list_elem_of_filter, elem_of_app, !elem_of_seq.
    split.
    + intros [[Ht Hc] Hs]. destruct (decide (c ∈ wave)); [by right|]. left. tauto.
    + intros [[[Ht Hc] Hs]|[Ht Hc]]; [tauto|]. specialize (Hb c Hc).
      split_and!; [done| |lia|lia]. intros Hin. by apply (Hdis c).
Qed.

Record KahnInv (remaining : list Z) (wave topo : list nat) : Prop := {
  ki_nodup : NoDup (topo ++ wave);
  ki_bound : forall c, c ∈ topo ++ wave -> c < n;
  ki_rem : forall t, t < n -> remaining !! t = Some (Z.of_nat (length (pending t topo)));
  ki_len : forall t, n <= t -> remaining !! t = None;
  ki_zero : forall t, t < n -> (t ∈ topo ++ wave <-> pending t topo = []);
  ki_order : forall pre t post, topo = pre ++ t :: post ->
               forall c, t ∈ targets condOut c -> c ∈ pre;
}.

Lemma kahn_inv_init :
  KahnInv inDegree (sort_ints (filter (fun c => inDegree !! c = Some 0%Z) (seq 0 (length inDegree)))) [].
Proof.
  assert (Hp : forall t, pending t [] = filter (fun c => t ∈ targets condOut c) (seq 0 n)).
  { intros t. apply list_filter_iff. intros c. pose proof (not_elem_of_nil c). tauto. }
  set (ws := sort_ints _). assert (Hws : ws ≡ₚ filter (fun c => inDegree !! c = Some 0%Z) (seq 0 n)).
  { unfold ws, sort_ints. by rewrite sort_stable_perm, Hlen. }
  split; cbn [app].
  - rewrite Hws. apply NoDup_filter, NoDup_seq.
  - intros c. rewrite Hws, list_elem_of_filter, elem_of_seq. lia.
  - intros t Ht. by rewrite Hp, Hdeg.
  - intros t Ht. apply lookup_ge_None. lia.
  - intros t Ht. rewrite Hws, list_elem_of_filter, elem_of_seq, Hdeg, Hp by done.
    rewrite <- length_zero_iff_nil. split; [intros [[=] _]|intros ->; split; [done|]]; lia.
  - intros [] ? ? [=].
Qed.

(** The counts and the next wave after a wave is drained. *)
Lemma drain_wave remaining wave topo :
  KahnInv remaining wave topo ->
  let '(remaining', next) := kahn_drain condOut remaining wave in
  (forall t, t < n -> remaining' !! t = Some (Z.of_nat (length (pending t (topo ++ wave))))) /\
  (forall t, n <= t -> remaining' !! t = None) /\ NoDup next /\
  (forall t, t ∈ next <->
     t < n /\ pending t topo <> [] /\ pending t (topo ++ wave) = []).
Proof.
  intros [Hnd Hb Hrem Hlen' Hzero Hord]. rewrite kahn_drain_flat.
  set (T := wave_targets condOut wave).
  assert (Happ : forall t, length (pending t topo) =
      length (pending t (topo ++ wave)) + occurrences t T).
  { intros t. unfold T. rewrite wave_targets_occurrences. apply pending_app; [done|].
    intros c Hc. apply Hb, elem_of_app. by right. }
  assert (HT : forall t, t ∈ T -> t < n).
  { intros t. rewrite occurrences_elem. unfold T. rewrite wave_targets_occurrences.
    destruct (filter _ wave) as [|c l] eqn:E; [cbn; lia|]. intros _.
    assert (Hc : c ∈ filter (fun c => t ∈ targets condOut c) wave) by (rewrite E; by left).
    apply list_elem_of_filter in Hc. by eapply target_bound, Hc. }
  pose proof (drain_all T remaining []) as H.
  destruct (foldl drain_target (remaining, []) T) as [r' next].
  destruct H as (H1 & H2 & H3); [| |by apply NoDup_nil_2|by intros t ?%elem_of_nil|].
  { intros t Ht%HT. rewrite Hrem by done. eauto. }
  { intros t z Ht. destruct (decide (t < n)) as [Hlt|Hge]; [|rewrite Hlen' in Ht by lia; done].
    rewrite Hrem in Ht by done. injection Ht as <-. specialize (Happ t). lia. }
  assert (Hr' : forall t, t < n -> r' !! t = Some (Z.of_nat (length (pending t (topo ++ wave))))).
  { intros t Ht. rewrite H1, Hrem by done. cbn. f_equal. specialize (Happ t). lia. }
  split_and!; [done| |done|].
  - intros t Ht. by rewrite H1, Hlen'.
  - intros t. rewrite H3, <- !length_zero_iff_nil. specialize (Happ t). split.
    + intros [H|[Ht H]]; [by apply elem_of_nil in H|]. pose proof (HT t Ht) as Hlt.
      rewrite Hr' in H by done. apply occurrences_elem in Ht. injection H. lia.
    + intros (Hlt & Ha & Hz). right. split; [apply occurrences_elem; lia|].
      rewrite Hr' by done. by rewrite Hz.
Qed.

Lemma kahn_inv_step remaining wave topo :
  KahnInv remaining wave topo ->
  let '(remaining', next) := kahn_drain condOut remaining wave in
  KahnInv remaining' (sort_ints next) (topo ++ wave).
Proof.
  intros HK. pose proof (drain_wave remaining wave topo HK) as H.
  destruct (kahn_drain condOut remaining wave) as [r' next]. destruct H as (Hr & Hl & Hnd' & Hnext).
  destruct HK as [Hnd Hb Hrem Hlen' Hzero Hord].
  assert (Hns : forall t, t ∈ sort_ints next <->
    t < n /\ pending t topo <> [] /\ pending t (topo ++ wave) = []).
  { intros t. unfold sort_ints. by rewrite sort_stable_perm. }
  split; try done.
  - apply NoDup_app. split_and!; [done| |unfold sort_ints; by rewrite sort_stable_perm].
    intros t Ht (Hlt & Hp & _)%Hns. by apply Hzero in Ht.
  - intros c [Hc|Hc%Hns]%elem_of_app; [by apply Hb|tauto].
  - intros t Ht. rewrite elem_of_app, Hns, Hzero by done.
    assert (Hmono : pending t topo = [] -> pending t (topo ++ wave) = []).
    { rewrite !pending_nil. intros H c Hc. apply elem_of_app. left. auto. }
    destruct (pending t topo); naive_solver.
  - intros pre t post E c Hc. apply app_eq_app in E as (k & [[-> E]|[-> E]]).
    + destruct k as [|t' k]; cbn in E.
      * rewrite app_nil_r in *. assert (Htw : t ∈ pre ++ wave).
        { rewrite <- E. apply elem_of_app. right. by left. }
        apply (proj1 (Hzero t (target_bound c t Hc))) in Htw. rewrite pending_nil in Htw. auto.
      * injection E as -> _. by eapply Hord.
    + assert (Htw : t ∈ topo ++ wave).
      { apply elem_of_app. right. rewrite E. apply elem_of_app. right. by left. }
      apply (proj1 (Hzero t (target_bound c t Hc))) in Htw. rewrite pending_nil in Htw.
      apply elem_of_app. left. auto.
Qed.

Lemma kahn_complete remaining topo t : KahnInv remaining [] topo -> t < n -> t ∈ topo.
Proof.
  intros [Hnd Hb Hrem Hlen' Hzero Hord] Ht. rewrite app_nil_r in Hzero, Hb.
  remember (n - t) as k eqn:Hk. revert t Ht Hk.
  induction (lt_wf k) as [k _ IH]. intros t Ht Hk. apply Hzero, pending_nil; [done|].
  intros c Hc. pose proof (source_bound c t Hc). pose proof (Hdesc c t Hc).
  apply (IH (n - c)); [lia|done|done].
Qed.

Lemma kahn_loop_spec fuel remaining wave topo :
  KahnInv remaining wave topo -> n <= length topo + fuel ->
  exists remaining', KahnInv remaining' [] (kahn_loop condOut fuel remaining wave topo).
Proof.
  revert remaining wave topo. induction fuel as [|fuel IH]; intros remaining wave topo HK Hf.
  - assert (wave = []) as ->; [|by exists remaining].
    destruct wave as [|w wave]; [done|]. destruct HK as [Hnd Hb _ _ _ _].
    assert (Hle : length (topo ++ w :: wave) <= length (seq 0 n)).
    { apply submseteq_length, NoDup_submseteq; [done|].
      intros c Hc%Hb. apply elem_of_seq. lia. }
    rewrite length_app, length_seq in Hle. cbn in Hle. lia.
  - destruct wave as [|w wave]; [by exists remaining|]. cbn [kahn_loop].
    pose proof (kahn_inv_step _ _ _ HK) as H.
    destruct (kahn_drain condOut remaining (w :: wave)) as [r' next].
    apply (IH _ _ _ H). rewrite length_app. cbn. lia.
Qed.

(** Every component comes once, after all of its sources. *)
Lemma kahn_spec :
  let topo := kahnTopoOrder condOut inDegree in
  topo ≡ₚ seq 0 n /\
  forall pre c post, topo = pre ++ c :: post -> forall t, t ∈ targets condOut c -> t ∈ post.
Proof.
  destruct (kahn_loop_spec n _ _ _ kahn_inv_init ltac:(cbn; lia)) as [r HK].
  change (kahn_loop condOut n inDegree _ []) with (kahnTopoOrder condOut inDegree) in HK.
  cbn zeta. set (topo := kahnTopoOrder condOut inDegree) in *. clearbody topo.
  pose proof (kahn_complete r topo) as Hall. pose proof HK as [Hnd Hb _ _ _ Hord].
  rewrite app_nil_r in Hnd, Hb. split.
  - apply NoDup_Permutation; [done|apply NoDup_seq|]. intros c. rewrite elem_of_seq.
    split; [intros ?%Hb; lia|]. intros [_ Hc]. by apply Hall.
  - intros pre c post -> t Ht. assert (Hin : t ∈ pre ++ c :: post).
    { apply Hall; [done|by eapply target_bound]. }
    apply list_elem_of_split in Hin as (pre' & post' & E). pose proof (Hord pre' t post' E c Ht) as Hc.
    apply list_elem_of_split in Hc as (p1 & p2 & ->). rewrite <- app_assoc in E. cbn in E.
    apply NoDup_split_unique in E as [_ ->]; [|done]. apply elem_of_app. right. by left.
Qed.
End kahn.
