(* ===== verification/GraphAnalysis.v ===== *)
(** * GraphAnalysis: ordering metrics and dependency cycles
    (internal/orchestrator/tick_graph.go 136-356)

    One decomposition into components feeds both the metrics the dispatch order
    reads and the cycle alerts. *)

From stdpp Require Import base gmap sets list strings sorting relations.
From Stdlib Require Import Ascii.
From S2P Require Import Prelude Domain State Config Dispatch Order TickGraph Scc Kahn.

Local Open Scope nat_scope.

(** ** The condensation *)

Definition comp_of (scc : sccResult) (node : string) : nat := num (scc_compOf scc) node.

Definition add_cond_edge (scc : sccResult) (from : string) (condOut : list (gset nat))
    (to : string) : list (gset nat) :=
  if comp_of scc from =? comp_of scc to then condOut
  else alter (fun out => {[comp_of scc to]} ∪ out) (comp_of scc from) condOut.

Definition condensation (nodes : list string) (adj : gmap string (list string))
    (scc : sccResult) : list (gset nat) :=
  foldl (fun condOut from => foldl (add_cond_edge scc from) condOut (children adj from))
    (replicate (scc_numComp scc) ∅) nodes.

Definition in_degrees (condOut : list (gset nat)) : list Z :=
  foldl (fun deg out => foldl (fun deg t => alter Z.succ t deg) deg (elements out))
    (replicate (length condOut) 0%Z) condOut.

(** ** The metrics *)

(** The three arrays of the reverse-topological pass. *)
Record Arrays := MkArrays {
  dependents : list Z;
  chain : list Z;
  downstream : list (gset nat);
}.

#[export] Instance eta_Arrays : Settable Arrays := {|
  eta_record a := MkArrays (dependents a) (chain a) (downstream a) |}.

Definition chain_at (a : Arrays) (c : nat) : Z := default 0%Z (chain a !! c).
Definition downstream_at (a : Arrays) (c : nat) : gset nat := default ∅ (downstream a !! c).

(** One target of a component: its downstream set and the longest chain. *)
Definition merge_target (a : Arrays) (acc : gset nat * Z) (t : nat) : gset nat * Z :=
  ({[t]} ∪ downstream_at a t ∪ acc.1, if (acc.2 <? chain_at a t)%Z then chain_at a t else acc.2).

Definition metrics_step (condOut : list (gset nat)) (compSize : gmap nat nat) (a : Arrays)
    (c : nat) : Arrays :=
  let '(set, maxChildChain) :=
    foldl (merge_target a) (∅, -1)%Z (sortedIntKeys (targets condOut c)) in
  let count := Z.of_nat (sum_list_with (num compSize) (elements set)) in
  let a := a <| downstream := <[c := set]> (downstream a) |>
             <| dependents := <[c := count]> (dependents a) |> in
  if (0 <=? maxChildChain)%Z
  then a <| chain := <[c := (maxChildChain + 1)%Z]> (chain a) |> else a.

Definition metrics_arrays (condOut : list (gset nat)) (compSize : gmap nat nat)
    (topo : list nat) : Arrays :=
  let n := length condOut in
  foldl (metrics_step condOut compSize)
    (MkArrays (replicate n 0%Z) (replicate n 0%Z) (replicate n ∅)) (rev topo).

Definition members_by_comp (nodes : list string) (scc : sccResult) : gmap nat (list string) :=
  foldl (fun m node => <[comp_of scc node := default [] (m !! comp_of scc node) ++ [node]]> m)
    ∅ nodes.

(** A component is a cycle when it has two members or a self edge. *)
Definition cyclic (adj : gmap string (list string)) (members : list string) : bool :=
  match members with
  | [] => false
  | [node] => hasSelfEdge adj node
  | _ => true
  end.

Definition mark_cycle (adj : gmap string (list string)) (m : gmap string Z)
    (p : nat * list string) : gmap string Z :=
  if cyclic adj p.2 then foldl (fun m node => <[node := Z.of_nat p.1]> m) m p.2 else m.

Definition computeGraphMetrics (nodes : list string) (adj : gmap string (list string))
    (scc : sccResult) : GraphMetrics :=
  let condOut := condensation nodes adj scc in
  let topo := kahnTopoOrder condOut (in_degrees condOut) in
  let a := metrics_arrays condOut (scc_compSize scc) topo in
  MkGraphMetrics
    (foldl (fun m node => <[node := default 0%Z (dependents a !! comp_of scc node)]> m) ∅ nodes)
    (foldl (fun m node => <[node := chain_at a (comp_of scc node)]> m) ∅ nodes)
    (foldl (mark_cycle adj) ∅ (map_to_list (members_by_comp nodes scc))).

(** ** Cycles *)

Definition cycleKindFromSet (kinds : gset string) : string :=
  let hasTracker := bool_decide (edgeKindTracker ∈ kinds) in
  let hasInferred := bool_decide (edgeKindInferred ∈ kinds) in
  if hasTracker && hasInferred then "mixed"
  else if hasInferred then edgeKindInferred
  else edgeKindTracker.

(** The kinds of the edges inside a component. *)
Definition cycle_kinds (g : TickGraph) (adj : gmap string (list string))
    (sortedMembers : list string) : gset string :=
  foldl (fun kinds from =>
    foldl (fun kinds to =>
      if bool_decide (to ∈ sortedMembers)
      then default ∅ (EdgeKinds g !! edge_key from to) ∪ kinds else kinds)
      kinds (children adj from)) ∅ sortedMembers.

Definition prev_detected (prev : list DependencyCycle) : gmap string Time :=
  foldl (fun m cyc => <[join "," (dc_Members cyc) := dc_DetectedAt cyc]> m) ∅ prev.

Definition cycle_of (g : TickGraph) (adj : gmap string (list string)) (prev : gmap string Time)
    (now : Time) (members : list string) : DependencyCycle :=
  let sortedMembers := sort_strings members in
  MkDependencyCycle sortedMembers (cycleKindFromSet (cycle_kinds g adj sortedMembers))
    (default now (prev !! join "," sortedMembers)).

(** [cycles[i].Members[0] < cycles[j].Members[0]]; a cycle has a member. *)
Definition cycle_less (a b : DependencyCycle) : bool :=
  string_less (default "" (head (dc_Members a))) (default "" (head (dc_Members b))).

Definition extractCycles (g : TickGraph) (nodes : list string) (adj : gmap string (list string))
    (scc : sccResult) (prev : list DependencyCycle) (now : Time) : list DependencyCycle :=
  let membersByComp := members_by_comp nodes scc in
  let compIDs := sort_ints (elements (dom membersByComp)) in
  let found := map (fun c => default [] (membersByComp !! c)) compIDs in
  sort_stable cycle_less
    (map (cycle_of g adj (prev_detected prev) now) (filter (fun m => cyclic adj m = true) found)).

Definition ComputeTickGraphAnalysis (g : TickGraph) (prevCycles : list DependencyCycle)
    (now : Time) : GraphMetrics * list DependencyCycle :=
  let nodes := sortedNodes g in
  let adj := adjacency g nodes in
  let scc := tarjanSCC nodes adj in
  (computeGraphMetrics nodes adj scc, extractCycles g nodes adj scc prevCycles now).

(** ** The condensation has the edges between components *)

Lemma targets_alter f c condOut c' :
  c < length condOut ->
  targets (alter f c condOut) c' = if decide (c' = c) then f (targets condOut c) else targets condOut c'.
Proof.
  intros Hc. unfold targets. destruct (decide (c' = c)) as [->|Hn].
  - rewrite list_lookup_alter_eq. by destruct (lookup_lt_is_Some_2 condOut c Hc) as [out ->].
  - by rewrite list_lookup_alter_ne.
Qed.

Section condensation.
Context (scc : sccResult).

Lemma add_cond_edge_spec from condOut to c t :
  comp_of scc from < length condOut ->
  length (add_cond_edge scc from condOut to) = length condOut /\
  (t ∈ targets (add_cond_edge scc from condOut to) c <->
   t ∈ targets condOut c \/ (comp_of scc from = c /\ comp_of scc to = t /\ c <> t)).
Proof.
  intros Hc. unfold add_cond_edge. destruct (Nat.eqb_spec (comp_of scc from) (comp_of scc to)) as [E|E].
  - split; [done|]. naive_solver.
  - split; [apply length_alter|]. rewrite targets_alter by done.
    destruct (decide (c = comp_of scc from)) as [->|Hn]; [|naive_solver].
    rewrite elem_of_union, elem_of_singleton. naive_solver.
Qed.

Lemma add_cond_edges_spec from tos condOut c t :
  comp_of scc from < length condOut ->
  length (foldl (add_cond_edge scc from) condOut tos) = length condOut /\
  (t ∈ targets (foldl (add_cond_edge scc from) condOut tos) c <->
   t ∈ targets condOut c \/ (exists to, to ∈ tos /\ comp_of scc from = c /\ comp_of scc to = t /\ c <> t)).
Proof.
  revert condOut. induction tos as [|to tos IH]; intros condOut Hc; cbn [foldl].
  - split; [done|]. split; [by left|]. intros [?|(to & ?%elem_of_nil & _)]; done.
  - destruct (add_cond_edge_spec from condOut to c t Hc) as [Hlen Hone].
    destruct (IH (add_cond_edge scc from condOut to)) as [Hlen' Hall]; [by rewrite Hlen|].
    split; [by rewrite Hlen'|]. rewrite Hall, Hone. setoid_rewrite elem_of_cons. naive_solver.
Qed.

Lemma condensation_spec nodes adj c t :
  (forall x, x ∈ nodes -> comp_of scc x < scc_numComp scc) ->
  length (condensation nodes adj scc) = scc_numComp scc /\
  (t ∈ targets (condensation nodes adj scc) c <->
   exists x y, x ∈ nodes /\ y ∈ children adj x /\ comp_of scc x = c /\ comp_of scc y = t /\ c <> t).
Proof.
  unfold condensation. induction nodes as [|x nodes IH] using rev_ind; intros Hb.
  - cbn. split; [apply length_replicate|]. unfold targets.
    destruct (replicate (scc_numComp scc) (∅ : gset nat) !! c) as [out|] eqn:E.
    + apply lookup_replicate in E as [-> _]. cbn. set_solver.
    + cbn. set_solver.
  - rewrite foldl_snoc. destruct IH as [Hlen Hall].
    { intros y Hy. apply Hb, elem_of_app. by left. }
    assert (Hx : comp_of scc x < scc_numComp scc) by (apply Hb, elem_of_app; right; by left).
    destruct (add_cond_edges_spec x (children adj x) (foldl (fun condOut from =>
      foldl (add_cond_edge scc from) condOut (children adj from))
      (replicate (scc_numComp scc) ∅) nodes) c t) as [Hl Hspec]; [by rewrite Hlen|].
    split; [by rewrite Hl|]. rewrite Hspec, Hall. split.
    + intros [(x' & y & Hx' & H)|(y & Hy & H)].
      * exists x', y. split; [apply elem_of_app; by left|done].
      * exists x, y. split; [apply elem_of_app; right; by left|done].
    + intros (x' & y & [Hx'| ->%list_elem_of_singleton]%elem_of_app & H); [left|right; by exists y].
      by exists x', y.
Qed.
End condensation.

(** ** In-degrees count sources *)

Lemma lookup_succ_all (l : list nat) (deg : list Z) t :
  foldl (fun deg t => alter Z.succ t deg) deg l !! t =
    (fun z => z + Z.of_nat (occurrences t l))%Z <$> deg !! t.
Proof.
  revert deg. induction l as [|x l IH]; intros deg; cbn [foldl].
  - destruct (deg !! t); cbn; [|done]. f_equal. unfold occurrences. cbn. lia.
  - rewrite IH, occurrences_cons. destruct (decide (x = t)) as [->|Hn].
    + rewrite list_lookup_alter_eq. destruct (deg !! t); cbn; [|done]. f_equal. lia.
    + by rewrite list_lookup_alter_ne.
Qed.

Lemma length_succ_all (l : list nat) (deg : list Z) :
  length (foldl (fun deg t => alter Z.succ t deg) deg l) = length deg.
Proof. revert deg. induction l as [|x l IH]; intros deg; cbn; [done|]. by rewrite IH, length_alter. Qed.

Lemma targets_seq condOut : condOut = map (targets condOut) (seq 0 (length condOut)).
Proof.
  apply list_eq. intros i.
  change (map (targets condOut) (seq 0 (length condOut))) with (targets condOut <$> seq 0 (length condOut)).
  rewrite list_lookup_fmap.
  destruct (decide (i < length condOut)) as [Hi|Hi].
  - rewrite lookup_seq_lt by done. cbn. unfold targets.
    by destruct (lookup_lt_is_Some_2 condOut i Hi) as [out ->].
  - rewrite (lookup_ge_None_2 condOut i), lookup_seq_ge by lia. done.
Qed.

Lemma in_degrees_spec condOut :
  length (in_degrees condOut) = length condOut /\
  forall t, t < length condOut -> in_degrees condOut !! t =
    Some (Z.of_nat (length (filter (fun c => t ∈ targets condOut c) (seq 0 (length condOut))))).
Proof.
  unfold in_degrees.
  assert (E : forall deg : list Z, foldl (fun deg (out : gset nat) =>
      foldl (fun deg t => alter Z.succ t deg) deg (elements out)) deg condOut =
    foldl (fun (deg : list Z) t => alter Z.succ t deg) deg (concat (map elements condOut))).
  { intros deg. by rewrite <- foldl_concat, foldl_fmap. }
  rewrite E. split; [by rewrite length_succ_all, length_replicate|].
  intros t Ht. rewrite lookup_succ_all, lookup_replicate_2 by done. cbn [fmap option_fmap option_map].
  rewrite Z.add_0_l. do 2 f_equal.
  rewrite (targets_seq condOut) at 1. generalize (seq 0 (length condOut)) as l.
  induction l as [|c l IH]; [done|]. cbn [map concat]. rewrite occurrences_app, IH, filter_cons.
  rewrite occurrences_nodup by apply NoDup_elements.
  destruct (decide (t ∈ targets condOut c)) as [H|H].
  - rewrite decide_True by by apply elem_of_elements. done.
  - rewrite decide_False by by rewrite elem_of_elements. done.
Qed.

(** ** The reverse-topological pass *)

Section arrays.
Context (condOut : list (gset nat)) (sizes : gmap nat nat).
Definition succs (c t : nat) : Prop := t ∈ targets condOut c.
Context (Hdesc : forall c t, succs c t -> t < c).

Definition init_arrays : Arrays :=
  MkArrays (replicate (length condOut) 0%Z) (replicate (length condOut) 0%Z)
    (replicate (length condOut) ∅).

(** What the arrays hold for a component that was processed. *)
Record done_at (a : Arrays) (c : nat) : Prop := {
  da_downstream : forall d, d ∈ downstream_at a c <-> tc succs c d;
  da_dependents : dependents a !! c =
    Some (Z.of_nat (sum_list_with (num sizes) (elements (downstream_at a c))));
  da_chain_nonneg : (0 <= chain_at a c)%Z;
  da_chain : forall k, (exists d, nsteps succs k c d) <-> (Z.of_nat k <= chain_at a c)%Z;
}.

Record arrays_ok (a : Arrays) (done : list nat) : Prop := {
  ao_lengths : length (dependents a) = length condOut /\ length (chain a) = length condOut /\
               length (downstream a) = length condOut;
  ao_done : forall c, c ∈ done -> done_at a c;
  ao_rest : forall c, c ∉ done -> chain_at a c = 0%Z;
}.

Lemma arrays_init : arrays_ok init_arrays [].
Proof.
  split; cbn.
  - by rewrite !length_replicate.
  - by intros c ?%elem_of_nil.
  - intros c _. unfold chain_at. cbn. destruct (replicate _ 0%Z !! c) eqn:E; [|done].
    by apply lookup_replicate in E as [-> _].
Qed.

Lemma merge_targets_spec a l :
  (forall t, t ∈ l -> (0 <= chain_at a t)%Z) ->
  let '(set, m) := foldl (merge_target a) (∅, -1)%Z l in
  (forall d, d ∈ set <-> exists t, t ∈ l /\ (d = t \/ d ∈ downstream_at a t)) /\
  (-1 <= m)%Z /\ (forall t, t ∈ l -> (chain_at a t <= m)%Z) /\
  (m = (-1)%Z \/ exists t, t ∈ l /\ m = chain_at a t).
Proof.
  induction l as [|t l IH] using rev_ind; intros Hnn.
  { cbn. split_and!; [|lia|by intros t ?%elem_of_nil|by left].
    intros d. split; [by intros ?%elem_of_empty|by intros (t & ?%elem_of_nil & _)]. }
  rewrite foldl_snoc.
  destruct (foldl (merge_target a) (∅, -1)%Z l) as [set m]. unfold merge_target. cbn [fst snd].
  destruct IH as (H1 & H2 & H3 & H4).
  { intros t' Ht'. apply Hnn, elem_of_app. by left. }
  assert (Ht : (0 <= chain_at a t)%Z) by (apply Hnn, elem_of_app; right; by left).
  assert (Hin : forall x, x ∈ l ++ [t] <-> x ∈ l \/ x = t).
  { intros x. by rewrite elem_of_app, list_elem_of_singleton. }
  split_and!.
  - intros d. rewrite !elem_of_union, elem_of_singleton, H1. split.
    + intros [[->|Hd]|(t' & Ht' & Hd)]; [exists t|exists t|exists t']; rewrite Hin; auto.
    + intros (t' & [Ht'| ->]%Hin & Hd); [right; eauto|left; tauto].
  - destruct (Z.ltb_spec m (chain_at a t)); lia.
  - intros t' [Ht'| ->]%Hin; [specialize (H3 t' Ht')|]; destruct (Z.ltb_spec m (chain_at a t)); lia.
  - destruct (Z.ltb_spec m (chain_at a t)).
    + right. exists t. by rewrite Hin; auto.
    + destruct H4 as [->|(t' & Ht' & ->)]; [by left|right]. exists t'. rewrite Hin. auto.
Qed.

(** Chains out of a component: one more than the longest of its targets. *)
Lemma nsteps_succ_iff k c :
  (exists d, nsteps succs (S k) c d) <-> exists t d, succs c t /\ nsteps succs k t d.
Proof.
  split.
  - intros [d Hd]. inversion Hd; subst. eauto.
  - intros (t & d & Ht & Hd). exists d. by econstructor.
Qed.

Lemma tc_succ_iff c d : tc succs c d <-> exists t, succs c t /\ (d = t \/ tc succs t d).
Proof.
  split.
  - intros H. inversion H; subst; eauto.
  - intros (t & Ht & [->|Hd]); [by apply tc_once|by eapply tc_l].
Qed.

Lemma metrics_step_other a c c' :
  c' <> c ->
  let a' := metrics_step condOut sizes a c in
  downstream_at a' c' = downstream_at a c' /\ chain_at a' c' = chain_at a c' /\
  dependents a' !! c' = dependents a !! c'.
Proof.
  intros Hn. unfold metrics_step, downstream_at, chain_at.
  destruct (foldl _ _ _) as [set m]. destruct (0 <=? m)%Z; cbn;
    by rewrite !list_lookup_insert_ne.
Qed.

Lemma metrics_step_lengths a c :
  let a' := metrics_step condOut sizes a c in
  length (dependents a') = length (dependents a) /\ length (chain a') = length (chain a) /\
  length (downstream a') = length (downstream a).
Proof.
  unfold metrics_step. destruct (foldl _ _ _) as [set m].
  destruct (0 <=? m)%Z; cbn; by rewrite ?length_insert.
Qed.

Lemma metrics_step_here a c done :
  arrays_ok a done -> c < length condOut -> c ∉ done -> (forall t, succs c t -> t ∈ done) ->
  done_at (metrics_step condOut sizes a c) c.
Proof.
  intros [(Hl1 & Hl2 & Hl3) Hdone Hrest] Hc Hnd Hsucc. unfold metrics_step.
  set (l := sortedIntKeys (targets condOut c)).
  assert (Hl : forall t, t ∈ l <-> succs c t).
  { intros t. unfold l. by rewrite sortedIntKeys_perm, elem_of_elements. }
  pose proof (merge_targets_spec a l) as H. destruct (foldl (merge_target a) _ l) as [set m].
  destruct H as (H1 & H2 & H3 & H4).
  { intros t Ht%Hl. by apply Hdone, Hsucc. }
  assert (Hset : forall d, d ∈ set <-> tc succs c d).
  { intros d. rewrite H1, tc_succ_iff. split; intros (t & Ht & Hd); exists t.
    - apply Hl in Ht. split; [done|]. by rewrite <- (da_downstream _ _ (Hdone t (Hsucc t Ht))).
    - split; [by apply Hl|]. by rewrite (da_downstream _ _ (Hdone t (Hsucc t Ht))). }
  assert (Hm : forall k, (exists d, nsteps succs (S k) c d) <-> (Z.of_nat k <= m)%Z).
  { intros k. rewrite nsteps_succ_iff. split.
    - intros (t & d & Ht & Hd). assert (Hk : (Z.of_nat k <= chain_at a t)%Z).
      { apply (da_chain _ _ (Hdone t (Hsucc t Ht))). eauto. }
      apply Hl in Ht. specialize (H3 t Ht). lia.
    - intros Hk. destruct H4 as [->|(t & Ht & ->)]; [lia|]. apply Hl in Ht.
      apply (da_chain _ _ (Hdone t (Hsucc t Ht))) in Hk as [d Hd]. eauto. }
  match goal with |- done_at ?x c => set (a' := x) end.
  assert (Hdown : downstream_at a' c = set).
  { unfold downstream_at, a'. destruct (0 <=? m)%Z; cbn; by rewrite list_lookup_insert_eq by lia. }
  assert (Hchain : chain_at a' c = (m + 1)%Z).
  { unfold chain_at, a'. destruct (Z.leb_spec 0 m); cbn.
    - by rewrite list_lookup_insert_eq by lia.
    - change (chain_at a c = (m + 1)%Z). rewrite Hrest by done. lia. }
  split; rewrite ?Hdown, ?Hchain.
  - exact Hset.
  - unfold a'. destruct (0 <=? m)%Z; cbn; by rewrite list_lookup_insert_eq by lia.
  - lia.
  - intros [|k].
    + split; [lia|]. intros _. exists c. constructor.
    + rewrite Hm. lia.
Qed.

Lemma metrics_step_ok a c done :
  arrays_ok a done -> c < length condOut -> c ∉ done -> (forall t, succs c t -> t ∈ done) ->
  arrays_ok (metrics_step condOut sizes a c) (c :: done).
Proof.
  intros Ha Hc Hnd Hsucc. pose proof (metrics_step_lengths a c) as (L1 & L2 & L3).
  pose proof Ha as [(Hl1 & Hl2 & Hl3) Hdone Hrest]. split.
  - by rewrite L1, L2, L3.
  - intros c' Hc'. destruct (decide (c' = c)) as [->|Hn]; [by eapply metrics_step_here|].
    apply elem_of_cons in Hc' as [?|Hc']; [done|].
    destruct (metrics_step_other a c c' Hn) as (E1 & E2 & E3). destruct (Hdone c' Hc').
    by split; rewrite ?E1, ?E2, ?E3.
  - intros c' [Hn Hc']%not_elem_of_cons. destruct (metrics_step_other a c c' Hn) as (_ & -> & _). auto.
Qed.

Lemma metrics_arrays_ok topo :
  topo ≡ₚ seq 0 (length condOut) ->
  (forall pre c post, topo = pre ++ c :: post -> forall t, succs c t -> t ∈ post) ->
  forall c, c < length condOut -> done_at (metrics_arrays condOut sizes topo) c.
Proof.
  intros Hperm Horder. unfold metrics_arrays. fold init_arrays.
  assert (H : forall post pre, topo = pre ++ post ->
    arrays_ok (foldl (metrics_step condOut sizes) init_arrays (rev post)) post).
  { induction post as [|c post IH]; intros pre E; [apply arrays_init|].
    cbn [rev]. rewrite foldl_snoc. apply metrics_step_ok.
    - apply (IH (pre ++ [c])). by rewrite <- app_assoc.
    - assert (Hc : c ∈ seq 0 (length condOut)).
      { rewrite <- Hperm, E. apply elem_of_app. right. by left. }
      apply elem_of_seq in Hc. lia.
    - assert (Hnd : NoDup topo) by (rewrite Hperm; apply NoDup_seq). rewrite E in Hnd.
      apply NoDup_app in Hnd as (_ & _ & Hnd). by apply NoDup_cons in Hnd as [? _].
    - by apply (Horder pre). }
  intros c Hc. apply (ao_done _ _ (H topo [] eq_refl)). rewrite Hperm. apply elem_of_seq. lia.
Qed.
End arrays.

(** ** Components and nodes *)

(** [j] crossings from one component to the next on some path from [x]. *)
Inductive crosses (g : TickGraph) : string -> nat -> Prop :=
| crosses_none x : crosses g x 0
| crosses_edge x y z j :
    rtc (linked g) x y -> linked g y z -> ~ rtc (linked g) z y ->
    crosses g z j -> crosses g x (S j).

Section nodes.
Context (g : TickGraph).
Let scc := tick_scc g.
Let co := comp_of scc.
Let cond := condensation (sortedNodes g) (adjacency g (sortedNodes g)) scc.

Lemma comp_some x : x ∈ Nodes g -> scc_compOf scc !! x = Some (co x).
Proof.
  intros Hx. apply (scc_dom _ _ (tick_scc_spec g)) in Hx as [c Hc].
  unfold co, comp_of, num. fold scc in Hc. by rewrite Hc.
Qed.

Lemma comp_eq x y :
  x ∈ Nodes g -> y ∈ Nodes g -> co x = co y <-> rtc (linked g) x y /\ rtc (linked g) y x.
Proof.
  intros Hx Hy. rewrite <- (scc_mutual _ _ (tick_scc_spec g) x y (co x) (comp_some x Hx)).
  fold scc. rewrite (comp_some y Hy). split; [by intros ->|by intros [= ->]].
Qed.

Lemma comp_lt x : x ∈ Nodes g -> co x < scc_numComp scc.
Proof. intros Hx. by eapply (scc_bound _ _ (tick_scc_spec g)), comp_some. Qed.

Lemma cond_length : length cond = scc_numComp scc.
Proof.
  apply (condensation_spec scc _ _ 0 0). intros x Hx%sortedNodes_spec. by apply comp_lt.
Qed.

Lemma cond_succs c t :
  succs cond c t <-> exists x y, linked g x y /\ co x = c /\ co y = t /\ c <> t.
Proof.
  unfold succs, cond. destruct (condensation_spec scc (sortedNodes g) (adjacency g (sortedNodes g)) c t)
    as [_ ->]; [intros x Hx%sortedNodes_spec; by apply comp_lt|].
  split.
  - intros (x & y & Hx & Hy & H). exists x, y. split; [|done]. by apply edge_linked.
  - intros (x & y & Hl & H). exists x, y. split_and!; try apply H; [|by apply edge_linked].
    apply sortedNodes_spec, Hl.
Qed.

Lemma cond_desc c t : succs cond c t -> t < c.
Proof.
  intros (x & y & Hl & <- & <- & Hn)%cond_succs.
  pose proof (scc_descends _ _ (tick_scc_spec g) x y (co x) (co y) (comp_some x (proj1 Hl)) Hl
    (comp_some y (proj1 (proj2 Hl)))). lia.
Qed.

Lemma tc_desc c t : tc (succs cond) c t -> t < c.
Proof. induction 1 as [c t H|c d t H _ IH]; apply cond_desc in H; lia. Qed.

Lemma linked_nodes x y : rtc (linked g) x y -> x ∈ Nodes g -> y ∈ Nodes g.
Proof. induction 1 as [|a b c Hab _ IH]; [done|]. intros _. apply IH, Hab. Qed.

(** Paths between nodes are paths between their components. *)
Lemma comp_path x y :
  x ∈ Nodes g -> rtc (linked g) x y -> co x = co y \/ tc (succs cond) (co x) (co y).
Proof.
  intros Hx Hr. induction Hr as [|a b c Hab Hbc IH]; [by left|].
  assert (Hb : b ∈ Nodes g) by apply Hab. specialize (IH Hb).
  destruct (decide (co a = co b)) as [E|Hn]; [by rewrite E|]. right.
  assert (Hs : succs cond (co a) (co b)) by (apply cond_succs; by exists a, b).
  destruct IH as [<-|IH]; [by apply tc_once|by eapply tc_l].
Qed.

Lemma path_comp x d :
  x ∈ Nodes g -> tc (succs cond) (co x) d -> exists y, y ∈ Nodes g /\ co y = d /\ rtc (linked g) x y.
Proof.
  intros Hx Ht. remember (co x) as c eqn:Hc. revert x Hx Hc.
  assert (Hone : forall c d x, succs cond c d -> x ∈ Nodes g -> c = co x ->
    exists y, y ∈ Nodes g /\ co y = d /\ rtc (linked g) x y).
  { intros c' d' x (u & v & Hl & Hu & <- & _)%cond_succs Hx ->. exists v.
    split_and!; [apply Hl|done|]. etransitivity; [|by apply rtc_once].
    apply (comp_eq x u); [done|apply Hl|congruence]. }
  induction Ht as [c d H|c e d H _ IH]; intros x Hx Hc; [by eapply Hone|].
  destruct (Hone c e x H Hx Hc) as (y & Hy & Hye & Hxy).
  destruct (IH y Hy (eq_sym Hye)) as (z & Hz & Hzd & Hyz). exists z.
  split_and!; [done|done|by etransitivity].
Qed.

Lemma downstream_iff x y :
  x ∈ Nodes g -> y ∈ Nodes g ->
  tc (succs cond) (co x) (co y) <-> rtc (linked g) x y /\ ~ rtc (linked g) y x.
Proof.
  intros Hx Hy. split.
  - intros Ht. destruct (path_comp x (co y) Hx Ht) as (z & Hz & Hzy & Hr).
    assert (Hxy : rtc (linked g) x y).
    { etransitivity; [exact Hr|]. by apply (comp_eq z y). }
    split; [done|]. intros Hyx. apply tc_desc in Ht.
    assert (co x = co y) by (by apply comp_eq). lia.
  - intros [Hxy Hyx]. destruct (comp_path x y Hx Hxy) as [E|?]; [|done].
    apply comp_eq in E; tauto.
Qed.

Lemma crosses_iff x k :
  x ∈ Nodes g -> (exists d, nsteps (succs cond) k (co x) d) <-> crosses g x k.
Proof.
  revert x. induction k as [|k IH]; intros x Hx.
  - split; [intros _; constructor|]. intros _. exists (co x). constructor.
  - rewrite nsteps_succ_iff. split.
    + intros (t & d & Ht & Hd). apply cond_succs in Ht as (u & v & Hl & Hu & <- & Hn).
      apply (crosses_edge g x u v); [|done| |].
      * apply (comp_eq x u); [done|apply Hl|congruence].
      * intros Hr. apply Hn. rewrite <- Hu. apply (comp_eq u v); [apply Hl|apply Hl|].
        split; [by apply rtc_once|done].
      * apply IH; [apply Hl|eauto].
    + intros Hc. inversion Hc as [|? y z ? Hxy Hl Hn Hz]; subst.
      assert (Hs : succs cond (co y) (co z)).
      { apply cond_succs. exists y, z. split_and!; try done. intros E.
        apply comp_eq in E as [_ E]; [done|apply Hl|apply Hl]. }
      apply IH in Hz as [d Hd]; [|apply Hl].
      destruct (comp_path x y Hx Hxy) as [->|Ht]; [by exists (co z), d|].
      assert (Hlong : exists d', nsteps (succs cond) (S k) (co x) d').
      { revert Ht. generalize (co x) as c. intros c Ht.
        assert (Hall : exists d', nsteps (succs cond) (S k) (co y) d') by (exists d; by econstructor).
        clear -Ht Hall. induction Ht as [c e H|c e f H _ IH].
        - destruct Hall as [d' Hd]. apply nsteps_inv_r in Hd as (m & Hm & _). exists m. by econstructor.
        - destruct (IH Hall) as [d' Hd]. apply nsteps_inv_r in Hd as (m & Hm & _).
          exists m. by econstructor. }
      by apply nsteps_succ_iff.
Qed.

(** ** Members of components *)

Lemma comp_members c :
  filter (fun x => scc_compOf scc !! x = Some c) (Nodes g) = filter (fun x => co x = c) (Nodes g).
Proof.
  apply set_eq. intros x. rewrite !elem_of_filter. split; intros [H Hx]; (split; [|done]).
  - rewrite comp_some in H by done. by injection H.
  - by rewrite comp_some, H.
Qed.

Lemma sum_sizes l :
  NoDup l -> sum_list_with (num (scc_compSize scc)) l = size (filter (fun x => co x ∈ l) (Nodes g)).
Proof.
  induction 1 as [|c l Hc Hl IH]; cbn [sum_list_with].
  - replace (filter (fun x => co x ∈ []) (Nodes g)) with (∅ : gset string); [by rewrite size_empty|].
    symmetry. apply set_eq. intros x. rewrite elem_of_filter. split; [|by intros ?%elem_of_empty].
    by intros [?%elem_of_nil _].
  - rewrite IH, (scc_sizes _ _ (tick_scc_spec g)). fold scc. rewrite comp_members, <- size_union.
    + f_equal. apply set_eq. intros x. rewrite elem_of_union, !elem_of_filter, elem_of_cons. tauto.
    + intros x [H1 _]%elem_of_filter [H2 _]%elem_of_filter. by rewrite H1 in H2.
Qed.

(** The members of component [c], in node order. *)
Definition members (c : nat) : list string := filter (fun x => co x = c) (sortedNodes g).

Lemma elem_of_members x c : x ∈ members c <-> x ∈ Nodes g /\ co x = c.
Proof. unfold members. rewrite list_elem_of_filter, sortedNodes_spec. tauto. Qed.

Lemma members_nodup' c : NoDup (members c).
Proof. apply NoDup_filter, sortedNodes_nodup. Qed.

Lemma members_by_comp_lookup nodes c :
  members_by_comp nodes scc !! c =
    match filter (fun x => co x = c) nodes with [] => None | l => Some l end.
Proof.
  unfold members_by_comp. induction nodes as [|x nodes IH] using rev_ind; [done|].
  rewrite foldl_snoc, filter_app, filter_cons, filter_nil. fold (co x).
  destruct (decide (co x = c)) as [<-|Hn].
  - rewrite lookup_insert_eq, IH. by destruct (filter _ nodes).
  - by rewrite lookup_insert_ne, IH, app_nil_r.
Qed.

Lemma members_by_comp_spec c l :
  members_by_comp (sortedNodes g) scc !! c = Some l <-> l = members c /\ l <> [].
Proof.
  rewrite members_by_comp_lookup. fold (members c). destruct (members c); [naive_solver|].
  split; [by intros [= <-]|by intros [-> _]].
Qed.

(** A component is a cycle exactly when its members lie on one. *)
Lemma tc_rtc_split {A} (R : relation A) x y : tc R x y -> exists z, R x z /\ rtc R z y.
Proof. intros H. inversion H; subst; [by exists y|]. exists y0. split; [done|by apply tc_rtc]. Qed.

Lemma tc_last {A} (R : relation A) x y : tc R x y -> exists z, R z y.
Proof. induction 1 as [x y H|x z y _ _ IH]; [by exists x|done]. Qed.

Lemma rtc_tc_ne {A} (R : relation A) x y : rtc R x y -> x <> y -> tc R x y.
Proof. intros [->|?]%rtc_tc; [done|auto]. Qed.

Lemma self_edge x : hasSelfEdge (adjacency g (sortedNodes g)) x = true <-> linked g x x.
Proof.
  unfold hasSelfEdge. rewrite existsb_exists. rewrite <- edge_linked. unfold edge. split.
  - intros (y & Hy & ->%String.eqb_eq). by apply list_elem_of_In.
  - intros H%list_elem_of_In. exists x. by rewrite String.eqb_refl.
Qed.

Lemma cyclic_members x :
  x ∈ Nodes g ->
  cyclic (adjacency g (sortedNodes g)) (members (co x)) = true <-> tc (linked g) x x.
Proof.
  intros Hx. assert (Hxm : x ∈ members (co x)) by (by apply elem_of_members).
  split.
  - intros Hc. destruct (members (co x)) as [|y [|z l]] eqn:E; [done| |].
    + apply list_elem_of_singleton in Hxm as ->. apply tc_once. by apply self_edge.
    + assert (Hy : exists y', y' ∈ members (co x) /\ y' <> x).
      { pose proof (members_nodup' (co x)) as Hnd. rewrite E in *.
        destruct (decide (y = x)) as [->|]; [exists z|exists y]; (split; [set_solver|]); [|done].
        apply NoDup_cons in Hnd as [Hn _]. intros ->. destruct Hn. by left. }
      destruct Hy as (y' & [Hy' Hyc]%elem_of_members & Hne).
      apply comp_eq in Hyc as [H1 H2]; [|done|done].
      eapply tc_rtc_r; [apply rtc_tc_ne; [exact H2|congruence]|done].
  - intros (y & Hl & Hr)%tc_rtc_split. assert (Hy : y ∈ members (co x)).
    { apply elem_of_members. split; [apply Hl|]. apply comp_eq; [apply Hl|done|].
      split; [done|by apply rtc_once]. }
    destruct (members (co x)) as [|m [|m' l]]; [by apply elem_of_nil in Hy| |done].
    apply list_elem_of_singleton in Hxm as ->, Hy as ->. by apply self_edge.
Qed.

Lemma lookup_mark (c : nat) l (m : gmap string Z) x :
  foldl (fun m node => <[node := Z.of_nat c]> m) m l !! x =
    if decide (x ∈ l) then Some (Z.of_nat c) else m !! x.
Proof.
  revert m. induction l as [|y l IH]; intros m; cbn [foldl]; [done|]. rewrite IH.
  destruct (decide (x ∈ l)) as [H|H]; [by rewrite decide_True by (by right)|].
  destruct (decide (x = y)) as [->|Hn]; [by rewrite lookup_insert_eq, decide_True by left|].
  rewrite lookup_insert_ne, decide_False; [done| |done]. by intros [?|?]%elem_of_cons.
Qed.

(** Marking the cycles of a list of components, each with its members. *)
Lemma mark_cycles adj ps m x v :
  (forall p, p ∈ ps -> forall y, y ∈ p.2 -> co y = p.1) ->
  (forall v, m !! x = Some v -> v = Z.of_nat (co x)) ->
  foldl (mark_cycle adj) m ps !! x = Some v <->
    v = Z.of_nat (co x) /\
    (m !! x = Some v \/ exists p, p ∈ ps /\ cyclic adj p.2 = true /\ x ∈ p.2).
Proof.
  revert m. induction ps as [|p ps IH]; intros m Hps Hm; cbn [foldl].
  { split; [intros H; split; [by apply Hm|by left]|]. by intros [_ [?|(p & ?%elem_of_nil & _)]]. }
  assert (Hp : forall y, y ∈ p.2 -> co y = p.1) by (apply Hps; by left).
  assert (Hone : forall v, mark_cycle adj m p !! x = Some v <->
    v = Z.of_nat (co x) /\ (m !! x = Some v \/ (cyclic adj p.2 = true /\ x ∈ p.2))).
  { intros w. unfold mark_cycle. destruct (cyclic adj p.2); [rewrite lookup_mark|].
    - destruct (decide (x ∈ p.2)) as [Hx|Hx].
      + rewrite <- (Hp x Hx). split; [intros [= <-]; tauto|by intros [-> _]].
      + split; [intros H; split; [by apply Hm|by left]|]. intros [_ [?|[_ ?]]]; done.
    - split; [intros H; split; [by apply Hm|by left]|]. intros [_ [?|[? _]]]; done. }
  rewrite IH.
  - rewrite Hone. setoid_rewrite elem_of_cons. split.
    + intros [Hv [[_ [H|H]]|(q & Hq & H)]]; (split; [done|]); [by left|right; exists p; auto|].
      right. exists q. auto.
    + intros [Hv [H|(q & [->|Hq] & H)]]; (split; [done|]); [left; auto|left; auto|].
      right. by exists q.
  - intros q Hq. apply Hps. by right.
  - intros w Hw%Hone. tauto.
Qed.

(** *** The metrics *)

Lemma tick_arrays x :
  x ∈ Nodes g ->
  done_at cond (scc_compSize scc)
    (metrics_arrays cond (scc_compSize scc) (kahnTopoOrder cond (in_degrees cond))) (co x).
Proof.
  intros Hx. destruct (in_degrees_spec cond) as [Hl Hdeg].
  destruct (kahn_spec cond (in_degrees cond) Hl Hdeg cond_desc) as [Hperm Hord].
  apply metrics_arrays_ok; [done|done|]. rewrite cond_length. by apply comp_lt.
Qed.

Let metrics := computeGraphMetrics (sortedNodes g) (adjacency g (sortedNodes g)) scc.

Lemma tick_dependents x :
  x ∈ Nodes g ->
  exists S : gset string, (forall y, y ∈ S <-> rtc (linked g) x y /\ ~ rtc (linked g) y x) /\
    TransitiveDependents metrics !! x = Some (Z.of_nat (size S)).
Proof.
  intros Hx. destruct (tick_arrays x Hx) as [Hdown Hdep _ _].
  set (a := metrics_arrays cond _ _) in *.
  exists (filter (fun y => co y ∈ elements (downstream_at a (co x))) (Nodes g)). split.
  - intros y. rewrite elem_of_filter, elem_of_elements, Hdown. split.
    + intros [Ht Hy]. by apply downstream_iff.
    + intros H. assert (Hy : y ∈ Nodes g) by (by apply (linked_nodes x), Hx; apply H).
      split; [by apply downstream_iff|done].
  - cbn [TransitiveDependents metrics computeGraphMetrics]. fold cond. fold a.
    rewrite (lookup_fill (fun n => default 0%Z (dependents a !! comp_of scc n))).
    rewrite decide_True by by apply sortedNodes_spec. fold (co x). rewrite Hdep. cbn [default from_option id].
    do 2 f_equal. apply sum_sizes, NoDup_elements.
Qed.

Lemma tick_chain x :
  x ∈ Nodes g ->
  exists k : nat, LongestChain metrics !! x = Some (Z.of_nat k) /\
    forall j, crosses g x j <-> j <= k.
Proof.
  intros Hx. destruct (tick_arrays x Hx) as [_ _ Hnn Hch]. set (a := metrics_arrays cond _ _) in *.
  exists (Z.to_nat (chain_at a (co x))). split.
  - cbn [LongestChain metrics computeGraphMetrics]. fold cond. fold a.
    rewrite (lookup_fill (fun n => chain_at a (comp_of scc n))).
    rewrite decide_True by by apply sortedNodes_spec. fold (co x). f_equal. lia.
  - intros j. rewrite <- crosses_iff by done. rewrite Hch. lia.
Qed.

Lemma comps_listed p :
  p ∈ map_to_list (members_by_comp (sortedNodes g) scc) <->
    p.2 = members p.1 /\ p.2 <> [].
Proof. destruct p as [c l]. by rewrite elem_of_map_to_list, members_by_comp_spec. Qed.

Lemma tick_cycle_members x v :
  x ∈ Nodes g -> CycleMembers metrics !! x = Some v <-> v = Z.of_nat (co x) /\ tc (linked g) x x.
Proof.
  intros Hx. cbn [CycleMembers metrics computeGraphMetrics]. rewrite mark_cycles; [|..].
  - assert (Hiff : (exists p, p ∈ map_to_list (members_by_comp (sortedNodes g) scc) /\
        cyclic (adjacency g (sortedNodes g)) p.2 = true /\ x ∈ p.2) <-> tc (linked g) x x).
    { rewrite <- cyclic_members by done. split.
      - intros (p & [-> _]%comps_listed & Hc & [_ Hp]%elem_of_members). by rewrite Hp.
      - intros Hc. exists (co x, members (co x)). cbn.
        assert (Hm : x ∈ members (co x)) by (by apply elem_of_members).
        split_and!; [|done|done]. apply comps_listed. cbn. split; [done|].
        intros E. rewrite E in Hm. by apply elem_of_nil in Hm. }
    rewrite lookup_empty. naive_solver.
  - intros p [-> _]%comps_listed y Hy. by apply elem_of_members in Hy as [_ ?].
  - intros w. by rewrite lookup_empty.
Qed.
End nodes.

(** The metrics mean what the dispatch order takes them for.  Of a
    candidate, [TransitiveDependents] counts the distinct candidates that wait
    on it, directly or not, and on which it does not wait in turn;
    [LongestChain] is the largest number of times a path out of it crosses from
    one component to another; it is a cycle member exactly when it waits on
    itself, and two cycle members have one index exactly when each waits on the
    other. *)
Theorem metrics_meaning g prev now x (Hx : x ∈ Nodes g) :
  let m := fst (ComputeTickGraphAnalysis g prev now) in
  (exists S : gset string, (forall y, y ∈ S <-> rtc (linked g) x y /\ ~ rtc (linked g) y x) /\
     TransitiveDependents m !! x = Some (Z.of_nat (size S))) /\
  (exists k : nat, LongestChain m !! x = Some (Z.of_nat k) /\ forall j, crosses g x j <-> j <= k) /\
  (is_Some (CycleMembers m !! x) <-> tc (linked g) x x) /\
  (forall y, y ∈ Nodes g -> is_Some (CycleMembers m !! x) ->
     (CycleMembers m !! x = CycleMembers m !! y <-> rtc (linked g) x y /\ rtc (linked g) y x)).
Proof.
  cbn [fst ComputeTickGraphAnalysis]. fold (tick_scc g).
  assert (Hsome : is_Some (CycleMembers (computeGraphMetrics (sortedNodes g)
    (adjacency g (sortedNodes g)) (tick_scc g)) !! x) <-> tc (linked g) x x).
  { split.
    - intros [v Hv]. by apply tick_cycle_members in Hv as [_ ?].
    - intros Ht. eexists. by apply tick_cycle_members. }
  split_and!; [by apply tick_dependents|by apply tick_chain|exact Hsome|].
  intros y Hy Ht%Hsome. rewrite <- comp_eq by done.
  assert (Hvx := proj2 (tick_cycle_members g x _ Hx) (conj eq_refl Ht)). rewrite Hvx. split.
  - intros E. symmetry in E. apply tick_cycle_members in E as [E _]; [lia|done].
  - intros E. symmetry. apply tick_cycle_members; [done|]. split; [by rewrite E|].
    apply comp_eq in E as [Hxy Hyx]; [|done|done].
    eapply tc_rtc_l; [exact Hyx|]. by eapply tc_rtc_r.
Qed.

(** ** Cycles *)

Section cycles.
Context (g : TickGraph) (prev : list DependencyCycle) (now : Time).
Let adj := adjacency g (sortedNodes g).
Let co := comp_of (tick_scc g).

(** The components that are cycles, in the order of their ids. *)
Definition cycle_comps : list nat :=
  filter (fun c => cyclic adj (members g c) = true)
    (sort_ints (elements (dom (members_by_comp (sortedNodes g) (tick_scc g))))).

Definition cycle_at (c : nat) : DependencyCycle :=
  cycle_of g adj (prev_detected prev) now (members g c).

Lemma comp_ids c :
  c ∈ sort_ints (elements (dom (members_by_comp (sortedNodes g) (tick_scc g)))) <-> members g c <> [].
Proof.
  unfold sort_ints. rewrite sort_stable_perm, elem_of_elements, elem_of_dom. split.
  - intros [l Hl]. by apply members_by_comp_spec in Hl as [<- ?].
  - intros Hn. exists (members g c). by apply members_by_comp_spec.
Qed.

Lemma cycle_comps_nodup : NoDup cycle_comps.
Proof. apply NoDup_filter. unfold sort_ints. rewrite sort_stable_perm. apply NoDup_elements. Qed.

Lemma extract_map :
  extractCycles g (sortedNodes g) adj (tick_scc g) prev now =
    sort_stable cycle_less (map cycle_at cycle_comps).
Proof.
  unfold extractCycles, cycle_comps. f_equal.
  assert (Hids : Forall (fun c => members g c <> [])
    (sort_ints (elements (dom (members_by_comp (sortedNodes g) (tick_scc g)))))).
  { apply Forall_forall. intros c. apply comp_ids. }
  induction Hids as [|c l Hc Hl IH]; [done|]. cbn [map]. rewrite !filter_cons.
  assert (E : members_by_comp (sortedNodes g) (tick_scc g) !! c = Some (members g c))
    by (by apply members_by_comp_spec).
  rewrite E. cbn [default from_option id].
  destruct (decide (cyclic adj (members g c) = true)); cbn [map]; by rewrite IH.
Qed.

Lemma cycle_at_members c x : x ∈ dc_Members (cycle_at c) <-> x ∈ Nodes g /\ co x = c.
Proof. cbn. unfold sort_strings. by rewrite sort_stable_perm, elem_of_members. Qed.

Lemma elem_of_cycle_comps x : x ∈ Nodes g -> co x ∈ cycle_comps <-> tc (linked g) x x.
Proof.
  intros Hx. unfold cycle_comps. rewrite list_elem_of_filter, comp_ids.
  rewrite (cyclic_members g x Hx : cyclic adj (members g (co x)) = true <-> _).
  split; [by intros [? _]|]. intros Ht. split; [done|]. intros E.
  assert (Hm : x ∈ members g (co x)) by (by apply elem_of_members). rewrite E in Hm.
  by apply elem_of_nil in Hm.
Qed.

(** A node on a cycle is in the cycle of its component and in no other. *)
Lemma cycle_of_node x :
  x ∈ Nodes g -> tc (linked g) x x ->
  filter (fun cyc => x ∈ dc_Members cyc) (map cycle_at cycle_comps) = [cycle_at (co x)].
Proof.
  intros Hx Ht. apply elem_of_cycle_comps in Ht; [|done].
  pose proof cycle_comps_nodup as Hnd. induction cycle_comps as [|c l IH]; [by apply elem_of_nil in Ht|].
  apply NoDup_cons in Hnd as [Hc Hnd]. cbn [map]. rewrite filter_cons.
  destruct (decide (c = co x)) as [->|Hn].
  - rewrite decide_True by (by apply cycle_at_members). f_equal.
    apply filter_none, Forall_forall. intros cyc (d & -> & Hd)%elem_of_map Hin.
    apply cycle_at_members in Hin as [_ <-]. done.
  - rewrite decide_False; [|intros Hin; apply cycle_at_members in Hin as [_ ?]; congruence].
    apply IH; [|done]. by apply elem_of_cons in Ht as [?|?].
Qed.
End cycles.

Lemma prev_detected_out prev key :
  (forall p, p ∈ prev -> join "," (dc_Members p) <> key) -> prev_detected prev !! key = None.
Proof.
  unfold prev_detected. induction prev as [|p prev IH] using rev_ind; intros H; [done|].
  rewrite foldl_snoc, lookup_insert_ne.
  - apply IH. intros q Hq. apply H, elem_of_app. by left.
  - apply H, elem_of_app. right. by left.
Qed.

Lemma prev_detected_in prev p now :
  p ∈ prev -> NoDup (map (fun c => join "," (dc_Members c)) prev) ->
  default now (prev_detected prev !! join "," (dc_Members p)) = dc_DetectedAt p.
Proof.
  unfold prev_detected. induction prev as [|q prev IH] using rev_ind; intros Hp Hnd.
  { by apply elem_of_nil in Hp. }
  rewrite foldl_snoc. rewrite map_app in Hnd. apply NoDup_app in Hnd as (Hnd & Hdis & _).
  apply elem_of_app in Hp as [Hp|Hp%list_elem_of_singleton].
  - rewrite lookup_insert_ne; [by apply IH|]. intros E.
    apply (Hdis (join "," (dc_Members p))); [by apply (elem_of_map_intro (fun c => join "," (dc_Members c)))|].
    rewrite <- E. by left.
  - subst. by rewrite lookup_insert_eq.
Qed.

#[export] Instance cycle_order : CmpOrder (fun a b : DependencyCycle =>
  String.compare (default "" (head (dc_Members a))) (default "" (head (dc_Members b)))).
Proof. apply (cmp_order_key (fun a => default "" (head (dc_Members a)))), cmp_order_string. Qed.

(** The cycle alerts are the dependency cycles.  Every candidate that waits
    on itself is in exactly one of them, whose members are the candidates it
    waits on and that wait on it; every alert has such a candidate; members are
    listed in order, without repetition, and the alerts are ordered by their
    first member; an alert keeps the time it was first detected as long as the
    same members were in an alert of the previous tick, and has the current time
    otherwise. *)
Theorem cycles_exact g prev now :
  let cycles := snd (ComputeTickGraphAnalysis g prev now) in
  (forall x, tc (linked g) x x ->
     exists cyc, filter (fun c => x ∈ dc_Members c) cycles = [cyc] /\
       forall y, y ∈ dc_Members cyc <-> rtc (linked g) x y /\ rtc (linked g) y x) /\
  (forall cyc, cyc ∈ cycles ->
     (exists x, x ∈ dc_Members cyc /\ tc (linked g) x x) /\
     StronglySorted (cmp_le String.compare) (dc_Members cyc) /\ NoDup (dc_Members cyc) /\
     (forall p, p ∈ prev -> dc_Members p = dc_Members cyc ->
        NoDup (map (fun c => join "," (dc_Members c)) prev) -> dc_DetectedAt cyc = dc_DetectedAt p) /\
     ((forall p, p ∈ prev -> join "," (dc_Members p) <> join "," (dc_Members cyc)) ->
        dc_DetectedAt cyc = now)) /\
  StronglySorted (fun a b => String.compare (default "" (head (dc_Members a)))
    (default "" (head (dc_Members b))) <> Gt) cycles.
Proof.
  cbn [snd ComputeTickGraphAnalysis]. fold (tick_scc g). rewrite extract_map. split_and!.
  - intros x Ht. assert (Hx : x ∈ Nodes g) by (apply tc_rtc_split in Ht as (y & [? _] & _); done).
    exists (cycle_at g prev now (comp_of (tick_scc g) x)). split.
    + apply Permutation_singleton_r. rewrite (sort_stable_perm cycle_less). by rewrite cycle_of_node.
    + intros y. rewrite cycle_at_members. split.
      * intros [Hy E]. apply comp_eq in E as [? ?]; done.
      * intros [Hxy Hyx]. assert (Hy : y ∈ Nodes g) by (by eapply linked_nodes).
        split; [done|]. by apply comp_eq.
  - intros cyc. rewrite sort_stable_perm. intros (c & -> & Hc)%elem_of_map.
    pose proof Hc as [Hcyc Hne]%list_elem_of_filter. apply comp_ids in Hne. split_and!.
    + destruct (members g c) as [|x l] eqn:E; [done|].
      assert (Hx : x ∈ members g c) by (rewrite E; by left). apply elem_of_members in Hx as [Hx Hxc].
      exists x. split; [by apply cycle_at_members|]. apply elem_of_cycle_comps; [done|]. by rewrite Hxc.
    + apply (sort_stable_sorted String.compare).
    + cbn. unfold sort_strings. rewrite sort_stable_perm. apply members_nodup'.
    + intros p Hp Hm Hnd. cbn [cycle_at cycle_of dc_DetectedAt dc_Members] in *.
      rewrite <- Hm. apply prev_detected_in; done.
    + intros Hno. cbn [cycle_at cycle_of dc_DetectedAt dc_Members] in *. by rewrite prev_detected_out.
  - apply (sort_stable_sorted (fun a b : DependencyCycle =>
      String.compare (default "" (head (dc_Members a))) (default "" (head (dc_Members b))))).
Qed.

(** A candidate in a dependency cycle is not dispatched.  Whoever a
    candidate of the tick waits on, it is not eligible in that state, unless the
    review stack admits it; so every member of a cycle alert stays held. *)
Theorem cycle_members_wait candidates state cfg prev now c cyc
    (Hclean : forall c, c ∈ candidates -> contains_byte ">"%char (issue_Identifier c) = false)
    (Hdistinct : NoDup (map issue_Identifier candidates))
    (Hc : c ∈ candidates)
    (Hcyc : cyc ∈ snd (ComputeTickGraphAnalysis
              (BuildTickGraph candidates (InferredDeps state) state) prev now))
    (Hmem : issue_Identifier c ∈ dc_Members cyc)
    (Hstack : reviewStackAdmits c state = false) :
  IneligibleReason c state cfg <> "" /\ IneligibleReasonForAutomation c state cfg <> "".
Proof.
  set (g := BuildTickGraph candidates (InferredDeps state) state) in *.
  assert (Hl : exists a, linked g a (issue_Identifier c)).
  { cbn [snd ComputeTickGraphAnalysis] in Hcyc. fold (tick_scc g) in Hcyc.
    rewrite extract_map, (sort_stable_perm cycle_less) in Hcyc.
    apply elem_of_map in Hcyc as (d & -> & Hd). apply cycle_at_members in Hmem as [Hx <-].
    apply elem_of_cycle_comps in Hd; [|done]. by apply tc_last in Hd. }
  destruct Hl as (a & Ha & Hb & Hab).
  pose proof (built_edges candidates (InferredDeps state) (map_to_list (InferredDeps state)) state
    Hclean ltac:(done)) as HB.
  assert (Hk : exists k, graph_edge candidates (InferredDeps state) state a (issue_Identifier c) k).
  { rewrite <- (bt_out _ _ _ HB). unfold g, BuildTickGraph, BuildTickGraph_from in Hab. cbn in Hab.
    rewrite lookup_fmap in Hab. destruct (Out _ !! a); [|done]. cbn in Hab.
    unfold sort_strings in Hab. by rewrite sort_stable_perm in Hab. }
  assert (Hno : forall allow, ~ dispatchable c state cfg allow).
  { intros allow [_ _ _ _ _ _ _ _ _ _ _ Hblk Hinf _].
    destruct Hk as (k & _ & _ & [[_ (c' & b & Hc' & Hid & Hb' & Hu & _)]|[_ (es & e & Hes & He & Hg & _)]]).
    - assert (c' = c) as -> by (by eapply (NoDup_map_inj issue_Identifier)).
      destruct Hblk as [Hblk|Hblk]; [|congruence].
      assert (Hin : b ∈ unresolvedBlockers c state) by (by apply list_elem_of_filter).
      rewrite Hblk in Hin. by apply elem_of_nil in Hin.
    - specialize (Hinf e). rewrite Hes in Hinf. cbn in Hinf. rewrite Hinf in Hg; done. }
  unfold IneligibleReason, IneligibleReasonForAutomation. split.
  - destruct (missing_fields c); [done|]. destruct (negb _); [done|].
    intros H%shared_empty_dispatchable. by apply Hno in H.
  - destruct (missing_fields c); [done|]. intros H%shared_empty_dispatchable. by apply Hno in H.
Qed.

(** "A" and "B" wait on each other, and "C" on "B". *)
Definition knot : TickGraph :=
  MkTickGraph {["A"; "B"; "C"]} {["A" := ["B"]; "B" := ["A"; "C"]]}
    {[edge_key "A" "B" := {[edgeKindTracker]}; edge_key "B" "A" := {[edgeKindTracker]};
      edge_key "B" "C" := {[edgeKindInferred]}]}.

Lemma metrics_meaning_witness :
  let m := fst (ComputeTickGraphAnalysis knot [] 0%Z) in
  TransitiveDependents m !! "A" = Some 1%Z /\ LongestChain m !! "A" = Some 1%Z /\
  (is_Some (CycleMembers m !! "A") <-> tc (linked knot) "A" "A").
Proof.
  split; [by vm_compute|]. split; [by vm_compute|].
  apply (metrics_meaning knot [] 0%Z "A"). by vm_compute.
Defined.

(** The alert of the knot; "C" is not in it. *)
Example knot_cycle :
  snd (ComputeTickGraphAnalysis knot [MkDependencyCycle ["A"; "B"] "tracker" 7%Z] 9%Z) =
    [MkDependencyCycle ["A"; "B"] "tracker" 7%Z].
Proof. by vm_compute. Qed.

Definition knotted (identifier blocker : string) : Issue :=
  zero_Issue <| issue_ID := identifier |> <| issue_Identifier := identifier |>
    <| issue_Title := "t" |> <| issue_State := "Todo" |>
    <| issue_BlockedBy := [MkBlockerRef None (Some blocker) (Some "Todo") None "" None] |>.

Lemma cycle_members_wait_witness :
  let candidates := [knotted "A" "B"; knotted "B" "A"] in
  let state := empty_State <| ActiveStates := ["Todo"] |> <| MaxConcurrentAgents := 3%Z |> in
  IneligibleReason (knotted "A" "B") state empty_config <> "" /\
  IneligibleReasonForAutomation (knotted "A" "B") state empty_config <> "".
Proof.
  intros candidates state.
  apply (cycle_members_wait candidates state empty_config [] 0%Z (knotted "A" "B")
    (MkDependencyCycle ["A"; "B"] "tracker" 0%Z)).
  - intros c Hc. repeat (apply elem_of_cons in Hc as [->|Hc]; [done|]). by apply elem_of_nil in Hc.
  - by apply (bool_decide_unpack _); vm_compute.
  - by left.
  - by vm_compute; left.
  - by left.
  - by vm_compute.
Defined.
