(* ===== verification/Cron.v ===== *)
(** * Cron: the automation schedule (internal/schedule/cron.go)

    [Parse] compiles a 5-field rule (or a 6/7-field Quartz one) and [Matches]
    tests a time against it.  Errors keep their kind and the text they quote.
    The loop over a step is Go's loop on int64, run with fuel; [step_terminates]
    shows the fuel is always enough. *)

From stdpp Require Import base gmap list strings.
From Stdlib Require Import Ascii.
From S2P Require Import Prelude Config.

(** ** Data *)

Record fieldSpec := MkFieldSpec {
  fs_any : bool;
  fs_values : gset Z;
}.

Record Expression := MkExpression {
  ex_minute : fieldSpec;
  ex_hour : fieldSpec;
  ex_day : fieldSpec;
  ex_month : fieldSpec;
  ex_week : fieldSpec;
}.

Inductive part_error :=
  | EmptyPart
  | InvalidStep (expr : string)
  | InvalidStepValue (expr : string)
  | InvalidRange (expr : string)
  | DescendingRange (expr : string)
  | InvalidInteger (expr : string)
  | OutOfRange (value min max : Z)
  | NoValues
  | Diverged.  (* the step loop ran out of fuel: never returned *)

Inductive cron_error :=
  | QuartzSeconds (got : string)
  | QuartzYear (got : string)
  | FieldCount (got : nat)
  | FieldError (field : string) (e : part_error).

Notation "'do!' x <~ c1 ;; c2" :=
  (match c1 with inl e => inl e | inr x => c2 end)
  (at level 10, x pattern, c1 at level 99, c2 at level 200).

(** ** Fields *)

Definition parseBound (expr : string) (min max : Z) : part_error + Z :=
  match Atoi expr with
  | None => inl (InvalidInteger expr)
  | Some value =>
      if (value <? min) || (max <? value) then inl (OutOfRange value min max) else inr value
  end.

Definition parseRange (expr : string) (min max : Z) : part_error + Z * Z :=
  if String.eqb expr "" || String.eqb expr "*" then inr (min, max)
  else if contains_byte "-"%char expr then
    match split_at "-"%char expr with
    | [p0; p1] =>
        do! start <~ parseBound p0 min max ;;
        do! fin <~ parseBound p1 min max ;;
        if fin <? start then inl (DescendingRange expr) else inr (start, fin)
    | _ => inl (InvalidRange expr)
    end
  else
    do! value <~ parseBound expr min max ;; inr (value, value).

(** [for value := start; value <= end; value += step]. *)
Fixpoint step_loop (fuel : nat) (value fin step : Z) (values : gset Z) : option (gset Z) :=
  match fuel with
  | O => None
  | S fuel' =>
      if value <=? fin then
        step_loop fuel' (add64 value step) fin step ({[value]} ∪ values)
      else Some values
  end.

(** Enough for every positive int64 step over a field: [step_loop_total]. *)
Definition step_fuel : nat := 512.

(** The step suffix: cron.go lines 158-171. *)
Definition splitStep (expr : string) : part_error + string * Z :=
  if contains_byte "/"%char expr then
    match split_at "/"%char expr with
    | [p0; p1] =>
        match Atoi p1 with
        | Some n => if n <=? 0 then inl (InvalidStepValue p1) else inr (p0, n)
        | None => inl (InvalidStepValue p1)
        end
    | _ => inl (InvalidStep expr)
    end
  else inr (expr, 1).

Definition addFieldPart (values : gset Z) (expr : string) (min max : Z) : part_error + gset Z :=
  if String.eqb expr "" then inl EmptyPart
  else
    do! (base, step) <~ splitStep expr ;;
    do! (start, fin) <~ parseRange base min max ;;
    match step_loop step_fuel start fin step values with
    | Some vs => inr vs
    | None => inl Diverged
    end.

Fixpoint addFieldParts (values : gset Z) (parts : list string) (min max : Z) :
    part_error + gset Z :=
  match parts with
  | [] => inr values
  | part :: rest =>
      do! vs <~ addFieldPart values (trim_space part) min max ;;
      addFieldParts vs rest min max
  end.

Definition parseField (expr : string) (min max : Z) : part_error + fieldSpec :=
  if String.eqb expr "*" then inr (MkFieldSpec true ∅)
  else
    do! values <~ addFieldParts ∅ (split_at ","%char expr) min max ;;
    if bool_decide (values = ∅) then inl NoValues else inr (MkFieldSpec false values).

(** ** Parse *)

Definition in_field {A} (field : string) (r : part_error + A) : cron_error + A :=
  match r with inl e => inl (FieldError field e) | inr v => inr v end.

Definition star_question (f : string) : string := if String.eqb f "?" then "*" else f.

Definition parse_five (f0 f1 f2 f3 f4 : string) : cron_error + Expression :=
  do! minute <~ in_field "minute" (parseField (star_question f0) 0 59) ;;
  do! hour <~ in_field "hour" (parseField (star_question f1) 0 23) ;;
  do! day <~ in_field "day-of-month" (parseField (star_question f2) 1 31) ;;
  do! month <~ in_field "month" (parseField (star_question f3) 1 12) ;;
  do! week <~ in_field "day-of-week" (parseField (star_question f4) 0 6) ;;
  inr (MkExpression minute hour day month week).

Definition Parse (expr : string) : cron_error + Expression :=
  match fields (trim_space expr) with
  | [f0; f1; f2; f3; f4] => parse_five f0 f1 f2 f3 f4
  | [seconds; f0; f1; f2; f3; f4] =>
      if negb (String.eqb seconds "0") then inl (QuartzSeconds seconds)
      else parse_five f0 f1 f2 f3 f4
  | [seconds; f0; f1; f2; f3; f4; year] =>
      if negb (String.eqb seconds "0") then inl (QuartzSeconds seconds)
      else if negb (String.eqb year "*") then inl (QuartzYear year)
      else parse_five f0 f1 f2 f3 f4
  | fs => inl (FieldCount (length fs))
  end.

(** ** Matches *)

(** What [Matches] reads of a [time.Time] in its zone. *)
Record CivilTime := MkCivilTime {
  ct_Minute : Z;
  ct_Hour : Z;
  ct_Day : Z;
  ct_Month : Z;
  ct_Weekday : Z;
}.

Definition matchesField (spec : fieldSpec) (value : Z) : bool :=
  if fs_any spec then true else bool_decide (value ∈ fs_values spec).

Definition Matches (e : Expression) (t : CivilTime) : bool :=
  if negb (matchesField (ex_minute e) (ct_Minute t)) ||
     negb (matchesField (ex_hour e) (ct_Hour t)) ||
     negb (matchesField (ex_month e) (ct_Month t))
  then false
  else
    let dayMatch := matchesField (ex_day e) (ct_Day t) in
    let weekMatch := matchesField (ex_week e) (ct_Weekday t) in
    if fs_any (ex_day e) && fs_any (ex_week e) then true
    else if fs_any (ex_day e) then weekMatch
    else if fs_any (ex_week e) then dayMatch
    else dayMatch || weekMatch.

(** ** The step loop terminates *)

Section step_loop.
Context (fin step : Z) (Hfin : 0 <= fin <= 59) (Hstep : 0 < step <= int64_max).

Lemma step_loop_stop fuel v values :
  fin < v -> step_loop (S fuel) v fin step values = Some values.
Proof. intros H. cbn. by destruct (Z.leb_spec v fin); [lia|]. Qed.

Lemma step_loop_next fuel v values :
  v <= fin ->
  step_loop (S fuel) v fin step values
    = step_loop fuel (add64 v step) fin step ({[v]} ∪ values).
Proof. intros H. cbn. by destruct (Z.leb_spec v fin); [|lia]. Qed.

Lemma add64_small v : int64_min <= v + step <= int64_max -> add64 v step = v + step.
Proof. intros H. by apply wrap64_id. Qed.

Lemma add64_wraps v :
  0 <= v <= 59 -> int64_max < v + step -> add64 v step = v + step - 2 ^ 64.
Proof.
  unfold add64, wrap64, int64_max in *. intros Hv Ho.
  replace (v + step + 2 ^ 63) with ((v + step - 2 ^ 63) + 1 * 2 ^ 64) by lia.
  rewrite Z_mod_plus_full, Z.mod_small; lia.
Qed.

(** A step that cannot overflow from the last value: plain counting. *)
Lemma step_loop_small n : step <= int64_max - 59 ->
  forall fuel v values, 0 <= v -> v <= int64_max -> fin < v + Z.of_nat n ->
    (n < fuel)%nat ->
    exists vs, step_loop fuel v fin step values = Some vs /\
      forall x, x ∈ vs <-> x ∈ values \/ exists k, 0 <= k /\ x = v + k * step /\ x <= fin.
Proof.
  intros Hs. induction n as [|n IH]; intros [|fuel] v values Hv Hm Hn Hf; try lia.
  - exists values. rewrite step_loop_stop by lia. split; [done|].
    intros x. split; [by left|]. intros [?|(k & Hk & -> & Hle)]; [done|nia].
  - destruct (Z.leb_spec v fin) as [Hle|Hgt].
    + rewrite step_loop_next by done.
      rewrite add64_small by (unfold int64_max, int64_min in *; lia).
      destruct (IH fuel (v + step) ({[v]} ∪ values)) as (vs & -> & Hvs);
        [unfold int64_max in *; lia..|].
      exists vs. split; [done|]. intros x.
      rewrite Hvs, elem_of_union, elem_of_singleton. split.
      * intros [[->|?]|(k & Hk & -> & Hx)]; [right|by left|right].
        -- exists 0. lia.
        -- exists (k + 1). lia.
      * intros [?|(k & Hk & -> & Hx)]; [by left; right|].
        destruct (decide (k = 0)) as [->|]; [left; left; lia|].
        right. exists (k - 1). lia.
    + exists values. rewrite step_loop_stop by lia. split; [done|].
      intros x. split; [by left|]. intros [?|(k & Hk & -> & Hle)]; [done|nia].
Qed.

(** A step that overflows comes back two rounds later, strictly lower. *)
Lemma step_loop_large n : int64_max - 59 < step ->
  forall fuel v values, -200 < v <= 59 -> v < Z.of_nat n -> (2 * n + 1 < fuel)%nat ->
    is_Some (step_loop fuel v fin step values).
Proof.
  intros Hs. induction n as [|n IH]; intros [|[|[|fuel]]] v values Hv Hn Hf; try lia;
    (destruct (Z.leb_spec v fin) as [Hle|];
       [rewrite step_loop_next by done|by rewrite step_loop_stop by lia; eauto]).
  1,2: rewrite add64_small, step_loop_stop by (unfold int64_max, int64_min in *; lia); eauto.
  destruct (decide (v + step <= int64_max)).
  - rewrite add64_small, step_loop_stop by (unfold int64_max, int64_min in *; lia); eauto.
  - rewrite add64_wraps by (unfold int64_max in *; lia).
    rewrite step_loop_next by (unfold int64_max in *; lia).
    rewrite add64_small by (unfold int64_max, int64_min in *; lia).
    apply IH; unfold int64_max in *; lia.
Qed.

Lemma step_loop_total v values :
  0 <= v <= 59 -> is_Some (step_loop step_fuel v fin step values).
Proof.
  intros Hv. destruct (decide (step <= int64_max - 59)).
  - destruct (step_loop_small 60 ltac:(done) step_fuel v values) as (vs & -> & _);
      unfold step_fuel, int64_max; eauto; lia.
  - apply (step_loop_large 60); unfold step_fuel; lia.
Qed.
End step_loop.

(** ** Parsing *)

Ltac split_result H :=
  repeat match type of H with
  | context [match ?c with inl _ => _ | inr _ => _ end] =>
      let R := fresh "R" in destruct c as [?|?] eqn:R; [by simplify_eq|]
  end.

Lemma parseBound_range expr lo hi v :
  parseBound expr lo hi = inr v -> lo <= v <= hi.
Proof.
  unfold parseBound. destruct (Atoi expr) as [n|]; [|done].
  destruct (Z.ltb_spec n lo), (Z.ltb_spec hi n); cbn; intros; simplify_eq; lia.
Qed.

Lemma parseRange_range expr lo hi start fin :
  lo <= hi -> parseRange expr lo hi = inr (start, fin) -> lo <= start <= fin /\ fin <= hi.
Proof.
  intros Hlh. unfold parseRange. destruct (_ || _); [intros; simplify_eq; lia|].
  destruct (contains_byte _ _).
  - destruct (split_at _ _) as [|p0 [|p1 []]]; try done. intros H. split_result H.
    apply parseBound_range in R, R0. destruct (Z.ltb_spec z0 z); simplify_eq; lia.
  - intros H. split_result H. apply parseBound_range in R. simplify_eq. lia.
Qed.

Lemma splitStep_step expr base step :
  splitStep expr = inr (base, step) -> 0 < step <= int64_max.
Proof.
  unfold splitStep. destruct (contains_byte _ _); [|intros; simplify_eq; by split].
  destruct (split_at _ _) as [|p0 [|p1 []]]; try done.
  destruct (Atoi p1) as [n|] eqn:Hn; [|done].
  destruct (Z.leb_spec n 0); intros; simplify_eq. apply Atoi_max in Hn. lia.
Qed.

Lemma parse_error_not_diverged expr lo hi :
  parseBound expr lo hi <> inl Diverged /\ parseRange expr lo hi <> inl Diverged.
Proof.
  assert (Hb : forall e, parseBound e lo hi <> inl Diverged).
  { intros e. unfold parseBound. repeat case_match; congruence. }
  split; [apply Hb|]. unfold parseRange. repeat case_match; try congruence; simplify_eq;
    by eapply Hb.
Qed.

Lemma splitStep_not_diverged expr : splitStep expr <> inl Diverged.
Proof. unfold splitStep. repeat case_match; congruence. Qed.

Lemma addFieldPart_not_diverged values expr lo hi :
  0 <= lo <= hi -> hi <= 59 -> addFieldPart values expr lo hi <> inl Diverged.
Proof.
  intros Hlo Hhi. unfold addFieldPart. destruct (String.eqb expr ""); [done|].
  destruct (splitStep expr) as [e|[base step]] eqn:Hs.
  { intros [= ->]. by eapply splitStep_not_diverged. }
  destruct (parseRange base lo hi) as [e|[start fin]] eqn:Hr.
  { intros [= ->]. by eapply parse_error_not_diverged. }
  apply splitStep_step in Hs. apply parseRange_range in Hr; [|lia].
  destruct (step_loop_total fin step ltac:(lia) Hs start values ltac:(lia)) as [vs ->].
  done.
Qed.

Lemma parseField_not_diverged expr lo hi :
  0 <= lo <= hi -> hi <= 59 -> parseField expr lo hi <> inl Diverged.
Proof.
  intros Hlo Hhi. unfold parseField. destruct (String.eqb expr "*"); [done|].
  assert (H : forall parts values, addFieldParts values parts lo hi <> inl Diverged).
  { induction parts as [|p parts IH]; intros values; cbn; [done|].
    destruct (addFieldPart values _ lo hi) eqn:Hp; [|apply IH].
    intros [= ->]. by eapply addFieldPart_not_diverged. }
  destruct (addFieldParts _ _ _ _) eqn:Hp; [intros [= ->]; by eapply H|].
  by destruct (bool_decide _).
Qed.

Lemma parse_five_not_diverged f0 f1 f2 f3 f4 f :
  parse_five f0 f1 f2 f3 f4 <> inl (FieldError f Diverged).
Proof.
  unfold parse_five, in_field.
  repeat match goal with
  | |- context [parseField ?e ?lo ?hi] =>
      let H := fresh in
      assert (H : parseField e lo hi <> inl Diverged)
        by (apply parseField_not_diverged; lia);
      destruct (parseField e lo hi); [congruence|]
  end; congruence.
Qed.

(** [Parse] terminates on every input: no rule, whatever the bounds or the
    step of its fields, keeps the loop of [addFieldPart] running. *)
Theorem Parse_terminates expr f : Parse expr <> inl (FieldError f Diverged).
Proof.
  unfold Parse. repeat (case_match; try congruence); apply parse_five_not_diverged.
Qed.

(** A part [base/step] whose step is at most [MaxInt64 - 59] adds exactly
    the values of the range that lie a multiple of the step from its start. *)
Theorem addFieldPart_values values expr lo hi base step start fin
    (Hfield : 0 <= lo <= hi /\ hi <= 59)
    (Hpart : expr <> "")
    (Hstep : splitStep expr = inr (base, step))
    (Hsmall : step <= int64_max - 59)
    (Hrange : parseRange base lo hi = inr (start, fin)) :
  exists vs, addFieldPart values expr lo hi = inr vs /\
    forall x, x ∈ vs <->
      x ∈ values \/ (lo <= x <= hi /\ start <= x <= fin /\ (x - start) mod step = 0).
Proof.
  unfold addFieldPart. apply String.eqb_neq in Hpart. rewrite Hpart, Hstep, Hrange.
  apply splitStep_step in Hstep. apply parseRange_range in Hrange; [|lia].
  destruct (step_loop_small fin step ltac:(lia) ltac:(lia) 60 Hsmall step_fuel start values)
    as (vs & -> & Hvs); [unfold step_fuel, int64_max; lia..|].
  exists vs. split; [done|]. intros x. rewrite Hvs. split.
  - intros [?|(k & Hk & -> & Hx)]; [by left|right]. repeat split; try nia.
    replace (start + k * step - start) with (k * step) by lia. apply Z_mod_mult.
  - intros [?|(? & ? & Hm)]; [by left|right].
    apply Z_div_exact_full_2 in Hm; [|lia].
    exists ((x - start) / step). split; [apply Z.div_pos; lia|]. lia.
Qed.

Example addFieldPart_values_witness :
  exists vs, addFieldPart ∅ "0-30/10" 0 59 = inr vs /\
    forall x, x ∈ vs <->
      x ∈ (∅ : gset Z) \/ (0 <= x <= 59 /\ 0 <= x <= 30 /\ (x - 0) mod 10 = 0).
Proof.
  apply (addFieldPart_values ∅ "0-30/10" 0 59 "0-30" 10 0 30);
    [lia|discriminate|reflexivity|unfold int64_max; lia|reflexivity].
Defined.

Definition at_minute (m : Z) : CivilTime := MkCivilTime m 0 1 1 0.

(** A step near the top of the int64 range overflows the loop variable, so
    a rule for minutes 5 to 9 also fires at minutes 3 and 1. *)
Theorem step_overflow_adds_values :
  exists e, Parse "5-9/9223372036854775807 * * * *" = inr e /\
    Matches e (at_minute 5) = true /\ Matches e (at_minute 3) = true /\
    Matches e (at_minute 1) = true /\ Matches e (at_minute 7) = false.
Proof. eexists. split; [vm_compute; reflexivity|]. repeat split; vm_compute; reflexivity. Qed.

(** ** Matching *)

Definition admits (spec : fieldSpec) (v : Z) : Prop := fs_any spec = true \/ v ∈ fs_values spec.

Lemma matchesField_spec spec v : matchesField spec v = true <-> admits spec v.
Proof.
  unfold matchesField, admits. destruct (fs_any spec); [by split; [left|]|].
  rewrite bool_decide_eq_true. naive_solver.
Qed.

(** A rule matches a time when minute, hour and month admit it and,
    of the two day fields, either admits it when both are constrained and
    both do otherwise. *)
Theorem Matches_day_or e t :
  Matches e t = true <->
    admits (ex_minute e) (ct_Minute t) /\ admits (ex_hour e) (ct_Hour t) /\
    admits (ex_month e) (ct_Month t) /\
    (if negb (fs_any (ex_day e)) && negb (fs_any (ex_week e))
     then admits (ex_day e) (ct_Day t) \/ admits (ex_week e) (ct_Weekday t)
     else admits (ex_day e) (ct_Day t) /\ admits (ex_week e) (ct_Weekday t)).
Proof.
  pose proof (matchesField_spec (ex_day e) (ct_Day t)) as Hd.
  pose proof (matchesField_spec (ex_week e) (ct_Weekday t)) as Hw.
  rewrite <- !matchesField_spec. unfold Matches.
  assert (Hday : fs_any (ex_day e) = true -> matchesField (ex_day e) (ct_Day t) = true)
    by (unfold matchesField; by intros ->).
  assert (Hweek : fs_any (ex_week e) = true -> matchesField (ex_week e) (ct_Weekday t) = true)
    by (unfold matchesField; by intros ->).
  destruct (matchesField (ex_minute e) _), (matchesField (ex_hour e) _),
    (matchesField (ex_month e) _), (fs_any (ex_day e)), (fs_any (ex_week e)); cbn [negb andb orb];
    rewrite <- ?Hd, <- ?Hw, ?orb_true_iff; intuition congruence.
Qed.
