(* ===== verification/Tracker.v ===== *)
(** * Tracker: comment markers, the idempotent-commenter interface and the
    in-memory adapter (internal/tracker)

    [KeyedTracker] is the Go interface IdempotentCommenter with its
    contract as laws: a lookup that answers is truthful, and a create that
    reports success has landed.  A create that reports an error may have
    landed or not.  [MemoryTracker] implements it. *)

From stdpp Require Import base gmap list strings.
From Stdlib Require Import Ascii.
From S2P Require Import Prelude Domain.

(** ** Markers (managed_comments.go) *)

Definition ManagedCommentMarker : string := "<!-- itervox:managed -->".
Definition blank_line : string := String "010" (String "010" EmptyString).

Definition MarkManagedComment (body : string) : string :=
  let trimmed := trim_space body in
  if String.eqb trimmed "" || contains trimmed ManagedCommentMarker then trimmed
  else trimmed +:+ blank_line +:+ ManagedCommentMarker.

Definition IsManagedComment (c : Comment) : bool :=
  contains (comment_Body c) ManagedCommentMarker.

Definition commentKeyMarkerPrefix : string := "<!-- itervox:ck:".

Definition CommentKeyMarker (key : string) : string :=
  commentKeyMarkerPrefix +:+ key +:+ " -->".

Definition MarkCommentKey (body key : string) : string :=
  if String.eqb key "" then body
  else
    let marker := CommentKeyMarker key in
    if contains body marker then body
    else trim_space body +:+ blank_line +:+ marker.

Definition CommentHasKey (body key : string) : bool :=
  if String.eqb key "" then false else contains body (CommentKeyMarker key).

Lemma MarkCommentKey_has body key :
  key <> "" -> CommentHasKey (MarkCommentKey body key) key = true.
Proof.
  intros Hk. unfold MarkCommentKey, CommentHasKey.
  apply String.eqb_neq in Hk. rewrite Hk.
  destruct (contains body (CommentKeyMarker key)) eqn:E; [done|].
  rewrite <- append_assoc. apply contains_app, contains_refl.
Qed.

Lemma MarkCommentKey_idem body key :
  MarkCommentKey (MarkCommentKey body key) key = MarkCommentKey body key.
Proof.
  destruct (String.eqb_spec key "") as [->|Hk]; [done|].
  pose proof (MarkCommentKey_has body key Hk) as H. unfold CommentHasKey in H.
  apply String.eqb_neq in Hk. rewrite Hk in H.
  unfold MarkCommentKey at 1. by rewrite Hk, H.
Qed.

(** ** The interface *)

(** An error of a tracker call as the outbox sees it: a rate limit with the
    published reset, or anything else. *)
Inductive TrackerError :=
  | RateLimited (msg : string) (resetAt : Time)
  | OtherError (msg : string).

(** The network between the daemon and the tracker, per call: the request may
    be lost before it lands, the response may be lost after it. *)
Inductive Delivery :=
  | Delivered                           (* landed, reported *)
  | LostRequest (e : TrackerError)      (* did not land, error reported *)
  | LostResponse (e : TrackerError).    (* landed, error reported *)

Class KeyedTracker (T : Type) := {
  CreateComment : T -> string -> string -> T;
  CreateCommentWithKey : T -> string -> string -> string -> T;
  FindCommentByKey : T -> string -> string -> bool;
  UpdateIssueState : T -> string -> string -> T;
  (** how many comments of the issue carry the key *)
  posts_of : T -> string -> string -> nat;
}.

(** A key the markers can carry: not empty, and free of the bytes that end a
    marker, start one or break a line.  Every generated key is hexadecimal
    digits and dashes. *)
Definition newline : ascii := "010"%char.
Definition key_ok (key : string) : Prop :=
  key <> "" /\ contains_byte "<"%char key = false /\
  contains_byte " "%char key = false /\ contains_byte newline key = false.

Class KeyedTrackerLaws (T : Type) `{!KeyedTracker T} (known : T -> string -> Prop) := {
  find_truthful t issue key :
    FindCommentByKey t issue key = true <-> (0 < posts_of t issue key)%nat;
  create_posts t issue key body :
    known t issue -> key_ok key ->
    posts_of (CreateCommentWithKey t issue key body) issue key = S (posts_of t issue key);
  create_other t i key' body issue key :
    key_ok key -> key_ok key' -> key <> key' -> CommentHasKey body key = false ->
    posts_of (CreateCommentWithKey t i key' body) issue key = posts_of t issue key;
  known_create t i key body issue :
    known t issue -> known (CreateCommentWithKey t i key body) issue;
  known_update t i s issue : known t issue -> known (UpdateIssueState t i s) issue;
  update_posts t i s issue key :
    posts_of (UpdateIssueState t i s) issue key = posts_of t issue key;
}.

(** ** The in-memory adapter (memory.go) *)

Record MemoryTracker := MkMemoryTracker {
  mt_issues : list Issue;
  mt_activeStates : list string;
  mt_terminalStates : list string;
  mt_injectedError : option TrackerError;
  mt_nextCommentID : Z;
  mt_nextIssueID : Z;
  mt_detailBatchCalls : Z;
  mt_detailCalls : Z;
}.

#[export] Instance eta_MemoryTracker : Settable MemoryTracker := {|
  eta_record m := MkMemoryTracker (mt_issues m) (mt_activeStates m) (mt_terminalStates m)
    (mt_injectedError m) (mt_nextCommentID m) (mt_nextIssueID m) (mt_detailBatchCalls m)
    (mt_detailCalls m) |}.

Definition issueNumericSuffix (value prefix : string) : Z :=
  match cut_prefix value prefix with
  | None => 0
  | Some rest =>
      match Atoi rest with
      | Some suffix => if suffix <? 0 then 0 else suffix
      | None => 0
      end
  end.

Definition maxIssueSuffix (issues : list Issue) : Z :=
  foldl (fun m i =>
    Z.max (Z.max m (issueNumericSuffix (issue_ID i) "id-"))
          (issueNumericSuffix (issue_Identifier i) "ENG-")) 0 issues.

Definition NewMemoryTracker (issues : list Issue) (active terminal : list string) :
    MemoryTracker :=
  MkMemoryTracker issues active terminal None 0 (maxIssueSuffix issues) 0 0.

Definition SetStateLists (m : MemoryTracker) (active terminal : list string) : MemoryTracker :=
  m <| mt_activeStates := active |> <| mt_terminalStates := terminal |>.

Definition InjectError (m : MemoryTracker) (err : option TrackerError) : MemoryTracker :=
  m <| mt_injectedError := err |>.

(** [for i := range issues { if issues[i].ID == id { ...; return } }] *)
Fixpoint update_first (id : string) (f : Issue -> Issue) (l : list Issue) : list Issue :=
  match l with
  | [] => []
  | i :: l' => if String.eqb (issue_ID i) id then f i :: l' else i :: update_first id f l'
  end.

Definition SetIssueState (m : MemoryTracker) (id state : string) : MemoryTracker :=
  m <| mt_issues := update_first id (fun i => i <| issue_State := state |>) (mt_issues m) |>.

Definition isActive (m : MemoryTracker) (state : string) : bool :=
  existsb (fun s => String.eqb (to_lower s) (to_lower state)) (mt_activeStates m).

Definition FetchCandidateIssues (m : MemoryTracker) : TrackerError + list Issue :=
  match mt_injectedError m with
  | Some e => inl e
  | None => inr (filter (fun i => isActive m (issue_State i) = true) (mt_issues m))
  end.

Definition FetchIssuesByStates (m : MemoryTracker) (stateNames : list string) :
    TrackerError + list Issue :=
  match stateNames with
  | [] => inr []
  | _ =>
      match mt_injectedError m with
      | Some e => inl e
      | None =>
          let want : gset string := list_to_set (map to_lower stateNames) in
          inr (filter (fun i => to_lower (issue_State i) ∈ want) (mt_issues m))
      end
  end.

Definition issues_by_ids (m : MemoryTracker) (ids : list string) : list Issue :=
  filter (fun i => issue_ID i ∈ (list_to_set ids : gset string)) (mt_issues m).

Definition FetchIssueStatesByIDs (m : MemoryTracker) (ids : list string) :
    TrackerError + list Issue :=
  match ids, mt_injectedError m with
  | [], _ => inr []
  | _, Some e => inl e
  | _, None => inr (issues_by_ids m ids)
  end.

Definition FetchIssueDetailsByIDs (m : MemoryTracker) (ids : list string) :
    (TrackerError + list Issue) * MemoryTracker :=
  match ids with
  | [] => (inr [], m)
  | _ =>
      let m' := m <| mt_detailBatchCalls := add64 (mt_detailBatchCalls m) 1 |> in
      match mt_injectedError m' with
      | Some e => (inl e, m')
      | None => (inr (issues_by_ids m' ids), m')
      end
  end.

Definition add_comment (c : Comment) (i : Issue) : Issue :=
  i <| issue_Comments := issue_Comments i ++ [c] |>.

Definition memory_comment (n : Z) (body : string) : Comment :=
  MkComment ("memory-comment-" +:+ format_d n) body None "memory-tracker" "Itervox".

Definition MemCreateComment (m : MemoryTracker) (issueID body : string) :
    Comment * MemoryTracker :=
  let n := add64 (mt_nextCommentID m) 1 in
  let c := memory_comment n body in
  (c, m <| mt_nextCommentID := n |>
        <| mt_issues := update_first issueID (add_comment c) (mt_issues m) |>).

Definition addHumanComment (m : MemoryTracker) (issueID body : string) (at_ : option Time) :
    MemoryTracker :=
  let n := add64 (mt_nextCommentID m) 1 in
  let c := MkComment ("memory-comment-" +:+ format_d n) body at_ "human-1" "Human" in
  m <| mt_nextCommentID := n |>
    <| mt_issues := update_first issueID (add_comment c) (mt_issues m) |>.

Definition MemCreateCommentWithKey (m : MemoryTracker) (issueID key body : string) :
    Comment * MemoryTracker :=
  MemCreateComment m issueID (MarkCommentKey body key).

(** The comments that carry a key, over the issues with the id. *)
Definition keyed_in (l : list Issue) (issueID key : string) : list Comment :=
  flat_map
    (fun i => if String.eqb (issue_ID i) issueID
              then List.filter (fun c => CommentHasKey (comment_Body c) key) (issue_Comments i)
              else []) l.

Definition MemFindCommentByKey (m : MemoryTracker) (issueID key : string) : option Comment :=
  head (keyed_in (mt_issues m) issueID key).

Definition CreateIssue (m : MemoryTracker) (title body stateName : string) :
    Issue * MemoryTracker :=
  let n := add64 (mt_nextIssueID m) 1 in
  let i := zero_Issue
    <| issue_ID := "id-" +:+ format_d n |>
    <| issue_Identifier := "ENG-" +:+ format_d n |>
    <| issue_Title := title |>
    <| issue_State := stateName |>
    <| issue_Description := if String.eqb (trim_space body) "" then None else Some body |> in
  (i, m <| mt_nextIssueID := n |> <| mt_issues := mt_issues m ++ [i] |>).

Definition SetIssueBranch (m : MemoryTracker) (issueID branchName : string) : MemoryTracker :=
  m <| mt_issues :=
    update_first issueID (fun i => i <| issue_BranchName := Some branchName |>) (mt_issues m) |>.

(** [None] is the NotFoundError. *)
Definition FetchIssueDetail (m : MemoryTracker) (issueID : string) :
    option Issue * MemoryTracker :=
  (find (fun i => String.eqb (issue_ID i) issueID) (mt_issues m),
   m <| mt_detailCalls := add64 (mt_detailCalls m) 1 |>).

Definition FetchIssueByIdentifier (m : MemoryTracker) (identifier : string) : option Issue :=
  find (fun i => String.eqb (issue_Identifier i) identifier) (mt_issues m).

#[export] Instance memory_keyed : KeyedTracker MemoryTracker := {|
  CreateComment m i body := snd (MemCreateComment m i body);
  CreateCommentWithKey m i key body := snd (MemCreateCommentWithKey m i key body);
  FindCommentByKey m i key := bool_decide (MemFindCommentByKey m i key <> None);
  UpdateIssueState := SetIssueState;
  posts_of m i key := length (keyed_in (mt_issues m) i key);
|}.

Definition memory_known (m : MemoryTracker) (issueID : string) : Prop :=
  Exists (fun i => issue_ID i = issueID) (mt_issues m).

Section memory_laws.
Implicit Types (m : MemoryTracker) (l : list Issue).

Lemma keyed_add_posts l issueID key c :
  CommentHasKey (comment_Body c) key = true ->
  Exists (fun i => issue_ID i = issueID) l ->
  length (keyed_in (update_first issueID (add_comment c) l) issueID key)
    = S (length (keyed_in l issueID key)).
Proof.
  intros Hc. induction 1 as [i l Hi | i l Hl IH]; cbn.
  - rewrite Hi, String.eqb_refl. cbn. rewrite Hi, String.eqb_refl, List.filter_app. cbn.
    rewrite Hc, !length_app. cbn. lia.
  - destruct (String.eqb_spec (issue_ID i) issueID) as [E|E]; cbn.
    + rewrite E, String.eqb_refl, List.filter_app. cbn. rewrite Hc, !length_app. cbn. lia.
    + apply String.eqb_neq in E. rewrite E. cbn. exact IH.
Qed.

Lemma keyed_add_other l i issueID key c :
  CommentHasKey (comment_Body c) key = false ->
  keyed_in (update_first i (add_comment c) l) issueID key = keyed_in l issueID key.
Proof.
  intros Hc. unfold keyed_in in *. induction l as [|x l IH]; [done|]. cbn.
  destruct (String.eqb (issue_ID x) i); cbn; [|by rewrite IH].
  destruct (String.eqb (issue_ID x) issueID); [|done].
  by rewrite List.filter_app; cbn; rewrite Hc, app_nil_r.
Qed.

Lemma keyed_set_state l i st issueID key :
  keyed_in (update_first i (fun x => x <| issue_State := st |>) l) issueID key
    = keyed_in l issueID key.
Proof.
  unfold keyed_in in *. induction l as [|x l IH]; [done|]. cbn.
  destruct (String.eqb (issue_ID x) i); cbn; [done|]. by rewrite IH.
Qed.

Lemma known_update_first l i f issueID :
  (forall x, issue_ID (f x) = issue_ID x) ->
  Exists (fun x => issue_ID x = issueID) l ->
  Exists (fun x => issue_ID x = issueID) (update_first i f l).
Proof.
  intros Hf. induction 1 as [x l Hx | x l Hl IH]; cbn;
    destruct (String.eqb _ i); try (by left; rewrite ?Hf); by right.
Qed.

Lemma marker_eq key : CommentKeyMarker key = String "<" ("!-- itervox:ck:" +:+ key +:+ " -->").
Proof. done. Qed.

Lemma marker_byte c key :
  contains_byte c commentKeyMarkerPrefix = false -> contains_byte c " -->" = false ->
  contains_byte c key = false -> contains_byte c (CommentKeyMarker key) = false.
Proof.
  intros H1 H2 H3. unfold CommentKeyMarker. by rewrite !contains_byte_app, H1, H2, H3.
Qed.

(** A marker of one key holds the marker of another nowhere. *)
Lemma marker_other key key' :
  key_ok key -> key_ok key' -> key <> key' ->
  contains (CommentKeyMarker key') (CommentKeyMarker key) = false.
Proof.
  intros (_ & Hlt & Hsp & _) (_ & Hlt' & Hsp' & _) Hne.
  apply not_true_is_false. rewrite (marker_eq key'). cbn [contains].
  intros [H|H]%orb_true_iff.
  - apply Hne. symmetry. apply (has_prefix_word " " key' key "-->" "-->"); try done.
  - rewrite (marker_eq key) in H. apply contains_first in H.
    by rewrite !contains_byte_app, Hlt' in H.
Qed.

Lemma MarkCommentKey_other body key key' :
  key_ok key -> key_ok key' -> key <> key' -> CommentHasKey body key = false ->
  CommentHasKey (MarkCommentKey body key') key = false.
Proof.
  intros Hk Hk' Hne Hb. pose proof Hk as (Hn & Hlt & Hsp & Hnl).
  unfold CommentHasKey in *. apply String.eqb_neq in Hn. rewrite Hn in Hb |- *.
  unfold MarkCommentKey. destruct (String.eqb key' ""); [done|].
  destruct (contains body (CommentKeyMarker key')); [done|].
  assert (Hm : contains_byte newline (CommentKeyMarker key) = false)
    by (by apply marker_byte).
  unfold blank_line. rewrite append_cons_l, contains_around by done.
  change (String "010" "" +:+ CommentKeyMarker key')
    with (EmptyString +:+ String newline (CommentKeyMarker key')).
  rewrite contains_around, marker_other by done. rewrite orb_false_r.
  apply not_true_is_false. intros H%contains_trim. congruence.
Qed.
End memory_laws.

#[export] Instance memory_laws : KeyedTrackerLaws MemoryTracker memory_known.
Proof.
  split.
  - intros m issue key. cbn [FindCommentByKey posts_of memory_keyed].
    unfold MemFindCommentByKey. rewrite bool_decide_eq_true.
    destruct (keyed_in _ _ _); cbn; [split; [done|lia]|split; [lia|done]].
  - intros m issue key body Hkn Hk. cbn.
    apply (keyed_add_posts (mt_issues m)); [|done]. by apply MarkCommentKey_has, Hk.
  - intros m i key' body issue key Hk Hk' Hne Hb. cbn. f_equal.
    apply (keyed_add_other (mt_issues m)). by apply MarkCommentKey_other.
  - intros m i key body issue H. by apply known_update_first.
  - intros m i s issue H. by apply known_update_first.
  - intros m i s issue key. cbn. f_equal. apply (keyed_set_state (mt_issues m)).
Qed.
