(* ===== verification/Rfc3339.v ===== *)
(** * Rfc3339: [time.Parse(time.RFC3339, _)] of the Go standard library

    The parser of package time on the layout 2006-01-02T15:04:05Z07:00: the
    hour may have one digit, a fraction may follow the seconds after a point
    or a comma, an offset may reach 24 hours and 60 minutes.  What
    [FormatRFC3339] prints, it reads back; and what is printed with leading
    zeros, as dates and times of day are, compares as the numbers do. *)

From stdpp Require Import base list strings.
From Stdlib Require Import Ascii.
From S2P Require Import Prelude.

Local Open Scope Z_scope.

(** ** Digits *)

Definition digit_value (c : ascii) : option Z :=
  let n := Z.of_N (N_of_ascii c) in
  if (48 <=? n) && (n <=? 57) then Some (n - 48) else None.

(** A number of exactly [w] digits at the start of the string. *)
Fixpoint fixed_number (w : nat) (acc : Z) (s : string) : option (Z * string) :=
  match w with
  | O => Some (acc, s)
  | S w =>
      match s with
      | String c s =>
          match digit_value c with
          | Some d => fixed_number w (10 * acc + d) s
          | None => None
          end
      | EmptyString => None
      end
  end.

(** [getnum(s, false)]: one digit or two. *)
Definition one_or_two (s : string) : option (Z * string) :=
  match fixed_number 2 0 s with
  | Some r => Some r
  | None => fixed_number 1 0 s
  end.

Definition expect (c : ascii) (s : string) : option string :=
  match s with
  | String d s => if Ascii.eqb c d then Some s else None
  | EmptyString => None
  end.

Definition in_range (lo hi : Z) (v : Z) : option unit := if (lo <=? v) && (v <=? hi) then Some () else None.

(** ** The calendar *)

Definition is_leap (year : Z) : bool :=
  (year mod 4 =? 0) && (negb (year mod 100 =? 0) || (year mod 400 =? 0)).

Definition daysIn (month year : Z) : Z :=
  if month =? 2 then (if is_leap year then 29 else 28)
  else if (month =? 4) || (month =? 6) || (month =? 9) || (month =? 11) then 30 else 31.

(** Days since the first of January of year 1. *)
Definition days_of_civil (year month day : Z) : Z :=
  let y := if month <=? 2 then year - 1 else year in
  let mp := if month <=? 2 then month + 9 else month - 3 in
  let yoe := y mod 400 in
  (y / 400) * 146097 + (yoe * 365 + yoe / 4 - yoe / 100) + (153 * mp + 2) / 5 + day - 1 - 306.

(** ** The parser *)

(** The digits of a fraction, and what follows them. *)
Fixpoint span_digits (s : string) : list Z * string :=
  match s with
  | String c rest =>
      match digit_value c with
      | Some d => let '(ds, r) := span_digits rest in (d :: ds, r)
      | None => ([], s)
      end
  | EmptyString => ([], s)
  end.

(** Nanoseconds of a fraction: nine digits count. *)
Definition nanoseconds (ds : list Z) : Z :=
  let ds := firstn 9 ds in
  foldl (fun n d => 10 * n + d) 0 ds * 10 ^ (9 - Z.of_nat (length ds)).

Definition parse_fraction (s : string) : Z * string :=
  match s with
  | String c (String d _ as rest) =>
      if (Ascii.eqb c "."%char || Ascii.eqb c ","%char) && bool_decide (is_Some (digit_value d))
      then let '(ds, r) := span_digits rest in (nanoseconds ds, r)
      else (0, s)
  | _ => (0, s)
  end.

(** The offset in seconds; nothing may follow it. *)
Definition parse_zone (s : string) : option Z :=
  match s with
  | EmptyString => None
  | String c rest =>
      if Ascii.eqb c "Z"%char then (if String.eqb rest "" then Some 0 else None)
      else
        '(hour, rest) ← fixed_number 2 0 rest;
        rest ← expect ":"%char rest;
        '(min, rest) ← fixed_number 2 0 rest;
        _ ← in_range 0 24 hour; _ ← in_range 0 60 min;
        if negb (String.eqb rest "") then None
        else if Ascii.eqb c "+"%char then Some (hour * 3600 + min * 60)
        else if Ascii.eqb c "-"%char then Some (- (hour * 3600 + min * 60))
        else None
  end.

Definition ParseRFC3339 (s : string) : option Time :=
  '(year, s) ← fixed_number 4 0 s; s ← expect "-"%char s;
  '(month, s) ← fixed_number 2 0 s; _ ← in_range 1 12 month; s ← expect "-"%char s;
  '(day, s) ← fixed_number 2 0 s; s ← expect "T"%char s;
  '(hour, s) ← one_or_two s; _ ← in_range 0 23 hour; s ← expect ":"%char s;
  '(min, s) ← fixed_number 2 0 s; _ ← in_range 0 59 min; s ← expect ":"%char s;
  '(sec, s) ← fixed_number 2 0 s; _ ← in_range 0 59 sec;
  let '(nsec, s) := parse_fraction s in
  offset ← parse_zone s;
  _ ← in_range 1 (daysIn month year) day;
  Some ((days_of_civil year month day * 86400 + hour * 3600 + min * 60 + sec - offset) * Second + nsec).

Example parse_epoch : ParseRFC3339 "1970-01-01T00:00:00Z" = Some unix_epoch.
Proof. reflexivity. Qed.
Example parse_offset : ParseRFC3339 "1970-01-01T2:30:00.25+02:30" = Some (unix_epoch + 250 * Millisecond).
Proof. reflexivity. Qed.
Example parse_no_day : ParseRFC3339 "2023-02-29T00:00:00Z" = None.
Proof. reflexivity. Qed.

(** ** What is printed is read back *)

Lemma civil_day_of_year doe : 0 <= doe < 146097 ->
  let yoe := (doe - doe / 1460 + doe / 36524 - doe / 146096) / 365 in
  0 <= yoe <= 399 /\ 0 <= doe - (365 * yoe + yoe / 4 - yoe / 100) <= 365.
Proof. intros H yoe. subst yoe. Z.to_euclidean_division_equations. lia. Qed.

(** The 366th day of a year that starts in March is a leap day. *)
Lemma civil_leap_day doe : 0 <= doe < 146097 ->
  let yoe := (doe - doe / 1460 + doe / 36524 - doe / 146096) / 365 in
  doe - (365 * yoe + yoe / 4 - yoe / 100) = 365 ->
  (yoe + 1) mod 4 = 0 /\ ((yoe + 1) mod 100 <> 0 \/ (yoe + 1) mod 400 = 0).
Proof. intros H yoe. subst yoe. Z.to_euclidean_division_equations. lia. Qed.

Lemma month_of_day doy : 0 <= doy <= 365 ->
  let mp := (5 * doy + 2) / 153 in
  0 <= mp <= 11 /\ (153 * mp + 2) / 5 <= doy < (153 * (mp + 1) + 2) / 5.
Proof. intros H mp. subst mp. Z.to_euclidean_division_equations. lia. Qed.

(** Evaluates closed quotients and tests. *)
Ltac closed_terms :=
  repeat match goal with
    | H : context [(153 * ?p + 2) / 5] |- _ =>
        let v := eval vm_compute in ((153 * p + 2) / 5) in change ((153 * p + 2) / 5) with v in H
    | |- context [(153 * ?p + 2) / 5] =>
        let v := eval vm_compute in ((153 * p + 2) / 5) in change ((153 * p + 2) / 5) with v
    | |- context [if ?b then _ else _] =>
        let v := eval vm_compute in b in change b with v; cbv iota
    end.

(** The longest month of each place in a year that starts in March. *)
Lemma month_length mp doy year :
  0 <= mp <= 11 -> (153 * mp + 2) / 5 <= doy < (153 * (mp + 1) + 2) / 5 -> doy <= 365 ->
  (doy = 365 -> is_leap year = true) ->
  let month := if mp <? 10 then mp + 3 else mp - 9 in
  1 <= month <= 12 /\ 1 <= doy - (153 * mp + 2) / 5 + 1 <= daysIn month year.
Proof.
  intros Hmp Hd Hle Hl.
  assert (mp = 0 \/ mp = 1 \/ mp = 2 \/ mp = 3 \/ mp = 4 \/ mp = 5 \/ mp = 6 \/ mp = 7 \/ mp = 8 \/ mp = 9 \/
    mp = 10 \/ mp = 11) as Hc by lia.
  destruct (is_leap year) eqn:El; [|assert (doy <> 365) by (intros ->; by specialize (Hl eq_refl))].
  all: unfold daysIn; rewrite El.
  all: repeat (destruct Hc as [Hc|Hc]); subst mp; closed_terms; lia.
Qed.

(** The year of a leap day. *)
Lemma leap_year yoe era :
  (yoe + 1) mod 4 = 0 /\ ((yoe + 1) mod 100 <> 0 \/ (yoe + 1) mod 400 = 0) ->
  is_leap (yoe + era * 400 + 1) = true.
Proof.
  intros [H4 H]. unfold is_leap.
  assert (E4 : (yoe + era * 400 + 1) mod 4 = (yoe + 1) mod 4)
    by (rewrite <- (Z.mod_add (yoe + 1) (era * 100) 4) by lia; f_equal; lia).
  assert (E100 : (yoe + era * 400 + 1) mod 100 = (yoe + 1) mod 100)
    by (rewrite <- (Z.mod_add (yoe + 1) (era * 4) 100) by lia; f_equal; lia).
  assert (E400 : (yoe + era * 400 + 1) mod 400 = (yoe + 1) mod 400)
    by (rewrite <- (Z.mod_add (yoe + 1) era 400) by lia; f_equal; lia).
  rewrite E4, E100, E400, H4. cbn [Z.eqb andb].
  destruct (Z.eqb_spec ((yoe + 1) mod 100) 0), (Z.eqb_spec ((yoe + 1) mod 400) 0); cbn; try done.
  by destruct H.
Qed.

(** A day count taken apart: cycle, year of the cycle, day of the year and
    place of the month, years starting in March. *)
Lemma days_of_parts era yoe mp d (year month : Z) :
  0 <= yoe <= 399 -> 0 <= mp <= 11 ->
  month = (if mp <? 10 then mp + 3 else mp - 9) ->
  year = yoe + era * 400 + (if month <=? 2 then 1 else 0) ->
  days_of_civil year month d =
    era * 146097 + (365 * yoe + yoe / 4 - yoe / 100) + (153 * mp + 2) / 5 + d - 307.
Proof.
  intros Hy Hmp Em Ey. unfold days_of_civil.
  assert (Hy1 : (if month <=? 2 then year - 1 else year) = yoe + era * 400) by (destruct (month <=? 2); lia).
  assert (Hmp1 : (if month <=? 2 then month + 9 else month - 3) = mp).
  { destruct (Z.ltb_spec mp 10), (Z.leb_spec month 2); lia. }
  rewrite Hy1, Hmp1. rewrite Z.div_add, Z.mod_add by lia. rewrite (Z.div_small yoe), (Z.mod_small yoe) by lia. lia.
Qed.

Lemma year_bounds era yoe doy mp n :
  0 <= n < 3652059 -> 0 <= yoe <= 399 -> 0 <= doy <= 365 -> 0 <= mp <= 11 ->
  (153 * mp + 2) / 5 <= doy < (153 * (mp + 1) + 2) / 5 ->
  n + 306 = era * 146097 + (365 * yoe + yoe / 4 - yoe / 100) + doy ->
  1 <= yoe + era * 400 + (if (if mp <? 10 then mp + 3 else mp - 9) <=? 2 then 1 else 0) <= 9999.
Proof.
  intros Hn Hy Hd Hmp Hdm He.
  destruct (Z.ltb_spec mp 10); [destruct (Z.leb_spec (mp + 3) 2)|destruct (Z.leb_spec (mp - 9) 2)]; try lia;
    Z.to_euclidean_division_equations; lia.
Qed.

Lemma civil_of_days_spec n : 0 <= n < 3652059 ->
  let '(y, m, d) := civil_of_days n in
  days_of_civil y m d = n /\ 1 <= m <= 12 /\ 1 <= d <= daysIn m y /\ 1 <= y <= 9999.
Proof.
  intros Hn. unfold civil_of_days. cbn zeta.
  assert (Hdoe : 0 <= (n + 306) mod 146097 < 146097) by (apply Z.mod_pos_bound; lia).
  pose proof (civil_day_of_year _ Hdoe) as Hy. pose proof (civil_leap_day _ Hdoe) as Hl. cbn zeta in Hy, Hl.
  pose proof (Z.div_mod (n + 306) 146097 ltac:(lia)) as He.
  set (doe := (n + 306) mod 146097) in *. set (era := (n + 306) / 146097) in *. clearbody doe era.
  set (yoe := (doe - doe / 1460 + doe / 36524 - doe / 146096) / 365) in *. clearbody yoe.
  set (doy := doe - (365 * yoe + yoe / 4 - yoe / 100)) in *.
  assert (Hdoy : doe = 365 * yoe + yoe / 4 - yoe / 100 + doy) by (subst doy; lia). clearbody doy.
  destruct Hy as [Hyoe Hd]. destruct (month_of_day doy Hd) as [Hmp Hdm].
  set (mp := (5 * doy + 2) / 153) in *. clearbody mp.
  set (month := if mp <? 10 then mp + 3 else mp - 9).
  set (y := yoe + era * 400 + (if month <=? 2 then 1 else 0)).
  assert (Hleap : doy = 365 -> is_leap y = true).
  { intros E. assert (Hm : month = 2).
    { assert (mp = 11) as ->; [|done]. rewrite E in Hdm. clear -Hdm Hmp. Z.to_euclidean_division_equations. lia. }
    subst y. rewrite Hm. by apply leap_year, Hl. }
  destruct (month_length mp doy y Hmp Hdm ltac:(lia) Hleap) as [Hm1 Hm2]. fold month in Hm1, Hm2.
  split; [|split; [exact Hm1|split; [exact Hm2|]]].
  - rewrite (days_of_parts era yoe mp _ y month Hyoe Hmp eq_refl eq_refl). lia.
  - apply (year_bounds era yoe doy mp n); try assumption. lia.
Qed.

Lemma digit_read d : 0 <= d <= 9 -> digit_value (digit d) = Some d.
Proof.
  intros H. assert (d = 0 \/ d = 1 \/ d = 2 \/ d = 3 \/ d = 4 \/ d = 5 \/ d = 6 \/ d = 7 \/ d = 8 \/ d = 9) as Hc by lia.
  repeat (destruct Hc as [->|Hc]; [reflexivity|]). by subst d.
Qed.

Lemma fixed_number_app w1 w2 acc s :
  fixed_number (w1 + w2) acc s = '(n, s) ← fixed_number w1 acc s; fixed_number w2 n s.
Proof.
  revert acc s. induction w1 as [|w1 IH]; intros acc s; [done|]. cbn [fixed_number Nat.add].
  destruct s as [|c s]; [done|]. destruct (digit_value c); [apply IH|done].
Qed.

Lemma last_digits_read w z acc s :
  fixed_number w acc (last_digits w z +:+ s) = Some (acc * 10 ^ Z.of_nat w + z mod 10 ^ Z.of_nat w, s).
Proof.
  revert z acc s. induction w as [|w IH]; intros z acc s.
  { cbn [fixed_number last_digits]. rewrite append_nil_l, Z.mod_1_r. do 2 f_equal. lia. }
  cbn [last_digits]. rewrite append_assoc.
  replace (S w) with (w + 1)%nat by lia. rewrite fixed_number_app, IH. cbn [mbind option_bind fixed_number].
  rewrite append_cons_l, append_nil_l. rewrite digit_read by (pose proof (Z.mod_pos_bound z 10); lia).
  do 2 f_equal. rewrite Nat2Z.inj_add, Z.pow_add_r by lia. change (10 ^ Z.of_nat 1) with 10.
  rewrite (Z.mul_comm (10 ^ Z.of_nat w) 10), Z.rem_mul_r by lia. lia.
Qed.

Lemma format_width_read w z acc s : 0 <= z < 10 ^ Z.of_nat w ->
  fixed_number w acc (format_width w z +:+ s) = Some (acc * 10 ^ Z.of_nat w + z, s).
Proof.
  intros H. unfold format_width. destruct (Z.ltb_spec z 0); [lia|]. destruct (Z.ltb_spec z (10 ^ Z.of_nat w)); [|lia].
  rewrite last_digits_read, Z.mod_small by lia. done.
Qed.

Lemma width2_read z s : 0 <= z <= 99 -> fixed_number 2 0 (format_width 2 z +:+ s) = Some (z, s).
Proof. intros H. rewrite format_width_read by lia. done. Qed.

Lemma width4_read z s : 0 <= z <= 9999 -> fixed_number 4 0 (format_width 4 z +:+ s) = Some (z, s).
Proof. intros H. rewrite format_width_read by lia. done. Qed.

Lemma expect_read c s : expect c (String c s) = Some s.
Proof. cbn. by rewrite Ascii.eqb_refl. Qed.

Lemma in_range_read lo hi v : lo <= v <= hi -> in_range lo hi v = Some ().
Proof. intros H. unfold in_range. destruct (Z.leb_spec lo v), (Z.leb_spec v hi); done || lia. Qed.

(** The first instant of the year 10000. *)
Definition year_10000 : Time := 3652059 * 86400 * Second.

Definition whole_seconds (t : Time) : Prop := 0 <= t < year_10000 /\ t mod Second = 0.

(** Reads the next printed field or separator. *)
Ltac read_next :=
  cbn [mbind option_bind];
  first [ rewrite (in_range_read 1 12) by lia
        | rewrite (in_range_read 0 23) by lia
        | rewrite (in_range_read 0 59) by lia
        | rewrite width2_read by lia
        | rewrite width4_read by lia
        | rewrite append_cons_l, append_nil_l, expect_read ].

(** Whole seconds of the years 1 to 9999 survive printing and parsing. *)
Lemma rfc3339_roundtrip t : whole_seconds t -> ParseRFC3339 (FormatRFC3339 t) = Some t.
Proof.
  intros [Hr Hs]. unfold year_10000 in Hr. unfold FormatRFC3339. cbn zeta.
  pose proof (Z.div_mod t Second ltac:(done)) as Ht. rewrite Hs in Ht.
  assert (Hb : 0 <= t / Second < 3652059 * 86400) by (unfold Second, Millisecond in *; lia).
  set (secs := t / Second) in *. clearbody secs.
  pose proof (civil_of_days_spec (secs / 86400)) as Hc.
  destruct (civil_of_days (secs / 86400)) as [[y m] d].
  destruct Hc as (Hdays & Hm & Hd & Hy); [Z.to_euclidean_division_equations; lia|].
  assert (Hd31 : daysIn m y <= 31) by (unfold daysIn; repeat case_match; lia).
  pose proof (Z.div_mod secs 86400 ltac:(lia)) as Hsecs.
  pose proof (Z.mod_pos_bound secs 86400 ltac:(lia)) as Hsec. set (s := secs mod 86400) in *.
  assert (Hh : 0 <= s / 3600 <= 23) by (clear -Hsec; Z.to_euclidean_division_equations; lia).
  assert (Hmi : 0 <= s / 60 mod 60 <= 59) by (pose proof (Z.mod_pos_bound (s / 60) 60); lia).
  assert (Hse : 0 <= s mod 60 <= 59) by (pose proof (Z.mod_pos_bound s 60); lia).
  unfold ParseRFC3339, one_or_two. repeat read_next.
  cbn. rewrite (in_range_read 1 (daysIn m y)) by lia. cbn [mbind option_bind]. f_equal. rewrite Hdays.
  assert (Hsum : s / 3600 * 3600 + s / 60 mod 60 * 60 + s mod 60 = s)
    by (clear; Z.to_euclidean_division_equations; lia).
  rewrite Ht. lia.
Qed.

(** ** The order of what is printed *)

Lemma cmp_then_assoc a b c : cmp_then (cmp_then a b) c = cmp_then a (cmp_then b c).
Proof. by destruct a. Qed.

(** Two places of a number, the second below [k]. *)
Lemma compare_places k a b a' b' : 0 <= b < k -> 0 <= b' < k ->
  cmp_then (a ?= a') (b ?= b') = (a * k + b ?= a' * k + b').
Proof.
  intros H H'. destruct (Z.compare_spec a a') as [->|Ha|Ha]; cbn [cmp_then]; symmetry.
  - destruct (Z.compare_spec b b'); [apply Z.compare_eq_iff|apply Z.compare_lt_iff|apply Z.compare_gt_iff]; lia.
  - apply Z.compare_lt_iff. nia.
  - apply Z.compare_gt_iff. nia.
Qed.

Lemma compare_same c x y : String.compare (String c x) (String c y) = String.compare x y.
Proof. cbn. unfold Ascii.compare. by rewrite N.compare_refl. Qed.

Lemma compare_app a b x y : String.length a = String.length b ->
  String.compare (a +:+ x) (b +:+ y) = cmp_then (String.compare a b) (String.compare x y).
Proof.
  revert b. induction a as [|c a IH]; intros [|d b] [=]; [by rewrite !append_nil_l|].
  rewrite !append_cons_l. cbn [String.compare]. destruct (Ascii.compare c d); [by apply IH|done|done].
Qed.

Lemma compare_digit d e : 0 <= d <= 9 -> 0 <= e <= 9 -> Ascii.compare (digit d) (digit e) = (d ?= e).
Proof.
  intros H H'. unfold digit, Ascii.compare. rewrite !N_ascii_embedding by lia.
  rewrite <- N2Z.inj_compare, !Z2N.id by lia. apply Zcompare_plus_compat.
Qed.

Lemma length_last_digits w z : String.length (last_digits w z) = w.
Proof.
  revert z. induction w as [|w IH]; intros z; [done|]. cbn [last_digits]. rewrite length_app_string, IH. cbn. lia.
Qed.

Lemma compare_last_digits w z z' :
  String.compare (last_digits w z) (last_digits w z') = (z mod 10 ^ Z.of_nat w ?= z' mod 10 ^ Z.of_nat w).
Proof.
  revert z z'. induction w as [|w IH]; intros z z'; [by rewrite !Z.mod_1_r|].
  cbn [last_digits]. rewrite compare_app by (by rewrite !length_last_digits). rewrite IH. cbn [String.compare].
  pose proof (Z.mod_pos_bound z 10 ltac:(lia)) as H. pose proof (Z.mod_pos_bound z' 10 ltac:(lia)) as H'.
  rewrite compare_digit by lia.
  assert (E : forall b, (match (z mod 10 ?= z' mod 10) with Eq => Eq | Lt => Lt | Gt => Gt end) = b <-> (z mod 10 ?= z' mod 10) = b)
    by (intros b; by destruct (z mod 10 ?= z' mod 10)).
  rewrite (proj2 (E _) eq_refl), (compare_places 10) by lia.
  rewrite Nat2Z.inj_succ, Z.pow_succ_r, !Z.rem_mul_r by lia. f_equal; lia.
Qed.

Lemma compare_width w z z' : 0 <= z < 10 ^ Z.of_nat w -> 0 <= z' < 10 ^ Z.of_nat w ->
  forall x y, String.compare (format_width w z +:+ x) (format_width w z' +:+ y) = cmp_then (z ?= z') (String.compare x y).
Proof.
  intros H H' x y. unfold format_width.
  destruct (Z.ltb_spec z 0); [lia|]. destruct (Z.ltb_spec z (10 ^ Z.of_nat w)); [|lia].
  destruct (Z.ltb_spec z' 0); [lia|]. destruct (Z.ltb_spec z' (10 ^ Z.of_nat w)); [|lia].
  rewrite compare_app by (by rewrite !length_last_digits). by rewrite compare_last_digits, !Z.mod_small by lia.
Qed.

(** Days up to a month of a year that starts in March, months counted from the
    March before year 1. *)
Definition days_to_month (n : Z) : Z :=
  let y := n / 12 in 365 * y + y / 4 - y / 100 + y / 400 + (153 * (n mod 12) + 2) / 5.

Lemma div_mod_places k a b : 0 <= b < k -> (a * k + b) / k = a /\ (a * k + b) mod k = b.
Proof.
  intros H. split; [rewrite Z.div_add_l, Z.div_small by lia; lia|]. by rewrite Z.add_comm, Z.mod_add, Z.mod_small by lia.
Qed.

Lemma days_of_month_count year month day : 1 <= month <= 12 ->
  days_of_civil year month day = days_to_month (12 * year + month - 3) + day - 307.
Proof.
  intros Hm. unfold days_of_civil, days_to_month. cbn zeta.
  destruct (Z.leb_spec month 2).
  - replace (12 * year + month - 3) with ((year - 1) * 12 + (month + 9)) by lia.
    destruct (div_mod_places 12 (year - 1) (month + 9)) as [-> ->]; [lia|]. clear. Z.to_euclidean_division_equations. lia.
  - replace (12 * year + month - 3) with (year * 12 + (month - 3)) by lia.
    destruct (div_mod_places 12 year (month - 3)) as [-> ->]; [lia|]. clear. Z.to_euclidean_division_equations. lia.
Qed.

Definition days_to_year (y : Z) : Z := 365 * y + y / 4 - y / 100 + y / 400.

Lemma days_to_place y mp : 0 <= mp < 12 -> days_to_month (y * 12 + mp) = days_to_year y + (153 * mp + 2) / 5.
Proof. intros H. unfold days_to_month. cbn zeta. by destruct (div_mod_places 12 y mp H) as [-> ->]. Qed.

Lemma leap_days year : days_to_year year = days_to_year (year - 1) + (if is_leap year then 366 else 365).
Proof.
  unfold days_to_year, is_leap.
  destruct (Z.eqb_spec (year mod 4) 0), (Z.eqb_spec (year mod 100) 0), (Z.eqb_spec (year mod 400) 0); cbn;
    Z.to_euclidean_division_equations; lia.
Qed.

(** A month is as long as its last day says. *)
Lemma month_fits year month : 1 <= month <= 12 ->
  days_to_month (12 * year + month - 3) + daysIn month year = days_to_month (12 * year + month - 3 + 1).
Proof.
  intros Hm. pose proof (leap_days year) as Hl.
  assert (month = 2 \/ month = 1 \/ month = 3 \/ month = 4 \/ month = 5 \/ month = 6 \/ month = 7 \/ month = 8 \/ month = 9 \/
    month = 10 \/ month = 11 \/ month = 12) as [->|Hc] by lia.
  { replace (12 * year + 2 - 3) with ((year - 1) * 12 + 11) by lia.
    replace ((year - 1) * 12 + 11 + 1) with (year * 12 + 0) by lia. rewrite !days_to_place by lia.
    unfold daysIn. cbn [Z.eqb Pos.eqb]. change ((153 * 11 + 2) / 5) with 337. change ((153 * 0 + 2) / 5) with 0.
    destruct (is_leap year); lia. }
  set (y := if month <=? 2 then year - 1 else year). set (mp := if month <=? 2 then month + 9 else month - 3).
  assert (Hmp : 0 <= mp < 11) by (subst mp; destruct (Z.leb_spec month 2); lia).
  replace (12 * year + month - 3) with (y * 12 + mp) by (subst y mp; destruct (Z.leb_spec month 2); lia).
  replace (y * 12 + mp + 1) with (y * 12 + (mp + 1)) by lia. rewrite !days_to_place by lia.
  subst mp. unfold daysIn. repeat (destruct Hc as [Hc|Hc]); subst month; cbn; rewrite <- Z.add_assoc; apply f_equal; reflexivity.
Qed.

(** The later month starts after the last day of the earlier. *)
Lemma months_apart year month b : 1 <= month <= 12 -> 12 * year + month - 3 < b ->
  days_to_month (12 * year + month - 3) + daysIn month year <= days_to_month b.
Proof.
  intros Hm Hb. rewrite month_fits by done.
  assert (H : forall k : nat, days_to_month (12 * year + month - 3 + 1) <= days_to_month (12 * year + month - 3 + 1 + Z.of_nat k)).
  { induction k as [|k IH]; [by rewrite Z.add_0_r|]. etrans; [exact IH|].
    set (n := 12 * year + month - 3 + 1 + Z.of_nat k).
    replace (12 * year + month - 3 + 1 + Z.of_nat (S k)) with (n + 1) by lia.
    pose proof (Z.div_mod (n + 2) 12 ltac:(lia)) as Hn. pose proof (Z.mod_pos_bound (n + 2) 12 ltac:(lia)) as Hr.
    pose proof (month_fits ((n + 2) / 12) ((n + 2) mod 12 + 1) ltac:(lia)) as Hf.
    replace (12 * ((n + 2) / 12) + ((n + 2) mod 12 + 1) - 3) with n in Hf by lia.
    rewrite <- Hf. assert (1 <= daysIn ((n + 2) mod 12 + 1) ((n + 2) / 12)) by (unfold daysIn; repeat case_match; lia). lia. }
  specialize (H (Z.to_nat (b - (12 * year + month - 3 + 1)))). rewrite Z2Nat.id in H by lia.
  by replace (12 * year + month - 3 + 1 + (b - (12 * year + month - 3 + 1))) with b in H by lia.
Qed.

Definition civil_ok (y m d : Z) : Prop := 1 <= m <= 12 /\ 1 <= d <= daysIn m y.

(** Dates are in the order of their days. *)
Lemma compare_dates y m d y' m' d' : civil_ok y m d -> civil_ok y' m' d' ->
  cmp_then (y ?= y') (cmp_then (m ?= m') (d ?= d')) = (days_of_civil y m d ?= days_of_civil y' m' d').
Proof.
  intros [Hm Hd] [Hm' Hd']. rewrite !days_of_month_count by done.
  rewrite <- cmp_then_assoc.
  replace (cmp_then (y ?= y') (m ?= m')) with (12 * y + m - 3 ?= 12 * y' + m' - 3).
  2: { pose proof (compare_places 12 y (m - 1) y' (m' - 1) ltac:(lia) ltac:(lia)) as H.
       rewrite <- (Zcompare_plus_compat m m' (-1)), !(Z.add_comm (-1)).
       change (m + -1) with (m - 1). change (m' + -1) with (m' - 1). rewrite H.
       rewrite <- (Zcompare_plus_compat (12 * y + m - 3) (12 * y' + m' - 3) 2). f_equal; lia. }
  destruct (Z.compare_spec (12 * y + m - 3) (12 * y' + m' - 3)) as [E|E|E]; cbn [cmp_then]; symmetry.
  - rewrite E. destruct (Z.compare_spec d d'); [apply Z.compare_eq_iff|apply Z.compare_lt_iff|apply Z.compare_gt_iff]; lia.
  - apply Z.compare_lt_iff. pose proof (months_apart y m _ Hm E). lia.
  - apply Z.compare_gt_iff. pose proof (months_apart y' m' _ Hm' E). lia.
Qed.

Lemma civil_of_days_ok n : 0 <= n < 3652059 ->
  let '(y, m, d) := civil_of_days n in civil_ok y m d /\ days_of_civil y m d = n /\ 0 <= y < 10 ^ 4.
Proof.
  intros Hn. pose proof (civil_of_days_spec n Hn) as H. destruct (civil_of_days n) as [[y m] d].
  destruct H as (H1 & H2 & H3 & H4). unfold civil_ok. split_and!; lia || done.
Qed.

Lemma month_days m y : daysIn m y <= 31.
Proof. unfold daysIn. repeat case_match; lia. Qed.

Lemma compare_seconds s s' : 0 <= s < 86400 -> 0 <= s' < 86400 ->
  cmp_then (s / 3600 ?= s' / 3600) (cmp_then (s / 60 mod 60 ?= s' / 60 mod 60) (s mod 60 ?= s' mod 60)) = (s ?= s').
Proof.
  intros H H'. rewrite (compare_places 60), (compare_places 3600) by (Z.to_euclidean_division_equations; lia).
  f_equal; clear; Z.to_euclidean_division_equations; lia.
Qed.
