(* ===== verification/LocalFile.v ===== *)
(** * LocalFile: the issue files of the local tracker
    (internal/tracker/local/file.go)

    An issue is a Markdown file: YAML front matter between two lines [---],
    the description, and a section of comments, each under a line
    [### time — author].  YAML itself is the argument of a section: how a
    document is read, and how one key is written.  What the front matter's
    values mean, the structure of the text below it, and how both are
    written, is the code's.

    The theorem is the round trip: a file that is written is read back as it
    was.  It asks that no text holds a carriage return; the last section
    shows why. *)

From stdpp Require Import base gmap list strings.
From Stdlib Require Import Ascii.
From S2P Require Import Prelude Domain Tracker Rfc3339.

Local Open Scope Z_scope.

(** ** Strings of package strings *)

Definition nl : string := String newline EmptyString.
Definition carriage_return : ascii := "013"%char.

(** [strings.ReplaceAll(s, CR LF, LF)]. *)
Fixpoint replace_crlf (s : string) : string :=
  match s with
  | String a ((String b r) as tl) =>
      if Ascii.eqb a carriage_return && Ascii.eqb b newline then String newline (replace_crlf r)
      else String a (replace_crlf tl)
  | s => s
  end.

(** [strings.TrimLeft], [TrimRight] and [Trim] with a set of one byte. *)
Fixpoint trim_left_byte (c : ascii) (s : string) : string :=
  match s with
  | String d s' => if Ascii.eqb d c then trim_left_byte c s' else s
  | EmptyString => EmptyString
  end.
Fixpoint trim_right_byte (c : ascii) (s : string) : string :=
  match s with
  | EmptyString => EmptyString
  | String d s' =>
      match trim_right_byte c s' with
      | EmptyString => if Ascii.eqb d c then EmptyString else String d EmptyString
      | r => String d r
      end
  end.
Definition trim_byte (c : ascii) (s : string) : string := trim_right_byte c (trim_left_byte c s).

(** The text before and after the first occurrence of [sep]. *)
Fixpoint cut_string (sep s : string) : option (string * string) :=
  match cut_prefix s sep with
  | Some after => Some (EmptyString, after)
  | None =>
      match s with
      | EmptyString => None
      | String c s' => '(before, after) ← cut_string sep s'; Some (String c before, after)
      end
  end.

(** [strings.HasSuffix] with [strings.TrimSuffix]. *)
Fixpoint cut_suffix (s suffix : string) : option string :=
  if String.eqb s suffix then Some EmptyString
  else match s with
       | EmptyString => None
       | String c s' => String c <$> cut_suffix s' suffix
       end.

Lemma cut_suffix_app a suffix : cut_suffix (a +:+ suffix) suffix = Some a.
Proof.
  induction a as [|c a IH].
  - rewrite append_nil_l. destruct suffix; cbn [cut_suffix]; by rewrite String.eqb_refl.
  - rewrite append_cons_l. cbn [cut_suffix]. rewrite IH.
    destruct (String.eqb_spec (String c (a +:+ suffix)) suffix) as [E|]; [|done].
    apply (f_equal String.length) in E. cbn in E. rewrite length_app_string in E. lia.
Qed.

Lemma cut_suffix_sound s suffix a : cut_suffix s suffix = Some a -> s = a +:+ suffix.
Proof.
  revert a. induction s as [|c s IH]; intros a; cbn [cut_suffix].
  - destruct (String.eqb_spec "" suffix) as [<-|]; [by intros [= <-]|done].
  - destruct (String.eqb_spec (String c s) suffix) as [<-|]; [by intros [= <-]|].
    destruct (cut_suffix s suffix) as [b|]; [|done]. intros [= <-]. rewrite append_cons_l. f_equal. by apply IH.
Qed.

Definition lines_of (s : string) : list string := split_at newline s.
Definition text_of (lines : list string) : string := join nl lines.
Definition mapLines (f : string -> string) (text : string) : string := text_of (map f (lines_of text)).

(** ** The data *)

(** What yaml.v3 decodes into an interface.  A float and a composite carry what
    [fmt.Sprint] prints of them, a time its printed form too. *)
Inductive Yaml :=
  | YNull
  | YString (s : string)
  | YInt (n : Z)
  | YFloat (printed : string)
  | YBool (b : bool)
  | YTime (t : Time) (printed : string)
  | YList (items : list Yaml)
  | YOther (printed : string).

Fixpoint Sprint (v : Yaml) : string :=
  match v with
  | YNull => "<nil>"
  | YString s => s
  | YInt n => format_d n
  | YFloat p | YTime _ p | YOther p => p
  | YBool b => if b then "true" else "false"
  | YList items => "[" +:+ join " " (map Sprint items) +:+ "]"
  end.

Record fileComment := MkFileComment {
  fc_At : Time;
  fc_Author : string;
  fc_Body : string;
}.

Record issueFile := MkIssueFile {
  if_Title : string;
  if_State : string;
  if_Priority : option Z;
  if_Labels : list string;
  if_BlockedBy : list string;
  if_Branch : string;
  if_Created : option Time;
  if_Updated : option Time;
  if_Extra : gmap string Yaml;
  if_Body : string;
  if_CommentsPreamble : string;
  if_Comments : list fileComment;
}.

#[export] Instance eta_issueFile : Settable issueFile := {|
  eta_record f := MkIssueFile (if_Title f) (if_State f) (if_Priority f) (if_Labels f) (if_BlockedBy f)
    (if_Branch f) (if_Created f) (if_Updated f) (if_Extra f) (if_Body f) (if_CommentsPreamble f)
    (if_Comments f) |}.

Inductive file_error :=
  | MissingFront
  | FrontNotClosed
  | BadYaml
  | NeedsTitle
  | NeedsState
  | BadPriority
  | BadList (key : string)
  | BadTime (key : string).

(** ** The text below the front matter *)

Definition commentsHeading : string := "## Comments".
Definition em_dash : string := utf8_bytes [226; 128; 148]%N.

(** The white space of a regular expression: tab, newline, form feed, carriage
    return and blank. *)
Definition re_space (c : ascii) : bool :=
  existsb (Ascii.eqb c) ["009"%char; newline; "012"%char; carriage_return; " "%char].

(** The longest start without white space. *)
Fixpoint token (s : string) : string * string :=
  match s with
  | EmptyString => (EmptyString, EmptyString)
  | String c s' => if re_space c then (EmptyString, s) else let '(t, r) := token s' in (String c t, r)
  end.

(** [commentHeaderRe] on a line: ^### (\S+) —(?: (.* ))?$ *)
Definition match_header (line : string) : option (string * string) :=
  rest ← cut_prefix line "### ";
  let '(at_, rest) := token rest in
  if String.eqb at_ "" then None
  else
    rest ← cut_prefix rest (" " +:+ em_dash);
    match rest with
    | EmptyString => Some (at_, EmptyString)
    | String c author => if Ascii.eqb c " "%char then Some (at_, author) else None
    end.

Definition commentHeaderAt (line : string) : option fileComment :=
  '(at_, author) ← match_header (trim_right_byte " " line);
  t ← ParseRFC3339 at_;
  Some (MkFileComment t (trim_space author) "").

Definition is_heading (line : string) : bool := String.eqb (trim_right_byte " " line) commentsHeading.
Definition is_header (line : string) : bool := bool_decide (is_Some (commentHeaderAt line)).

Definition isStructural (line : string) : bool := is_heading line || is_header line.

Definition backslash : ascii := "\"%char.

Definition escape_line (l : string) : string :=
  if isStructural (trim_left_byte backslash l) then String backslash l else l.

(** Whether one level of escapes comes off the line. *)
Definition is_escaped (l : string) : bool :=
  match l with
  | String c _ => Ascii.eqb c backslash && isStructural (trim_left_byte backslash l)
  | EmptyString => false
  end.

Definition unescape_line (l : string) : string :=
  match l with
  | String _ rest => if is_escaped l then rest else l
  | EmptyString => l
  end.

Definition escapeStructure (text : string) : string := mapLines escape_line text.
Definition unescapeStructure (text : string) : string := mapLines unescape_line text.

(** The scan from the last line up: the lines still to see, last first. *)
Fixpoint section_start_from (sawHeader : bool) (rev_lines : list string) : option nat :=
  match rev_lines with
  | [] => None
  | l :: rest =>
      if is_header l then section_start_from true rest
      else if sawHeader && is_heading l then Some (length rest)
      else section_start_from sawHeader rest
  end.

Definition commentSectionStart (lines : list string) : option nat := section_start_from false (rev lines).

(** The walk over the comment section: the comment it is in, the lines since,
    the preamble and the comments that are done. *)
Record Walk := MkWalk {
  wk_cur : option fileComment;
  wk_buf : list string;
  wk_preamble : string;
  wk_comments : list fileComment;
}.

Definition flush (k : Walk) : Walk :=
  let text := unescapeStructure (trim_byte newline (text_of (wk_buf k))) in
  match wk_cur k with
  | None => MkWalk None [] text (wk_comments k)
  | Some c => MkWalk (Some c) [] (wk_preamble k)
                (wk_comments k ++ [MkFileComment (fc_At c) (fc_Author c) text])
  end.

Definition walk_line (k : Walk) (l : string) : Walk :=
  match commentHeaderAt l with
  | Some c => let k := flush k in MkWalk (Some c) (wk_buf k) (wk_preamble k) (wk_comments k)
  | None => MkWalk (wk_cur k) (wk_buf k ++ [l]) (wk_preamble k) (wk_comments k)
  end.

Definition splitComments (body : string) : string * string * list fileComment :=
  let lines := lines_of body in
  match commentSectionStart lines with
  | None => (unescapeStructure (trim_right_byte newline body), "", [])
  | Some idx =>
      let desc := unescapeStructure (trim_right_byte newline (text_of (firstn idx lines))) in
      let k := flush (foldl walk_line (MkWalk None [] "" []) (skipn (S idx) lines)) in
      (desc, wk_preamble k, wk_comments k)
  end.

Definition descriptionText (body : string) (hasComments : bool) : string :=
  let lines := lines_of body in
  let needs := bool_decide (is_Some (commentSectionStart lines)) && negb hasComments
               || existsb is_escaped lines in
  if needs then escapeStructure body else body.

(** ** Front matter *)

Definition knownKeys : list string :=
  ["title"; "state"; "priority"; "labels"; "blocked_by"; "branch"; "created"; "updated"].

Definition stringKey (m : gmap string Yaml) (key : string) : option string :=
  match m !! key with
  | Some (YString s) => Some s
  | Some ((YInt _ | YFloat _ | YBool _) as v) => Some (Sprint v)
  | _ => None
  end.

Definition listKey (m : gmap string Yaml) (key : string) : file_error + list string :=
  match m !! key with
  | None | Some YNull => inr []
  | Some (YList items) =>
      inr (List.filter (fun s => negb (String.eqb s "")) (map (fun v => trim_space (Sprint v)) items))
  | Some (YString s) => inr [s]
  | Some _ => inl (BadList key)
  end.

Definition timeKey (m : gmap string Yaml) (key : string) : file_error + option Time :=
  match m !! key with
  | None | Some YNull => inr None
  | Some (YTime t _) => inr (Some t)
  | Some (YString s) =>
      match ParseRFC3339 (trim_space s) with
      | Some t => inr (Some t)
      | None => inl (BadTime key)
      end
  | Some _ => inl (BadTime key)
  end.

Definition priorityKey (m : gmap string Yaml) : file_error + option Z :=
  match m !! "priority" with
  | None | Some YNull => inr None
  | Some (YInt p) => inr (Some p)
  | Some _ => inl BadPriority
  end.

Definition bind_error {A B} (r : file_error + A) (f : A -> file_error + B) : file_error + B :=
  match r with inl e => inl e | inr a => f a end.

(** The fields of the front matter, in the order the code reads them. *)
Definition read_front (raw : gmap string Yaml) : file_error + issueFile :=
  let extra := filter (fun kv => kv.1 ∉ knownKeys) raw in
  let title := default "" (stringKey raw "title") in
  if String.eqb (trim_space title) "" then inl NeedsTitle
  else
    let state := default "" (stringKey raw "state") in
    if String.eqb (trim_space state) "" then inl NeedsState
    else
      bind_error (priorityKey raw) (fun priority =>
      bind_error (listKey raw "labels") (fun labels =>
      bind_error (listKey raw "blocked_by") (fun blockedBy =>
      bind_error (timeKey raw "created") (fun created =>
      bind_error (timeKey raw "updated") (fun updated =>
      inr (MkIssueFile title state priority labels blockedBy (default "" (stringKey raw "branch"))
             created updated extra "" "" [])))))).

Definition front_line : string := "---".

(** ** Reading and writing a file *)

Section yaml.
(** [yaml.Unmarshal] into a map, [None] for an error; [yaml.Marshal] of a map
    with one key; a flow list of quoted items. *)
Context (unmarshal : string -> option (gmap string Yaml)).
Context (marshal : string -> Yaml -> string) (flowList : string -> list string -> string).

Definition cut_front (text : string) : file_error + string * string :=
  match cut_prefix text (front_line +:+ nl) with
  | None => inl MissingFront
  | Some rest =>
      match cut_string (nl +:+ front_line +:+ nl) rest with
      | Some fb => inr fb
      | None =>
          match cut_suffix rest (nl +:+ front_line) with
          | Some front => inr (front, "")
          | None => inl FrontNotClosed
          end
      end
  end.

Definition parseIssueFile (data : string) : file_error + issueFile :=
  bind_error (cut_front (replace_crlf data)) (fun fb =>
    match unmarshal (fst fb) with
    | None => inl BadYaml
    | Some raw =>
        bind_error (read_front raw) (fun f =>
          let '(body, preamble, comments) := splitComments (trim_left_byte newline (snd fb)) in
          inr (f <| if_Body := body |> <| if_CommentsPreamble := preamble |> <| if_Comments := comments |>))
    end).

Definition time_line (key : string) (t : option Time) : string :=
  match t with Some t => key +:+ ": " +:+ FormatRFC3339 t +:+ nl | None => "" end.

Definition front_text (f : issueFile) : string :=
  marshal "title" (YString (if_Title f)) +:+ marshal "state" (YString (if_State f))
  +:+ match if_Priority f with Some p => marshal "priority" (YInt p) | None => "" end
  +:+ match if_Labels f with [] => "" | l => flowList "labels" l end
  +:+ match if_BlockedBy f with [] => "" | l => flowList "blocked_by" l end
  +:+ (if String.eqb (if_Branch f) "" then "" else marshal "branch" (YString (if_Branch f)))
  +:+ time_line "created" (if_Created f) +:+ time_line "updated" (if_Updated f)
  +:+ foldr (fun k s => marshal k (default YNull (if_Extra f !! k)) +:+ s) ""
        (sort_strings (map fst (map_to_list (if_Extra f)))).

(** [strings.ReplaceAll(s, LF, blank)]. *)
Fixpoint one_line (s : string) : string :=
  match s with
  | EmptyString => EmptyString
  | String c s' => String (if Ascii.eqb c newline then " "%char else c) (one_line s')
  end.

Definition comment_header (c : fileComment) : string :=
  "### " +:+ FormatRFC3339 (fc_At c) +:+ " " +:+ em_dash +:+ " " +:+ trim_space (one_line (fc_Author c)).

Definition comment_text (c : fileComment) : string :=
  nl +:+ comment_header c +:+ nl +:+ nl +:+ escapeStructure (fc_Body c) +:+ nl.

Definition body_text (f : issueFile) : string :=
  (if String.eqb (if_Body f) "" then ""
   else nl +:+ descriptionText (if_Body f) (negb (bool_decide (if_Comments f = []))) +:+ nl)
  +:+ match if_Comments f with
      | [] => ""
      | comments =>
          nl +:+ commentsHeading +:+ nl
          +:+ (if String.eqb (if_CommentsPreamble f) "" then ""
               else nl +:+ escapeStructure (if_CommentsPreamble f) +:+ nl)
          +:+ foldr (fun c s => comment_text c +:+ s) "" comments
      end.

Definition render (f : issueFile) : string :=
  front_line +:+ nl +:+ front_text f +:+ front_line +:+ nl +:+ body_text f.

End yaml.

(** A domain issue; blockers are the tracker's to fill in. *)
Definition comment_of (identifier : string) (i : nat) (c : fileComment) : Comment :=
  MkComment (identifier +:+ "-c" +:+ format_d (Z.of_nat i + 1)) (fc_Body c) (Some (fc_At c))
    (fc_Author c) (fc_Author c).

Definition toIssue (f : issueFile) (identifier : string) : Issue :=
  zero_Issue
    <| issue_ID := identifier |> <| issue_Identifier := identifier |>
    <| issue_Title := if_Title f |> <| issue_State := if_State f |> <| issue_Priority := if_Priority f |>
    <| issue_CreatedAt := if_Created f |> <| issue_UpdatedAt := if_Updated f |>
    <| issue_Description := if String.eqb (if_Body f) "" then None else Some (if_Body f) |>
    <| issue_BranchName := if String.eqb (if_Branch f) "" then None else Some (if_Branch f) |>
    <| issue_Labels := map to_lower (if_Labels f) |>
    <| issue_Comments := imap (comment_of identifier) (if_Comments f) |>.

(** ** Lines *)

Definition no_newline (l : string) : Prop := contains_byte newline l = false.

Lemma lines_of_ne s : lines_of s <> [].
Proof.
  destruct s as [|c s]; [done|]. unfold lines_of. cbn [split_at]. case_match; [done|]. by case_match.
Qed.

Lemma lines_of_cons c s : c <> newline ->
  exists w ws, lines_of s = w :: ws /\ lines_of (String c s) = String c w :: ws.
Proof.
  intros H. unfold lines_of. cbn [split_at]. destruct (Ascii.eqb_spec newline c); [congruence|].
  destruct (split_at newline s) as [|w ws] eqn:E; [by destruct (lines_of_ne s)|eauto].
Qed.

Lemma lines_of_newline s : lines_of (nl +:+ s) = "" :: lines_of s.
Proof. done. Qed.

Lemma lines_of_app a b : lines_of (a +:+ nl +:+ b) = lines_of a ++ lines_of b.
Proof.
  induction a as [|c a IH]; [done|]. rewrite append_cons_l.
  destruct (decide (c = newline)) as [->|Hc].
  - change (lines_of (String newline (a +:+ nl +:+ b))) with ("" :: lines_of (a +:+ nl +:+ b)). by rewrite IH.
  - destruct (lines_of_cons c (a +:+ nl +:+ b) Hc) as (w & ws & H1 & ->).
    destruct (lines_of_cons c a Hc) as (v & vs & H2 & ->). rewrite IH, H2 in H1. by injection H1 as <- <-.
Qed.

Lemma line_alone l : no_newline l -> lines_of l = [l].
Proof.
  unfold no_newline. induction l as [|c l IH]; [done|]. cbn [contains_byte]. intros [Hc Hl]%orb_false_iff.
  destruct (lines_of_cons c l) as (w & ws & H1 & ->).
  - intros ->. by rewrite Ascii.eqb_refl in Hc.
  - rewrite (IH Hl) in H1. by injection H1 as <- <-.
Qed.

Lemma lines_no_newline s : Forall no_newline (lines_of s).
Proof.
  induction s as [|c s IH]; [by repeat constructor|].
  destruct (decide (c = newline)) as [->|Hc]; [by constructor|].
  destruct (lines_of_cons c s Hc) as (w & ws & H1 & ->). rewrite H1 in IH. apply Forall_cons in IH as [Hw Hws].
  constructor; [|done]. unfold no_newline. cbn [contains_byte].
  destruct (Ascii.eqb_spec newline c); [congruence|]. exact Hw.
Qed.

Lemma text_of_cons l ls : ls <> [] -> text_of (l :: ls) = l +:+ nl +:+ text_of ls.
Proof. by destruct ls. Qed.

Lemma text_of_app a b : a <> [] -> b <> [] -> text_of (a ++ b) = text_of a +:+ nl +:+ text_of b.
Proof.
  intros Ha Hb. induction a as [|l [|m a] IH]; [done| |].
  - change ([l] ++ b) with (l :: b). by rewrite (text_of_cons l b).
  - change ((l :: m :: a) ++ b) with (l :: ((m :: a) ++ b)). rewrite (text_of_cons l) by done.
    rewrite IH by done. rewrite (text_of_cons l (m :: a)) by done. by rewrite !append_assoc.
Qed.

Lemma lines_text ls : ls <> [] -> Forall no_newline ls -> lines_of (text_of ls) = ls.
Proof.
  intros Hne H. induction H as [|l [|m ls] Hl _ IH]; [done|by apply line_alone|].
  rewrite text_of_cons, lines_of_app, IH by done. by rewrite line_alone.
Qed.

Lemma text_lines s : text_of (lines_of s) = s.
Proof.
  induction s as [|c s IH]; [done|]. destruct (decide (c = newline)) as [->|Hc].
  - change (lines_of (String newline s)) with ("" :: lines_of s). rewrite text_of_cons by apply lines_of_ne.
    by rewrite IH.
  - destruct (lines_of_cons c s Hc) as (w & ws & H1 & ->). rewrite H1 in IH.
    destruct ws as [|v ws].
    + cbn in IH |- *. by rewrite IH.
    + rewrite text_of_cons in IH |- * by done. by rewrite append_cons_l, IH.
Qed.

Lemma lines_mapLines f s : (forall l, no_newline l -> no_newline (f l)) ->
  lines_of (mapLines f s) = map f (lines_of s).
Proof.
  intros Hf. unfold mapLines. apply lines_text.
  - intros H%map_eq_nil. by apply lines_of_ne in H.
  - apply Forall_fmap. eapply Forall_impl; [apply lines_no_newline|]. exact Hf.
Qed.

Lemma mapLines_id f s : (forall l, l ∈ lines_of s -> f l = l) -> mapLines f s = s.
Proof.
  intros H. unfold mapLines. rewrite <- (text_lines s) at 2. f_equal. rewrite <- (map_id (lines_of s)) at 2.
  apply map_ext_in. intros l Hl%list_elem_of_In. by apply H.
Qed.

(** ** Text without blank lines at either end *)

Definition neat (s : string) : Prop :=
  s = "" \/ (head (lines_of s) <> Some "" /\ last (lines_of s) <> Some "").

Lemma trim_right_ends s c : last (lines_of (String c s)) <> Some "" ->
  trim_right_byte newline (String c s) = String c s.
Proof.
  revert c. induction s as [|d s IH]; intros c H.
  - cbn. destruct (Ascii.eqb_spec c newline) as [->|]; [by destruct H|done].
  - assert (Hl : last (lines_of (String d s)) <> Some "").
    { intros Hn. apply H. destruct (decide (c = newline)) as [->|Hc].
      - change (lines_of (String newline (String d s))) with ("" :: lines_of (String d s)).
        pose proof (lines_of_ne (String d s)). by destruct (lines_of (String d s)).
      - destruct (lines_of_cons c (String d s) Hc) as (w & ws & H1 & ->). rewrite H1 in Hn.
        destruct ws as [|v ws]; [|done]. injection Hn as ->.
        pose proof (text_lines (String d s)) as Ht. rewrite H1 in Ht. done. }
    specialize (IH d Hl). cbn [trim_right_byte] in IH |- *. by rewrite IH.
Qed.

Lemma neat_trim s : neat s -> trim_left_byte newline s = s /\ trim_right_byte newline s = s.
Proof.
  intros [->|[Hh Hl]]; [done|]. destruct s as [|c s]; [done|]. split; [|by apply trim_right_ends].
  cbn. destruct (Ascii.eqb_spec c newline) as [->|]; [|done]. by destruct Hh.
Qed.

Lemma trim_right_last c s : trim_right_byte c (s +:+ String c "") = trim_right_byte c s.
Proof.
  induction s as [|d s IH]; [rewrite append_nil_l; cbn; by rewrite Ascii.eqb_refl|].
  rewrite append_cons_l. cbn. by rewrite IH.
Qed.

Lemma trim_left_first c s : trim_left_byte c (String c s) = trim_left_byte c s.
Proof. cbn. by rewrite Ascii.eqb_refl. Qed.

Lemma neat_left s r : neat s -> s <> "" -> trim_left_byte newline (s +:+ r) = s +:+ r.
Proof.
  intros Hs Hne. destruct (neat_trim s Hs) as [H _]. destruct s as [|c s]; [done|]. cbn in H |- *.
  destruct (Ascii.eqb c newline) eqn:E; [|by rewrite append_cons_l; cbn; rewrite E].
  exfalso. apply (f_equal String.length) in H. cbn in H.
  assert (forall x, (String.length (trim_left_byte newline x) <= String.length x)%nat) as Hle.
  { clear. induction x as [|d x IH]; cbn; [lia|]. case_match; cbn; lia. }
  specialize (Hle s). lia.
Qed.

Lemma neat_between s : neat s -> trim_byte newline (nl +:+ s +:+ nl) = s.
Proof.
  intros Hs. unfold trim_byte. change (nl +:+ s +:+ nl) with (String newline (s +:+ nl)). rewrite trim_left_first.
  destruct (decide (s = "")) as [->|Hne]; [done|]. rewrite (neat_left s nl Hs Hne). unfold nl.
  rewrite trim_right_last. by apply neat_trim.
Qed.

Lemma neat_map f s : neat s -> (forall l, no_newline l -> no_newline (f l)) -> (forall l, f l = "" -> l = "") ->
  f "" = "" -> neat (mapLines f s).
Proof.
  intros [->|[Hh Hl]] Hf Hn He; [left; unfold mapLines, text_of; cbn; by rewrite He|].
  right. rewrite (lines_mapLines f s Hf). change (map f (lines_of s)) with (f <$> lines_of s).
  rewrite fmap_last. split.
  - destruct (lines_of s) as [|l ls]; [done|]. cbn in Hh |- *. intros [= H%Hn]. by rewrite H in Hh.
  - destruct (last (lines_of s)) as [l|]; [|done]. cbn. intros [= H%Hn]. by rewrite H in Hl.
Qed.

(** ** Escapes *)

Lemma trim_right_byte_head c d s s' : c <> d -> trim_right_byte c (String d s) = s' ->
  exists r, s' = String d r.
Proof.
  intros Hne <-. cbn. destruct (trim_right_byte c s); [|eauto].
  destruct (Ascii.eqb_spec d c); [congruence|eauto].
Qed.

(** A structural line starts with #. *)
Lemma structural_head l : isStructural l = true -> exists r, l = String "#"%char r.
Proof.
  intros H. destruct l as [|c l].
  { unfold isStructural, is_heading, is_header, commentHeaderAt, match_header in H. by vm_compute in H. }
  destruct (decide (c = "#"%char)) as [->|Hc]; [by eexists|]. exfalso.
  assert (Ht : forall s', trim_right_byte " " (String c l) = String "#"%char s' -> False).
  { intros s' E. destruct (decide (c = " "%char)) as [->|Hs].
    - cbn in E. destruct (trim_right_byte " " l); [by destruct (Ascii.eqb " " " ")|congruence].
    - destruct (trim_right_byte_head " "%char c l _ ltac:(congruence) E) as [r Hr]. congruence. }
  unfold isStructural in H. apply orb_true_iff in H as [H|H].
  - apply String.eqb_eq in H. by apply (Ht "# Comments").
  - apply bool_decide_eq_true in H as [x Hx]. unfold commentHeaderAt, match_header in Hx.
    destruct (trim_right_byte " " (String c l)) as [|d s'] eqn:E; [done|].
    cbn [cut_prefix] in Hx. destruct (Ascii.eqb_spec "#" d) as [<-|]; [by apply (Ht s')|done].
Qed.

Lemma structural_bare l : isStructural l = true -> trim_left_byte backslash l = l.
Proof. intros [r ->]%structural_head. done. Qed.

Lemma escaped_plain l : isStructural (escape_line l) = false.
Proof.
  unfold escape_line. destruct (isStructural (trim_left_byte backslash l)) eqn:E.
  - destruct (isStructural (String backslash l)) eqn:E2; [|done]. by apply structural_head in E2 as [r ?].
  - destruct (isStructural l) eqn:E2; [|done]. by rewrite structural_bare, E2 in E.
Qed.

Lemma unescape_escape_line l : unescape_line (escape_line l) = l.
Proof.
  unfold escape_line. destruct (isStructural (trim_left_byte backslash l)) eqn:E.
  - unfold unescape_line, is_escaped. rewrite trim_left_first, Ascii.eqb_refl, E. done.
  - destruct l as [|c l]; [done|]. unfold unescape_line, is_escaped. rewrite E. by rewrite andb_false_r.
Qed.

Lemma unescape_plain_line l : is_escaped l = false -> unescape_line l = l.
Proof. intros H. destruct l; [done|]. unfold unescape_line. by rewrite H. Qed.

Lemma escape_no_newline l : no_newline l -> no_newline (escape_line l).
Proof. unfold escape_line. case_match; [|done]. done. Qed.

Lemma unescape_escape s : unescapeStructure (escapeStructure s) = s.
Proof.
  unfold unescapeStructure, escapeStructure. unfold mapLines at 1.
  rewrite lines_mapLines by apply escape_no_newline. rewrite map_map.
  rewrite <- (text_lines s) at 2. f_equal. rewrite <- (map_id (lines_of s)) at 2.
  apply map_ext. apply unescape_escape_line.
Qed.

Lemma escape_neat s : neat s -> neat (escapeStructure s).
Proof.
  intros H. apply neat_map; [done|apply escape_no_newline| |done].
  intros l. unfold escape_line. by case_match.
Qed.

Lemma escaped_lines s : Forall (fun l => isStructural l = false) (lines_of (escapeStructure s)).
Proof.
  unfold escapeStructure. rewrite lines_mapLines by apply escape_no_newline.
  apply Forall_fmap, Forall_true. apply escaped_plain.
Qed.

Lemma plain_line l : isStructural l = false -> is_heading l = false /\ commentHeaderAt l = None.
Proof.
  unfold isStructural. intros [H1 H2]%orb_false_iff. split; [done|].
  apply bool_decide_eq_false in H2. by apply eq_None_not_Some.
Qed.

(** A header is no heading. *)
Lemma header_no_heading l : is_header l = true -> is_heading l = false.
Proof.
  unfold is_header, is_heading, commentHeaderAt. intros [x Hx]%bool_decide_eq_true.
  destruct (String.eqb_spec (trim_right_byte " " l) commentsHeading) as [E|]; [|done].
  by rewrite E in Hx.
Qed.

(** ** Headers *)

(** All bytes satisfy [p]. *)
Fixpoint all_bytes (p : ascii -> bool) (s : string) : bool :=
  match s with EmptyString => true | String c s => p c && all_bytes p s end.

Lemma all_bytes_app p a b : all_bytes p (a +:+ b) = all_bytes p a && all_bytes p b.
Proof. induction a as [|c a IH]; [done|]. rewrite append_cons_l. cbn. by rewrite IH, andb_assoc. Qed.

Lemma all_bytes_free p c s : all_bytes p s = true -> p c = false -> contains_byte c s = false.
Proof.
  intros H Hc. induction s as [|d s IH]; [done|]. cbn in H |- *. apply andb_true_iff in H as [Hd Hs].
  rewrite (IH Hs). destruct (Ascii.eqb_spec c d) as [->|]; [congruence|done].
Qed.

(** The bytes of a printed time. *)
Definition time_byte (c : ascii) : bool :=
  let n := N_of_ascii c in ((45 <=? n) && (n <=? 90))%N.

Lemma digit_time_byte d : 0 <= d <= 9 -> time_byte (digit d) = true.
Proof.
  intros H. assert (d = 0 \/ d = 1 \/ d = 2 \/ d = 3 \/ d = 4 \/ d = 5 \/ d = 6 \/ d = 7 \/ d = 8 \/ d = 9) as Hc by lia.
  repeat (destruct Hc as [->|Hc]; [reflexivity|]). by subst d.
Qed.

Lemma width_time_bytes w z : 0 <= z < 10 ^ Z.of_nat w -> all_bytes time_byte (format_width w z) = true.
Proof.
  intros H. unfold format_width. destruct (Z.ltb_spec z 0); [lia|]. destruct (Z.ltb_spec z (10 ^ Z.of_nat w)); [|lia].
  clear. revert z. induction w as [|w IH]; intros z; [done|]. cbn [last_digits]. rewrite all_bytes_app, IH.
  cbn. rewrite digit_time_byte; [done|]. pose proof (Z.mod_pos_bound z 10). lia.
Qed.

Lemma time_bytes t : whole_seconds t -> all_bytes time_byte (FormatRFC3339 t) = true.
Proof.
  intros [Hr Hs]. unfold year_10000 in Hr. unfold FormatRFC3339. cbn zeta.
  assert (Hb : 0 <= t / Second < 3652059 * 86400).
  { unfold Second, Millisecond in *. clear Hs. Z.to_euclidean_division_equations. lia. }
  set (secs := t / Second) in *. clearbody secs. pose proof (civil_of_days_spec (secs / 86400)) as Hc.
  destruct (civil_of_days (secs / 86400)) as [[y m] d].
  destruct Hc as (_ & Hm & Hd & Hy); [Z.to_euclidean_division_equations; lia|].
  assert (Hd31 : daysIn m y <= 31) by (unfold daysIn; repeat case_match; lia).
  pose proof (Z.mod_pos_bound secs 86400 ltac:(lia)) as Hsec. set (s := secs mod 86400) in *. clearbody s.
  assert (Hh : 0 <= s / 3600 <= 23) by (clear -Hsec; Z.to_euclidean_division_equations; lia).
  pose proof (Z.mod_pos_bound (s / 60) 60 ltac:(lia)). pose proof (Z.mod_pos_bound s 60 ltac:(lia)).
  rewrite !all_bytes_app, !width_time_bytes by lia. done.
Qed.

Lemma token_read a c r :
  all_bytes time_byte a = true -> re_space c = true -> token (a +:+ String c r) = (a, String c r).
Proof.
  intros Ha Hc. induction a as [|d a IH]; [rewrite append_nil_l; cbn [token]; by rewrite Hc|].
  rewrite append_cons_l. cbn in Ha. apply andb_true_iff in Ha as [Hd Ha]. cbn [token]. rewrite IH by done.
  destruct (re_space d) eqn:E; [|done].
  unfold re_space in E. apply existsb_exists in E as (x & Hx & Heq%Ascii.eqb_eq). subst x. cbn in Hx.
  repeat (destruct Hx as [<-|Hx]; [by vm_compute in Hd|]). destruct Hx.
Qed.

Lemma cut_prefix_app p s : cut_prefix (p +:+ s) p = Some s.
Proof. induction p as [|c p IH]; [by destruct s|]. rewrite append_cons_l. cbn. by rewrite Ascii.eqb_refl. Qed.

(** The author of a comment as it is written. *)
Definition author_ok (a : string) : Prop := trim_space a = a /\ no_newline a.

Lemma one_line_id s : no_newline s -> one_line s = s.
Proof.
  unfold no_newline. induction s as [|c s IH]; [done|]. cbn. intros [Hc Hs]%orb_false_iff. rewrite (IH Hs).
  destruct (Ascii.eqb_spec c newline) as [->|]; [discriminate Hc|done].
Qed.

Lemma trim_right_byte_app c p a : trim_right_byte c a <> "" -> trim_right_byte c (p +:+ a) = p +:+ trim_right_byte c a.
Proof.
  intros Ha. induction p as [|d p IH]; [done|]. rewrite !append_cons_l. cbn. rewrite IH.
  by destruct p, (trim_right_byte c a).
Qed.

(** White space trimmed at the right leaves no blank there. *)
Lemma trimmed_no_blank a : trim_right a = a -> trim_right_byte " " a = a.
Proof.
  induction a as [|c a IH]; [done|]. cbn. destruct (trim_right a) as [|d r] eqn:E.
  - destruct (is_space c) eqn:Es; [done|]. intros [= <-]. cbn.
    destruct (Ascii.eqb_spec c " ") as [->|]; [by vm_compute in Es|done].
  - intros [= <-]. rewrite IH by done. done.
Qed.

Lemma trim_space_right a : trim_space a = a -> trim_right a = a.
Proof.
  unfold trim_space. intros H. assert (Hl : trim_left a = a); [|by rewrite Hl in H].
  destruct a as [|c a]; [done|]. cbn in H |- *. destruct (is_space c) eqn:E; [|done]. exfalso.
  destruct (trim_right_prefix (trim_left a)) as [b Hb]. destruct (trim_left_suffix a) as [x Hx].
  rewrite H in Hb. apply (f_equal String.length) in Hb, Hx. rewrite !length_app_string in Hb, Hx. cbn in Hb. lia.
Qed.

Definition comment_ok (c : fileComment) : Prop :=
  whole_seconds (fc_At c) /\ author_ok (fc_Author c) /\ neat (fc_Body c).

Lemma header_read c : comment_ok c ->
  commentHeaderAt (comment_header c) = Some (MkFileComment (fc_At c) (fc_Author c) "").
Proof.
  intros (Ht & [Ha Hn] & _). unfold commentHeaderAt, comment_header. rewrite one_line_id, Ha by done.
  assert (Hm : forall rest, rest = "" \/ (exists r, rest = String " " r) ->
    match_header ("### " +:+ FormatRFC3339 (fc_At c) +:+ " " +:+ em_dash +:+ rest) =
      Some (FormatRFC3339 (fc_At c), match rest with String _ r => r | _ => "" end)).
  { intros rest Hrest. unfold match_header. rewrite cut_prefix_app. cbn [mbind option_bind].
    rewrite (append_cons_l " "%char), append_nil_l.
    rewrite token_read; [|by apply time_bytes|done].
    assert (Hne : String.eqb (FormatRFC3339 (fc_At c)) "" = false).
    { destruct (FormatRFC3339 (fc_At c)) eqn:E; [|done]. pose proof (rfc3339_roundtrip _ Ht) as Hp. by rewrite E in Hp. }
    rewrite Hne. change (String " " (em_dash +:+ rest)) with ((" " +:+ em_dash) +:+ rest). rewrite cut_prefix_app.
    cbn [mbind option_bind]. by destruct Hrest as [->|[r ->]]. }
  assert (Hl : trim_right_byte " " ("### " +:+ FormatRFC3339 (fc_At c) +:+ " " +:+ em_dash +:+ " " +:+ fc_Author c) =
    "### " +:+ FormatRFC3339 (fc_At c) +:+ " " +:+ em_dash +:+ (if String.eqb (fc_Author c) "" then "" else " " +:+ fc_Author c)).
  { rewrite <- !append_assoc. destruct (String.eqb_spec (fc_Author c) "") as [->|Hne].
    - rewrite append_nil_r. change (" " : string) with (String " " "") at 3. rewrite trim_right_last, append_nil_r.
      rewrite trim_right_byte_app; [done|]. by vm_compute.
    - rewrite trim_right_byte_app; rewrite trimmed_no_blank by (by apply trim_space_right); [by rewrite <- !append_assoc|done]. }
  rewrite Hl, Hm by (destruct (String.eqb (fc_Author c) ""); [by left|right; by eexists]).
  cbn [mbind option_bind]. rewrite rfc3339_roundtrip by done. cbn [mbind option_bind]. do 2 f_equal.
  destruct (String.eqb_spec (fc_Author c) "") as [->|]; [done|]. exact Ha.
Qed.

(** ** The comment section *)

(** The lines of the comments as they are written, and those after them. *)
Fixpoint comment_lines (comments : list fileComment) : list string :=
  match comments with
  | [] => [""]
  | c :: rest => "" :: comment_header c :: "" :: lines_of (escapeStructure (fc_Body c)) ++ comment_lines rest
  end.

Definition section_lines (preamble : string) (comments : list fileComment) : list string :=
  (if String.eqb preamble "" then [] else "" :: lines_of (escapeStructure preamble)) ++ comment_lines comments.

Lemma header_no_newline c : comment_ok c -> no_newline (comment_header c).
Proof.
  intros (Ht & [Ha Hn] & _). unfold no_newline, comment_header. rewrite one_line_id, Ha by done.
  assert (Hf : contains_byte newline (FormatRFC3339 (fc_At c)) = false)
    by (apply (all_bytes_free time_byte); [by apply time_bytes|done]).
  rewrite !contains_byte_app, Hf, Hn. done.
Qed.

Lemma comment_lines_text comments :
  Forall comment_ok comments ->
  lines_of (foldr (fun c s => comment_text c +:+ s) "" comments) = comment_lines comments.
Proof.
  induction 1 as [|c comments Hc _ IH]; [done|]. cbn [foldr comment_lines].
  set (rest := foldr _ "" comments) in *. unfold comment_text.
  rewrite !append_assoc, lines_of_newline, lines_of_app, line_alone by (by apply header_no_newline).
  rewrite lines_of_newline, lines_of_app, IH. done.
Qed.

Lemma section_text preamble comments :
  Forall comment_ok comments ->
  lines_of ((if String.eqb preamble "" then "" else nl +:+ escapeStructure preamble +:+ nl)
            +:+ foldr (fun c s => comment_text c +:+ s) "" comments) = section_lines preamble comments.
Proof.
  intros H. unfold section_lines. destruct (String.eqb preamble "").
  - rewrite append_nil_l. by apply comment_lines_text.
  - rewrite !append_assoc, lines_of_newline, lines_of_app, comment_lines_text by done. done.
Qed.

(** Lines without a heading: the scan only notes whether it saw a header. *)
Lemma scan_past ls b rest :
  Forall (fun l => is_heading l = false) ls ->
  section_start_from b (rev ls ++ rest) = section_start_from (b || existsb is_header ls) rest.
Proof.
  intros H. revert b rest. induction H as [|l ls Hl _ IH]; intros b rest; [cbn; by rewrite orb_false_r|].
  cbn [rev existsb]. rewrite <- app_assoc, IH. cbn [app section_start_from]. rewrite Hl, andb_false_r.
  destruct (is_header l); [by rewrite !orb_true_r|]. done.
Qed.

Lemma escaped_no_heading s : Forall (fun l => is_heading l = false) (lines_of (escapeStructure s)).
Proof. eapply Forall_impl; [apply escaped_lines|]. intros l Hl. by apply plain_line. Qed.

Lemma header_is c : comment_ok c -> is_header (comment_header c) = true.
Proof. intros H. unfold is_header. apply bool_decide_eq_true. rewrite header_read by done. by eexists. Qed.

Lemma comment_lines_no_heading comments :
  Forall comment_ok comments -> Forall (fun l => is_heading l = false) (comment_lines comments).
Proof.
  induction 1 as [|c comments Hc _ IH]; cbn [comment_lines]; [by repeat constructor|].
  do 3 (constructor; [first [done|by apply header_no_heading, header_is]|]).
  apply Forall_app. split; [apply escaped_no_heading|exact IH].
Qed.

Lemma section_no_heading preamble comments :
  Forall comment_ok comments -> Forall (fun l => is_heading l = false) (section_lines preamble comments).
Proof.
  intros H. unfold section_lines. apply Forall_app. split; [|by apply comment_lines_no_heading].
  destruct (String.eqb preamble ""); [done|]. constructor; [done|apply escaped_no_heading].
Qed.

Lemma section_has_header preamble c comments :
  comment_ok c -> existsb is_header (section_lines preamble (c :: comments)) = true.
Proof.
  intros H. unfold section_lines. rewrite existsb_app. cbn [comment_lines existsb]. rewrite header_is by done.
  by rewrite !orb_true_r.
Qed.

(** The section is found where it was written. *)
Lemma section_found before preamble c comments :
  Forall comment_ok (c :: comments) ->
  commentSectionStart (before ++ commentsHeading :: section_lines preamble (c :: comments)) = Some (length before).
Proof.
  intros H. unfold commentSectionStart. rewrite rev_app_distr. cbn [rev]. rewrite <- app_assoc.
  rewrite scan_past by (by apply section_no_heading). rewrite section_has_header by (by apply Forall_cons in H as [? _]).
  cbn [orb app section_start_from]. change (is_header commentsHeading) with false.
  change (is_heading commentsHeading) with true. cbn [andb]. by rewrite length_rev.
Qed.

(** ** The walk *)

Lemma walk_plain ls k :
  Forall (fun l => isStructural l = false) ls ->
  foldl walk_line k ls = MkWalk (wk_cur k) (wk_buf k ++ ls) (wk_preamble k) (wk_comments k).
Proof.
  intros H. revert k. induction H as [|l ls Hl _ IH]; intros k; cbn [foldl].
  - rewrite app_nil_r. by destruct k.
  - unfold walk_line at 2. destruct (plain_line l Hl) as [_ ->]. rewrite IH. cbn. by rewrite <- app_assoc.
Qed.

(** Lines of a neat text between blank ones give the text back. *)
Lemma flush_text s : neat s ->
  unescapeStructure (trim_byte newline (text_of ("" :: lines_of (escapeStructure s) ++ [""]))) = s.
Proof.
  intros Hs. rewrite text_of_cons by (destruct (lines_of (escapeStructure s)); done).
  rewrite text_of_app by (apply lines_of_ne || done). rewrite text_lines, append_nil_l.
  change (text_of [""]) with "". rewrite append_nil_r, neat_between by (by apply escape_neat).
  apply unescape_escape.
Qed.

Definition closed (c : fileComment) (k : Walk) (ls : list string) : Walk :=
  flush (MkWalk (wk_cur k) (wk_buf k ++ ls) (wk_preamble k) (wk_comments k)).

Lemma walk_header c k : comment_ok c ->
  walk_line k (comment_header c) =
    MkWalk (Some (MkFileComment (fc_At c) (fc_Author c) "")) (wk_buf (flush k)) (wk_preamble (flush k)) (wk_comments (flush k)).
Proof. intros H. unfold walk_line. by rewrite header_read. Qed.

Lemma flush_buf k : wk_buf (flush k) = [].
Proof. unfold flush. by destruct (wk_cur k). Qed.

Lemma foldl_one {A B} (f : A -> B -> A) k x : foldl f k [x] = f k x.
Proof. done. Qed.

(** In a comment, with the blank line and the lines of its text behind. *)
Definition inside (x : fileComment) (pre : string) (done_ : list fileComment) : Walk :=
  MkWalk (Some (MkFileComment (fc_At x) (fc_Author x) "")) ("" :: lines_of (escapeStructure (fc_Body x))) pre done_.

(** The header of a comment and its text, from a walk whose text is complete
    but for the blank line that ends it. *)
Lemma walk_comment c k :
  comment_ok c ->
  foldl walk_line k ("" :: comment_header c :: "" :: lines_of (escapeStructure (fc_Body c))) =
  let k := flush (MkWalk (wk_cur k) (wk_buf k ++ [""]) (wk_preamble k) (wk_comments k)) in
  inside c (wk_preamble k) (wk_comments k).
Proof.
  intros Hc. change ("" :: comment_header c :: "" :: lines_of (escapeStructure (fc_Body c)))
    with ([""] ++ [comment_header c] ++ ("" :: lines_of (escapeStructure (fc_Body c)))).
  rewrite !foldl_app. rewrite (walk_plain [""]) by (by repeat constructor).
  rewrite foldl_one, walk_header by done. rewrite flush_buf, walk_plain; [done|].
  constructor; [done|apply escaped_lines].
Qed.

Lemma flush_inside x pre done_ :
  comment_ok x ->
  let k := inside x pre done_ in
  let k := flush (MkWalk (wk_cur k) (wk_buf k ++ [""]) (wk_preamble k) (wk_comments k)) in
  wk_preamble k = pre /\ wk_comments k = done_ ++ [x].
Proof.
  intros Hx. unfold flush. cbn [inside wk_cur wk_buf wk_preamble wk_comments fc_At fc_Author app].
  rewrite flush_text by apply Hx. by destruct x.
Qed.

Lemma walk_comments_in comments x pre done_ :
  Forall comment_ok comments -> comment_ok x ->
  let k := flush (foldl walk_line (inside x pre done_) (comment_lines comments)) in
  wk_preamble k = pre /\ wk_comments k = done_ ++ x :: comments.
Proof.
  intros H. revert x done_. induction H as [|c comments Hc _ IH]; intros x done_ Hx; cbn [comment_lines].
  - rewrite (walk_plain [""]) by (by repeat constructor). by apply flush_inside.
  - change ("" :: comment_header c :: "" :: lines_of (escapeStructure (fc_Body c)) ++ comment_lines comments)
      with (("" :: comment_header c :: "" :: lines_of (escapeStructure (fc_Body c))) ++ comment_lines comments).
    rewrite foldl_app, walk_comment by done. cbn zeta.
    destruct (flush_inside x pre done_ Hx) as [H1 H2]. cbn zeta in H1, H2. rewrite H1, H2.
    destruct (IH c (done_ ++ [x]) Hc) as [H3 H4]. split; [exact H3|]. rewrite H4. by rewrite <- app_assoc.
Qed.

Lemma walk_section preamble c comments :
  Forall comment_ok (c :: comments) -> neat preamble ->
  let k := flush (foldl walk_line (MkWalk None [] "" []) (section_lines preamble (c :: comments))) in
  wk_preamble k = preamble /\ wk_comments k = c :: comments.
Proof.
  intros [Hc Hcs]%Forall_cons Hp. unfold section_lines. cbn [comment_lines].
  assert (Hpre : exists buf, foldl walk_line (MkWalk None [] "" [])
      ((if String.eqb preamble "" then [] else "" :: lines_of (escapeStructure preamble)) ++ [""]) = MkWalk None buf "" [] /\
      unescapeStructure (trim_byte newline (text_of buf)) = preamble).
  { destruct (String.eqb_spec preamble "") as [->|Hne].
    - by exists [""].
    - rewrite walk_plain.
      + eexists. split; [reflexivity|]. cbn [wk_buf app]. by apply flush_text.
      + apply Forall_app. split; [constructor; [done|apply escaped_lines]|by repeat constructor]. }
  destruct Hpre as (buf & Hb & Ht).
  set (P := if String.eqb preamble "" then [] else _) in *.
  change (P ++ "" :: comment_header c :: "" :: lines_of (escapeStructure (fc_Body c)) ++ comment_lines comments)
    with (P ++ ("" :: comment_header c :: "" :: lines_of (escapeStructure (fc_Body c))) ++ comment_lines comments).
  rewrite !foldl_app, walk_comment by done. cbn zeta.
  set (k0 := foldl walk_line _ P) in *.
  assert (Hk : MkWalk (wk_cur k0) (wk_buf k0 ++ [""]) (wk_preamble k0) (wk_comments k0) = MkWalk None buf "" []).
  { rewrite <- Hb, foldl_app. fold k0. by rewrite (walk_plain [""]) by (by repeat constructor). }
  assert (Hf : flush (MkWalk None buf "" []) = MkWalk None [] preamble [])
    by (unfold flush; cbn [wk_cur wk_buf wk_comments]; by rewrite Ht).
  rewrite Hk, Hf. by apply walk_comments_in.
Qed.

(** ** The text below the front matter *)

(** The texts have no blank line at either end, and a preamble has comments
    after it. *)
Record body_ok (f : issueFile) : Prop := {
  bo_body : neat (if_Body f);
  bo_preamble : neat (if_CommentsPreamble f);
  bo_comments : Forall comment_ok (if_Comments f);
  bo_alone : if_Comments f = [] -> if_CommentsPreamble f = "";
}.

Lemma description_neat s b : neat s -> neat (descriptionText s b).
Proof. intros H. unfold descriptionText. cbn zeta. case_match; [by apply escape_neat|done]. Qed.

Lemma description_read s b : unescapeStructure (descriptionText s b) = s.
Proof.
  unfold descriptionText. cbn zeta. destruct (_ || _) eqn:E; [apply unescape_escape|].
  apply orb_false_iff in E as [_ E]. apply mapLines_id. intros l Hl. apply unescape_plain_line.
  destruct (is_escaped l) eqn:El; [|done]. rewrite <- E. symmetry. apply existsb_exists. exists l.
  by rewrite <- list_elem_of_In.
Qed.

Lemma description_empty s b : descriptionText s b = "" -> s = "".
Proof. intros H. rewrite <- (description_read s b), H. done. Qed.

(** Without comments the text has no section of its own. *)
Lemma scan_plain ls b :
  Forall (fun l => isStructural l = false) ls -> section_start_from b ls = None.
Proof.
  intros H. revert b. induction H as [|l ls Hl _ IH]; intros b; [done|]. cbn.
  unfold isStructural in Hl. apply orb_false_iff in Hl as [-> ->]. rewrite andb_false_r. apply IH.
Qed.

Lemma description_no_section s : commentSectionStart (lines_of (descriptionText s false) ++ [""]) = None.
Proof.
  unfold commentSectionStart. rewrite rev_app_distr. cbn [rev app section_start_from].
  change (is_header "") with false. cbn [andb]. fold (commentSectionStart (lines_of (descriptionText s false))).
  unfold descriptionText. cbn zeta. destruct (_ || _) eqn:E.
  - apply scan_plain, Forall_rev, escaped_lines.
  - apply orb_false_iff in E as [E _]. rewrite andb_true_r in E. apply bool_decide_eq_false in E.
    by apply eq_None_not_Some.
Qed.

Lemma split_found before preamble c comments text :
  lines_of text = before ++ commentsHeading :: section_lines preamble (c :: comments) ->
  Forall comment_ok (c :: comments) -> neat preamble ->
  splitComments text =
    (unescapeStructure (trim_right_byte newline (text_of before)), preamble, c :: comments).
Proof.
  intros Hl Hc Hp. unfold splitComments. rewrite Hl, section_found by done. cbn zeta.
  rewrite firstn_app, firstn_all, Nat.sub_diag. cbn [firstn]. rewrite app_nil_r.
  replace (skipn (S (length before)) _) with (section_lines preamble (c :: comments)).
  2: { rewrite skipn_app. rewrite (skipn_all2 before) by lia. by replace (S (length before) - length before)%nat with 1%nat by lia. }
  destruct (walk_section preamble c comments Hc Hp) as [H1 H2]. cbn zeta in H1, H2. by rewrite H1, H2.
Qed.

Lemma text_nil : text_of [] = "".
Proof. done. Qed.

Lemma body_roundtrip f : body_ok f ->
  splitComments (trim_left_byte newline (body_text f)) = (if_Body f, if_CommentsPreamble f, if_Comments f).
Proof.
  intros [Hb Hp Hc Ha]. unfold body_text. destruct (if_Comments f) as [|c comments] eqn:Ec.
  - rewrite append_nil_r, (Ha eq_refl). change (negb (bool_decide (@nil fileComment = []))) with false.
    destruct (String.eqb_spec (if_Body f) "") as [->|Hne]; [done|].
    set (D := descriptionText (if_Body f) false).
    assert (HD : neat D) by (by apply description_neat).
    assert (HDne : D <> "") by (intros H; by apply description_empty in H).
    change (nl +:+ D +:+ nl) with (String newline (D +:+ nl)). rewrite trim_left_first, neat_left by done.
    unfold splitComments. rewrite <- (append_nil_r nl), lines_of_app. change (lines_of "") with [""].
    pose proof (description_no_section (if_Body f)) as Hsec. fold D in Hsec. rewrite Hsec, append_nil_r. unfold nl. rewrite trim_right_last.
    destruct (neat_trim D HD) as [_ ->]. unfold D. by rewrite description_read.
  - change (negb (bool_decide (c :: comments = []))) with true.
    set (S0 := (if String.eqb (if_CommentsPreamble f) "" then _ else _) +:+ foldr _ "" (c :: comments)).
    assert (HS : lines_of S0 = section_lines (if_CommentsPreamble f) (c :: comments)) by (by apply section_text).
    destruct (String.eqb_spec (if_Body f) "") as [->|Hne].
    + rewrite append_nil_l. change (nl +:+ commentsHeading +:+ nl +:+ S0) with (String newline (commentsHeading +:+ nl +:+ S0)).
      rewrite trim_left_first. change (trim_left_byte newline (commentsHeading +:+ nl +:+ S0)) with (commentsHeading +:+ nl +:+ S0).
      rewrite (split_found [] (if_CommentsPreamble f) c comments); [done| |done|done].
      rewrite lines_of_app, HS. done.
    + set (D := descriptionText (if_Body f) true).
      assert (HD : neat D) by (by apply description_neat).
      assert (HDne : D <> "") by (intros H; by apply description_empty in H).
      rewrite !append_assoc. change (nl +:+ D +:+ ?x) with (String newline (D +:+ x)).
      rewrite trim_left_first, neat_left by done.
      rewrite (split_found (lines_of D ++ [""]) (if_CommentsPreamble f) c comments); [| |done|done].
      * rewrite text_of_app by (apply lines_of_ne || done). rewrite text_lines.
        change (text_of [""]) with "". rewrite append_nil_r. unfold nl. rewrite trim_right_last.
        destruct (neat_trim D HD) as [_ ->]. unfold D. by rewrite description_read.
      * rewrite lines_of_app, lines_of_newline, lines_of_app, HS. cbn. by rewrite <- app_assoc.
Qed.

(** ** No carriage returns *)

Definition no_cr (s : string) : Prop := contains_byte carriage_return s = false.

Lemma no_cr_app a b : no_cr (a +:+ b) <-> no_cr a /\ no_cr b.
Proof. unfold no_cr. rewrite contains_byte_app, orb_false_iff. done. Qed.

Lemma replace_crlf_id s : no_cr s -> replace_crlf s = s.
Proof.
  unfold no_cr. induction s as [|a s IH]; [done|]. cbn [contains_byte]. intros [Ha Hs]%orb_false_iff.
  specialize (IH Hs). destruct s as [|b s]; [done|]. cbn [replace_crlf] in IH |- *.
  destruct (Ascii.eqb_spec a carriage_return) as [->|]; [by rewrite Ascii.eqb_refl in Ha|]. cbn [andb]. by rewrite IH.
Qed.

Lemma no_cr_lines s : no_cr s <-> Forall no_cr (lines_of s).
Proof.
  induction s as [|c s IH]; [split; [by repeat constructor|done]|].
  destruct (decide (c = newline)) as [->|Hc].
  - change (lines_of (String newline s)) with ("" :: lines_of s). rewrite Forall_cons, <- IH. unfold no_cr. cbn. naive_solver.
  - destruct (lines_of_cons c s Hc) as (w & ws & H1 & ->). rewrite H1 in IH.
    rewrite Forall_cons in IH |- *. unfold no_cr in *. cbn [contains_byte]. rewrite !orb_false_iff. naive_solver.
Qed.

Lemma no_cr_map f s : (forall l, no_newline l -> no_newline (f l)) -> (forall l, no_cr l -> no_cr (f l)) ->
  no_cr s -> no_cr (mapLines f s).
Proof.
  intros Hn Hf. rewrite !no_cr_lines, (lines_mapLines f s Hn), Forall_fmap. intros H.
  eapply Forall_impl; [exact H|exact Hf].
Qed.

Lemma escape_no_cr s : no_cr s -> no_cr (escapeStructure s).
Proof. apply no_cr_map; [apply escape_no_newline|]. intros l. unfold escape_line. by case_match. Qed.

Lemma description_no_cr s b : no_cr s -> no_cr (descriptionText s b).
Proof. intros H. unfold descriptionText. cbn zeta. case_match; [by apply escape_no_cr|done]. Qed.

(** The texts of a file. *)
Record clean (f : issueFile) : Prop := {
  cl_body : no_cr (if_Body f);
  cl_preamble : no_cr (if_CommentsPreamble f);
  cl_comments : Forall (fun c => no_cr (fc_Author c) /\ no_cr (fc_Body c)) (if_Comments f);
}.

Lemma comment_no_cr c : comment_ok c -> no_cr (fc_Author c) -> no_cr (fc_Body c) -> no_cr (comment_text c).
Proof.
  intros (Ht & [Ha Hn] & _) H1 H2. unfold comment_text, comment_header. rewrite one_line_id, Ha by done.
  rewrite !no_cr_app. split_and!; try done; [|by apply escape_no_cr].
  apply (all_bytes_free time_byte); [by apply time_bytes|done].
Qed.

Lemma body_text_no_cr f : body_ok f -> clean f -> no_cr (body_text f).
Proof.
  intros Hb [H1 H2 H3]. unfold body_text. apply no_cr_app. split.
  { case_match; [done|]. rewrite !no_cr_app. split_and!; [done|by apply description_no_cr|done]. }
  pose proof (bo_comments f Hb) as Hc. destruct (if_Comments f) as [|c0 comments]; [done|].
  rewrite !no_cr_app. split_and!; [done..| |].
  - case_match; [done|]. rewrite !no_cr_app. split_and!; [done|by apply escape_no_cr|done].
  - clear Hb. induction H3 as [|c cs [Ha Hbd] _ IH]; [done|]. apply Forall_cons in Hc as [Hc Hcs].
    cbn [foldr]. apply no_cr_app. split; [by apply comment_no_cr|by apply IH].
Qed.

(** ** Front matter *)

Lemma prefix_app_short a b p : (String.length p <= String.length a)%nat -> has_prefix (a +:+ b) p = has_prefix a p.
Proof.
  unfold has_prefix. revert a. induction p as [|c p IH]; intros a Hl.
  { by destruct (a +:+ b), a. }
  destruct a as [|d a]; [cbn in Hl; lia|]. rewrite append_cons_l. cbn. cbn in Hl.
  destruct (ascii_dec c d); [|done]. apply IH. lia.
Qed.

Lemma cut_prefix_none s p : has_prefix s p = false -> cut_prefix s p = None.
Proof.
  unfold has_prefix. revert s. induction p as [|c p IH]; intros s H; [by destruct s|].
  destruct s as [|d s]; [done|]. cbn in H |- *. destruct (ascii_dec c d) as [->|Hne].
  - rewrite Ascii.eqb_refl. by apply IH.
  - destruct (Ascii.eqb_spec c d); [congruence|done].
Qed.

Lemma cut_string_here sep s after : cut_prefix s sep = Some after -> cut_string sep s = Some ("", after).
Proof. intros H. destruct s; cbn [cut_string]; by rewrite H. Qed.

(** The first separator is the one between [a] and [b], if [a] with the
    separator's own start holds none. *)
Lemma cut_string_first a sep c b :
  contains (a +:+ sep) (sep +:+ String c "") = false ->
  cut_string (sep +:+ String c "") (a +:+ (sep +:+ String c "") +:+ b) = Some (a, b).
Proof.
  intros H. induction a as [|d a IH].
  - rewrite append_nil_l. apply cut_string_here, cut_prefix_app.
  - rewrite append_cons_l in H |- *. cbn [contains] in H. apply orb_false_iff in H as [Hp Hc].
    cbn [cut_string]. rewrite cut_prefix_none.
    + rewrite IH by done. done.
    + rewrite <- Hp. change (String d (a +:+ (sep +:+ String c "") +:+ b)) with (String d a +:+ (sep +:+ String c "") +:+ b).
      change (String d (a +:+ sep)) with (String d a +:+ sep).
      replace (String d a +:+ (sep +:+ String c "") +:+ b) with ((String d a +:+ sep) +:+ String c b) by (by rewrite !append_assoc).
      apply prefix_app_short. rewrite !length_app_string. cbn. lia.
Qed.

Lemma cut_front_read front body :
  contains (front +:+ nl +:+ front_line) (nl +:+ front_line +:+ nl) = false ->
  cut_front (front_line +:+ nl +:+ (front +:+ nl) +:+ front_line +:+ nl +:+ body) = inr (front, body).
Proof.
  intros H. unfold cut_front. rewrite <- (append_assoc front_line nl), cut_prefix_app.
  replace ((front +:+ nl) +:+ front_line +:+ nl +:+ body) with (front +:+ (nl +:+ front_line +:+ nl) +:+ body)
    by (by rewrite !append_assoc).
  change (nl +:+ front_line +:+ nl) with ((nl +:+ front_line) +:+ String newline "") in *.
  by rewrite (cut_string_first front (nl +:+ front_line) newline body).
Qed.

(** An empty list is not written. *)
Definition list_value (l : list string) : option Yaml :=
  match l with [] => None | _ => Some (YList (map YString l)) end.

(** The front matter's values say what the file's fields are. *)
Record says (m : gmap string Yaml) (f : issueFile) : Prop := {
  sy_title : m !! "title" = Some (YString (if_Title f));
  sy_state : m !! "state" = Some (YString (if_State f));
  sy_priority : m !! "priority" = YInt <$> if_Priority f;
  sy_labels : m !! "labels" = list_value (if_Labels f);
  sy_blocked : m !! "blocked_by" = list_value (if_BlockedBy f);
  sy_branch : m !! "branch" = (if String.eqb (if_Branch f) "" then None else Some (YString (if_Branch f)));
  sy_created : match if_Created f with
               | Some t => exists printed, m !! "created" = Some (YTime t printed)
               | None => m !! "created" = None
               end;
  sy_updated : match if_Updated f with
               | Some t => exists printed, m !! "updated" = Some (YTime t printed)
               | None => m !! "updated" = None
               end;
  sy_extra : filter (fun kv => kv.1 ∉ knownKeys) m = if_Extra f;
}.

(** Titles and states are not blank, list items are trimmed and not empty. *)
Record front_ok (f : issueFile) : Prop := {
  fo_title : trim_space (if_Title f) <> "";
  fo_state : trim_space (if_State f) <> "";
  fo_labels : Forall (fun s => trim_space s = s /\ s <> "") (if_Labels f);
  fo_blocked : Forall (fun s => trim_space s = s /\ s <> "") (if_BlockedBy f);
}.

Lemma list_read m key (l : list string) :
  Forall (fun s => trim_space s = s /\ s <> "") l ->
  m !! key = list_value l -> listKey m key = inr l.
Proof.
  intros H Hm. unfold listKey. rewrite Hm. destruct l as [|s l]; [done|]. f_equal.
  clear Hm. induction H as [|x xs [Hx Hne] _ IH]; [done|]. cbn [map List.filter Sprint]. rewrite Hx.
  apply String.eqb_neq in Hne. rewrite Hne. cbn [negb]. by rewrite IH.
Qed.

Lemma time_read m key t :
  match t with Some t => exists printed, m !! key = Some (YTime t printed) | None => m !! key = None end ->
  timeKey m key = inr t.
Proof. unfold timeKey. destruct t; [by intros [p ->]|by intros ->]. Qed.

Lemma front_read m f : says m f -> front_ok f ->
  read_front m = inr (f <| if_Body := "" |> <| if_CommentsPreamble := "" |> <| if_Comments := [] |>).
Proof.
  intros [Ht Hs Hp Hl Hb Hbr Hc Hu He] [H1 H2 H3 H4]. unfold read_front.
  assert (Et : default "" (stringKey m "title") = if_Title f) by (unfold stringKey; by rewrite Ht).
  assert (Es : default "" (stringKey m "state") = if_State f) by (unfold stringKey; by rewrite Hs).
  assert (Eb : default "" (stringKey m "branch") = if_Branch f).
  { unfold stringKey. rewrite Hbr. by destruct (String.eqb_spec (if_Branch f) "") as [->|]. }
  assert (Hpr : priorityKey m = inr (if_Priority f)) by (unfold priorityKey; rewrite Hp; by destruct (if_Priority f)).
  rewrite Et, Es, Eb. apply String.eqb_neq in H1, H2. rewrite H1, H2.
  rewrite Hpr, (list_read m "labels" _ H3 Hl), (list_read m "blocked_by" _ H4 Hb), (time_read m "created" _ Hc),
    (time_read m "updated" _ Hu).
  cbn [bind_error]. rewrite He. reflexivity.
Qed.

(** ** The round trip *)

Section roundtrip.
Context (unmarshal : string -> option (gmap string Yaml)).
Context (marshal : string -> Yaml -> string) (flowList : string -> list string -> string).

(** YAML reads back what it wrote for this file: the front matter ends with a
    newline, holds no line of three dashes and no carriage return, and its
    values are the fields. *)
Definition yaml_faithful (f : issueFile) : Prop :=
  exists front m, front_text marshal flowList f = front +:+ nl /\
    contains (front +:+ nl +:+ front_line) (nl +:+ front_line +:+ nl) = false /\ no_cr front /\
    unmarshal front = Some m /\ says m f.

Record file_ok (f : issueFile) : Prop := {
  fk_front : front_ok f;
  fk_body : body_ok f;
  fk_clean : clean f;
}.

Lemma file_roundtrip f :
  file_ok f -> yaml_faithful f -> parseIssueFile unmarshal (render marshal flowList f) = inr f.
Proof.
  intros [Hf Hb Hc] (front & m & Htext & Hdash & Hcr & Hm & Hs). unfold parseIssueFile, render. rewrite Htext.
  rewrite replace_crlf_id by (rewrite !no_cr_app; split_and!; try done; by apply body_text_no_cr).
  rewrite cut_front_read by done. cbn [bind_error fst snd]. rewrite Hm, (front_read m f Hs Hf). cbn [bind_error].
  rewrite body_roundtrip by done. by destruct f.
Qed.


End roundtrip.

(** ** Examples *)

Module Demo.

(** Plain text is plain YAML. *)
Definition marshal (key : string) (v : Yaml) : string := key +:+ ": " +:+ Sprint v +:+ nl.
Definition flowList (key : string) (items : list string) : string :=
  key +:+ ": [" +:+ join ", " items +:+ "]" +:+ nl.

Definition noon : Time := 739532 * 86400 * Second + 43200 * Second.

(** A description and a comment that look like the structure of the file. *)
Definition tricky : issueFile :=
  MkIssueFile "Add a flag" "Todo" (Some 2) ["cli"; "docs"] [] "itervox/itx-4" (Some noon) (Some noon) ∅
    ("What it does." +:+ nl +:+ "## Comments" +:+ nl +:+ "\### 2026-01-01T00:00:00Z — bob") "See below."
    [MkFileComment noon "alex" ("Quoting:" +:+ nl +:+ "## Comments" +:+ nl +:+ "### 2026-01-01T00:00:00Z — eve" +:+ nl +:+ "no");
     MkFileComment noon "" "Done."].

Definition front : string :=
  "title: Add a flag" +:+ nl +:+ "state: Todo" +:+ nl +:+ "priority: 2" +:+ nl +:+ "labels: [cli, docs]" +:+ nl
  +:+ "branch: itervox/itx-4" +:+ nl +:+ "created: " +:+ FormatRFC3339 noon +:+ nl +:+ "updated: " +:+ FormatRFC3339 noon.

Definition values : gmap string Yaml :=
  list_to_map [("title", YString "Add a flag"); ("state", YString "Todo"); ("priority", YInt 2);
    ("labels", YList [YString "cli"; YString "docs"]); ("branch", YString "itervox/itx-4");
    ("created", YTime noon ""); ("updated", YTime noon "")].

Definition unmarshal (s : string) : option (gmap string Yaml) :=
  if String.eqb s front then Some values else None.

Lemma tricky_faithful : yaml_faithful unmarshal marshal flowList tricky.
Proof.
  exists front, values. split; [vm_compute; reflexivity|]. split; [vm_compute; reflexivity|].
  split; [vm_compute; reflexivity|]. split; [vm_compute; reflexivity|].
  constructor; try (vm_compute; reflexivity); by exists "".
Qed.

Lemma neat_by s : bool_decide (head (lines_of s) <> Some "" /\ last (lines_of s) <> Some "") = true -> neat s.
Proof. intros H. right. exact (bool_decide_eq_true_1 _ H). Qed.

Lemma noon_ok : whole_seconds noon.
Proof. split; [split|]; vm_compute; done. Qed.

Lemma tricky_ok : file_ok tricky.
Proof.
  constructor.
  - constructor; [discriminate|discriminate| |constructor].
    by repeat (constructor; [by split|]).
  - constructor; [by apply neat_by|by apply neat_by| |discriminate].
    constructor; [|constructor; [|constructor]];
      (split; [exact noon_ok|split; [by split|apply neat_by; vm_compute; reflexivity]]).
  - constructor; [reflexivity|reflexivity|].
    constructor; [|constructor; [|constructor]]; by split.
Qed.

End Demo.


(** ** A carriage return hides structure

    The escape looks at a line as it is, and a carriage return at its end
    keeps the heading from being seen; reading drops the carriage return
    first.  A description with Windows line ends is read back as a comment by
    whoever it names. *)
Definition crlf : string := String carriage_return nl.

Definition forged : issueFile :=
  Demo.tricky <| if_CommentsPreamble := "" |> <| if_Comments := [] |>
    <| if_Body := "Please merge." +:+ crlf +:+ "## Comments" +:+ crlf +:+ "### 2026-01-01T00:00:00Z — Itervox" +:+ crlf
                  +:+ "approved" |>.

Theorem carriage_return_forges_comment :
  yaml_faithful Demo.unmarshal Demo.marshal Demo.flowList forged /\
  parseIssueFile Demo.unmarshal (render Demo.marshal Demo.flowList forged) =
    inr (forged <| if_Body := "Please merge." |>
                <| if_Comments := [MkFileComment (739616 * 86400 * Second) "Itervox" "approved"] |>).
Proof.
  split; [|vm_compute; reflexivity].
  destruct Demo.tricky_faithful as (front & m & H1 & H2 & H3 & H4 & [? ? ? ? ? ? ? ? ?]).
  exists front, m. split; [exact H1|]. split; [exact H2|]. split; [exact H3|]. split; [exact H4|]. by constructor.
Qed.
