(* ===== verification/LocalTracker.v ===== *)
(** * LocalTracker: the tracker over a directory of issue files
    (internal/tracker/local/tracker.go)

    Every call lists the directory and reads again what may have changed; a
    file that does not parse keeps its last good version in service.  The
    directory is a map from file names to contents with modification times;
    what the file system and the clocks answer during a call is an [Env].
    A call holds the tracker's lock, so calls are steps.

    The theorems: what is served is what is on disk, however files are edited
    in between; an update is applied to what is on disk now; a new issue takes
    a free name; a comment with a key is found by it. *)

From stdpp Require Import base gmap list strings relations.
From Stdlib Require Import Ascii.
From S2P Require Import Prelude Domain Tracker Rfc3339 LocalFile.

Local Open Scope Z_scope.

Definition DefaultPrefix : string := "ITX".
Definition ItervoxAuthor : string := "Itervox".

(** [identifierRe]: a letter, then letters, digits and underscores, a hyphen
    and digits. *)
Definition is_letter (c : ascii) : bool :=
  let n := N_of_ascii c in ((65 <=? n) && (n <=? 90) || (97 <=? n) && (n <=? 122))%N.
Definition is_digit (c : ascii) : bool := let n := N_of_ascii c in ((48 <=? n) && (n <=? 57))%N.
Definition is_word (c : ascii) : bool := is_letter c || is_digit c || Ascii.eqb c "_"%char.

Definition is_identifier (s : string) : bool :=
  match s with
  | String c rest =>
      let '(word, digits, found) := cut_at "-"%char rest in
      is_letter c && all_bytes is_word word && found && negb (String.eqb digits "") && all_bytes is_digit digits
  | EmptyString => false
  end.

Definition racyWindow : Duration := 2 * Second.

Record stamp := MkStamp { st_mod : Time; st_size : Z }.

#[export] Instance stamp_eq_dec : EqDecision stamp.
Proof. solve_decision. Defined.

(** ** The directory *)

Record DiskFile := MkDiskFile { df_data : string; df_mod : Time }.

(** [None]: the directory does not exist. *)
Abbreviation Disk := (option (gmap string DiskFile)).

Definition files (d : Disk) : gmap string DiskFile := default ∅ d.

Definition stamp_of (f : DiskFile) : stamp := MkStamp (df_mod f) (Z.of_nat (String.length (df_data f))).

Record Env := MkEnv {
  (** whether listing the directory fails, which files cannot be stat'ed or
      read, whether a write is refused *)
  env_list_error : bool;
  env_no_info : gset string;
  env_unreadable : gset string;
  env_write_error : bool;
  (** the wall clock, the tracker's clock, the time a written file gets *)
  env_wall : Time;
  env_now : Time;
  env_mtime : Time;
}.

(** ** The tracker *)

Inductive problem :=
  | NoProblem
  | CannotRead
  | DoesNotParse (e : file_error).

Record entry := MkEntry {
  en_name : string;
  en_file : option issueFile;  (* the last good version *)
  en_stamp : stamp;
  en_readAt : Time;
  en_problem : problem;
}.

Record LocalTracker := MkLocalTracker {
  lt_prefix : string;
  lt_active : list string;
  lt_terminal : list string;
  lt_entries : gmap string entry;
}.

#[export] Instance eta_LocalTracker : Settable LocalTracker := {|
  eta_record t := MkLocalTracker (lt_prefix t) (lt_active t) (lt_terminal t) (lt_entries t) |}.

Definition New (prefix : string) (active terminal : list string) : LocalTracker :=
  let prefix := trim_space prefix in
  MkLocalTracker (if String.eqb prefix "" then DefaultPrefix else prefix) active terminal ∅.

Definition SetStateLists (active terminal : list string) (t : LocalTracker) : LocalTracker :=
  t <| lt_active := active |> <| lt_terminal := terminal |>.

Inductive LocalError :=
  | NotListed
  | NotFound (identifier : string)
  | Unparsed (p : problem)
  | NotWritten
  | NoTitle
  | AlreadyExists
  | NotAnIdentifier.

(** A call's answer, or its error. *)
Abbreviation Answer A := (LocalError + A)%type.

Definition extension : string := ".md".

(** The identifier of a file name, if it is an issue's. *)
Definition name_identifier (name : string) : option string :=
  if has_prefix name "." then None
  else
    ident ← cut_suffix name extension;
    if is_identifier ident then Some ident else None.

Definition file_name (identifier : string) : string := identifier +:+ extension.

Section yaml.
Context (unmarshal : string -> option (gmap string Yaml)).
Context (marshal : string -> Yaml -> string) (flowList : string -> list string -> string).

(** [readLocked]: the entry with its last good version, the time and the
    problem of this reading. *)
Definition readLocked (env : Env) (d : Disk) (e : entry) : entry :=
  let fails p := MkEntry (en_name e) (en_file e) (en_stamp e) (env_wall env) p in
  if bool_decide (en_name e ∈ env_unreadable env) then fails CannotRead
  else
    match files d !! en_name e with
    | None => fails CannotRead
    | Some f =>
        match parseIssueFile unmarshal (df_data f) with
        | inr file => MkEntry (en_name e) (Some file) (en_stamp e) (env_wall env) NoProblem
        | inl err => fails (DoesNotParse err)
        end
    end.

(** One file of the listing. *)
Definition refresh_entry (env : Env) (d : Disk) (old : option entry) (name : string) (f : DiskFile) : entry :=
  let st := stamp_of f in
  match old with
  | Some e =>
      if bool_decide (en_stamp e = st) && time_before (st_mod st) (time_add (en_readAt e) (- racyWindow)) then e
      else readLocked env d (MkEntry (en_name e) (en_file e) st (en_readAt e) (en_problem e))
  | None => readLocked env d (MkEntry name None st 0 NoProblem)
  end.

Definition listed (env : Env) (d : Disk) (entries : gmap string entry) (kv : string * DiskFile) :
    option (string * entry) :=
  let '(name, f) := kv in
  if bool_decide (name ∈ env_no_info env) then None
  else
    ident ← name_identifier name;
    Some (ident, refresh_entry env d (entries !! ident) name f).

Definition refreshLocked (env : Env) (d : Disk) (t : LocalTracker) : option LocalError * LocalTracker :=
  if env_list_error env then (Some NotListed, t)
  else
    match d with
    | None => (None, t <| lt_entries := ∅ |>)
    | Some fs =>
        (None, t <| lt_entries := list_to_map (omap (listed env d (lt_entries t)) (map_to_list fs)) |>)
    end.

(** ** Reading issues *)

(** The good version of an identifier. *)
Definition good_file (entries : gmap string entry) (identifier : string) : option issueFile :=
  entries !! identifier ≫= en_file.

Definition blocker_ref (entries : gmap string entry) (b : string) : BlockerRef :=
  let blocker := good_file entries b in
  MkBlockerRef (Some b) (Some b) (if_State <$> blocker) None ""
    (blocker ≫= fun f => if String.eqb (if_Branch f) "" then None else Some (if_Branch f)).

Definition issueLocked (t : LocalTracker) (identifier : string) : option Issue :=
  (fun f => toIssue f identifier <| issue_BlockedBy := map (blocker_ref (lt_entries t)) (if_BlockedBy f) |>)
  <$> good_file (lt_entries t) identifier.

(** [strings.ToUpper]. *)
Definition upper_byte (c : ascii) : ascii :=
  let n := N_of_ascii c in if ((97 <=? n) && (n <=? 122))%N then ascii_of_N (n - 32) else c.
Fixpoint to_upper (s : string) : string :=
  match s with EmptyString => EmptyString | String c s' => String (upper_byte c) (to_upper s') end.

(** What is before and after the last hyphen; an identifier has one. *)
Fixpoint cut_last_hyphen (s : string) : option (string * string) :=
  match s with
  | EmptyString => None
  | String c s' =>
      match cut_last_hyphen s' with
      | Some (a, b) => Some (String c a, b)
      | None => if Ascii.eqb c "-"%char then Some (EmptyString, s') else None
      end
  end.

(** [strconv.Atoi] with its error dropped: of digits, the largest int when they
    do not fit. *)
Definition atoi_or_max (s : string) : Z := default int64_max (Atoi s).

Definition splitIdent (id : string) : string * Z :=
  match cut_last_hyphen id with
  | Some (p, n) => (to_upper p, atoi_or_max n)
  | None => (to_upper id, 0)
  end.

Definition ident_less (a b : string) : bool :=
  let '(pa, na) := splitIdent a in
  let '(pb, nb) := splitIdent b in
  if String.eqb pa pb then na <? nb else string_less pa pb.

(** The sort is not stable, so the order of two spellings of one identifier is
    that of the map. *)
Definition sortedIdentifiersLocked (t : LocalTracker) : list string :=
  sort_stable ident_less
    (map fst (List.filter (fun kv => bool_decide (is_Some (en_file kv.2))) (map_to_list (lt_entries t)))).

Definition matchesState (state : string) (states : list string) : bool :=
  existsb (fun s => equal_fold (trim_space s) (trim_space state)) states.

Definition issuesWhere (env : Env) (d : Disk) (keep : Issue -> bool) (t : LocalTracker) :
    Answer (list Issue) * LocalTracker :=
  match refreshLocked env d t with
  | (Some err, t) => (inl err, t)
  | (None, t) =>
      (inr (List.filter keep (omap (issueLocked t) (sortedIdentifiersLocked t))), t)
  end.

Definition FetchCandidateIssues (env : Env) (d : Disk) (t : LocalTracker) : Answer (list Issue) * LocalTracker :=
  issuesWhere env d (fun i => matchesState (issue_State i) (lt_active t)) t.

Definition FetchIssuesByStates (env : Env) (d : Disk) (stateNames : list string) (t : LocalTracker) :
    Answer (list Issue) * LocalTracker :=
  match stateNames with
  | [] => (inr [], t)
  | _ => issuesWhere env d (fun i => matchesState (issue_State i) stateNames) t
  end.

Definition FetchIssueStatesByIDs (env : Env) (d : Disk) (issueIDs : list string) (t : LocalTracker) :
    Answer (list Issue) * LocalTracker :=
  match issueIDs with
  | [] => (inr [], t)
  | _ => issuesWhere env d (fun i => bool_decide (issue_ID i ∈ issueIDs)) t
  end.

Definition FetchIssueDetail (env : Env) (d : Disk) (issueID : string) (t : LocalTracker) :
    Answer Issue * LocalTracker :=
  match refreshLocked env d t with
  | (Some err, t) => (inl err, t)
  | (None, t) =>
      (match issueLocked t issueID with Some i => inr i | None => inl (NotFound issueID) end, t)
  end.

(** What currently fails, by file; the directory itself when it cannot be
    listed. *)
Definition Problems (env : Env) (d : Disk) (t : LocalTracker) :
    option LocalError * list (string * problem) * LocalTracker :=
  let '(err, t) := refreshLocked env d t in
  (err, sort_stable (fun a b => string_less a.1 b.1)
          (omap (fun kv : string * entry =>
                   match en_problem kv.2 with NoProblem => None | p => Some (en_name kv.2, p) end)
             (map_to_list (lt_entries t))), t).

(** ** Writing *)

(** [writeLocked]: the file, and the entry that serves what was written; the
    stat after it succeeds.  A missing directory is made, which reads as the
    empty one. *)
Definition writeLocked (env : Env) (name : string) (f : issueFile) (d : Disk) : option (entry * Disk) :=
  if env_write_error env then None
  else
    let file := MkDiskFile (render marshal flowList f) (env_mtime env) in
    Some (MkEntry name (Some f) (stamp_of file) (env_wall env) NoProblem, Some (<[name := file]> (files d))).

(** [t.UTC().Truncate(time.Second)]. *)
Definition truncate_second (t : Time) : Time := t - t mod Second.

Definition update (env : Env) (issueID : string) (change : issueFile -> issueFile) (d : Disk) (t : LocalTracker) :
    Answer issueFile * Disk * LocalTracker :=
  match refreshLocked env d t with
  | (Some err, t) => (inl err, d, t)
  | (None, t) =>
      match lt_entries t !! issueID with
      | None => (inl (NotFound issueID), d, t)
      | Some e =>
          let e := readLocked env d e in
          let t := t <| lt_entries := <[issueID := e]> (lt_entries t) |> in
          match en_file e, en_problem e with
          | None, _ => (inl (NotFound issueID), d, t)
          | Some f, NoProblem =>
              let f := change f <| if_Updated := Some (truncate_second (env_now env)) |> in
              match writeLocked env (en_name e) f d with
              | None => (inl NotWritten, d, t)
              | Some (e, d) => (inr f, d, t <| lt_entries := <[issueID := e]> (lt_entries t) |>)
              end
          | Some _, p => (inl (Unparsed p), d, t)
          end
      end
  end.

Definition set_state (state : string) (f : issueFile) : issueFile := f <| if_State := state |>.
Definition set_branch (branch : string) (f : issueFile) : issueFile := f <| if_Branch := branch |>.
Definition add_comment (at_ : Time) (body : string) (f : issueFile) : issueFile :=
  f <| if_Comments := if_Comments f ++ [MkFileComment at_ ItervoxAuthor (trim_space body)] |>.

Definition UpdateIssueState (env : Env) (issueID stateName : string) := update env issueID (set_state stateName).
Definition SetIssueBranch (env : Env) (issueID branch : string) := update env issueID (set_branch branch).

(** The clock is read once for the comment and once for the update. *)
Definition CreateComment (env : Env) (issueID body : string) (d : Disk) (t : LocalTracker) :
    Answer Comment * Disk * LocalTracker :=
  let at_ := truncate_second (env_now env) in
  match update env issueID (add_comment at_ body) d t with
  | (inl err, d, t) => (inl err, d, t)
  | (inr f, d, t) =>
      (inr (MkComment (issueID +:+ "-c" +:+ format_d (Z.of_nat (length (if_Comments f)))) (trim_space body)
              (Some at_) ItervoxAuthor ItervoxAuthor), d, t)
  end.

Definition CreateCommentWithKey (env : Env) (issueID key body : string) :=
  CreateComment env issueID (MarkCommentKey body key).

Definition FindCommentByKey (env : Env) (d : Disk) (issueID key : string) (t : LocalTracker) :
    Answer (option Comment) * LocalTracker :=
  match FetchIssueDetail env d issueID t with
  | (inl err, t) => (inl err, t)
  | (inr i, t) => (inr (List.find (fun c => CommentHasKey (comment_Body c) key) (issue_Comments i)), t)
  end.

(** The next free number of the prefix: past every identifier's, in the map's
    order. *)
Definition next_number (prefix : string) (identifiers : list string) : Z :=
  foldl (fun next id =>
    let '(p, n) := splitIdent id in
    if equal_fold p prefix && (next <=? n) then add64 n 1 else next) 1 identifiers.

Definition CreateIssue (env : Env) (title body stateName : string) (d : Disk) (t : LocalTracker) :
    Answer Issue * Disk * LocalTracker :=
  if String.eqb (trim_space title) "" then (inl NoTitle, d, t)
  else
    match refreshLocked env d t with
    | (Some err, t) => (inl err, d, t)
    | (None, t) =>
        let next := next_number (lt_prefix t) (map fst (map_to_list (lt_entries t))) in
        let ident := lt_prefix t +:+ "-" +:+ format_d next in
        let now := truncate_second (env_now env) in
        let f := MkIssueFile (trim_space title) stateName None [] [] "" (Some now) (Some now) ∅ (trim_space body) "" [] in
        let name := file_name ident in
        if bool_decide (is_Some (files d !! name)) then (inl AlreadyExists, d, t)
        else
          match writeLocked env name f d with
          | None => (inl NotWritten, d, t)
          | Some (e, d) =>
              let t := t <| lt_entries := <[ident := e]> (lt_entries t) |> in
              (match issueLocked t ident with Some i => inr i | None => inl (NotFound ident) end, d, t)
          end
    end.

(** What [WriteIssue] is given. *)
Record IssueSpec := MkIssueSpec {
  is_Title : string;
  is_State : string;
  is_Priority : option Z;
  is_Labels : list string;
  is_BlockedBy : list string;
  is_Body : string;
  is_Created : option Time;
}.

Definition WriteIssue (env : Env) (identifier : string) (s : IssueSpec) (d : Disk) : option LocalError * Disk :=
  if negb (is_identifier identifier) then (Some NotAnIdentifier, d)
  else
    let name := file_name identifier in
    if bool_decide (is_Some (files d !! name)) then (Some AlreadyExists, d)
    else
      let f := MkIssueFile (is_Title s) (is_State s) (is_Priority s) (is_Labels s) (is_BlockedBy s) ""
                 (is_Created s) (is_Created s) ∅ (trim_space (is_Body s)) "" [] in
      match writeLocked env name f d with
      | None => (Some NotWritten, d)
      | Some (_, d) => (None, d)
      end.

(** ** File names *)

Lemma identifier_name ident : is_identifier ident = true -> name_identifier (file_name ident) = Some ident.
Proof.
  intros H. unfold name_identifier, file_name. rewrite cut_suffix_app. cbn [mbind option_bind]. rewrite H.
  destruct ident as [|c ident]; [done|]. rewrite append_cons_l. unfold has_prefix. cbn [String.prefix].
  destruct (ascii_dec "." c) as [<-|]; [|done]. exfalso. revert H. unfold is_identifier.
  destruct (cut_at "-" ident) as [[? ?] ?]. done.
Qed.

Lemma name_identifier_sound name ident :
  name_identifier name = Some ident -> name = file_name ident /\ is_identifier ident = true.
Proof.
  unfold name_identifier. case_match; [done|]. destruct (cut_suffix name extension) as [i|] eqn:E; [|done].
  cbn [mbind option_bind]. destruct (is_identifier i) eqn:Ei; [|done]. intros [= <-].
  split; [by apply cut_suffix_sound|done].
Qed.

Lemma file_name_inj a b : file_name a = file_name b -> a = b.
Proof.
  unfold file_name. intros H. apply (f_equal (fun s => cut_suffix s extension)) in H.
  rewrite !cut_suffix_app in H. by injection H.
Qed.

(** ** The listing *)

Lemma refresh_lookup env fs t ident :
  env_list_error env = false ->
  lt_entries (snd (refreshLocked env (Some fs) t)) !! ident =
    (if is_identifier ident && negb (bool_decide (file_name ident ∈ env_no_info env))
     then refresh_entry env (Some fs) (lt_entries t !! ident) (file_name ident) <$> fs !! file_name ident
     else None).
Proof.
  intros He. unfold refreshLocked. rewrite He. cbn [snd lt_entries].
  assert (Hin : forall e, (ident, e) ∈ omap (listed env (Some fs) (lt_entries t)) (map_to_list fs) <->
    is_identifier ident = true /\ (file_name ident ∉ env_no_info env) /\
    exists f, fs !! file_name ident = Some f /\
      e = refresh_entry env (Some fs) (lt_entries t !! ident) (file_name ident) f).
  { intros e. rewrite list_elem_of_omap. split.
    - intros ([name f] & Hf%elem_of_map_to_list & Hl). unfold listed in Hl. case_bool_decide as Hno; [done|].
      destruct (name_identifier name) as [i|] eqn:En; [|done]. cbn in Hl. injection Hl as -> <-.
      apply name_identifier_sound in En as [-> Hi]. eauto.
    - intros (Hi & Hno & f & Hf & ->). exists (file_name ident, f). split; [by apply elem_of_map_to_list|].
      unfold listed. rewrite bool_decide_eq_false_2 by done. by rewrite identifier_name. }
  match goal with |- ?m !! _ = ?r => destruct r as [e|] eqn:Er end.
  - apply elem_of_list_to_map_1'.
    + intros e' He'. apply Hin in He' as (Hi & Hno & f & Hf & ->). rewrite Hi, bool_decide_eq_false_2, Hf in Er by done.
      by injection Er.
    + apply Hin. destruct (is_identifier ident) eqn:Hi; [|done]. case_bool_decide as Hno; [done|]. cbn in Er.
      destruct (fs !! file_name ident) as [f|] eqn:Hf; [|done]. injection Er as <-. eauto.
  - apply not_elem_of_list_to_map_1. intros ([i e] & Hi & Hel)%list_elem_of_fmap. cbn in Hi. subst i.
    apply Hin in Hel as (Hi & Hno & f & Hf & _). by rewrite Hi, bool_decide_eq_false_2, Hf in Er.
Qed.

(** ** What is served is what is on disk *)

(** The entry says what the file holds: its contents, or why they do not
    parse, or the version that was written there. *)
Definition current (e : entry) (f : DiskFile) : Prop :=
  match parseIssueFile unmarshal (df_data f) with
  | inr file => en_file e = Some file /\ en_problem e = NoProblem
  | inl err => en_problem e = DoesNotParse err
  end \/ exists file, en_file e = Some file /\ en_problem e = NoProblem /\ df_data f = render marshal flowList file.

Definition settled_file (f : DiskFile) (readAt : Time) : Prop := df_mod f < readAt - racyWindow.

Record entry_ok (wall : Time) (d : Disk) (ident : string) (e : entry) : Prop := {
  eo_name : en_name e = file_name ident;
  eo_read : en_readAt e <= wall;
  eo_cache : forall f, files d !! file_name ident = Some f -> stamp_of f = en_stamp e ->
    settled_file f (en_readAt e) -> en_problem e = CannotRead \/ current e f;
}.

Definition cache_ok (wall : Time) (d : Disk) (t : LocalTracker) : Prop :=
  forall ident e, lt_entries t !! ident = Some e -> entry_ok wall d ident e.

(** A file as it was just read. *)
Lemma readLocked_current env d e f :
  files d !! en_name e = Some f ->
  en_problem (readLocked env d e) = CannotRead \/ current (readLocked env d e) f.
Proof.
  intros Hf. unfold readLocked, current. case_bool_decide; [by left|]. rewrite Hf.
  destruct (parseIssueFile unmarshal (df_data f)); right; left; done.
Qed.

Lemma readLocked_fields env d e :
  en_name (readLocked env d e) = en_name e /\ en_stamp (readLocked env d e) = en_stamp e /\
  en_readAt (readLocked env d e) = env_wall env.
Proof. unfold readLocked. repeat case_match; done. Qed.

Lemma readLocked_ok env d e ident :
  en_name e = file_name ident -> entry_ok (env_wall env) d ident (readLocked env d e).
Proof.
  intros Hn. destruct (readLocked_fields env d e) as (H1 & H2 & H3). constructor.
  - by rewrite H1.
  - rewrite H3. done.
  - intros f Hf _ _. apply readLocked_current. by rewrite Hn.
Qed.

Lemma refresh_entry_ok env d old ident f :
  files d !! file_name ident = Some f ->
  (forall e, old = Some e -> exists wall, wall <= env_wall env /\ entry_ok wall d ident e) ->
  let e := refresh_entry env d old (file_name ident) f in
  entry_ok (env_wall env) d ident e /\ (en_problem e = CannotRead \/ current e f).
Proof.
  intros Hf Hold. cbn zeta. unfold refresh_entry. destruct old as [e|].
  - destruct (Hold e eq_refl) as (wall & Hw & [Hn Hr Hc]). case_bool_decide as Hst; cbn [andb].
    + destruct (time_before _ _) eqn:Hb.
      * unfold time_before, time_add in Hb. apply Z.ltb_lt in Hb.
        split; [constructor; [done|lia|done]|]. apply Hc; [done|done|]. unfold settled_file. cbn in Hb. lia.
      * split; [by apply readLocked_ok|]. apply readLocked_current. cbn. by rewrite Hn.
    + split; [by apply readLocked_ok|]. apply readLocked_current. cbn. by rewrite Hn.
  - split; [by apply readLocked_ok|]. by apply readLocked_current.
Qed.

Lemma entry_later wall wall' d ident e : wall <= wall' -> entry_ok wall d ident e -> entry_ok wall' d ident e.
Proof. intros H [? ? ?]. constructor; [done|lia|done]. Qed.

Lemma refresh_ok env d t wall :
  wall <= env_wall env -> cache_ok wall d t -> cache_ok (env_wall env) d (snd (refreshLocked env d t)).
Proof.
  intros Hw Hc ident e. destruct (env_list_error env) eqn:He.
  { unfold refreshLocked. rewrite He. intros Hl. eapply entry_later; [exact Hw|by apply Hc]. }
  destruct d as [fs|].
  - rewrite refresh_lookup by done. destruct (_ && _); [|done]. destruct (fs !! file_name ident) as [f|] eqn:Hf; [|done].
    intros [= <-]. apply refresh_entry_ok; [exact Hf|]. intros e He'. exists wall. split; [done|by apply Hc].
  - unfold refreshLocked. rewrite He. cbn. by rewrite lookup_empty.
Qed.

(** ** Histories: calls, edits by others, time *)

Record Site := MkSite { si_wall : Time; si_disk : Disk; si_tracker : LocalTracker }.

(** Somebody puts a file in place; its time is at most the racy window behind
    the clock. *)
Inductive use (s : Site) : Site -> Prop :=
  | use_time wall : si_wall s <= wall -> use s (MkSite wall (si_disk s) (si_tracker s))
  | use_edit name f : si_wall s - racyWindow <= df_mod f ->
      use s (MkSite (si_wall s) (Some (<[name := f]> (files (si_disk s)))) (si_tracker s))
  | use_delete name : use s (MkSite (si_wall s) (Some (base.delete name (files (si_disk s)))) (si_tracker s))
  | use_remove_all : use s (MkSite (si_wall s) None (si_tracker s))
  | use_read env : env_wall env = si_wall s ->
      use s (MkSite (si_wall s) (si_disk s) (snd (refreshLocked env (si_disk s) (si_tracker s))))
  | use_update env issueID change r d t :
      env_wall env = si_wall s -> si_wall s - racyWindow <= env_mtime env ->
      update env issueID change (si_disk s) (si_tracker s) = (r, d, t) -> use s (MkSite (si_wall s) d t)
  | use_create env title body state r d t :
      env_wall env = si_wall s -> si_wall s - racyWindow <= env_mtime env ->
      CreateIssue env title body state (si_disk s) (si_tracker s) = (r, d, t) -> use s (MkSite (si_wall s) d t).

Definition site_ok (s : Site) : Prop := cache_ok (si_wall s) (si_disk s) (si_tracker s).

(** A file put in place is not settled for any reading so far. *)
Lemma put_ok wall d ident e name f :
  wall - racyWindow <= df_mod f -> entry_ok wall d ident e -> entry_ok wall (Some (<[name := f]> (files d))) ident e.
Proof.
  intros Hm [Hn Hr Hc]. constructor; [done|done|]. cbn. intros g [[-> <-]|[Hne Hg]]%lookup_insert_Some.
  - intros _ Hset. unfold settled_file in Hset. lia.
  - by apply Hc.
Qed.

Lemma deleted_ok wall d ident e m :
  m ⊆ files d -> entry_ok wall d ident e -> entry_ok wall (Some m) ident e.
Proof.
  intros Hsub [Hn Hr Hc]. constructor; [done|done|]. cbn. intros g Hg. apply Hc. by eapply lookup_weaken.
Qed.

Lemma written_ok env ident f d e d' :
  writeLocked env (file_name ident) f d = Some (e, d') ->
  entry_ok (env_wall env) d' ident e /\
  d' = Some (<[file_name ident := MkDiskFile (render marshal flowList f) (env_mtime env)]> (files d)).
Proof.
  unfold writeLocked. destruct (env_write_error env); [done|]. intros [= <- <-]. split; [|done].
  constructor; [done|done|]. cbn. rewrite lookup_insert_eq. intros g [= <-] _ _. right. right. by exists f.
Qed.

Lemma insert_ok wall d t ident e :
  cache_ok wall d t -> entry_ok wall d ident e -> cache_ok wall d (t <| lt_entries := <[ident := e]> (lt_entries t) |>).
Proof. intros Hc He i x. cbn. intros [[<- <-]|[_ Hx]]%lookup_insert_Some; [done|by apply Hc]. Qed.

(** The tracker writes a file and serves it. *)
Lemma write_ok env d t ident f e d' :
  env_wall env - racyWindow <= env_mtime env -> cache_ok (env_wall env) d t ->
  writeLocked env (file_name ident) f d = Some (e, d') ->
  cache_ok (env_wall env) d' (t <| lt_entries := <[ident := e]> (lt_entries t) |>).
Proof.
  intros Hm Hc Hw. destruct (written_ok _ _ _ _ _ _ Hw) as [He ->]. apply insert_ok; [|done].
  intros i x Hx. apply put_ok; [exact Hm|by apply Hc].
Qed.

(** A listing finds identifiers only. *)
Lemma refreshed_identifier env d t t' ident e :
  refreshLocked env d t = (None, t') -> lt_entries t' !! ident = Some e -> is_identifier ident = true.
Proof.
  intros Hr. assert (He : env_list_error env = false) by (unfold refreshLocked in Hr; by destruct (env_list_error env)).
  assert (Ht : t' = snd (refreshLocked env d t)) by (by rewrite Hr). rewrite Ht. destruct d as [fs|].
  - rewrite refresh_lookup by done. by destruct (is_identifier ident).
  - unfold refreshLocked. rewrite He. cbn. by rewrite lookup_empty.
Qed.

Lemma reread_ok env d t ident e :
  cache_ok (env_wall env) d t -> lt_entries t !! ident = Some e ->
  cache_ok (env_wall env) d (t <| lt_entries := <[ident := readLocked env d e]> (lt_entries t) |>).
Proof. intros Hc He. apply insert_ok; [done|]. apply readLocked_ok. apply (Hc _ _ He). Qed.

(** A successful update: the change of what the file holds now, written there. *)
Lemma update_spec env id change d t r d' t' wall :
  wall <= env_wall env -> cache_ok wall d t -> update env id change d t = (r, d', t') ->
  match r with
  | inl _ => d' = d /\ cache_ok (env_wall env) d t'
  | inr f' => exists f f0, files d !! file_name id = Some f /\ parseIssueFile unmarshal (df_data f) = inr f0 /\
      f' = change f0 <| if_Updated := Some (truncate_second (env_now env)) |> /\
      d' = Some (<[file_name id := MkDiskFile (render marshal flowList f') (env_mtime env)]> (files d)) /\
      is_identifier id = true /\
      (exists e, lt_entries t' !! id = Some e /\ en_file e = Some f' /\ en_name e = file_name id) /\
      (env_wall env - racyWindow <= env_mtime env -> cache_ok (env_wall env) d' t')
  end.
Proof.
  intros Hw Hc. unfold update. pose proof (refresh_ok env d t wall Hw Hc) as Hc1.
  destruct (refreshLocked env d t) as [[err|] t1] eqn:Hre; cbn [snd] in Hc1; [by intros [= <- <- <-]|].
  destruct (lt_entries t1 !! id) as [e|] eqn:He; [|by intros [= <- <- <-]]. cbn zeta.
  pose proof (eo_name _ _ _ _ (Hc1 _ _ He)) as Hn. pose proof (reread_ok env d t1 id e Hc1 He) as Hc2.
  set (t2 := t1 <| lt_entries := _ |>) in *. destruct (readLocked_fields env d e) as (Hn2 & _ & _). rewrite Hn2, Hn.
  destruct (en_file (readLocked env d e)) as [f0|] eqn:Ef; [|by intros [= <- <- <-]].
  destruct (en_problem (readLocked env d e)) eqn:Ep; [|by intros [= <- <- <-]..].
  set (f' := change f0 <| if_Updated := _ |>).
  destruct (writeLocked env (file_name id) f' d) as [[e' d2]|] eqn:Hwr; [|by intros [= <- <- <-]].
  intros [= <- <- <-]. destruct (written_ok _ _ _ _ _ _ Hwr) as [_ Hd].
  assert (Hf : exists f, files d !! file_name id = Some f /\ parseIssueFile unmarshal (df_data f) = inr f0).
  { unfold readLocked in Ef, Ep. rewrite Hn in Ef, Ep. case_bool_decide; [done|].
    destruct (files d !! file_name id) as [f|]; [|done]. exists f.
    destruct (parseIssueFile unmarshal (df_data f)); [done|]. cbn in Ef. by injection Ef as ->. }
  destruct Hf as (f & Hf & Hp). exists f, f0. split_and!; try done.
  - by eapply refreshed_identifier.
  - exists e'. cbn. rewrite lookup_insert_eq. unfold writeLocked in Hwr.
    destruct (env_write_error env); [done|]. by injection Hwr as <- _.
  - intros Hm. by eapply write_ok.
Qed.

Lemma create_spec env title body state d t r d' t' wall :
  wall <= env_wall env -> env_wall env - racyWindow <= env_mtime env -> cache_ok wall d t ->
  CreateIssue env title body state d t = (r, d', t') -> cache_ok (env_wall env) d' t'.
Proof.
  intros Hw Hm Hc. unfold CreateIssue. pose proof (refresh_ok env d t wall Hw Hc) as Hc1.
  assert (Hlater : cache_ok (env_wall env) d t) by (intros i e He; eapply entry_later; [exact Hw|by apply Hc]).
  case_match; [by intros [= <- <- <-]|].
  destruct (refreshLocked env d t) as [[err|] t1]; cbn [snd] in Hc1; [by intros [= <- <- <-]|]. cbn zeta.
  case_bool_decide; [by intros [= <- <- <-]|].
  destruct (writeLocked _ _ _ _) as [[e d2]|] eqn:Hwr; [|by intros [= <- <- <-]].
  intros [= _ <- <-]. by eapply write_ok.
Qed.

Lemma use_ok s s' : use s s' -> site_ok s -> site_ok s'.
Proof.
  intros Hu Hok. unfold site_ok in *. destruct Hu as [wall Hw|name f Hm|name| |env He|env id change r d t He Hm Hup
    |env title body state r d t He Hm Hcr]; cbn in *.
  - intros i e Hl. eapply entry_later; [exact Hw|by apply Hok].
  - intros i e Hl. apply put_ok; [exact Hm|by apply Hok].
  - intros i e Hl. eapply deleted_ok; [apply delete_subseteq|by apply Hok].
  - intros i e Hl. destruct (Hok i e Hl) as [? ? _]. constructor; [done|done|]. cbn. intros f Hf. by rewrite lookup_empty in Hf.
  - rewrite <- He. apply (refresh_ok env _ _ (si_wall s)); [lia|exact Hok].
  - pose proof (update_spec env id change _ _ _ _ _ (si_wall s) ltac:(lia) Hok Hup) as Hs. rewrite He in Hs.
    destruct r; [by destruct Hs as [-> ?]|]. destruct Hs as (f & f0 & _ & _ & _ & _ & _ & _ & Hc). by apply Hc.
  - rewrite <- He in Hm |- *. eapply (create_spec env); [|exact Hm|exact Hok|exact Hcr]. lia.
Qed.

Lemma uses_ok s s' : rtc use s s' -> site_ok s -> site_ok s'.
Proof. induction 1; [done|]. eauto using use_ok. Qed.


(** C27: an update is applied to what is on disk: when it succeeds, what is written
    is the change of the file's present contents, whatever the tracker had
    cached, and no other file is touched; when it fails nothing is. *)
Theorem update_applies_to_disk s s' env id change r d t :
  lt_entries (si_tracker s) = ∅ -> rtc use s s' -> env_wall env = si_wall s' ->
  update env id change (si_disk s') (si_tracker s') = (r, d, t) ->
  match r with
  | inl _ => d = si_disk s'
  | inr f' => exists f f0, files (si_disk s') !! file_name id = Some f /\
      parseIssueFile unmarshal (df_data f) = inr f0 /\
      f' = change f0 <| if_Updated := Some (truncate_second (env_now env)) |> /\
      d = Some (<[file_name id := MkDiskFile (render marshal flowList f') (env_mtime env)]> (files (si_disk s')))
  end.
Proof.
  intros H0 Hu Hw Hup.
  assert (Hok : site_ok s') by (apply (uses_ok s s' Hu); intros i e He; by rewrite H0, lookup_empty in He).
  pose proof (update_spec env id change _ _ _ _ _ (si_wall s') ltac:(lia) Hok Hup) as Hs.
  destruct r; [by destruct Hs|]. destruct Hs as (f & f0 & H1 & H2 & H3 & H4 & _). eauto 6.
Qed.

(** ** Comments with a key *)

Lemma trim_left_keeps c m b a : is_space c = false ->
  exists a', trim_left (a +:+ String c m +:+ b) = a' +:+ String c m +:+ b.
Proof.
  intros Hc. induction a as [|d a IH].
  - exists "". rewrite append_nil_l, append_cons_l. cbn. by rewrite Hc.
  - rewrite append_cons_l. cbn. destruct (is_space d); [exact IH|]. by exists (String d a).
Qed.

Lemma trim_right_keeps m c b a : is_space c = false ->
  exists b', trim_right (a +:+ (m +:+ String c "") +:+ b) = a +:+ (m +:+ String c "") +:+ b'.
Proof.
  intros Hc. rewrite <- append_assoc.
  assert (H : forall x, exists b', trim_right (x +:+ String c b) = x +:+ String c b').
  { induction x as [|d x [b' IH]].
    - rewrite append_nil_l. cbn. destruct (trim_right b) as [|e r]; [exists ""; by rewrite Hc|by eexists].
    - exists b'. rewrite !append_cons_l. cbn. rewrite IH. by destruct x. }
  destruct (H (a +:+ m)) as [b' Hb]. exists b'. rewrite !append_assoc in *. rewrite append_cons_l, append_nil_l in *.
  exact Hb.
Qed.

(** Trimming a body keeps a marker in it. *)
Lemma trim_keeps_marker s key : contains s (CommentKeyMarker key) = true -> contains (trim_space s) (CommentKeyMarker key) = true.
Proof.
  intros (a & b & ->)%contains_spec. unfold trim_space, CommentKeyMarker, commentKeyMarkerPrefix.
  set (tl := "!-- itervox:ck:" +:+ key +:+ " -->").
  change ("<!-- itervox:ck:" +:+ key +:+ " -->") with (String "<"%char tl).
  destruct (trim_left_keeps "<" tl b a eq_refl) as [a' ->].
  set (m := "<!-- itervox:ck:" +:+ key +:+ " --").
  assert (Hm : String "<"%char tl = m +:+ String ">"%char "").
  { unfold m, tl. rewrite !append_assoc. reflexivity. }
  rewrite Hm. destruct (trim_right_keeps m ">" b a' eq_refl) as [b' ->]. apply contains_spec. by eexists _, _.
Qed.

Lemma served_key body key : key <> "" -> CommentHasKey (trim_space (MarkCommentKey body key)) key = true.
Proof.
  intros Hk. pose proof (MarkCommentKey_has body key Hk) as H. unfold CommentHasKey in *.
  apply String.eqb_neq in Hk. rewrite Hk in *. by apply trim_keeps_marker.
Qed.

Lemma trim_left_first_char s : forall c r, trim_left s = String c r -> is_space c = false.
Proof. induction s as [|d s IH]; intros c r; [done|]. cbn. destruct (is_space d) eqn:E; [apply IH|]. by intros [= <- _]. Qed.

Lemma neat_trimmed s : neat (trim_space s).
Proof.
  unfold neat. destruct (decide (trim_space s = "")) as [->|Hne]; [by left|right].
  assert (Hh : forall c r, trim_space s = String c r -> c <> newline).
  { intros c r E ->. unfold trim_space in E. destruct (trim_right_prefix (trim_left s)) as [b Hb]. rewrite E in Hb.
    rewrite append_cons_l in Hb. apply trim_left_first_char in Hb. by vm_compute in Hb. }
  assert (Hr : trim_right (trim_space s) = trim_space s).
  { unfold trim_space. generalize (trim_left s). clear. induction s as [|c s IH]; [done|]. cbn.
    destruct (trim_right s) as [|d r] eqn:E.
    - destruct (is_space c) eqn:Ec; [done|]. cbn. by rewrite Ec.
    - cbn in IH |- *. by rewrite IH. }
  split.
  - destruct (trim_space s) as [|c r] eqn:E; [done|]. specialize (Hh c r eq_refl).
    destruct (lines_of_cons c r Hh) as (w & ws & _ & ->). done.
  - clear Hh. revert Hne Hr. generalize (trim_space s). clear. induction s as [|c s IH]; intros Hne Hr; [done|].
    cbn in Hr. destruct (trim_right s) as [|d r] eqn:E.
    + destruct (is_space c) eqn:Ec; [done|]. injection Hr as <-.
      destruct (lines_of_cons c "") as (w & ws & H1 & ->); [intros ->; by vm_compute in Ec|]. by injection H1 as <- <-.
    + injection Hr as Hr. rewrite <- Hr in E. specialize (IH ltac:(by rewrite <- Hr)).
      rewrite <- Hr in IH. assert (Hl : last (lines_of (String d r)) <> Some "") by (apply IH; congruence).
      rewrite <- Hr. destruct (decide (c = newline)) as [->|Hc].
      * change (lines_of (String newline (String d r))) with ("" :: lines_of (String d r)).
        pose proof (lines_of_ne (String d r)). by destruct (lines_of (String d r)).
      * destruct (lines_of_cons c (String d r) Hc) as (w & ws & H1 & ->). rewrite H1 in Hl. by destruct ws.
Qed.

Lemma trim_no_cr s : no_cr s -> no_cr (trim_space s).
Proof.
  intros H. unfold trim_space. destruct (trim_left_suffix s) as [a Ha]. rewrite Ha in H. apply no_cr_app in H as [_ H].
  destruct (trim_right_prefix (trim_left s)) as [b Hb]. rewrite Hb in H. by apply no_cr_app in H as [H _].
Qed.

Lemma mark_no_cr body key : no_cr body -> no_cr key -> no_cr (MarkCommentKey body key).
Proof.
  intros Hb Hk. unfold MarkCommentKey. repeat case_match; try done. unfold CommentKeyMarker, commentKeyMarkerPrefix.
  rewrite !no_cr_app. split_and!; try done. by apply trim_no_cr.
Qed.

Lemma truncated_whole t : 0 <= t < year_10000 -> whole_seconds (truncate_second t).
Proof.
  intros H. unfold whole_seconds, truncate_second. pose proof (Z.mod_pos_bound t Second ltac:(done)).
  pose proof (Z.mod_le t Second ltac:(lia) ltac:(done)). split; [lia|].
  rewrite Zminus_mod, Zmod_mod, Z.sub_diag. done.
Qed.

(** A comment of Itervox, the update's time: the file stays well formed. *)
Lemma commented_ok f0 t body updated :
  file_ok f0 -> whole_seconds t -> no_cr body -> file_ok (add_comment t body f0 <| if_Updated := updated |>).
Proof.
  intros [[F1 F2 F3 F4] [B1 B2 B3 B4] [C1 C2 C3]] Ht Hb. constructor; constructor; cbn; try done.
  - apply Forall_app. split; [done|]. constructor; [|constructor]. split; [done|]. split; [done|]. apply neat_trimmed.
  - intros H. by apply app_nil in H as [_ H].
  - apply Forall_app. split; [done|]. constructor; [|constructor]. split; [done|]. by apply trim_no_cr.
Qed.

(** An entry that serves the version written to its file goes on serving it. *)
Lemma served_after env d t id e f' file :
  en_name e = file_name id -> is_identifier id = true -> (file_name id ∉ env_no_info env) -> env_list_error env = false ->
  lt_entries t !! id = Some e -> en_file e = Some f' ->
  files d !! file_name id = Some file -> parseIssueFile unmarshal (df_data file) = inr f' ->
  good_file (lt_entries (snd (refreshLocked env d t))) id = Some f'.
Proof.
  intros Hn Hi Hno He Hl Hf Hd Hp. destruct d as [fs|]; [|cbn in Hd; by rewrite lookup_empty in Hd]. cbn in Hd.
  unfold good_file. rewrite refresh_lookup by done. rewrite Hi, bool_decide_eq_false_2, Hl, Hd by done. cbn.
  unfold refresh_entry. destruct (_ && _); [exact Hf|]. unfold readLocked. cbn. case_bool_decide; [exact Hf|].
  by rewrite Hn, Hd, Hp.
Qed.

(** The last of the served comments is the new one. *)
Lemma new_comment_served id f0 t body key updated blocked :
  key <> "" ->
  let i := toIssue (add_comment t (MarkCommentKey body key) f0 <| if_Updated := updated |>) id <| issue_BlockedBy := blocked |> in
  let c := MkComment (id +:+ "-c" +:+ format_d (Z.of_nat (length (if_Comments (add_comment t (MarkCommentKey body key) f0)))))
             (trim_space (MarkCommentKey body key)) (Some t) ItervoxAuthor ItervoxAuthor in
  (exists found, @inr LocalError _ (List.find (fun c => CommentHasKey (comment_Body c) key) (issue_Comments i)) = inr (Some found) /\
     CommentHasKey (comment_Body found) key = true) /\
  (exists j, @inr LocalError _ i = inr j /\ last (issue_Comments j) = Some c).
Proof.
  intros Hk i c. assert (Hlast : last (issue_Comments i) = Some c).
  { cbn. rewrite imap_app. cbn. rewrite last_snoc, Nat.add_0_r. unfold comment_of, c. cbn. rewrite length_app. cbn.
    by rewrite Nat2Z.inj_add. }
  split; [|by exists i]. destruct (List.find _ (issue_Comments i)) as [found|] eqn:Hfind.
  - exists found. split; [done|]. by apply find_some in Hfind as [_ ?].
  - exfalso. apply last_Some_elem_of, list_elem_of_In in Hlast. apply (find_none _ _ Hfind) in Hlast. cbn in Hlast.
    by rewrite served_key in Hlast.
Qed.


(** ** New issues *)

Definition numbered (prefix : string) (ids : list string) (n : Z) : Prop :=
  exists id p, id ∈ ids /\ splitIdent id = (p, n) /\ equal_fold p prefix = true.

Lemma next_number_above prefix ids n :
  (forall n, numbered prefix ids n -> n < int64_max) -> numbered prefix ids n -> n < next_number prefix ids.
Proof.
  unfold next_number.
  assert (H : forall start, 1 <= start -> (forall n, numbered prefix ids n -> n < int64_max) ->
    let r := foldl (fun next id => let '(p, n) := splitIdent id in
               if equal_fold p prefix && (next <=? n) then add64 n 1 else next) start ids in
    start <= r /\ forall n, numbered prefix ids n -> n < r).
  { induction ids as [|id ids IH]; intros start Hs Hmax; cbn [foldl].
    { split; [done|]. by intros m (x & p & Hin%not_elem_of_nil & _). }
    assert (Hmax' : forall n, numbered prefix ids n -> n < int64_max).
    { intros m (x & p & Hin & Hx). apply Hmax. exists x, p. split; [by right|done]. }
    destruct (splitIdent id) as [p m] eqn:Ei.
    destruct (equal_fold p prefix) eqn:Ep; cbn [andb].
    - assert (Hm : m < int64_max) by (apply Hmax; exists id, p; split; [by left|done]).
      destruct (Z.leb_spec start m) as [Hle|Hlt].
      + assert (Ha : add64 m 1 = m + 1) by (unfold add64; apply wrap64_id; unfold is_int64, int64_min, int64_max in *; lia).
        rewrite Ha. destruct (IH (m + 1) ltac:(lia) Hmax') as [H1 H2]. split; [lia|].
        intros k (x & q & [->|Hin]%elem_of_cons & Hx & Hq); [rewrite Ei in Hx; injection Hx as _ <-; lia|].
        apply H2. by exists x, q.
      + destruct (IH start Hs Hmax') as [H1 H2]. split; [done|].
        intros k (x & q & [->|Hin]%elem_of_cons & Hx & Hq); [rewrite Ei in Hx; injection Hx as _ <-; lia|].
        apply H2. by exists x, q.
    - destruct (IH start Hs Hmax') as [H1 H2]. split; [done|].
      intros k (x & q & [->|Hin]%elem_of_cons & Hx & Hq); [rewrite Ei in Hx; injection Hx as <- _; congruence|].
      apply H2. by exists x, q. }
  intros Hmax Hn. by apply (H 1 ltac:(lia) Hmax).
Qed.

(** A new issue takes a name no file has and a number past every number of its
    prefix, as long as those fit an int; it is in one new file with the given
    title, state and body, and no file that was there is touched. *)
Theorem create_issue_fresh env title body state d t i d' t' :
  CreateIssue env title body state d t = (inr i, d', t') ->
  exists t1 next f, refreshLocked env d t = (None, t1) /\
    issue_Identifier i = lt_prefix t1 +:+ "-" +:+ format_d next /\
    (let ids := map fst (map_to_list (lt_entries t1)) in
     (forall n, numbered (lt_prefix t1) ids n -> n < int64_max) ->
     forall n, numbered (lt_prefix t1) ids n -> n < next) /\
    files d !! file_name (issue_Identifier i) = None /\
    d' = Some (<[file_name (issue_Identifier i) := MkDiskFile (render marshal flowList f) (env_mtime env)]> (files d)) /\
    if_Title f = trim_space title /\ if_State f = state /\ if_Body f = trim_space body /\ if_Comments f = [].
Proof.
  unfold CreateIssue. case_match; [done|].
  destruct (refreshLocked env d t) as [[err|] t1]; [done|]. cbn zeta.
  set (next := next_number _ _). set (ident := lt_prefix t1 +:+ "-" +:+ format_d next).
  set (f := MkIssueFile _ _ _ _ _ _ _ _ _ _ _ _).
  case_bool_decide as Hex; [done|]. unfold writeLocked. destruct (env_write_error env); [done|].
  unfold issueLocked, good_file. cbn [lt_entries]. cbn. rewrite lookup_insert_eq. cbn. intros [= <- <- <-].
  exists t1, next, f. cbn. split_and!; try done.
  - intros Hmax n Hn. by apply next_number_above.
  - by apply eq_None_not_Some.
Qed.

End yaml.

(** ** Examples *)

Module Demo.

Definition unmarshal := LocalFile.Demo.unmarshal.
Definition marshal := LocalFile.Demo.marshal.
Definition flowList := LocalFile.Demo.flowList.
Definition tricky_text : string := render marshal flowList LocalFile.Demo.tricky.

Definition clock (wall : Time) : Env := MkEnv false ∅ ∅ false wall LocalFile.Demo.noon wall.

Definition one_file (mod_ : Time) : Disk := Some {[file_name "ITX-7" := MkDiskFile tricky_text mod_]}.

Definition fresh : LocalTracker := New "" ["Todo"] ["Done"].
Definition site : Site := MkSite (100 * Second) (one_file 0) fresh.

(** The tracker reads the file, and somebody edits it within the same tick of
    the clock of the file system. *)
Definition edited_text : string := "---" +:+ nl +:+ "title: broken" +:+ nl +:+ "---" +:+ nl.
Definition read_once : Site :=
  MkSite (100 * Second) (one_file 0) (snd (refreshLocked unmarshal (clock (100 * Second)) (one_file 0) fresh)).
Definition edited : Site :=
  MkSite (100 * Second) (Some (<[file_name "ITX-7" := MkDiskFile edited_text (99 * Second)]> (files (one_file 0))))
    (si_tracker read_once).

Lemma edited_reached : rtc (use unmarshal marshal flowList) site edited.
Proof.
  eapply rtc_l; [exact (use_read unmarshal marshal flowList site (clock (100 * Second)) eq_refl)|].
  apply rtc_once. refine (use_edit unmarshal marshal flowList read_once (file_name "ITX-7")
    (MkDiskFile edited_text (99 * Second)) _). cbn. unfold racyWindow, Second, Millisecond. lia.
Qed.

End Demo.

Definition edited_tracker : LocalTracker :=
  snd (refreshLocked Demo.unmarshal (Demo.clock (100 * Second)) (si_disk Demo.edited) (si_tracker Demo.edited)).


Definition moved := update Demo.unmarshal Demo.marshal Demo.flowList (Demo.clock (100 * Second)) "ITX-7" (set_state "Done")
  (si_disk Demo.site) (si_tracker Demo.site).

(** What an answer holds, if it is one. *)
Definition reply {A} (show : A -> string) (r : Answer A * Disk * LocalTracker) : string :=
  match fst (fst r) with inr a => show a | inl _ => "" end.

Lemma moved_reply : reply if_State moved = "Done".
Proof. vm_compute. reflexivity. Qed.

Example update_applies_to_disk_witness :
  exists f' d t f0, moved = (inr f', d, t) /\ parseIssueFile Demo.unmarshal Demo.tricky_text = inr f0 /\
    f' = set_state "Done" f0 <| if_Updated := Some LocalFile.Demo.noon |>.
Proof.
  pose proof moved_reply as Hr. destruct moved as [[[err|f'] d] t] eqn:E; [discriminate Hr|].
  destruct (update_applies_to_disk Demo.unmarshal Demo.marshal Demo.flowList Demo.site Demo.site (Demo.clock (100 * Second))
    "ITX-7" (set_state "Done") (inr f') d t eq_refl (rtc_refl _ _) eq_refl E) as (f & f0 & Hf & Hp & Hf' & _).
  exists f', d, t, f0. split; [reflexivity|]. split; [|exact Hf'].
  change (files (si_disk Demo.site)) with ({[file_name "ITX-7" := MkDiskFile Demo.tricky_text 0]} : gmap string DiskFile) in Hf.
  rewrite lookup_singleton_eq in Hf. injection Hf as <-. exact Hp.
Defined.

Definition created := CreateIssue Demo.unmarshal Demo.marshal Demo.flowList (Demo.clock (100 * Second)) "A title" "" "Todo"
  (si_disk Demo.site) (si_tracker Demo.site).

Lemma created_reply : reply issue_Identifier created = "ITX-8".
Proof. vm_compute. reflexivity. Qed.

Example create_issue_fresh_witness :
  exists i d t, created = (inr i, d, t) /\ issue_Identifier i = "ITX-8" /\
    files (si_disk Demo.site) !! file_name (issue_Identifier i) = None.
Proof.
  pose proof created_reply as Hr. destruct created as [[[err|i] d] t] eqn:E; [discriminate Hr|].
  exists i, d, t. split; [reflexivity|]. split; [exact Hr|].
  destruct (create_issue_fresh Demo.unmarshal Demo.marshal Demo.flowList _ _ _ _ _ _ _ _ _ E)
    as (t1 & next & f & _ & _ & _ & H & _). exact H.
Defined.

(** A keyed comment on the file. *)
Definition commented := CreateCommentWithKey Demo.unmarshal Demo.marshal Demo.flowList (Demo.clock (100 * Second)) "ITX-7" "k1"
  "Deployed." (si_disk Demo.site) (si_tracker Demo.site).

Lemma commented_reply : reply comment_ID commented = "ITX-7-c3".
Proof. vm_compute. reflexivity. Qed.

Definition commented_entries : gmap string entry := lt_entries (snd commented).

Definition commented_file : issueFile :=
  add_comment LocalFile.Demo.noon (MarkCommentKey "Deployed." "k1") LocalFile.Demo.tricky.

Lemma commented_served : good_file commented_entries "ITX-7" = Some commented_file.
Proof. vm_compute. reflexivity. Qed.

Lemma tricky_parsed f f0 :
  files (si_disk Demo.site) !! file_name "ITX-7" = Some f -> parseIssueFile Demo.unmarshal (df_data f) = inr f0 ->
  f0 = LocalFile.Demo.tricky.
Proof.
  change (files (si_disk Demo.site)) with ({[file_name "ITX-7" := MkDiskFile Demo.tricky_text 0]} : gmap string DiskFile).
  rewrite lookup_singleton_eq. intros [= <-]. cbn [df_data]. intros Hp.
  enough (Hx : (inr f0 : file_error + issueFile) = inr LocalFile.Demo.tricky) by (injection Hx as ->; reflexivity).
  etrans; [symmetry; exact Hp|].
  exact (file_roundtrip _ _ _ _ LocalFile.Demo.tricky_ok LocalFile.Demo.tricky_faithful).
Qed.

Lemma commented_faithful : yaml_faithful Demo.unmarshal Demo.marshal Demo.flowList commented_file.
Proof.
  destruct LocalFile.Demo.tricky_faithful as (front & m & H1 & H2 & H3 & H4 & [? ? ? ? ? ? ? ? ?]).
  exists front, m. split; [exact H1|]. split; [exact H2|]. split; [exact H3|]. split; [exact H4|]. by constructor.
Qed.


(** ** A file that could not be read once

    The failed reading takes the file's new stamp, so once the racy window has
    passed the file counts as read: although nothing keeps it from being read
    any more, it is not looked at until it is modified again. *)
Definition cannot_read : Env :=
  MkEnv false ∅ {[file_name "ITX-7"]} false (100 * Second) LocalFile.Demo.noon (100 * Second).

Definition missed : LocalTracker := snd (refreshLocked Demo.unmarshal cannot_read (Demo.one_file 0) Demo.fresh).

Theorem read_error_sticks :
  (forall f, files (Demo.one_file 0) !! file_name "ITX-7" = Some f ->
     exists g, parseIssueFile Demo.unmarshal (df_data f) = inr g) /\
  forall wall, let t := snd (refreshLocked Demo.unmarshal (Demo.clock wall) (Demo.one_file 0) missed) in
    issueLocked t "ITX-7" = None /\ (en_problem <$> lt_entries t !! "ITX-7") = Some CannotRead.
Proof.
  split.
  - intros f Hf. exists LocalFile.Demo.tricky.
    change (files (Demo.one_file 0)) with ({[file_name "ITX-7" := MkDiskFile Demo.tricky_text 0]} : gmap string DiskFile) in Hf.
    rewrite lookup_singleton_eq in Hf. injection Hf as <-.
    exact (file_roundtrip _ _ _ _ LocalFile.Demo.tricky_ok LocalFile.Demo.tricky_faithful).
  - intros wall t.
    assert (Hm : lt_entries missed !! "ITX-7" =
      Some (MkEntry (file_name "ITX-7") None (stamp_of (MkDiskFile Demo.tricky_text 0)) (100 * Second) CannotRead))
      by (vm_compute; reflexivity).
    assert (Ht : lt_entries t !! "ITX-7" = lt_entries missed !! "ITX-7").
    { unfold t, Demo.one_file. rewrite refresh_lookup by done. change (is_identifier "ITX-7") with true.
      rewrite bool_decide_eq_false_2 by (exact (not_elem_of_empty _)). cbn [andb negb].
      rewrite lookup_singleton_eq. vm_compute. reflexivity. }
    unfold issueLocked, good_file. rewrite Ht, Hm. split; reflexivity.
Qed.
