(* ===== verification/RateGate.v ===== *)
(** * RateGate: waiting out a tracker's rate limit
    (internal/tracker/ratelimit_gate.go, ratelimit_retry.go,
    ratelimit_classify.go)

    Every call to a tracker asks one gate of the process before it sends, and
    re-sends a rate-limited request a bounded number of times.  What the network
    answers, when, and what other callers record meanwhile is a [Net]; reading
    an HTTP date is an argument, and a response body is the list of error codes
    that its JSON carries. *)

From stdpp Require Import base gmap list strings.
From Stdlib Require Import Ascii.
From S2P Require Import Prelude.

Local Open Scope Z_scope.

(** ** strconv.ParseInt, base 10

    A number too large for a uint64 is noticed before the bytes after it are
    read. *)

Inductive IntParse :=
  | IntOk (n : Z)
  | IntRange (n : Z)  (* the saturated value *)
  | IntSyntax.

Definition uint64_max : Z := 2 ^ 64 - 1.

Fixpoint parse_uint (acc : Z) (s : string) : IntParse :=
  match s with
  | EmptyString => IntOk acc
  | String c s' =>
      if negb (is_digit c) then IntSyntax
      else if uint64_max / 10 + 1 <=? acc then IntRange uint64_max
      else
        let n := 10 * acc + (Z.of_N (N_of_ascii c) - 48) in
        if uint64_max <? n then IntRange uint64_max else parse_uint n s'
  end.

Definition ParseUint (s : string) : IntParse :=
  match s with EmptyString => IntSyntax | _ => parse_uint 0 s end.

Definition signed (neg : bool) (r : IntParse) : IntParse :=
  match r with
  | IntSyntax => IntSyntax
  | IntOk un | IntRange un =>
      if neg then if 2 ^ 63 <? un then IntRange int64_min else IntOk (- un)
      else if 2 ^ 63 <=? un then IntRange int64_max else IntOk un
  end.

Definition ParseInt (s : string) : IntParse :=
  match s with
  | String c s' =>
      if Ascii.eqb c "+"%char then signed false (ParseUint s')
      else if Ascii.eqb c "-"%char then signed true (ParseUint s')
      else signed false (ParseUint s)
  | EmptyString => IntSyntax
  end.

(** [time.Unix] and [time.UnixMilli] of a positive count; the seconds since
    Go's zero time are an int64. *)
Definition Unix (secs : Z) : Time := wrap64 (secs + 62135596800) * Second.
Definition UnixMilli (ms : Z) : Time :=
  wrap64 (Z.quot ms 1000 + 62135596800) * Second + Z.rem ms 1000 * Millisecond.

(** ** The gate (ratelimit_gate.go) *)

Abbreviation Gates := (gmap string Time).

Definition MaxRateLimitRetries : nat := 4.
Definition MaxRateLimitWait : Duration := 60 * Second.
Definition rateLimitWaitBase : Duration := 2 * Second.
Definition maxRecordedWindow : Duration := 2 * Hour.
Definition writeFirstGrace : Duration := 250 * Millisecond.

(** A later instant wins, an earlier one never shortens. *)
Definition extend (adapter : string) (until : Time) (g : Gates) : Gates :=
  match g !! adapter with
  | Some existing => if time_after existing until then g else <[adapter := until]> g
  | None => <[adapter := until]> g
  end.

Definition GateRecord (now : Time) (adapter : string) (retryAfter : Duration) (g : Gates) : Gates :=
  if retryAfter <=? 0 then g
  else extend adapter (time_add now (Z.min retryAfter MaxRateLimitWait)) g.

Definition boundResetAt (now reset : Time) : Time :=
  if time_after reset (time_add now maxRecordedWindow) then time_add now maxRecordedWindow else reset.

Definition RecordUntil (now : Time) (adapter : string) (until : Time) (g : Gates) : Gates :=
  if time_is_zero until then g
  else if negb (time_after until now) then g
  else extend adapter (boundResetAt now until) g.

(** How long a caller waits; a window that has passed is dropped. *)
Definition remaining (now : Time) (adapter : string) (isWrite : bool) (g : Gates) : Duration * Gates :=
  match g !! adapter with
  | None => (0, g)
  | Some until =>
      let d := time_sub until now in
      if d <=? 0 then (0, base.delete adapter g)
      else (Z.min (if isWrite then d else add64 d writeFirstGrace) MaxRateLimitWait, g)
  end.

Definition OpenUntil (now : Time) (adapter : string) (g : Gates) : option Time :=
  match g !! adapter with
  | Some until => if time_after until now then Some until else None
  | None => None
  end.

(** ** Requests (ratelimit_retry.go 47-130, 340-391) *)

Inductive requestIntent := intentUnset | intentWrite | intentRead.

(** [rq_GetBody]: [None] when it is nil, else whether calling it succeeds. *)
Record Request := MkRequest {
  rq_Method : string;
  rq_Intent : requestIntent;
  rq_Body : bool;
  rq_GetBody : option bool;
  rq_Deadline : option Time;
}.

Definition isWriteRequest (req : Request) : bool :=
  match rq_Intent req with
  | intentWrite => true
  | intentRead => false
  | intentUnset => negb (String.eqb (rq_Method req) "GET" || String.eqb (rq_Method req) "HEAD")
  end.

Definition HasWriteIntent (req : Request) : bool :=
  match rq_Intent req with intentWrite => true | _ => false end.
Definition HasReadIntent (req : Request) : bool :=
  match rq_Intent req with intentRead => true | _ => false end.

Definition rewindRequest (req : Request) : bool :=
  match rq_Body req, rq_GetBody req with
  | false, None => true
  | _, None => false
  | _, Some ok => ok
  end.

(** ** Responses (ratelimit_classify.go)

    A header that is absent is the empty string.  [rs_Codes] are the codes of
    the errors array; [None] when the body is absent, unreadable or not JSON. *)
Record Response := MkResponse {
  rs_Status : Z;
  rs_Header : string -> string;
  rs_Codes : option (list string);
}.

(** Whether the response is a rate limit, and the published reset. *)
Definition RateLimitClassifier : Type := Response -> bool * Time.

Definition GitHubRateLimitClassifier : RateLimitClassifier := fun resp =>
  let h := rs_Header resp in
  let limited :=
    if rs_Status resp =? 429 then true
    else if negb (rs_Status resp =? 403) then false
    else negb (String.eqb (h "Retry-After") "") || String.eqb (h "X-RateLimit-Remaining") "0" in
  if negb limited then (false, zero_time)
  else if negb (String.eqb (h "X-RateLimit-Remaining") "0") then (true, zero_time)
  else
    match ParseInt (h "X-RateLimit-Reset") with
    | IntOk secs => if 0 <? secs then (true, Unix secs) else (true, zero_time)
    | _ => (true, zero_time)
    end.

Definition consider_reset (h : string -> string) (latest : Time) (keys : string * string) : Time :=
  if negb (String.eqb (h keys.1) "0") then latest
  else
    match ParseInt (h keys.2) with
    | IntOk ms => if ms <=? 0 then latest
                  else if time_after (UnixMilli ms) latest then UnixMilli ms else latest
    | _ => latest
    end.

Definition linearResetAt (h : string -> string) : Time :=
  foldl (consider_reset h) zero_time
    [("X-RateLimit-Requests-Remaining", "X-RateLimit-Requests-Reset");
     ("X-RateLimit-Complexity-Remaining", "X-RateLimit-Complexity-Reset")].

Definition LinearRateLimitClassifier : RateLimitClassifier := fun resp =>
  if rs_Status resp =? 429 then (true, linearResetAt (rs_Header resp))
  else if negb (rs_Status resp =? 400) then (false, zero_time)
  else
    match rs_Codes resp with
    | Some codes => if existsb (String.eqb "RATELIMITED") codes
                    then (true, linearResetAt (rs_Header resp)) else (false, zero_time)
    | None => (false, zero_time)
    end.

Section Retry.
Context (ParseTime : string -> option Time).

Definition ParseRetryAfter (header : string) (now : Time) : Duration :=
  if String.eqb header "" then 0
  else
    match ParseInt header with
    | IntOk secs | IntRange secs =>
        if secs <=? 0 then 0
        else if Z.quot maxRecordedWindow Second <=? secs then maxRecordedWindow
        else mul64 secs Second
    | IntSyntax =>
        match ParseTime header with
        | Some when_ => let d := time_sub when_ now in
                        if 0 <? d then Z.min d maxRecordedWindow else 0
        | None => 0
        end
    end.

Definition rateLimitBackoff (attempt : nat) (retryAfter : Duration) : Duration :=
  let wait := if retryAfter <=? 0 then shl64 rateLimitWaitBase (Z.of_nat attempt) else retryAfter in
  Z.min wait MaxRateLimitWait.

Definition publishedReset (now classified : Time) (retryAfter : Duration) : Time :=
  let reset := if time_is_zero classified && (0 <? retryAfter) then time_add now retryAfter
               else classified in
  if time_is_zero reset then reset else boundResetAt now reset.

Definition exceedsBudget (deadline : option Time) (now until : Time) : bool :=
  (MaxRateLimitWait <? time_sub until now)
  || match deadline with Some d => time_after until d | None => false end.

Definition recordRateLimitWindow (now : Time) (adapter : string) (resetAt : Time) (fallback : Duration)
    (g : Gates) : Gates :=
  if time_is_zero resetAt then GateRecord now adapter fallback g else RecordUntil now adapter resetAt g.

(** ** A call *)

Inductive Answer :=
  | Replied (resp : Response)
  | Broken (err : string).

(** The [k]-th send is answered with [net_answer k] at [net_now k]; by then other
    callers have changed the gate by [net_others k].  The wait after it ends, or
    is cut short by the context ([net_sleeps k]), and so is the wait at the gate
    ([net_gate_wait]).  [net_start] is the clock before the first send. *)
Record Net := MkNet {
  net_start : Time;
  net_gate_wait : bool;
  net_now : nat -> Time;
  net_answer : nat -> Answer;
  net_others : nat -> Gates -> Gates;
  net_sleeps : nat -> bool;
}.

Inductive Outcome :=
  | Delivered (resp : Response)
  | TransportError (err : string)
  | RateLimitedError (resetAt : Time)
  | ContextDone.

(** What came of a call, the gate it leaves, the number of requests sent, and
    the waits between them: after which answer, and how long. *)
Record Call := MkCall {
  call_outcome : Outcome;
  call_gates : Gates;
  call_sends : nat;
  call_waits : list (nat * Duration);
}.

(** The wait before the re-send: the backoff, or the published reset when that
    is later. *)
Definition retry_wait (attempt : nat) (now resetAt : Time) (retryAfter : Duration) : Duration :=
  let wait := rateLimitBackoff attempt retryAfter in
  if time_is_zero resetAt then wait else Z.max wait (time_sub resetAt now).

Definition limit_of (classify : RateLimitClassifier) (now : Time) (resp : Response) : option (Duration * Time) :=
  let '(limited, classified) := classify resp in
  if limited then
    let retryAfter := ParseRetryAfter (rs_Header resp "Retry-After") now in
    Some (retryAfter, publishedReset now classified retryAfter)
  else None.

(** The [k]-th answer has come; [budget] re-sends are left. *)
Fixpoint attempts (net : Net) (req : Request) (adapter : string) (classify : RateLimitClassifier)
    (budget k : nat) (g : Gates) (waits : list (nat * Duration)) : Call :=
  let finish out g := MkCall out g (S k) waits in
  let g := net_others net k g in
  match net_answer net k with
  | Broken err => finish (TransportError err) g
  | Replied resp =>
      let now := net_now net k in
      match limit_of classify now resp with
      | None => finish (Delivered resp) g
      | Some (retryAfter, resetAt) =>
          match budget with
          | O => finish (RateLimitedError resetAt)
                   (recordRateLimitWindow now adapter resetAt (rateLimitBackoff MaxRateLimitRetries retryAfter) g)
          | S budget =>
              let wait := retry_wait k now resetAt retryAfter in
              let g := recordRateLimitWindow now adapter resetAt wait g in
              if (negb (time_is_zero resetAt) && exceedsBudget (rq_Deadline req) now resetAt)
                 || exceedsBudget (rq_Deadline req) now (time_add now wait)
              then finish (RateLimitedError (if time_is_zero resetAt then time_add now wait else resetAt)) g
              else if negb (rewindRequest req) then finish (RateLimitedError resetAt) g
              else if negb (net_sleeps net k) then MkCall ContextDone g (S k) (waits ++ [(k, wait)])
              else attempts net req adapter classify budget (S k) g (waits ++ [(k, wait)])
          end
      end
  end.

Definition doWithRateLimitRetry (net : Net) (req : Request) (adapter : string)
    (classify : RateLimitClassifier) (g : Gates) : Call :=
  let now := net_start net in
  match OpenUntil now adapter g with
  | Some until =>
      if exceedsBudget (rq_Deadline req) now until
      then MkCall (RateLimitedError until) g 0 []
      else
        let '(d, g) := remaining now adapter (isWriteRequest req) g in
        if (0 <? d) && negb (net_gate_wait net) then MkCall ContextDone g 0 []
        else attempts net req adapter classify MaxRateLimitRetries 0 g []
  | None =>
      let '(d, g) := remaining now adapter (isWriteRequest req) g in
      attempts net req adapter classify MaxRateLimitRetries 0 g []
  end.

End Retry.

(** ** Bounds *)

Lemma boundResetAt_le now reset : boundResetAt now reset <= now + maxRecordedWindow.
Proof. unfold boundResetAt, time_after, time_add. case_match; [done|]. lia. Qed.

Lemma boundResetAt_before now reset : boundResetAt now reset <= reset.
Proof. unfold boundResetAt, time_after, time_add. case_match; lia. Qed.

Lemma time_sub_le t u d : 0 <= d < int64_max -> time_sub t u <= d <-> t - u <= d.
Proof. unfold time_sub, int64_min, int64_max. lia. Qed.

Section Bounds.
Context (ParseTime : string -> option Time).

Lemma ParseRetryAfter_range header now :
  0 <= ParseRetryAfter ParseTime header now <= maxRecordedWindow.
Proof.
  assert (Hw : 0 <= maxRecordedWindow) by done. unfold ParseRetryAfter.
  destruct (String.eqb header ""); [done|].
  assert (Hs : forall secs, 0 <= (if secs <=? 0 then 0 else if Z.quot maxRecordedWindow Second <=? secs
    then maxRecordedWindow else mul64 secs Second) <= maxRecordedWindow).
  { intros secs. destruct (Z.leb_spec secs 0); [done|].
    change (Z.quot maxRecordedWindow Second) with 7200. destruct (Z.leb_spec 7200 secs); [done|].
    change Second with 1000000000. change maxRecordedWindow with 7200000000000.
    unfold mul64. rewrite wrap64_id; [lia|]. unfold is_int64, int64_min, int64_max. lia. }
  destruct (ParseInt header); [apply Hs|apply Hs|].
  destruct (ParseTime header) as [t|]; [|done]. cbn zeta. destruct (Z.ltb_spec 0 (time_sub t now)); lia.
Qed.

Lemma rateLimitBackoff_range k retryAfter :
  (k <= MaxRateLimitRetries)%nat -> 0 < rateLimitBackoff k retryAfter <= MaxRateLimitWait.
Proof.
  unfold MaxRateLimitRetries, rateLimitBackoff. intros Hk. cbn zeta.
  assert (0 < MaxRateLimitWait) by done.
  destruct (Z.leb_spec retryAfter 0); [|lia].
  do 5 (destruct k as [|k]; [by split; vm_compute|]). lia.
Qed.

Lemma publishedReset_le now classified retryAfter :
  publishedReset now classified retryAfter <> 0 ->
  publishedReset now classified retryAfter <= now + maxRecordedWindow.
Proof.
  unfold publishedReset. cbn zeta. set (reset := if _ && _ then _ else _).
  unfold time_is_zero. destruct (Z.eqb_spec reset 0); [done|]. intros _. apply boundResetAt_le.
Qed.

Lemma retry_wait_ok k now reset retryAfter :
  (k <= MaxRateLimitRetries)%nat ->
  let wait := retry_wait k now reset retryAfter in
  0 < wait /\ (reset <> 0 -> reset <= now + maxRecordedWindow -> reset <= now + wait).
Proof.
  intros Hk wait. pose proof (rateLimitBackoff_range k retryAfter Hk) as Hb.
  unfold wait, retry_wait, time_is_zero. cbn zeta. destruct (Z.eqb_spec reset 0); [by split; [lia|]|].
  split; [lia|]. intros _ Hr. unfold time_sub, int64_min, int64_max.
  assert (maxRecordedWindow = 7200000000000) by done. lia.
Qed.

Lemma within_budget deadline now until :
  exceedsBudget deadline now until = false ->
  until <= now + MaxRateLimitWait /\ forall d, deadline = Some d -> until <= d.
Proof.
  unfold exceedsBudget, time_after. intros [H1%Z.ltb_ge H2]%orb_false_iff. split.
  - apply time_sub_le in H1; [lia|]. by split.
  - intros d ->. by apply Z.ltb_ge in H2.
Qed.

(** ** What a call does *)

(** A wait of a call, seen from the network's answers. *)
Definition wait_ok (net : Net) (req : Request) (classify : RateLimitClassifier) (w : nat * Duration) : Prop :=
  let '(k, d) := w in
  0 < d <= MaxRateLimitWait /\ (forall dl, rq_Deadline req = Some dl -> net_now net k + d <= dl) /\
  exists resp retryAfter reset,
    net_answer net k = Replied resp /\
    limit_of ParseTime classify (net_now net k) resp = Some (retryAfter, reset) /\
    (reset <> 0 -> reset <= net_now net k + d).

Definition outcome_ok (net : Net) (req : Request) (classify : RateLimitClassifier) (adapter : string)
    (g : Gates) (c : Call) : Prop :=
  match call_outcome c with
  | Delivered resp => exists k, call_sends c = S k /\ net_answer net k = Replied resp /\ fst (classify resp) = false
  | TransportError err => exists k, call_sends c = S k /\ net_answer net k = Broken err
  | RateLimitedError reset =>
      (call_sends c = 0%nat /\ g !! adapter = Some reset /\ exceedsBudget (rq_Deadline req) (net_start net) reset = true)
      \/ exists k resp, call_sends c = S k /\ net_answer net k = Replied resp /\ fst (classify resp) = true /\
           reset <= net_now net k + maxRecordedWindow
  | ContextDone => True
  end.

Lemma limit_of_some classify now resp retryAfter reset :
  limit_of ParseTime classify now resp = Some (retryAfter, reset) ->
  fst (classify resp) = true /\ (reset <> 0 -> reset <= now + maxRecordedWindow).
Proof.
  unfold limit_of. destruct (classify resp) as [limited classified]. destruct limited; [|done].
  intros [= <- <-]. split; [done|]. apply publishedReset_le.
Qed.

Lemma limit_of_none classify now resp : limit_of ParseTime classify now resp = None -> fst (classify resp) = false.
Proof. unfold limit_of. by destruct (classify resp) as [[] ?]. Qed.

Definition call_ok (net : Net) (req : Request) (classify : RateLimitClassifier) (adapter : string)
    (g : Gates) (c : Call) : Prop :=
  (call_sends c <= S MaxRateLimitRetries)%nat /\ (length (call_waits c) <= MaxRateLimitRetries)%nat /\
  Forall (wait_ok net req classify) (call_waits c) /\ outcome_ok net req classify adapter g c.

Section Attempts.
Context (net : Net) (req : Request) (adapter : string) (classify : RateLimitClassifier) (g0 : Gates).
Context (Hnow : forall j, 0 <= net_now net j).

Lemma finish_ok k g waits out :
  (k <= MaxRateLimitRetries)%nat -> length waits = k -> Forall (wait_ok net req classify) waits ->
  outcome_ok net req classify adapter g0 (MkCall out g (S k) waits) ->
  call_ok net req classify adapter g0 (MkCall out g (S k) waits).
Proof. intros Hk Hl Hw Ho. split_and!; cbn; [lia|lia|done|done]. Qed.

(** A rate-limit error names a reset within the bound. *)
Lemma limited_outcome k g waits resp reset :
  net_answer net k = Replied resp -> fst (classify resp) = true ->
  reset <= net_now net k + maxRecordedWindow ->
  outcome_ok net req classify adapter g0 (MkCall (RateLimitedError reset) g (S k) waits).
Proof. intros Ha Hl Hr. right. by exists k, resp. Qed.

Lemma attempts_sound budget k g waits :
  (budget + k = MaxRateLimitRetries)%nat -> length waits = k -> Forall (wait_ok net req classify) waits ->
  call_ok net req classify adapter g0 (attempts ParseTime net req adapter classify budget k g waits).
Proof.
  revert k g waits. induction budget as [|budget IH]; intros k g waits Hk Hl Hw; cbn [attempts];
    set (g' := net_others net k g); clearbody g'.
  all: destruct (net_answer net k) as [resp|err] eqn:Ea;
    [|apply finish_ok; [lia|done|done|]; exists k; by rewrite Ea].
  all: destruct (limit_of ParseTime classify (net_now net k) resp) as [[ra reset]|] eqn:El;
    [|apply limit_of_none in El; apply finish_ok; [lia|done|done|]; exists k; by rewrite Ea].
  all: destruct (limit_of_some _ _ _ _ _ El) as [Hlim Hreset].
  all: assert (Hbound : reset <= net_now net k + maxRecordedWindow)
    by (destruct (decide (reset = 0)) as [->|]; [|by auto]; specialize (Hnow k);
        assert (maxRecordedWindow = 7200000000000) by done; lia).
  - apply finish_ok; [lia|done|done|]. by eapply limited_outcome.
  - cbn zeta. destruct (retry_wait_ok k (net_now net k) reset ra ltac:(lia)) as [Hw0 Hwr].
    destruct (_ || exceedsBudget _ _ (time_add _ _)) eqn:Eb.
    + apply finish_ok; [lia|done|done|]. eapply limited_outcome; [exact Ea|exact Hlim|].
      unfold time_is_zero. destruct (Z.eqb_spec reset 0) as [->|]; [|done].
      unfold time_add, retry_wait. cbn. destruct (rateLimitBackoff_range k ra ltac:(lia)).
      assert (MaxRateLimitWait = 60000000000 /\ maxRecordedWindow = 7200000000000) by done. lia.
    + apply orb_false_iff in Eb as [_ Eb]. apply within_budget in Eb as [Hb1 Hb2].
      set (wait := retry_wait _ _ _ _) in *. unfold time_add in *.
      assert (Hwk : wait_ok net req classify (k, wait)).
      { split_and!; [done|lia|exact Hb2|]. exists resp, ra, reset. split_and!; auto. }
      destruct (negb (rewindRequest req)); [apply finish_ok; [lia|done|done|]; by eapply limited_outcome|].
      destruct (negb (net_sleeps net k)).
      * split_and!; cbn; [lia|rewrite length_app; cbn; lia|by apply Forall_app_2; [|constructor]|done].
      * apply IH; [lia|rewrite length_app; cbn; lia|by apply Forall_app_2; [|constructor]].
Qed.

End Attempts.

(** C34: a call to the tracker sends at most five requests and waits between
    them at most four times, each time no longer than a minute, never past the
    caller's deadline and never less than the reset the tracker published; it
    answers what the last request brought, and reports a rate limit only when
    the last response was one, or, with nothing sent, when the gate was shut
    for longer than the caller can wait; the reset it names is at most two
    hours away. *)
Theorem rate_limited_call net req adapter classify g :
  (forall j, 0 <= net_now net j) ->
  call_ok net req classify adapter g (doWithRateLimitRetry ParseTime net req adapter classify g).
Proof.
  intros Hnow. unfold doWithRateLimitRetry. cbn zeta.
  assert (Hrun : forall g', call_ok net req classify adapter g
    (attempts ParseTime net req adapter classify MaxRateLimitRetries 0 g' [])).
  { intros g'. by apply attempts_sound. }
  unfold OpenUntil. destruct (g !! adapter) as [until|] eqn:Eg;
    [destruct (time_after until (net_start net))|]; cbn beta iota.
  2-3: destruct (remaining _ _ _ _) as [d g']; apply Hrun.
  destruct (exceedsBudget _ _ until) eqn:Ee.
  { split_and!; cbn; [lia|lia|constructor|]. left. by rewrite Eg. }
  destruct (remaining _ _ _ _) as [d g']. case_match; [|apply Hrun].
  split_and!; cbn; [lia|lia|constructor|done].
Qed.

End Bounds.

(** The witness: GitHub refuses the first request for a minute and answers the
    second, which goes out after that minute. *)
Definition limited_response : Response :=
  MkResponse 403 (fun k => if String.eqb k "Retry-After" then "30" else "") None.
Definition fine_response : Response := MkResponse 200 (fun _ => "") None.
Definition example_net : Net :=
  MkNet Hour true (fun k => Hour + Z.of_nat k * Minute)
    (fun k => match k with O => Replied limited_response | _ => Replied fine_response end)
    (fun _ g => g) (fun _ => true).
Definition example_get : Request := MkRequest "GET" intentUnset false None None.

Lemma rate_limited_call_witness :
  let c := doWithRateLimitRetry (fun _ => None) example_net example_get "github" GitHubRateLimitClassifier ∅ in
  call_ok (fun _ => None) example_net example_get GitHubRateLimitClassifier "github" ∅ c /\
  call_outcome c = Delivered fine_response /\ call_sends c = 2%nat /\ call_waits c = [(0%nat, 30 * Second)].
Proof.
  split; [|by vm_compute].
  apply (rate_limited_call (fun _ => None) example_net example_get "github" GitHubRateLimitClassifier ∅).
  intros j. cbn. unfold Hour, Minute, Second, Millisecond. lia.
Defined.

(** ** The gate over a history

    The operations callers make on the shared gate, each at the clock it
    reads. *)
Inductive GateOp :=
  | OpRecord (now : Time) (adapter : string) (retryAfter : Duration)
  | OpRecordUntil (now : Time) (adapter : string) (until : Time)
  | OpAsk (now : Time) (adapter : string) (isWrite : bool).

Definition op_now (op : GateOp) : Time :=
  match op with OpRecord now _ _ | OpRecordUntil now _ _ | OpAsk now _ _ => now end.

Definition gate_step (g : Gates) (op : GateOp) : Gates :=
  match op with
  | OpRecord now adapter d => GateRecord now adapter d g
  | OpRecordUntil now adapter until => RecordUntil now adapter until g
  | OpAsk now adapter w => snd (remaining now adapter w g)
  end.

Definition gate_run (g : Gates) (ops : list GateOp) : Gates := foldl gate_step g ops.

Lemma extend_keeps adapter until g a (u : Time) :
  g !! a = Some u -> exists u' : Time, extend adapter until g !! a = Some u' /\ u <= u'.
Proof.
  intros Ha. unfold extend, time_after.
  assert (Hset : (adapter = a -> u <= until) -> exists u' : Time, <[adapter := until]> g !! a = Some u' /\ u <= u').
  { intros Hle. destruct (decide (adapter = a)) as [->|].
    - exists until. split; [apply lookup_insert_eq|by apply Hle].
    - exists u. by rewrite lookup_insert_ne. }
  destruct (g !! adapter) as [e|] eqn:Ee.
  - destruct (Z.ltb_spec until e); [by exists u|]. apply Hset. intros ->. assert (e = u) by congruence. lia.
  - apply Hset. congruence.
Qed.

Lemma extend_all (P : Time -> Prop) adapter until g :
  P until -> map_Forall (fun _ => P) g -> map_Forall (fun _ => P) (extend adapter until g).
Proof.
  intros Hu Hg. unfold extend. destruct (g !! adapter); [case_match; [done|]|]; by apply map_Forall_insert_2.
Qed.

Lemma extend_records adapter until g : exists u : Time, extend adapter until g !! adapter = Some u /\ until <= u.
Proof.
  unfold extend, time_after. destruct (g !! adapter) as [e|] eqn:Ee;
    [destruct (Z.ltb_spec until e)|]; rewrite ?lookup_insert_eq; eexists; (split; [done|lia]).
Qed.

(** An open window is never shortened. *)
Lemma gate_step_keeps g op a (u : Time) :
  g !! a = Some u -> op_now op < u -> exists u' : Time, gate_step g op !! a = Some u' /\ u <= u'.
Proof.
  intros Ha Hn. assert (Hkeep : exists u' : Time, g !! a = Some u' /\ u <= u') by (by exists u).
  destruct op as [now adapter d|now adapter until|now adapter w]; cbn in *.
  - unfold GateRecord. case_match; [done|]. by apply extend_keeps.
  - unfold RecordUntil. repeat case_match; [done|done|]. by apply extend_keeps.
  - unfold remaining. destruct (g !! adapter) as [e|] eqn:Ee; [|done]. cbn zeta.
    destruct (Z.leb_spec (time_sub e now) 0) as [Hs|]; cbn; [|done].
    destruct (decide (adapter = a)) as [->|]; [|by rewrite lookup_delete_ne].
    simplify_eq. apply time_sub_le in Hs; [lia|done].
Qed.

Lemma gate_run_keeps ops g a (u : Time) :
  g !! a = Some u -> Forall (fun op => op_now op < u) ops -> exists u' : Time, gate_run g ops !! a = Some u' /\ u <= u'.
Proof.
  revert g u. induction ops as [|op ops IH]; intros g u Ha Hn; [by exists u|].
  apply Forall_cons in Hn as [Hop Hn]. destruct (gate_step_keeps g op a u Ha Hop) as (u1 & Ha1 & Hle).
  destruct (IH (gate_step g op) u1 Ha1) as (u2 & ? & ?); [|exists u2; split; [done|lia]].
  eapply Forall_impl; [exact Hn|]. intros op'. cbn. lia.
Qed.

(** No window outlives the clock it was recorded at by more than the bound. *)
Lemma gate_run_bounded hi ops g :
  Forall (fun op => op_now op <= hi) ops ->
  map_Forall (fun _ (u : Time) => u <= hi + maxRecordedWindow) g ->
  map_Forall (fun _ (u : Time) => u <= hi + maxRecordedWindow) (gate_run g ops).
Proof.
  revert g. induction ops as [|op ops IH]; intros g Hn Hg; [done|].
  apply Forall_cons in Hn as [Hop Hn]. apply IH; [done|].
  destruct op as [now adapter d|now adapter until|now adapter w]; cbn in *.
  - unfold GateRecord. case_match; [done|].
    refine (extend_all (fun u : Time => u <= hi + maxRecordedWindow) _ _ _ _ Hg). unfold time_add.
    assert (MaxRateLimitWait = 60000000000 /\ maxRecordedWindow = 7200000000000) by done. lia.
  - unfold RecordUntil. repeat case_match; [done|done|].
    refine (extend_all (fun u : Time => u <= hi + maxRecordedWindow) _ _ _ _ Hg). pose proof (boundResetAt_le now until). lia.
  - unfold remaining. repeat case_match; cbn; try done. by apply map_Forall_delete.
Qed.

Lemma boundResetAt_min now reset : boundResetAt now reset = Z.min reset (now + maxRecordedWindow).
Proof. unfold boundResetAt, time_after, time_add. case_match; lia. Qed.

(** What a caller waits when the window it finds is within a century. *)
Definition century : Duration := 100 * 366 * 24 * Hour.

Lemma remaining_range now a w g (u : Time) :
  g !! a = Some u -> u - now <= century ->
  0 <= fst (remaining now a w g) <= MaxRateLimitWait /\ Z.min (u - now) MaxRateLimitWait <= fst (remaining now a w g).
Proof.
  intros Ha Hc. unfold remaining. rewrite Ha. cbn zeta.
  assert (century = 3162240000000000000 /\ MaxRateLimitWait = 60000000000 /\ writeFirstGrace = 250000000)
    as (Ec & Em & Eg) by done.
  assert (Hs : u - now <= time_sub u now /\ (time_sub u now = u - now \/ time_sub u now = int64_min))
    by (unfold time_sub, int64_min, int64_max; lia).
  unfold int64_min in Hs. destruct (Z.leb_spec (time_sub u now) 0); cbn; [lia|].
  destruct w; [lia|]. unfold add64. rewrite wrap64_id; [lia|]. unfold is_int64, int64_min, int64_max. lia.
Qed.

(** Once a tracker's published reset is recorded, every caller that asks
    before it (or before two hours are over, if that is sooner) finds the gate
    shut and waits until it, though never longer than a minute, whatever other
    callers record meanwhile; and two hours after the last operation the gate
    is open to everybody, whatever the trackers published. *)
Theorem shared_gate lo hi before t a reset after now w :
  let ops := before ++ OpRecordUntil t a reset :: after in
  let g := gate_run ∅ ops in
  let bound := Z.min reset (t + maxRecordedWindow) in
  let wait := fst (remaining now a w g) in
  Forall (fun op => lo <= op_now op <= hi) ops -> hi - lo + maxRecordedWindow <= century -> lo <= now ->
  0 <= wait <= MaxRateLimitWait /\
  (zero_time < t < reset -> Forall (fun op => op_now op < bound) after -> now < bound ->
     Z.min (bound - now) MaxRateLimitWait <= wait /\ exists u : Time, OpenUntil now a g = Some u /\ bound <= u) /\
  (hi + maxRecordedWindow <= now -> wait = 0 /\ OpenUntil now a g = None).
Proof.
  intros ops g bound wait Hops Hc Hnow.
  assert (Hb : map_Forall (fun _ (u : Time) => u <= hi + maxRecordedWindow) g).
  { apply gate_run_bounded; [|apply map_Forall_empty]. eapply Forall_impl; [exact Hops|]. cbn. lia. }
  split; [|split].
  - unfold wait. destruct (g !! a) as [u|] eqn:Eg.
    + apply (remaining_range now a w g u Eg). specialize (Hb a u Eg). cbn in Hb. lia.
    + unfold remaining. by rewrite Eg.
  - intros Ht Hafter Hlt.
    assert (exists u : Time, g !! a = Some u /\ bound <= u) as (u & Eg & Hu).
    { unfold g, gate_run, ops. rewrite foldl_app. cbn [foldl gate_step]. fold (gate_run ∅ before).
      unfold RecordUntil, time_is_zero, time_after, zero_time in *.
      destruct (Z.eqb_spec reset 0); [lia|]. destruct (Z.ltb_spec t reset); [cbn|lia].
      destruct (extend_records a (boundResetAt t reset) (gate_run ∅ before)) as (u1 & Ha & Hle).
      rewrite boundResetAt_min in Hle. fold bound in Hle.
      destruct (gate_run_keeps after _ a u1 Ha) as (u & ? & ?); [|exists u; split; [done|lia]].
      eapply Forall_impl; [exact Hafter|]. cbn. lia. }
    split.
    + pose proof (remaining_range now a w g u Eg) as Hr. specialize (Hb a u Eg). cbn in Hb. unfold wait. lia.
    + exists u. unfold OpenUntil, time_after. rewrite Eg. destruct (Z.ltb_spec now u); [done|lia].
  - intros Hlate. unfold wait, remaining, OpenUntil, time_after. destruct (g !! a) as [u|] eqn:Eg; [|done].
    specialize (Hb a u Eg). cbn in Hb. destruct (Z.ltb_spec now u); [lia|]. cbn zeta.
    destruct (Z.leb_spec (time_sub u now) 0) as [|Hs]; [done|]. unfold time_sub, int64_min, int64_max in Hs. lia.
Qed.

(** The witness: Linear says it will be back in an hour; another call guesses
    thirty seconds. *)
Lemma shared_gate_witness :
  let ops := [OpRecordUntil Hour "linear" (2 * Hour); OpRecord (Hour + Second) "linear" (30 * Second)] in
  fst (remaining (Hour + Minute) "linear" true (gate_run ∅ ops)) = MaxRateLimitWait /\
  OpenUntil (Hour + Minute) "linear" (gate_run ∅ ops) = Some (2 * Hour) /\
  0 <= fst (remaining (Hour + Minute) "linear" true (gate_run ∅ ops)) <= MaxRateLimitWait.
Proof.
  assert (Hops : Forall (fun op => Hour <= op_now op <= Hour + Second)
    [OpRecordUntil Hour "linear" (2 * Hour); OpRecord (Hour + Second) "linear" (30 * Second)])
    by (repeat constructor; by vm_compute).
  split; [by vm_compute|split; [by vm_compute|]].
  apply (shared_gate Hour (Hour + Second) [] Hour "linear" (2 * Hour)
    [OpRecord (Hour + Second) "linear" (30 * Second)] (Hour + Minute) true); [exact Hops|by vm_compute|by vm_compute].
Defined.
