(* ===== verification/Ledger.v ===== *)
(** * Ledger: the coalescing, versioned writer of a ledger file
    (internal/orchestrator/persist_ledger.go)

    Each of the event loop's ledgers is one file, rewritten whole.  Callers
    submit versions; at most one goroutine writes at a time, and only the newest
    version is kept for writing.  The part of each function between two uses of
    the mutex is one definition, and [lstep] lets the callers, the worker
    goroutine and the file system take such parts in any order. *)

From stdpp Require Import base gmap list strings.
From S2P Require Import Prelude.

Local Open Scope Z_scope.

(** ** The writer's state *)

(** One full version of a ledger: write the data to the path, or remove it. *)
Record ledgerOp := MkLedgerOp {
  op_seq : Z;
  op_path : string;
  op_data : string;
  op_perm : Z;
  op_remove : bool;
}.

#[global] Instance ledgerOp_eq_dec : EqDecision ledgerOp.
Proof. solve_decision. Defined.

(** The fields under the mutex, and whether a wake-up is in the channel [kick],
    which has room for one. *)
Record ledgerWriter := MkLedgerWriter {
  lw_seq : Z;
  lw_last : option ledgerOp;
  lw_pending : option ledgerOp;
  lw_writtenSeq : Z;
  lw_draining : bool;
  lw_failed : bool;
  lw_running : bool;
  lw_kick : bool;
}.

Definition newLedgerWriter : ledgerWriter := MkLedgerWriter 0 None None 0 false false false false.

(** A uint64 counter. *)
Definition succ64 (z : Z) : Z := (z + 1) mod 2 ^ 64.

Definition accept (path data : string) (perm : Z) (remove : bool) (w : ledgerWriter) : ledgerWriter :=
  let op := MkLedgerOp (succ64 (lw_seq w)) path data perm remove in
  MkLedgerWriter (op_seq op) (Some op) (Some op) (lw_writtenSeq w) (lw_draining w) (lw_failed w)
    (lw_running w) (lw_kick w).

Definition same_version (l : ledgerOp) (path data : string) (perm : Z) : bool :=
  negb (op_remove l) && String.eqb (op_path l) path && (op_perm l =? perm) && String.eqb (op_data l) data.

Definition submit (path data : string) (perm : Z) (w : ledgerWriter) : ledgerWriter * bool :=
  let same := match lw_last w with Some l => same_version l path data perm | None => false end in
  if same then (w, lw_failed w && bool_decide (is_Some (lw_pending w)))
  else (accept path data perm false w, true).

Definition submitRemove (path : string) (w : ledgerWriter) : ledgerWriter := accept path "" 0 true w.

Definition lastData (w : ledgerWriter) : option string :=
  match lw_last w with Some l => if op_remove l then None else Some (op_data l) | None => None end.

Definition hasSubmitted (w : ledgerWriter) : bool := bool_decide (is_Some (lw_last w)).

Definition set_draining (b : bool) (w : ledgerWriter) : ledgerWriter :=
  MkLedgerWriter (lw_seq w) (lw_last w) (lw_pending w) (lw_writtenSeq w) b (lw_failed w) (lw_running w) (lw_kick w).
Definition set_pending (p : option ledgerOp) (w : ledgerWriter) : ledgerWriter :=
  MkLedgerWriter (lw_seq w) (lw_last w) p (lw_writtenSeq w) (lw_draining w) (lw_failed w) (lw_running w) (lw_kick w).
Definition set_failed (b : bool) (w : ledgerWriter) : ledgerWriter :=
  MkLedgerWriter (lw_seq w) (lw_last w) (lw_pending w) (lw_writtenSeq w) (lw_draining w) b (lw_running w) (lw_kick w).
Definition set_written (n : Z) (w : ledgerWriter) : ledgerWriter :=
  MkLedgerWriter (lw_seq w) (lw_last w) (lw_pending w) n (lw_draining w) (lw_failed w) (lw_running w) (lw_kick w).
Definition set_running (b : bool) (w : ledgerWriter) : ledgerWriter :=
  MkLedgerWriter (lw_seq w) (lw_last w) (lw_pending w) (lw_writtenSeq w) (lw_draining w) (lw_failed w) b (lw_kick w).
Definition set_kick (b : bool) (w : ledgerWriter) : ledgerWriter :=
  MkLedgerWriter (lw_seq w) (lw_last w) (lw_pending w) (lw_writtenSeq w) (lw_draining w) (lw_failed w) (lw_running w) b.

(** ** drain

    [drain_next] is the head of the loop: the version to write, with the mutex
    given up, or the end of the drain. *)
Definition drain_next (w : ledgerWriter) : ledgerWriter * option ledgerOp :=
  match lw_pending w with
  | Some op =>
      if op_seq op <=? lw_writtenSeq w then (set_draining false (set_pending None w), None)
      else (w, Some op)
  | None => (set_draining false w, None)
  end.

(** The mutex is held again after [apply] returned for [op]. *)
Definition drain_applied (op : ledgerOp) (failed : bool) (w : ledgerWriter) : ledgerWriter * option ledgerOp :=
  if failed then (set_draining false (set_failed true w), None)
  else
    let w := set_written (op_seq op) (set_failed false w) in
    let w := if bool_decide (lw_pending w = Some op) then set_pending None w else w in
    drain_next w.

(** Another drain in progress makes this one return at once. *)
Definition drain_enter (w : ledgerWriter) : option (ledgerWriter * option ledgerOp) :=
  if lw_draining w then None else Some (drain_next (set_draining true w)).

(** ** The file

    What [apply] can do: the version is on disk or it is not, and a panic after
    the file was replaced is a failure that left it there. *)
Inductive Applied := Done | Kept | ReplacedThenFailed.

Definition applied_failed (a : Applied) : bool := match a with Done => false | _ => true end.
Definition applied_landed (a : Applied) : bool := match a with Kept => false | _ => true end.

(** The content and mode of the file at each path. *)
Abbreviation Disk := (gmap string (string * Z)).

Definition land (op : ledgerOp) (d : Disk) : Disk :=
  if op_remove op then base.delete (op_path op) d else <[op_path op := (op_data op, op_perm op)]> d.

Definition apply (op : ledgerOp) (a : Applied) (d : Disk) : Disk := if applied_landed a then land op d else d.

(** ** A drain that nobody interrupts, flush

    [outs k] is what the [k]-th write does.  A drain writes the pending version
    and finds nothing more. *)
Definition drain_alone (outs : nat -> Applied) (k : nat) (w : ledgerWriter) (d : Disk)
    : ledgerWriter * Disk * nat * bool :=
  match drain_enter w with
  | None => (w, d, k, false)
  | Some (w, None) => (w, d, k, false)
  | Some (w, Some op) =>
      let failed := applied_failed (outs k) in
      (fst (drain_applied op failed w), apply op (outs k) d, S k, failed)
  end.

(** [waitIdleClean], once no drain is in progress. *)
Definition idle_clean (w : ledgerWriter) : bool := bool_decide (lw_pending w = None).

(** The writer, the disk, the writes so far and whether flush returns an error. *)
Definition flush (outs : nat -> Applied) (k : nat) (w : ledgerWriter) (d : Disk) : ledgerWriter * Disk * nat * bool :=
  if idle_clean w then (w, d, k, false)
  else
    let '(w, d, k, _) := drain_alone outs k w d in
    if idle_clean w then (w, d, k, false)
    else
      let '(w, d, k, _) := drain_alone outs k w d in
      (w, d, k, negb (idle_clean w)).

(** ** The goroutines

    The worker goroutine of a live Run: it waits for a wake-up or the retry
    timer, drains, and looks whether to arm the timer. *)
Inductive WorkerPC := WStopped | WWaiting | WWoken | WDraining | WChecking.

(** The version being written, and whether it has reached the disk.  [lg_calls]
    callers are between submit and settle, [lg_kicking] have seen a live worker
    and are about to wake it, [lg_inline] are about to drain inline. *)
Record Ledger := MkLedger {
  lg_writer : ledgerWriter;
  lg_disk : Disk;
  lg_flight : option (ledgerOp * option Applied);
  lg_worker : WorkerPC;
  lg_timer : bool;
  lg_calls : nat;
  lg_kicking : nat;
  lg_inline : nat;
}.

Definition new_ledger (d : Disk) : Ledger := MkLedger newLedgerWriter d None WStopped false 0 0 0.

Inductive LedgerEvent :=
  | Submit (data : string)      (* submit, by the event loop or a request *)
  | Remove                      (* submitRemove *)
  | Settle                      (* settle of a caller: it reads [running] *)
  | Kick                        (* the wake-up that follows *)
  | InlineDrain                 (* a caller enters drain *)
  | Land (a : Applied)          (* the write or removal happens *)
  | Return                      (* apply returns to drain *)
  | WorkerWakes (timer : bool)  (* the worker takes the wake-up, or the timer fires *)
  | WorkerDrains                (* the worker enters drain *)
  | WorkerChecks                (* the worker looks whether to arm the timer *)
  | Start
  | StopRunning.                (* stopAndFlush: the worker is told to stop and ends *)

Definition with_writer (w : ledgerWriter) (s : Ledger) : Ledger :=
  MkLedger w (lg_disk s) (lg_flight s) (lg_worker s) (lg_timer s) (lg_calls s) (lg_kicking s) (lg_inline s).

(** What follows when a drain gives up the mutex: it writes, or it has ended,
    and if it was the worker's the worker goes on. *)
Definition drain_goes (r : ledgerWriter * option ledgerOp) (s : Ledger) : Ledger :=
  match r with
  | (w, Some op) => MkLedger w (lg_disk s) (Some (op, None)) (lg_worker s) (lg_timer s) (lg_calls s) (lg_kicking s) (lg_inline s)
  | (w, None) =>
      MkLedger w (lg_disk s) None (match lg_worker s with WDraining => WChecking | pc => pc end)
        (lg_timer s) (lg_calls s) (lg_kicking s) (lg_inline s)
  end.

Definition set_worker (pc : WorkerPC) (s : Ledger) : Ledger :=
  MkLedger (lg_writer s) (lg_disk s) (lg_flight s) pc (lg_timer s) (lg_calls s) (lg_kicking s) (lg_inline s).
Definition set_timer (b : bool) (s : Ledger) : Ledger :=
  MkLedger (lg_writer s) (lg_disk s) (lg_flight s) (lg_worker s) b (lg_calls s) (lg_kicking s) (lg_inline s).
Definition set_calls (c k i : nat) (s : Ledger) : Ledger :=
  MkLedger (lg_writer s) (lg_disk s) (lg_flight s) (lg_worker s) (lg_timer s) c k i.

Section Step.
Context (path : string) (perm : Z).

(** One atomic part; an event that is not possible changes nothing. *)
Definition lstep (s : Ledger) (e : LedgerEvent) : Ledger :=
  let w := lg_writer s in
  match e with
  | Submit data =>
      let '(w, queued) := submit path data perm w in
      set_calls (if queued then S (lg_calls s) else lg_calls s) (lg_kicking s) (lg_inline s) (with_writer w s)
  | Remove => set_calls (S (lg_calls s)) (lg_kicking s) (lg_inline s) (with_writer (submitRemove path w) s)
  | Settle =>
      match lg_calls s with
      | O => s
      | S n => if lw_running w then set_calls n (S (lg_kicking s)) (lg_inline s) s
               else set_calls n (lg_kicking s) (S (lg_inline s)) s
      end
  | Kick =>
      match lg_kicking s with
      | O => s
      | S n => set_calls (lg_calls s) n (lg_inline s) (with_writer (set_kick true w) s)
      end
  | InlineDrain =>
      match lg_inline s with
      | O => s
      | S n => let s := set_calls (lg_calls s) (lg_kicking s) n s in
               match drain_enter w with None => s | Some r => drain_goes r s end
      end
  | Land a =>
      match lg_flight s with
      | Some (op, None) =>
          MkLedger w (apply op a (lg_disk s)) (Some (op, Some a)) (lg_worker s) (lg_timer s) (lg_calls s) (lg_kicking s) (lg_inline s)
      | _ => s
      end
  | Return =>
      match lg_flight s with
      | Some (op, Some a) => drain_goes (drain_applied op (applied_failed a) w) s
      | _ => s
      end
  | WorkerWakes timer =>
      match lg_worker s with
      | WWaiting =>
          if timer then if lg_timer s then set_worker WWoken (set_timer false s) else s
          else if lw_kick w then set_worker WWoken (with_writer (set_kick false w) s) else s
      | _ => s
      end
  | WorkerDrains =>
      match lg_worker s with
      | WWoken => match drain_enter w with
                  | None => set_worker WChecking s
                  | Some r => drain_goes r (set_worker WDraining s)
                  end
      | _ => s
      end
  | WorkerChecks =>
      match lg_worker s with
      | WChecking => set_worker WWaiting
                       (if lw_failed w && bool_decide (is_Some (lw_pending w)) then set_timer true s else s)
      | _ => s
      end
  | Start =>
      match lg_worker s with
      | WStopped => if lw_running w then s else set_timer false (set_worker WWaiting (with_writer (set_running true w) s))
      | _ => s
      end
  | StopRunning =>
      match lg_worker s with
      | WWaiting | WStopped => set_timer false (set_worker WStopped (with_writer (set_running false w) s))
      | _ => with_writer (set_running false w) s
      end
  end.

Definition lrun (s : Ledger) (es : list LedgerEvent) : Ledger := foldl lstep s es.

End Step.

(** ** The file against the versions

    A version is the content submitted, [None] for a removal.  [coalesced] is
    the versions that count: one equal to the one before it is no new version,
    but every removal is. *)
Abbreviation Version := (option string).

Definition submissions (es : list LedgerEvent) : list Version :=
  omap (fun e => match e with Submit data => Some (Some data) | Remove => Some None | _ => None end) es.

Definition same_as_last (vs : list Version) (v : Version) : bool :=
  match v with Some _ => bool_decide (last vs = Some v) | None => false end.

Definition add_version (vs : list Version) (v : Version) : list Version :=
  if same_as_last vs v then vs else vs ++ [v].

Definition coalesced (subs : list Version) : list Version := foldl add_version [] subs.

Section File.
Context (path : string) (perm : Z) (d0 : Disk).

(** The file when the first [k] versions have been superseded up to the
    [k]-th; before the first it is what the process found. *)
Definition file_after (vs : list Version) (k : nat) : option (string * Z) :=
  match k with
  | O => d0 !! path
  | S j => match vs !! j with Some (Some data) => Some (data, perm) | _ => None end
  end.

Definition op_of (n : nat) (v : Version) : ledgerOp :=
  match v with
  | Some data => MkLedgerOp (Z.of_nat n) path data perm false
  | None => MkLedgerOp (Z.of_nat n) path "" 0 true
  end.

(** The write in progress is of a version no older than what is on disk. *)
Definition flight_inv (vs : list Version) (k : nat) (f : option (ledgerOp * option Applied)) (w : ledgerWriter) : Prop :=
  match f with
  | None => lw_draining w = false
  | Some (op, res) =>
      lw_draining w = true /\ lw_pending w <> None /\
      exists j v, vs !! j = Some v /\ op = op_of (S j) v /\ (k <= S j)%nat /\
        match res with Some a => if applied_landed a then k = S j else True | None => True end
  end.

Definition last_op (vs : list Version) : option ledgerOp := option_map (op_of (length vs)) (last vs).

(** [k] of the versions [vs] is on disk. *)
Record core_inv (vs : list Version) (k : nat) (w : ledgerWriter) (d : Disk) : Prop := {
  li_seq : lw_seq w = Z.of_nat (length vs);
  li_last : lw_last w = last_op vs;
  li_pending : lw_pending w = lw_last w /\ lw_last w <> None \/ lw_pending w = None /\ k = length vs;
  li_written : lw_writtenSeq w <= Z.of_nat k;
  li_k : (k <= length vs)%nat;
  li_file : d !! path = file_after vs k;
  li_other : forall p, p <> path -> d !! p = d0 !! p;
}.

Definition linv (vs : list Version) (k : nat) (s : Ledger) : Prop :=
  core_inv vs k (lg_writer s) (lg_disk s) /\ flight_inv vs k (lg_flight s) (lg_writer s).

Lemma op_seq_of n v : op_seq (op_of n v) = Z.of_nat n.
Proof. by destruct v. Qed.

Lemma last_op_snoc vs v : last_op (vs ++ [v]) = Some (op_of (S (length vs)) v).
Proof.
  unfold last_op. rewrite last_snoc.
  by replace (length (vs ++ [v])) with (S (length vs)) by (rewrite length_app; cbn; lia).
Qed.

Lemma last_op_some vs op :
  last_op vs = Some op -> exists j v, length vs = S j /\ vs !! j = Some v /\ op = op_of (S j) v.
Proof.
  destruct vs as [|v vs _] using rev_ind; [done|]. rewrite last_op_snoc. intros [= <-].
  exists (length vs), v. rewrite length_app, lookup_app_r by lia. rewrite Nat.sub_diag. split_and!; [cbn; lia|done|done].
Qed.

Lemma file_after_app vs v k : (k <= length vs)%nat -> file_after (vs ++ [v]) k = file_after vs k.
Proof. intros Hk. destruct k as [|j]; [done|]. cbn. by rewrite lookup_app_l by lia. Qed.

Lemma linv_new : linv [] 0 (new_ledger d0).
Proof. split; [split|]; cbn; try done. by right. Qed.

(** The head of the drain loop. *)
Lemma drain_next_inv vs k s w :
  core_inv vs k w (lg_disk s) -> lw_draining w = true -> linv vs k (drain_goes (drain_next w) s).
Proof.
  intros [Hseq Hlast Hpend Hwr Hk Hf Ho] Hd. unfold drain_next.
  destruct (lw_pending w) as [op|] eqn:Ep; [|by split; [split; cbn; rewrite ?Ep|]].
  destruct Hpend as [[Hp Hne]|[? _]]; [|done].
  rewrite Hlast in Hp. symmetry in Hp. destruct (last_op_some _ _ Hp) as (j & v & Hl & Hv & ->).
  rewrite op_seq_of. destruct (Z.leb_spec (Z.of_nat (S j)) (lw_writtenSeq w)).
  - split; [|done]. split; cbn; try done. right. split; [done|lia].
  - split; cbn.
    + split; cbn; try done. left. rewrite Ep, Hlast, Hp. by split.
    + split_and!; [done|by rewrite Ep|]. exists j, v. split_and!; [done|done|lia|done].
Qed.

Lemma drain_enter_inv vs k s r :
  linv vs k s -> drain_enter (lg_writer s) = Some r -> linv vs k (drain_goes r s).
Proof.
  intros [[Hseq Hlast Hpend Hwr Hk Hf Ho] _]. unfold drain_enter. case_match; [done|]. intros [= <-].
  apply drain_next_inv; [|done]. by split.
Qed.

(** What a write does to the file. *)
Lemma land_file n v d :
  land (op_of n v) d !! path = match v with Some data => Some (data, perm) | None => None end /\
  forall p, p <> path -> land (op_of n v) d !! p = d !! p.
Proof.
  destruct v as [data|]; unfold land; cbn.
  - split; [by rewrite lookup_insert_eq|]. intros p Hp. by rewrite lookup_insert_ne.
  - split; [by rewrite lookup_delete_eq|]. intros p Hp. by rewrite lookup_delete_ne.
Qed.

Lemma land_inv vs k s op a :
  linv vs k s -> lg_flight s = Some (op, None) ->
  exists k', (k <= k')%nat /\ linv vs k' (lstep path perm s (Land a)).
Proof.
  intros [[Hseq Hlast Hpend Hwr Hk Hf Ho] Hfl] Efl. cbn. rewrite Efl in Hfl |- *.
  destruct Hfl as (Hd & Hne & j & v & Hv & -> & Hkj & _).
  destruct Hpend as [Hpend|[? _]]; [|done].
  unfold apply. destruct (applied_landed a) eqn:Ea.
  - exists (S j). split; [done|]. destruct (land_file (S j) v (lg_disk s)) as [Hl1 Hl2].
    apply lookup_lt_Some in Hv as Hlt. split; [split|]; cbn; try done.
    + by left.
    + lia.
    + rewrite Hl1, Hv. by destruct v.
    + intros p Hp. by rewrite Hl2, Ho.
    + split_and!; [done|done|]. exists j, v. rewrite Ea. by split_and!.
  - exists k. split; [done|]. split; [split|]; cbn; try done; [by left|].
    split_and!; [done|done|]. exists j, v. rewrite Ea. by split_and!.
Qed.

Lemma return_inv vs k s op a :
  linv vs k s -> lg_flight s = Some (op, Some a) -> linv vs k (lstep path perm s Return).
Proof.
  intros [[Hseq Hlast Hpend Hwr Hk Hf Ho] Hfl] Efl. cbn. rewrite Efl in Hfl |- *.
  destruct Hfl as (Hd & Hne & j & v & Hv & -> & Hkj & Hland).
  destruct Hpend as [Hpend|[? _]]; [|done].
  unfold drain_applied. destruct (applied_failed a) eqn:Ea.
  - split; [|done]. split; cbn; try done. by left.
  - assert (k = S j) as -> by (by destruct a). rewrite op_seq_of.
    apply drain_next_inv; [|by case_bool_decide].
    case_bool_decide as Hp; cbn in *; split; cbn; try done; [|by left].
    right. split; [done|]. rewrite (proj1 Hpend), Hlast in Hp.
    destruct (last_op_some _ _ Hp) as (j' & v' & Hl & _ & E).
    apply (f_equal op_seq) in E. rewrite !op_seq_of in E. lia.
Qed.

(** A submission that counts is a new version, one that does not is the last. *)
Lemma same_version_last vs data :
  match last_op vs with Some l => same_version l path data perm | None => false end = same_as_last vs (Some data).
Proof.
  unfold last_op, same_as_last. destruct (last vs) as [[d|]|]; cbn; [|by case_bool_decide..].
  unfold same_version. cbn. rewrite String.eqb_refl, Z.eqb_refl. cbn.
  destruct (String.eqb_spec d data) as [->|]; case_bool_decide; congruence.
Qed.

Lemma accept_inv vs k s v :
  Z.of_nat (length vs) + 1 < 2 ^ 64 -> linv vs k s ->
  linv (vs ++ [v]) k (with_writer
    (accept path (default "" v) (match v with Some _ => perm | None => 0 end) (match v with Some _ => false | None => true end)
       (lg_writer s)) s).
Proof.
  intros Hlen [[Hseq Hlast Hpend Hwr Hk Hf Ho] Hfl].
  assert (Eop : MkLedgerOp (succ64 (lw_seq (lg_writer s))) path (default "" v)
      (match v with Some _ => perm | None => 0 end) (match v with Some _ => false | None => true end)
    = op_of (S (length vs)) v).
  { unfold succ64. rewrite Hseq, Z.mod_small by lia. replace (Z.of_nat (length vs) + 1) with (Z.of_nat (S (length vs))) by lia.
    by destruct v. }
  unfold accept. rewrite Eop. split.
  - split; cbn.
    + rewrite op_seq_of, length_app. cbn. lia.
    + by rewrite last_op_snoc.
    + by left.
    + done.
    + rewrite length_app. cbn. lia.
    + by rewrite file_after_app.
    + done.
  - unfold flight_inv in *. destruct (lg_flight _) as [[op res]|]; [|done]. cbn.
    destruct Hfl as (? & _ & j & v' & Hv & ?). split_and!; [done|done|]. exists j, v'.
    split; [by apply lookup_app_l_Some|done].
Qed.

(** Changes that concern neither the versions nor the file. *)
Lemma linv_frame vs k s s' :
  linv vs k s -> lg_disk s' = lg_disk s -> lg_flight s' = lg_flight s ->
  (exists b c, lg_writer s' = set_running b (set_kick c (lg_writer s))) -> linv vs k s'.
Proof.
  intros [[Hseq Hlast Hpend Hwr Hk Hf Ho] Hfl] Hd Hfl' (b & c & Hw). unfold linv. rewrite Hd, Hfl', Hw.
  split; [by split|]. unfold flight_inv in *. by destruct (lg_flight s) as [[op res]|].
Qed.

Lemma set_same w : w = set_running (lw_running w) (set_kick (lw_kick w) w).
Proof. by destruct w. Qed.

Ltac frame :=
  eapply linv_frame; [eassumption|done|done|];
  first [by eexists _, _; cbn; apply set_same | by eexists _, _].

Definition new_versions (vs : list Version) (e : LedgerEvent) : list Version :=
  match e with Submit data => add_version vs (Some data) | Remove => add_version vs None | _ => vs end.

Lemma submit_inv vs k s data :
  Z.of_nat (length vs) + 1 < 2 ^ 64 -> linv vs k s ->
  linv (add_version vs (Some data)) k (lstep path perm s (Submit data)).
Proof.
  intros Hlen Hs. cbn. unfold submit. rewrite (li_last _ _ _ _ (proj1 Hs)), same_version_last.
  unfold add_version. destruct (same_as_last vs (Some data)); cbn.
  - frame.
  - pose proof (accept_inv vs k s (Some data) Hlen Hs) as [Hc Hf]. by split.
Qed.

Lemma remove_inv vs k s :
  Z.of_nat (length vs) + 1 < 2 ^ 64 -> linv vs k s -> linv (add_version vs None) k (lstep path perm s Remove).
Proof. intros Hlen Hs. pose proof (accept_inv vs k s None Hlen Hs) as [Hc Hf]. by split. Qed.

Lemma lstep_inv vs k s e :
  Z.of_nat (length vs) + 1 < 2 ^ 64 -> linv vs k s ->
  exists k', (k <= k')%nat /\ linv (new_versions vs e) k' (lstep path perm s e).
Proof.
  intros Hlen Hs. destruct e as [data| | | | |a| |t| | | |]; cbn [new_versions].
  6: { cbn. destruct (lg_flight s) as [[op [r|]]|] eqn:E; [by exists k| |by exists k].
       pose proof (land_inv vs k s op a Hs E) as Hl. cbn in Hl. by rewrite E in Hl. }
  all: exists k; (split; [done|]).
  - by apply submit_inv.
  - by apply remove_inv.
  - cbn. destruct (lg_calls s); [done|]. case_match; frame.
  - cbn. destruct (lg_kicking s); [done|]. frame.
  - cbn. destruct (lg_inline s) as [|n]; [done|].
    destruct (drain_enter (lg_writer s)) as [r|] eqn:E; [|frame].
    apply drain_enter_inv; [|done]. frame.
  - cbn. destruct (lg_flight s) as [[op [r|]]|] eqn:E; [|done..].
    pose proof (return_inv vs k s op r Hs E) as Hl. cbn in Hl. by rewrite E in Hl.
  - cbn. repeat case_match; first [done|frame].
  - cbn. destruct (lg_worker s) eqn:Ew; try done.
    destruct (drain_enter (lg_writer s)) as [r|] eqn:E; [|frame].
    apply drain_enter_inv; [|done]. frame.
  - cbn. repeat case_match; first [done|frame].
  - cbn. repeat case_match; first [done|frame].
  - cbn. case_match; frame.
Qed.

Lemma add_version_length vs v : (length (add_version vs v) <= S (length vs))%nat.
Proof. unfold add_version. case_match; [lia|]. rewrite length_app. cbn. lia. Qed.

Lemma new_versions_length vs e : (length (new_versions vs e) <= S (length vs))%nat.
Proof. destruct e; cbn [new_versions]; try apply add_version_length; lia. Qed.

Lemma file_after_run subs vs k :
  (k <= length vs)%nat -> file_after (foldl add_version vs subs) k = file_after vs k.
Proof.
  revert vs. induction subs as [|v subs IH]; intros vs Hk; [done|]. cbn [foldl].
  unfold add_version at 2. destruct (same_as_last vs v); [by apply IH|].
  rewrite IH by (rewrite length_app; lia). by apply file_after_app.
Qed.

Lemma versions_run es vs : foldl new_versions vs es = foldl add_version vs (submissions es).
Proof.
  revert vs. induction es as [|e es IH]; intros vs; [done|]. cbn. rewrite IH.
  by destruct e.
Qed.

Lemma lrun_inv es vs k s :
  Z.of_nat (length vs + length es) < 2 ^ 64 -> linv vs k s ->
  exists k', (k <= k')%nat /\ linv (foldl add_version vs (submissions es)) k' (lrun path perm s es).
Proof.
  rewrite <-versions_run. revert vs k s. induction es as [|e es IH]; intros vs k s Hlen Hs; [by exists k|].
  cbn [length] in Hlen. destruct (lstep_inv vs k s e ltac:(lia) Hs) as (k1 & Hk1 & Hs1).
  pose proof (new_versions_length vs e).
  destruct (IH (new_versions vs e) k1 (lstep path perm s e) ltac:(lia) Hs1) as (k2 & Hk2 & Hs2). exists k2. split; [lia|done].
Qed.

(** Nothing is being written and nothing waits to be: what [waitIdleClean]
    reports. *)
Definition at_rest (s : Ledger) : Prop := lw_draining (lg_writer s) = false /\ lw_pending (lg_writer s) = None.

Lemma at_rest_newest vs k s : linv vs k s -> at_rest s -> k = length vs.
Proof.
  intros [[_ Hlast Hpend _ _ _ _] _] [_ Hn]. destruct Hpend as [[Hp Hne]|[_ ->]]; congruence.
Qed.

Definition content (v : Version) : option (string * Z) := option_map (fun data => (data, perm)) v.

(** The newest version is the last submission. *)
Lemma coalesced_last subs : last (coalesced subs) = last subs.
Proof.
  induction subs as [|v subs IH] using rev_ind; [done|].
  unfold coalesced in *. rewrite foldl_app, last_snoc. cbn. unfold add_version, same_as_last.
  destruct v as [data|]; [case_bool_decide|]; by rewrite ?last_snoc.
Qed.

Lemma file_after_all vs :
  file_after vs (length vs) = match last vs with Some v => content v | None => d0 !! path end.
Proof.
  destruct vs as [|v vs _] using rev_ind; [done|]. rewrite last_snoc, length_app, Nat.add_1_r. cbn.
  rewrite lookup_app_r, Nat.sub_diag by lia. by destruct v.
Qed.

Lemma coalesced_length es : (length (coalesced (submissions es)) <= length es)%nat.
Proof.
  unfold coalesced. rewrite <-versions_run. induction es as [|e es IH] using rev_ind; [done|].
  rewrite foldl_app, length_app. cbn. pose proof (new_versions_length (foldl new_versions [] es) e). lia.
Qed.

(** C7: whoever submits, drains, wakes and stops, and whatever writes fail,
    at every moment (so also after a crash) the file is what it was at the start
    or exactly one of the versions submitted; over time it only moves on to
    later versions; whenever no write is in progress and none is pending it
    holds the last submission; and no other file is touched. *)
Theorem file_is_a_version es1 es2 :
  let s1 := lrun path perm (new_ledger d0) es1 in
  let s2 := lrun path perm s1 es2 in
  let vs := coalesced (submissions (es1 ++ es2)) in
  Z.of_nat (length es1 + length es2) < 2 ^ 64 ->
  (exists k1 k2, (k1 <= k2 <= length vs)%nat /\
    lg_disk s1 !! path = file_after vs k1 /\ lg_disk s2 !! path = file_after vs k2) /\
  (at_rest s2 -> lg_disk s2 !! path =
     match last (submissions (es1 ++ es2)) with Some v => content v | None => d0 !! path end) /\
  forall p, p <> path -> lg_disk s2 !! p = d0 !! p.
Proof.
  intros s1 s2 vs Hlen. set (vs1 := coalesced (submissions es1)).
  assert (Hvs : vs = foldl add_version vs1 (submissions es2)).
  { unfold vs, vs1, coalesced, submissions. by rewrite omap_app, foldl_app. }
  destruct (lrun_inv es1 [] 0 (new_ledger d0)) as (k1 & _ & H1); [cbn [length]; lia|apply linv_new|].
  fold s1 in H1. change (foldl add_version [] (submissions es1)) with vs1 in H1.
  pose proof (coalesced_length es1) as Hlen1. fold vs1 in Hlen1.
  destruct (lrun_inv es2 vs1 k1 s1) as (k2 & Hk & H2); [lia|done|]. rewrite <-Hvs in H2. fold s2 in H2.
  split_and!.
  - exists k1, k2. split; [split; [done|apply (li_k _ _ _ _ (proj1 H2))]|].
    split; [|apply (li_file _ _ _ _ (proj1 H2))]. rewrite (li_file _ _ _ _ (proj1 H1)), Hvs.
    symmetry. apply file_after_run, (li_k _ _ _ _ (proj1 H1)).
  - intros Hrest. rewrite (li_file _ _ _ _ (proj1 H2)), (at_rest_newest _ _ _ H2 Hrest), file_after_all.
    unfold vs. by rewrite coalesced_last.
  - apply (li_other _ _ _ _ (proj1 H2)).
Qed.

(** ** The shutdown flush *)

Lemma drain_goes_writer r s : lg_writer (drain_goes r s) = fst r.
Proof. by destruct r as [w [op|]]. Qed.

Lemma drain_goes_disk r s : lg_disk (drain_goes r s) = lg_disk s.
Proof. by destruct r as [w [op|]]. Qed.

Definition quiet (w : ledgerWriter) (d : Disk) : Ledger := MkLedger w d None WStopped false 0 0 0.

Lemma linv_quiet vs k s : linv vs k s -> lg_flight s = None -> linv vs k (quiet (lg_writer s) (lg_disk s)).
Proof. intros [Hc Hf] E. rewrite E in Hf. by split. Qed.

(** The write of the pending version ends the drain. *)
Lemma drain_applied_ends op failed w : lw_pending w = Some op -> snd (drain_applied op failed w) = None.
Proof.
  intros Hp. unfold drain_applied. destruct failed; [done|].
  unfold set_written, set_failed; cbn. rewrite bool_decide_true by done. done.
Qed.

Lemma drain_applied_failed op failed w :
  lw_pending w = Some op -> lw_pending (fst (drain_applied op failed w)) <> None -> failed = true.
Proof.
  intros Hp. unfold drain_applied. destruct failed; [done|].
  unfold set_written, set_failed; cbn. rewrite bool_decide_true by done. done.
Qed.

Lemma drain_alone_spec outs n vs k w d :
  linv vs k (quiet w d) ->
  let '(w', d', n', _) := drain_alone outs n w d in
  (exists k', linv vs k' (quiet w' d')) /\ (n <= n' <= S n)%nat /\
  (idle_clean w' = false -> n' = S n /\ applied_failed (outs n) = true).
Proof.
  intros Hs. unfold drain_alone. destruct (drain_enter w) as [r|] eqn:E.
  2: { unfold drain_enter in E. by rewrite (proj2 Hs : lw_draining w = false) in E. }
  pose proof (drain_enter_inv vs k (quiet w d) r Hs E) as H1.
  unfold drain_enter in E. destruct (lw_draining w); [done|]. injection E as <-.
  unfold drain_next in *. cbn in *. destruct (lw_pending w) as [op|] eqn:Ep; [destruct (_ <=? _)|].
  1,3: split_and!; [by exists k|lia|lia|by intros Hi%bool_decide_eq_false; destruct Hi; cbn].
  destruct (land_inv vs k _ op (outs n) H1 eq_refl) as (k' & _ & H2).
  pose proof (return_inv vs k' _ op (outs n) H2 eq_refl) as H3. cbn in H3.
  set (dr := drain_applied op (applied_failed (outs n)) (set_draining true w)) in *.
  assert (Hend : snd dr = None) by (by apply drain_applied_ends).
  split_and!; [|lia|lia|].
  - exists k'. destruct dr as [w' [op'|]]; [done|]. exact H3.
  - intros Hd. split; [done|]. apply (drain_applied_failed op _ (set_draining true w) Ep).
    intros Hn. unfold idle_clean in Hd. fold dr in Hn. by rewrite Hn in Hd.
Qed.

(** C32: the flush of a shutdown, from any reachable moment at which nobody
    else writes, makes at most two writes; it returns an error only when both
    failed, and otherwise the file holds the last submission. *)
Theorem shutdown_flush es outs :
  let s := lrun path perm (new_ledger d0) es in
  Z.of_nat (length es) < 2 ^ 64 -> lg_flight s = None ->
  let '(w, d, n, err) := flush outs 0 (lg_writer s) (lg_disk s) in
  (n <= 2)%nat /\
  (err = true -> n = 2%nat /\ applied_failed (outs 0%nat) = true /\ applied_failed (outs 1%nat) = true) /\
  (err = false -> lw_pending w = None /\
     d !! path = match last (submissions es) with Some v => content v | None => d0 !! path end).
Proof.
  intros s Hlen Hfl. destruct (lrun_inv es [] 0 (new_ledger d0)) as (k & _ & Hs); [cbn [length]; lia|apply linv_new|].
  fold s in Hs. apply linv_quiet in Hs; [|done]. change (foldl add_version [] (submissions es)) with (coalesced (submissions es)) in Hs.
  set (vs := coalesced (submissions es)) in *.
  assert (Hnewest : forall k w d, linv vs k (quiet w d) -> idle_clean w = true ->
    lw_pending w = None /\ d !! path = match last (submissions es) with Some v => content v | None => d0 !! path end).
  { intros k' w d Hw Hi%bool_decide_eq_true. split; [done|]. rewrite (li_file _ _ _ _ (proj1 Hw) : d !! path = _).
    rewrite (at_rest_newest _ _ _ Hw (conj (proj2 Hw) Hi)), file_after_all. unfold vs. by rewrite coalesced_last. }
  unfold flush. set (w := lg_writer s) in *. set (d := lg_disk s) in *. clearbody w d.
  destruct (idle_clean w) eqn:Ei; [split_and!; [lia|done|by eauto]|].
  pose proof (drain_alone_spec outs 0 vs k w d Hs) as H1.
  destruct (drain_alone outs 0 w d) as [[[w1 d1] n1] e1]. destruct H1 as ([k1 Hs1] & Hn1 & Hf1).
  destruct (idle_clean w1) eqn:Ei1; [split_and!; [lia|done|by eauto]|].
  destruct (Hf1 eq_refl) as [-> Hfail1].
  pose proof (drain_alone_spec outs 1 vs k1 w1 d1 Hs1) as H2.
  destruct (drain_alone outs 1 w1 d1) as [[[w2 d2] n2] e2]. destruct H2 as ([k2 Hs2] & Hn2 & Hf2).
  destruct (idle_clean w2) eqn:Ei2; split_and!; try done; try lia; [by eauto|].
  intros _. by destruct (Hf2 eq_refl) as [-> ?].
Qed.

(** ** Nobody forgets a version *)

(** Somebody is about to write, or to wake the worker that will. *)
Definition busy (s : Ledger) : Prop :=
  lw_draining (lg_writer s) = true \/ (0 < lg_calls s)%nat \/ (0 < lg_kicking s)%nat \/ (0 < lg_inline s)%nat \/
  lw_kick (lg_writer s) = true \/ lg_worker s = WWoken.

Definition attended (s : Ledger) : Prop :=
  lw_pending (lg_writer s) = None \/ lw_failed (lg_writer s) = true \/ busy s.

Definition flying (s : Ledger) : Prop := lg_flight s <> None -> lw_draining (lg_writer s) = true.

Lemma drain_next_attended w s :
  lw_draining w = true -> attended (drain_goes (drain_next w) s) /\ flying (drain_goes (drain_next w) s).
Proof.
  intros Hd. unfold drain_next. destruct (lw_pending w) as [op|] eqn:Ep; [case_match|].
  - split; [by left|by intros []].
  - split; [|by intros _]. by right; right; left.
  - split; [by left|by intros []].
Qed.

Lemma drain_enter_attended w s r :
  drain_enter w = Some r -> attended (drain_goes r s) /\ flying (drain_goes r s).
Proof. unfold drain_enter. case_match; [done|]. intros [= <-]. by apply drain_next_attended. Qed.

Lemma return_attended op a w s :
  lw_draining w = true ->
  attended (drain_goes (drain_applied op (applied_failed a) w) s) /\
  flying (drain_goes (drain_applied op (applied_failed a) w) s).
Proof.
  intros Hd. unfold drain_applied. destruct (applied_failed a).
  - split; [by right; left|by intros []].
  - apply drain_next_attended. by case_bool_decide.
Qed.

Lemma lstep_attended s e :
  attended s /\ flying s -> attended (lstep path perm s e) /\ flying (lstep path perm s e).
Proof.
  intros [Ha Hf]. destruct e as [data| | | | |a| |t| | | |]; cbn [lstep].
  - unfold submit. destruct (match lw_last (lg_writer s) with Some l => _ | None => _ end); cbn.
    + split; [|done]. case_match; [right; right; right; left; cbn; lia|done].
    + split; [right; right; right; left; cbn; lia|done].
  - split; [right; right; right; left; cbn; lia|done].
  - destruct (lg_calls s) as [|n]; [done|]. case_match; (split; [|done]); right; right; unfold busy; cbn; lia.
  - destruct (lg_kicking s) as [|n]; [done|]. split; [|done]. right; right; unfold busy; cbn; tauto.
  - destruct (lg_inline s) as [|n]; [done|].
    destruct (drain_enter (lg_writer s)) as [r|] eqn:E; [by eapply drain_enter_attended|].
    unfold drain_enter in E. destruct (lw_draining (lg_writer s)) eqn:Ed; [|done].
    split; [by right; right; left|by intros _].
  - destruct (lg_flight s) as [[op [r|]]|] eqn:E; [done| |done].
    split; [done|]. intros _. apply Hf. by rewrite E.
  - destruct (lg_flight s) as [[op [r|]]|] eqn:E; [|done..]. apply return_attended, Hf. by rewrite E.
  - destruct (lg_worker s); try done. repeat case_match; split; try done; right; right; unfold busy; cbn; tauto.
  - destruct (lg_worker s) eqn:Ew; try done.
    destruct (drain_enter (lg_writer s)) as [r|] eqn:E; [by eapply drain_enter_attended|].
    unfold drain_enter in E. destruct (lw_draining (lg_writer s)) eqn:Ed; [|done].
    split; [by right; right; left|by intros _].
  - destruct (lg_worker s) eqn:Ew; try done. split; [|by case_match].
    unfold attended, busy in *. rewrite Ew in Ha. by case_match; cbn; intuition.
  - destruct (lg_worker s) eqn:Ew; try done. case_match; [done|]. split; [|done].
    unfold attended, busy in *. rewrite Ew in Ha. cbn. intuition congruence.
  - destruct (lg_worker s) eqn:Ew; (split; [|done]); unfold attended, busy in *; rewrite ?Ew in *; cbn;
      rewrite ?Ew; intuition congruence.
Qed.

Lemma lrun_attended es s :
  attended s /\ flying s -> attended (lrun path perm s es) /\ flying (lrun path perm s es).
Proof.
  revert s. induction es as [|e es IH]; intros s Hs; [done|]. apply IH. by apply lstep_attended.
Qed.

(** When nobody is writing, submitting or about to wake the worker, a
    version that is not yet on disk is one whose write failed, and then any
    next submission, even of the same content, is written again: no version is
    ever left behind between two drains. *)
Theorem never_stranded es data :
  let s := lrun path perm (new_ledger d0) es in
  ~ busy s ->
  lw_pending (lg_writer s) = None \/
  lw_failed (lg_writer s) = true /\ snd (submit path data perm (lg_writer s)) = true.
Proof.
  intros s Hb. assert (Ha : attended s).
  { apply lrun_attended. split; [by left|by intros []]. }
  destruct Ha as [?|[Hf|?]]; [by left| |done]. destruct (lw_pending (lg_writer s)) as [op|] eqn:Ep; [|by left].
  right. split; [done|]. unfold submit.
  destruct (match lw_last (lg_writer s) with Some l => _ | None => _ end); [|done]. cbn. by rewrite Hf, Ep.
Qed.

End File.

(** The witnesses: two versions are submitted while the first is being written,
    and the second write fails. *)
Definition history : list LedgerEvent :=
  [Start; Submit "a"; Settle; Kick; WorkerWakes false; WorkerDrains; Submit "b"; Land Done; Submit "c"; Return; Land Kept].

Lemma file_is_a_version_witness :
  lg_disk (lrun "h" 420 (new_ledger ∅) history) !! "h" = Some ("a", 420) /\
  exists k1 k2, (k1 <= k2 <= 2)%nat /\
    lg_disk (lrun "h" 420 (new_ledger ∅) history) !! "h" = file_after "h" 420 ∅ [Some "a"; Some "b"; Some "c"] k1 /\
    lg_disk (lrun "h" 420 (lrun "h" 420 (new_ledger ∅) history) [Return]) !! "h"
      = file_after "h" 420 ∅ [Some "a"; Some "b"; Some "c"] k2.
Proof.
  split; [by vm_compute|].
  destruct (file_is_a_version "h" 420 ∅ history [Return]) as [(k1 & k2 & Hk & H1 & H2) _]; [by vm_compute|].
  exists k1, k2. split; [|by split]. split; [lia|]. destruct Hk as [_ Hk].
  destruct k2 as [|[|[|[|k2]]]]; try lia; vm_compute in H2; congruence || (cbn in Hk; lia).
Defined.

Lemma shutdown_flush_witness :
  let s := lrun "h" 420 (new_ledger ∅) (history ++ [Return; WorkerChecks; StopRunning]) in
  let '(w, d, n, err) := flush (fun k => match k with O => Kept | _ => Done end) 0 (lg_writer s) (lg_disk s) in
  err = false /\ d !! "h" = Some ("c", 420) /\ (n <= 2)%nat.
Proof.
  pose proof (shutdown_flush "h" 420 ∅ (history ++ [Return; WorkerChecks; StopRunning])
    (fun k => match k with O => Kept | _ => Done end) ltac:(by vm_compute) ltac:(by vm_compute)) as H.
  cbn zeta. cbn zeta in H. destruct (flush _ _ _ _) as [[[w d] n] err] eqn:E.
  vm_compute in E. injection E as <- <- <- <-. split; [done|]. split; [|apply H]. by apply (proj2 (proj2 H)).
Defined.

Lemma never_stranded_witness :
  let s := lrun "h" 420 (new_ledger ∅) (history ++ [Return; WorkerChecks; StopRunning; Settle; Settle; InlineDrain;
    InlineDrain; Land Kept; Return]) in
  lw_failed (lg_writer s) = true /\ snd (submit "h" "c" 420 (lg_writer s)) = true.
Proof.
  destruct (never_stranded "h" 420 ∅ (history ++ [Return; WorkerChecks; StopRunning; Settle; Settle; InlineDrain;
    InlineDrain; Land Kept; Return]) "c") as [H|H]; [|vm_compute in H; discriminate H|exact H].
  intros [H|[H|[H|[H|[H|H]]]]]; vm_compute in H; inversion H.
Defined.
