(* ===== verification/Outbox.v ===== *)
(** * Outbox: the write-ahead outbox of tracker mutations (internal/outbox)

    An [Outbox] is its in-memory list of entries (enqueue order) and the file
    the list is persisted to.  Each operation takes what the environment
    decides: the clock, the random bytes, and whether the atomic write of the
    file succeeds (a failed write leaves the previous file, as
    internal/atomicfs guarantees).  JSON encoding is the standard library's:
    the file holds the list of entries it encodes. *)

From stdpp Require Import base gmap list strings.
From Stdlib Require Import Ascii.
From S2P Require Import Prelude.

(** ** Data (outbox.go 35-125) *)

Definition KindUpdateState : string := "update_state".
Definition KindCreateComment : string := "create_comment".
Definition outboxDegradedAttempts : Z := 5.
Definition backoffBase : Duration := 10 * Second.
Definition backoffCap : Duration := 5 * Minute.
Definition rateLimitJitterMax : Duration := 5 * Second.
Definition maxRateLimitedWindow : Duration := 2 * Hour.

Record Entry := MkEntry {
  e_ID : string;
  e_Kind : string;
  e_IssueID : string;
  e_Identifier : string;
  e_TargetState : string;
  e_FromState : string;
  e_Body : string;
  e_CommentKey : string;
  e_EnqueuedAt : Time;
  e_Attempts : Z;
  e_LastError : string;
  e_NextAttemptAt : Time;
  e_RateLimitedAttempts : Z;
  e_RateLimitedUntil : Time;
  e_LastFailedAt : Time;
}.

#[export] Instance eta_Entry : Settable Entry := {|
  eta_record e := MkEntry (e_ID e) (e_Kind e) (e_IssueID e) (e_Identifier e) (e_TargetState e)
    (e_FromState e) (e_Body e) (e_CommentKey e) (e_EnqueuedAt e) (e_Attempts e)
    (e_LastError e) (e_NextAttemptAt e) (e_RateLimitedAttempts e) (e_RateLimitedUntil e)
    (e_LastFailedAt e) |}.
#[export] Instance Entry_eq_dec : EqDecision Entry.
Proof. solve_decision. Defined.

Definition Degraded (e : Entry) : bool := outboxDegradedAttempts <=? e_Attempts e.

(** The file: absent, unreadable, unparsable, or a list of entries. *)
Inductive Disk :=
  | Missing
  | Unreadable
  | Corrupt
  | Stored (entries : list Entry).

Record Outbox := MkOutbox {
  ob_path : string;
  ob_entries : list Entry;
  ob_disk : Disk;
}.

#[export] Instance eta_Outbox : Settable Outbox := {|
  eta_record o := MkOutbox (ob_path o) (ob_entries o) (ob_disk o) |}.

Inductive OutboxError :=
  | EmptyTargetState
  | EmptyBody
  | UnknownKind (kind : string)
  | EmptyIssueID
  | EmptyIdentifier
  | KeyGenerationFailed
  | PersistFailed.

(** What [errors.As] makes of a delivery error. *)
Inductive DeliveryError :=
  | DeliveryRateLimited (msg : string) (resetAt : Time)
  | DeliveryFailed (msg : string).

(** ** Validation, identifiers and keys *)

Definition validateEntry (e : Entry) : option OutboxError :=
  let payload :=
    if String.eqb (e_Kind e) KindUpdateState then
      if String.eqb (e_TargetState e) "" then Some EmptyTargetState else None
    else if String.eqb (e_Kind e) KindCreateComment then
      if String.eqb (e_Body e) "" then Some EmptyBody else None
    else Some (UnknownKind (e_Kind e)) in
  match payload with
  | Some err => Some err
  | None =>
      if String.eqb (e_IssueID e) "" then Some EmptyIssueID
      else if String.eqb (e_Identifier e) "" then Some EmptyIdentifier
      else None
  end.

(** [rand] is what crypto/rand delivers, [None] when it fails; [n] is the
    fallback counter after its increment. *)
Definition newEntryID (now : Time) (rand : option (list Z)) (n : Z) : string :=
  match rand with
  | None => format_d (UnixNano now) +:+ "-f" +:+ pad_left 11 "0"%char (format_x n)
  | Some buf => format_d (UnixNano now) +:+ "-" +:+ hex_encode buf
  end.

(** Version 4, variant 10, in the five dashed groups of a UUID. *)
Definition uuid_string (b : list Z) : string :=
  let b := alter (fun x => Z.lor (Z.land x 15) 64) 6%nat b in
  let b := alter (fun x => Z.lor (Z.land x 63) 128) 8%nat b in
  let part (i n : nat) := hex_encode (take n (drop i b)) in
  part 0%nat 4%nat +:+ "-" +:+ part 4%nat 2%nat +:+ "-" +:+ part 6%nat 2%nat +:+ "-" +:+
  part 8%nat 2%nat +:+ "-" +:+ part 10%nat 6%nat.

Definition NewCommentKey (rand : option (list Z)) : option string := uuid_string <$> rand.

Section outbox.
(** crypto/sha256: the 32-byte digest of a string. *)
Variable sha256 : string -> list Z.

Definition legacyCommentKey (id : string) : string :=
  uuid_string (take 16
    (sha256 ("itervox/outbox/legacy-comment-key" +:+ String "000" EmptyString +:+ id))).

(** ** Persistence *)

(** [persistLocked]: [io] says whether the write succeeds. *)
Definition persistLocked (io : bool) (o : Outbox) : bool * Outbox :=
  if String.eqb (ob_path o) "" then (true, o)
  else if io then (true, o <| ob_disk := Stored (ob_entries o) |>)
  else (false, o).

(** The loop of [New] over the parsed file: the entries it keeps, and
    whether a key was backfilled. *)
Definition load_entry (e : Entry) : option (Entry * bool) :=
  if String.eqb (e_ID e) "" then None
  else match validateEntry e with
       | Some _ => None
       | None =>
           if String.eqb (e_Kind e) KindCreateComment && String.eqb (e_CommentKey e) ""
           then Some (e <| e_CommentKey := legacyCommentKey (e_ID e) |>, true)
           else Some (e, false)
       end.

Definition New (path : string) (disk : Disk) (io : bool) : Outbox :=
  let o := MkOutbox path [] disk in
  if String.eqb path "" then o
  else match disk with
       | Missing | Unreadable | Corrupt => o
       | Stored es =>
           let kept := omap load_entry es in
           let o := o <| ob_entries := map fst kept |> in
           if existsb snd kept then snd (persistLocked io o) else o
       end.

(** ** Operations *)

(** What the environment decides in one [Enqueue]. *)
Record EnqueueEnv := MkEnqueueEnv {
  env_now : Time;
  env_id_rand : option (list Z);
  env_counter : Z;
  env_key_rand : option (list Z);
  env_io : bool;
}.

(** The entry [Enqueue] stores: fresh bookkeeping, and a comment key of its
    own unless the caller supplied one.  [None]: no random bytes for it. *)
Definition stamp_entry (env : EnqueueEnv) (e : Entry) : option Entry :=
  let now := env_now env in
  let e := e <| e_ID := newEntryID now (env_id_rand env) (env_counter env) |>
             <| e_EnqueuedAt := now |>
             <| e_Attempts := 0 |>
             <| e_LastError := "" |>
             <| e_NextAttemptAt := now |> in
  if String.eqb (e_Kind e) KindCreateComment && String.eqb (e_CommentKey e) "" then
    match NewCommentKey (env_key_rand env) with
    | None => None
    | Some key => Some (e <| e_CommentKey := key |>)
    end
  else Some e.

Definition Enqueue (env : EnqueueEnv) (e : Entry) (o : Outbox) : option OutboxError * Outbox :=
  match validateEntry e with
  | Some err => (Some err, o)
  | None =>
      match stamp_entry env e with
      | None => (Some KeyGenerationFailed, o)
      | Some e =>
          let o' := o <| ob_entries := ob_entries o ++ [e] |> in
          match persistLocked (env_io env) o' with
          | (true, o'') => (None, o'')
          | (false, o'') =>
              (Some PersistFailed,
               o'' <| ob_entries := take (length (ob_entries o'') - 1) (ob_entries o'') |>)
          end
      end
  end.

(** The loop of [Due]: [seen] is [seenHead]. *)
Fixpoint due_loop (now : Time) (seen : gset string) (es : list Entry) : list Entry :=
  match es with
  | [] => []
  | e :: es' =>
      if decide (e_IssueID e ∈ seen) then due_loop now seen es'
      else
        let rest := due_loop now ({[e_IssueID e]} ∪ seen) es' in
        if negb (time_after (e_NextAttemptAt e) now) then e :: rest else rest
  end.

Definition Due (o : Outbox) (now : Time) : list Entry := due_loop now ∅ (ob_entries o).

Fixpoint indexOf (id : string) (es : list Entry) : option nat :=
  match es with
  | [] => None
  | e :: es' => if String.eqb (e_ID e) id then Some O else S <$> indexOf id es'
  end.

(** [append(entries[:idx], entries[idx+1:]...)] then persist. *)
Definition remove_at (idx : nat) (io : bool) (o : Outbox) : Outbox :=
  snd (persistLocked io (o <| ob_entries := base.delete idx (ob_entries o) |>)).

Definition MarkFlushed (id : string) (io : bool) (o : Outbox) : Outbox :=
  match indexOf id (ob_entries o) with
  | None => o
  | Some idx => remove_at idx io o
  end.

Definition backoffFor (attempts : Z) : Duration :=
  let attempts := if attempts <? 1 then 1 else attempts in
  let shift := attempts - 1 in
  if 20 <? shift then backoffCap
  else
    let d := mul64 backoffBase (Z.shiftl 1 shift) in
    if (d <=? 0) || (backoffCap <? d) then backoffCap else d.

(** [jitter] is the delay [rateLimitJitter] draws, in [0, 5s). *)
Definition fail_entry (err : option DeliveryError) (now : Time) (jitter : Duration) (e : Entry) :
    Entry :=
  match err with
  | Some (DeliveryRateLimited msg reset) =>
      let e := e <| e_RateLimitedAttempts := add64 (e_RateLimitedAttempts e) 1 |> in
      let limit := time_add now maxRateLimitedWindow in
      let resetAt := if time_after reset limit then limit else reset in
      let next := time_add now (backoffFor (add64 (e_Attempts e) 1)) in
      let jittered := time_add resetAt jitter in
      let next := if time_after jittered next then jittered else next in
      e <| e_RateLimitedUntil := resetAt |>
        <| e_NextAttemptAt := next |>
        <| e_LastError := msg |>
  | _ =>
      let attempts := add64 (e_Attempts e) 1 in
      let e := e <| e_Attempts := attempts |>
                 <| e_LastFailedAt := now |>
                 <| e_NextAttemptAt := time_add now (backoffFor attempts) |>
                 <| e_RateLimitedUntil := zero_time |> in
      match err with
      | Some (DeliveryFailed msg) => e <| e_LastError := msg |>
      | _ => e
      end
  end.

Definition update_at (idx : nat) (f : Entry -> Entry) (io : bool) (o : Outbox) : Outbox :=
  snd (persistLocked io (o <| ob_entries := alter f idx (ob_entries o) |>)).

Definition MarkFailed (id : string) (err : option DeliveryError) (now : Time)
    (jitter : Duration) (io : bool) (o : Outbox) : Outbox :=
  match indexOf id (ob_entries o) with
  | None => o
  | Some idx => update_at idx (fail_entry err now jitter) io o
  end.

Definition Drop (id : string) (io : bool) (o : Outbox) : Outbox :=
  match indexOf id (ob_entries o) with
  | None => o
  | Some idx => remove_at idx io o
  end.

Definition RetryNow (id : string) (now : Time) (io : bool) (o : Outbox) : bool * Outbox :=
  match indexOf id (ob_entries o) with
  | None => (false, o)
  | Some idx => (true, update_at idx (fun e => e <| e_NextAttemptAt := now |>) io o)
  end.

Definition PendingFor (o : Outbox) (issueID : string) : list Entry :=
  filter (fun e => e_IssueID e = issueID) (ob_entries o).

Definition Snapshot (o : Outbox) : list Entry := ob_entries o.
End outbox.

(** ** Lemmas on the list operations *)

Lemma indexOf_Some id es i :
  indexOf id es = Some i ->
  exists pre e post, es = pre ++ e :: post /\ i = length pre /\ e_ID e = id /\
    Forall (fun x => e_ID x <> id) pre.
Proof.
  revert i. induction es as [|e es IH]; intros i; cbn; [done|].
  destruct (String.eqb_spec (e_ID e) id) as [E|E].
  - intros [= <-]. by exists [], e, es.
  - destruct (indexOf id es) as [j|] eqn:Hj; cbn; [|done]. intros [= <-].
    destruct (IH j eq_refl) as (pre & x & post & -> & -> & Hx & Hpre).
    exists (e :: pre), x, post. repeat split; try done. by constructor.
Qed.

Lemma indexOf_None id es : indexOf id es = None <-> Forall (fun x => e_ID x <> id) es.
Proof.
  induction es as [|e es IH]; cbn; [by split|].
  destruct (String.eqb_spec (e_ID e) id) as [E|E].
  - split; [done|]. intros H. by apply Forall_cons in H as [? _].
  - rewrite fmap_None, IH, Forall_cons. naive_solver.
Qed.

Lemma alter_middle {A} (f : A -> A) (pre : list A) x post :
  alter f (length pre) (pre ++ x :: post) = pre ++ f x :: post.
Proof. induction pre as [|y pre IH]; [done|]. cbn. by rewrite IH. Qed.

(** Either the id is absent and nothing happens, or its first entry [e] goes
    through the operation. *)
Lemma persist_entries io o : ob_entries (snd (persistLocked io o)) = ob_entries o.
Proof. unfold persistLocked. by destruct (String.eqb _ _), io. Qed.

Lemma remove_cases id io o o' :
  o' = match indexOf id (ob_entries o) with
       | None => o | Some idx => remove_at idx io o end ->
  (o' = o /\ Forall (fun x => e_ID x <> id) (ob_entries o)) \/
  exists pre e post, ob_entries o = pre ++ e :: post /\ e_ID e = id /\
    ob_entries o' = pre ++ post.
Proof.
  intros ->. destruct (indexOf id (ob_entries o)) as [i|] eqn:Hi.
  - right. apply indexOf_Some in Hi as (pre & e & post & E & -> & He & _).
    exists pre, e, post. repeat split; [done..|].
    unfold remove_at. rewrite persist_entries. cbn. by rewrite E, delete_middle.
  - left. split; [done|]. by apply indexOf_None.
Qed.

Lemma update_cases id f io o o' :
  o' = match indexOf id (ob_entries o) with
       | None => o | Some idx => update_at idx f io o end ->
  (o' = o /\ Forall (fun x => e_ID x <> id) (ob_entries o)) \/
  exists pre e post, ob_entries o = pre ++ e :: post /\ e_ID e = id /\
    ob_entries o' = pre ++ f e :: post.
Proof.
  intros ->. destruct (indexOf id (ob_entries o)) as [i|] eqn:Hi.
  - right. apply indexOf_Some in Hi as (pre & e & post & E & -> & He & _).
    exists pre, e, post. repeat split; [done..|].
    unfold update_at. rewrite persist_entries. cbn. by rewrite E, alter_middle.
  - left. split; [done|]. by apply indexOf_None.
Qed.

(** ** Enqueue is atomic *)

Lemma Enqueue_cases env e o :
  (exists err, Enqueue env e o = (Some err, o)) \/
  (exists s, validateEntry e = None /\ stamp_entry env e = Some s /\
     (ob_path o = "" \/ env_io env = true) /\
     Enqueue env e o =
       (None, MkOutbox (ob_path o) (ob_entries o ++ [s])
                (if String.eqb (ob_path o) "" then ob_disk o else Stored (ob_entries o ++ [s])))).
Proof.
  unfold Enqueue. destruct (validateEntry e) as [err|]; [by left; exists err|].
  destruct (stamp_entry env e) as [s|]; [|by left; eexists].
  unfold persistLocked. cbn.
  destruct (String.eqb_spec (ob_path o) "") as [Hp|Hp]; [|destruct (env_io env)].
  - right. exists s. repeat split; auto.
  - right. exists s. repeat split; auto.
  - left. exists PersistFailed. f_equal. destruct o as [p es d]. cbn.
    by rewrite length_app, Nat.add_sub, take_app_length.
Qed.

(** ** Histories *)

Inductive Op :=
  | OpEnqueue (env : EnqueueEnv) (e : Entry)
  | OpFlushed (id : string) (io : bool)
  | OpFailed (id : string) (err : option DeliveryError) (now : Time) (jitter : Duration) (io : bool)
  | OpDrop (id : string) (io : bool)
  | OpRetryNow (id : string) (now : Time) (io : bool).

Definition apply_op (o : Outbox) (op : Op) : Outbox :=
  match op with
  | OpEnqueue env e => snd (Enqueue env e o)
  | OpFlushed id io => MarkFlushed id io o
  | OpFailed id err now jitter io => MarkFailed id err now jitter io o
  | OpDrop id io => Drop id io o
  | OpRetryNow id now io => snd (RetryNow id now io o)
  end.

Definition run_ops (ops : list Op) (o : Outbox) : Outbox := foldl apply_op o ops.

(** The id an operation removes, and the one an enqueue assigns. *)
Definition removes (op : Op) : option string :=
  match op with OpFlushed id _ | OpDrop id _ => Some id | _ => None end.
Definition assigns (op : Op) : option string :=
  match op with
  | OpEnqueue env _ => Some (newEntryID (env_now env) (env_id_rand env) (env_counter env))
  | _ => None
  end.

(** What an entry asks the tracker to do, as opposed to its bookkeeping. *)
Definition payload (e : Entry) : string * string * string * string * string * string * string :=
  (e_ID e, e_Kind e, e_IssueID e, e_Identifier e, e_TargetState e, e_FromState e, e_Body e).
Definition request (e : Entry) := (payload e, e_CommentKey e, e_EnqueuedAt e).

Definition ids (o : Outbox) : list string := map e_ID (ob_entries o).

(** One operation: it appends one entry, removes one, or rewrites the
    bookkeeping of one. *)
Lemma apply_op_cases o op :
  apply_op o op = o \/
  (exists env e s, op = OpEnqueue env e /\ validateEntry e = None /\
     stamp_entry env e = Some s /\ ob_entries (apply_op o op) = ob_entries o ++ [s]) \/
  (exists pre e post, removes op = Some (e_ID e) /\ ob_entries o = pre ++ e :: post /\
     ob_entries (apply_op o op) = pre ++ post) \/
  (exists pre e e' post, ob_entries o = pre ++ e :: post /\
     ob_entries (apply_op o op) = pre ++ e' :: post /\ request e' = request e).
Proof.
  destruct op as [env e|id io|id err now j io|id io|id now io]; cbn [apply_op].
  - destruct (Enqueue_cases env e o) as [[err ->]|(s & Hv & Hs & _ & ->)]; [by left|].
    right; left. by exists env, e, s.
  - unfold MarkFlushed. destruct (remove_cases id io o _ eq_refl) as [[-> _]|(pre & e & post & E & <- & E')]; [by left|].
    right; right; left. by exists pre, e, post.
  - unfold MarkFailed. destruct (update_cases id (fail_entry err now j) io o _ eq_refl)
      as [[-> _]|(pre & e & post & E & <- & E')]; [by left|].
    right; right; right. exists pre, e, (fail_entry err now j e), post. repeat split; [done..|].
    by destruct err as [[]|].
  - unfold Drop. destruct (remove_cases id io o _ eq_refl) as [[-> _]|(pre & e & post & E & <- & E')]; [by left|].
    right; right; left. by exists pre, e, post.
  - unfold RetryNow; cbn [apply_op].
    pose proof (update_cases id (fun e => e <| e_NextAttemptAt := now |>) io o _ eq_refl) as H.
    destruct (indexOf id (ob_entries o)); cbn; [|by left].
    destruct H as [[-> _]|(pre & e & post & E & <- & E')]; [by left|].
    right; right; right. by eexists pre, e, _, post.
Qed.

Lemma stamp_entry_request env e s :
  stamp_entry env e = Some s ->
  e_ID s = newEntryID (env_now env) (env_id_rand env) (env_counter env) /\
  e_Kind s = e_Kind e /\ e_IssueID s = e_IssueID e /\ e_Identifier s = e_Identifier e /\
  e_TargetState s = e_TargetState e /\ e_FromState s = e_FromState e /\ e_Body s = e_Body e /\
  e_Attempts s = 0 /\ e_NextAttemptAt s = env_now env /\ e_EnqueuedAt s = env_now env /\
  (e_CommentKey e <> "" -> e_CommentKey s = e_CommentKey e).
Proof.
  unfold stamp_entry. cbn.
  destruct (String.eqb (e_Kind e) KindCreateComment); cbn.
  - destruct (String.eqb_spec (e_CommentKey e) "").
    + destruct (NewCommentKey _); [|done]. intros; simplify_eq; by repeat split.
    + intros; simplify_eq; by repeat split.
  - intros; simplify_eq; by repeat split.
Qed.

(** C5: nothing leaves the outbox unless it was flushed or dropped: through
    any history that does neither to its id, whatever fails to persist or to
    deliver, an entry stays with its request untouched. *)
Theorem never_silently_discarded ops o e
    (Hin : e ∈ ob_entries o)
    (Hkeep : Forall (fun op => removes op <> Some (e_ID e)) ops) :
  exists e', e' ∈ ob_entries (run_ops ops o) /\ request e' = request e.
Proof.
  revert o e Hin Hkeep. induction ops as [|op ops IH]; intros o e Hin Hkeep; [by exists e|].
  apply Forall_cons in Hkeep as [Hop Hops]. cbn.
  assert (Hstep : exists e1, e1 ∈ ob_entries (apply_op o op) /\ request e1 = request e).
  { destruct (apply_op_cases o op) as [->|[(env & x & s & -> & _ & _ & ->)|
      [(pre & x & post & Hr & E & ->)|(pre & x & x' & post & E & -> & Hx)]]].
    - by exists e.
    - exists e. split; [by apply elem_of_app; left|done].
    - exists e. split; [|done]. rewrite E in Hin. rewrite elem_of_app in *.
      rewrite elem_of_cons in Hin. destruct Hin as [?|[->|?]]; [by left|congruence|by right].
    - rewrite E, elem_of_app, elem_of_cons in Hin. destruct Hin as [?|[->|?]].
      + exists e. by rewrite elem_of_app; auto.
      + exists x'. split; [|done]. by rewrite elem_of_app, elem_of_cons; auto.
      + exists e. by rewrite elem_of_app, elem_of_cons; auto. }
  destruct Hstep as (e1 & H1 & R1).
  assert (Hid : e_ID e1 = e_ID e) by (unfold request, payload in R1; congruence).
  destruct (IH (apply_op o op) e1 H1) as (e2 & H2 & R2); [by rewrite Hid|].
  exists e2. split; [done|congruence].
Qed.

(** The outbox is first-in first-out: after any history the surviving
    entries come first in their old order, and the new ones follow in the
    order they were enqueued. *)
Theorem outbox_fifo ops o :
  exists kept new, ids (run_ops ops o) = kept ++ new /\
    kept `sublist_of` ids o /\ new `sublist_of` omap assigns ops.
Proof.
  revert o. induction ops as [|op ops IH]; intros o; [by exists (ids o), []; rewrite app_nil_r|].
  destruct (IH (apply_op o op)) as (kept & new & E & Hk & Hn). cbn in *.
  destruct (apply_op_cases o op) as [Eo|[(env & x & s & -> & _ & Hs & Eo)|
      [(pre & x & post & Hr & Eo & Eo')|(pre & x & x' & post & Eo & Eo' & Hx)]]].
  - rewrite Eo in Hk. exists kept, new. repeat split; try done.
    destruct (assigns op); [by apply sublist_cons|done].
  - unfold ids in Hk. rewrite Eo, map_app in Hk. cbn in Hk.
    apply sublist_app_r in Hk as (k1 & k2 & -> & Hk1 & Hk2).
    exists k1, (k2 ++ new). rewrite app_assoc. repeat split; try done.
    apply stamp_entry_request in Hs as [Hid _]. cbn in Hid. cbn. rewrite <- Hid.
    change (e_ID s :: ?l) with ([e_ID s] ++ l). by apply sublist_app.
  - exists kept, new. repeat split; try done.
    + etrans; [done|]. unfold ids. rewrite Eo, Eo', !map_app. cbn.
      apply sublist_app; [done|]. by apply sublist_cons.
    + destruct (assigns op); [by apply sublist_cons|done].
  - exists kept, new. repeat split; try done.
    + etrans; [done|]. unfold ids. rewrite Eo, Eo', !map_app. cbn.
      by replace (e_ID x') with (e_ID x) by (unfold request, payload in Hx; congruence).
    + destruct (assigns op); [by apply sublist_cons|done].
Qed.

(** ** Well-formed entries and restarts *)

Definition wf_entry (e : Entry) : Prop :=
  e_ID e <> "" /\ validateEntry e = None /\
  (e_Kind e = KindCreateComment -> e_CommentKey e <> "").

Lemma uuid_string_nonempty b : uuid_string b <> "".
Proof.
  unfold uuid_string. intros H. apply (f_equal (contains_byte "-"%char)) in H.
  by rewrite !contains_byte_app, ?orb_true_r in H.
Qed.

Lemma newEntryID_nonempty now rand n : newEntryID now rand n <> "".
Proof.
  intros H. apply (f_equal (contains_byte "-"%char)) in H. unfold newEntryID in H.
  destruct rand; by rewrite !contains_byte_app, ?orb_true_r in H.
Qed.

Lemma validateEntry_request e e' :
  e_Kind e' = e_Kind e -> e_IssueID e' = e_IssueID e -> e_Identifier e' = e_Identifier e ->
  e_TargetState e' = e_TargetState e -> e_Body e' = e_Body e ->
  validateEntry e' = validateEntry e.
Proof. unfold validateEntry. by intros -> -> -> -> ->. Qed.

Lemma wf_entry_request e e' : request e' = request e -> wf_entry e -> wf_entry e'.
Proof.
  unfold wf_entry. intros [= H1 H2 H3 H4 H5 H6 H7 H8].
  by rewrite (validateEntry_request e e'), H1, H2, H8 by done.
Qed.

Lemma wf_stamp env e s :
  validateEntry e = None -> stamp_entry env e = Some s -> wf_entry s.
Proof.
  intros Hv Hs. pose proof (stamp_entry_request env e s Hs) as
    (Hid & Hk & Hi & Hn & Ht & _ & Hb & _). repeat split.
  - rewrite Hid. apply newEntryID_nonempty.
  - by rewrite (validateEntry_request e s).
  - unfold stamp_entry in Hs. intros Hc. rewrite Hk in Hc. cbn in Hs. rewrite Hc in Hs.
    cbn in Hs. destruct (String.eqb_spec (e_CommentKey e) "") as [E|E].
    + unfold NewCommentKey in Hs. destruct (env_key_rand env); cbn in Hs; [|done].
      injection Hs as <-. apply uuid_string_nonempty.
    + injection Hs as <-. done.
Qed.

Lemma load_entry_wf sha e e' b : load_entry sha e = Some (e', b) -> wf_entry e'.
Proof.
  unfold load_entry, wf_entry. destruct (String.eqb_spec (e_ID e) ""); [done|].
  destruct (validateEntry e) eqn:Hv; [done|].
  destruct (String.eqb_spec (e_Kind e) KindCreateComment) as [Hk|Hk]; cbn;
    [destruct (String.eqb_spec (e_CommentKey e) "") as [Hc|Hc]|].
  - intros [= <- <-]. cbn. repeat split; try done. intros _. apply uuid_string_nonempty.
  - by intros [= <- <-].
  - by intros [= <- <-].
Qed.

Lemma load_entry_id sha e : wf_entry e -> load_entry sha e = Some (e, false).
Proof.
  unfold load_entry, wf_entry. intros (H1 & H2 & H3).
  apply String.eqb_neq in H1. rewrite H1, H2.
  destruct (String.eqb_spec (e_Kind e) KindCreateComment) as [Hk|]; [|done].
  specialize (H3 Hk). apply String.eqb_neq in H3. by rewrite H3.
Qed.

Lemma New_entries_wf sha path disk io : Forall wf_entry (ob_entries (New sha path disk io)).
Proof.
  unfold New. destruct (String.eqb path ""); [constructor|].
  destruct disk as [| | |es]; try constructor.
  assert (H : Forall wf_entry (map fst (omap (load_entry sha) es))).
  { apply Forall_forall. intros x Hx. apply list_elem_of_In, in_map_iff in Hx as ([y b] & <- & Hy).
    apply list_elem_of_In, list_elem_of_omap in Hy as (e & _ & He). cbn.
    by eapply load_entry_wf. }
  destruct (existsb _ _); [|done]. by rewrite persist_entries.
Qed.

Lemma apply_op_wf o op : Forall wf_entry (ob_entries o) -> Forall wf_entry (ob_entries (apply_op o op)).
Proof.
  intros H. destruct (apply_op_cases o op) as [->|[(env & x & s & -> & Hv & Hs & ->)|
      [(pre & x & post & Hr & E & ->)|(pre & x & x' & post & E & -> & Hx)]]]; [done|..].
  - apply Forall_app. split; [done|]. constructor; [|constructor]. by eapply wf_stamp.
  - rewrite E in H. apply Forall_app in H as [? H]. apply Forall_cons in H as [_ ?].
    by apply Forall_app.
  - rewrite E in H. apply Forall_app in H as [? H]. apply Forall_cons in H as [? ?].
    apply Forall_app. split; [done|]. constructor; [|done]. by eapply wf_entry_request.
Qed.

(** C40: whatever the file held at start-up, an unknown kind, an empty payload
    or a missing key included, and whatever happens after, every entry the
    outbox holds is deliverable: it has an id, a known kind with its payload,
    an issue, and a comment has a key. *)
Theorem outbox_entries_deliverable sha path disk io ops :
  Forall wf_entry (ob_entries (run_ops ops (New sha path disk io))).
Proof.
  assert (H : Forall wf_entry (ob_entries (New sha path disk io))) by apply New_entries_wf.
  revert H. generalize (New sha path disk io). induction ops as [|op ops IH]; intros o H; [done|].
  by apply IH, apply_op_wf.
Qed.

Lemma New_stored_wf sha path es io :
  Forall wf_entry es -> path <> "" -> New sha path (Stored es) io = MkOutbox path es (Stored es).
Proof.
  intros H Hp. unfold New. apply String.eqb_neq in Hp. rewrite Hp.
  assert (E : omap (load_entry sha) es = map (fun e => (e, false)) es).
  { induction H as [|e es He Hes IH]; [done|]. cbn. by rewrite load_entry_id, IH. }
  rewrite E, map_map. cbn. rewrite map_id.
  replace (existsb snd (map (fun e : Entry => (e, false)) es)) with false; [done|].
  clear. by induction es.
Qed.

(** [Enqueue] is atomic and durable: on an error nothing changed, in
    memory or in the file; on success the entry is last in the queue with
    the caller's request, due at once, and a process that dies right after
    finds the same queue when it opens the file again. *)
Theorem Enqueue_atomic_durable env e o err o'
    (Hwf : Forall wf_entry (ob_entries o))
    (Hpath : ob_path o <> "")
    (Hrun : Enqueue env e o = (err, o')) :
  match err with
  | Some _ => o' = o
  | None =>
      exists s, ob_entries o' = ob_entries o ++ [s] /\
        e_Kind s = e_Kind e /\ e_IssueID s = e_IssueID e /\ e_TargetState s = e_TargetState e /\
        e_FromState s = e_FromState e /\ e_Body s = e_Body e /\
        e_Attempts s = 0 /\ e_NextAttemptAt s = env_now env /\
        forall sha io, New sha (ob_path o) (ob_disk o') io = o'
  end.
Proof.
  destruct (Enqueue_cases env e o) as [[er E]|(s & Hv & Hs & _ & E)]; rewrite E in Hrun;
    injection Hrun as <- <-; [done|].
  pose proof (stamp_entry_request env e s Hs) as (_ & ? & ? & _ & ? & ? & ? & ? & ? & _).
  exists s. apply String.eqb_neq in Hpath as Hp. cbn. rewrite Hp. repeat split; try done.
  intros sha io. apply New_stored_wf; [|done]. apply Forall_app. split; [done|].
  constructor; [|constructor]. by eapply wf_stamp.
Qed.

(** Re-opening a file written before comment keys existed derives the
    same keys every time, whether or not the backfill could be persisted. *)
Theorem reopen_stable sha path disk io io' :
  ob_entries (New sha path (ob_disk (New sha path disk io)) io')
    = ob_entries (New sha path disk io).
Proof.
  destruct (String.eqb_spec path "") as [->|Hp]; [done|].
  apply String.eqb_neq in Hp as Hb.
  destruct disk as [| | |es].
  1-3: unfold New; rewrite Hb; cbn; done.
  pose proof (New_entries_wf sha path (Stored es) io) as Hwf.
  assert (Hd : ob_disk (New sha path (Stored es) io) = Stored es \/
    ob_disk (New sha path (Stored es) io)
      = Stored (ob_entries (New sha path (Stored es) io))).
  { unfold New, persistLocked. rewrite Hb.
    destruct (existsb _ _); [|by left]. cbn. rewrite Hb. destruct io; cbn; [by right|by left]. }
  destruct Hd as [->| ->].
  - unfold New. rewrite Hb. destruct (existsb _ _); by rewrite ?persist_entries.
  - by rewrite (New_stored_wf sha path _ io') by done.
Qed.

(** ** Due: the heads of the per-issue queues *)

Lemma due_loop_spec now e seen es :
  (e ∈ due_loop now seen es) <->
  (e_IssueID e ∉ seen) /\ e_NextAttemptAt e <= now /\
  exists pre post, es = pre ++ e :: post /\ Forall (fun x => e_IssueID x <> e_IssueID e) pre.
Proof.
  revert seen. induction es as [|x es IH]; intros seen.
  { cbn. rewrite elem_of_nil. split; [done|]. by intros (_ & _ & [|? ?] & ? & ? & _). }
  assert (Hskip : forall P : Prop, e_IssueID x <> e_IssueID e ->
    (P /\ exists pre post, es = pre ++ e :: post /\
       Forall (fun x => e_IssueID x <> e_IssueID e) pre) <->
    (P /\ exists pre post, x :: es = pre ++ e :: post /\
       Forall (fun x => e_IssueID x <> e_IssueID e) pre)).
  { intros P Hx. split; intros (HP & pre & post & E & Hpre); (split; [done|]).
    - exists (x :: pre), post. rewrite E. by split; [|constructor].
    - destruct pre as [|y pre]; cbn in E; simplify_eq.
      apply Forall_cons in Hpre as [_ ?]. by exists pre, post. }
  cbn. destruct (decide (e_IssueID x ∈ seen)) as [Hs|Hs].
  - rewrite IH. destruct (decide (e_IssueID x = e_IssueID e)) as [He|He].
    + rewrite <- He. by split; intros [? _].
    + rewrite !(and_assoc (e_IssueID e ∉ seen)). by apply Hskip.
  - assert (Hin : (e ∈ due_loop now ({[e_IssueID x]} ∪ seen) es) <->
      e_IssueID x <> e_IssueID e /\ (e_IssueID e ∉ seen) /\ e_NextAttemptAt e <= now /\
      exists pre post, x :: es = pre ++ e :: post /\
        Forall (fun x => e_IssueID x <> e_IssueID e) pre).
    { rewrite IH, not_elem_of_union, not_elem_of_singleton.
      destruct (decide (e_IssueID x = e_IssueID e)) as [He|He]; [by split; intros (? & _); naive_solver|].
      rewrite !(and_assoc (e_IssueID e ∉ seen)). rewrite <- Hskip by done. naive_solver. }
    unfold time_after. destruct (Z.ltb_spec now (e_NextAttemptAt x)) as [Hn|Hn]; cbn [negb].
    + rewrite Hin. split; [naive_solver|].
      intros (H1 & H2 & pre & post & E & Hpre). split; [|split_and!; eauto].
      destruct pre as [|y pre]; cbn in E; simplify_eq; [lia|].
      by apply Forall_cons in Hpre as [? _].
    + rewrite elem_of_cons, Hin. split.
      * intros [->|(? & ? & ? & ?)]; [|by split_and!]. split_and!; [done..|].
        by exists [], es.
      * intros (H1 & H2 & pre & post & E & Hpre).
        destruct pre as [|y pre]; cbn in E; simplify_eq; [by left|right].
        pose proof Hpre as [? _]%Forall_cons. split_and!; [done..|]. by exists (y :: pre), post.
Qed.

Lemma due_loop_sublist now seen es : due_loop now seen es `sublist_of` es.
Proof.
  revert seen. induction es as [|x es IH]; intros seen; cbn; [done|].
  destruct (decide _); [by apply sublist_cons|].
  destruct (negb _); [by constructor|by apply sublist_cons].
Qed.

Lemma due_loop_nodup now seen es : NoDup (map e_IssueID (due_loop now seen es)).
Proof.
  revert seen. induction es as [|x es IH]; intros seen; cbn; [constructor|].
  destruct (decide _); [done|]. destruct (negb _); [|done]. cbn. constructor; [|done].
  intros Hx. apply list_elem_of_In, in_map_iff in Hx as (y & Hy & Hin).
  apply list_elem_of_In, due_loop_spec in Hin as (Hn & _). set_solver.
Qed.

(** The entries due at [now] are exactly the entries whose attempt time
    has come and that have no earlier entry pending for their issue; they come
    in queue order, at most one per issue. *)
Theorem Due_heads o now :
  (forall e, (e ∈ Due o now) <->
     e_NextAttemptAt e <= now /\
     exists pre post, ob_entries o = pre ++ e :: post /\
       Forall (fun x => e_IssueID x <> e_IssueID e) pre) /\
  Due o now `sublist_of` ob_entries o /\
  NoDup (map e_IssueID (Due o now)).
Proof.
  split_and!; [|apply due_loop_sublist|apply due_loop_nodup].
  intros e. unfold Due. rewrite due_loop_spec. set_solver.
Qed.

(** ** Backoff *)

(** 10 s doubled per further failure and capped at 5 minutes, for every attempt
    count: the 64-bit product never overflows. *)
Lemma backoffFor_eq attempts :
  backoffFor attempts = Z.min (5 * Minute) (10 * Second * 2 ^ (Z.max 1 attempts - 1)).
Proof.
  unfold backoffFor. set (a := if attempts <? 1 then 1 else attempts).
  assert (Ha : a = Z.max 1 attempts) by (subst a; destruct (Z.ltb_spec attempts 1); lia).
  rewrite <- Ha. clearbody a. assert (H1 : 0 <= a - 1) by lia. clear Ha.
  unfold backoffCap, backoffBase, Minute, Second, Millisecond.
  destruct (Z.ltb_spec 20 (a - 1)) as [Hs|Hs].
  - assert (2 ^ 20 <= 2 ^ (a - 1)) by (apply Z.pow_le_mono_r; lia).
    change (2 ^ 20) with 1048576 in *. lia.
  - assert (H2 : 1 <= 2 ^ (a - 1) <= 2 ^ 20).
    { split; [|apply Z.pow_le_mono_r; lia].
      change 1 with (2 ^ 0) at 1. apply Z.pow_le_mono_r; lia. }
    change (2 ^ 20) with 1048576 in H2.
    unfold mul64. rewrite Z.shiftl_1_l, wrap64_id
      by (unfold is_int64, int64_min, int64_max; lia).
    destruct (Z.leb_spec (10 * (1000 * (1000 * 1000)) * 2 ^ (a - 1)) 0),
      (Z.ltb_spec (5 * (60 * (1000 * (1000 * 1000)))) (10 * (1000 * (1000 * 1000)) * 2 ^ (a - 1)));
      cbn [orb]; lia.
Qed.

Lemma backoffFor_range attempts : 10 * Second <= backoffFor attempts <= 5 * Minute.
Proof.
  rewrite backoffFor_eq.
  assert (1 <= 2 ^ (Z.max 1 attempts - 1)).
  { change 1 with (2 ^ 0) at 1. apply Z.pow_le_mono_r; lia. }
  unfold Minute, Second, Millisecond. lia.
Qed.

Lemma indexOf_first id pre e post :
  e_ID e = id -> Forall (fun x => e_ID x <> id) pre ->
  indexOf id (pre ++ e :: post) = Some (length pre).
Proof.
  intros He. induction 1 as [|x pre Hx Hpre IH]; cbn.
  - by rewrite He, String.eqb_refl.
  - apply String.eqb_neq in Hx. by rewrite Hx, IH.
Qed.

Lemma backoffFor_attempts n :
  0 <= n < int64_max -> backoffFor (add64 n 1) = Z.min (5 * Minute) (10 * Second * 2 ^ n).
Proof.
  intros H. unfold add64. rewrite wrap64_id by (unfold is_int64, int64_min; lia).
  rewrite backoffFor_eq. by replace (Z.max 1 (n + 1) - 1) with n by lia.
Qed.

(** A failed delivery keeps the entry and its request and reschedules it.
    An ordinary failure counts an attempt and waits 10 s doubled per attempt,
    at most 5 minutes.  A rate limit counts no attempt and leaves the degraded
    badge alone; it never retries sooner than that backoff, not before the
    published reset when that lies within 2 hours, and never later than 2 hours
    and 5 seconds from now, whatever reset the tracker published. *)
Theorem MarkFailed_schedule id err now jitter io o pre e post
    (Hat : ob_entries o = pre ++ e :: post)
    (Hid : e_ID e = id)
    (Hfirst : Forall (fun x => e_ID x <> id) pre)
    (Hjitter : 0 <= jitter < rateLimitJitterMax)
    (Hattempts : 0 <= e_Attempts e < int64_max) :
  exists e', ob_entries (MarkFailed id err now jitter io o) = pre ++ e' :: post /\
    request e' = request e /\
    let backoff := Z.min (5 * Minute) (10 * Second * 2 ^ e_Attempts e) in
    match err with
    | Some (DeliveryRateLimited msg reset) =>
        e_Attempts e' = e_Attempts e /\ Degraded e' = Degraded e /\
        now + backoff <= e_NextAttemptAt e' <= now + 2 * Hour + 5 * Second /\
        (reset <= now + 2 * Hour -> reset <= e_NextAttemptAt e') /\
        e_RateLimitedUntil e' <= now + 2 * Hour
    | _ =>
        e_Attempts e' = e_Attempts e + 1 /\ e_NextAttemptAt e' = now + backoff /\
        e_RateLimitedUntil e' = zero_time /\ e_LastFailedAt e' = now
    end.
Proof.
  exists (fail_entry err now jitter e). unfold MarkFailed.
  rewrite Hat, (indexOf_first id pre e post) by done. split_and!.
  - unfold update_at. rewrite persist_entries. cbn. by rewrite Hat, alter_middle.
  - by destruct err as [[]|].
  - pose proof (backoffFor_attempts _ Hattempts) as Hb.
    pose proof (backoffFor_range (add64 (e_Attempts e) 1)) as Hr. cbn zeta. rewrite <- Hb.
    assert (Ha : add64 (e_Attempts e) 1 = e_Attempts e + 1)
      by (apply wrap64_id; unfold is_int64, int64_min; lia).
    destruct err as [[msg reset|msg]|]; cbn; [|by rewrite Ha..].
    unfold time_after, time_add, maxRateLimitedWindow, rateLimitJitterMax, Hour, Minute, Second,
      Millisecond in *.
    repeat match goal with |- context [?a <? ?b] => destruct (Z.ltb_spec a b) end;
      cbn; split_and!; try done; lia.
Qed.

(** A concrete entry, and the hypotheses above at it. *)
Definition example_entry : Entry :=
  MkEntry "1-a" KindUpdateState "i1" "ENG-1" "Done" "In Progress" "" "" 100 2 "" 100 0 0 0.

Example MarkFailed_schedule_witness :
  exists e', ob_entries (MarkFailed "1-a" (Some (DeliveryRateLimited "429" 900)) 200 7 true
      (MkOutbox "outbox.json" [example_entry] Missing)) = [] ++ e' :: [] /\
    request e' = request example_entry /\
    let backoff := Z.min (5 * Minute) (10 * Second * 2 ^ 2) in
    e_Attempts e' = 2 /\ Degraded e' = Degraded example_entry /\
    200 + backoff <= e_NextAttemptAt e' <= 200 + 2 * Hour + 5 * Second /\
    (900 <= 200 + 2 * Hour -> 900 <= e_NextAttemptAt e') /\
    e_RateLimitedUntil e' <= 200 + 2 * Hour.
Proof.
  apply (MarkFailed_schedule "1-a" (Some (DeliveryRateLimited "429" 900)) 200 7 true
    (MkOutbox "outbox.json" [example_entry] Missing) [] example_entry []);
    [done|done|constructor|by split|by split].
Defined.

Example never_silently_discarded_witness :
  exists e', e' ∈ ob_entries (run_ops
      [OpFailed "1-a" (Some (DeliveryFailed "500")) 200 0 false; OpFlushed "1-b" true]
      (MkOutbox "outbox.json" [example_entry] Missing)) /\ request e' = request example_entry.
Proof.
  apply (never_silently_discarded
    [OpFailed "1-a" (Some (DeliveryFailed "500")) 200 0 false; OpFlushed "1-b" true]
    (MkOutbox "outbox.json" [example_entry] Missing) example_entry).
  - by apply list_elem_of_singleton.
  - by repeat constructor.
Defined.

Example Enqueue_atomic_durable_witness :
  exists o', Enqueue (MkEnqueueEnv 300 (Some [1; 2; 3; 4; 5; 6]) 0 None true) example_entry
      (MkOutbox "outbox.json" [example_entry] Missing) = (None, o') /\
    exists s, ob_entries o' = [example_entry] ++ [s] /\
      e_Kind s = KindUpdateState /\ e_IssueID s = "i1" /\ e_TargetState s = "Done" /\
      e_FromState s = "In Progress" /\ e_Body s = "" /\
      e_Attempts s = 0 /\ e_NextAttemptAt s = 300 /\
      forall sha io, New sha "outbox.json" (ob_disk o') io = o'.
Proof.
  eexists. split; [reflexivity|].
  apply (Enqueue_atomic_durable (MkEnqueueEnv 300 (Some [1; 2; 3; 4; 5; 6]) 0 None true)
    example_entry (MkOutbox "outbox.json" [example_entry] Missing) None); [|done|reflexivity].
  by repeat constructor.
Defined.
