(* ===== verification/WriteSink.v ===== *)
(** * WriteSink: the path of a worker's writes to the tracker
    (internal/orchestrator/write_sink.go)

    A worker writes through an interface with two implementations: the direct
    one calls the tracker and retries, the other puts the write into the
    durable outbox.  What a caller may rely on when a write is accepted is the
    class [WriteSinkLaws]; both implementations are shown to keep it. *)

From stdpp Require Import base gmap list strings.
From S2P Require Import Prelude Outbox.

Local Open Scope Z_scope.

(** An error is its text; the state is whatever the sink writes to. *)
Class WriteSink (S : Type) := {
  sink_update : forall (issueID identifier state fromState : string), S -> option string * S;
  sink_comment : forall (issueID identifier body : string), S -> option string * S;
  sink_keyed_comment : forall (issueID identifier key body : string), S -> option string * S;
}.

(** An accepted transition is [moved], an accepted comment [posted]; what was
    accepted before stays so. *)
Class WriteSinkLaws (S : Type) `{!WriteSink S} (ready : S -> Prop)
    (moved : S -> string -> string -> Prop) (posted : S -> string -> string -> Prop) := {
  sink_update_accepted s issueID identifier state fromState s' :
    ready s -> sink_update issueID identifier state fromState s = (None, s') -> moved s' issueID state;
  sink_comment_accepted s issueID identifier body s' :
    ready s -> sink_comment issueID identifier body s = (None, s') -> posted s' issueID body;
  sink_keyed_comment_accepted s issueID identifier key body s' :
    ready s -> sink_keyed_comment issueID identifier key body s = (None, s') -> posted s' issueID body;
  sink_keyed_empty s issueID identifier body :
    sink_keyed_comment issueID identifier "" body s = sink_comment issueID identifier body s;
}.

(** ** The direct sink *)

Definition maxTransitionAttempts : nat := 4.
Definition transitionRetryBaseDelay : Duration := 2 * Second.

(** [ctx.Err()] before the [i]-th attempt, and while waiting for it. *)
Record SinkCtx := MkSinkCtx { cx_err : nat -> option string; cx_done : nat -> option string }.

Section direct.
Context {T : Type}.
(** The tracker: its calls by their number, and whether comments can be keyed. *)
Context (tracker_update : nat -> string -> string -> T -> option string * T).
Context (tracker_comment : nat -> string -> string -> T -> option string * T).
Context (tracker_keyed : option (nat -> string -> string -> string -> T -> option string * T)).
Context (ctx : nat -> SinkCtx).

(** The tracker, the calls made on it so far and the waits between them. *)
Record directWriteSink := MkDirect { ds_tracker : T; ds_calls : nat; ds_waits : list Duration }.

Definition retry_delay (i : nat) : Duration := shl64 1 (Z.of_nat i - 1) * transitionRetryBaseDelay.

(** Before every attempt but the first there is a wait, which the context may
    cut short. *)
Definition waited (i : nat) : list Duration := match i with O => [] | S _ => [retry_delay i] end.
Definition interrupted (cx : SinkCtx) (i : nat) : option string := match i with O => None | S _ => cx_done cx i end.

(** [n] attempts are left, the next one is the [i]-th. *)
Fixpoint update_attempts (cx : SinkCtx) (issueID state : string) (n i : nat) (lastErr : option string)
    (s : directWriteSink) : option string * directWriteSink :=
  match n with
  | O => (lastErr, s)
  | S n =>
      match cx_err cx i with
      | Some err => (Some err, s)
      | None =>
          match interrupted cx i with
          | Some err => (Some err, s)
          | None =>
              let '(err, t) := tracker_update (ds_calls s) issueID state (ds_tracker s) in
              let s := MkDirect t (S (ds_calls s)) (ds_waits s ++ waited i) in
              match err with
              | None => (None, s)
              | Some _ => update_attempts cx issueID state n (S i) err s
              end
          end
      end
  end.

Definition direct_UpdateIssueState (issueID identifier state fromState : string) (s : directWriteSink) :
    option string * directWriteSink :=
  update_attempts (ctx (ds_calls s)) issueID state maxTransitionAttempts 0 None s.

Definition direct_CreateComment (issueID identifier body : string) (s : directWriteSink) :
    option string * directWriteSink :=
  let '(err, t) := tracker_comment (ds_calls s) issueID body (ds_tracker s) in
  (err, MkDirect t (S (ds_calls s)) (ds_waits s)).

Definition direct_CreateKeyedComment (issueID identifier key body : string) (s : directWriteSink) :
    option string * directWriteSink :=
  match tracker_keyed with
  | Some keyed =>
      if String.eqb key "" then direct_CreateComment issueID identifier body s
      else
        let '(err, t) := keyed (ds_calls s) issueID key body (ds_tracker s) in
        (err, MkDirect t (S (ds_calls s)) (ds_waits s))
  | None => direct_CreateComment issueID identifier body s
  end.

#[export] Instance direct_sink : WriteSink directWriteSink := {|
  sink_update := direct_UpdateIssueState;
  sink_comment := direct_CreateComment;
  sink_keyed_comment := direct_CreateKeyedComment;
|}.

(** What the code relies on: a call without an error took effect. *)
Context (in_state : T -> string -> string -> Prop) (has_comment : T -> string -> string -> Prop).
Hypothesis update_ok : forall n i st t t', tracker_update n i st t = (None, t') -> in_state t' i st.
Hypothesis comment_ok : forall n i b t t', tracker_comment n i b t = (None, t') -> has_comment t' i b.
Hypothesis keyed_ok : forall keyed n i k b t t',
  tracker_keyed = Some keyed -> keyed n i k b t = (None, t') -> has_comment t' i b.

Definition direct_moved (s : directWriteSink) : string -> string -> Prop := in_state (ds_tracker s).
Definition direct_posted (s : directWriteSink) : string -> string -> Prop := has_comment (ds_tracker s).

(** At most the attempts left, with the doubling waits between them. *)
Lemma update_attempts_spec cx issueID state n i lastErr s :
  let '(err, s') := update_attempts cx issueID state n i lastErr s in
  (ds_calls s <= ds_calls s' <= ds_calls s + n)%nat /\
  (exists m, (m <= n)%nat /\ ds_waits s' = ds_waits s ++ map retry_delay (filter (fun k => k <> O) (seq i m))) /\
  (err = None -> lastErr = None /\ n = O \/ direct_moved s' issueID state).
Proof.
  revert i lastErr s. induction n as [|n IH]; intros i lastErr s; cbn [update_attempts].
  { split_and!; [lia|lia|exists O; split; [lia|by rewrite app_nil_r]|auto]. }
  assert (Hstop : forall err : string, (ds_calls s <= ds_calls s <= ds_calls s + S n)%nat /\
    (exists m, (m <= S n)%nat /\ ds_waits s = ds_waits s ++ map retry_delay (filter (fun k => k <> O) (seq i m))) /\
    (Some err = None -> lastErr = None /\ S n = O \/ direct_moved s issueID state)).
  { intros err. split_and!; [lia|lia|exists O; split; [lia|by rewrite app_nil_r]|done]. }
  destruct (cx_err cx i) as [err|]; [apply Hstop|]. cbn zeta.
  destruct (interrupted cx i) as [err|]; [apply Hstop|]. clear Hstop.
  destruct (tracker_update _ _ _ _) as [err t] eqn:E.
  assert (Hw : waited i = map retry_delay (filter (fun k => k <> O) [i])) by (by destruct i).
  destruct err as [err|].
  - specialize (IH (S i) (Some err) (MkDirect t (S (ds_calls s)) (ds_waits s ++ waited i))).
    destruct (update_attempts _ _ _ _ _ _ _) as [err' s']. cbn in IH. destruct IH as (Hc & (m & Hm & Hwm) & Hok).
    split_and!; [lia|lia| |].
    + exists (S m). split; [lia|]. rewrite Hwm, Hw. change (seq i (S m)) with ([i] ++ seq (S i) m).
      by rewrite filter_app, map_app, <-app_assoc.
    + intros He. right. by destruct (Hok He) as [[? _]|].
  - cbn. split_and!; [lia|lia|exists 1%nat; split; [lia|by rewrite Hw]|]. intros _. right. by eapply update_ok.
Qed.

#[export] Instance direct_laws : WriteSinkLaws directWriteSink (fun _ => True) direct_moved direct_posted.
Proof.
  constructor.
  - intros s issueID identifier state fromState s' _ H.
    pose proof (update_attempts_spec (ctx (ds_calls s)) issueID state maxTransitionAttempts 0 None s) as Hs.
    change (direct_UpdateIssueState issueID identifier state fromState s = (None, s')) in H.
    unfold direct_UpdateIssueState in H. rewrite H in Hs. destruct Hs as (_ & _ & Hok).
    destruct (Hok eq_refl) as [[_ ?]|]; [done|done].
  - intros s issueID identifier body s' _. unfold sink_comment; cbn [direct_sink]. unfold direct_CreateComment.
    destruct (tracker_comment _ _ _ _) as [err t] eqn:E. intros [= -> <-]. by eapply comment_ok.
  - intros s issueID identifier key body s' _. cbn. unfold direct_CreateKeyedComment, direct_CreateComment.
    destruct tracker_keyed as [keyed|] eqn:Ek; [destruct (String.eqb key "")|].
    2: destruct (keyed _ _ _ _ _) as [err t] eqn:E; intros [= -> <-]; by eapply keyed_ok.
    all: destruct (tracker_comment _ _ _ _) as [err t] eqn:E; intros [= -> <-]; by eapply comment_ok.
  - intros s issueID identifier body. cbn. unfold direct_CreateKeyedComment. by destruct tracker_keyed.
Qed.

End direct.

(** ** The outbox sink *)

Section outbox.
(** The clock, random bytes and file of the [n]-th enqueue. *)
Context (env : nat -> EnqueueEnv) (error_text : OutboxError -> string).

Record outboxWriteSink := MkOutboxSink { os_outbox : Outbox; os_calls : nat }.

Definition enqueue_write (e : Entry) (s : outboxWriteSink) : option string * outboxWriteSink :=
  let '(err, o) := Enqueue (env (os_calls s)) e (os_outbox s) in
  (option_map error_text err, MkOutboxSink o (S (os_calls s))).

Definition write_entry (kind issueID identifier target fromState body key : string) : Entry :=
  MkEntry "" kind issueID identifier target fromState body key zero_time 0 "" zero_time 0 zero_time zero_time.

Definition outbox_UpdateIssueState (issueID identifier state fromState : string) (s : outboxWriteSink) :
    option string * outboxWriteSink :=
  enqueue_write (write_entry KindUpdateState issueID identifier state fromState "" "") s.

Definition outbox_CreateComment (issueID identifier body : string) (s : outboxWriteSink) :
    option string * outboxWriteSink :=
  enqueue_write (write_entry KindCreateComment issueID identifier "" "" body "") s.

Definition outbox_CreateKeyedComment (issueID identifier key body : string) (s : outboxWriteSink) :
    option string * outboxWriteSink :=
  enqueue_write (write_entry KindCreateComment issueID identifier "" "" body key) s.

#[export] Instance outbox_sink : WriteSink outboxWriteSink := {|
  sink_update := outbox_UpdateIssueState;
  sink_comment := outbox_CreateComment;
  sink_keyed_comment := outbox_CreateKeyedComment;
|}.

(** The write is an entry of the outbox and of its file. *)
Definition queued (e : Entry -> Prop) (s : outboxWriteSink) : Prop :=
  exists x, x ∈ ob_entries (os_outbox s) /\ e x /\
    (ob_path (os_outbox s) <> "" -> exists stored, ob_disk (os_outbox s) = Stored stored /\ x ∈ stored).

Definition outbox_moved (s : outboxWriteSink) (issueID state : string) : Prop :=
  queued (fun x => e_Kind x = KindUpdateState /\ e_IssueID x = issueID /\ e_TargetState x = state) s.
Definition outbox_posted (s : outboxWriteSink) (issueID body : string) : Prop :=
  queued (fun x => e_Kind x = KindCreateComment /\ e_IssueID x = issueID /\ e_Body x = body) s.

Lemma enqueue_write_queued e s s' :
  enqueue_write e s = (None, s') ->
  queued (fun x => e_Kind x = e_Kind e /\ e_IssueID x = e_IssueID e /\
                   e_TargetState x = e_TargetState e /\ e_Body x = e_Body e) s'.
Proof.
  unfold enqueue_write. destruct (Enqueue_cases (env (os_calls s)) e (os_outbox s)) as [[er E]|(x & Hv & Hx & _ & E)];
    rewrite E; intros [= <-].
  pose proof (stamp_entry_request (env (os_calls s)) e x Hx) as (_ & ? & ? & _ & ? & ? & ? & ?).
  exists x. cbn. split_and!; [apply elem_of_app; right; by left|tauto..|].
  intros Hp. apply String.eqb_neq in Hp. rewrite Hp. eexists. split; [done|]. apply elem_of_app. right. by left.
Qed.

#[export] Instance outbox_laws : WriteSinkLaws outboxWriteSink (fun _ => True) outbox_moved outbox_posted.
Proof.
  constructor; [..|done].
  all: intros; match goal with H : _ = (None, _) |- _ => apply enqueue_write_queued in H as (x & Hin & (? & ? & ? & ?) & Hd) end.
  all: exists x; split_and!; done.
Qed.

End outbox.
