(* ===== verification/Flusher.v ===== *)
(** * Flusher: delivery, reconciliation and overlay of the outbox
    (cmd/itervox/outbox_flusher.go, internal/outbox/reconcile.go,
    internal/orchestrator/outbox_overlay.go)

    The flusher is written against the [KeyedTracker] interface; what the
    network does to each call is part of the environment.  The theorem on
    comments is proved from the interface's laws alone. *)

From stdpp Require Import base gmap list strings.
From Stdlib Require Import Ascii.
From S2P Require Import Prelude Domain State Config Dispatch Tracker Outbox.

(** ** Reconciliation (reconcile.go) *)

Definition supersededByTracker (e : Entry) (polledState : string) (polledUpdatedAt : option Time) :
    bool :=
  match polledUpdatedAt with
  | None => false
  | Some u =>
      if negb (time_after u (e_EnqueuedAt e)) then false
      else if String.eqb (e_FromState e) "" then false
      else negb (String.eqb polledState (e_TargetState e)) &&
           negb (String.eqb polledState (e_FromState e))
  end.

Definition ReconcileVerdict (e : Entry) (polledState : string) (polledUpdatedAt : option Time) :
    bool * string :=
  if String.eqb polledState (e_TargetState e) then (true, "already_applied")
  else if supersededByTracker e polledState polledUpdatedAt then (true, "superseded_by_tracker")
  else (false, "").

(** ** Overlay (outbox_overlay.go) *)

(** [io id]: whether the write of the file succeeds when [id] is dropped. *)
Definition reconcilePendingOutboxEntries (io : string -> bool) (i : Issue) (o : Outbox) : Outbox :=
  foldl (fun o e =>
    if negb (String.eqb (e_Kind e) KindUpdateState) then o
    else if fst (ReconcileVerdict e (issue_State i) (issue_UpdatedAt i))
         then Drop (e_ID e) (io (e_ID e)) o else o)
    o (PendingFor o (issue_ID i)).

Definition lastPendingUpdateStateTarget (pending : list Entry) : option string :=
  e_TargetState <$> List.find (fun e => String.eqb (e_Kind e) KindUpdateState) (rev pending).

Fixpoint overlay_loop (io : string -> bool) (issues : list Issue) (o : Outbox)
    (syncing : gset string) : list Issue * Outbox * gset string :=
  match issues with
  | [] => ([], o, syncing)
  | i :: rest =>
      let '(i', o', syncing') :=
        if String.eqb (issue_ID i) "" then (i, o, syncing)
        else
          let o := reconcilePendingOutboxEntries io i o in
          match lastPendingUpdateStateTarget (PendingFor o (issue_ID i)) with
          | None => (i, o, syncing)
          | Some target =>
              (i <| issue_State := target |>, o,
               if negb (String.eqb (issue_Identifier i) "")
               then {[issue_Identifier i]} ∪ syncing else syncing)
          end in
      let '(rest', o'', syncing'') := overlay_loop io rest o' syncing' in
      (i' :: rest', o'', syncing'')
  end.

(** [o.outbox == nil] is [None]: the kill switch. *)
Definition reconcileAndOverlayOutbox (io : string -> bool) (issues : list Issue)
    (o : option Outbox) : list Issue * option Outbox * gset string :=
  match o with
  | None => (issues, None, ∅)
  | Some o =>
      let '(issues', o', syncing) := overlay_loop io issues o ∅ in
      (issues', Some o', syncing)
  end.

(** ** Absent issues (outbox_flusher.go 85-130, 419-480) *)

Definition absentReconcileInterval : Duration := 60 * Second.

Record absentIssueReconciler := MkAbsentReconciler {
  air_lastRun : Time;
  air_running : bool;
}.

Definition tryRun (now : Time) (r : absentIssueReconciler) : bool * absentIssueReconciler :=
  if air_running r then (false, r)
  else if negb (time_is_zero (air_lastRun r)) &&
          (time_sub now (air_lastRun r) <? absentReconcileInterval)
  then (false, r)
  else (true, MkAbsentReconciler now true).

Definition finish (r : absentIssueReconciler) : absentIssueReconciler :=
  MkAbsentReconciler (air_lastRun r) false.

Fixpoint pending_ids_loop (seen : gset string) (es : list Entry) : list string :=
  match es with
  | [] => []
  | e :: es' =>
      if negb (String.eqb (e_Kind e) KindUpdateState) then pending_ids_loop seen es'
      else if decide (e_IssueID e ∈ seen) then pending_ids_loop seen es'
      else e_IssueID e :: pending_ids_loop ({[e_IssueID e]} ∪ seen) es'
  end.

Definition pendingUpdateStateIssueIDs (o : Outbox) : list string :=
  pending_ids_loop ∅ (Snapshot o).

(** [byID]: the last issue of the response wins. *)
Definition index_by_id (issues : list Issue) : gmap string Issue :=
  foldl (fun m i => <[issue_ID i := i]> m) ∅ issues.

(** [fetch] is the tracker's answer; [done id] is whether the context ended
    before [id] was examined. *)
Definition runAbsentIssueReconcileTick
    (fetch : list string -> option (list Issue)) (cancelled io : string -> bool) (o : Outbox) :
    Outbox :=
  match pendingUpdateStateIssueIDs o with
  | [] => o
  | wanted =>
      match fetch wanted with
      | None => o
      | Some issues =>
          let byID := index_by_id issues in
          (fix loop (es : list Entry) (o : Outbox) : Outbox :=
             match es with
             | [] => o
             | e :: es' =>
                 if cancelled (e_ID e) then o
                 else if negb (String.eqb (e_Kind e) KindUpdateState) then loop es' o
                 else match byID !! e_IssueID e with
                      | None => loop es' o
                      | Some i =>
                          if fst (ReconcileVerdict e (issue_State i) (issue_UpdatedAt i))
                          then loop es' (Drop (e_ID e) (io (e_ID e)) o)
                          else loop es' o
                      end
             end) (Snapshot o) o
      end
  end.

(** ** Lemmas on reconciliation and overlay *)

Lemma ReconcileVerdict_spec e polled updated :
  fst (ReconcileVerdict e polled updated) = true <->
  polled = e_TargetState e \/
  (exists u, updated = Some u /\ e_EnqueuedAt e < u /\ e_FromState e <> "" /\
     polled <> e_TargetState e /\ polled <> e_FromState e).
Proof.
  unfold ReconcileVerdict, supersededByTracker, time_after.
  destruct (String.eqb_spec polled (e_TargetState e)) as [E|E]; [by split; [left|]|].
  destruct updated as [u|]; [|cbn; naive_solver].
  destruct (Z.ltb_spec (e_EnqueuedAt e) u); cbn [negb]; [|cbn; naive_solver lia].
  destruct (String.eqb_spec (e_FromState e) ""); [cbn; naive_solver|].
  destruct (String.eqb_spec polled (e_FromState e)); cbn; naive_solver.
Qed.

Lemma Drop_nodup id io o :
  NoDup (ids o) -> ob_entries (Drop id io o) = filter (fun e => e_ID e <> id) (ob_entries o).
Proof.
  unfold Drop. intros Hnd.
  destruct (remove_cases id io o _ eq_refl) as [[-> H]|(pre & e & post & E & <- & ->)].
  - symmetry. by apply filter_all.
  - unfold ids in Hnd. rewrite E in *. rewrite map_app in Hnd. cbn in Hnd.
    apply NoDup_app in Hnd as (_ & Hpre & Hpost). apply NoDup_cons in Hpost as [Hpost _].
    rewrite filter_app, filter_cons_False by (cbn; congruence).
    rewrite !filter_all; [done|..]; apply Forall_forall; intros x Hx Hid.
    + apply Hpost. rewrite <- Hid. by apply elem_of_map_intro.
    + apply (Hpre (e_ID x)); [by apply elem_of_map_intro|]. rewrite Hid. by left.
Qed.

(** The entries a polled issue settles. *)
Definition settled_by (i : Issue) (e : Entry) : Prop :=
  e_IssueID e = issue_ID i /\ e_Kind e = KindUpdateState /\
  fst (ReconcileVerdict e (issue_State i) (issue_UpdatedAt i)) = true.

#[export] Instance settled_by_dec i e : Decision (settled_by i e).
Proof. unfold settled_by. apply _. Defined.

Definition pending_update (i : Issue) (e : Entry) : Prop :=
  e_IssueID e = issue_ID i /\ e_Kind e = KindUpdateState /\ ~ settled_by i e.

#[export] Instance pending_update_dec i e : Decision (pending_update i e).
Proof. unfold pending_update. apply _. Defined.

Lemma reconcile_fold io i l o :
  NoDup (ids o) -> Forall (fun e => e_IssueID e = issue_ID i) l ->
  ob_entries (foldl (fun o e =>
    if negb (String.eqb (e_Kind e) KindUpdateState) then o
    else if fst (ReconcileVerdict e (issue_State i) (issue_UpdatedAt i))
         then Drop (e_ID e) (io (e_ID e)) o else o) o l)
  = filter (fun x => e_ID x ∉ map e_ID (filter (settled_by i) l)) (ob_entries o).
Proof.
  intros Hnd Hl. revert o Hnd. induction Hl as [|e l He Hl IH]; intros o Hnd; cbn [foldl].
  { symmetry. apply filter_all, Forall_forall. intros x _. cbn. by intros ?%elem_of_nil. }
  destruct (decide (settled_by i e)) as [Hs|Hs].
  - destruct Hs as (_ & Hk & Hv). rewrite Hv. apply String.eqb_eq in Hk as Hk'.
    rewrite Hk'. cbn [negb]. rewrite IH, Drop_nodup, list_filter_filter; [|done|].
    2: { unfold ids. rewrite Drop_nodup by done. by apply NoDup_map_filter. }
    apply list_filter_iff. intros x. rewrite filter_cons_True by done. cbn.
    rewrite elem_of_cons. naive_solver.
  - replace (if negb (String.eqb (e_Kind e) KindUpdateState) then o else _) with o.
    + rewrite IH by done. by rewrite filter_cons_False.
    + destruct (String.eqb_spec (e_Kind e) KindUpdateState); cbn [negb]; [|done].
      destruct (fst _) eqn:Hv; [|done]. by destruct Hs.
Qed.

Lemma reconcile_entries io i o :
  NoDup (ids o) ->
  ob_entries (reconcilePendingOutboxEntries io i o)
    = filter (fun e => ~ settled_by i e) (ob_entries o).
Proof.
  intros Hnd. unfold reconcilePendingOutboxEntries. rewrite reconcile_fold; [|done|].
  2: { apply Forall_forall. intros e [He _]%list_elem_of_filter. done. }
  apply filter_ext_elem. intros e He.
  rewrite elem_of_map. split.
  - intros H Hs. apply H. exists e. split; [done|].
    apply list_elem_of_filter. split; [done|]. apply list_elem_of_filter.
    by split; [apply Hs|].
  - intros H (x & Hx & Hin). apply list_elem_of_filter in Hin as [Hs Hin].
    apply list_elem_of_filter in Hin as [_ Hin].
    apply H. by rewrite (NoDup_map_inj e_ID (ob_entries o) e x Hnd He Hin Hx).
Qed.

Lemma reconcile_nodup io i o :
  NoDup (ids o) -> NoDup (ids (reconcilePendingOutboxEntries io i o)).
Proof. intros H. unfold ids. rewrite reconcile_entries by done. by apply NoDup_map_filter. Qed.

(** The state an issue shows: the target of its last write still wanted. *)
Definition shown (o : Outbox) (i : Issue) : Issue :=
  match last (filter (pending_update i) (ob_entries o)) with
  | Some e => i <| issue_State := e_TargetState e |>
  | None => i
  end.

Lemma last_target io i o :
  NoDup (ids o) ->
  lastPendingUpdateStateTarget (PendingFor (reconcilePendingOutboxEntries io i o) (issue_ID i))
    = e_TargetState <$> last (filter (pending_update i) (ob_entries o)).
Proof.
  intros Hnd. unfold lastPendingUpdateStateTarget, PendingFor.
  rewrite find_rev_last, reconcile_entries, !list_filter_filter by done.
  f_equal. f_equal. apply list_filter_iff. intros e. rewrite String.eqb_eq.
  unfold pending_update. naive_solver.
Qed.

Lemma settled_other i j e :
  issue_ID i <> issue_ID j -> pending_update j e -> ~ settled_by i e.
Proof. intros Hne (Hj & _) (Hi & _). congruence. Qed.

Lemma overlay_loop_lookup io issues o syncing issues' o' syncing' k i :
  overlay_loop io issues o syncing = (issues', o', syncing') ->
  NoDup (ids o) -> NoDup (map issue_ID issues) ->
  issues !! k = Some i -> issue_ID i <> "" ->
  issues' !! k = Some (shown o i).
Proof.
  revert o syncing issues' o' syncing' k.
  induction issues as [|x issues IH]; intros o syncing issues' o' syncing' k; [done|].
  cbn [overlay_loop]. intros Hrun Hnd Hni Hk Hi.
  cbn in Hni. apply NoDup_cons in Hni as [Hx Hni].
  destruct (String.eqb_spec (issue_ID x) "") as [E|E].
  - destruct (overlay_loop io issues o syncing) as [[r o1] s1] eqn:Hl. simplify_eq.
    destruct k as [|k]; cbn in *; [simplify_eq|]. by eapply IH.
  - rewrite last_target in Hrun by done.
    set (o1 := reconcilePendingOutboxEntries io x o) in *.
    assert (Hshown : forall j, issue_ID j <> issue_ID x -> shown o1 j = shown o j).
    { intros j Hj. unfold shown, o1. rewrite reconcile_entries, list_filter_filter by done.
      erewrite list_filter_iff; [done|]. intros e. split; [by intros [? _]|].
      intros Hp. split; [done|]. by apply (settled_other x j). }
    assert (Hnd1 : NoDup (ids o1)) by (by apply reconcile_nodup).
    destruct (last _) as [e|] eqn:Hlast; cbn in Hrun;
      (destruct (overlay_loop io issues o1 _) as [[r o2] s1] eqn:Hl; simplify_eq;
       destruct k as [|k]; cbn in *;
       [simplify_eq; unfold shown; by rewrite Hlast|]);
      (rewrite <- Hshown; [by eapply IH|]; intros Heq; apply Hx; rewrite <- Heq;
       apply elem_of_map_intro; by eapply list_elem_of_lookup_2).
Qed.

Lemma inactive_ineligible issue state cfg :
  isActiveState (issue_State issue) state = false -> IneligibleReason issue state cfg <> "".
Proof.
  intros Ha. unfold IneligibleReason. rewrite Ha. by destruct (missing_fields issue).
Qed.


Definition example_issue : Issue :=
  zero_Issue <| issue_ID := "i1" |> <| issue_Identifier := "ENG-1" |> <| issue_Title := "t" |>
             <| issue_State := "In Progress" |> <| issue_UpdatedAt := Some 500 |>.


(** ** Delivery (outbox_flusher.go 206-381) *)

(** What the environment decides for one entry of a tick. *)
Record FlushEnv := MkFlushEnv {
  fe_cancelled : bool;                 (* the context has ended *)
  fe_gate_open : bool;                 (* the adapter's rate-limit gate is open *)
  fe_lookup : option TrackerError;     (* the key lookup fails *)
  fe_call : Delivery;                  (* the fate of the write *)
  fe_jitter : Duration;
  fe_io : bool;                        (* the outbox file can be written *)
}.

(** Wrapping with [%w] hides the text of an ordinary error behind a prefix;
    [errors.As] still reaches a rate limit, message and reset. *)
Definition wrap_lookup (e : TrackerError) : DeliveryError :=
  match e with
  | RateLimited msg reset => DeliveryRateLimited msg reset
  | OtherError msg =>
      DeliveryFailed ("outbox flusher: comment lookup failed, deferring: " +:+ msg)
  end.

Definition to_delivery_error (e : TrackerError) : DeliveryError :=
  match e with
  | RateLimited msg reset => DeliveryRateLimited msg reset
  | OtherError msg => DeliveryFailed msg
  end.

Inductive FlushResult :=
  | FlushOk
  | FlushAlreadyDelivered
  | FlushError (e : DeliveryError).

Section flusher.
Context {T : Type} `{!KeyedTracker T}.
Implicit Types (t : T) (o : Outbox) (e : Entry).

(** [after] is the tracker once the request has landed. *)
Definition deliver (d : Delivery) (after t : T) : FlushResult * T :=
  match d with
  | Delivered => (FlushOk, after)
  | LostRequest err => (FlushError (to_delivery_error err), t)
  | LostResponse err => (FlushError (to_delivery_error err), after)
  end.

(** [keyed]: the adapter implements IdempotentCommenter. *)
Definition deliverComment (keyed : bool) (env : FlushEnv) (e : Entry) (t : T) :
    FlushResult * T :=
  if negb keyed || String.eqb (e_CommentKey e) "" then
    deliver (fe_call env) (CreateComment t (e_IssueID e) (e_Body e)) t
  else
    let post := deliver (fe_call env)
                  (CreateCommentWithKey t (e_IssueID e) (e_CommentKey e) (e_Body e)) t in
    if 0 <? add64 (e_Attempts e) (e_RateLimitedAttempts e) then
      match fe_lookup env with
      | Some err => (FlushError (wrap_lookup err), t)
      | None =>
          if FindCommentByKey t (e_IssueID e) (e_CommentKey e)
          then (FlushAlreadyDelivered, t) else post
      end
    else post.

Definition unknown_kind_error (kind : string) : DeliveryError :=
  DeliveryFailed ("outbox flusher: entry has unknown kind " +:+ kind +:+ ", cannot deliver").

(** The entry's own outcome on the outbox, and whether the orchestrator is
    asked for an early refresh. *)
Definition flushOutboxEntry (keyed : bool) (env : FlushEnv) (now : Time) (e : Entry)
    (ot : Outbox * T) : Outbox * T * bool :=
  let '(o, t) := ot in
  let '(result, t') :=
    if String.eqb (e_Kind e) KindUpdateState then
      deliver (fe_call env) (UpdateIssueState t (e_IssueID e) (e_TargetState e)) t
    else if String.eqb (e_Kind e) KindCreateComment then deliverComment keyed env e t
    else (FlushError (unknown_kind_error (e_Kind e)), t) in
  match result with
  | FlushError err =>
      (MarkFailed (e_ID e) (Some err) now (fe_jitter env) (fe_io env) o, t', false)
  | _ =>
      (MarkFlushed (e_ID e) (fe_io env) o, t', String.eqb (e_Kind e) KindUpdateState)
  end.

(** One tick over the due entries: it stops at the first entry before which
    the context has ended or the gate is open. *)
Fixpoint tick_loop (keyed : bool) (envs : string -> FlushEnv) (now : Time) (due : list Entry)
    (ot : Outbox * T) : Outbox * T :=
  match due with
  | [] => ot
  | e :: due' =>
      let env := envs (e_ID e) in
      if fe_cancelled env || fe_gate_open env then ot
      else tick_loop keyed envs now due' (fst (flushOutboxEntry keyed env now e ot))
  end.

Definition runOutboxFlusherTickGated (keyed : bool) (envs : string -> FlushEnv) (now : Time)
    (ot : Outbox * T) : Outbox * T :=
  tick_loop keyed envs now (Due (fst ot) now) ot.
End flusher.

(** ** At-most-once comments

    The events between which an entry lives: flusher ticks, enqueues of other
    writes, operator drops and retries. *)

Inductive FlushEvent :=
  | EvTick (envs : string -> FlushEnv) (now : Time)
  | EvOp (op : Op).

Section once.
Context {T : Type} {known : T -> string -> Prop} `{!KeyedTracker T}
  `{!KeyedTrackerLaws T known}.
(** The comment under watch: its entry id, issue and key. *)
Context (id0 issue0 key0 : string) (Hkey0 : key_ok key0).

Definition flush_step (ot : Outbox * T) (ev : FlushEvent) : Outbox * T :=
  match ev with
  | EvTick envs now => runOutboxFlusherTickGated true envs now ot
  | EvOp op => (apply_op (fst ot) op, snd ot)
  end.

(** Another comment: its own well-formed key, and a body that does not quote
    the watched key's marker. *)
Definition other_comment (e : Entry) : Prop :=
  e_Kind e = KindCreateComment ->
  key_ok (e_CommentKey e) /\ e_CommentKey e <> key0 /\ CommentHasKey (e_Body e) key0 = false.

(** Enqueued entries have fresh ids and, when comments, fresh keys; only the
    flusher marks entries flushed or failed, and nobody drops the watched
    one. *)
Definition event_ok (o : Outbox) (ev : FlushEvent) : Prop :=
  match ev with
  | EvTick _ _ => True
  | EvOp (OpEnqueue env e) =>
      forall s, stamp_entry env e = Some s -> (e_ID s ∉ ids o) /\ e_ID s <> id0 /\ other_comment s
  | EvOp (OpDrop id _) => id <> id0
  | EvOp (OpRetryNow _ _ _) => True
  | EvOp _ => False
  end.

Fixpoint events_ok (ot : Outbox * T) (evs : list FlushEvent) : Prop :=
  match evs with
  | [] => True
  | ev :: evs' => event_ok (fst ot) ev /\ events_ok (flush_step ot ev) evs'
  end.

(** The watched entry. *)
Definition watched (e : Entry) : Prop :=
  e_ID e = id0 /\ e_Kind e = KindCreateComment /\ e_IssueID e = issue0 /\ e_CommentKey e = key0.

Definition attempts_within (n : Z) (e : Entry) : Prop :=
  0 <= e_Attempts e <= n /\ 0 <= e_RateLimitedAttempts e <= n.

(** [n] bounds the attempts so far, so their sum does not overflow. *)
Record once_inv (n : Z) (ot : Outbox * T) : Prop := {
  oi_nodup : NoDup (ids (fst ot));
  oi_known : known (snd ot) issue0;
  oi_entries : forall e, e ∈ ob_entries (fst ot) ->
    watched e /\ attempts_within n e \/ e_ID e <> id0 /\ other_comment e;
  oi_pending : forall e, e ∈ ob_entries (fst ot) -> watched e ->
    (posts_of (snd ot) issue0 key0 <= 1)%nat /\
    (e_Attempts e + e_RateLimitedAttempts e = 0 -> posts_of (snd ot) issue0 key0 = O);
  oi_gone : (id0 ∉ ids (fst ot)) -> posts_of (snd ot) issue0 key0 = 1%nat;
}.

Lemma MarkFlushed_nodup id io o :
  NoDup (ids o) ->
  ob_entries (MarkFlushed id io o) = filter (fun e => e_ID e <> id) (ob_entries o).
Proof. apply Drop_nodup. Qed.

(** Updating the entry with an id touches that entry only. *)
Lemma update_nodup f io o e o' :
  NoDup (ids o) -> e ∈ ob_entries o -> e_ID (f e) = e_ID e ->
  o' = match indexOf (e_ID e) (ob_entries o) with
       | None => o | Some idx => update_at idx f io o end ->
  ids o' = ids o /\
  forall x, x ∈ ob_entries o' <-> x = f e \/ (x ∈ ob_entries o /\ e_ID x <> e_ID e).
Proof.
  intros Hnd He Hf Ho'.
  destruct (update_cases (e_ID e) f io o o' Ho') as [[_ H]|(pre & y & post & E & Hy & E')].
  { rewrite Forall_forall in H. by destruct (H e He). }
  assert (y = e) as ->.
  { apply (NoDup_map_inj e_ID (ob_entries o)); try done. rewrite E, elem_of_app, elem_of_cons.
    auto. }
  unfold ids in *. rewrite E in Hnd. rewrite E, E', !map_app in *. cbn in *. rewrite Hf.
  split; [done|]. apply NoDup_app in Hnd as (_ & Hpre & Hpost).
  apply NoDup_cons in Hpost as [Hpost _].
  intros x. rewrite !elem_of_app, !elem_of_cons. split.
  - intros [Hx|[->|Hx]]; [right|by left|right].
    + split; [by left|]. intros Hid. apply (Hpre (e_ID x)); [by apply elem_of_map_intro|].
      rewrite Hid. by left.
    + split; [by right; right|]. intros Hid. apply Hpost. rewrite <- Hid.
      by apply elem_of_map_intro.
  - intros [->|[[Hx|[->|Hx]] Hne]]; auto. done.
Qed.

Lemma once_inv_mono n m ot : n <= m -> once_inv n ot -> once_inv m ot.
Proof.
  intros Hnm []. constructor; try done. intros e He.
  destruct (oi_entries0 e He) as [[? [??]]|?]; [left|by right].
  split; [done|]. unfold attempts_within. lia.
Qed.

(** The write of another entry leaves the watched comment alone. *)
Lemma deliver_other d after t :
  posts_of after issue0 key0 = posts_of t issue0 key0 ->
  (known t issue0 -> known after issue0) -> known t issue0 ->
  posts_of (snd (deliver d after t)) issue0 key0 = posts_of t issue0 key0 /\
  known (snd (deliver d after t)) issue0.
Proof. by destruct d; cbn; auto. Qed.

Lemma flush_other_tracker env now e o t :
  other_comment e -> known t issue0 ->
  let t' := snd (fst (flushOutboxEntry true env now e (o, t))) in
  posts_of t' issue0 key0 = posts_of t issue0 key0 /\ known t' issue0.
Proof.
  intros Hoc Hkn. cbn. unfold flushOutboxEntry.
  destruct (String.eqb_spec (e_Kind e) KindUpdateState) as [Hk|Hk].
  - pose proof (deliver_other (fe_call env) (UpdateIssueState t (e_IssueID e) (e_TargetState e)) t
      ltac:(apply update_posts) ltac:(intros; by apply known_update) Hkn) as Hd.
    destruct (deliver _ _ _) as [[] t']; apply Hd.
  - destruct (String.eqb_spec (e_Kind e) KindCreateComment) as [Hc|Hc]; [|by cbn].
    destruct (Hoc Hc) as (Hok & Hne & Hb). unfold deliverComment.
    destruct Hok as (Hnil & Hrest) eqn:Hok_eq. apply String.eqb_neq in Hnil as Hnil'.
    rewrite Hnil'. cbn [negb orb].
    pose proof (deliver_other (fe_call env)
      (CreateCommentWithKey t (e_IssueID e) (e_CommentKey e) (e_Body e)) t
      ltac:(by apply create_other) ltac:(intros; by apply known_create) Hkn) as Hd.
    destruct (0 <? _); [destruct (fe_lookup env); [by cbn|];
      destruct (FindCommentByKey _ _ _); [by cbn|]|];
      destruct (deliver _ _ _) as [[] t']; apply Hd.
Qed.

Lemma flush_outbox env now e o t :
  let o' := fst (fst (flushOutboxEntry true env now e (o, t))) in
  (exists io, o' = MarkFlushed (e_ID e) io o) \/
  (exists err j io, o' = MarkFailed (e_ID e) (Some err) now j io o).
Proof.
  cbn. unfold flushOutboxEntry. destruct (if String.eqb _ _ then _ else _) as [[] t'];
    cbn; eauto 6.
Qed.

(** Flushing an entry keeps every other one. *)
Lemma flush_keeps env now e o t x :
  NoDup (ids o) -> e ∈ ob_entries o -> x ∈ ob_entries o -> e_ID x <> e_ID e ->
  x ∈ ob_entries (fst (fst (flushOutboxEntry true env now e (o, t)))).
Proof.
  intros Hnd He Hx Hne.
  destruct (flush_outbox env now e o t) as [[io ->]|(err & j & io & ->)].
  - rewrite MarkFlushed_nodup by done. by apply list_elem_of_filter.
  - destruct (update_nodup (fail_entry (Some err) now j) io o e _ Hnd He
      ltac:(by destruct err) eq_refl) as [_ H]. apply H. by right.
Qed.

(** What a delivery leaves in the outbox. *)
Lemma flush_entries env now e o t :
  NoDup (ids o) -> e ∈ ob_entries o ->
  let o' := fst (fst (flushOutboxEntry true env now e (o, t))) in
  NoDup (ids o') /\
  forall x, x ∈ ob_entries o' ->
    (x ∈ ob_entries o /\ e_ID x <> e_ID e) \/
    exists err j, x = fail_entry (Some err) now j e.
Proof.
  intros Hnd He. cbv zeta.
  destruct (flush_outbox env now e o t) as [[io ->]|(err & j & io & ->)].
  - split.
    + unfold ids. rewrite MarkFlushed_nodup by done. by apply NoDup_map_filter.
    + intros x. rewrite MarkFlushed_nodup, list_elem_of_filter by done. naive_solver.
  - destruct (update_nodup (fail_entry (Some err) now j) io o e _ Hnd He
      ltac:(by destruct err) eq_refl) as [Hids Hin].
    split; [unfold MarkFailed; by rewrite Hids|].
    intros x Hx. apply Hin in Hx as [->|Hx]; [right; eauto|by left].
Qed.

(** Another entry's flush. *)
Lemma flush_other n env now e o t :
  once_inv n (o, t) -> e ∈ ob_entries o -> e_ID e <> id0 -> other_comment e ->
  once_inv n (fst (flushOutboxEntry true env now e (o, t))).
Proof.
  intros [Hnd Hkn Hent Hpend Hgone] He Hid Hoc. cbn [fst snd] in Hnd, Hkn, Hent, Hpend, Hgone.
  destruct (flush_other_tracker env now e o t Hoc Hkn) as [Hp Hk].
  destruct (flush_entries env now e o t Hnd He) as [Hnd' Hin].
  assert (Hsub : forall x, x ∈ ob_entries (fst (fst (flushOutboxEntry true env now e (o, t)))) ->
    x ∈ ob_entries o \/ e_ID x <> id0 /\ other_comment x).
  { intros x Hx. destruct (Hin x Hx) as [[? _]|(err & j & ->)]; [by left|right].
    by destruct err. }
  constructor; [done|done|..].
  - intros x Hx. destruct (Hsub x Hx); [by apply Hent|by right].
  - intros x Hx Hw. rewrite Hp. destruct (Hsub x Hx) as [?|[Hne _]]; [by apply Hpend|].
    by destruct Hne, Hw.
  - intros Hout. rewrite Hp. apply Hgone. intros Hin0. apply Hout.
    apply elem_of_map in Hin0 as (x & Hx & Hxin). rewrite Hx.
    apply elem_of_map_intro, flush_keeps; try done. congruence.
Qed.

(** The watched comment's delivery: it is posted only when it was not there,
    and it is flushed only when it is. *)
Lemma deliver_watched env e t :
  watched e -> known t issue0 ->
  0 <= e_Attempts e -> 0 <= e_RateLimitedAttempts e ->
  e_Attempts e + e_RateLimitedAttempts e <= int64_max ->
  (posts_of t issue0 key0 <= 1)%nat ->
  (e_Attempts e + e_RateLimitedAttempts e = 0 -> posts_of t issue0 key0 = O) ->
  let '(r, t') := deliverComment true env e t in
  known t' issue0 /\ (posts_of t' issue0 key0 <= 1)%nat /\
  match r with FlushError _ => True | _ => posts_of t' issue0 key0 = 1%nat end.
Proof.
  intros (_ & Hk & Hi & Hkey) Hkn Ha Hr Hsum Hp1 Hp0. unfold deliverComment.
  rewrite Hi, Hkey. destruct Hkey0 as [Hne Hkey']. apply String.eqb_neq in Hne as Hne'.
  rewrite Hne'. cbn [negb orb].
  assert (Hpost : posts_of t issue0 key0 = O ->
    let '(r, t') := deliver (fe_call env) (CreateCommentWithKey t issue0 key0 (e_Body e)) t in
    known t' issue0 /\ (posts_of t' issue0 key0 <= 1)%nat /\
    match r with FlushError _ => True | _ => posts_of t' issue0 key0 = 1%nat end).
  { intros H0. pose proof (known_create t issue0 key0 (e_Body e) issue0 Hkn).
    pose proof (create_posts t issue0 key0 (e_Body e) Hkn Hkey0) as Hc. rewrite H0 in Hc.
    destruct (fe_call env); cbn; rewrite ?Hc, ?H0; auto. }
  unfold add64. rewrite wrap64_id by (unfold is_int64, int64_min; lia).
  destruct (Z.ltb_spec 0 (e_Attempts e + e_RateLimitedAttempts e)) as [Hs|Hs].
  - destruct (fe_lookup env); [by auto|].
    destruct (FindCommentByKey t issue0 key0) eqn:Hf.
    + apply find_truthful in Hf. split_and!; [done|done|lia].
    + apply Hpost. destruct (posts_of t issue0 key0) eqn:E; [done|].
      assert (FindCommentByKey t issue0 key0 = true); [|congruence].
      apply find_truthful. lia.
  - apply Hpost, Hp0. lia.
Qed.

Lemma flush_watched_eq env now e o t :
  e_Kind e = KindCreateComment ->
  fst (flushOutboxEntry true env now e (o, t)) =
    let '(r, t') := deliverComment true env e t in
    (match r with
     | FlushError err => MarkFailed (e_ID e) (Some err) now (fe_jitter env) (fe_io env) o
     | _ => MarkFlushed (e_ID e) (fe_io env) o
     end, t').
Proof.
  intros Hk. unfold flushOutboxEntry. rewrite Hk. cbn.
  by destruct (deliverComment true env e t) as [[] t'].
Qed.

Lemma fail_entry_counts err now j e n :
  attempts_within n e -> n < int64_max ->
  attempts_within (n + 1) (fail_entry (Some err) now j e) /\
  e_Attempts (fail_entry (Some err) now j e)
    + e_RateLimitedAttempts (fail_entry (Some err) now j e) <> 0.
Proof.
  intros [H1 H2] Hn. unfold attempts_within. destruct err; cbn; unfold add64;
    rewrite wrap64_id by (unfold is_int64, int64_min; lia); lia.
Qed.

(** The watched entry's own flush. *)
Lemma flush_watched n env now e o t :
  once_inv n (o, t) -> e ∈ ob_entries o -> e_ID e = id0 -> 2 * n + 2 <= int64_max ->
  once_inv (n + 1) (fst (flushOutboxEntry true env now e (o, t))).
Proof.
  intros [Hnd Hkn Hent Hpend Hgone] He Hid Hn. cbn [fst snd] in Hnd, Hkn, Hent, Hpend, Hgone.
  destruct (Hent e He) as [[Hw Hat]|[? _]]; [|done].
  destruct (Hpend e He Hw) as [Hp1 Hp0].
  assert (Hn' : n < int64_max) by (unfold attempts_within, int64_max in *; lia).
  pose proof (deliver_watched env e t Hw Hkn ltac:(apply Hat) ltac:(apply Hat)
    ltac:(unfold attempts_within in Hat; lia) Hp1 Hp0) as Hdel.
  destruct (flush_entries env now e o t Hnd He) as [Hnd' Hin].
  rewrite flush_watched_eq in Hnd', Hin |- * by apply Hw.
  destruct (deliverComment true env e t) as [r t'].
  destruct Hdel as (Hk' & Hp1' & Hr). cbn [fst snd] in Hnd', Hin.
  assert (Hothers : forall x, x ∈ ob_entries o -> e_ID x <> e_ID e ->
    e_ID x <> id0 /\ other_comment x).
  { intros x Hx Hne. destruct (Hent x Hx) as [[[? _] _]|?]; [congruence|done]. }
  constructor; cbn [fst snd]; [done|done|..].
  - intros x Hx. destruct (Hin x Hx) as [[Hxo Hne]|(err & j & ->)]; [right; by apply Hothers|left].
    split; [by destruct err|]. by apply fail_entry_counts.
  - intros x Hx [Hxid _]. destruct (Hin x Hx) as [[Hxo Hne]|(err & j & ->)].
    + by destruct (Hothers x Hxo Hne).
    + split; [done|]. intros H0.
      by destruct (fail_entry_counts err now j e n Hat Hn') as [_ []].
  - intros Hout. destruct r; try done. destruct Hout.
    destruct (update_nodup (fail_entry (Some e0) now (fe_jitter env)) (fe_io env) o e _ Hnd He
      ltac:(by destruct e0) eq_refl) as [Hids _].
    unfold MarkFailed. rewrite Hids, <- Hid. by apply elem_of_map_intro.
Qed.

Lemma flush_keeps_due env now e o t due :
  NoDup (ids o) -> e ∈ ob_entries o -> (e_ID e ∉ map e_ID due) ->
  Forall (fun x => x ∈ ob_entries o) due ->
  Forall (fun x => x ∈ ob_entries (fst (fst (flushOutboxEntry true env now e (o, t))))) due.
Proof.
  intros Hnd He Hne. rewrite !Forall_forall. intros Hdue x Hx.
  apply flush_keeps; auto. intros Heq. apply Hne. rewrite <- Heq. by apply elem_of_map_intro.
Qed.

Lemma inv_other n o t e :
  once_inv n (o, t) -> e ∈ ob_entries o -> e_ID e <> id0 -> other_comment e.
Proof. intros [_ _ Hent _ _] He Hne. by destruct (Hent e He) as [[[? _] _]|[_ ?]]. Qed.

(** A tick over other entries only. *)
Lemma tick_others n envs now due o t :
  NoDup (map e_ID due) -> Forall (fun e => e ∈ ob_entries o) due -> (id0 ∉ map e_ID due) ->
  once_inv n (o, t) -> once_inv n (tick_loop true envs now due (o, t)).
Proof.
  revert o t. induction due as [|e due IH]; intros o t; cbn [tick_loop map]; [done|].
  intros [Hne Hnd]%NoDup_cons [He Hdue]%Forall_cons [Hid Hout]%not_elem_of_cons Hinv.
  destruct (_ || _); [done|].
  pose proof (flush_keeps_due (envs (e_ID e)) now e o t due (oi_nodup _ _ Hinv) He Hne Hdue).
  assert (once_inv n (fst (flushOutboxEntry true (envs (e_ID e)) now e (o, t)))).
  { apply flush_other; try done. by apply (inv_other n o t). }
  destruct (fst (flushOutboxEntry _ _ _ _ _)) as [o1 t1]. by apply IH.
Qed.

Lemma tick_once n envs now due o t :
  NoDup (map e_ID due) -> Forall (fun e => e ∈ ob_entries o) due ->
  once_inv n (o, t) -> 2 * n + 2 <= int64_max ->
  once_inv (n + 1) (tick_loop true envs now due (o, t)).
Proof.
  revert o t. induction due as [|e due IH]; intros o t; cbn [tick_loop map].
  { intros _ _ H _. apply (once_inv_mono n); [lia|done]. }
  intros [Hne Hnd]%NoDup_cons [He Hdue]%Forall_cons Hinv Hn.
  destruct (_ || _); [apply (once_inv_mono n); [lia|done]|].
  pose proof (flush_keeps_due (envs (e_ID e)) now e o t due (oi_nodup _ _ Hinv) He Hne Hdue).
  destruct (decide (e_ID e = id0)) as [Hid|Hid].
  - pose proof (flush_watched n (envs (e_ID e)) now e o t Hinv He Hid Hn).
    destruct (fst (flushOutboxEntry _ _ _ _ _)) as [o1 t1].
    apply tick_others; try done. congruence.
  - pose proof (flush_other n (envs (e_ID e)) now e o t Hinv He Hid
      (inv_other n o t e Hinv He Hid)).
    destruct (fst (flushOutboxEntry _ _ _ _ _)) as [o1 t1]. by apply IH.
Qed.

Lemma op_once n o t op :
  event_ok o (EvOp op) -> once_inv n (o, t) -> once_inv n (apply_op o op, t).
Proof.
  intros Hok [Hnd Hkn Hent Hpend Hgone]. cbn [fst snd] in *.
  assert (Hids : NoDup (ids (apply_op o op)) /\
    (id0 ∈ ids o -> id0 ∈ ids (apply_op o op)) /\
    forall x, x ∈ ob_entries (apply_op o op) ->
      x ∈ ob_entries o \/ (e_ID x <> id0 /\ other_comment x) \/
      exists y now, y ∈ ob_entries o /\ x = y <| e_NextAttemptAt := now |>).
  { destruct op as [env e|id io|id err now j io|id io|id now io]; try done; cbn [apply_op event_ok] in *.
    - destruct (Enqueue_cases env e o) as [[err ->]|(s & _ & Hs & _ & ->)]; cbn [snd]; [auto|].
      destruct (Hok s Hs) as (Hfresh & Hne & Hoc). unfold ids. cbn. rewrite map_app. cbn.
      split_and!.
      + apply NoDup_app. split_and!; [done| |by apply NoDup_singleton].
        intros x Hx ->%list_elem_of_singleton. done.
      + intros. by apply elem_of_app; left.
      + intros x [Hx| ->%list_elem_of_singleton]%elem_of_app; auto.
    - unfold ids. rewrite Drop_nodup by done. split_and!.
      + by apply NoDup_map_filter.
      + intros (x & -> & Hx)%elem_of_map. by apply elem_of_map_intro, list_elem_of_filter.
      + intros x [_ ?]%list_elem_of_filter. by left.
    - unfold RetryNow. destruct (indexOf id (ob_entries o)) as [i|] eqn:Hi; cbn [snd]; [|auto].
      apply indexOf_Some in Hi as Hi'. destruct Hi' as (pre & e & post & E & _ & <- & _).
      assert (He : e ∈ ob_entries o) by (rewrite E, elem_of_app, elem_of_cons; auto).
      set (f := fun e : Entry => e <| e_NextAttemptAt := now |>).
      assert (Ho : update_at i f io o = match indexOf (e_ID e) (ob_entries o) with
        | None => o | Some idx => update_at idx f io o end) by (rewrite Hi; done).
      destruct (update_nodup f io o e _ Hnd He eq_refl Ho) as [-> Hin].
      split; [done|]. split; [done|]. intros x [->|[? _]]%Hin; [|by left].
      right; right. by exists e, now. }
  destruct Hids as (Hnd' & Hkeep & Hin). constructor; cbn [fst snd]; [done|done|..].
  - intros x Hx. destruct (Hin x Hx) as [?|[?|(y & now & Hy & ->)]]; [by apply Hent|by right|].
    destruct (Hent y Hy) as [[??]|[??]]; [by left|by right].
  - intros x Hx Hw. destruct (Hin x Hx) as [?|[[? _]|(y & now & Hy & ->)]].
    + by apply Hpend.
    + by destruct Hw.
    + by apply (Hpend y Hy).
  - intros Hout. apply Hgone. auto.
Qed.

Lemma events_once n o t evs :
  n + Z.of_nat (length evs) < 2 ^ 61 -> once_inv n (o, t) -> events_ok (o, t) evs ->
  once_inv (n + Z.of_nat (length evs)) (foldl flush_step (o, t) evs).
Proof.
  revert o t n. induction evs as [|ev evs IH]; intros o t n Hb Hinv; cbn [foldl length].
  { by rewrite Z.add_0_r. }
  intros [Hok Hevs]. cbn [length] in Hb.
  assert (Hstep : once_inv (n + 1) (flush_step (o, t) ev)).
  { destruct ev as [envs now|op]; cbn [flush_step fst snd].
    - apply tick_once; [| |done|unfold int64_max; lia].
      + eapply sublist_NoDup; [apply (oi_nodup _ _ Hinv)|].
        apply (fmap_sublist e_ID), due_loop_sublist.
      + apply Forall_forall. intros x Hx. eapply elem_of_sublist; [done|].
        apply due_loop_sublist.
    - apply (once_inv_mono n); [lia|]. by apply op_once. }
  replace (n + Z.of_nat (S (length evs))) with ((n + 1) + Z.of_nat (length evs)) by lia.
  destruct (flush_step (o, t) ev) as [o1 t1]. apply IH; [lia|done..].
Qed.

(** C4: a queued comment reaches the tracker at most once.  Through any
    history of flusher ticks, in which any call may be lost before or after
    it lands and any lookup may fail, interleaved with other enqueues,
    retries and drops of other entries, a fresh comment is posted under its
    key at most once; and once the outbox no longer holds it, exactly once. *)
Theorem comment_delivered_once o t e evs
    (Hfresh : e ∈ ob_entries o /\ watched e /\ e_Attempts e = 0 /\ e_RateLimitedAttempts e = 0)
    (Hids : NoDup (ids o))
    (Hothers : forall x, x ∈ ob_entries o -> e_ID x <> id0 -> other_comment x)
    (Hknown : known t issue0)
    (Hunposted : posts_of t issue0 key0 = O)
    (Hevents : events_ok (o, t) evs)
    (Hcount : Z.of_nat (length evs) < 2 ^ 61) :
  let '(o', t') := foldl flush_step (o, t) evs in
  (posts_of t' issue0 key0 <= 1)%nat /\
  (id0 ∉ ids o' -> posts_of t' issue0 key0 = 1%nat).
Proof.
  destruct Hfresh as (He & Hw & Ha & Hr).
  assert (Huniq : forall x, x ∈ ob_entries o -> e_ID x = id0 -> x = e).
  { intros x Hx Hid. apply (NoDup_map_inj e_ID (ob_entries o)); try done.
    destruct Hw as [? _]. congruence. }
  assert (Hinv : once_inv 0 (o, t)).
  { constructor; cbn [fst snd]; [done|done|..].
    - intros x Hx. destruct (decide (e_ID x = id0)) as [Hid|Hid]; [left|right; auto].
      rewrite (Huniq x Hx Hid). split; [done|]. unfold attempts_within. lia.
    - intros x Hx _. rewrite Hunposted. auto.
    - intros Hout. destruct Hout. destruct Hw as [<- _]. by apply elem_of_map_intro. }
  clear Ha Hr Huniq Hunposted Hothers Hids Hknown.
  pose proof (events_once 0 o t evs ltac:(lia) Hinv Hevents) as Hrun.
  destruct (foldl flush_step (o, t) evs) as [o' t'].
  destruct Hrun as [_ _ Hent Hpend Hgone]. cbn [fst snd] in *.
  destruct (decide (id0 ∈ ids o')) as [Hin|Hout]; [|by rewrite Hgone].
  split; [|done]. apply elem_of_map in Hin as (x & Hid & Hx).
  destruct (Hent x Hx) as [[Hwx _]|[Hne _]]; [by apply (Hpend x)|by destruct Hne].
Qed.
End once.

(** Generated comment keys fit the markers. *)
Lemma hex_encode_clean c bs :
  Forall (fun b => 0 <= b < 256) bs -> is_digit c = false -> (97 <=? N_of_ascii c)%N = false ->
  contains_byte c (hex_encode bs) = false.
Proof.
  intros Hbs Hd Ha. induction Hbs as [|b bs Hb Hbs IH]; [done|].
  cbn [hex_encode foldr]. rewrite contains_byte_app. fold (hex_encode bs). rewrite IH, orb_false_r.
  assert (Hx : forall d, 0 <= d < 16 -> Ascii.eqb c (hex_digit d) = false).
  { intros d Hdr. apply Ascii.eqb_neq. intros ->.
    pose proof (below_cases 16
      (fun d => is_digit (hex_digit d) || (97 <=? N_of_ascii (hex_digit d))%N) d eq_refl Hdr) as H.
    cbn beta in H. by rewrite Hd, Ha in H. }
  unfold hex_byte. cbn [contains_byte]. rewrite !Hx; [done|..].
  - apply Z.mod_pos_bound. lia.
  - split; [apply Z.div_pos; lia|apply Z.div_lt_upper_bound; lia].
Qed.

Lemma alter_bytes (f : Z -> Z) i bs :
  (forall b, 0 <= b < 256 -> 0 <= f b < 256) ->
  Forall (fun b => 0 <= b < 256) bs -> Forall (fun b => 0 <= b < 256) (alter f i bs).
Proof. intros Hf Hbs. apply Forall_alter; [done|]. intros x _. apply Hf. Qed.

Lemma mask_byte m k b :
  (m = 15 /\ k = 64) \/ (m = 63 /\ k = 128) -> 0 <= b < 256 -> 0 <= Z.lor (Z.land b m) k < 256.
Proof.
  intros Hmk Hb.
  assert (H : (0 <=? Z.lor (Z.land b m) k) && (Z.lor (Z.land b m) k <? 256) = true).
  { destruct Hmk as [[-> ->]|[-> ->]].
    - by apply (below_cases 256 (fun b => (0 <=? Z.lor (Z.land b 15) 64) && (Z.lor (Z.land b 15) 64 <? 256))).
    - by apply (below_cases 256 (fun b => (0 <=? Z.lor (Z.land b 63) 128) && (Z.lor (Z.land b 63) 128 <? 256))). }
  apply andb_true_iff in H as [?%Z.leb_le ?%Z.ltb_lt]. done.
Qed.

Lemma NewCommentKey_ok bs key :
  Forall (fun b => 0 <= b < 256) bs -> NewCommentKey (Some bs) = Some key -> key_ok key.
Proof.
  intros Hbs [= <-]. unfold key_ok. split; [apply uuid_string_nonempty|].
  assert (Hc : forall c, is_digit c = false -> (97 <=? N_of_ascii c)%N = false ->
    Ascii.eqb c "-" = false -> contains_byte c (uuid_string bs) = false).
  { intros c Hd Ha Hdash. unfold uuid_string.
    repeat rewrite contains_byte_app. cbn [contains_byte]. rewrite Hdash.
    rewrite !hex_encode_clean; [done|..]; try done;
      apply Forall_take, Forall_drop; repeat apply alter_bytes; try done;
      intros; (apply mask_byte; [auto|done]). }
  by repeat split; apply Hc.
Qed.

Definition watched_entry : Entry :=
  MkEntry "2-b" KindCreateComment "i1" "ENG-1" "" "" "all done" "k1" 100 0 "" 100 0 0 0.

Definition lossy (d : Delivery) (_ : string) : FlushEnv := MkFlushEnv false false None d 7 true.

(** Two deliveries whose answers are lost, a lookup that finds the comment:
    posted once, and gone from the outbox. *)
Example comment_delivered_once_witness :
  exists o' t',
    foldl flush_step
      (MkOutbox "outbox.json" [watched_entry; example_entry] Missing,
       NewMemoryTracker [example_issue] [] [])
      [EvTick (lossy (LostResponse (OtherError "timeout"))) 200;
       EvOp (OpRetryNow "2-b" 300 true);
       EvTick (lossy Delivered) 400] = (o', t') /\
    (posts_of t' "i1" "k1" <= 1)%nat /\
    ("2-b" ∉ ids o' -> posts_of t' "i1" "k1" = 1%nat) /\ ids o' = ["1-a"].
Proof.
  do 2 eexists. split; [reflexivity|].
  refine ((fun H => conj (proj1 H) (conj (proj2 H) eq_refl)) _).
  apply (comment_delivered_once (known := memory_known) "2-b" "i1" "k1"
    ltac:(by repeat split)
    (MkOutbox "outbox.json" [watched_entry; example_entry] Missing)
    (NewMemoryTracker [example_issue] [] []) watched_entry
    [EvTick (lossy (LostResponse (OtherError "timeout"))) 200;
     EvOp (OpRetryNow "2-b" 300 true);
     EvTick (lossy Delivered) 400]).
  - split; [by left|by repeat split].
  - apply (bool_decide_unpack _). vm_compute. exact I.
  - intros x Hx Hne Hk. apply elem_of_cons in Hx as [->|Hx]; [done|].
    apply list_elem_of_singleton in Hx as ->. discriminate.
  - by left.
  - reflexivity.
  - by repeat split.
  - reflexivity.
Defined.
