(* ===== verification/Resolve.v ===== *)
(** * Resolve: which backend runs a dispatch, and with which command
    (internal/orchestrator/dispatch_resolve.go, internal/agent/multi.go)

    A refusal keeps its three parts (source, requested backend, binary); the
    code formats them into [Reason]. *)

From stdpp Require Import base gmap list strings.
From Stdlib Require Import Ascii.
From S2P Require Import Prelude Config.

(** ** Data *)

Record dispatchTargetInput := MkTargetInput {
  in_DefaultCommand : string;
  in_DefaultBackend : string;
  in_Profile : option AgentProfile;
  in_IssueBackend : string;
  in_RecoveryBackend : string;
}.

Record Refusal := MkRefusal {
  rf_source : string;
  rf_requested : string;
  rf_binary : string;
}.

Record dispatchTarget := MkTarget {
  dt_Command : string;
  dt_RunnerCommand : string;
  dt_Backend : string;
  dt_Reason : option Refusal;
}.

#[export] Instance eta_dispatchTarget : Settable dispatchTarget := {|
  eta_record t := MkTarget (dt_Command t) (dt_RunnerCommand t) (dt_Backend t) (dt_Reason t) |}.
#[export] Instance eta_dispatchTargetInput : Settable dispatchTargetInput := {|
  eta_record i := MkTargetInput (in_DefaultCommand i) (in_DefaultBackend i) (in_Profile i)
    (in_IssueBackend i) (in_RecoveryBackend i) |}.

(** ** Operations *)

Definition commandBinaryBackend (command : string) : string :=
  let '(hinted, rest) := ParseBackendHint command in
  let command := if negb (String.eqb hinted "") then rest else command in
  let first := FirstCommandToken command in
  if String.eqb first "" then ""
  else if IsSupportedBackend (path_base first) then path_base first else "".

Definition stripBackendHint (command : string) : string :=
  let '(hinted, rest) := ParseBackendHint command in
  if negb (String.eqb hinted "") then rest else command.

(** The closure [request] of [resolveDispatchTarget]. *)
Definition request_backend (backend source : string) (t : dispatchTarget) : dispatchTarget :=
  if String.eqb backend "" then t
  else
    let bin := commandBinaryBackend (dt_Command t) in
    if negb (String.eqb bin "") && negb (String.eqb bin backend) then
      t <| dt_Reason := Some (MkRefusal source backend bin) |>
        <| dt_Backend := bin |>
        <| dt_RunnerCommand := stripBackendHint (dt_Command t) |>
    else
      t <| dt_Backend := backend |>
        <| dt_RunnerCommand := CommandWithBackendHint (dt_Command t) backend |>.

Definition resolveDispatchTarget (i : dispatchTargetInput) : dispatchTarget :=
  let t := MkTarget (in_DefaultCommand i) (in_DefaultCommand i)
             (BackendFromCommand (in_DefaultCommand i)) None in
  let t := request_backend (in_DefaultBackend i) "agent.backend" t in
  let t :=
    match in_Profile i with
    | None => t
    | Some p =>
        let t :=
          if negb (String.eqb (profile_Command p) "") then
            MkTarget (profile_Command p) (profile_Command p)
              (BackendFromCommand (profile_Command p)) None
          else t in
        request_backend (profile_Backend p) "profile backend" t
    end in
  let t := request_backend (in_IssueBackend i) "per-issue backend" t in
  request_backend (in_RecoveryBackend i) "rate_limited switch_to_backend" t.

Definition resolveResumeTarget (storedCommand storedBackend profileCommand defaultCommand : string) :
    dispatchTarget :=
  let cmd :=
    if String.eqb storedCommand "" then
      let cmd := profileCommand in
      let cmd :=
        if String.eqb cmd "" && negb (String.eqb storedBackend "") &&
           negb (String.eqb storedBackend "claude")
        then storedBackend else cmd in
      if String.eqb cmd "" then defaultCommand else cmd
    else storedCommand in
  if String.eqb storedBackend "" then MkTarget cmd cmd (BackendFromCommand cmd) None
  else
    let bin := commandBinaryBackend cmd in
    let '(command, reason) :=
      if negb (String.eqb bin "") && negb (String.eqb bin storedBackend) &&
         IsSupportedBackend storedBackend
      then (storedBackend, Some (MkRefusal "stored session" storedBackend bin))
      else (stripBackendHint cmd, None) in
    MkTarget command (CommandWithBackendHint command storedBackend) storedBackend reason.

(** MultiRunner (multi.go 25-57): the runner a command line selects, by name,
    and the command and prompt it gets.  [None] is the default runner. *)
Definition select_runner {R} (runners : gmap string R) (defaultRunner : R) (command : string) :
    R * string :=
  let '(backend, cleaned) := SplitBackendFromCommand command in
  (default defaultRunner (runners !! backend), cleaned).

Fixpoint after_blank (s : string) : string :=
  match s with
  | EmptyString => ""
  | String c s' => if is_blank_or_tab c || Ascii.eqb c "010"%char then s' else after_blank s'
  end.

Definition stripBackendHintFromPrompt (prompt : string) : string :=
  match cut_prefix prompt BackendHintPrefix with
  | Some rest => after_blank rest
  | None => prompt
  end.

(** ** Parsing a hinted command *)

Definition no_space (s : string) : bool := forall_bytes (fun c => negb (is_space c)) s.

Lemma trim_right_app x y : no_space x = true -> trim_right (x +:+ y) = x +:+ trim_right y.
Proof.
  unfold no_space. induction x as [|c x IH]; [done|].
  cbn [forall_bytes]. intros [Hc Hx]%andb_true_iff. rewrite append_cons_l. cbn [trim_right].
  rewrite IH by done. rewrite append_cons_l. apply negb_true_iff in Hc. rewrite Hc.
  by destruct (x +:+ trim_right y).
Qed.

Lemma split_blank_app b t :
  no_space b = true -> split_blank (b +:+ t) =
  match split_blank t with None => None | Some (x, a) => Some (b +:+ x, a) end.
Proof.
  unfold no_space. induction b as [|c b IH]; cbn [forall_bytes].
  - intros _. rewrite append_nil_l. destruct (split_blank t) as [[]|]; done.
  - intros [Hc Hb]%andb_true_iff. rewrite append_cons_l. cbn [split_blank].
    replace (is_blank_or_tab c) with false.
    + rewrite IH by done. destruct (split_blank t) as [[]|]; done.
    + symmetry. apply negb_true_iff in Hc. unfold is_space in Hc. unfold is_blank_or_tab.
      destruct (Ascii.eqb_spec c " ") as [->|]; [done|].
      destruct (Ascii.eqb_spec c "009") as [->|]; done.
Qed.

(** The hint the orchestrator writes is the hint MultiRunner reads. *)
Lemma hinted_command backend rest :
  backend <> "" -> no_space backend = true ->
  fst (ParseBackendHint (BackendHintPrefix +:+ backend +:+ " " +:+ rest)) = backend.
Proof.
  intros Hne Hb. unfold ParseBackendHint.
  assert (Htrim : trim_space (BackendHintPrefix +:+ backend +:+ " " +:+ rest)
    = BackendHintPrefix +:+ backend +:+ trim_right (" " +:+ rest)).
  { change (trim_space (BackendHintPrefix +:+ backend +:+ " " +:+ rest))
      with (trim_right (BackendHintPrefix +:+ (backend +:+ " " +:+ rest))).
    rewrite trim_right_app by done. by rewrite trim_right_app. }
  rewrite Htrim.
  assert (Hcut : cut_prefix (BackendHintPrefix +:+ backend +:+ trim_right (" " +:+ rest))
    BackendHintPrefix = Some (backend +:+ trim_right (" " +:+ rest))) by (by apply cut_prefix_spec).
  rewrite Hcut.
  destruct backend as [|c b] eqn:E; [done|]. rewrite append_cons_l at 1. rewrite <- E in *.
  rewrite split_blank_app by done.
  rewrite append_cons_l, append_nil_l. cbn [trim_right].
  destruct (trim_right rest); cbn; rewrite append_nil_r; done.
Qed.

Lemma SplitBackend_hinted command :
  fst (ParseBackendHint command) <> "" ->
  BackendFromCommand command = fst (ParseBackendHint command).
Proof.
  unfold BackendFromCommand, SplitBackendFromCommand.
  destruct (ParseBackendHint command) as [h rest]; cbn. intros H.
  apply String.eqb_neq in H. by rewrite H.
Qed.

(** Whatever the command, asking for a backend gives a command line that runs
    on it. *)
Lemma CommandWithBackendHint_runs command backend :
  backend <> "" -> no_space backend = true ->
  BackendFromCommand (CommandWithBackendHint command backend) = backend.
Proof.
  intros Hne Hb. unfold CommandWithBackendHint. apply String.eqb_neq in Hne as Hne'. rewrite Hne'.
  destruct (String.eqb_spec (BackendFromCommand command) backend) as [|Hd]; [done|].
  destruct (ParseBackendHint command) as [current cleaned] eqn:Hp.
  destruct (String.eqb_spec current backend) as [->|Hc].
  - rewrite SplitBackend_hinted by (by rewrite Hp). by rewrite Hp.
  - rewrite SplitBackend_hinted; rewrite hinted_command; done.
Qed.

(** ** Resolution *)

(** A command with at most one hint. *)
Definition single_hint (command : string) : Prop :=
  fst (ParseBackendHint (stripBackendHint command)) = "".

Lemma stripped_runs_binary command :
  single_hint command -> commandBinaryBackend command <> "" ->
  BackendFromCommand (stripBackendHint command) = commandBinaryBackend command.
Proof.
  unfold single_hint, stripBackendHint, commandBinaryBackend, BackendFromCommand,
    SplitBackendFromCommand.
  destruct (ParseBackendHint command) as [h rest] eqn:Hp.
  set (c := if negb (String.eqb h "") then rest else command).
  destruct (ParseBackendHint c) as [h' rest'] eqn:Hp'. cbn. intros ->. cbn.
  destruct (String.eqb (FirstCommandToken c) ""); [done|].
  by destruct (IsSupportedBackend (path_base (FirstCommandToken c))).
Qed.

Lemma unhinted_binary command :
  fst (ParseBackendHint command) = "" ->
  BackendFromCommand command = commandBinaryBackend command.
Proof.
  unfold commandBinaryBackend, BackendFromCommand, SplitBackendFromCommand.
  destruct (ParseBackendHint command) as [h rest]; cbn. intros ->. cbn.
  destruct (String.eqb _ _); [done|]. by destruct (IsSupportedBackend _).
Qed.

(** What a run will do agrees with what was resolved: the runner MultiRunner
    selects for the command line is the resolved backend, and a recognisable
    binary without a hint is never handed to another backend's runner. *)
Record consistent (t : dispatchTarget) : Prop := {
  cs_runs : BackendFromCommand (dt_RunnerCommand t) = dt_Backend t;
  cs_binary : fst (ParseBackendHint (dt_Command t)) = "" ->
    commandBinaryBackend (dt_Command t) <> "" ->
    dt_Backend t = commandBinaryBackend (dt_Command t);
}.

Lemma consistent_command c : consistent (MkTarget c c (BackendFromCommand c) None).
Proof. constructor; cbn; [done|]. intros H _. by apply unhinted_binary. Qed.

Lemma request_command b src t : dt_Command (request_backend b src t) = dt_Command t.
Proof.
  unfold request_backend. destruct (String.eqb b ""); [done|]. by destruct (_ && _).
Qed.

Lemma request_consistent b src t :
  no_space b = true -> single_hint (dt_Command t) ->
  consistent t -> consistent (request_backend b src t).
Proof.
  intros Hb Hs Ht. unfold request_backend.
  destruct (String.eqb_spec b "") as [|Hne]; [done|].
  destruct (String.eqb_spec (commandBinaryBackend (dt_Command t)) "") as [E|E]; cbn [negb andb].
  - constructor; cbn; [by apply CommandWithBackendHint_runs|done].
  - destruct (String.eqb_spec (commandBinaryBackend (dt_Command t)) b) as [E'|E']; cbn [negb].
    + constructor; cbn; [by apply CommandWithBackendHint_runs|done].
    + constructor; cbn; [by apply stripped_runs_binary|done].
Qed.

(** A wrapper (no recognisable binary) follows the request. *)
Lemma request_wrapper b src t :
  commandBinaryBackend (dt_Command t) = "" ->
  dt_Backend (request_backend b src t) = (if String.eqb b "" then dt_Backend t else b) /\
  dt_Reason (request_backend b src t) = dt_Reason t.
Proof.
  intros H. unfold request_backend. destruct (String.eqb b ""); [done|]. rewrite H. done.
Qed.

(** The command that will run, and the backends that may be asked for. *)
Definition effective_command (i : dispatchTargetInput) : string :=
  match in_Profile i with
  | Some p => if String.eqb (profile_Command p) "" then in_DefaultCommand i else profile_Command p
  | None => in_DefaultCommand i
  end.
Definition profile_request (i : dispatchTargetInput) : string :=
  match in_Profile i with Some p => profile_Backend p | None => "" end.

(** The single decision point is sound.  Whatever is configured and
    pinned, the resolved command is the profile's, else the default one; the
    command line handed to MultiRunner selects exactly the resolved backend;
    a command whose own binary is claude or codex is never sent to the other
    runner; and for a wrapper the per-issue backend, overridden only by the
    recovery run's, is obeyed. *)
Theorem resolve_sound i
    (Hclean : Forall (fun b => no_space b = true)
       [in_DefaultBackend i; profile_request i; in_IssueBackend i; in_RecoveryBackend i])
    (Hhints : single_hint (in_DefaultCommand i) /\ single_hint (effective_command i)) :
  let t := resolveDispatchTarget i in
  dt_Command t = effective_command i /\
  BackendFromCommand (dt_RunnerCommand t) = dt_Backend t /\
  (fst (ParseBackendHint (dt_Command t)) = "" -> commandBinaryBackend (dt_Command t) <> "" ->
   dt_Backend t = commandBinaryBackend (dt_Command t)) /\
  (commandBinaryBackend (dt_Command t) = "" ->
   (in_RecoveryBackend i <> "" -> dt_Backend t = in_RecoveryBackend i) /\
   (in_RecoveryBackend i = "" -> in_IssueBackend i <> "" -> dt_Backend t = in_IssueBackend i)).
Proof.
  cbn zeta. unfold resolveDispatchTarget.
  set (t0 := request_backend (in_DefaultBackend i) "agent.backend" _).
  set (t1 := match in_Profile i with None => t0 | Some p => _ end).
  rewrite !Forall_cons in Hclean. destruct Hclean as (H1 & H2 & H3 & H4 & _).
  assert (Hc0 : consistent t0).
  { apply request_consistent; [done|apply Hhints|apply consistent_command]. }
  assert (Ht1 : dt_Command t1 = effective_command i /\ consistent t1).
  { unfold t1, effective_command, profile_request in *.
    destruct (in_Profile i) as [p|]; [|unfold t0; rewrite request_command; auto].
    rewrite request_command. destruct (String.eqb_spec (profile_Command p) "") as [E|E];
      cbn [negb].
    - split; [unfold t0; by rewrite request_command|]. apply request_consistent; [done| |done].
      unfold t0. rewrite request_command. apply Hhints.
    - split; [done|]. apply request_consistent; [done|apply Hhints|apply consistent_command]. }
  destruct Ht1 as [Hcmd Hc1]. clearbody t1.
  assert (Hs1 : single_hint (dt_Command t1)) by (rewrite Hcmd; apply Hhints).
  set (t2 := request_backend (in_IssueBackend i) "per-issue backend" t1).
  assert (Hc2 : consistent t2) by (by apply request_consistent).
  assert (Hcmd2 : dt_Command t2 = dt_Command t1) by apply request_command.
  assert (Hc3 : consistent (request_backend (in_RecoveryBackend i)
    "rate_limited switch_to_backend" t2)) by (apply request_consistent; congruence).
  rewrite request_command, Hcmd2, Hcmd. split; [done|]. split; [apply Hc3|]. split.
  - intros Hh Hb. pose proof (cs_binary _ Hc3) as Hbin.
    rewrite request_command, Hcmd2, Hcmd in Hbin. auto.
  - intros Hw. rewrite <- Hcmd in Hw.
    destruct (request_wrapper (in_RecoveryBackend i) "rate_limited switch_to_backend" t2
      ltac:(congruence)) as [-> _].
    destruct (request_wrapper (in_IssueBackend i) "per-issue backend" t1 Hw) as [E _].
    fold t2 in E. split.
    + intros Hr. apply String.eqb_neq in Hr. by rewrite Hr.
    + intros -> Hi. cbn. apply String.eqb_neq in Hi. by rewrite E, Hi.
Qed.

Definition example_input : dispatchTargetInput :=
  MkTargetInput "claude --model opus" "codex"
    (Some (MkAgentProfile "env FOO=1 ./run-agent.sh" "" None)) "codex" "".

Example resolve_sound_witness :
  let t := resolveDispatchTarget example_input in
  dt_Command t = "env FOO=1 ./run-agent.sh" /\
  BackendFromCommand (dt_RunnerCommand t) = dt_Backend t /\
  (fst (ParseBackendHint (dt_Command t)) = "" -> commandBinaryBackend (dt_Command t) <> "" ->
   dt_Backend t = commandBinaryBackend (dt_Command t)) /\
  (commandBinaryBackend (dt_Command t) = "" ->
   ("" <> "" -> dt_Backend t = "") /\
   ("" = "" -> "codex" <> "" -> dt_Backend t = "codex")).
Proof.
  apply (resolve_sound example_input); [by repeat constructor|by split].
Defined.

(** A resumed session runs on the backend that owns it: the command line
    built for a stored session selects the stored backend, whatever command
    was stored, configured for the profile or set by default. *)
Theorem resume_runs_stored_backend storedCommand storedBackend profileCommand defaultCommand
    (Hb : storedBackend <> "" /\ no_space storedBackend = true) :
  let t := resolveResumeTarget storedCommand storedBackend profileCommand defaultCommand in
  dt_Backend t = storedBackend /\
  BackendFromCommand (dt_RunnerCommand t) = storedBackend /\
  (dt_Reason t <> None -> dt_Command t = storedBackend).
Proof.
  cbn zeta. unfold resolveResumeTarget. destruct Hb as [Hne Hb].
  apply String.eqb_neq in Hne as Hne'. rewrite Hne'.
  set (cmd := if String.eqb storedCommand "" then _ else _).
  destruct (_ && _ && IsSupportedBackend storedBackend); cbn;
    (split; [done|]; split; [by apply CommandWithBackendHint_runs|done]).
Qed.

Example resume_runs_stored_backend_witness :
  let t := resolveResumeTarget "" "codex" "claude --x" "claude" in
  dt_Backend t = "codex" /\ BackendFromCommand (dt_RunnerCommand t) = "codex" /\
  (dt_Reason t <> None -> dt_Command t = "codex").
Proof. by apply (resume_runs_stored_backend "" "codex" "claude --x" "claude"). Defined.
