(* ===== verification/RunnerCommand.v ===== *)
(** * RunnerCommand: variables put before an agent's command
    (internal/orchestrator/worker.go 1549-1587, internal/agent/claude.go
    664-685)

    A run with daemon actions gets its token and the daemon's address as shell
    assignments in front of its command line; the runner is chosen from that
    line afterwards.  The property is what the assignments do to that choice. *)

From stdpp Require Import base list strings.
From Stdlib Require Import Ascii.
From S2P Require Import Prelude Config Resolve.

(** [ShellQuote]: single quotes, with quotes and backslashes outside them. *)
Definition single_quote : ascii := "'"%char.
Definition backslash : ascii := "\"%char.
Fixpoint shell_bytes (s : string) : string :=
  match s with
  | EmptyString => EmptyString
  | String c s =>
      (if Ascii.eqb c single_quote || Ascii.eqb c backslash
       then String single_quote (String backslash (String c (String single_quote "")))
       else String c "") +:+ shell_bytes s
  end.
Definition ShellQuote (s : string) : string :=
  String single_quote (shell_bytes s) +:+ String single_quote "".

(** The hint token of a command with a backend hint, and the rest. *)
Definition split_hint (command : string) : string * string :=
  let trimmed := trim_space command in
  if has_prefix trimmed BackendHintPrefix then
    match split_blank trimmed with
    | Some (hint, rest) => (hint, trim_left_blank rest)
    | None => (trimmed, "")
    end
  else ("", trimmed).

Definition env_assignment (kv : string * string) : string := fst kv +:+ "=" +:+ ShellQuote (snd kv) +:+ " ".

Definition prependEnvToCommand (command : string) (vars : list (string * string)) : string :=
  let '(hint, rest) := split_hint command in
  let sorted := sort_stable (fun a b => string_less (fst a) (fst b)) vars in
  let set_vars := filter (fun kv => negb (String.eqb (snd kv) "") = true) sorted in
  (if String.eqb hint "" then "" else hint +:+ " ") +:+ String.concat "" (map env_assignment set_vars) +:+ rest.

(** ** Words *)

(** A name of a variable. *)
Definition env_name (k : string) : bool :=
  match k with
  | EmptyString => false
  | String c rest =>
      (Ascii.eqb c "_"%char || is_letter c) &&
      forall_bytes (fun r => Ascii.eqb r "_"%char || is_letter r || is_digit r) rest
  end.

Lemma no_space_app x y : no_space (x +:+ y) = no_space x && no_space y.
Proof.
  unfold no_space. induction x as [|c x IH]; [done|]. rewrite append_cons_l. cbn [forall_bytes]. by rewrite IH, andb_assoc.
Qed.

Lemma fields_word_from acc w s :
  no_space w = true -> acc +:+ w <> "" -> fields_from acc (w +:+ " " +:+ s) = (acc +:+ w) :: fields s.
Proof.
  revert acc. induction w as [|c w IH]; intros acc Hw Hne.
  - rewrite append_nil_l. rewrite append_nil_r in *. rewrite append_cons_l, append_nil_l. cbn [fields_from].
    change (is_space " ") with true. by rewrite (proj2 (String.eqb_neq acc "") Hne).
  - unfold no_space in Hw. cbn [forall_bytes] in Hw. apply andb_true_iff in Hw as [Hc Hw]. apply negb_true_iff in Hc.
    rewrite append_cons_l. cbn [fields_from]. rewrite Hc.
    assert (E : (acc +:+ String c "") +:+ w = acc +:+ String c w) by (by rewrite append_assoc).
    rewrite IH; [by rewrite E|done|by rewrite E].
Qed.

Lemma fields_word w s : no_space w = true -> w <> "" -> fields (w +:+ " " +:+ s) = w :: fields s.
Proof. intros Hw Hne. by apply (fields_word_from "" w s). Qed.

Lemma fields_trim_left s : fields (trim_left s) = fields s.
Proof.
  unfold fields. induction s as [|c s IH]; [done|]. cbn [trim_left fields_from].
  destruct (is_space c) eqn:E; [done|]. cbn [fields_from]. by rewrite E.
Qed.

Lemma fields_from_cons acc c s :
  fields_from acc (String c s) =
  if is_space c then if String.eqb acc "" then fields_from "" s else acc :: fields_from "" s
  else fields_from (acc +:+ String c "") s.
Proof. done. Qed.

Lemma fields_blank acc s : trim_right s = "" -> fields_from acc s = fields_from acc "".
Proof.
  revert acc. induction s as [|c s IH]; intros acc; [done|]. cbn [trim_right].
  destruct (trim_right s) eqn:E; [|done]. destruct (is_space c) eqn:Ec; [|done]. intros _. cbn [fields_from]. rewrite Ec.
  rewrite IH by done. cbn. by destruct (String.eqb acc "").
Qed.

Lemma fields_trim_right acc s : fields_from acc (trim_right s) = fields_from acc s.
Proof.
  revert acc. induction s as [|c s IH]; intros acc; [done|]. cbn [trim_right].
  destruct (trim_right s) as [|d t] eqn:E.
  - destruct (is_space c) eqn:Ec.
    + symmetry. rewrite (fields_blank acc (String c s)); [done|]. cbn. by rewrite E, Ec.
    + cbn [fields_from]. by rewrite Ec, (fields_blank _ s E).
  - rewrite (fields_from_cons acc c (String d t)), (fields_from_cons acc c s). by rewrite !IH.
Qed.

Lemma fields_trim_space s : fields (trim_space s) = fields s.
Proof. etransitivity; [apply (fields_trim_right "")|apply fields_trim_left]. Qed.

(** ** Assignments *)

Lemma name_byte c :
  Ascii.eqb c "_"%char || is_letter c || is_digit c = true -> is_space c = false /\ Ascii.eqb "="%char c = false.
Proof. destruct c as [[] [] [] [] [] [] [] []]; by vm_compute. Qed.

Lemma name_word k s :
  forall_bytes (fun r => Ascii.eqb r "_"%char || is_letter r || is_digit r) k = true ->
  no_space k = true /\ cut_at "="%char (k +:+ "=" +:+ s) = (k, s, true).
Proof.
  induction k as [|c k IH]; [done|]. cbn [forall_bytes]. intros [Hc Hk]%andb_true_iff.
  destruct (name_byte c Hc) as [Hs He]. destruct (IH Hk) as [Hn Hcut]. split.
  - unfold no_space in *. cbn [forall_bytes]. by rewrite Hs.
  - rewrite append_cons_l. cbn [cut_at]. by rewrite He, Hcut.
Qed.

Lemma env_name_word k s :
  env_name k = true -> no_space k = true /\ IsEnvAssignment (k +:+ "=" +:+ s) = true.
Proof.
  destruct k as [|c k]; [done|]. cbn [env_name]. intros H. pose proof H as [Hc Hk]%andb_true_iff.
  destruct (name_word (String c k) s) as [Hn Hcut].
  { cbn [forall_bytes]. rewrite Hk, andb_true_r. apply orb_true_iff in Hc as [-> | ->]; [done|by rewrite orb_true_r]. }
  split; [done|]. unfold IsEnvAssignment. rewrite Hcut. exact H.
Qed.

Lemma ShellQuote_no_space v : no_space v = true -> no_space (ShellQuote v) = true.
Proof.
  intros Hv. unfold ShellQuote.
  assert (Hb : no_space (shell_bytes v) = true).
  { induction v as [|c v IH]; [done|]. unfold no_space in Hv. cbn [forall_bytes] in Hv. apply andb_true_iff in Hv as [Hc Hv].
    cbn [shell_bytes]. rewrite no_space_app, (IH Hv), andb_true_r. destruct (_ || _); unfold no_space; cbn [forall_bytes]; by rewrite Hc. }
  change (String single_quote (shell_bytes v) +:+ String single_quote "")
    with (String single_quote (shell_bytes v +:+ String single_quote "")).
  pose proof (no_space_app (shell_bytes v) (String single_quote "")) as H. rewrite Hb in H.
  unfold no_space in *. cbn [forall_bytes]. by rewrite H.
Qed.

(** Variables whose assignments are one word each. *)
Definition plain_var (kv : string * string) : Prop := env_name (fst kv) = true /\ no_space (snd kv) = true.

Lemma first_token_assignments vars rest :
  Forall plain_var vars ->
  FirstCommandToken (String.concat "" (map env_assignment vars) +:+ rest) = FirstCommandToken rest.
Proof.
  induction 1 as [|[k v] vars [Hk Hv] _ IH]; [done|]. cbn [fst snd] in *.
  assert (E : String.concat "" (map env_assignment ((k, v) :: vars)) +:+ rest
    = (k +:+ "=" +:+ ShellQuote v) +:+ " " +:+ (String.concat "" (map env_assignment vars) +:+ rest)).
  { destruct vars as [|x vars]; cbn [map String.concat]; unfold env_assignment at 1; cbn [fst snd];
      by rewrite ?append_assoc, ?append_nil_l. }
  destruct (env_name_word k (ShellQuote v) Hk) as [Hn Ha].
  rewrite E. unfold FirstCommandToken. rewrite fields_word.
  - cbn [first_token]. rewrite Ha. exact IH.
  - by rewrite !no_space_app, Hn, (ShellQuote_no_space v Hv).
  - by destruct k.
Qed.

(** A line that starts with an assignment has no hint. *)
Lemma assignment_no_hint k s : env_name k = true -> fst (ParseBackendHint (k +:+ s)) = "".
Proof.
  destruct k as [|c k]; [done|]. cbn [env_name]. intros [Hc _]%andb_true_iff.
  assert (is_space c = false /\ Ascii.eqb "@"%char c = false) as [Hs Hat].
  { revert Hc. clear. destruct c as [[] [] [] [] [] [] [] []]; by vm_compute. }
  unfold ParseBackendHint, trim_space. rewrite append_cons_l. cbn [trim_left]. rewrite Hs. cbn [trim_right].
  assert (cut_prefix (match trim_right (k +:+ s) with "" => if is_space c then "" else String c "" | r => String c r end)
    BackendHintPrefix = None) as ->; [|done].
  unfold BackendHintPrefix. rewrite Hs. destruct (trim_right (k +:+ s)); cbn [cut_prefix]; by rewrite Hat.
Qed.

Lemma BackendFromCommand_unhinted c :
  fst (ParseBackendHint c) = "" ->
  BackendFromCommand c =
    (if String.eqb (FirstCommandToken c) "" then ""
     else if IsSupportedBackend (path_base (FirstCommandToken c)) then path_base (FirstCommandToken c) else "").
Proof.
  unfold BackendFromCommand, SplitBackendFromCommand. destruct (ParseBackendHint c) as [h rest]; cbn. intros ->. cbn.
  destruct (String.eqb _ _); [done|]. by destruct (IsSupportedBackend _).
Qed.

(** ** Trimming *)

Lemma trim_left_nonspace c s : is_space c = false -> trim_left (String c s) = String c s.
Proof. intros H. cbn [trim_left]. by rewrite H. Qed.

Lemma trim_left_head s : trim_left s = "" \/ exists c t, trim_left s = String c t /\ is_space c = false.
Proof.
  induction s as [|c s IH]; [by left|]. cbn [trim_left]. destruct (is_space c) eqn:E; [done|]. right. by exists c, s.
Qed.

Lemma trim_right_idem s : trim_right (trim_right s) = trim_right s.
Proof.
  induction s as [|c s IH]; [done|]. cbn [trim_right]. destruct (trim_right s) as [|d t] eqn:E.
  - destruct (is_space c) eqn:Ec; [done|]. cbn. by rewrite Ec.
  - remember (String d t) as u eqn:Eu. cbn [trim_right]. rewrite IH. by subst u.
Qed.

Lemma trim_space_idem s : trim_space (trim_space s) = trim_space s.
Proof.
  unfold trim_space. destruct (trim_left_head s) as [->|(c & t & -> & Hc)]; [done|].
  assert (trim_left (trim_right (String c t)) = trim_right (String c t)) as ->; [|apply trim_right_idem].
  cbn [trim_right]. rewrite Hc. destruct (trim_right t); by apply trim_left_nonspace.
Qed.

(** ** The commands of the code *)

Lemma unprefixed_no_hint c : has_prefix (trim_space c) BackendHintPrefix = false -> fst (ParseBackendHint c) = "".
Proof.
  intros H. unfold ParseBackendHint. destruct (cut_prefix (trim_space c) BackendHintPrefix) as [r|] eqn:E; [|done].
  apply cut_prefix_spec in E. by rewrite E, has_prefix_app in H.
Qed.

Definition set_vars (vars : list (string * string)) : list (string * string) :=
  filter (fun kv => negb (String.eqb (snd kv) "") = true) (sort_stable (fun a b => string_less (fst a) (fst b)) vars).

Lemma set_vars_Forall (P : string * string -> Prop) vars : Forall P vars -> Forall P (set_vars vars).
Proof.
  rewrite !Forall_forall. intros H kv [_ Hin]%list_elem_of_filter. apply H. by rewrite sort_stable_perm in Hin.
Qed.

Lemma split_hint_hinted backend rest :
  no_space backend = true ->
  fst (split_hint (BackendHintPrefix +:+ backend +:+ " " +:+ rest)) = BackendHintPrefix +:+ backend.
Proof.
  intros Hb. unfold split_hint.
  assert (trim_space (BackendHintPrefix +:+ backend +:+ " " +:+ rest)
    = (BackendHintPrefix +:+ backend) +:+ trim_right (" " +:+ rest)) as ->.
  { rewrite append_assoc. change (trim_space (BackendHintPrefix +:+ backend +:+ " " +:+ rest))
      with (trim_right (BackendHintPrefix +:+ (backend +:+ " " +:+ rest))).
    rewrite trim_right_app by done. by rewrite trim_right_app. }
  rewrite split_blank_app by (by rewrite no_space_app, Hb).
  rewrite append_assoc at 1. rewrite has_prefix_app.
  rewrite append_cons_l, append_nil_l. cbn [trim_right].
  destruct (trim_right rest); cbn; by rewrite ?append_nil_r.
Qed.

(** Putting the variables of the daemon's actions before a command keeps
    the runner the command selects when the command carries a backend hint, and
    when no value has a space in it; a command without a hint loses its runner
    to a value with a space, as an issue state may be. *)
Theorem actions_keep_backend command vars :
  Forall (fun kv => env_name (fst kv) = true) vars ->
  (forall backend rest, backend <> "" -> no_space backend = true ->
     command = BackendHintPrefix +:+ backend +:+ " " +:+ rest ->
     BackendFromCommand (prependEnvToCommand command vars) = BackendFromCommand command) /\
  (has_prefix (trim_space command) BackendHintPrefix = false ->
     Forall (fun kv => no_space (snd kv) = true) vars ->
     BackendFromCommand (prependEnvToCommand command vars) = BackendFromCommand command) /\
  BackendFromCommand "codex" = "codex" /\
  BackendFromCommand (prependEnvToCommand "codex" [("ITERVOX_CREATE_ISSUE_STATE", "In Progress")]) = "".
Proof.
  intros Hk. split; [|split; [|split; by vm_compute]].
  - intros backend rest Hne Hb ->. unfold prependEnvToCommand.
    pose proof (split_hint_hinted backend rest Hb) as Hs. destruct (split_hint _) as [hint r]. cbn in Hs. subst hint.
    assert (String.eqb (BackendHintPrefix +:+ backend) "" = false) as -> by done. fold (set_vars vars).
    rewrite !append_assoc. rewrite !SplitBackend_hinted; by rewrite ?hinted_command.
  - intros Hp Hv. unfold prependEnvToCommand, split_hint. rewrite Hp. cbn [String.eqb]. fold (set_vars vars).
    assert (Hpl : Forall plain_var (set_vars vars)).
    { apply set_vars_Forall. rewrite Forall_forall in Hk, Hv |- *. intros kv Hin. by split; [apply Hk|apply Hv]. }
    rewrite append_nil_l, !BackendFromCommand_unhinted.
    + rewrite first_token_assignments by done. unfold FirstCommandToken. by rewrite fields_trim_space.
    + by apply unprefixed_no_hint.
    + destruct (set_vars vars) as [|[k v] l]; [by apply unprefixed_no_hint; rewrite append_nil_l, trim_space_idem|].
      apply Forall_cons in Hpl as [[Hn _] _]. cbn [fst] in Hn.
      destruct l as [|x l]; cbn [map String.concat]; unfold env_assignment at 1; cbn [fst]; rewrite !append_assoc;
        by apply assignment_no_hint.
Qed.

Lemma actions_keep_backend_witness :
  BackendFromCommand (prependEnvToCommand "/usr/bin/codex exec" [("ITERVOX_RUN_ID", "run-1")]) = "codex".
Proof.
  rewrite (proj1 (proj2 (actions_keep_backend "/usr/bin/codex exec" [("ITERVOX_RUN_ID", "run-1")]
    ltac:(by repeat constructor))) ltac:(by vm_compute) ltac:(by repeat constructor)).
  vm_compute. reflexivity.
Defined.
