(* ===== verification/BackendHealth.v ===== *)
(** * BackendHealth: the per-backend circuit breaker
    (internal/orchestrator/backend_health.go, internal/agent/limit_signal.go)

    One breaker per backend and worker host, in [BackendHealth state]; an
    absent key is healthy.  Log lines are left out. *)

From stdpp Require Import base gmap list strings.
From S2P Require Import Prelude Domain State Config Dispatch.

(** ** Limit signals (limit_signal.go 41-128) *)

Definition LimitKindQuota : string := "quota".
Definition LimitKindThrottle : string := "throttle".
Definition LimitSourceRateLimitEvent : string := "rate_limit_event".
Definition LimitSourceAPIRetry : string := "api_retry".
Definition LimitSourceResult : string := "result".
Definition LimitSourceText : string := "text".

Record LimitSignal := MkLimitSignal {
  ls_Kind : string;
  ls_Source : string;
  ls_LimitType : string;
  ls_ResetsAt : Time;
  ls_RetryAfter : Duration;
  ls_Status : string;
  ls_HTTPStatus : Z;
  ls_ErrorCategory : string;
  ls_Message : string;
  ls_ResetZoneAssumed : bool;
}.

(** A nil signal is [None]. *)
Definition Terminal (s : option LimitSignal) : bool :=
  match s with Some s => String.eqb (ls_Kind s) LimitKindQuota | None => false end.

Definition until_reset (s : LimitSignal) (now : Time) : Duration :=
  let d := time_sub (ls_ResetsAt s) now in if 0 <? d then d else 0.

Definition VendorDelay (sig : option LimitSignal) (now : Time) : Duration :=
  match sig with
  | None => 0
  | Some s =>
      if Terminal sig && negb (time_is_zero (ls_ResetsAt s)) then until_reset s now
      else if 0 <? ls_RetryAfter s then ls_RetryAfter s
      else if negb (time_is_zero (ls_ResetsAt s)) then until_reset s now
      else 0
  end.

Definition rateLimitVendorDelayCap : Duration := 6 * Hour.

Definition vendorRetryDelayMs (limit : option LimitSignal) (now : Time) : Z :=
  Z.quot (Z.min (VendorDelay limit now) rateLimitVendorDelayCap) Millisecond.

(** ** Bounds (backend_health.go 45-114) *)

Definition backendThrottleWindow : Duration := 5 * Minute.
Definition backendThrottleThreshold : Z := 3.
Definition backendThrottleCooldown : Duration := 5 * Minute.
Definition backendThrottleMaxCooldown : Duration := Hour.
Definition backendCapFiveHour : Duration := 5 * Hour + 15 * Minute.
Definition backendCapSevenDay : Duration := 7 * 24 * Hour + Hour.
Definition backendCapStructure : Duration := 24 * Hour.
Definition backendCapText : Duration := rateLimitVendorDelayCap.

Definition backendLimitCap (kind source limitType : string) : Duration :=
  if String.eqb kind LimitKindThrottle then backendThrottleMaxCooldown
  else if String.eqb source LimitSourceRateLimitEvent then
    if String.eqb limitType "five_hour" then backendCapFiveHour
    else if has_prefix limitType "seven_day" then backendCapSevenDay
    else backendCapStructure
  else if String.eqb source LimitSourceText || String.eqb source LimitSourceResult
  then backendCapText
  else backendCapStructure.

Definition clampLimitedUntil (until now : Time) (kind source limitType : string) : Time :=
  let limit := time_add now (backendLimitCap kind source limitType) in
  if time_after until limit then limit else until.

(** ** Operations *)

Definition BackendHealthKey (backend host : string) : string :=
  if String.eqb host "" then backend else backend +:+ "@" +:+ host.

Definition backendCooldown (cfg : Config) : Duration :=
  mul64 (CooldownMinutes (agent_BackendFallback (cfg_Agent cfg))) Minute.

Definition breaker (state : State) (key : string) : BackendHealthEntry :=
  default zero_BackendHealthEntry (BackendHealth state !! key).

Definition set_breaker (state : State) (key : string) (e : BackendHealthEntry) : State :=
  state <| BackendHealth := <[key := e]> (BackendHealth state) |>.

(** The end of the hold a quota signal asks for, before the never-shortened
    rule: the published reset, or the cooldown; then the cap. *)
Definition limit_until (cfg : Config) (sig : LimitSignal) (now : Time) : Time * bool :=
  let '(until, known) :=
    if time_is_zero (ls_ResetsAt sig) || negb (time_after (ls_ResetsAt sig) now)
    then (time_add now (Z.min (backendCooldown cfg) backendCapStructure), false)
    else (ls_ResetsAt sig, true) in
  (clampLimitedUntil until now (ls_Kind sig) (ls_Source sig) (ls_LimitType sig), known).

Definition recordBackendLimit (cfg : Config) (state : State) (backend host identifier : string)
    (sig : option LimitSignal) (now : Time) : bool * State :=
  match sig with
  | None => (false, state)
  | Some s =>
      if String.eqb backend "" || negb (Terminal sig) then (false, state)
      else
        let key := BackendHealthKey backend host in
        let e := breaker state key in
        let wasOpen := String.eqb (bh_Status e) BackendStatusLimited ||
                       String.eqb (bh_Status e) BackendStatusProbing in
        let '(until, known) := limit_until cfg s now in
        let '(until, known) :=
          if String.eqb (bh_Status e) BackendStatusLimited && time_after (bh_LimitedUntil e) until
          then (bh_LimitedUntil e, bh_ResetKnown e) else (until, known) in
        let e' := e <| bh_Backend := backend |> <| bh_Host := host |>
                    <| bh_Status := BackendStatusLimited |>
                    <| bh_Kind := ls_Kind s |>
                    <| bh_LimitType := ls_LimitType s |>
                    <| bh_Source := ls_Source s |>
                    <| bh_LimitedUntil := until |> <| bh_ResetKnown := known |>
                    <| bh_Since := if negb wasOpen || time_is_zero (bh_Since e)
                                   then now else bh_Since e |>
                    <| bh_Hits := add64 (bh_Hits e) 1 |>
                    <| bh_LastIssue := identifier |>
                    <| bh_ProbeIssue := "" |> in
        (true, set_breaker state key e')
  end.

Definition recordBackendThrottle (state : State) (backend host identifier : string)
    (sig : option LimitSignal) (now : Time) : bool * State :=
  match sig with
  | None => (false, state)
  | Some s =>
      if String.eqb backend "" || negb (String.eqb (ls_Kind s) LimitKindThrottle) ||
         negb (String.eqb (ls_Source s) LimitSourceAPIRetry)
      then (false, state)
      else
        let key := BackendHealthKey backend host in
        let old := breaker state key in
        let e :=
          if time_is_zero (bh_ThrottleWindowStart old) ||
             (backendThrottleWindow <? time_sub now (bh_ThrottleWindowStart old))
          then old <| bh_ThrottleWindowStart := now |> <| bh_ThrottleCount := 0 |>
          else old in
        let e := e <| bh_ThrottleCount := add64 (bh_ThrottleCount e) 1 |>
                   <| bh_Backend := backend |> <| bh_Host := host |> in
        let '(e, changed) :=
          if String.eqb (bh_Status e) BackendStatusLimited ||
             String.eqb (bh_Status e) BackendStatusProbing
          then (e, false)
          else
            let e :=
              if backendThrottleThreshold <=? bh_ThrottleCount e then
                e <| bh_Status := BackendStatusLimited |>
                  <| bh_Kind := LimitKindThrottle |>
                  <| bh_LimitType := "" |>
                  <| bh_Source := ls_Source s |>
                  <| bh_LimitedUntil :=
                       time_add now (Z.min (Z.max backendThrottleCooldown (ls_RetryAfter s))
                                           backendThrottleMaxCooldown) |>
                  <| bh_ResetKnown := false |>
                  <| bh_Since := now |>
                  <| bh_Hits := add64 (bh_Hits e) 1 |>
                  <| bh_ProbeIssue := "" |>
              else if negb (String.eqb (bh_Status e) BackendStatusWarning) then
                e <| bh_Status := BackendStatusWarning |> <| bh_Since := now |>
              else e in
            (e, negb (String.eqb (bh_Status e) (bh_Status old))) in
        let e := e <| bh_LastIssue := identifier |> in
        (changed, set_breaker state key e)
  end.

(** The identifiers a probe reservation may belong to. *)
Definition live_identifiers (state : State) : gset string :=
  list_to_set (map (fun kv => issue_Identifier (run_Issue (snd kv))) (map_to_list (Running state)))
  ∪ list_to_set (map (fun kv => retry_Identifier (snd kv)) (map_to_list (RetryAttempts state)))
  ∪ dom (PendingInputResumes state).

(** One key of [advanceBackendHealth]: [None] deletes the entry. *)
Definition advance_entry (live : gset string) (now : Time) (e : BackendHealthEntry) :
    option BackendHealthEntry :=
  if String.eqb (bh_Status e) BackendStatusLimited then
    if negb (time_before now (bh_LimitedUntil e))
    then Some (e <| bh_Status := BackendStatusProbing |> <| bh_ProbeIssue := "" |>)
    else Some e
  else if String.eqb (bh_Status e) BackendStatusProbing then
    if negb (String.eqb (bh_ProbeIssue e) "") && negb (bool_decide (bh_ProbeIssue e ∈ live))
    then Some (e <| bh_ProbeIssue := "" |>)
    else Some e
  else if String.eqb (bh_Status e) BackendStatusWarning then
    if backendThrottleWindow <? time_sub now (bh_ThrottleWindowStart e) then None else Some e
  else Some e.

(** The loop visits each key once and no key's step reads another's; the
    result is whether any entry changed. *)
Definition advanceBackendHealth (state : State) (now : Time) : bool * State :=
  let m := omap (advance_entry (live_identifiers state) now) (BackendHealth state) in
  (negb (bool_decide (m = BackendHealth state)), state <| BackendHealth := m |>).

Definition backendKeyBlocked (state : State) (key identifier : string) (now : Time) : bool * Time :=
  match BackendHealth state !! key with
  | None => (false, zero_time)
  | Some e =>
      if String.eqb (bh_Status e) BackendStatusLimited then
        if time_before now (bh_LimitedUntil e) then (true, bh_LimitedUntil e) else (false, zero_time)
      else if String.eqb (bh_Status e) BackendStatusProbing then
        if negb (String.eqb (bh_ProbeIssue e) "") &&
           negb (String.eqb (bh_ProbeIssue e) identifier)
        then (true, bh_LimitedUntil e) else (false, zero_time)
      else (false, zero_time)
  end.

Definition admitBackendKey (state : State) (key identifier : string) (now : Time) : bool * State :=
  if fst (backendKeyBlocked state key identifier now) then (false, state)
  else
    match BackendHealth state !! key with
    | None => (true, state)
    | Some e =>
        if String.eqb (bh_Status e) BackendStatusLimited then
          (true, set_breaker state key
             (e <| bh_Status := BackendStatusProbing |> <| bh_ProbeIssue := identifier |>))
        else if String.eqb (bh_Status e) BackendStatusProbing then
          (true, set_breaker state key
             (if String.eqb (bh_ProbeIssue e) "" then e <| bh_ProbeIssue := identifier |> else e))
        else (true, state)
    end.

Definition settleBackendProbe (state : State) (liveEntry : option RunEntry) (identifier : string)
    (reason : TerminalReason) : bool * State :=
  match liveEntry with
  | None => (false, state)
  | Some r =>
      if negb (bool_decide (reason = TerminalSucceeded)) &&
         negb (bool_decide (reason = TerminalInputRequired))
      then (false, state)
      else
        let key := BackendHealthKey (run_Backend r) (run_WorkerHost r) in
        match BackendHealth state !! key with
        | None => (false, state)
        | Some e =>
            if negb (String.eqb (bh_Status e) BackendStatusProbing) ||
               negb (String.eqb (bh_ProbeIssue e) identifier)
            then (false, state)
            else (true, state <| BackendHealth := base.delete key (BackendHealth state) |>)
        end
  end.

Definition setBackendHold (state : State) (identifier : string) (hold : BackendHold) : State :=
  state <| BackendLimitedHolds := <[identifier := hold]> (BackendLimitedHolds state) |>.

Definition clearBackendHold (state : State) (identifier : string) : State :=
  state <| BackendLimitedHolds := base.delete identifier (BackendLimitedHolds state) |>.

(** In milliseconds. *)
Definition holdRetryDelay (state : State) (hold : BackendHold) (now : Time) : Z :=
  let floor := mul64 (Z.max (PollIntervalMs state) 1000) Millisecond in
  let d := Z.min (Z.max (time_sub (hold_Until hold) now) floor) rateLimitVendorDelayCap in
  Z.quot d Millisecond.

(** ** Histories of a breaker *)

Inductive HealthEvent :=
  | EvLimit (cfg : Config) (backend host identifier : string) (sig : option LimitSignal)
  | EvThrottle (backend host identifier : string) (sig : option LimitSignal)
  | EvAdvance
  | EvAdmit (key identifier : string)
  | EvSettle (run : option RunEntry) (identifier : string) (reason : TerminalReason).

Definition health_step (state : State) (now : Time) (ev : HealthEvent) : State :=
  match ev with
  | EvLimit cfg b h i sig => snd (recordBackendLimit cfg state b h i sig now)
  | EvThrottle b h i sig => snd (recordBackendThrottle state b h i sig now)
  | EvAdvance => snd (advanceBackendHealth state now)
  | EvAdmit key i => snd (admitBackendKey state key i now)
  | EvSettle r i reason => snd (settleBackendProbe state r i reason)
  end.

(** A history of timed events from [t0] on, the clock never going back. *)
Fixpoint health_run (state : State) (t : Time) (evs : list (Time * HealthEvent)) : State * Time :=
  match evs with
  | [] => (state, t)
  | (now, ev) :: evs' => health_run (health_step state now ev) now evs'
  end.

Fixpoint monotone (t : Time) (evs : list (Time * HealthEvent)) : Prop :=
  match evs with
  | [] => True
  | (now, _) :: evs' => t <= now /\ monotone now evs'
  end.

(** No breaker is open further ahead than the widest cap. *)
Definition bounded_at (t : Time) (state : State) : Prop :=
  forall key e, BackendHealth state !! key = Some e -> bh_LimitedUntil e <= t + backendCapSevenDay.

Lemma backendLimitCap_range k s l :
  Hour <= backendLimitCap k s l <= backendCapSevenDay.
Proof.
  unfold backendLimitCap. repeat case_match; by split.
Qed.

Lemma limit_until_bound cfg sig now :
  fst (limit_until cfg sig now)
    <= now + backendLimitCap (ls_Kind sig) (ls_Source sig) (ls_LimitType sig).
Proof.
  unfold limit_until. destruct (if _ || _ then _ else _) as [u k]. cbn.
  unfold clampLimitedUntil, time_after, time_add. case_match; lia.
Qed.

Lemma set_breaker_lookup state key e k :
  BackendHealth (set_breaker state key e) !! k = if decide (key = k) then Some e else BackendHealth state !! k.
Proof. cbn. apply lookup_insert. Qed.

(** What [recordBackendLimit] leaves under its key. *)
Lemma recordBackendLimit_entry cfg state b h i sig now st' :
  recordBackendLimit cfg state b h i sig now = (true, st') ->
  exists s e', sig = Some s /\
    st' = set_breaker state (BackendHealthKey b h) e' /\
    bh_Status e' = BackendStatusLimited /\ bh_ProbeIssue e' = "" /\
    bh_LimitedUntil e' =
      (if String.eqb (bh_Status (breaker state (BackendHealthKey b h))) BackendStatusLimited
       then Z.max (bh_LimitedUntil (breaker state (BackendHealthKey b h))) (fst (limit_until cfg s now))
       else fst (limit_until cfg s now)).
Proof.
  unfold recordBackendLimit. destruct sig as [s|]; [|done]. destruct (_ || _); [done|].
  destruct (limit_until cfg s now) as [until known] eqn:Hl.
  set (e := breaker state (BackendHealthKey b h)). unfold time_after.
  destruct (String.eqb (bh_Status e) BackendStatusLimited); cbn [andb].
  - destruct (Z.ltb_spec until (bh_LimitedUntil e)); intros [= <-];
      (eexists s, _; split; [done|]; split; [reflexivity|]; split; [done|]; split; [done|]);
      rewrite Hl; cbn [fst].
    + change (bh_LimitedUntil e = Z.max (bh_LimitedUntil e) until). lia.
    + change (until = Z.max (bh_LimitedUntil e) until). lia.
  - intros [= <-]. eexists s, _. split; [done|]. split; [reflexivity|]. by rewrite Hl.
Qed.

Lemma recordBackendThrottle_entry state b h i sig now :
  snd (recordBackendThrottle state b h i sig now) = state \/
  exists e', snd (recordBackendThrottle state b h i sig now)
      = set_breaker state (BackendHealthKey b h) e' /\
    (bh_LimitedUntil e' = bh_LimitedUntil (breaker state (BackendHealthKey b h)) \/
     bh_Status (breaker state (BackendHealthKey b h)) <> BackendStatusLimited /\
     bh_LimitedUntil e' <= now + backendThrottleMaxCooldown).
Proof.
  unfold recordBackendThrottle. destruct sig as [s|]; [|by left]. destruct (_ || _); [by left|].
  right. set (old := breaker state (BackendHealthKey b h)).
  set (e0 := if _ || _ then old <| bh_ThrottleWindowStart := now |> <| bh_ThrottleCount := 0 |> else old).
  assert (H0 : bh_LimitedUntil e0 = bh_LimitedUntil old /\ bh_Status e0 = bh_Status old).
  { unfold e0. by destruct (_ || _). }
  clearbody e0. destruct H0 as [Hu Hs]. cbn [bh_Status].
  destruct (String.eqb_spec (bh_Status e0) BackendStatusLimited) as [E|E].
  { cbn. rewrite E. cbn. eexists. split; [reflexivity|]. cbn. by left. }
  destruct (String.eqb_spec (bh_Status e0) BackendStatusProbing) as [E'|E'].
  { cbn. rewrite E'. cbn. eexists. split; [reflexivity|]. cbn. by left. }
  cbn. apply String.eqb_neq in E as F, E' as F'. rewrite F, F'. cbn.
  destruct (backendThrottleThreshold <=? _); cbn.
  - eexists. split; [reflexivity|]. right. split; [congruence|]. cbn. unfold time_add. lia.
  - destruct (negb _); cbn; (eexists; split; [reflexivity|]; by left).
Qed.

Lemma admit_cases state key i now :
  snd (admitBackendKey state key i now) = state \/
  exists e e', BackendHealth state !! key = Some e /\
    snd (admitBackendKey state key i now) = set_breaker state key e' /\
    bh_LimitedUntil e' = bh_LimitedUntil e /\ bh_Status e' = BackendStatusProbing /\
    bh_ProbeIssue e' = (if String.eqb (bh_Status e) BackendStatusProbing &&
                           negb (String.eqb (bh_ProbeIssue e) "")
                        then bh_ProbeIssue e else i).
Proof.
  unfold admitBackendKey. destruct (fst _); [by left|].
  destruct (BackendHealth state !! key) as [e|]; [|by left].
  destruct (String.eqb_spec (bh_Status e) BackendStatusLimited) as [E|E].
  - right. eexists e, _. split; [done|]. split; [reflexivity|]. rewrite E. by cbn.
  - destruct (String.eqb_spec (bh_Status e) BackendStatusProbing) as [E'|E']; [|by left].
    right. eexists e, _. split; [done|]. split; [reflexivity|].
    rewrite E'. change (String.eqb BackendStatusProbing BackendStatusProbing) with true.
    destruct (String.eqb (bh_ProbeIssue e) ""); by split_and!.
Qed.

Lemma settle_cases state r i reason :
  snd (settleBackendProbe state r i reason) = state \/
  exists key e, BackendHealth state !! key = Some e /\
    bh_Status e = BackendStatusProbing /\ bh_ProbeIssue e = i /\
    snd (settleBackendProbe state r i reason)
      = state <| BackendHealth := base.delete key (BackendHealth state) |>.
Proof.
  unfold settleBackendProbe. destruct r as [r|]; [|by left]. destruct (_ && _); [by left|].
  set (key := BackendHealthKey _ _).
  destruct (BackendHealth state !! key) as [e|] eqn:He; [|by left].
  destruct (String.eqb_spec (bh_Status e) BackendStatusProbing); [|by left].
  destruct (String.eqb_spec (bh_ProbeIssue e) i); [|by left].
  right. exists key, e. split_and!; [done|done|done|reflexivity].
Qed.

Lemma advance_entry_until live now e e' :
  advance_entry live now e = Some e' -> bh_LimitedUntil e' = bh_LimitedUntil e.
Proof. unfold advance_entry. repeat case_match; by intros [= <-]. Qed.

Lemma breaker_bound t state key :
  0 <= t -> bounded_at t state -> bh_LimitedUntil (breaker state key) <= t + backendCapSevenDay.
Proof.
  intros Ht H. unfold breaker. destruct (BackendHealth state !! key) as [e|] eqn:E; cbn.
  - by eapply H.
  - unfold zero_time, backendCapSevenDay, Hour, Minute, Second, Millisecond. lia.
Qed.

Lemma bounded_set t state key e :
  bounded_at t state -> bh_LimitedUntil e <= t + backendCapSevenDay ->
  bounded_at t (set_breaker state key e).
Proof.
  intros H He k x. rewrite set_breaker_lookup. destruct (decide _); [intros [= <-]; done|apply H].
Qed.

Lemma health_step_bounded t state now ev :
  0 <= t -> t <= now -> bounded_at t state -> bounded_at now (health_step state now ev).
Proof.
  intros H0 Hle Hb0.
  assert (Hb : bounded_at now state) by (intros k e He; specialize (Hb0 k e He); lia).
  clear Hb0. assert (Hnow : 0 <= now) by lia. clear H0 Hle.
  destruct ev as [cfg b h i sig|b h i sig| |key i|r i reason]; cbn [health_step].
  - destruct (recordBackendLimit cfg state b h i sig now) as [[] st'] eqn:E; cbn [snd].
    + apply recordBackendLimit_entry in E as (s & e' & _ & -> & _ & _ & Hu).
      apply bounded_set; [done|]. rewrite Hu.
      pose proof (limit_until_bound cfg s now).
      pose proof (backendLimitCap_range (ls_Kind s) (ls_Source s) (ls_LimitType s)).
      pose proof (breaker_bound now state (BackendHealthKey b h) Hnow Hb).
      destruct (String.eqb _ _); lia.
    + unfold recordBackendLimit in E. repeat (case_match; simplify_eq; try done).
  - destruct (recordBackendThrottle_entry state b h i sig now) as [->|(e' & -> & He)]; [done|].
    apply bounded_set; [done|]. destruct He as [-> |[_ He]]; [by apply breaker_bound|].
    assert (backendThrottleMaxCooldown <= backendCapSevenDay) by done. lia.
  - intros k e. cbn. rewrite lookup_omap. destruct (BackendHealth state !! k) as [x|] eqn:Hx; cbn; [|done].
    intros Ha%advance_entry_until. rewrite Ha. by eapply Hb.
  - destruct (admit_cases state key i now) as [->|(e & e' & He & -> & Hu & _)]; [done|].
    apply bounded_set; [done|]. rewrite Hu. by eapply Hb.
  - destruct (settle_cases state r i reason) as [->|(key & e & _ & _ & _ & ->)]; [done|].
    intros k x. cbn. rewrite lookup_delete_Some. intros [_ Hx]. by eapply Hb.
Qed.

Lemma health_run_bounded evs state t :
  0 <= t -> monotone t evs -> bounded_at t state ->
  bounded_at (snd (health_run state t evs)) (fst (health_run state t evs)).
Proof.
  revert state t. induction evs as [|[now ev] evs IH]; intros state t Ht Hm Hb; [done|].
  cbn in *. destruct Hm as [Hle Hm]. apply IH; [lia|done|]. by apply (health_step_bounded t).
Qed.

(** C20: a breaker always heals.  Through any history of limit and throttle
    signals, ticks, admissions and run exits, whatever resets the vendor
    published, no backend stays closed past 7 days and an hour after the last
    event: the first tick from then on half-opens it, and any issue is
    admitted unless another issue's probe is still running, retrying or
    resuming. *)
Theorem breaker_heals state t evs key identifier now
    (Ht : 0 <= t)
    (Hclock : monotone t evs)
    (Hstart : bounded_at t state)
    (Hlater : snd (health_run state t evs) + backendCapSevenDay <= now)
    (Hprobe : forall e, BackendHealth (fst (health_run state t evs)) !! key = Some e ->
       bh_Status e = BackendStatusProbing ->
       bh_ProbeIssue e ∉ live_identifiers (fst (health_run state t evs))) :
  fst (admitBackendKey (snd (advanceBackendHealth (fst (health_run state t evs)) now))
         key identifier now) = true.
Proof.
  pose proof (health_run_bounded evs state t Ht Hclock Hstart) as Hb.
  destruct (health_run state t evs) as [st T]. cbn [fst snd] in *.
  unfold admitBackendKey, backendKeyBlocked. cbn [advanceBackendHealth snd].
  change (BackendHealth (st <| BackendHealth := ?m |>)) with m.
  rewrite lookup_omap. destruct (BackendHealth st !! key) as [e|] eqn:He; cbn; [|done].
  specialize (Hb key e He). unfold advance_entry, time_before.
  destruct (String.eqb_spec (bh_Status e) BackendStatusLimited) as [E|E].
  { destruct (Z.ltb_spec now (bh_LimitedUntil e)); [lia|]. done. }
  destruct (String.eqb_spec (bh_Status e) BackendStatusProbing) as [E'|E'].
  { rewrite (bool_decide_eq_false_2 _ (Hprobe e eq_refl E')), andb_true_r.
    destruct (String.eqb_spec (bh_ProbeIssue e) "") as [P|P]; cbn; rewrite E'; cbn;
      rewrite ?P; done. }
  destruct (String.eqb_spec (bh_Status e) BackendStatusWarning) as [E''|E''].
  - destruct (_ <? _); cbn; [done|]. by rewrite E''.
  - apply String.eqb_neq in E, E'. cbn. by rewrite E, E'.
Qed.

(** The witness: a backend limited by a reset published for the year 2100. *)
Definition far_reset : LimitSignal :=
  MkLimitSignal LimitKindQuota LimitSourceText "" (66247804800 * Second) 0 "" 0 "" "" false.

Example breaker_heals_witness :
  fst (admitBackendKey (snd (advanceBackendHealth
         (fst (health_run empty_State 0
            [(Hour, EvLimit empty_config "claude" "" "ENG-1" (Some far_reset))]))
         (Hour + backendCapSevenDay))) "claude" "ENG-2" (Hour + backendCapSevenDay)) = true.
Proof.
  apply (breaker_heals empty_State 0
    [(Hour, EvLimit empty_config "claude" "" "ENG-1" (Some far_reset))]
    "claude" "ENG-2" (Hour + backendCapSevenDay)).
  - lia.
  - by split.
  - intros key e He. change (BackendHealth empty_State !! key) with ((∅ : gmap string BackendHealthEntry) !! key) in He.
    by rewrite lookup_empty in He.
  - by apply Z.leb_le.
  - intros e He Hs. vm_compute in He. injection He as <-. discriminate Hs.
Defined.

(** ** The half-open probe *)

(** [key] is probing and [holder] has the probe. *)
Definition probed_by (state : State) (key holder : string) : Prop :=
  exists e, BackendHealth state !! key = Some e /\
    bh_Status e = BackendStatusProbing /\ bh_ProbeIssue e = holder.

(** The events that may end the probe: a limit on the same key, or the
    holder's run coming to its end. *)
Definition ends_probe (key holder : string) (ev : HealthEvent) : Prop :=
  match ev with
  | EvLimit _ b h _ _ => BackendHealthKey b h = key
  | EvSettle _ i _ => i = holder
  | _ => False
  end.

Lemma health_step_live state now ev :
  live_identifiers (health_step state now ev) = live_identifiers state.
Proof.
  destruct ev as [cfg b h i sig|b h i sig| |key i|r i reason]; cbn [health_step].
  - destruct (recordBackendLimit cfg state b h i sig now) as [[] st'] eqn:E; cbn [snd].
    + by apply recordBackendLimit_entry in E as (s & e' & _ & -> & _).
    + unfold recordBackendLimit in E. repeat (case_match; simplify_eq; try done).
  - by destruct (recordBackendThrottle_entry state b h i sig now) as [->|(e' & -> & _)].
  - done.
  - by destruct (admit_cases state key i now) as [->|(e & e' & _ & -> & _)].
  - by destruct (settle_cases state r i reason) as [->|(key & e & _ & _ & _ & ->)].
Qed.

Lemma throttle_keeps_probe state b h i sig now key holder :
  probed_by state key holder ->
  probed_by (snd (recordBackendThrottle state b h i sig now)) key holder.
Proof.
  intros (e & He & Hs & Hp).
  assert (H : snd (recordBackendThrottle state b h i sig now) = state \/
    exists e', snd (recordBackendThrottle state b h i sig now)
        = set_breaker state (BackendHealthKey b h) e' /\
      (BackendHealthKey b h = key -> bh_Status e' = BackendStatusProbing /\ bh_ProbeIssue e' = holder)).
  { unfold recordBackendThrottle. destruct sig as [s|]; [|by left]. destruct (_ || _); [by left|].
    right. destruct (decide (BackendHealthKey b h = key)) as [->|Hne].
    - assert (Hb : breaker state key = e) by (unfold breaker; by rewrite He).
      rewrite Hb. cbv zeta.
      match goal with |- context [if ?c then ?x else e] => set (e0 := if c then x else e) end.
      assert (H0 : bh_Status e0 = BackendStatusProbing /\ bh_ProbeIssue e0 = holder).
      { unfold e0. by destruct (_ || _). }
      clearbody e0. destruct H0 as [H1 H2]. cbn. rewrite H1. cbn.
      eexists. split; [reflexivity|]. by cbn.
    - match goal with |- context [match ?p with pair _ _ => _ end] => destruct p as [e2 c] end.
      eexists. split; [reflexivity|]. done. }
  destruct H as [->|(e' & -> & H)]; [by exists e|].
  destruct (decide (BackendHealthKey b h = key)) as [E|E].
  - exists e'. rewrite set_breaker_lookup, decide_True by done. by split; [|apply H].
  - exists e. by rewrite set_breaker_lookup, decide_False.
Qed.

Lemma probe_step state now ev key holder :
  holder <> "" -> holder ∈ live_identifiers state -> ~ ends_probe key holder ev ->
  probed_by state key holder -> probed_by (health_step state now ev) key holder.
Proof.
  intros Hne Hlive Hev Hprobe. pose proof Hprobe as (e & He & Hs & Hp).
  destruct ev as [cfg b h i sig|b h i sig| |k i|r i reason]; cbn [health_step ends_probe] in *.
  - destruct (recordBackendLimit cfg state b h i sig now) as [[] st'] eqn:E; cbn [snd].
    + apply recordBackendLimit_entry in E as (s & e' & _ & -> & _). exists e.
      by rewrite set_breaker_lookup, decide_False.
    + unfold recordBackendLimit in E. repeat (case_match; simplify_eq; try done).
  - by apply throttle_keeps_probe.
  - exists e. cbn. rewrite lookup_omap, He. cbn. unfold advance_entry. rewrite Hs. cbn.
    rewrite Hp, (bool_decide_eq_true_2 _ Hlive), andb_false_r. done.
  - destruct (admit_cases state k i now) as [->|(x & x' & Hx & -> & _ & Hs' & Hp')]; [done|].
    destruct (decide (k = key)) as [->|Hk].
    + exists x'. rewrite set_breaker_lookup, decide_True by done. split; [done|]. split; [done|].
      assert (x = e) as -> by congruence. rewrite Hp', Hs, Hp. cbn.
      apply String.eqb_neq in Hne. by rewrite Hne.
    + exists e. by rewrite set_breaker_lookup, decide_False.
  - destruct (settle_cases state r i reason) as [->|(k & x & Hx & _ & Hxp & ->)]; [done|].
    exists e. cbn. rewrite lookup_delete_ne; [done|]. congruence.
Qed.

Lemma probe_run evs state t key holder :
  holder <> "" -> holder ∈ live_identifiers state ->
  Forall (fun p => ~ ends_probe key holder (snd p)) evs ->
  probed_by state key holder -> probed_by (fst (health_run state t evs)) key holder.
Proof.
  intros Hne. revert state t. induction evs as [|[now ev] evs IH]; intros state t Hlive Hev Hp; [done|].
  apply Forall_cons in Hev as [Hev Hevs]. cbn. apply IH; [|done|by apply probe_step].
  by rewrite health_step_live.
Qed.

(** Half-open means one probe.  Once an issue has been admitted on a
    limited or probing breaker it holds the probe until its run ends or the
    backend reports a limit again: until then, however often they try and
    whatever ticks and throttles come, every other issue is refused on that
    key and the holder is not. *)
Theorem single_probe state key holder now evs t other now'
    (Hname : holder <> "")
    (Hopen : exists e, BackendHealth state !! key = Some e /\
       (bh_Status e = BackendStatusLimited \/ bh_Status e = BackendStatusProbing))
    (Hadmitted : fst (admitBackendKey state key holder now) = true)
    (Hlive : holder ∈ live_identifiers state)
    (Hevents : Forall (fun p => ~ ends_probe key holder (snd p)) evs)
    (Hother : other <> holder) :
  let state' := fst (health_run (snd (admitBackendKey state key holder now)) t evs) in
  fst (admitBackendKey state' key other now') = false /\
  fst (admitBackendKey state' key holder now') = true.
Proof.
  cbn zeta. assert (Hp : probed_by (snd (admitBackendKey state key holder now)) key holder).
  { destruct Hopen as (e & He & Hs). unfold admitBackendKey, backendKeyBlocked in *.
    rewrite He in *. destruct Hs as [Hs|Hs]; rewrite Hs in *; cbn in *.
    - destruct (time_before now (bh_LimitedUntil e)); [done|]. cbn in *.
      eexists. cbn. rewrite lookup_insert_eq. split; [reflexivity|]. done.
    - destruct (String.eqb_spec (bh_ProbeIssue e) "") as [P|P]; cbn in *.
      + eexists. cbn. rewrite lookup_insert_eq. split; [reflexivity|]. done.
      + destruct (String.eqb_spec (bh_ProbeIssue e) holder) as [Q|Q]; cbn in *; [|done].
        eexists. cbn. rewrite lookup_insert_eq. split; [reflexivity|]. done. }
  assert (Hl : holder ∈ live_identifiers (snd (admitBackendKey state key holder now))).
  { change (snd (admitBackendKey state key holder now))
      with (health_step state now (EvAdmit key holder)). by rewrite health_step_live. }
  destruct (probe_run evs _ t key holder Hname Hl Hevents Hp) as (e & He & Hs & Hpi).
  set (st' := fst (health_run _ t evs)) in *. clearbody st'. clear Hadmitted.
  unfold admitBackendKey, backendKeyBlocked. rewrite He, Hs. cbn. rewrite Hpi.
  apply String.eqb_neq in Hname. rewrite Hname. cbn.
  assert (Hn : String.eqb holder other = false) by (by apply String.eqb_neq). rewrite Hn.
  by rewrite String.eqb_refl.
Qed.

Definition probe_state : State :=
  set_breaker (empty_State <| Running := {["i1" := zero_RunEntry <| run_Issue :=
      zero_Issue <| issue_Identifier := "ENG-1" |> |>]} |>) "claude"
    (zero_BackendHealthEntry <| bh_Status := BackendStatusLimited |> <| bh_LimitedUntil := 100 |>).

Example single_probe_witness :
  let state' := fst (health_run (snd (admitBackendKey probe_state "claude" "ENG-1" 200)) 200
      [(300, EvAdmit "claude" "ENG-2"); (400, EvAdvance)]) in
  fst (admitBackendKey state' "claude" "ENG-2" 500) = false /\
  fst (admitBackendKey state' "claude" "ENG-1" 500) = true.
Proof.
  apply (single_probe probe_state "claude" "ENG-1" 200
    [(300, EvAdmit "claude" "ENG-2"); (400, EvAdvance)] 200 "ENG-2" 500).
  - discriminate.
  - eexists. split; [vm_compute; reflexivity|by left].
  - vm_compute. reflexivity.
  - apply (bool_decide_unpack _). vm_compute. exact I.
  - repeat constructor; intros [].
  - discriminate.
Defined.
