(* ===== verification/AgentTurn.v ===== *)
(** * AgentTurn: what the runner makes of an agent's output
    (internal/agent/runner.go, events.go 128-241, limit_signal.go 130-163,
    input_detector.go)

    A turn's events are folded into one [TurnResult].  Whether a successful
    turn waits for a human is decided by a sentinel line or by the cues of its
    last paragraphs.  Parsing a line of JSON into an event is not modelled;
    the regular expression for a list item is spelled out. *)

From stdpp Require Import base gmap list strings.
From Stdlib Require Import Ascii.
From S2P Require Import Prelude BackendHealth.

Local Open Scope Z_scope.

(** ** Strings *)

Section replace.
Context (old new : string).

(** [strings.ReplaceAll s old new] for a non-empty [old]: [k] bytes of an
    occurrence are left to skip. *)
Fixpoint replace_skipping (k : nat) (s : string) : string :=
  match s with
  | EmptyString => EmptyString
  | String c s' =>
      match k with
      | S k => replace_skipping k s'
      | O => if has_prefix s old then new +:+ replace_skipping (String.length old - 1) s'
             else String c (replace_skipping 0 s')
      end
  end.
End replace.

Definition replace_all (s old new : string) : string := replace_skipping old new 0 s.

(** [strings.Split s sep] for a non-empty [sep]. *)
Fixpoint split_skipping (sep : string) (k : nat) (s : string) : list string :=
  match s with
  | EmptyString => [EmptyString]
  | String c s' =>
      match k with
      | S k => split_skipping sep k s'
      | O =>
          if has_prefix s sep then EmptyString :: split_skipping sep (String.length sep - 1) s'
          else match split_skipping sep 0 s' with
               | [] => [String c EmptyString]
               | w :: ws => String c w :: ws
               end
      end
  end.

Definition split_on (s sep : string) : list string := split_skipping sep 0 s.

Definition newline : ascii := "010"%char.
Definition nl : string := String newline EmptyString.
Definition crlf : string := String "013"%char nl.
Definition cr : string := String "013"%char EmptyString.

Definition containsAny (text : string) (cues : list string) : bool := existsb (contains text) cues.

(** ** The sentinel (events.go) *)

Definition InputRequiredSentinel : string := "<!-- itervox:needs-input -->".

Definition fence (trimmed : string) : bool := has_prefix trimmed "```" || has_prefix trimmed "~~~".

Fixpoint sentinel_in (inFence : bool) (lines : list string) : bool :=
  match lines with
  | [] => false
  | line :: lines =>
      let trimmed := trim_space line in
      if fence trimmed then sentinel_in (negb inFence) lines
      else if negb inFence && String.eqb trimmed InputRequiredSentinel then true
      else sentinel_in inFence lines
  end.

Definition IsSentinelInputRequired (text : string) : bool :=
  if String.eqb text "" then false
  else sentinel_in false (split_at newline (replace_all text crlf nl)).

(** ** Vendor limits seen during a turn (limit_signal.go 130-163) *)

Definition mergeLimit (prev next : option LimitSignal) : option LimitSignal :=
  match next with
  | None => prev
  | Some c =>
      if Terminal prev && negb (Terminal next) then prev
      else
        match prev with
        | None => Some c
        | Some p =>
            let no_reset := time_is_zero (ls_ResetsAt c) in
            Some (MkLimitSignal (ls_Kind c) (ls_Source c)
              (if String.eqb (ls_LimitType c) "" then ls_LimitType p else ls_LimitType c)
              (if no_reset then ls_ResetsAt p else ls_ResetsAt c)
              (if (ls_RetryAfter c =? 0) && (negb (Terminal next) || Terminal prev)
               then ls_RetryAfter p else ls_RetryAfter c)
              (if String.eqb (ls_Status c) "" then ls_Status p else ls_Status c)
              (if ls_HTTPStatus c =? 0 then ls_HTTPStatus p else ls_HTTPStatus c)
              (ls_ErrorCategory c) (ls_Message c)
              (if no_reset then ls_ResetZoneAssumed p else ls_ResetZoneAssumed c))
        end
  end.

(** ** A turn (runner.go) *)

Record UsageSnapshot := MkUsage { us_InputTokens : Z; us_CachedInputTokens : Z; us_OutputTokens : Z }.

Definition EventSystem : string := "system".
Definition EventAssistant : string := "assistant".
Definition EventResult : string := "result".

(** Without tool calls and the cost. *)
Record StreamEvent := MkStreamEvent {
  se_Type : string;
  se_SessionID : string;
  se_TextBlocks : list string;
  se_ResultText : string;
  se_Usage : UsageSnapshot;
  se_IsError : bool;
  se_IsInputRequired : bool;
  se_InProgress : bool;
  se_Limit : option LimitSignal;
}.

Record TurnResult := MkTurnResult {
  tr_SessionID : string;
  tr_InputTokens : Z;
  tr_CachedInputTokens : Z;
  tr_OutputTokens : Z;
  tr_TotalTokens : Z;
  tr_LastText : string;
  tr_AllTextBlocks : list string;
  tr_Failed : bool;
  tr_InputRequired : bool;
  tr_FailureText : string;
  tr_ResultText : string;
  tr_LastLimit : option LimitSignal;
}.

#[export] Instance eta_TurnResult : Settable TurnResult := {|
  eta_record r := MkTurnResult (tr_SessionID r) (tr_InputTokens r) (tr_CachedInputTokens r) (tr_OutputTokens r)
    (tr_TotalTokens r) (tr_LastText r) (tr_AllTextBlocks r) (tr_Failed r) (tr_InputRequired r) (tr_FailureText r)
    (tr_ResultText r) (tr_LastLimit r) |}.

Definition zero_TurnResult : TurnResult := MkTurnResult "" 0 0 0 0 "" [] false false "" "" None.

Definition add_usage (u : UsageSnapshot) (r : TurnResult) : TurnResult :=
  let r := r <| tr_InputTokens := add64 (tr_InputTokens r) (us_InputTokens u) |>
             <| tr_CachedInputTokens := add64 (tr_CachedInputTokens r) (us_CachedInputTokens u) |>
             <| tr_OutputTokens := add64 (tr_OutputTokens r) (us_OutputTokens u) |> in
  r <| tr_TotalTokens := add64 (tr_InputTokens r) (tr_OutputTokens r) |>.

Definition apply_assistant (r : TurnResult) (ev : StreamEvent) : TurnResult :=
  if se_InProgress ev then r
  else
    let r := add_usage (se_Usage ev) r in
    match last (se_TextBlocks ev) with
    | Some t => r <| tr_LastText := t |> <| tr_AllTextBlocks := tr_AllTextBlocks r ++ se_TextBlocks ev |>
    | None => r
    end.

Definition apply_result (r : TurnResult) (ev : StreamEvent) : TurnResult :=
  let r := add_usage (se_Usage ev) r in
  let r := if String.eqb (se_SessionID ev) "" then r else r <| tr_SessionID := se_SessionID ev |> in
  let r := if se_IsError ev then r <| tr_Failed := true |> <| tr_FailureText := se_ResultText ev |>
           else r <| tr_ResultText := se_ResultText ev |> in
  if se_IsInputRequired ev then r <| tr_InputRequired := true |> else r.

Definition ApplyEvent (r : TurnResult) (ev : StreamEvent) : TurnResult :=
  let r := r <| tr_LastLimit := mergeLimit (tr_LastLimit r) (se_Limit ev) |> in
  if String.eqb (se_Type ev) EventSystem then
    if String.eqb (tr_SessionID r) "" then r <| tr_SessionID := se_SessionID ev |> else r
  else if String.eqb (se_Type ev) EventAssistant then apply_assistant r ev
  else if String.eqb (se_Type ev) EventResult then apply_result r ev
  else r.

(** The text the sentinel is looked for in. *)
Definition combined_text (r : TurnResult) : string :=
  let blocks := String.concat nl (tr_AllTextBlocks r) in
  if String.eqb (tr_ResultText r) "" then blocks else blocks +:+ nl +:+ tr_ResultText r.

Definition FinalizeResult (r : TurnResult) : TurnResult :=
  if tr_InputRequired r then r
  else if bool_decide (tr_AllTextBlocks r = []) && String.eqb (tr_ResultText r) "" then r
  else if IsSentinelInputRequired (combined_text r) then r <| tr_InputRequired := true |> else r.

Definition run_turn (events : list StreamEvent) : TurnResult :=
  FinalizeResult (foldl ApplyEvent zero_TurnResult events).

(** ** What the fold computes *)

(** The events that carry tokens: completed messages and results. *)
Definition counted (ev : StreamEvent) : bool :=
  (String.eqb (se_Type ev) EventAssistant && negb (se_InProgress ev)) || String.eqb (se_Type ev) EventResult.

Definition is_result (ev : StreamEvent) : bool := String.eqb (se_Type ev) EventResult.

Definition sum_of (f : UsageSnapshot -> Z) (events : list StreamEvent) : Z :=
  foldr (fun ev n => if counted ev then f (se_Usage ev) + n else n) 0 events.

Definition texts (events : list StreamEvent) : list string :=
  concat (map (fun ev => if String.eqb (se_Type ev) EventAssistant && negb (se_InProgress ev)
                         then se_TextBlocks ev else []) events).

Lemma wrap64_add a b : wrap64 (wrap64 a + b) = wrap64 (a + b).
Proof.
  unfold wrap64. f_equal. replace ((a + 2 ^ 63) mod 2 ^ 64 - 2 ^ 63 + b + 2 ^ 63) with ((a + 2 ^ 63) mod 2 ^ 64 + b) by lia.
  rewrite Zplus_mod_idemp_l. f_equal. lia.
Qed.

Lemma sum_of_snoc f events ev :
  sum_of f (events ++ [ev]) = if counted ev then sum_of f events + f (se_Usage ev) else sum_of f events.
Proof.
  unfold sum_of. induction events as [|e events IH]; cbn.
  - destruct (counted ev); lia.
  - rewrite IH. destruct (counted e), (counted ev); lia.
Qed.

Lemma texts_snoc events ev :
  texts (events ++ [ev]) = texts events ++
    if String.eqb (se_Type ev) EventAssistant && negb (se_InProgress ev) then se_TextBlocks ev else [].
Proof. unfold texts. rewrite map_app, concat_app. cbn. by rewrite app_nil_r. Qed.

(** A limit, once seen, stays seen, and a quota outranks a throttle. *)
Definition quota_event (ev : StreamEvent) : bool := Terminal (se_Limit ev).

Lemma mergeLimit_terminal prev next : Terminal (mergeLimit prev next) = Terminal prev || Terminal next.
Proof.
  unfold mergeLimit. destruct next as [c|]; [|cbn; by rewrite orb_false_r].
  destruct (Terminal prev) eqn:Ep; destruct (Terminal (Some c)) eqn:Ec; cbn [andb negb orb]; try (by rewrite Ep).
  all: destruct prev as [p|]; [|done]; by rewrite <-Ec.
Qed.

(** What the result says of the events so far. *)
Record reads (events : list StreamEvent) (r : TurnResult) : Prop := {
  rd_input : tr_InputTokens r = wrap64 (sum_of us_InputTokens events);
  rd_cached : tr_CachedInputTokens r = wrap64 (sum_of us_CachedInputTokens events);
  rd_output : tr_OutputTokens r = wrap64 (sum_of us_OutputTokens events);
  rd_texts : tr_AllTextBlocks r = texts events;
  rd_failed : tr_Failed r = existsb (fun ev => is_result ev && se_IsError ev) events;
  rd_asked : tr_InputRequired r = existsb (fun ev => is_result ev && se_IsInputRequired ev) events;
  rd_quota : Terminal (tr_LastLimit r) = existsb quota_event events;
}.

Lemma existsb_snoc {A} (f : A -> bool) l x : existsb f (l ++ [x]) = existsb f l || f x.
Proof. rewrite existsb_app. cbn. by rewrite orb_false_r. Qed.

Lemma last_none_nil (l : list string) : last l = None -> l = [].
Proof. apply last_None. Qed.

Ltac read_snoc E :=
  constructor; cbn; rewrite ?sum_of_snoc, ?texts_snoc, ?existsb_snoc, ?mergeLimit_terminal;
  unfold counted, is_result, quota_event; rewrite ?E; cbn;
  rewrite ?orb_false_r, ?app_nil_r, ?orb_true_r; try done;
  unfold add64; rewrite ?wrap64_add; try congruence.

Lemma ApplyEvent_reads events r ev : reads events r -> reads (events ++ [ev]) (ApplyEvent r ev).
Proof.
  intros [Hi Hc Ho Ht Hf Ha Hq]. unfold ApplyEvent. cbn zeta.
  destruct (String.eqb (se_Type ev) EventSystem) eqn:Es.
  { apply String.eqb_eq in Es.
    destruct (String.eqb _ ""); read_snoc Es; by rewrite ?Hi, ?Hc, ?Ho, ?Ht, ?Hf, ?Ha, ?Hq. }
  destruct (String.eqb (se_Type ev) EventAssistant) eqn:Ea.
  { apply String.eqb_eq in Ea. unfold apply_assistant. destruct (se_InProgress ev) eqn:Ep.
    - read_snoc Ea; rewrite ?Ep; cbn; by rewrite ?Hi, ?Hc, ?Ho, ?Ht, ?Hf, ?Ha, ?Hq, ?app_nil_r.
    - cbn zeta. destruct (last (se_TextBlocks ev)) as [t|] eqn:El; read_snoc Ea; rewrite ?Ep; cbn;
        rewrite ?Hi, ?Hc, ?Ho, ?Ht, ?Hf, ?Ha, ?Hq, ?wrap64_add; try done.
      by rewrite (last_none_nil _ El), app_nil_r. }
  destruct (String.eqb (se_Type ev) EventResult) eqn:Er.
  { unfold apply_result. cbn zeta. destruct (String.eqb (se_SessionID ev) ""), (se_IsError ev) eqn:Ee, (se_IsInputRequired ev) eqn:Eq;
      constructor; cbn; rewrite ?sum_of_snoc, ?texts_snoc, ?existsb_snoc, ?mergeLimit_terminal;
      unfold counted, is_result, quota_event; rewrite ?Ea, ?Er, ?Ee, ?Eq; cbn;
      rewrite ?orb_false_r, ?app_nil_r, ?orb_true_r; unfold add64;
      rewrite ?Hi, ?Hc, ?Ho, ?Ht, ?Hf, ?Ha, ?Hq, ?wrap64_add; done. }
  constructor; rewrite ?sum_of_snoc, ?texts_snoc, ?existsb_snoc; cbn; rewrite ?mergeLimit_terminal;
    unfold counted, is_result, quota_event; rewrite ?Ea, ?Er; cbn;
    by rewrite ?Hi, ?Hc, ?Ho, ?Ht, ?Hf, ?Ha, ?Hq, ?orb_false_r, ?app_nil_r.
Qed.

(** The result of a turn's event stream counts every token of its completed
    messages and results (as an int does), holds every text block in order, is
    failed exactly when a result event was an error, carries a quota limit
    exactly when some event did, and asks for a human exactly when a result
    event says so or its text has the sentinel on a line of its own outside
    code fences. *)
Theorem turn_result_meaning events :
  let r := run_turn events in
  tr_InputTokens r = wrap64 (sum_of us_InputTokens events) /\
  tr_OutputTokens r = wrap64 (sum_of us_OutputTokens events) /\
  tr_AllTextBlocks r = texts events /\
  tr_Failed r = existsb (fun ev => is_result ev && se_IsError ev) events /\
  Terminal (tr_LastLimit r) = existsb quota_event events /\
  tr_InputRequired r =
    existsb (fun ev => is_result ev && se_IsInputRequired ev) events || IsSentinelInputRequired (combined_text r).
Proof.
  intros r. set (r0 := foldl ApplyEvent zero_TurnResult events).
  assert (H : reads events r0).
  { unfold r0. clear r0 r. induction events as [|ev events IH] using rev_ind; [by constructor|].
    rewrite foldl_app. by apply ApplyEvent_reads. }
  destruct H as [Hi Hc Ho Ht Hf Ha Hq]. unfold r, run_turn. fold r0. unfold FinalizeResult.
  destruct (tr_InputRequired r0) eqn:Er; [by rewrite <-Ha, Er|]. rewrite <-Ha. cbn [orb].
  destruct (bool_decide _ && _) eqn:En.
  - apply andb_true_iff in En as [En%bool_decide_eq_true En2].
    split_and!; try done. rewrite Er. unfold combined_text. by rewrite En2, En.
  - destruct (IsSentinelInputRequired (combined_text r0)) eqn:E; cbn; split_and!; try done.
    all: unfold combined_text in *; cbn; by rewrite ?E, ?Er.
Qed.
