(* ===== verification/Evidence.v ===== *)
(** * Evidence: proof of the checks before an issue moves on
    (internal/orchestrator/evidence_gate.go, config/evidence.go,
    workspace/pr.go 143-181)

    The answers of git and gh and the parsed evidence file are a record
    ([EvidenceEnv]). *)

From stdpp Require Import base gmap list strings.
From Stdlib Require Import Ascii.
From S2P Require Import Prelude AgentTurn.

Local Open Scope Z_scope.

(** ** Configuration *)

Definition EvidenceCheckCI : string := "ci".

(** The names in their order, each once. *)
Fixpoint normalize_checks (seen : list string) (checks : list string) : list string :=
  match checks with
  | [] => []
  | c :: checks =>
      let c := to_lower (trim_space c) in
      if String.eqb c "" || bool_decide (c ∈ seen) then normalize_checks seen checks
      else c :: normalize_checks (c :: seen) checks
  end.

Definition NormalizeEvidenceChecks (checks : list string) : list string := normalize_checks [] checks.

(** ** The answers *)

Record evidenceCheck := MkEvidenceCheck {
  ec_Name : string;
  ec_Command : string;
  ec_Output : string;
  ec_Passed : bool;
}.

Record evidenceFile := MkEvidenceFile { ef_Commit : string; ef_Checks : list evidenceCheck }.

Inductive FileRead := Unreadable | NotJSON (err : string) | Parsed (ev : evidenceFile).

(** [git rev-parse HEAD], [rev-parse --verify], [merge-base --is-ancestor],
    [diff --name-only] and [status]; [None] when the command failed.  The rows
    of [gh pr checks] are their buckets. *)
Record EvidenceEnv := MkEvidenceEnv {
  ev_file : string -> FileRead;
  ev_head : option string;
  ev_resolve : string -> option string;
  ev_ancestor : string -> string -> bool;
  ev_diff : string -> string -> option string;
  ev_status : option string;
  ev_checks : string -> string + list string;
}.

(** ** The stamp *)

Definition HandoffDirRelPath : string := ".itervox/handoff".
Definition EvidenceDirRelPath : string := ".itervox/evidence".

Definition isEvidenceBookkeeping (f : string) : bool :=
  has_prefix f (HandoffDirRelPath +:+ "/") || has_prefix f (EvidenceDirRelPath +:+ "/").

Definition is_hex (c : ascii) : bool :=
  let n := N_of_ascii c in ((48 <=? n) && (n <=? 57) || (97 <=? n) && (n <=? 102))%N.

(** [^[0-9a-f]{7,40}$]. *)
Definition evidenceCommitRe (s : string) : bool :=
  forallb is_hex (String.list_ascii_of_string s) && (7 <=? String.length s)%nat && (String.length s <=? 40)%nat.

Definition worktreeHEAD (env : EvidenceEnv) : string :=
  match ev_head env with Some out => to_lower (trim_space out) | None => "" end.

Definition own_change (f : string) : bool := String.eqb f "" || isEvidenceBookkeeping f.

Definition evidenceCoversHEAD (env : EvidenceEnv) (commit head : string) : bool :=
  if negb (evidenceCommitRe commit) then false
  else if has_prefix head commit then true
  else
    match ev_resolve env commit with
    | None => false
    | Some out =>
        let stamp := trim_space out in
        if negb (ev_ancestor env stamp head) then false
        else match ev_diff env stamp head with
             | None => false
             | Some changed => forallb own_change (split_at newline (trim_space changed))
             end
    end.

Definition nul : ascii := "000"%char.

(** The first tracked file with a change that is not bookkeeping. *)
Definition uncommittedChange (env : EvidenceEnv) : string :=
  match ev_status env with
  | None => "(git status failed)"
  | Some out =>
      match List.find (fun rec => (4 <=? String.length rec)%nat && negb (isEvidenceBookkeeping (drop_bytes 3 rec)))
              (split_at nul out) with
      | Some rec => drop_bytes 3 rec
      | None => ""
      end
  end.

(** ** The gate *)

Definition tick (s : string) : string := "`" +:+ s +:+ "`".

(** An entry counts with a command and an output. *)
Definition entry_passes (c : evidenceCheck) : bool :=
  ec_Passed c && negb (String.eqb (trim_space (ec_Command c)) "") && negb (String.eqb (trim_space (ec_Output c)) "").

Definition passing (ev : evidenceFile) : list string :=
  map (fun c => to_lower (trim_space (ec_Name c))) (filter (fun c => entry_passes c = true) (ef_Checks ev)).

(** The passing names, or why the whole file does not count. *)
Definition readEvidenceFile (env : EvidenceEnv) (relPath : string) : list string + string :=
  match ev_file env relPath with
  | Unreadable => inr ("no evidence file at " +:+ tick relPath)
  | NotJSON err => inr (tick relPath +:+ " is not valid JSON (" +:+ err +:+ ")")
  | Parsed ev =>
      let head := worktreeHEAD env in
      if String.eqb head "" then inl (passing ev)
      else
        let commit := to_lower (trim_space (ef_Commit ev)) in
        if (String.length commit <? 7)%nat || negb (evidenceCoversHEAD env commit head)
        then inr ("the evidence in " +:+ tick relPath +:+ " is for commit " +:+ go_quote (ef_Commit ev)
                  +:+ ", not the current " +:+ take_bytes 12 head)
        else
          let dirty := uncommittedChange env in
          if negb (String.eqb dirty "")
          then inr (tick dirty +:+ " has uncommitted changes the evidence in " +:+ tick relPath
                    +:+ " does not cover; commit them and run the checks again")
          else inl (passing ev)
  end.

Record PRChecks := MkPRChecks { pc_Total : Z; pc_Passed : Z; pc_Pending : Z; pc_Failed : Z }.

Definition count_check (sum : PRChecks) (bucket : string) : PRChecks :=
  let '(MkPRChecks t p w f) := sum in
  if String.eqb bucket "pass" || String.eqb bucket "skipping" then MkPRChecks (t + 1) (p + 1) w f
  else if String.eqb bucket "pending" then MkPRChecks (t + 1) p (w + 1) f
  else MkPRChecks (t + 1) p w (f + 1).

(** The counts, or the error of reading them. *)
Definition ReadPRChecks (env : EvidenceEnv) (prURL : string) : PRChecks + string :=
  match ev_checks env prURL with
  | inl err => inr ("gh pr checks " +:+ prURL +:+ ": " +:+ err)
  | inr [] => inr ("gh pr checks " +:+ prURL +:+ ": no checks reported")
  | inr rows => inl (foldl count_check (MkPRChecks 0 0 0 0) rows)
  end.

Definition ci_missing (env : EvidenceEnv) (prURL : string) : list string :=
  if String.eqb prURL "" then ["`ci`: no pull request was found for this run"]
  else
    match ReadPRChecks env prURL with
    | inr err => ["`ci`: could not read the checks on " +:+ prURL +:+ " (" +:+ err +:+ ")"]
    | inl sum =>
        if 0 <? pc_Failed sum
        then ["`ci`: " +:+ format_d (pc_Failed sum) +:+ " of " +:+ format_d (pc_Total sum) +:+ " checks failed on " +:+ prURL]
        else if 0 <? pc_Pending sum
        then ["`ci`: " +:+ format_d (pc_Pending sum) +:+ " of " +:+ format_d (pc_Total sum) +:+ " checks still running on " +:+ prURL]
        else []
    end.

Definition file_missing (env : EvidenceEnv) (relPath : string) (fileChecks : list string) : list string :=
  match fileChecks with
  | [] => []
  | _ =>
      match readEvidenceFile env relPath with
      | inr reason => map (fun name => tick name +:+ ": " +:+ reason) fileChecks
      | inl passed =>
          map (fun name => tick name +:+ ": no passing entry with a command and output in " +:+ tick relPath)
            (filter (fun name => name ∉ passed) fileChecks)
      end
  end.

(** One reason for each unmet check; none when the issue may move on. *)
Definition checkEvidence (env : EvidenceEnv) (relPath : string) (required : list string) (prURL : string) : list string :=
  file_missing env relPath (filter (fun c => c <> EvidenceCheckCI) required)
  ++ (if bool_decide (EvidenceCheckCI ∈ required) then ci_missing env prURL else []).

Definition evidenceRelPathFor (profileName : string) : string :=
  let role := replace_all (trim_space profileName) " " "-" in
  EvidenceDirRelPath +:+ "/" +:+ (if String.eqb role "" then "agent" else role) +:+ ".json".

(** ** What passing means *)

(** The file counts: it names the commit that is checked out, or one from which
    only Itervox's own files changed, and nothing else is uncommitted. *)
Definition file_counts (env : EvidenceEnv) (ev : evidenceFile) : Prop :=
  let head := worktreeHEAD env in
  head = "" \/
  evidenceCommitRe (to_lower (trim_space (ef_Commit ev))) = true /\
  evidenceCoversHEAD env (to_lower (trim_space (ef_Commit ev))) head = true /\ uncommittedChange env = "".

Lemma readEvidenceFile_ok env relPath passed :
  readEvidenceFile env relPath = inl passed <->
  exists ev, ev_file env relPath = Parsed ev /\ file_counts env ev /\ passed = passing ev.
Proof.
  unfold readEvidenceFile, file_counts. destruct (ev_file env relPath) as [|err|ev]; [split; [done|by intros (? & ? & _)]..|].
  cbn zeta. set (commit := to_lower (trim_space (ef_Commit ev))).
  destruct (String.eqb_spec (worktreeHEAD env) "") as [Eh|Eh].
  { split; [intros [= <-]; exists ev; split_and!; auto|]. by intros (ev' & [= <-] & _ & ->). }
  destruct (evidenceCoversHEAD env commit (worktreeHEAD env)) eqn:Ec.
  - assert (Hre : evidenceCommitRe commit = true) by (unfold evidenceCoversHEAD in Ec; by destruct (evidenceCommitRe commit)).
    assert ((String.length commit <? 7)%nat = false) as ->.
    { unfold evidenceCommitRe in Hre. apply andb_true_iff in Hre as [[_ H]%andb_true_iff _].
      apply Nat.leb_le in H. apply Nat.ltb_ge. lia. }
    cbn [orb negb]. destruct (String.eqb_spec (uncommittedChange env) "") as [Ed|Ed]; cbn [negb].
    + split; [intros [= <-]; exists ev; split_and!; auto|]. by intros (ev' & [= <-] & _ & ->).
    + split; [done|]. intros (ev' & [= <-] & [|(_ & _ & ?)] & _); congruence.
  - subst commit. rewrite orb_true_r. split; [done|]. intros (ev' & [= <-] & [|(_ & ? & _)] & _); [done|congruence].
Qed.

Lemma count_check_sound rows t p w f :
  0 <= w -> 0 <= f ->
  let sum := foldl count_check (MkPRChecks t p w f) rows in
  w <= pc_Pending sum /\ f <= pc_Failed sum /\
  (pc_Pending sum = w /\ pc_Failed sum = f <-> Forall (fun b => b = "pass" \/ b = "skipping") rows).
Proof.
  revert t p w f. induction rows as [|b rows IH]; intros t p w f Hw Hf; cbn; [by repeat split; auto|].
  destruct (String.eqb_spec b "pass") as [->|Hp]; [|destruct (String.eqb_spec b "skipping") as [->|Hs]]; cbn [orb].
  1-2: destruct (IH (t + 1) (p + 1) w f Hw Hf) as (H1 & H2 & H3); split; [done|split; [done|]]; rewrite Forall_cons, H3;
    split; [intros ?; split; [by auto|done]|by intros [_ ?]].
  destruct (String.eqb_spec b "pending") as [->|Hn].
  - destruct (IH (t + 1) p (w + 1) f ltac:(lia) Hf) as (H1 & H2 & _). split; [lia|split; [done|]].
    split; [lia|]. intros [[|] _]%Forall_cons; done.
  - destruct (IH (t + 1) p w (f + 1) Hw ltac:(lia)) as (H1 & H2 & _). split; [done|split; [lia|]].
    split; [lia|]. intros [[|] _]%Forall_cons; done.
Qed.

(** The pull request's checks pass. *)
Definition ci_green (env : EvidenceEnv) (prURL : string) : Prop :=
  prURL <> "" /\ exists rows, ev_checks env prURL = inr rows /\ rows <> [] /\
    Forall (fun b => b = "pass" \/ b = "skipping") rows.

Lemma ci_missing_none env prURL : ci_missing env prURL = [] <-> ci_green env prURL.
Proof.
  unfold ci_missing, ci_green, ReadPRChecks. destruct (String.eqb_spec prURL "") as [|Hu]; [split; [done|by intros [? _]]|].
  destruct (ev_checks env prURL) as [err|rows]; [split; [done|by intros (_ & ? & ? & _)]|].
  destruct rows as [|b rows]; [split; [done|]; by intros (_ & ? & [= <-] & ? & _)|].
  destruct (count_check_sound (b :: rows) 0 0 0 0 ltac:(done) ltac:(done)) as (H1 & H2 & H3).
  set (sum := foldl count_check _ _) in *. cbn zeta in *.
  split.
  - intros H. split; [done|]. exists (b :: rows). split_and!; [done|done|]. apply H3.
    destruct (Z.ltb_spec 0 (pc_Failed sum)); [done|]. destruct (Z.ltb_spec 0 (pc_Pending sum)); [done|]. lia.
  - intros (_ & rows' & [= <-] & _ & Hall). apply H3 in Hall as [-> ->]. done.
Qed.

