(* ===== verification/BackendGate.v ===== *)
(** * BackendGate: admission of a dispatch and declarative fallback
    (internal/orchestrator/backend_gate.go)

    [gateDispatch] resolves the target, asks the breakers of its backend host
    by host, then those of the fallback chain, and records a hold when nobody
    admits it. *)

From stdpp Require Import base gmap list strings.
From S2P Require Import Prelude Domain State Config Dispatch Resolve BackendHealth.

(** ** Data *)

Record gateRequest := MkGateRequest {
  gq_identifier : string;
  gq_in : dispatchTargetInput;
  gq_profileName : string;
  gq_host : string;
  gq_hosts : list string;
  gq_allowReroute : bool;
  (** [None]: a nil callback; [Some b]: the answer it gives when asked. *)
  gq_rerouteAllowed : option bool;
}.

Record gateResult := MkGateResult {
  gr_target : dispatchTarget;
  gr_profileName : string;
  gr_host : string;
  gr_rerouted : bool;
  gr_fromBackend : string;
  gr_fromProfile : string;
  gr_fromKey : string;
  gr_held : bool;
  gr_hold : BackendHold;
}.

Definition no_hold : BackendHold := MkBackendHold "" zero_time.

Definition AutoSwitchSourceAutomation : string := "automation".
Definition AutoSwitchSourceBackendFallback : string := "backend_fallback".

(** ** Fallback targets (139-243) *)

Definition fallback (cfg : Config) : BackendFallbackConfig := agent_BackendFallback (cfg_Agent cfg).

Definition profileKeyToName (cfg : Config) (key : string) : string :=
  if negb (String.eqb key BackendFallbackDefaultProfileKey) then key
  else if bool_decide (is_Some (agent_Profiles (cfg_Agent cfg) !! key)) then key else "".

Definition profileKeyBackend (cfg : Config) (key defaultCommand : string) : string :=
  match agent_Profiles (cfg_Agent cfg) !! key with
  | None =>
      if String.eqb key BackendFallbackDefaultProfileKey
      then BackendFromCommand defaultCommand else ""
  | Some p => ProfileRunsBackend p defaultCommand
  end.

(** The loop over the sorted sources of [profile_map]. *)
Fixpoint fallback_sources (cfg : Config) (profile b defaultCommand : string)
    (sources : list string) : option string :=
  match sources with
  | [] => None
  | src :: rest =>
      let row := default ∅ (fb_ProfileMap (fallback cfg) !! src) in
      let isTarget := existsb (fun kv => negb (String.eqb (snd kv) "") && String.eqb (snd kv) profile)
                        (map_to_list row) in
      if negb isTarget then fallback_sources cfg profile b defaultCommand rest
      else if String.eqb (profileKeyBackend cfg src defaultCommand) b
      then Some (profileKeyToName cfg src)
      else
        let name := default "" (row !! b) in
        if negb (String.eqb name "") && negb (String.eqb name profile)
        then Some (profileKeyToName cfg name)
        else fallback_sources cfg profile b defaultCommand rest
  end.

(** [None]: not mapped; [Some ""]: the default command. *)
Definition fallbackProfileFor (cfg : Config) (profile b defaultCommand : string) : option string :=
  let name := Lookup (fallback cfg) profile b in
  if negb (String.eqb name "") then Some (profileKeyToName cfg name)
  else
    let sources := sort_strings (map fst (map_to_list (fb_ProfileMap (fallback cfg)))) in
    fallback_sources cfg profile b defaultCommand sources.

Definition fallbackTarget (cfg : Config) (req : gateRequest) (b : string) :
    option (dispatchTarget * string) :=
  match fallbackProfileFor cfg (gq_profileName req) b (in_DefaultCommand (gq_in req)) with
  | Some name =>
      let base := MkTargetInput (in_DefaultCommand (gq_in req)) (in_DefaultBackend (gq_in req))
                    None "" "" in
      let input :=
        if String.eqb name "" then Some base
        else match agent_Profiles (cfg_Agent cfg) !! name with
             | Some p => if ProfileEnabled p then Some (base <| in_Profile := Some p |>) else None
             | None => None
             end in
      match input with
      | None => None
      | Some i =>
          let alt := resolveDispatchTarget i in
          if negb (String.eqb (dt_Backend alt) b) then None else Some (alt, name)
      end
  | None =>
      if String.eqb (fb_OnUnmapped (fallback cfg)) BackendFallbackUnmappedBackendHint then
        let i := gq_in req <| in_IssueBackend := b |> <| in_RecoveryBackend := "" |> in
        let alt := resolveDispatchTarget i in
        if negb (String.eqb (dt_Backend alt) b) || bool_decide (is_Some (dt_Reason alt))
        then None else Some (alt, gq_profileName req)
      else None
  end.

(** ** The gate (63-137) *)

Definition hostCandidates (host : string) (hosts : list string) : list string :=
  host :: filter (fun h => h <> host) hosts.

(** The closure [consider]. *)
Definition consider (state : State) (identifier : string) (now : Time) (key : string)
    (hold : BackendHold) : BackendHold :=
  let until := snd (backendKeyBlocked state key identifier now) in
  if String.eqb (hold_Key hold) "" || time_before until (hold_Until hold)
  then MkBackendHold key until else hold.

(** The closure [admit] of [gateDispatch]: the admitting host, the state and the hold so far. *)
Fixpoint admit_hosts (backend identifier : string) (now : Time) (hosts : list string)
    (state : State) (hold : BackendHold) : option string * State * BackendHold :=
  match hosts with
  | [] => (None, state, hold)
  | h :: rest =>
      let key := BackendHealthKey backend h in
      let '(ok, state') := admitBackendKey state key identifier now in
      if ok then (Some h, state', hold)
      else admit_hosts backend identifier now rest state' (consider state' identifier now key hold)
  end.

Definition admitBackend (req : gateRequest) (now : Time) (backend : string) (state : State)
    (hold : BackendHold) : option string * State * BackendHold :=
  admit_hosts backend (gq_identifier req) now (hostCandidates (gq_host req) (gq_hosts req)) state hold.

(** The loop over the fallback chain.  [allowed] and [asked] are the two
    flags of the switch-cap question. *)
Fixpoint fallback_loop (cfg : Config) (req : gateRequest) (now : Time) (t : dispatchTarget)
    (chain : list string) (allowed asked : bool) (state : State) (hold : BackendHold) :
    option gateResult * State * BackendHold :=
  match chain with
  | [] => (None, state, hold)
  | b :: rest =>
      if String.eqb b (dt_Backend t) then fallback_loop cfg req now t rest allowed asked state hold
      else
        match fallbackTarget cfg req b with
        | None => fallback_loop cfg req now t rest allowed asked state hold
        | Some (alt, altProfile) =>
            let '(asked, allowed) :=
              if negb asked && negb allowed
              then (true, default false (gq_rerouteAllowed req)) else (asked, allowed) in
            if negb allowed then (None, state, hold)
            else
              match admitBackend req now b state hold with
              | (Some h, state', hold') =>
                  (Some (MkGateResult alt altProfile h true (dt_Backend t) (gq_profileName req)
                           (BackendHealthKey (dt_Backend t) (gq_host req)) false no_hold),
                   clearBackendHold state' (gq_identifier req), hold')
              | (None, state', hold') => fallback_loop cfg req now t rest allowed asked state' hold'
              end
        end
  end.

Definition gateDispatch (cfg : Config) (state : State) (req : gateRequest) (now : Time) :
    gateResult * State :=
  let t := resolveDispatchTarget (gq_in req) in
  let res h := MkGateResult t (gq_profileName req) h false "" "" "" in
  match admitBackend req now (dt_Backend t) state no_hold with
  | (Some h, state', _) => (res h false no_hold, clearBackendHold state' (gq_identifier req))
  | (None, state', hold) =>
      let '(rerouted, state'', hold') :=
        if gq_allowReroute req && fb_Enabled (fallback cfg) then
          fallback_loop cfg req now t (fb_Chain (fallback cfg))
            (bool_decide (gq_rerouteAllowed req = None)) false state' hold
        else (None, state', hold) in
      match rerouted with
      | Some r => (r, state'')
      | None => (res (gq_host req) true hold', setBackendHold state'' (gq_identifier req) hold')
      end
  end.

(** The gate touches nothing but breakers and holds. *)
Definition gate_only (s s' : State) : Prop :=
  exists bh holds, s' = s <| BackendHealth := bh |> <| BackendLimitedHolds := holds |>.

#[export] Instance gate_only_preorder : PreOrder gate_only.
Proof.
  split.
  - intros s. exists (BackendHealth s), (BackendLimitedHolds s). by destruct s.
  - intros s1 s2 s3 (b1 & h1 & ->) (b2 & h2 & ->). by exists b2, h2.
Qed.

Lemma gate_only_health s bh : gate_only s (s <| BackendHealth := bh |>).
Proof. exists bh, (BackendLimitedHolds s). by destruct s. Qed.

Lemma gate_only_holds s holds : gate_only s (s <| BackendLimitedHolds := holds |>).
Proof. exists (BackendHealth s), holds. by destruct s. Qed.

#[export] Hint Resolve gate_only_health gate_only_holds : itervox.

Lemma gate_only_admit_key s key i now : gate_only s (snd (admitBackendKey s key i now)).
Proof. unfold admitBackendKey, set_breaker. repeat case_match; cbn [snd]; auto with itervox; reflexivity. Qed.

Lemma gate_only_clear s i : gate_only s (clearBackendHold s i).
Proof. unfold clearBackendHold; auto with itervox. Qed.

Lemma gate_only_hold s i h : gate_only s (setBackendHold s i h).
Proof. unfold setBackendHold; auto with itervox. Qed.

#[export] Hint Resolve gate_only_admit_key gate_only_clear gate_only_hold : itervox.

Lemma gate_only_admit_hosts b i now hosts s hold r s' hold' :
  admit_hosts b i now hosts s hold = (r, s', hold') -> gate_only s s'.
Proof.
  revert s hold. induction hosts as [|h hosts IH]; intros s hold; cbn [admit_hosts].
  { by intros [= <- <- <-]. }
  pose proof (gate_only_admit_key s (BackendHealthKey b h) i now) as Hk.
  destruct (admitBackendKey s (BackendHealthKey b h) i now) as [[] s1]; cbn [snd] in Hk.
  - by intros [= <- <- <-].
  - intros Hr. etransitivity; [exact Hk|]. eauto.
Qed.

Lemma gate_only_fallback cfg req now t chain allowed asked s hold r s' hold' :
  fallback_loop cfg req now t chain allowed asked s hold = (r, s', hold') -> gate_only s s'.
Proof.
  revert allowed asked s hold. induction chain as [|b chain IH]; intros allowed asked s hold;
    cbn [fallback_loop]; [by intros [= <- <- <-]|].
  destruct (String.eqb b (dt_Backend t)); [eauto|].
  destruct (fallbackTarget cfg req b) as [[alt name]|]; [|eauto].
  destruct (if negb asked && negb allowed then _ else _) as [asked' allowed'].
  destruct (negb allowed'); [by intros [= <- <- <-]|].
  destruct (admitBackend req now b s hold) as [[[h|] s1] hold1] eqn:Ha;
    apply gate_only_admit_hosts in Ha.
  - intros [= <- <- <-]. etransitivity; [exact Ha|apply gate_only_clear].
  - intros Hr. etransitivity; [exact Ha|]. eauto.
Qed.

Lemma gate_dispatch_only cfg s req now : gate_only s (snd (gateDispatch cfg s req now)).
Proof.
  unfold gateDispatch.
  destruct (admitBackend req now _ s no_hold) as [[[h|] s1] hold1] eqn:Ha;
    apply gate_only_admit_hosts in Ha.
  - etransitivity; [exact Ha|apply gate_only_clear].
  - destruct (if gq_allowReroute req && _ then _ else _) as [[r s2] hold2] eqn:Hl.
    assert (H2 : gate_only s s2).
    { etransitivity; [exact Ha|]. destruct (gq_allowReroute req && _).
      - by eapply gate_only_fallback.
      - by injection Hl as <- <- <-. }
    destruct r; cbn [snd]; [exact H2|]. etransitivity; [exact H2|apply gate_only_hold].
Qed.

(** ** Automatic switches (245-390) *)

Definition backendFallbackCovers (cfg : Config) (pin : gmap string string)
    (identifier profile backend : string) : bool :=
  if negb (fb_Enabled (fallback cfg)) ||
     negb (String.eqb (default "" (pin !! identifier)) "")
  then false
  else if String.eqb (fb_OnUnmapped (fallback cfg)) BackendFallbackUnmappedBackendHint then true
  else existsb (fun b => negb (String.eqb b backend) &&
         bool_decide (is_Some (fallbackProfileFor cfg profile b (agent_Command (cfg_Agent cfg)))))
         (fb_Chain (fallback cfg)).

Definition clearAutoSwitch (state : State) (identifier : string) : State :=
  state <| IssueProfiles := base.delete identifier (IssueProfiles state) |>
        <| IssueBackends := base.delete identifier (IssueBackends state) |>
        <| AutoSwitchedIdentifiers := AutoSwitchedIdentifiers state ∖ {[identifier]} |>
        <| AutoSwitchedAt := base.delete identifier (AutoSwitchedAt state) |>
        <| AutoSwitchInfo := base.delete identifier (AutoSwitchInfo state) |>.

Definition dwell (cfg : Config) : Duration := mul64 (fb_MinDwellMinutes (fallback cfg)) Minute.

Definition clearAutoSwitchOnSuccess (cfg : Config) (state : State) (identifier : string)
    (now : Time) : bool :=
  match AutoSwitchInfo state !! identifier with
  | None => true
  | Some rec =>
      if negb (String.eqb (asr_Source rec) AutoSwitchSourceBackendFallback) then true
      else if negb (String.eqb (fb_SwitchBack (fallback cfg)) BackendFallbackSwitchBackOnSuccess)
      then false
      else negb (time_before now (time_add (asr_SwitchedAt rec) (dwell cfg)))
  end.

(** One record of [revertBackendFallbackSwitches]. *)
Definition reverts (cfg : Config) (state : State) (now : Time) (rec : AutoSwitchRecord) : bool :=
  if negb (String.eqb (asr_Source rec) AutoSwitchSourceBackendFallback) ||
     time_before now (time_add (asr_SwitchedAt rec) (dwell cfg))
  then false
  else match BackendHealth state !! asr_FromKey rec with
       | Some e => negb (String.eqb (bh_Status e) BackendStatusLimited &&
                         time_before now (bh_LimitedUntil e))
       | None => true
       end.

Definition revert_step (cfg : Config) (now : Time) (acc : Z * State)
    (kv : string * AutoSwitchRecord) : Z * State :=
  let '(n, st) := acc in
  let '(ident, rec) := kv in
  if reverts cfg st now rec then (n + 1, clearAutoSwitch st ident) else (n, st).

Definition revertBackendFallbackSwitches (cfg : Config) (state : State) (now : Time) : Z * State :=
  if negb (fb_Enabled (fallback cfg)) ||
     negb (String.eqb (fb_SwitchBack (fallback cfg)) BackendFallbackSwitchBackAtReset)
  then (0, state)
  else
    foldl (revert_step cfg now) (0, state) (map_to_list (AutoSwitchInfo state)).

(** What the resolver would say of pinning an issue to a backend; the profile
    is the one the snapshot gives the issue. *)
Definition CheckIssueBackendPin (cfg : Config) (snap : State) (identifier backend : string) :
    option Refusal :=
  if String.eqb backend "" then None
  else
    let profileName := default "" (IssueProfiles snap !! identifier) in
    let profile :=
      match agent_Profiles (cfg_Agent cfg) !! profileName with
      | Some p => if negb (String.eqb profileName "") && ProfileEnabled p then Some p else None
      | None => None
      end in
    dt_Reason (resolveDispatchTarget
      (MkTargetInput (agent_Command (cfg_Agent cfg)) (agent_Backend (cfg_Agent cfg)) profile
         backend "")).

Definition BackendLimitedForProfile (cfg : Config) (snap : State) (profileKey : string)
    (now : Time) : string * Time * bool :=
  let backend := profileKeyBackend cfg profileKey (agent_Command (cfg_Agent cfg)) in
  if String.eqb backend "" then ("", zero_time, false)
  else
    let '(blocked, until) := backendKeyBlocked snap (BackendHealthKey backend "") "" now in
    (backend, until, blocked).

(** ** What the gate guarantees *)

Definition blocked (state : State) (now : Time) (identifier key : string) : Prop :=
  fst (backendKeyBlocked state key identifier now) = true.
Definition blocked_until (state : State) (now : Time) (identifier key : string) : Time :=
  snd (backendKeyBlocked state key identifier now).

(** The keys of a backend the gate asks for a request. *)
Definition candidate_keys (req : gateRequest) (backend : string) : list string :=
  map (BackendHealthKey backend) (hostCandidates (gq_host req) (gq_hosts req)).

(** A hold names a breaker that refuses, and when it stops. *)
Definition hold_ok (state : State) (now : Time) (identifier : string) (hold : BackendHold) : Prop :=
  hold_Key hold <> "" ->
  blocked state now identifier (hold_Key hold) /\
  hold_Until hold = blocked_until state now identifier (hold_Key hold).

Lemma admit_refused state key i now state' :
  admitBackendKey state key i now = (false, state') -> state' = state /\ blocked state now i key.
Proof.
  unfold admitBackendKey, blocked. destruct (fst _); [by intros [= <-]|].
  repeat case_match; intros; simplify_eq.
Qed.

Lemma admit_accepted state key i now state' :
  admitBackendKey state key i now = (true, state') ->
  ~ blocked state now i key /\ BackendLimitedHolds state' = BackendLimitedHolds state.
Proof.
  unfold admitBackendKey, blocked. destruct (fst _); [done|].
  repeat case_match; intros; simplify_eq; by split.
Qed.

Lemma blocked_entry state now i key :
  blocked state now i key ->
  exists e, BackendHealth state !! key = Some e /\
    ((bh_Status e = BackendStatusLimited /\ now < bh_LimitedUntil e) \/
     (bh_Status e = BackendStatusProbing /\ bh_ProbeIssue e <> "" /\ bh_ProbeIssue e <> i)).
Proof.
  unfold blocked, backendKeyBlocked, time_before. destruct (BackendHealth state !! key) as [e|]; [|done].
  intros H. exists e. split; [done|].
  destruct (String.eqb_spec (bh_Status e) BackendStatusLimited).
  { left. destruct (Z.ltb_spec now (bh_LimitedUntil e)); [by split|done]. }
  destruct (String.eqb_spec (bh_Status e) BackendStatusProbing); [|done].
  right. destruct (String.eqb_spec (bh_ProbeIssue e) ""), (String.eqb_spec (bh_ProbeIssue e) i);
    try done.
Qed.

Lemma consider_spec state i now key hold :
  key <> "" -> blocked state now i key -> hold_ok state now i hold ->
  let hold' := consider state i now key hold in
  hold_ok state now i hold' /\ hold_Key hold' <> "" /\
  hold_Until hold' <= blocked_until state now i key /\
  (hold_Key hold <> "" -> hold_Until hold' <= hold_Until hold).
Proof.
  intros Hk Hb Hok. unfold consider, time_before, hold_ok, blocked_until in *. cbn zeta.
  destruct (String.eqb_spec (hold_Key hold) "") as [E|E]; cbn [orb].
  - cbn. split_and!; [done|done|lia|done].
  - destruct (Z.ltb_spec (snd (backendKeyBlocked state key i now)) (hold_Until hold)); cbn.
    + split_and!; [done|done|lia|lia].
    + split_and!; [done|done|lia|lia].
Qed.

Section admission.
Context (state : State) (i : string) (now : Time).
(** The empty key has no breaker: no signal names an empty backend. *)
Context (Hnokey : BackendHealth state !! "" = None).

Lemma blocked_nonempty key : blocked state now i key -> key <> "".
Proof. intros (e & He & _)%blocked_entry ->. congruence. Qed.

Lemma admit_hosts_spec backend hosts hold r state' hold' :
  hold_ok state now i hold ->
  admit_hosts backend i now hosts state hold = (r, state', hold') ->
  match r with
  | Some h =>
      h ∈ hosts /\ ~ blocked state now i (BackendHealthKey backend h) /\
      BackendLimitedHolds state' = BackendLimitedHolds state
  | None =>
      state' = state /\ hold_ok state now i hold' /\
      (hold_Key hold <> "" -> hold_Key hold' <> "" /\ hold_Until hold' <= hold_Until hold) /\
      forall h, h ∈ hosts -> blocked state now i (BackendHealthKey backend h) /\
        hold_Key hold' <> "" /\
        hold_Until hold' <= blocked_until state now i (BackendHealthKey backend h)
  end.
Proof.
  revert hold. induction hosts as [|h hosts IH]; intros hold Hok; cbn [admit_hosts].
  { intros [= <- <- <-]. split_and!; [done|done|intros; by split|by intros h ?%elem_of_nil]. }
  destruct (admitBackendKey state (BackendHealthKey backend h) i now) as [[] st1] eqn:Ha.
  - intros [= <- <- <-]. apply admit_accepted in Ha as [? ?]. split_and!; [by left|done|done].
  - apply admit_refused in Ha as [-> Hb]. intros Hrun.
    destruct (consider_spec state i now _ hold (blocked_nonempty _ Hb) Hb Hok)
      as (Hok1 & Hne1 & Hle1 & Hmono1).
    specialize (IH _ Hok1 Hrun). destruct r as [h'|].
    + destruct IH as (? & ? & ?). split_and!; [by right|done|done].
    + destruct IH as (-> & Hok' & Hmono & Hall). destruct (Hmono Hne1) as [Hne' Hle'].
      split_and!; [done|done| |].
      * intros Hne. specialize (Hmono1 Hne). split; [done|lia].
      * intros x [->|Hx]%elem_of_cons; [|by apply Hall]. split_and!; [done|done|lia].
Qed.
End admission.

Lemma fallbackTarget_backend cfg req b alt name :
  fallbackTarget cfg req b = Some (alt, name) -> dt_Backend alt = b.
Proof.
  unfold fallbackTarget. destruct (fallbackProfileFor _ _ _ _).
  - destruct (if String.eqb s "" then _ else _) as [i|]; [|done].
    destruct (String.eqb_spec (dt_Backend (resolveDispatchTarget i)) b) as [E|E]; [|done].
    by intros [= <- <-].
  - destruct (String.eqb _ _); [|done].
    match goal with |- context [resolveDispatchTarget ?i] => set (t := resolveDispatchTarget i) end.
    destruct (String.eqb_spec (dt_Backend t) b) as [E|E]; [|done].
    destruct (negb true || _); [done|]. by intros [= <- <-].
Qed.

Definition reroute_allowed (req : gateRequest) : Prop := gq_rerouteAllowed req <> Some false.

Lemma fallback_loop_spec cfg req now t chain allowed asked state hold r state' hold' :
  BackendHealth state !! "" = None ->
  (allowed = true -> reroute_allowed req) ->
  hold_ok state now (gq_identifier req) hold ->
  fallback_loop cfg req now t chain allowed asked state hold = (r, state', hold') ->
  match r with
  | Some g =>
      exists b, b ∈ chain /\ b <> dt_Backend t /\ reroute_allowed req /\
        fallbackTarget cfg req b = Some (gr_target g, gr_profileName g) /\
        gr_host g ∈ hostCandidates (gq_host req) (gq_hosts req) /\
        ~ blocked state now (gq_identifier req) (BackendHealthKey b (gr_host g)) /\
        gr_held g = false /\ gr_rerouted g = true /\ gr_fromBackend g = dt_Backend t /\
        BackendLimitedHolds state' !! gq_identifier req = None
  | None =>
      state' = state /\ hold_ok state now (gq_identifier req) hold' /\
      (hold_Key hold <> "" -> hold_Key hold' <> "" /\ hold_Until hold' <= hold_Until hold)
  end.
Proof.
  intros Hnokey. revert allowed asked hold.
  induction chain as [|b chain IH]; intros allowed asked hold Hal Hok; cbn [fallback_loop].
  { intros [= <- <- <-]. split_and!; [done|done|by intros]. }
  assert (Hskip : fallback_loop cfg req now t chain allowed asked state hold = (r, state', hold') ->
    match r with
    | Some g =>
        exists b', b' ∈ b :: chain /\ b' <> dt_Backend t /\ reroute_allowed req /\
          fallbackTarget cfg req b' = Some (gr_target g, gr_profileName g) /\
          gr_host g ∈ hostCandidates (gq_host req) (gq_hosts req) /\
          ~ blocked state now (gq_identifier req) (BackendHealthKey b' (gr_host g)) /\
          gr_held g = false /\ gr_rerouted g = true /\ gr_fromBackend g = dt_Backend t /\
          BackendLimitedHolds state' !! gq_identifier req = None
    | None =>
        state' = state /\ hold_ok state now (gq_identifier req) hold' /\
        (hold_Key hold <> "" -> hold_Key hold' <> "" /\ hold_Until hold' <= hold_Until hold)
    end).
  { intros H. specialize (IH _ _ _ Hal Hok H). destruct r; [|done].
    destruct IH as (b' & ? & ?). exists b'. split; [by right|done]. }
  destruct (String.eqb_spec b (dt_Backend t)) as [|Hne]; [done|].
  destruct (fallbackTarget cfg req b) as [[alt altProfile]|] eqn:Hft; [|done].
  clear Hskip.
  assert (Hask : exists asked' allowed',
    (if negb asked && negb allowed then (true, default false (gq_rerouteAllowed req))
     else (asked, allowed)) = (asked', allowed') /\ (allowed' = true -> reroute_allowed req)).
  { destruct asked, allowed; cbn; do 2 eexists; (split; [reflexivity|]); try done.
    unfold reroute_allowed. by destruct (gq_rerouteAllowed req) as [[]|]. }
  destruct Hask as (asked' & allowed' & -> & Hal').
  destruct allowed'; cbn [negb]; [|intros [= <- <- <-]; split_and!; [done|done|by intros]].
  destruct (admitBackend req now b state hold) as [[ho st1] hold1] eqn:Ha. unfold admitBackend in Ha.
  apply (admit_hosts_spec _ _ _ Hnokey) in Ha; [|done]. destruct ho as [h|].
  - intros [= <- <- <-]. destruct Ha as (Hh & Hb & _). exists b. cbn.
    split_and!; try done; [by left|by apply Hal'|apply lookup_delete_eq].
  - destruct Ha as (-> & Hok1 & Hmono1 & _). intros H.
    specialize (IH _ _ _ Hal' Hok1 H). destruct r.
    + destruct IH as (b' & ? & ?). exists b'. split; [by right|done].
    + destruct IH as (-> & Hok' & Hmono'). split_and!; [done|done|].
      intros Hk. destruct (Hmono1 Hk) as [Hk1 ?]. destruct (Hmono' Hk1). split; [done|lia].
Qed.

(** The fallback as the gate enters it: only when the request may be rerouted
    and the configuration enables it. *)
Lemma gated_fallback_spec cfg req now t state hold rr st2 hold2 :
  BackendHealth state !! "" = None ->
  hold_ok state now (gq_identifier req) hold -> hold_Key hold <> "" ->
  (if gq_allowReroute req && fb_Enabled (fallback cfg)
   then fallback_loop cfg req now t (fb_Chain (fallback cfg))
          (bool_decide (gq_rerouteAllowed req = None)) false state hold
   else (None, state, hold)) = (rr, st2, hold2) ->
  match rr with
  | Some g =>
      gq_allowReroute req = true /\ fb_Enabled (fallback cfg) = true /\ reroute_allowed req /\
      gr_held g = false /\ gr_rerouted g = true /\
      gr_host g ∈ hostCandidates (gq_host req) (gq_hosts req) /\
      ~ blocked state now (gq_identifier req)
          (BackendHealthKey (dt_Backend (gr_target g)) (gr_host g)) /\
      BackendLimitedHolds st2 !! gq_identifier req = None /\
      dt_Backend (gr_target g) ∈ fb_Chain (fallback cfg) /\
      dt_Backend (gr_target g) <> dt_Backend t
  | None =>
      st2 = state /\ hold_ok state now (gq_identifier req) hold2 /\
      hold_Key hold2 <> "" /\ hold_Until hold2 <= hold_Until hold
  end.
Proof.
  intros Hnokey Hok Hkey.
  destruct (gq_allowReroute req), (fb_Enabled (fallback cfg)); cbn [andb];
    try by (intros [= <- <- <-]; split_and!; [done|done|done|lia]).
  intros Hl. apply fallback_loop_spec in Hl; [|done| |done].
  2: { intros Hn%bool_decide_eq_true. unfold reroute_allowed. by rewrite Hn. }
  destruct rr as [g|].
  - destruct Hl as (b & Hb & Hne & Hal & Hft & Hh & Hbl & Hheld & Hre & _ & Hd).
    rewrite (fallbackTarget_backend _ _ _ _ _ Hft). by split_and!.
  - destruct Hl as (-> & Hok2 & Hmono). destruct (Hmono Hkey). by split_and!.
Qed.

Lemma held_active state now i hold :
  hold_Key hold <> "" -> hold_ok state now i hold ->
  backendHoldActive (setBackendHold state i hold) i = true.
Proof.
  intros Hk Hok. destruct (Hok Hk) as [(e & He & Hs)%blocked_entry _].
  unfold backendHoldActive. cbn. rewrite lookup_insert_eq, He.
  destruct Hs as [[-> _]|(-> & Hp & Hp')]; [done|]. cbn.
  apply String.eqb_neq in Hp, Hp'. by rewrite Hp, Hp'.
Qed.

Lemma hold_ineligible issue state cfg :
  backendHoldActive state (issue_Identifier issue) = true -> IneligibleReason issue state cfg <> "".
Proof.
  intros Ha Hr. unfold IneligibleReason in Hr. destruct (missing_fields issue); [done|].
  destruct (negb _); [done|]. apply shared_empty_dispatchable in Hr. destruct Hr. congruence.
Qed.

(** C19: the gate is sound and complete for what the breakers say.  A request
    it lets through has a host whose breaker admits it, and leaves no hold;
    when it was rerouted, fallback was on and allowed, the target's own
    breakers all refused, and the new target runs on a chain backend of its
    own.  A request it holds was refused by every breaker of its backend; the
    hold names a refusing breaker and lasts no longer than any of theirs, the
    breakers are untouched, and the issue is from then on not eligible. *)
Theorem gate_sound cfg state req now r state'
    (Hnokey : BackendHealth state !! "" = None)
    (Hrun : gateDispatch cfg state req now = (r, state')) :
  let t := resolveDispatchTarget (gq_in req) in
  let refused key := blocked state now (gq_identifier req) key in
  if gr_held r then
    gr_target r = t /\
    Forall refused (candidate_keys req (dt_Backend t)) /\
    Forall (fun key => hold_Until (gr_hold r) <= blocked_until state now (gq_identifier req) key)
      (candidate_keys req (dt_Backend t)) /\
    refused (hold_Key (gr_hold r)) /\
    BackendHealth state' = BackendHealth state /\
    BackendLimitedHolds state' = <[gq_identifier req := gr_hold r]> (BackendLimitedHolds state) /\
    (forall issue cfg', issue_Identifier issue = gq_identifier req ->
       IneligibleReason issue state' cfg' <> "")
  else
    gr_host r ∈ hostCandidates (gq_host req) (gq_hosts req) /\
    ~ refused (BackendHealthKey (dt_Backend (gr_target r)) (gr_host r)) /\
    BackendLimitedHolds state' !! gq_identifier req = None /\
    (if gr_rerouted r then
       gq_allowReroute req = true /\ fb_Enabled (fallback cfg) = true /\ reroute_allowed req /\
       Forall refused (candidate_keys req (dt_Backend t)) /\
       dt_Backend (gr_target r) ∈ fb_Chain (fallback cfg) /\
       dt_Backend (gr_target r) <> dt_Backend t
     else gr_target r = t).
Proof.
  cbn zeta. unfold gateDispatch, admitBackend in Hrun.
  set (t := resolveDispatchTarget (gq_in req)) in *.
  destruct (admit_hosts _ _ _ _ state no_hold) as [[ho st1] hold1] eqn:Ha.
  apply (admit_hosts_spec _ _ _ Hnokey) in Ha; [|done]. destruct ho as [h|].
  { destruct Ha as (Hh & Hb & _). injection Hrun as <- <-. cbn.
    split_and!; [done|done|apply lookup_delete_eq|done]. }
  destruct Ha as (-> & Hok & _ & Hall).
  assert (Href : Forall (fun key => blocked state now (gq_identifier req) key)
    (candidate_keys req (dt_Backend t))).
  { apply Forall_forall. intros k (h & -> & Hh)%elem_of_map. by apply Hall. }
  assert (Hhead : gq_host req ∈ hostCandidates (gq_host req) (gq_hosts req)) by (by left).
  pose proof (Hall _ Hhead) as (_ & Hkey1 & _).
  destruct (if gq_allowReroute req && _ then _ else _) as [[rr st2] hold2] eqn:Hloop.
  apply gated_fallback_spec in Hloop; [|done..].
  destruct rr as [g|]; injection Hrun as <- <-.
  - destruct Hloop as (Hreq & Hen & Hal & -> & -> & Hh & Hbl & Hd & Hb & Hne). by split_and!.
  - destruct Hloop as (-> & Hok2 & Hk2 & Hle2). cbn [gr_held gr_hold gr_target].
    split_and!; try done.
    + apply Forall_forall. intros k (h & -> & Hh)%elem_of_map.
      destruct (Hall h Hh) as (_ & _ & ?). lia.
    + by apply Hok2.
    + intros issue cfg' Hi. apply hold_ineligible. rewrite Hi. by apply (held_active _ now).
Qed.

Definition gate_state : State :=
  set_breaker empty_State "claude"
    (zero_BackendHealthEntry <| bh_Status := BackendStatusLimited |> <| bh_LimitedUntil := 900 |>).

Definition gate_request : gateRequest :=
  MkGateRequest "ENG-1" (MkTargetInput "claude" "" None "" "") "" "" [] true None.

(** A limited local claude holds the issue until its breaker half-opens. *)
Example gate_sound_witness :
  exists r state', gateDispatch empty_config gate_state gate_request 100 = (r, state') /\
    gr_held r = true /\ hold_Until (gr_hold r) = 900 /\
    Forall (fun key => blocked gate_state 100 "ENG-1" key) (candidate_keys gate_request "claude") /\
    forall issue cfg', issue_Identifier issue = "ENG-1" -> IneligibleReason issue state' cfg' <> "".
Proof.
  do 2 eexists. split; [reflexivity|].
  pose proof (gate_sound empty_config gate_state gate_request 100 _ _ eq_refl eq_refl) as H.
  destruct H as (_ & Href & _ & _ & _ & _ & Hin). split; [reflexivity|]. split; [reflexivity|].
  split; [exact Href|exact Hin].
Defined.

(** ** Switching back *)

(** Clearing overrides leaves the breakers alone, so the order of the loop
    over the map does not matter. *)
Lemma revert_fold cfg state now l n st :
  BackendHealth st = BackendHealth state ->
  let r := foldl (revert_step cfg now) (n, st) l in
  BackendHealth (snd r) = BackendHealth state /\
  forall ident,
    let cleared := Exists (fun kv => fst kv = ident /\ reverts cfg state now (snd kv) = true) l in
    (cleared -> AutoSwitchInfo (snd r) !! ident = None /\ IssueProfiles (snd r) !! ident = None /\
       IssueBackends (snd r) !! ident = None /\ AutoSwitchedAt (snd r) !! ident = None /\
       (ident ∉ AutoSwitchedIdentifiers (snd r))) /\
    (~ cleared -> AutoSwitchInfo (snd r) !! ident = AutoSwitchInfo st !! ident /\
       IssueProfiles (snd r) !! ident = IssueProfiles st !! ident /\
       IssueBackends (snd r) !! ident = IssueBackends st !! ident /\
       AutoSwitchedAt (snd r) !! ident = AutoSwitchedAt st !! ident /\
       (ident ∈ AutoSwitchedIdentifiers (snd r) <-> ident ∈ AutoSwitchedIdentifiers st)).
Proof.
  revert n st. induction l as [|[k rec] l IH]; intros n st Hbh.
  { cbn. split; [done|]. intros ident. split; [by intros ?%Exists_nil|]. intros _. by split_and!. }
  assert (Hr : reverts cfg st now rec = reverts cfg state now rec)
    by (unfold reverts; by rewrite Hbh).
  cbn [foldl revert_step]. rewrite Hr. destruct (reverts cfg state now rec) eqn:E.
  - destruct (IH (n + 1) (clearAutoSwitch st k) Hbh) as [Hbh' Hall]. split; [done|].
    intros ident. cbn zeta. rewrite Exists_cons. cbn [fst snd]. rewrite E.
    destruct (Hall ident) as [Hc Hn].
    assert (Hdec : Decision (Exists (fun kv : string * AutoSwitchRecord =>
      fst kv = ident /\ reverts cfg state now (snd kv) = true) l)) by apply _.
    destruct Hdec as [He|He].
    + split; [intros _; by apply Hc|]. intros Hno. by destruct Hno; right.
    + specialize (Hn He). destruct (decide (k = ident)) as [->|Hk].
      * split; [|intros Hno; by destruct Hno; left]. intros _.
        cbn in Hn. rewrite !lookup_delete_eq in Hn. destruct Hn as (-> & -> & -> & -> & Hn).
        split_and!; try done. rewrite Hn, elem_of_difference, elem_of_singleton. tauto.
      * split; [by intros [[? _]|?]|]. intros _.
        cbn in Hn. rewrite !lookup_delete_ne in Hn by done.
        destruct Hn as (-> & -> & -> & -> & Hn). split_and!; try done. rewrite Hn, elem_of_difference, elem_of_singleton. intuition congruence.
  - destruct (IH n st Hbh) as [Hbh' Hall]. split; [done|].
    intros ident. cbn zeta. rewrite Exists_cons. cbn [fst snd]. rewrite E.
    destruct (Hall ident) as [Hc Hn]. split.
    + intros [[_ ?]|?]; [done|by apply Hc].
    + intros Hno. apply Hn. intros ?. apply Hno. by right.
Qed.

(** With [switch_back: at_reset] an automatic reroute is undone on a tick
    exactly when it came from the fallback, has lasted its minimum dwell time,
    and the breaker it left is no longer limited; all traces of it go at once,
    and every other override stays as it was. *)
Theorem switch_back_at_reset cfg state now ident
    (Hon : fb_Enabled (fallback cfg) = true /\
       fb_SwitchBack (fallback cfg) = BackendFallbackSwitchBackAtReset) :
  let state' := snd (revertBackendFallbackSwitches cfg state now) in
  let undone := exists rec, AutoSwitchInfo state !! ident = Some rec /\
    asr_Source rec = AutoSwitchSourceBackendFallback /\
    asr_SwitchedAt rec + dwell cfg <= now /\
    ~ (exists e, BackendHealth state !! asr_FromKey rec = Some e /\
         bh_Status e = BackendStatusLimited /\ now < bh_LimitedUntil e) in
  (undone -> AutoSwitchInfo state' !! ident = None /\ IssueProfiles state' !! ident = None /\
     IssueBackends state' !! ident = None /\ (ident ∉ AutoSwitchedIdentifiers state')) /\
  (~ undone -> AutoSwitchInfo state' !! ident = AutoSwitchInfo state !! ident /\
     IssueProfiles state' !! ident = IssueProfiles state !! ident /\
     IssueBackends state' !! ident = IssueBackends state !! ident).
Proof.
  cbn zeta. destruct Hon as [Hen Hsb]. unfold revertBackendFallbackSwitches. rewrite Hen, Hsb. cbn [negb orb].
  change (negb (String.eqb BackendFallbackSwitchBackAtReset BackendFallbackSwitchBackAtReset)) with false.
  cbn match.
  destruct (revert_fold cfg state now (map_to_list (AutoSwitchInfo state)) 0 state eq_refl)
    as [_ Hall].
  destruct (Hall ident) as [Hc Hn]. clear Hall.
  assert (Hrev : forall rec, reverts cfg state now rec = true <->
    asr_Source rec = AutoSwitchSourceBackendFallback /\
    asr_SwitchedAt rec + dwell cfg <= now /\
    ~ (exists e, BackendHealth state !! asr_FromKey rec = Some e /\
         bh_Status e = BackendStatusLimited /\ now < bh_LimitedUntil e)).
  { intros rec. unfold reverts, time_before, time_add.
    destruct (String.eqb_spec (asr_Source rec) AutoSwitchSourceBackendFallback) as [S|S];
      cbn [negb orb]; [|naive_solver].
    destruct (Z.ltb_spec now (asr_SwitchedAt rec + dwell cfg)); [naive_solver lia|].
    destruct (BackendHealth state !! asr_FromKey rec) as [e|]; [|naive_solver].
    destruct (String.eqb_spec (bh_Status e) BackendStatusLimited); cbn [andb negb]; [|naive_solver].
    destruct (Z.ltb_spec now (bh_LimitedUntil e)); cbn; naive_solver lia. }
  assert (Hex : Exists (fun kv => fst kv = ident /\ reverts cfg state now (snd kv) = true)
      (map_to_list (AutoSwitchInfo state)) <->
    exists rec, AutoSwitchInfo state !! ident = Some rec /\ reverts cfg state now rec = true).
  { rewrite Exists_exists. split.
    - intros ([k rec] & Hin%elem_of_map_to_list & <- & Hr). by exists rec.
    - intros (rec & Hl & Hr). exists (ident, rec). by rewrite elem_of_map_to_list. }
  rewrite Hex in Hc, Hn. setoid_rewrite Hrev in Hc. setoid_rewrite Hrev in Hn.
  split; [intros Hu; destruct (Hc Hu) as (? & ? & ? & _ & ?)
         |intros Hu; destruct (Hn Hu) as (? & ? & ? & _)]; by split_and!.
Qed.

Definition switched_state : State :=
  empty_State <| AutoSwitchInfo := {["ENG-1" := MkAutoSwitchRecord AutoSwitchSourceBackendFallback
                    "claude" "" "codex" "" "limited" "claude" 100]} |>
              <| IssueBackends := {["ENG-1" := "codex"]} |>.

Definition at_reset_config : Config :=
  empty_config <| cfg_Agent := cfg_Agent empty_config
    <| agent_BackendFallback := MkBackendFallbackConfig true ["claude"; "codex"] ∅ "" 0 1
                                  BackendFallbackSwitchBackAtReset |> |>.

Example switch_back_at_reset_witness :
  let state' := snd (revertBackendFallbackSwitches at_reset_config switched_state (2 * Minute)) in
  AutoSwitchInfo state' !! "ENG-1" = None /\ IssueProfiles state' !! "ENG-1" = None /\
  IssueBackends state' !! "ENG-1" = None /\ ("ENG-1" ∉ AutoSwitchedIdentifiers state').
Proof.
  apply (switch_back_at_reset at_reset_config switched_state (2 * Minute) "ENG-1");
    [by split|].
  eexists. split; [reflexivity|]. split; [reflexivity|]. split; [by apply Z.leb_le|].
  intros (e & He & _). discriminate He.
Defined.
