(* ===== verification/AutomationQueue.v ===== *)
(** * AutomationQueue: automations that wait for a slot
    (internal/orchestrator/automation_queue.go, janitor.go pruneAutomationQueue)

    The queue is the map [AutomationQueue] with its order
    [AutomationQueueOrder]; [QueueBackpressure] carries the producers' pause
    flag.  An entry reached through a Go pointer is the map's entry. *)

From stdpp Require Import base gmap list strings.
From Stdlib Require Import Ascii.
From S2P Require Import Prelude Domain State Config Dispatch Resolve BackendHealth BackendGate.

(** ** Names *)

Definition AutomationTriggerInputRequired : string := "input_required".
Definition AutomationTriggerTrackerComment : string := "tracker_comment_added".
Definition AutomationTriggerIssueEnteredState : string := "issue_entered_state".
Definition AutomationTriggerIssueMovedBacklog : string := "issue_moved_to_backlog".
Definition AutomationTriggerRunFailed : string := "run_failed".
Definition AutomationTriggerPROpened : string := "pr_opened".
Definition AutomationTriggerRateLimited : string := "rate_limited".
Definition AutomationTriggerBlockersResolved : string := "blockers_resolved".
Definition TestAutomationTriggerType : string := "test".

Definition AutomationQueueReasonNoSlots : string := "no_slots".
Definition AutomationQueueReasonPerStateLimit : string := "per_state_limit".
Definition AutomationQueueReasonAlreadyRunning : string := "already_running".
Definition AutomationQueueReasonClaimed : string := "claimed".
Definition AutomationQueueReasonInputRequired : string := "input_required".
Definition AutomationQueueReasonPendingInputResume : string := "pending_input_resume".
Definition AutomationQueueReasonBlockedBy : string := "blocked_by".
Definition AutomationQueueReasonInferredBlockedBy : string := "inferred_blocked_by".
Definition AutomationQueueReasonPausedByState : string := "paused_by_state".
Definition AutomationQueueReasonBackendLimited : string := IneligibleBackendLimited.

(** ** Keys and reasons (152-193, 381-444) *)

Definition automationQueueKey (issue : Issue) (d : AutomationDispatch) : string :=
  let issueKey := if String.eqb (issue_ID issue) "" then issue_Identifier issue else issue_ID issue in
  let t := ad_Trigger d in
  let parts := ["automation"; ad_AutomationID d; trig_Type t; issueKey] in
  let firedAt := format_d (UnixNano (trig_FiredAt t)) in
  let more :=
    if String.eqb (trig_Type t) AutomationTriggerPROpened then [trig_PRURL t]
    else if String.eqb (trig_Type t) AutomationTriggerRateLimited then
      [trig_FailedProfile t; trig_FailedBackend t]
    else if String.eqb (trig_Type t) AutomationTriggerInputRequired then
      [if String.eqb (trig_CommentID t) "" then trig_InputContext t else trig_CommentID t]
    else if String.eqb (trig_Type t) AutomationTriggerRunFailed then [format_d (trig_RetryAttempt t)]
    else if String.eqb (trig_Type t) AutomationTriggerBlockersResolved then
      [format_d (trig_DependencyAuditVersion t)]
    else if String.eqb (trig_Type t) AutomationTriggerTrackerComment then
      let k := if String.eqb (trig_CommentID t) "" then trig_CommentCreatedAt t
               else trig_CommentID t in
      [if String.eqb k "" then firedAt else k]
    else if String.eqb (trig_Type t) AutomationTriggerIssueEnteredState ||
            String.eqb (trig_Type t) AutomationTriggerIssueMovedBacklog then
      [trig_PreviousState t; trig_TriggerState t] ++
      (if negb (time_is_zero (trig_FiredAt t)) then [firedAt] else [])
    else if String.eqb (trig_Type t) TestAutomationTriggerType then [firedAt]
    else [] in
  join ":" (parts ++ more).

Definition automationQueueReasonFromString (reason : string) : string * string :=
  let '(before, after, ok) := cut_at ":"%char reason in
  if negb ok then (reason, "")
  else if String.eqb before AutomationQueueReasonBlockedBy
          || String.eqb before AutomationQueueReasonInferredBlockedBy
  then (before, after) else (reason, "").

(** [None]: the reason drops the automation. *)
Definition automationQueueableReason (reason : string) : option (string * string) :=
  match cut_prefix reason "paused_by_state:" with
  | Some state => Some (AutomationQueueReasonPausedByState, state)
  | None =>
      let '(queueReason, detail) := automationQueueReasonFromString reason in
      if existsb (String.eqb queueReason)
           [AutomationQueueReasonNoSlots; AutomationQueueReasonPerStateLimit;
            AutomationQueueReasonAlreadyRunning; AutomationQueueReasonClaimed;
            AutomationQueueReasonInputRequired; AutomationQueueReasonPendingInputResume;
            AutomationQueueReasonBlockedBy; AutomationQueueReasonInferredBlockedBy;
            AutomationQueueReasonBackendLimited]
      then Some (queueReason, detail) else None
  end.

Definition IsQueueableAutomationReason (reason : string) : bool :=
  bool_decide (is_Some (automationQueueableReason reason)).

Definition automationQueueStatusForReason (reason : string) : AutomationQueueStatus :=
  if String.eqb reason AutomationQueueReasonBlockedBy
     || String.eqb reason AutomationQueueReasonInferredBlockedBy
  then AutomationQueueBlocked else AutomationQueueQueued.

(** ** Backpressure (304-379) *)

Definition queue_length (state : State) : Z := Z.of_nat (size (AutomationQueue state)).

Definition automationQueueMaxLength (state : State) : Z :=
  if 0 <? bp_MaxLength (QueueBackpressure state) then bp_MaxLength (QueueBackpressure state) else 100.

Definition automationQueueLowWater (maxLength : Z) : Z :=
  if maxLength <=? 1 then 1
  else
    let low := Z.quot (mul64 maxLength 8) 10 in
    if low <? 1 then 1 else low.

Definition refreshAutomationQueueBackpressure (state : State) : State :=
  let maxLength := automationQueueMaxLength state in
  let length := queue_length state in
  let bp := QueueBackpressure state <| bp_Length := length |> <| bp_MaxLength := maxLength |> in
  let bp :=
    if maxLength <=? length then
      bp <| bp_Saturated := true |> <| bp_PausedProducers := true |>
    else
      let bp := bp <| bp_Saturated := false |> in
      if bp_PausedProducers bp && (length <? automationQueueLowWater maxLength)
      then bp <| bp_PausedProducers := false |> else bp in
  state <| QueueBackpressure := bp |>.

Definition ensureAutomationQueueState (state : State) : State :=
  refreshAutomationQueueBackpressure state.

Definition automationQueueCanAccept (state : State) (key : string) : bool :=
  if bool_decide (is_Some (AutomationQueue state !! key)) then true
  else queue_length state <? automationQueueMaxLength state.

Definition recordAutomationQueueRejected (state : State) (d : AutomationDispatch) (issue : Issue)
    (reason : string) (now : Time) : State :=
  let t := trig_Type (ad_Trigger d) in
  let bp := QueueBackpressure state in
  state <| QueueBackpressure :=
    bp <| bp_Length := queue_length state |>
       <| bp_MaxLength := automationQueueMaxLength state |>
       <| bp_Saturated := true |>
       <| bp_PausedProducers := true |>
       <| bp_RejectedSinceBoot := add64 (bp_RejectedSinceBoot bp) 1 |>
       <| bp_LastRejectedAt := now |>
       <| bp_LastRejectedReason := join ":" [reason; ad_AutomationID d; t; issue_Identifier issue] |>
       <| bp_LastRejectedAutomationID := ad_AutomationID d |>
       <| bp_LastRejectedTrigger := t |>
       <| bp_LastRejectedIdentifier := issue_Identifier issue |> |>.

(** ** Enqueue and remove (195-302) *)

Definition refreshed_entry (e : AutomationQueueEntry) (issue : Issue) (d : AutomationDispatch)
    (queueReason detail : string) (firedAt now : Time) : AutomationQueueEntry :=
  e <| aq_Issue := issue |> <| aq_ProfileName := ad_ProfileName d |>
    <| aq_Instructions := ad_Instructions d |> <| aq_Trigger := ad_Trigger d |>
    <| aq_AutoResume := ad_AutoResume d |> <| aq_MoveToState := ad_MoveToState d |>
    <| aq_UseIssueLifecycle := ad_UseIssueLifecycle d |>
    <| aq_Status := automationQueueStatusForReason queueReason |>
    <| aq_Reason := queueReason |> <| aq_ReasonDetail := detail |>
    <| aq_LastFiredAt := firedAt |> <| aq_LastAttemptAt := now |>
    <| aq_AttemptCount := add64 (aq_AttemptCount e) 1 |>.

Definition new_entry (id : string) (issue : Issue) (d : AutomationDispatch)
    (queueReason detail : string) (firedAt now : Time) : AutomationQueueEntry :=
  MkAutomationQueueEntry id (ad_AutomationID d) (trig_Type (ad_Trigger d)) issue
    (ad_ProfileName d) (ad_Instructions d) (ad_Trigger d) (ad_AutoResume d) (ad_MoveToState d)
    (ad_UseIssueLifecycle d) (automationQueueStatusForReason queueReason) queueReason detail
    now firedAt firedAt now 1 "".

Definition enqueueAutomation (state : State) (issue : Issue) (d : AutomationDispatch)
    (reason : string) (now : Time) : bool * State :=
  let state := ensureAutomationQueueState state in
  let id := automationQueueKey issue d in
  let '(queueReason, detail) := automationQueueReasonFromString reason in
  let firedAt := if time_is_zero (trig_FiredAt (ad_Trigger d)) then now
                 else trig_FiredAt (ad_Trigger d) in
  match AutomationQueue state !! id with
  | Some existing =>
      let state := state <| AutomationQueue :=
        <[id := refreshed_entry existing issue d queueReason detail firedAt now]>
          (AutomationQueue state) |> in
      (true, refreshAutomationQueueBackpressure state)
  | None =>
      if negb (automationQueueCanAccept state id)
      then (false, recordAutomationQueueRejected state d issue "queue_full" now)
      else
        let state := state
          <| AutomationQueue := <[id := new_entry id issue d queueReason detail firedAt now]>
               (AutomationQueue state) |>
          <| AutomationQueueOrder := AutomationQueueOrder state ++ [id] |> in
        (true, refreshAutomationQueueBackpressure state)
  end.

Definition automationDispatchFromQueueEntry (e : AutomationQueueEntry) : AutomationDispatch :=
  MkAutomationDispatch (aq_AutomationID e) (aq_ProfileName e) (aq_Instructions e) (aq_Trigger e)
    (aq_AutoResume e) (aq_MoveToState e) (aq_UseIssueLifecycle e).

Definition sortedAutomationQueue (state : State) : list AutomationQueueEntry :=
  omap (fun id => AutomationQueue state !! id) (AutomationQueueOrder state).

(** [append(order[:i], order[i+1:]...)] at the first occurrence. *)
Fixpoint remove_first (id : string) (l : list string) : list string :=
  match l with
  | [] => []
  | x :: l' => if String.eqb x id then l' else x :: remove_first id l'
  end.

Definition removeAutomationQueueEntry (state : State) (id : string) : State :=
  let state := ensureAutomationQueueState state in
  refreshAutomationQueueBackpressure
    (state <| AutomationQueue := base.delete id (AutomationQueue state) |>
           <| AutomationQueueOrder := remove_first id (AutomationQueueOrder state) |>).

(** The entry after a failed attempt; [None] when the reason drops it. *)
Definition updateAutomationQueueEntryReason (e : AutomationQueueEntry) (reason : string)
    (now : Time) : option AutomationQueueEntry :=
  match automationQueueableReason reason with
  | None => None
  | Some (queueReason, detail) =>
      Some (e <| aq_Status := automationQueueStatusForReason queueReason |>
              <| aq_Reason := queueReason |> <| aq_ReasonDetail := detail |>
              <| aq_LastAttemptAt := now |>
              <| aq_AttemptCount := add64 (aq_AttemptCount e) 1 |>)
  end.

(** ** The janitor's sweep (janitor.go 217-248) *)

Definition pruneAutomationQueue (keep : string -> bool) (state : State) : Z * State :=
  if decide (size (AutomationQueue state) = 0%nat) then (0, state)
  else
    let keepEntry (e : AutomationQueueEntry) := keep (issue_Identifier (aq_Issue e)) in
    let kept := filter (fun kv => keepEntry (snd kv) = true) (AutomationQueue state) in
    let order := filter (fun id => is_Some (kept !! id)) (AutomationQueueOrder state) in
    (queue_length state - Z.of_nat (size kept),
     refreshAutomationQueueBackpressure
       (state <| AutomationQueue := kept |> <| AutomationQueueOrder := order |>)).

(** ** pr_opened dedup (446-489) *)

Definition automationProfileUnavailableReason (cfg : Config) (d : AutomationDispatch) : string :=
  if String.eqb (ad_ProfileName d) "" then "missing_profile"
  else match agent_Profiles (cfg_Agent cfg) !! ad_ProfileName d with
       | None => "missing_profile"
       | Some p => if ProfileEnabled p then "" else "disabled_profile"
       end.

Definition pr_opened_key (issue : Issue) (d : AutomationDispatch) : string :=
  issue_Identifier issue +:+ "|" +:+ trig_PRURL (ad_Trigger d) +:+ "|" +:+ ad_AutomationID d.

Definition claimPROpenedDedup (state : State) (issue : Issue) (d : AutomationDispatch) :
    bool * State :=
  if negb (String.eqb (trig_Type (ad_Trigger d)) AutomationTriggerPROpened) then (true, state)
  else if String.eqb (trig_PRURL (ad_Trigger d)) "" then (true, state)
  else
    let key := pr_opened_key issue d in
    if bool_decide (key ∈ PROpenedDispatched state) then
      (false, state <| AutomationDroppedPROpenedDedupTotal :=
                 addu64 (AutomationDroppedPROpenedDedupTotal state) 1 |>)
    else
      (true, state <| PROpenedDispatched := {[key]} ∪ PROpenedDispatched state |>
                   <| AutomationDispatchesPROpenedTotal :=
                        addu64 (AutomationDispatchesPROpenedTotal state) 1 |>).

(** ** Invariant *)

(** The order lists each key of the map once, and entries sit under their own
    id. *)
Record queue_wf (state : State) : Prop := {
  qw_nodup : NoDup (AutomationQueueOrder state);
  qw_order : forall id, id ∈ AutomationQueueOrder state <-> is_Some (AutomationQueue state !! id);
  qw_id : forall id e, AutomationQueue state !! id = Some e -> aq_ID e = id;
}.

(** Only these three fields matter to the invariant. *)
Definition same_queue (s s' : State) : Prop :=
  AutomationQueue s' = AutomationQueue s /\ AutomationQueueOrder s' = AutomationQueueOrder s.

Lemma queue_wf_same s s' : same_queue s s' -> queue_wf s -> queue_wf s'.
Proof. intros [E1 E2] []. constructor; by rewrite ?E1, ?E2. Qed.

Lemma refresh_same s : same_queue s (refreshAutomationQueueBackpressure s).
Proof. done. Qed.

Lemma max_length_refresh s :
  automationQueueMaxLength (refreshAutomationQueueBackpressure s) = automationQueueMaxLength s.
Proof.
  unfold automationQueueMaxLength at 1. cbn.
  assert (H : forall b : AutomationQueueBackpressure, bp_MaxLength b = automationQueueMaxLength s ->
    (if 0 <? bp_MaxLength b then bp_MaxLength b else 100) = automationQueueMaxLength s).
  { intros b ->. unfold automationQueueMaxLength. destruct (Z.ltb_spec 0 (bp_MaxLength (QueueBackpressure s))).
    - destruct (Z.ltb_spec 0 (bp_MaxLength (QueueBackpressure s))); lia.
    - done. }
  apply H. destruct (_ <=? _); [done|]. destruct (_ && _); done.
Qed.

Lemma remove_first_spec id l :
  NoDup l -> NoDup (remove_first id l) /\ forall x, x ∈ remove_first id l <-> x ∈ l /\ x <> id.
Proof.
  induction 1 as [|y l Hy Hl [IHn IH]]; cbn.
  { split; [constructor|]. intros x. rewrite elem_of_nil. tauto. }
  destruct (String.eqb_spec y id) as [->|Hne].
  - split; [done|]. intros x. rewrite elem_of_cons. split.
    + intros Hx. split; [by right|]. by intros ->.
    + intros [[->|?] ?]; [done|done].
  - split.
    + constructor; [|done]. rewrite IH. tauto.
    + intros x. rewrite !elem_of_cons, IH. split; [|tauto].
      intros [->|[? ?]]; auto.
Qed.

Lemma remove_first_sublist id l : remove_first id l `sublist_of` l.
Proof.
  induction l as [|y l IH]; cbn; [done|].
  destruct (String.eqb y id); [by apply sublist_cons|by constructor].
Qed.

(** The three outcomes of an enqueue. *)
Lemma enqueue_cases state issue d reason now ok state' :
  enqueueAutomation state issue d reason now = (ok, state') ->
  let id := automationQueueKey issue d in
  automationQueueMaxLength state' = automationQueueMaxLength state /\
  ((exists e e', AutomationQueue state !! id = Some e /\ ok = true /\
      AutomationQueue state' = <[id := e']> (AutomationQueue state) /\
      AutomationQueueOrder state' = AutomationQueueOrder state /\
      aq_ID e' = aq_ID e /\ aq_QueuedAt e' = aq_QueuedAt e /\ aq_FiredAt e' = aq_FiredAt e /\
      automationDispatchFromQueueEntry e' = d <| ad_AutomationID := aq_AutomationID e |> /\
      aq_Issue e' = issue) \/
   (exists e', AutomationQueue state !! id = None /\ ok = true /\
      queue_length state < automationQueueMaxLength state /\
      AutomationQueue state' = <[id := e']> (AutomationQueue state) /\
      AutomationQueueOrder state' = AutomationQueueOrder state ++ [id] /\
      aq_ID e' = id /\ aq_QueuedAt e' = now /\ automationDispatchFromQueueEntry e' = d /\
      aq_Issue e' = issue) \/
   (AutomationQueue state !! id = None /\ ok = false /\
      automationQueueMaxLength state <= queue_length state /\ same_queue state state' /\
      bp_PausedProducers (QueueBackpressure state') = true /\
      bp_LastRejectedAutomationID (QueueBackpressure state') = ad_AutomationID d)).
Proof.
  unfold enqueueAutomation. cbn zeta.
  set (s0 := ensureAutomationQueueState state).
  set (id := automationQueueKey issue d).
  assert (Hmax : automationQueueMaxLength s0 = automationQueueMaxLength state)
    by apply max_length_refresh.
  destruct (automationQueueReasonFromString reason) as [qr detail].
  change (AutomationQueue s0) with (AutomationQueue state).
  change (AutomationQueueOrder s0) with (AutomationQueueOrder state).
  destruct (AutomationQueue state !! id) as [e|] eqn:He.
  - intros [= <- <-]. split; [by rewrite max_length_refresh|]. left.
    eexists e, _. by split_and!.
  - unfold automationQueueCanAccept.
    change (AutomationQueue s0) with (AutomationQueue state). rewrite He.
    rewrite bool_decide_eq_false_2 by apply is_Some_None.
    change (queue_length s0) with (queue_length state). rewrite Hmax.
    destruct (Z.ltb_spec (queue_length state) (automationQueueMaxLength state)); cbn [negb].
    + intros [= <- <-]. split; [by rewrite max_length_refresh|]. right; left.
      eexists. split_and!; try done. by destruct d.
    + intros [= <- <-]. split; [|right; right; by split_and!].
      unfold automationQueueMaxLength at 1. cbn. rewrite Hmax.
      unfold automationQueueMaxLength. destruct (Z.ltb_spec 0 (bp_MaxLength (QueueBackpressure state))).
      * destruct (Z.ltb_spec 0 (bp_MaxLength (QueueBackpressure state))); lia.
      * done.
Qed.

(** The operations that change the queue. *)
Inductive QueueOp :=
  | QEnqueue (issue : Issue) (d : AutomationDispatch) (reason : string) (now : Time)
  | QRemove (id : string)
  | QUpdate (id reason : string) (now : Time)
  | QPrune (keep : string -> bool).

Definition queue_step (state : State) (op : QueueOp) : State :=
  match op with
  | QEnqueue issue d reason now => snd (enqueueAutomation state issue d reason now)
  | QRemove id => removeAutomationQueueEntry state id
  | QUpdate id reason now =>
      match AutomationQueue state !! id with
      | None => state
      | Some e => match updateAutomationQueueEntryReason e reason now with
                  | None => state
                  | Some e' => state <| AutomationQueue := <[id := e']> (AutomationQueue state) |>
                  end
      end
  | QPrune keep => snd (pruneAutomationQueue keep state)
  end.

Definition queue_run (ops : list QueueOp) (state : State) : State := foldl queue_step state ops.

(** The queue never grows past its cap; a cap lowered by a restart leaves what
    is already there. *)
Definition within (bound : Z) (state : State) : Prop :=
  queue_length state <= bound /\ automationQueueMaxLength state <= bound.

Lemma wf_insert_existing state state' id e e' :
  AutomationQueue state !! id = Some e -> aq_ID e' = aq_ID e ->
  AutomationQueue state' = <[id := e']> (AutomationQueue state) ->
  AutomationQueueOrder state' = AutomationQueueOrder state ->
  queue_wf state -> queue_wf state' /\ queue_length state' = queue_length state.
Proof.
  intros He Hid Eq Eo [Hnd Hord Hids]. split.
  - constructor; rewrite ?Eq, ?Eo; [done|..].
    + intros x. rewrite Hord, lookup_insert. destruct (decide (id = x)) as [<-|]; [|done].
      rewrite He. split; eauto.
    + intros x y. rewrite lookup_insert. destruct (decide (id = x)) as [<-|]; [|apply Hids].
      intros [= <-]. rewrite Hid. by apply Hids.
  - unfold queue_length. rewrite Eq, map_size_insert_Some; [done|by exists e].
Qed.

Lemma max_length_eq s s' :
  QueueBackpressure s' = QueueBackpressure s -> automationQueueMaxLength s' = automationQueueMaxLength s.
Proof. unfold automationQueueMaxLength. by intros ->. Qed.

Lemma enqueue_step_ok bound state issue d reason now :
  queue_wf state -> within bound state ->
  let state' := snd (enqueueAutomation state issue d reason now) in
  queue_wf state' /\ within bound state'.
Proof.
  intros Hwf [Hlen Hmax]. cbn zeta.
  destruct (enqueueAutomation state issue d reason now) as [ok st] eqn:E. cbn [snd].
  apply enqueue_cases in E as (Hm & Hc). unfold within. rewrite Hm.
  destruct Hc as [(e & e' & He & _ & Eq & Eo & Hid & _)|
    [(e' & He & _ & Hlt & Eq & Eo & Hid & _)|(He & _ & _ & Hs & _)]].
  - destruct (wf_insert_existing state st _ e e' He Hid Eq Eo Hwf) as [? ->]. done.
  - destruct Hwf as [Hnd Hord Hids]. split; [constructor; rewrite ?Eq, ?Eo|].
    + apply NoDup_app. split_and!; [done| |by apply NoDup_singleton].
      intros x Hx ->%list_elem_of_singleton. apply Hord in Hx as [? Hx]. congruence.
    + intros x. rewrite elem_of_app, list_elem_of_singleton, Hord, lookup_insert.
      destruct (decide (_ = x)) as [<-|Hx]; [by split; eauto|]. naive_solver.
    + intros x y. rewrite lookup_insert. destruct (decide (_ = x)) as [<-|]; [|apply Hids].
      by intros [= <-].
    + unfold queue_length in *. rewrite Eq, map_size_insert_None by done. lia.
  - split; [by apply (queue_wf_same state)|]. destruct Hs as [Eq _]. unfold queue_length in *.
    by rewrite Eq.
Qed.

Lemma remove_wf state id : queue_wf state -> queue_wf (removeAutomationQueueEntry state id).
Proof.
  intros Hwf. unfold removeAutomationQueueEntry.
  eapply queue_wf_same; [apply refresh_same|]. destruct Hwf as [Hnd Hord Hids].
  destruct (remove_first_spec id _ Hnd) as [Hnd' Hrf]. constructor; cbn; [done|..].
  - intros x. rewrite Hrf, Hord, lookup_delete. destruct (decide (id = x)) as [<-|].
    + split; [tauto|by intros [? ?]].
    + split; [tauto|]. auto.
  - intros x y. rewrite lookup_delete. destruct (decide _); [done|apply Hids].
Qed.

Lemma fmap_wf state f :
  (forall e, aq_ID (f e) = aq_ID e) -> queue_wf state ->
  queue_wf (state <| AutomationQueue := (f <$> AutomationQueue state) |>).
Proof.
  intros Hf [Hnd Hord Hids]. constructor; cbn; [done|..].
  - intros id. by rewrite Hord, lookup_fmap, fmap_is_Some.
  - intros id e. rewrite lookup_fmap. intros (e' & He & ->)%fmap_Some. rewrite Hf. by apply Hids.
Qed.

Lemma remove_step_ok bound state id :
  queue_wf state -> within bound state ->
  queue_wf (removeAutomationQueueEntry state id) /\ within bound (removeAutomationQueueEntry state id).
Proof.
  intros Hwf [Hlen Hmax]. split; [by apply remove_wf|]. unfold removeAutomationQueueEntry.
  unfold within. rewrite max_length_refresh,
    (max_length_eq (ensureAutomationQueueState state)), max_length_refresh by done.
  split; [|done]. unfold queue_length in *. cbn.
  assert (size (base.delete id (AutomationQueue state)) <= size (AutomationQueue state))%nat; [|lia].
  apply map_size_le_subseteq || apply (map_subseteq_size _ _ (delete_subseteq _ _)).
Qed.

Lemma prune_wf state keep :
  queue_wf state -> queue_wf (snd (pruneAutomationQueue keep state)).
Proof.
  intros Hwf. unfold pruneAutomationQueue. destruct (decide _); [done|]. cbn [snd].
  eapply queue_wf_same; [apply refresh_same|]. destruct Hwf as [Hnd Hord Hids].
  constructor; cbn.
  - by apply NoDup_filter.
  - intros x. rewrite list_elem_of_filter, Hord. split; [tauto|]. intros Hk. split; [done|].
    destruct Hk as [e [Hk _]%map_lookup_filter_Some]. eauto.
  - intros x e [He _]%map_lookup_filter_Some. by apply Hids.
Qed.

#[export] Hint Resolve remove_wf fmap_wf prune_wf remove_first_sublist : itervox.

Lemma prune_step_ok bound state keep :
  queue_wf state -> within bound state ->
  queue_wf (snd (pruneAutomationQueue keep state)) /\
  within bound (snd (pruneAutomationQueue keep state)).
Proof.
  intros Hwf [Hlen Hmax]. split; [by apply prune_wf|].
  unfold pruneAutomationQueue. destruct (decide _); [done|]. cbn [snd].
  unfold within. rewrite max_length_refresh, (max_length_eq state) by done.
  split; [|done]. unfold queue_length in *. cbn.
  assert (size (filter (fun kv => keep (issue_Identifier (aq_Issue (snd kv))) = true)
    (AutomationQueue state)) <= size (AutomationQueue state))%nat; [|lia].
  apply map_subseteq_size, map_filter_subseteq.
Qed.

Lemma update_step_ok bound state id reason now :
  queue_wf state -> within bound state ->
  queue_wf (queue_step state (QUpdate id reason now)) /\
  within bound (queue_step state (QUpdate id reason now)).
Proof.
  intros Hwf [Hlen Hmax]. cbn [queue_step]. destruct (AutomationQueue state !! id) as [e|] eqn:He; [|done].
  unfold updateAutomationQueueEntryReason. destruct (automationQueueableReason reason) as [[qr dt]|]; [|done].
  match goal with |- queue_wf ?s /\ _ => set (st := s) end.
  assert (H : queue_wf st /\ queue_length st = queue_length state).
  { eapply wf_insert_existing; [exact He| |reflexivity|reflexivity|exact Hwf]. reflexivity. }
  destruct H as [Hw Hl].
  split; [done|]. unfold within. by rewrite Hl, (max_length_eq state).
Qed.

(** Through any history of enqueues, removals, reason updates and janitor
    sweeps the queue's order and its map stay in step (each key once, every
    entry under its own id) and the queue never holds more entries than its
    cap. *)
Theorem queue_invariant ops state
    (Hwf : queue_wf state)
    (Hcap : queue_length state <= automationQueueMaxLength state) :
  queue_wf (queue_run ops state) /\
  queue_length (queue_run ops state) <= automationQueueMaxLength state.
Proof.
  assert (Hw : within (automationQueueMaxLength state) state) by (split; [done|lia]).
  assert (H : queue_wf (queue_run ops state) /\
    within (automationQueueMaxLength state) (queue_run ops state)).
  { revert Hw Hwf. clear Hcap. generalize (automationQueueMaxLength state). intros bound.
    revert state. induction ops as [|op ops IH]; intros state Hw Hwf; [done|]. cbn.
    assert (Hs : queue_wf (queue_step state op) /\ within bound (queue_step state op)).
    { destruct op; [by apply enqueue_step_ok|by apply remove_step_ok|by apply update_step_ok|
        by apply prune_step_ok]. }
    apply IH; apply Hs. }
  by destruct H as [? [? _]].
Qed.

Definition example_dispatch : AutomationDispatch :=
  MkAutomationDispatch "auto-1" "coder" "do it"
    (zero_AutomationTriggerContext <| trig_Type := "cron" |> <| trig_FiredAt := 100 |>) false "" false.

Example queue_invariant_witness :
  queue_wf (queue_run [QEnqueue zero_Issue example_dispatch "no_slots" 100] empty_State) /\
  queue_length (queue_run [QEnqueue zero_Issue example_dispatch "no_slots" 100] empty_State) <= 100.
Proof.
  apply (queue_invariant [QEnqueue zero_Issue example_dispatch "no_slots" 100] empty_State).
  - constructor; cbn; [constructor|..].
    + intros id. rewrite lookup_empty, elem_of_nil. split; [done|by intros [? ?]].
    + intros id e. by rewrite lookup_empty.
  - by apply Z.leb_le.
Defined.

(** ** Order *)

(** The queue is first-in first-out.  Through any history the entries
    that stay keep their order, ahead of every later arrival; and an entry
    that is refreshed by its trigger firing again keeps its place and the time
    it was queued at. *)
Theorem queue_fifo ops state :
  exists kept new, AutomationQueueOrder (queue_run ops state) = kept ++ new /\
    kept `sublist_of` AutomationQueueOrder state /\
    (forall issue d reason now e,
       AutomationQueue state !! automationQueueKey issue d = Some e ->
       let '(ok, state') := enqueueAutomation state issue d reason now in
       ok = true /\ AutomationQueueOrder state' = AutomationQueueOrder state /\
       exists e', AutomationQueue state' !! automationQueueKey issue d = Some e' /\
         aq_QueuedAt e' = aq_QueuedAt e /\ aq_Issue e' = issue).
Proof.
  assert (Hrefresh : forall issue d reason now e,
    AutomationQueue state !! automationQueueKey issue d = Some e ->
    let '(ok, state') := enqueueAutomation state issue d reason now in
    ok = true /\ AutomationQueueOrder state' = AutomationQueueOrder state /\
    exists e', AutomationQueue state' !! automationQueueKey issue d = Some e' /\
      aq_QueuedAt e' = aq_QueuedAt e /\ aq_Issue e' = issue).
  { intros issue d reason now e He. destruct (enqueueAutomation _ _ _ _ _) as [ok st] eqn:E.
    apply enqueue_cases in E as (_ & [(x & x' & Hx & -> & Eq & Eo & _ & Hq & _ & _ & Hi)|
      [(x' & Hx & _)|(Hx & _)]]); [|congruence|congruence].
    split; [done|]. split; [done|]. exists x'. rewrite Eq, lookup_insert_eq.
    assert (x = e) as -> by congruence. done. }
  assert (H : exists kept new, AutomationQueueOrder (queue_run ops state) = kept ++ new /\
    kept `sublist_of` AutomationQueueOrder state).
  { clear Hrefresh. revert state. induction ops as [|op ops IH]; intros state.
    { exists (AutomationQueueOrder state), []. by rewrite app_nil_r. }
    destruct (IH (queue_step state op)) as (kept & new & E & Hk). cbn. 
    assert (Hstep : exists k n, AutomationQueueOrder (queue_step state op) = k ++ n /\
      k `sublist_of` AutomationQueueOrder state).
    { destruct op as [issue d reason now|id|id reason now|keep]; cbn [queue_step].
      - destruct (enqueueAutomation state issue d reason now) as [ok st] eqn:Ee. cbn [snd].
        apply enqueue_cases in Ee as (_ & [(x & x' & _ & _ & _ & -> & _)|
          [(x' & _ & _ & _ & _ & -> & _)|(_ & _ & _ & [_ ->] & _)]]).
        + exists (AutomationQueueOrder state), []. by rewrite app_nil_r.
        + by eexists _, _.
        + exists (AutomationQueueOrder state), []. by rewrite app_nil_r.
      - exists (remove_first id (AutomationQueueOrder state)), [].
        rewrite app_nil_r. split; [done|apply remove_first_sublist].
      - exists (AutomationQueueOrder state), []. rewrite app_nil_r.
        destruct (AutomationQueue state !! id) as [e|]; [|done].
        by destruct (updateAutomationQueueEntryReason e reason now).
      - unfold pruneAutomationQueue. destruct (decide _); cbn.
        + exists (AutomationQueueOrder state), []. by rewrite app_nil_r.
        + eexists _, []. rewrite app_nil_r. split; [done|apply sublist_filter]. }
    destruct Hstep as (k & n & Ek & Hsub). rewrite Ek in Hk.
    apply sublist_app_r in Hk as (k1 & k2 & -> & Hk1 & Hk2).
    exists k1, (k2 ++ new). rewrite app_assoc. split; [done|]. by etrans. }
  destruct H as (kept & new & ? & ?). by exists kept, new.
Qed.

(** ** Backpressure *)

Lemma low_water_lt m : 1 < m < 2 ^ 60 -> 1 <= automationQueueLowWater m < m.
Proof.
  intros Hm. unfold automationQueueLowWater. destruct (Z.leb_spec m 1); [lia|].
  unfold mul64. rewrite wrap64_id by (unfold is_int64, int64_min, int64_max; lia).
  rewrite Z.quot_div_nonneg by lia.
  assert (m * 8 / 10 < m) by (apply Z.div_lt_upper_bound; lia).
  destruct (Z.ltb_spec (m * 8 / 10) 1); lia.
Qed.

(** producers are paused with hysteresis.  After every refresh the flag
    is up when the queue is full and down when it has drained below the low
    water mark, 80 percent of the cap; in between it stays what it was, so a
    producer is never toggled by one entry coming and going at the cap. *)
Theorem backpressure_hysteresis state (Hcap : 1 < automationQueueMaxLength state < 2 ^ 60) :
  let m := automationQueueMaxLength state in
  let paused s := bp_PausedProducers (QueueBackpressure s) in
  let state' := refreshAutomationQueueBackpressure state in
  bp_Length (QueueBackpressure state') = queue_length state /\
  (bp_Saturated (QueueBackpressure state') = true <-> m <= queue_length state) /\
  (m <= queue_length state -> paused state' = true) /\
  (queue_length state < automationQueueLowWater m -> paused state' = false) /\
  (automationQueueLowWater m <= queue_length state < m -> paused state' = paused state) /\
  1 <= automationQueueLowWater m < m.
Proof.
  cbn zeta. pose proof (low_water_lt _ Hcap) as Hlow.
  unfold refreshAutomationQueueBackpressure. cbn.
  destruct (Z.leb_spec (automationQueueMaxLength state) (queue_length state)); cbn.
  - split_and!; try done; intros; lia.
  - destruct (bp_PausedProducers (QueueBackpressure state)) eqn:Hp; cbn.
    + destruct (Z.ltb_spec (queue_length state) (automationQueueLowWater (automationQueueMaxLength state)));
        cbn; rewrite ?Hp; split_and!; try done; intros; try done; lia.
    + rewrite Hp. split_and!; try done; intros; try done; lia.
Qed.

Example backpressure_hysteresis_witness :
  bp_Length (QueueBackpressure (refreshAutomationQueueBackpressure empty_State)) = 0 /\
  1 <= automationQueueLowWater 100 < 100.
Proof.
  destruct (backpressure_hysteresis empty_State ltac:(by vm_compute)) as (H & _ & _ & _ & _ & H').
  by split.
Defined.

(** ** Reasons *)

Lemma queueable_blocked x :
  automationQueueableReason (IneligibleBlockedByPrefix +:+ x) = Some (AutomationQueueReasonBlockedBy, x).
Proof. vm_compute. reflexivity. Qed.

Lemma queueable_inferred x :
  automationQueueableReason (IneligibleInferredBlockedByPrefix +:+ x)
    = Some (AutomationQueueReasonInferredBlockedBy, x).
Proof. vm_compute. reflexivity. Qed.

Lemma queueable_paused_by_state x :
  automationQueueableReason ("paused_by_state:" +:+ x) = Some (AutomationQueueReasonPausedByState, x).
Proof. vm_compute. reflexivity. Qed.

(** An automation that may not run now is dropped only for good reasons.
    Of all the guards of the automation check, those that keep it out of the
    queue are an incomplete issue and one that is terminal, paused or being
    discarded; every other refusal (slots, limits, blockers tracked or
    inferred, input, a paused state, a limited backend) is one it waits for. *)
Theorem automation_dropped_iff issue state cfg :
  let reason := IneligibleReasonForAutomation issue state cfg in
  reason <> "" ->
  (IsQueueableAutomationReason reason = false <->
   missing_fields issue = true \/ isTerminalState (issue_State issue) state = true \/
   is_Some (PausedIdentifiers state !! issue_Identifier issue) \/
   is_Some (DiscardingIdentifiers state !! issue_Identifier issue)).
Proof.
  cbn zeta. unfold IneligibleReasonForAutomation, IsQueueableAutomationReason.
  destruct (missing_fields issue); [intros _; split; [by left|done]|].
  unfold ineligibleReasonShared.
  destruct (isTerminalState (issue_State issue) state); [intros _; split; [auto|done]|].
  assert (Hyes : forall (P Q : Prop) r x, automationQueueableReason r = Some x -> ~ P -> ~ Q ->
    bool_decide (is_Some (automationQueueableReason r)) = false <->
    false = true \/ false = true \/ P \/ Q).
  { intros P Q r x -> HP HQ. rewrite bool_decide_eq_true_2 by eauto. naive_solver. }
  destruct (bool_decide (is_Some (PausedIdentifiers state !! _))) eqn:Hp.
  { intros _. apply bool_decide_eq_true in Hp. split; [auto|done]. }
  apply bool_decide_eq_false in Hp.
  destruct (bool_decide (is_Some (DiscardingIdentifiers state !! _))) eqn:Hd.
  { intros _. apply bool_decide_eq_true in Hd. split; [auto|done]. }
  apply bool_decide_eq_false in Hd. rewrite andb_false_r.
  destruct (bool_decide (is_Some (PendingInputResumes state !! _)));
    [intros _; by eapply Hyes|].
  destruct (bool_decide (is_Some (Running state !! _))); [intros _; by eapply Hyes|].
  destruct (bool_decide (_ ∈ Claimed state)); [intros _; by eapply Hyes|].
  destruct (AvailableSlots state <=? 0); [intros _; by eapply Hyes|].
  destruct (snd (pausedByAnyInState state));
    [intros _; eapply Hyes; [apply queueable_paused_by_state|done|done]|].
  destruct (per_state_limited issue state cfg); [intros _; by eapply Hyes|].
  destruct (match firstUnresolvedBlocker issue state with Some _ => _ | None => _ end) as [b|];
    [intros _; eapply Hyes; [apply queueable_blocked|done|done]|].
  destruct (first_gating issue state) as [e|];
    [intros _; eapply Hyes; [apply queueable_inferred|done|done]|].
  destruct (backendHoldActive state _); [intros _; by eapply Hyes|done].
Qed.

Example automation_dropped_iff_witness :
  let issue := zero_Issue <| issue_ID := "1" |> in
  IneligibleReasonForAutomation issue empty_State empty_config = "missing_fields" /\
  IsQueueableAutomationReason (IneligibleReasonForAutomation issue empty_State empty_config)
    = false.
Proof.
  split; [reflexivity|].
  refine (proj2 (automation_dropped_iff (zero_Issue <| issue_ID := "1" |>)
            empty_State empty_config _) _); [discriminate|by left].
Defined.

(** ** pr_opened *)

Lemma claim_monotone state issue d : 
  PROpenedDispatched state ⊆ PROpenedDispatched (snd (claimPROpenedDedup state issue d)).
Proof.
  unfold claimPROpenedDedup. repeat (case_match; cbn; try done). apply union_subseteq_r.
Qed.

(** A pull request fires a pr_opened automation at most once per issue:
    after the first claim, whatever other claims come in between, every later
    claim for the same issue, URL and automation is refused. *)
Theorem pr_opened_once state issue d others
    (Htrigger : trig_Type (ad_Trigger d) = AutomationTriggerPROpened)
    (Hurl : trig_PRURL (ad_Trigger d) <> "") :
  let after := foldl (fun s '(i, x) => snd (claimPROpenedDedup s i x))
                 (snd (claimPROpenedDedup state issue d)) others in
  fst (claimPROpenedDedup after issue d) = false.
Proof.
  cbn zeta. assert (Hin : pr_opened_key issue d ∈
    PROpenedDispatched (snd (claimPROpenedDedup state issue d))).
  { unfold claimPROpenedDedup. apply String.eqb_eq in Htrigger. apply String.eqb_neq in Hurl.
    rewrite Htrigger, Hurl. cbn. destruct (bool_decide (_ ∈ _)) eqn:E; cbn.
    - by apply bool_decide_eq_true in E.
    - by apply elem_of_union_l, elem_of_singleton. }
  revert Hin. generalize (snd (claimPROpenedDedup state issue d)). clear state.
  induction others as [|[i x] others IH]; intros state Hin; cbn [foldl].
  - unfold claimPROpenedDedup. apply String.eqb_eq in Htrigger. apply String.eqb_neq in Hurl.
    rewrite Htrigger, Hurl. cbn. by rewrite bool_decide_eq_true_2.
  - apply IH. by apply claim_monotone.
Qed.

Example pr_opened_once_witness :
  let d := example_dispatch <| ad_Trigger :=
    zero_AutomationTriggerContext <| trig_Type := "pr_opened" |> <| trig_PRURL := "https://x/1" |> |> in
  fst (claimPROpenedDedup (snd (claimPROpenedDedup empty_State zero_Issue d)) zero_Issue d) = false.
Proof.
  apply (pr_opened_once empty_State zero_Issue (example_dispatch <| ad_Trigger :=
    zero_AutomationTriggerContext <| trig_Type := "pr_opened" |>
      <| trig_PRURL := "https://x/1" |> |>) []);
    [reflexivity|discriminate].
Defined.
