(* ===== verification/Grants.v ===== *)
(** * Grants: what a running agent may do
    (internal/agentactions/store.go, config/agent_actions.go,
    orchestrator/automation.go 915-929)

    The daemon gives each run a token and checks it on every action the agent
    asks for.  The random bytes of a token are an argument of its issue. *)

From stdpp Require Import base gmap list strings.
From S2P Require Import Prelude Domain State AutomationQueue.

Local Open Scope Z_scope.

(** ** The actions of a profile *)

Definition AgentActionMoveState : string := "move_state".
Definition AgentActionProvideInput : string := "provide_input".
Definition supportedAgentActions : list string :=
  ["comment"; "comment_pr"; "create_issue"; "merge_pr"; AgentActionMoveState; AgentActionProvideInput].

(** The supported ones among the names, each once, sorted. *)
Fixpoint known_actions (seen : list string) (actions : list string) : list string :=
  match actions with
  | [] => []
  | a :: actions =>
      let value := trim_space (to_lower a) in
      if bool_decide (value ∈ supportedAgentActions) && negb (bool_decide (value ∈ seen))
      then value :: known_actions (value :: seen) actions
      else known_actions seen actions
  end.

Definition NormalizeAllowedActions (actions : list string) : list string := sort_strings (known_actions [] actions).

(** Answering its own question and moving the issue are left to automations
    that are set up for it. *)
Definition filterAllowedActionsForAutomation (actions : list string) (automation : option AutomationDispatch) : list string :=
  let normalized := NormalizeAllowedActions actions in
  match automation with
  | None => normalized
  | Some d =>
      let removeProvideInput := String.eqb (trig_Type (ad_Trigger d)) AutomationTriggerInputRequired && negb (ad_AutoResume d) in
      let removeMoveState := String.eqb (trig_Type (ad_Trigger d)) AutomationTriggerBlockersResolved
                             && String.eqb (ad_MoveToState d) "" in
      filter (fun a => negb ((removeProvideInput && String.eqb a AgentActionProvideInput)
                             || (removeMoveState && String.eqb a AgentActionMoveState)) = true) normalized
  end.

(** ** The grants *)

Record Grant := MkGrant {
  g_IssueIdentifier : string;
  g_RunSessionID : string;
  g_AllowedActions : list string;
  g_CreateIssueState : string;
  g_MoveIssueState : string;
  g_ExpiresAt : Time;
}.

Definition zero_Grant : Grant := MkGrant "" "" [] "" "" zero_time.

Abbreviation Store := (gmap string Grant).

(** [random] is the 32 bytes read, [None] when reading them failed. *)
Definition IssueScoped (random : option (list Z)) (now : Time) (issueIdentifier runSessionID : string)
    (allowedActions : list string) (createIssueState moveIssueState : string) (ttl : Duration) (s : Store)
    : option string * Store :=
  match random with
  | None => (None, s)
  | Some bytes =>
      let token := hex_encode bytes in
      let expiresAt := if ttl <=? 0 then time_add now Hour else time_add now ttl in
      (Some token, <[token := MkGrant issueIdentifier runSessionID (sort_strings allowedActions)
                                createIssueState moveIssueState expiresAt]> s)
  end.

Definition IssueGrant (random : option (list Z)) (now : Time) (issueIdentifier runSessionID : string)
    (allowedActions : list string) (createIssueState : string) (ttl : Duration) (s : Store) : option string * Store :=
  IssueScoped random now issueIdentifier runSessionID allowedActions createIssueState "" ttl s.

Definition Revoke (token : string) (s : Store) : Store :=
  if String.eqb token "" then s else base.delete token s.

Definition Cleanup (now : Time) (s : Store) : nat * Store :=
  let kept := filter (fun kv => time_before now (g_ExpiresAt kv.2) = true) s in ((size s - size kept)%nat, kept).

(** The grant, the reason of a refusal, and whether the action is allowed. *)
Definition Validate (token issueIdentifier action : string) (now : Time) (s : Store) : (Grant * string * bool) * Store :=
  if String.eqb token "" then ((zero_Grant, "missing_token", false), s)
  else
    match s !! token with
    | None => ((zero_Grant, "unknown_token", false), s)
    | Some grant =>
        if time_after now (g_ExpiresAt grant) then ((zero_Grant, "expired_token", false), base.delete token s)
        else if negb (String.eqb (g_IssueIdentifier grant) issueIdentifier)
        then ((zero_Grant, "issue_mismatch", false), s)
        else if negb (bool_decide (action ∈ g_AllowedActions grant))
        then ((zero_Grant, "action_not_allowed", false), s)
        else ((grant, "", true), s)
    end.

(** ** Histories *)

Inductive GrantOp :=
  | OpIssue (random : option (list Z)) (issue session : string) (actions : list string) (create move : string) (ttl : Duration)
  | OpRevoke (token : string)
  | OpCleanup
  | OpValidate (token issue action : string).

(** Each operation with the clock it reads. *)
Definition grant_step (s : Store) (op : Time * GrantOp) : Store :=
  let '(now, op) := op in
  match op with
  | OpIssue random issue session actions create move ttl =>
      snd (IssueScoped random now issue session actions create move ttl s)
  | OpRevoke token => Revoke token s
  | OpCleanup => snd (Cleanup now s)
  | OpValidate token issue action => snd (Validate token issue action now s)
  end.

Definition grant_run (ops : list (Time * GrantOp)) : Store := foldl grant_step ∅ ops.

(** What the history says a token is good for: the grant it was last issued
    with, unless it was revoked after. *)
Definition issued_step (token : string) (g : option Grant) (op : Time * GrantOp) : option Grant :=
  match op with
  | (now, OpIssue (Some bytes) issue session actions create move ttl) =>
      if bool_decide (hex_encode bytes = token)
      then Some (MkGrant issue session (sort_strings actions) create move (now + (if ttl <=? 0 then Hour else ttl)))
      else g
  | (_, OpRevoke t) => if bool_decide (t = token) then None else g
  | _ => g
  end.

Definition issued (token : string) (ops : list (Time * GrantOp)) : option Grant := foldl (issued_step token) None ops.

Section History.
Context (token : string) (Htoken : token <> "").

(** The store has what the history says, or has dropped it once its time had
    come. *)
Definition agrees (last : Time) (g : option Grant) (s : Store) : Prop :=
  s !! token = g \/ s !! token = None /\ exists gr, g = Some gr /\ g_ExpiresAt gr <= last.

Lemma agrees_later t t' g s : t <= t' -> agrees t g s -> agrees t' g s.
Proof. intros Ht [H|(H & gr & -> & He)]; [by left|]. right. split; [done|]. exists gr. split; [done|lia]. Qed.

Lemma agrees_step last now op g s :
  last <= now -> agrees last g s -> agrees now (issued_step token g (now, op)) (grant_step s (now, op)).
Proof.
  intros Ht Ha. apply (agrees_later last now) in Ha; [|done]. clear Ht.
  destruct op as [[bytes|] issue session actions create move ttl|t| |t issue action]; cbn; [ |done| | |].
  - unfold time_add. case_bool_decide as E.
    + left. rewrite E, lookup_insert_eq. by destruct (ttl <=? 0).
    + unfold agrees in *. by rewrite lookup_insert_ne.
  - unfold Revoke. case_bool_decide as E.
    + left. subst t. rewrite (proj2 (String.eqb_neq token "") Htoken). apply lookup_delete_eq.
    + destruct (String.eqb t ""); [done|]. unfold agrees in *. by rewrite lookup_delete_ne.
  - unfold Cleanup, agrees, time_before. cbn. rewrite map_lookup_filter.
    destruct Ha as [<-|(-> & Hg)]; [|by right].
    destruct (s !! token) as [gr|] eqn:E; cbn; [|by left].
    case_guard as Hk; [by left|]. right. split; [done|]. exists gr. split; [done|]. cbn in Hk. lia.
  - unfold Validate. destruct (String.eqb t ""); [done|]. destruct (s !! t) as [gr|] eqn:E; [|done].
    unfold time_after. destruct (Z.ltb_spec (g_ExpiresAt gr) now); [|by repeat case_match].
    cbn. destruct (decide (t = token)) as [->|]; [|unfold agrees in *; by rewrite lookup_delete_ne].
    right. split; [apply lookup_delete_eq|]. destruct Ha as [<-|[? _]]; [|congruence]. exists gr. split; [done|lia].
Qed.

Fixpoint clocks_from (last : Time) (ops : list (Time * GrantOp)) : Prop :=
  match ops with [] => True | (now, _) :: ops => last <= now /\ clocks_from now ops end.

Lemma agrees_run last g s ops now :
  clocks_from last (ops ++ [(now, OpCleanup)]) -> agrees last g s ->
  agrees now (foldl (issued_step token) g ops) (foldl grant_step s ops).
Proof.
  revert last g s. induction ops as [|[t op] ops IH]; intros last g s Hc Ha; cbn in Hc.
  - by apply (agrees_later last now); [destruct Hc|].
  - cbn [foldl]. destruct Hc as [Ht Hc]. apply (IH t); [done|]. by apply agrees_step with last.
Qed.

End History.

(** C39: with a clock that does not run back, a token lets its holder do an
    action on an issue exactly when, and exactly as, it was last issued for that
    issue with that action among the allowed ones, was not revoked since, and
    has not expired, whatever else happened to the store; a refused request
    gets an empty grant and a reason. *)
Theorem grant_scope token issue action now ops :
  token <> "" -> clocks_from zero_time (ops ++ [(now, OpCleanup)]) ->
  (forall gr, issued token ops = Some gr -> g_ExpiresAt gr <> now) ->
  let '(gr, reason, ok) := fst (Validate token issue action now (grant_run ops)) in
  (ok = true <-> issued token ops = Some gr /\ g_IssueIdentifier gr = issue /\
                 action ∈ g_AllowedActions gr /\ now < g_ExpiresAt gr /\ reason = "") /\
  (ok = false -> gr = zero_Grant /\ reason <> "").
Proof.
  intros Ht Hc Hne.
  assert (Ha : agrees token now (issued token ops) (grant_run ops)) by (apply (agrees_run token Ht zero_time); [done|by left]).
  unfold Validate. eqb_neq Ht. destruct Ha as [Ha|(Ha & gr & Hg & He)]; rewrite Ha.
  2: { cbn. split; [|done]. split; [done|]. intros (Hi & _ & _ & Hlt & _). rewrite Hg in Hi. assert (gr = zero_Grant) as -> by congruence. cbn in *. lia. }
  destruct (issued token ops) as [gr|] eqn:Hi; [|cbn; by split; [split; [done|by intros (? & _)]|]].
  specialize (Hne gr eq_refl). unfold time_after.
  destruct (Z.ltb_spec (g_ExpiresAt gr) now); cbn.
  { split; [|done]. split; [done|]. intros (E & _ & _ & Hlt & _). assert (gr = zero_Grant) as -> by congruence. cbn in *. lia. }
  destruct (String.eqb_spec (g_IssueIdentifier gr) issue) as [<-|Hni]; cbn.
  2: { split; [|done]. split; [done|]. by intros ([= ->] & ? & _). }
  case_bool_decide as Hact; cbn.
  - split; [|done]. split; [|done]. intros _. split_and!; [done|done|done|lia|done].
  - split; [|done]. split; [done|]. by intros ([= ->] & _ & ? & _).
Qed.

(** The witness: a reviewer's token, after another's was revoked and the dead
    ones were swept. *)
Lemma grant_scope_witness :
  let ops := [(Hour, OpIssue (Some [1;2]) "ENG-1" "s1" ["move_state"; "comment"] "" "Done" Minute);
              (Hour, OpIssue (Some [3;4]) "ENG-2" "s2" ["comment"] "" "" Hour);
              (Hour + Second, OpRevoke "0102"); (Hour + Second, OpCleanup)] in
  let '(gr, reason, ok) := fst (Validate "0304" "ENG-2" "comment" (Hour + Minute) (grant_run ops)) in
  ok = true /\ g_RunSessionID gr = "s2" /\
  (ok = true <-> issued "0304" ops = Some gr /\ g_IssueIdentifier gr = "ENG-2" /\
                 "comment" ∈ g_AllowedActions gr /\ Hour + Minute < g_ExpiresAt gr /\ reason = "").
Proof.
  set (ops := [_; _; _; _]). cbn zeta.
  pose proof (grant_scope "0304" "ENG-2" "comment" (Hour + Minute) ops ltac:(done) ltac:(by vm_compute)
    ltac:(intros gr; vm_compute; intros [= <-]; done)) as H.
  destruct (fst (Validate _ _ _ _ _)) as [[gr reason] ok] eqn:E. destruct H as [H _].
  vm_compute in E. injection E as <- <- <-. split; [done|]. split; [done|exact H].
Defined.
