(* ===== verification/StatusHistory.v ===== *)
(** * StatusHistory: what the loop remembers of an issue's tracker states
    (internal/orchestrator/status_history.go, pause_reason.go and the
    retention pass of janitor.go)

    The history of an issue is the list of its state changes, oldest first, at
    most fifty of them. *)

From stdpp Require Import base gmap list strings.
From S2P Require Import Prelude Domain State.

Local Open Scope Z_scope.

Definition StatusSourceTrackerObserved : string := "tracker_observed".
Definition StatusSourceSystem : string := "system".
Definition StatusSourceJanitor : string := "janitor".
Definition maxIssueStatusHistory : nat := 50.

(** [history[len(history)-max:]] when there are more than [max] rows. *)
Definition keep_last {A} (max : nat) (l : list A) : list A :=
  drop (length l - max) l.

Definition set_prev (state : State) (identifier s : string) : State :=
  state <| PrevIssueStates := <[identifier := s]> (PrevIssueStates state) |>.

Definition same_change (a b : IssueStatusChange) : bool :=
  String.eqb (sc_FromState a) (sc_FromState b) && String.eqb (sc_ToState a) (sc_ToState b)
  && String.eqb (sc_Source a) (sc_Source b) && String.eqb (sc_AutomationID a) (sc_AutomationID b).

(** The defaults of lines 82-90; [wall] is what [time.Now] returns. *)
Definition complete_change (state : State) (wall : Time) (c : IssueStatusChange) :
    IssueStatusChange :=
  let c := if String.eqb (sc_Source c) "" then c <| sc_Source := StatusSourceSystem |> else c in
  let c := if time_is_zero (sc_At c) then c <| sc_At := wall |> else c in
  if String.eqb (sc_FromState c) ""
  then c <| sc_FromState := default "" (PrevIssueStates state !! sc_Identifier c) |> else c.

Definition appendIssueStatusChange (state : State) (change : IssueStatusChange) (wall : Time) :
    State :=
  if String.eqb (sc_Identifier change) "" || String.eqb (sc_ToState change) "" then state
  else
    let c := complete_change state wall change in
    let seen := set_prev state (sc_Identifier c) (sc_ToState c) in
    if String.eqb (sc_FromState c) (sc_ToState c)
       && negb (String.eqb (sc_Source c) StatusSourceJanitor) then seen
    else
      let history := default [] (IssueStatusHistory state !! sc_Identifier c) in
      match last history with
      | Some l =>
          if same_change l c then seen
          else seen <| IssueStatusHistory :=
                 <[sc_Identifier c := keep_last maxIssueStatusHistory (history ++ [c])]>
                   (IssueStatusHistory state) |>
      | None =>
          seen <| IssueStatusHistory :=
            <[sc_Identifier c := keep_last maxIssueStatusHistory (history ++ [c])]>
              (IssueStatusHistory state) |>
      end.

Definition observed_change (issue : Issue) (prev : string) (now : Time) : IssueStatusChange :=
  MkIssueStatusChange (issue_Identifier issue) prev (issue_State issue)
    StatusSourceTrackerObserved "" "" "" "" "" "" now.

Definition recordObservedIssueState (state : State) (issue : Issue) (now wall : Time) : State :=
  if String.eqb (issue_Identifier issue) "" || String.eqb (issue_State issue) "" then state
  else
    let prev := default "" (PrevIssueStates state !! issue_Identifier issue) in
    if String.eqb prev "" then set_prev state (issue_Identifier issue) (issue_State issue)
    else appendIssueStatusChange state (observed_change issue prev now) wall.

(** ** Pause reasons (pause_reason.go) *)

Definition setPauseReason (state : State) (identifier reason : string) : State :=
  if String.eqb identifier "" || String.eqb reason "" then state
  else state <| PauseReasons := <[identifier := reason]> (PauseReasons state) |>.

Definition clearPauseReason (state : State) (identifier : string) : State :=
  state <| PauseReasons := base.delete identifier (PauseReasons state) |>.

(** [mark] and [take] of the transition-failed set. *)
Definition mark (ids : gset string) (identifier : string) : gset string := {[identifier]} ∪ ids.
Definition take (ids : gset string) (identifier : string) : bool * gset string :=
  (bool_decide (identifier ∈ ids), ids ∖ {[identifier]}).

(** ** Retention (janitor.go 30-84) *)

Definition issueStatusHistoryRetention : Duration := 7 * 24 * Hour.

Fixpoint latest_after (latest : Time) (history : list IssueStatusChange) : Time :=
  match history with
  | [] => latest
  | c :: rest => latest_after (if time_after (sc_At c) latest then sc_At c else latest) rest
  end.

Definition mostRecentChangeAt (history : list IssueStatusChange) : Time :=
  latest_after zero_time history.

(** Both loops of the pass decide each key on its own, so they are filters. *)
Definition history_kept (candidates : gset string) (now : Time) (retention : Duration)
    (kv : string * list IssueStatusChange) : Prop :=
  let mostRecent := mostRecentChangeAt kv.2 in
  kv.1 ∈ candidates \/ (time_is_zero mostRecent = false /\ time_sub now mostRecent < retention).

#[export] Instance history_kept_dec candidates now retention kv :
  Decision (history_kept candidates now retention kv).
Proof. unfold history_kept. apply _. Defined.

Definition pruneIssueStatusHistory (state : State) (candidates : gset string) (now : Time)
    (retention : Duration) : Z * Z * State :=
  let retention := if retention <=? 0 then issueStatusHistoryRetention else retention in
  let history := filter (history_kept candidates now retention) (IssueStatusHistory state) in
  let removed := dom (IssueStatusHistory state) ∖ dom history in
  let prev := filter (fun kv => kv.1 ∉ removed) (PrevIssueStates state) in
  let prev := filter (fun kv => kv.1 ∈ candidates \/ is_Some (history !! kv.1)) prev in
  (Z.of_nat (size removed), Z.of_nat (size (PrevIssueStates state)) - Z.of_nat (size prev),
   state <| IssueStatusHistory := history |> <| PrevIssueStates := prev |>).

(** Recording a change touches nothing but the history and the previous states. *)
Definition history_only (s s' : State) : Prop :=
  exists h p, s' = s <| IssueStatusHistory := h |> <| PrevIssueStates := p |>.

Lemma history_only_refl s : history_only s s.
Proof. exists (IssueStatusHistory s), (PrevIssueStates s). by destruct s. Qed.

Lemma append_history_only s c w : history_only s (appendIssueStatusChange s c w).
Proof.
  unfold appendIssueStatusChange, set_prev.
  repeat (case_match; cbn; try apply history_only_refl);
    destruct s; cbn; by eexists _, _.
Qed.

Lemma observed_history_only s issue now wall : history_only s (recordObservedIssueState s issue now wall).
Proof.
  unfold recordObservedIssueState. repeat case_match; try apply history_only_refl.
  - exists (IssueStatusHistory s). eexists. by destruct s.
  - apply append_history_only.
Qed.

#[export] Hint Resolve history_only_refl append_history_only observed_history_only : itervox.

(** ** What the history holds *)

Lemma keep_last_app {A} n (l m : list A) :
  keep_last n (keep_last n l ++ m) = keep_last n (l ++ m).
Proof.
  unfold keep_last. rewrite !length_app, length_drop.
  destruct (decide (length l <= n)%nat).
  - replace (length l - n)%nat with 0%nat by lia. rewrite drop_0. f_equal. lia.
  - rewrite <- (drop_app_le l m (length l - n)) by lia. rewrite drop_drop. f_equal. lia.
Qed.

Lemma last_snoc_keep {A} n (l : list A) x : (0 < n)%nat -> last (keep_last n (l ++ [x])) = Some x.
Proof.
  intros Hn. unfold keep_last. rewrite length_app. cbn [length].
  rewrite drop_app_le by lia. apply last_snoc.
Qed.

Lemma map_keep_last {A B} (f : A -> B) n l : map f (keep_last n l) = keep_last n (map f l).
Proof. unfold keep_last. by rewrite length_map, <- (fmap_drop f). Qed.

(** The changes a reader of the successive states would list. *)
Fixpoint transitions (prev : string) (states : list string) : list (string * string) :=
  match states with
  | [] => []
  | s :: rest => if String.eqb prev s then transitions s rest else (prev, s) :: transitions s rest
  end.

Definition all_transitions (states : list string) : list (string * string) :=
  match states with
  | [] => []
  | s :: rest => transitions s rest
  end.

(** The non-empty states a sequence of observations shows for an issue. *)
Definition states_of (identifier : string) (polls : list (Issue * Time)) : list string :=
  map (fun p => issue_State (fst p))
    (filter (fun p => issue_Identifier (fst p) = identifier /\ issue_State (fst p) <> "") polls).

Definition observe (wall : Time) (state : State) (p : Issue * Time) : State :=
  recordObservedIssueState state (fst p) (snd p) wall.

Definition from_to (c : IssueStatusChange) : string * string := (sc_FromState c, sc_ToState c).

Definition history_of (state : State) (identifier : string) : list IssueStatusChange :=
  default [] (IssueStatusHistory state !! identifier).

Lemma complete_observed state wall issue prev now :
  prev <> "" ->
  exists t, complete_change state wall (observed_change issue prev now) =
            observed_change issue prev t.
Proof.
  intros Hp. apply String.eqb_neq in Hp. unfold complete_change.
  replace (String.eqb (sc_Source (observed_change issue prev now)) "") with false by done.
  destruct (time_is_zero (sc_At (observed_change issue prev now))).
  - replace (sc_FromState (observed_change issue prev now <|sc_At := wall|>)) with prev by done.
    rewrite Hp. by exists wall.
  - replace (sc_FromState (observed_change issue prev now)) with prev by done.
    rewrite Hp. by exists now.
Qed.

Section observed.
Variables (id : string) (wall : Time).

Definition follows (state : State) (p : string) : Prop :=
  PrevIssueStates state !! id = Some p /\ p <> "" /\
  (length (history_of state id) <= maxIssueStatusHistory)%nat /\
  forall l, last (history_of state id) = Some l -> sc_ToState l = p.

Lemma observe_other state p :
  ~ (issue_Identifier (fst p) = id /\ issue_State (fst p) <> "") ->
  PrevIssueStates (observe wall state p) !! id = PrevIssueStates state !! id /\
  IssueStatusHistory (observe wall state p) !! id = IssueStatusHistory state !! id.
Proof.
  intros Hp. unfold observe, recordObservedIssueState.
  destruct (String.eqb_spec (issue_State (fst p)) "") as [|Hs]; [by rewrite orb_true_r|].
  destruct (String.eqb_spec (issue_Identifier (fst p)) "") as [|_]; [done|].
  assert (Hid : issue_Identifier (fst p) <> id) by tauto. cbn [orb].
  unfold appendIssueStatusChange, complete_change, set_prev.
  repeat (case_match; cbn; try done); by rewrite ?lookup_insert_ne.
Qed.

Lemma observe_first state p :
  id <> "" -> issue_Identifier (fst p) = id -> issue_State (fst p) <> "" ->
  PrevIssueStates state !! id = None -> IssueStatusHistory state !! id = None ->
  follows (observe wall state p) (issue_State (fst p)) /\
  history_of (observe wall state p) id = [].
Proof.
  intros Hid Hi Hs Hprev Hh. unfold observe, recordObservedIssueState. rewrite Hi, Hprev.
  apply String.eqb_neq in Hid as ->. pose proof Hs as Hs'. apply String.eqb_neq in Hs as ->.
  cbn. unfold follows, history_of, set_prev. cbn. rewrite Hh, lookup_insert_eq. cbn. split_and!; [done..|lia|done|done].
Qed.

(** Appending a change that leads from the last state to [to]. *)
Lemma append_follows state c prev to :
  from_to c = (prev, to) -> to <> "" ->
  let s' := set_prev state id to <| IssueStatusHistory :=
    <[id := keep_last maxIssueStatusHistory (history_of state id ++ [c])]>
      (IssueStatusHistory state) |> in
  follows s' to /\
  map from_to (history_of s' id) =
    keep_last maxIssueStatusHistory (map from_to (history_of state id) ++ [(prev, to)]).
Proof.
  intros Hft Hto s'. pose proof Hft as [= Hf Ht].
  assert (Hh : history_of s' id = keep_last maxIssueStatusHistory (history_of state id ++ [c])).
  { unfold history_of at 1. unfold s'. cbn. by rewrite lookup_insert_eq. }
  unfold follows. rewrite Hh. unfold s', set_prev. cbn [PrevIssueStates]. cbn.
  rewrite lookup_insert_eq. rewrite last_snoc_keep by (unfold maxIssueStatusHistory; lia).
  rewrite map_keep_last, map_app. cbn [map]. rewrite Hft.
  split_and!; try done; [|congruence].
  unfold keep_last. rewrite length_drop. lia.
Qed.

Lemma observe_next state p prev :
  id <> "" -> issue_Identifier (fst p) = id -> issue_State (fst p) <> "" ->
  follows state prev ->
  follows (observe wall state p) (issue_State (fst p)) /\
  map from_to (history_of (observe wall state p) id) =
    keep_last maxIssueStatusHistory
      (map from_to (history_of state id) ++ transitions prev [issue_State (fst p)]).
Proof.
  intros Hid Hi Hs (Hprev & Hp & Hlen & Hlast).
  unfold observe, recordObservedIssueState. rewrite Hi, Hprev.
  change (default "" (Some prev)) with prev. cbn [transitions].
  pose proof Hid as Hid'. apply String.eqb_neq in Hid' as ->.
  pose proof Hs as Hs'. apply String.eqb_neq in Hs' as ->.
  replace (String.eqb prev "") with false by (symmetry; by apply String.eqb_neq). cbn [orb].
  set (c := complete_change state wall (observed_change (fst p) prev (snd p))).
  assert (Hc : sc_Identifier c = id /\ from_to c = (prev, issue_State (fst p)) /\
               sc_Source c = StatusSourceTrackerObserved).
  { destruct (complete_observed state wall (fst p) prev (snd p) Hp) as [t Ht].
    unfold c. rewrite Ht. by rewrite <- Hi. }
  destruct Hc as (Hcid & Hft & Hsrc). injection Hft as Hf Ht.
  unfold appendIssueStatusChange. fold c. cbn [sc_Identifier sc_ToState observed_change].
  replace (String.eqb (issue_Identifier (fst p)) "") with false
    by (symmetry; by apply String.eqb_neq; rewrite Hi).
  replace (String.eqb (issue_State (fst p)) "") with false
    by (symmetry; by apply String.eqb_neq). cbn [orb].
  rewrite Hf, Ht, Hsrc, Hcid. replace (negb _) with true by done. rewrite andb_true_r.
  destruct (String.eqb_spec prev (issue_State (fst p))) as [->|Hne].
  - unfold follows, history_of, set_prev. cbn. rewrite lookup_insert_eq, app_nil_r.
    split; [by split_and!|]. unfold keep_last. rewrite length_map.
    by replace (_ - _)%nat with 0%nat by (unfold history_of in Hlen; lia).
  - pose proof (append_follows state c prev (issue_State (fst p)) ltac:(unfold from_to; congruence) Hs) as Hnew.
    cbn zeta in Hnew. unfold history_of in Hnew at 1 3.
    destruct (last (default [] (IssueStatusHistory state !! id))) as [l|] eqn:El; [|exact Hnew].
    unfold same_change. rewrite (Hlast l El), Hf, Ht.
    apply String.eqb_neq in Hne as ->. rewrite andb_false_r. exact Hnew.
Qed.

Lemma observe_all polls state prev :
  id <> "" -> follows state prev ->
  map from_to (history_of (foldl (observe wall) state polls) id) =
    keep_last maxIssueStatusHistory
      (map from_to (history_of state id) ++ transitions prev (states_of id polls)) /\
  PrevIssueStates (foldl (observe wall) state polls) !! id =
    Some (default prev (last (states_of id polls))).
Proof.
  intros Hid. revert state prev. induction polls as [|p polls IH]; intros state prev Hf.
  - destruct Hf as (Hprev & _ & Hlen & _). cbn. rewrite app_nil_r. split; [|done].
    unfold keep_last. rewrite length_map.
    by replace (_ - _)%nat with 0%nat by (unfold history_of in *; lia).
  - cbn [foldl]. unfold states_of. rewrite filter_cons. case_decide as Hp.
    + destruct Hp as [Hi Hs]. destruct (observe_next state p prev Hid Hi Hs Hf) as [Hf' Hm].
      destruct (IH _ _ Hf') as [IHh IHp]. fold (states_of id polls). cbn [map]. split.
      * rewrite IHh, Hm, keep_last_app, <- app_assoc. f_equal. f_equal.
        cbn [transitions]. by destruct (String.eqb prev (issue_State (fst p))).
      * rewrite IHp. fold (states_of id polls). rewrite last_cons.
        by destruct (last (states_of id polls)).
    + destruct (observe_other state p Hp) as [Hp1 Hp2]. fold (states_of id polls).
      assert (Hh : history_of (observe wall state p) id = history_of state id).
      { unfold history_of. by rewrite Hp2. }
      rewrite <- Hh. apply IH. unfold follows. by rewrite Hp1, Hh.
Qed.

(** The history of an issue is what a reader of its polls would write
    down.  From nothing known of it, through any polls of any issues, its
    history is the list of its changes of state, in order, cut to the last
    fifty, and the state the next change starts from is the last one seen. *)
Theorem observed_history state polls
    (Hid : id <> "")
    (Hprev : PrevIssueStates state !! id = None)
    (Hhist : IssueStatusHistory state !! id = None) :
  let after := foldl (observe wall) state polls in
  map from_to (history_of after id) =
    keep_last maxIssueStatusHistory (all_transitions (states_of id polls)) /\
  PrevIssueStates after !! id = last (states_of id polls).
Proof.
  cbn zeta. revert state Hprev Hhist. induction polls as [|p polls IH]; intros state Hprev Hhist.
  - cbn. unfold history_of. by rewrite Hhist.
  - cbn [foldl]. unfold states_of. rewrite filter_cons. case_decide as Hp.
    + destruct Hp as [Hi Hs]. destruct (observe_first state p Hid Hi Hs Hprev Hhist) as [Hf Hh].
      destruct (observe_all polls _ _ Hid Hf) as [-> ->]. rewrite Hh.
      fold (states_of id polls). cbn [map all_transitions app]. split; [done|].
      rewrite last_cons. fold (states_of id polls). by destruct (last (states_of id polls)).
    + destruct (observe_other state p Hp) as [Hp1 Hp2]. fold (states_of id polls).
      apply IH; congruence.
Qed.
End observed.

Definition at_state (s : string) (t : Time) : Issue * Time :=
  (zero_Issue <| issue_Identifier := "ENG-1" |> <| issue_State := s |>, t).

Example observed_history_witness :
  let polls := [at_state "Todo" 1; at_state "Todo" 2; at_state "Review" 3; at_state "Done" 4] in
  map from_to (history_of (foldl (observe 9) empty_State polls) "ENG-1")
    = [("Todo", "Review"); ("Review", "Done")].
Proof.
  refine (eq_trans (proj1 (observed_history "ENG-1" 9 empty_State
    [at_state "Todo" 1; at_state "Todo" 2; at_state "Review" 3; at_state "Done" 4]
    _ eq_refl eq_refl)) _); [discriminate|vm_compute; reflexivity].
Defined.

(** the retention pass prunes the two maps in step.  It touches no issue
    the tracker still lists; every history it keeps is listed or recent; what
    it drops from the history it drops from the previous states too; and an
    unlisted issue keeps its previous state only with a history. *)
Theorem retention_lockstep state candidates now retention :
  let '(statusRemoved, prevRemoved, after) :=
    pruneIssueStatusHistory state candidates now retention in
  let window := if retention <=? 0 then issueStatusHistoryRetention else retention in
  (forall id, id ∈ candidates ->
     IssueStatusHistory after !! id = IssueStatusHistory state !! id /\
     PrevIssueStates after !! id = PrevIssueStates state !! id) /\
  (forall id, id ∉ candidates ->
     IssueStatusHistory after !! id =
       (h ← IssueStatusHistory state !! id;
        if time_is_zero (mostRecentChangeAt h) then None
        else if time_sub now (mostRecentChangeAt h) <? window then Some h else None) /\
     PrevIssueStates after !! id =
       (_ ← IssueStatusHistory after !! id; PrevIssueStates state !! id)).
Proof.
  unfold pruneIssueStatusHistory. cbn zeta.
  generalize (if retention <=? 0 then issueStatusHistoryRetention else retention). intros w.
  cbn. set (hist := filter (history_kept candidates now w) (IssueStatusHistory state)).
  split; intros id Hid.
  - assert (Hh : hist !! id = IssueStatusHistory state !! id).
    { unfold hist. rewrite map_lookup_filter. destruct (IssueStatusHistory state !! id); [|done].
      cbn. rewrite option_guard_True; [done|]. by left. }
    split; [exact Hh|]. rewrite !map_lookup_filter.
    destruct (PrevIssueStates state !! id); [|done]. cbn.
    rewrite option_guard_True; cbn; [rewrite option_guard_True; [done|by left]|].
    rewrite elem_of_difference, !elem_of_dom, Hh. tauto.
  - split.
    + unfold hist. rewrite map_lookup_filter.
      destruct (IssueStatusHistory state !! id) as [h|]; [|done]. cbn.
      destruct (decide (history_kept candidates now w (id, h))) as [Hk|Hk].
      * rewrite option_guard_True by done. destruct Hk as [|[Hz Hw]]; [done|]. cbn [snd] in Hz, Hw.
        rewrite Hz. apply Z.ltb_lt in Hw. by rewrite Hw.
      * rewrite option_guard_False by done. unfold history_kept in Hk. cbn [fst snd] in Hk.
        destruct (time_is_zero _); [done|]. destruct (Z.ltb_spec (time_sub now (mostRecentChangeAt h)) w);
          [|done]. exfalso. apply Hk. by right.
    + rewrite !map_lookup_filter. destruct (hist !! id) as [h|] eqn:Eh; cbn.
      * destruct (PrevIssueStates state !! id); [|done]. cbn.
        rewrite option_guard_True; cbn; [rewrite option_guard_True; [done|right; by rewrite Eh]|].
        rewrite elem_of_difference, !elem_of_dom, Eh. intros [_ []]. by eexists.
      * destruct (PrevIssueStates state !! id); [|done]. cbn.
        repeat case_guard; cbn; try done.
        match goal with H : _ \/ is_Some _ |- _ => destruct H as [|[]]; [done|] end.
        by rewrite Eh in *.
Qed.
