(* ===== verification/DependencyAudit.v ===== *)
(** * DependencyAudit: blocker audits and the blockers_resolved transition
    (internal/orchestrator/dependency_audit.go)

    Every candidate issue is audited every tick.  A row remembers whether the
    issue was ever seen blocked; the audit that then finds it unblocked fires
    the blockers_resolved transition and disarms the row. *)

From stdpp Require Import base gmap list strings.
From S2P Require Import Prelude Domain State Config Dispatch AutomationQueue StatusHistory.

Local Open Scope Z_scope.

Definition dependencyTransitionReasonBlockersResolved : string := "blockers_resolved".

Definition dependencyAuditKey (issue : Issue) : string :=
  if negb (String.eqb (issue_ID issue) "") then issue_ID issue else issue_Identifier issue.

Definition dependencyStatusForIssue (issue : Issue) (state : State) : DependencyAuditStatus :=
  match issue_BlockedBy issue with
  | [] => DependencyAuditUnblocked
  | _ =>
      match unresolvedBlockers issue state with
      | [] => DependencyAuditUnblocked
      | unresolved =>
          if existsb (fun b => match br_State b with None => true | Some _ => false end) unresolved
          then DependencyAuditUnknown else DependencyAuditBlocked
      end
  end.

Definition non_empty (s : option string) : option string :=
  match s with
  | Some x => if String.eqb x "" then None else Some x
  | None => None
  end.

Definition blockerKey (b : BlockerRef) : string :=
  match non_empty (br_ID b), non_empty (br_Identifier b), non_empty (br_URL b) with
  | Some x, _, _ => "id:" +:+ x
  | None, Some x, _ => "identifier:" +:+ x
  | None, None, Some x => "url:" +:+ x
  | None, None, None => "unknown"
  end.

Definition resolvedBlockers (issue : Issue) (unresolved : list BlockerRef) : list BlockerRef :=
  let unresolvedKeys := map blockerKey unresolved in
  filter (fun b => blockerKey b ∉ unresolvedKeys) (issue_BlockedBy issue).

Definition dependencySourceForBlocker (b : BlockerRef) : DependencyAuditSource :=
  if String.eqb (br_Origin b) BlockerOriginSubIssue then DependencySourceSubIssue
  else match br_Identifier b with
       | Some x => if has_prefix x "#" then DependencySourceIssueText
                   else DependencySourceTrackerRelation
       | None => DependencySourceTrackerRelation
       end.

Fixpoint distinct_from (seen : list DependencyAuditSource) (l : list DependencyAuditSource) :
    list DependencyAuditSource :=
  match l with
  | [] => []
  | x :: rest => if decide (x ∈ seen) then distinct_from seen rest
                 else x :: distinct_from (x :: seen) rest
  end.

Definition dependencySources (issue : Issue) : list DependencyAuditSource :=
  distinct_from [] (map dependencySourceForBlocker (issue_BlockedBy issue)).

Definition issueHasResolvedBlockersTransition (prev : option DependencyAuditEntry)
    (next : DependencyAuditEntry) : bool :=
  match prev with
  | None => false
  | Some p =>
      if negb (bool_decide (da_Status next = DependencyAuditUnblocked)) then false
      else if bool_decide (da_Status p = DependencyAuditUnblocked) then false
      else da_WasBlocked p
  end.

(** The row of this pass before the transition (lines 21-62). *)
Definition audit_row (state : State) (prev : option DependencyAuditEntry) (issue : Issue)
    (now : Time) : DependencyAuditEntry :=
  let unresolved := unresolvedBlockers issue state in
  let next := MkDependencyAuditEntry (issue_ID issue) (issue_Identifier issue) (issue_State issue)
    (dependencyStatusForIssue issue state) (dependencySources issue) (issue_BlockedBy issue)
    unresolved (resolvedBlockers issue unresolved) false zero_time zero_time now 0 "" false 0
    zero_time in
  let next :=
    match prev with
    | None => next
    | Some p =>
        next <| da_WasBlocked := da_WasBlocked p |> <| da_FirstBlockedAt := da_FirstBlockedAt p |>
             <| da_UnblockedAt := da_UnblockedAt p |>
             <| da_LastTransitionVersion := da_LastTransitionVersion p |>
             <| da_LastTransitionReason := da_LastTransitionReason p |>
             <| da_InFlight := da_InFlight p |>
             <| da_ConsecutiveFailures := da_ConsecutiveFailures p |>
             <| da_LastRefreshAttemptAt := da_LastRefreshAttemptAt p |>
    end in
  if bool_decide (da_Status next = DependencyAuditBlocked) then
    let next := next <| da_WasBlocked := true |> in
    if time_is_zero (da_FirstBlockedAt next) then next <| da_FirstBlockedAt := now |> else next
  else next.

Definition auditIssueDependencies (state : State) (issue : Issue) (now : Time) :
    DependencyAuditEntry * State :=
  let key := dependencyAuditKey issue in
  let prev := DependencyAudit state !! key in
  let next := audit_row state prev issue now in
  if issueHasResolvedBlockersTransition prev next then
    let seq := add64 (DependencyTransitionSeq state) 1 in
    let next := next <| da_UnblockedAt := now |> <| da_LastTransitionVersion := seq |>
                     <| da_LastTransitionReason := dependencyTransitionReasonBlockersResolved |> in
    (next, state <| DependencyTransitionSeq := seq |>
                 <| DependencyAudit :=
                      <[key := next <| da_WasBlocked := false |>]> (DependencyAudit state) |>)
  else
    (next, state <| DependencyAudit := <[key := next]> (DependencyAudit state) |>).

Definition sameIssueIdentity (a b : Issue) : bool :=
  if negb (String.eqb (issue_ID a) "") && negb (String.eqb (issue_ID b) "")
     && String.eqb (issue_ID a) (issue_ID b) then true
  else negb (String.eqb (issue_Identifier a) "") && negb (String.eqb (issue_Identifier b) "")
       && String.eqb (issue_Identifier a) (issue_Identifier b).

Definition AutomationQueueReasonReady : string := "ready".

(** Each entry is updated on its own. *)
Definition refresh_queued (issue : Issue) (audit : DependencyAuditEntry) (now : Time)
    (e : AutomationQueueEntry) : AutomationQueueEntry :=
  if negb (sameIssueIdentity (aq_Issue e) issue) then e
  else
    let e := e <| aq_Issue := issue |> in
    if String.eqb (aq_Reason e) AutomationQueueReasonBlockedBy
       && bool_decide (da_Status audit = DependencyAuditUnblocked)
    then e <| aq_Status := AutomationQueueQueued |> <| aq_Reason := AutomationQueueReasonReady |>
           <| aq_ReasonDetail := "" |> <| aq_LastAttemptAt := now |>
    else e.

Definition updateAutomationQueueIssueFromDependencyAudit (state : State) (issue : Issue)
    (audit : DependencyAuditEntry) (now : Time) : State :=
  state <| AutomationQueue := (refresh_queued issue audit now <$> AutomationQueue state) |>.

Definition auditFetchedIssueDependencies (state : State) (issue : Issue) (now wall : Time) :
    DependencyAuditEntry * State :=
  let state := recordObservedIssueState state issue now wall in
  let '(entry, state) := auditIssueDependencies state issue now in
  (entry, updateAutomationQueueIssueFromDependencyAudit state issue entry now).

(** The issues a blockers_resolved entry of the queue names. *)
Definition blockersResolvedQueueIdentifiers (state : State) : gset string :=
  let wanted (e : AutomationQueueEntry) :=
    String.eqb (aq_TriggerType e) AutomationTriggerBlockersResolved
    || String.eqb (trig_Type (aq_Trigger e)) AutomationTriggerBlockersResolved in
  let names (e : AutomationQueueEntry) :=
    filter (.≠ "") [issue_Identifier (aq_Issue e); issue_ID (aq_Issue e)] in
  list_to_set (flat_map names
    (filter (fun e => wanted e = true) (map snd (map_to_list (AutomationQueue state))))).

Fixpoint dedup_fold_from (seen : list string) (values : list string) : list string :=
  match values with
  | [] => []
  | v :: rest =>
      let key := to_lower (trim_space v) in
      if String.eqb key "" || bool_decide (key ∈ seen) then dedup_fold_from seen rest
      else v :: dedup_fold_from (key :: seen) rest
  end.

Definition deduplicateStringsFold (values : list string) : list string := dedup_fold_from [] values.

(** ** The transition fires once per blocked episode *)

(** One pass over the issues of a poll, in the order they are audited. *)
Definition audit_step (state : State) (p : Issue * Time) : State :=
  snd (auditIssueDependencies state (fst p) (snd p)).

(** The statuses the audits of [key] see, and whether each of them fired: the
    transition counter moved. *)
Fixpoint audit_trace (key : string) (state : State) (polls : list (Issue * Time)) :
    list (DependencyAuditStatus * bool) :=
  match polls with
  | [] => []
  | p :: rest =>
      let after := audit_step state p in
      let tail := audit_trace key after rest in
      if String.eqb (dependencyAuditKey (fst p)) key then
        (dependencyStatusForIssue (fst p) state,
         negb (DependencyTransitionSeq after =? DependencyTransitionSeq state)) :: tail
      else tail
  end.

(** An observer that remembers the last known status, and speaks up when it
    turns from blocked to unblocked.  Unknown statuses it ignores. *)
Fixpoint unblocking_edges (known : option DependencyAuditStatus)
    (statuses : list DependencyAuditStatus) : list bool :=
  match statuses with
  | [] => []
  | DependencyAuditUnknown :: rest => false :: unblocking_edges known rest
  | s :: rest =>
      bool_decide (known = Some DependencyAuditBlocked /\ s = DependencyAuditUnblocked)
        :: unblocking_edges (Some s) rest
  end.

(** What the row of an issue says of the last known status. *)
Definition remembers (state : State) (key : string) (known : option DependencyAuditStatus) : Prop :=
  match DependencyAudit state !! key with
  | None => known = None
  | Some p =>
      da_WasBlocked p = bool_decide (known = Some DependencyAuditBlocked) /\
      (da_Status p = DependencyAuditUnblocked -> known = Some DependencyAuditUnblocked)
  end.

Lemma audit_row_status state prev issue now :
  da_Status (audit_row state prev issue now) = dependencyStatusForIssue issue state.
Proof. unfold audit_row. destruct prev; cbn; repeat case_match; reflexivity. Qed.

Lemma audit_row_was_blocked state prev issue now :
  da_WasBlocked (audit_row state prev issue now) =
    bool_decide (dependencyStatusForIssue issue state = DependencyAuditBlocked)
    || match prev with Some p => da_WasBlocked p | None => false end.
Proof.
  unfold audit_row.
  destruct prev as [p|]; cbn; destruct (dependencyStatusForIssue issue state); cbn;
    repeat case_match; reflexivity.
Qed.

Lemma wrap_moves x : negb (add64 x 1 =? x) = true.
Proof.
  apply negb_true_iff, Z.eqb_neq. unfold add64, wrap64. intros H.
  pose proof (Z.mod_pos_bound (x + 1 + 2 ^ 63) (2 ^ 64) ltac:(lia)) as Hb.
  pose proof (Z.div_mod (x + 1 + 2 ^ 63) (2 ^ 64) ltac:(lia)). lia.
Qed.

Lemma audit_step_spec key state p known :
  remembers state key known -> dependencyAuditKey (fst p) = key ->
  let after := audit_step state p in
  let status := dependencyStatusForIssue (fst p) state in
  negb (DependencyTransitionSeq after =? DependencyTransitionSeq state)
    = bool_decide (known = Some DependencyAuditBlocked /\ status = DependencyAuditUnblocked) /\
  remembers after key (match status with DependencyAuditUnknown => known | s => Some s end).
Proof.
  intros Hr Hk. cbn zeta. unfold audit_step, auditIssueDependencies. rewrite Hk.
  pose proof (audit_row_was_blocked state (DependencyAudit state !! key) (fst p) (snd p)) as Hwb.
  pose proof (audit_row_status state (DependencyAudit state !! key) (fst p) (snd p)) as Hst.
  revert Hwb Hst. generalize (audit_row state (DependencyAudit state !! key) (fst p) (snd p)).
  generalize (dependencyStatusForIssue (fst p) state). intros s row Hwb Hst.
  unfold remembers in Hr.
  assert (Hcase : let fired :=
      issueHasResolvedBlockersTransition (DependencyAudit state !! key) row in
    fired = bool_decide (known = Some DependencyAuditBlocked /\ s = DependencyAuditUnblocked) /\
    (fired = false -> da_WasBlocked row =
       bool_decide ((match s with DependencyAuditUnknown => known | s => Some s end)
                    = Some DependencyAuditBlocked))).
  { cbn zeta. unfold issueHasResolvedBlockersTransition. rewrite Hst.
    destruct (DependencyAudit state !! key) as [prev|].
    - destruct Hr as [Hw Hu]. rewrite Hw in *. rewrite Hwb.
      destruct s, (da_Status prev), known as [[]|]; cbn in *; try done;
        specialize (Hu eq_refl); done.
    - subst known. rewrite Hwb. by destruct s. }
  cbn zeta in Hcase. destruct Hcase as [Hf Hnot].
  destruct (issueHasResolvedBlockersTransition _ row) eqn:E;
    rewrite <- Hf; unfold remembers; cbn; rewrite lookup_insert_eq.
  - split; [apply wrap_moves|]. symmetry in Hf. apply bool_decide_eq_true in Hf as [-> ->].
    cbn. rewrite Hst. done.
  - split; [by rewrite Z.eqb_refl|]. rewrite Hnot by done. split; [done|].
    rewrite Hst. by intros ->.
Qed.

Lemma audit_step_other key state p :
  dependencyAuditKey (fst p) <> key ->
  DependencyAudit (audit_step state p) !! key = DependencyAudit state !! key.
Proof.
  intros Hk. unfold audit_step, auditIssueDependencies.
  destruct (issueHasResolvedBlockersTransition _ _); cbn; by rewrite lookup_insert_ne.
Qed.

(** C37: blockers_resolved fires exactly once per blocked episode.  Whatever
    other issues are audited in between, the audits of an issue fire where an
    observer of its known statuses sees blocked turn into unblocked: never
    twice for an episode, never missed, and never because the tracker failed
    to say (an unknown status neither arms nor fires it). *)
Theorem blockers_resolved_once key state polls
    (Hfresh : DependencyAudit state !! key = None) :
  map snd (audit_trace key state polls)
    = unblocking_edges None (map fst (audit_trace key state polls)).
Proof.
  assert (Hr : remembers state key None) by (unfold remembers; by rewrite Hfresh).
  revert Hr. clear Hfresh. generalize (@None DependencyAuditStatus).
  revert state. induction polls as [|p polls IH]; intros state known Hr; [done|].
  cbn [audit_trace]. destruct (String.eqb_spec (dependencyAuditKey (fst p)) key) as [Hk|Hk].
  - destruct (audit_step_spec key state p known Hr Hk) as [Hf Hr'].
    cbn [map fst snd unblocking_edges]. rewrite Hf, (IH _ _ Hr').
    destruct (dependencyStatusForIssue (fst p) state); cbn; try done.
    f_equal. by apply bool_decide_eq_false_2; intros [_ ?].
  - apply IH. unfold remembers in *. by rewrite audit_step_other.
Qed.

Definition blocker_in (s : option string) : BlockerRef :=
  MkBlockerRef (Some "b") None s None "" None.

Definition blocked_by (s : option string) (t : Time) : Issue * Time :=
  (zero_Issue <| issue_ID := "i" |> <| issue_BlockedBy := [blocker_in s] |>, t).

Example blockers_resolved_once_witness :
  map snd (audit_trace "i" empty_State
    [blocked_by (Some "Todo") 1; blocked_by None 2; blocked_by (Some "Done") 3;
     blocked_by None 4; blocked_by (Some "Done") 5])
  = [false; false; true; false; false].
Proof.
  refine (eq_trans (blockers_resolved_once "i" empty_State
    [blocked_by (Some "Todo") 1; blocked_by None 2; blocked_by (Some "Done") 3;
     blocked_by None 4; blocked_by (Some "Done") 5] eq_refl) _).
  vm_compute. reflexivity.
Defined.
