(* ===== verification/Janitor.v ===== *)
(** * Janitor: the per-tick sweeps of the runtime ledgers
    (internal/orchestrator/janitor.go; the history and queue sweeps are in
    StatusHistory and AutomationQueue)

    Ledgers are keyed by identifier, except that [Running] and [RetryAttempts]
    are keyed by issue id. *)

From Stdlib Require Import Ascii.
From stdpp Require Import base gmap list strings.
From S2P Require Import Prelude Domain State Config Dispatch AutomationQueue StatusHistory.
From S2P Require Import DependencyAudit.

Local Open Scope Z_scope.

Definition JanitorReasonIssueTerminal : string := "issue_terminal".
Definition JanitorReasonAbsentFromTracker : string := "absent_from_tracker".

Record LedgerJanitorCounts := MkLedgerJanitorCounts {
  lj_InputRequired : Z;
  lj_Retry : Z;
  lj_Queue : Z;
  lj_Paused : Z;
  lj_Profile : Z;
  lj_Backend : Z;
}.

Definition zero_counts : LedgerJanitorCounts := MkLedgerJanitorCounts 0 0 0 0 0 0.

(** ** Pruning one map (142-205) *)

(** The removed identifiers are what the recording closure collects. *)
Definition pruneMap {V} (m : gmap string V) (identOf : string -> V -> string)
    (keep : string -> bool) : Z * list string * gmap string V :=
  let kept := filter (fun kv => keep (identOf kv.1 kv.2) = true) m in
  let gone := filter (fun kv => keep (identOf kv.1 kv.2) = false) m in
  (Z.of_nat (size gone), map (fun kv => identOf kv.1 kv.2) (map_to_list gone), kept).

(** A set is a map to the empty struct. *)
Definition pruneSet (s : gset string) (identOf : string -> string) (keep : string -> bool) :
    gset string :=
  filter (fun key => keep (identOf key) = true) s.

Definition identOfKey {V} (key : string) (_ : V) : string := key.

Definition identOfRetry (issueID : string) (e : RetryEntry) : string :=
  if negb (String.eqb (retry_Identifier e) "") then retry_Identifier e else issueID.

(** [strings.IndexByte(key, '|') > 0]: the text before the first bar, unless
    it is empty. *)
Definition identOfPROpened (key : string) : string :=
  let '(before, _, ok) := cut_at "|"%char key in
  if ok && negb (String.eqb before "") then before else key.

Definition pausedCleanup (state : State) (keep : string -> bool) : Z * list string * State :=
  let '(n, idents, kept) := pruneMap (PausedIdentifiers state) identOfKey keep in
  let gone := filter (fun kv => keep kv.1 = false) (PausedIdentifiers state) in
  (n, idents,
   state <| PausedIdentifiers := kept |>
         <| PauseReasons := filter (fun kv => kv.1 ∉ dom gone) (PauseReasons state) |>
         <| PausedSessions := filter (fun kv => (kv.1 ∉ dom gone) /\ (kv.1 ∉ map snd (map_to_list gone)))
                                (PausedSessions state) |>).

(** The identifiers the queue sweep rejects, for the recording closure. *)
Definition queue_rejects (state : State) (keep : string -> bool) : list string :=
  filter (fun i => keep i = false)
    (map (fun kv => issue_Identifier (aq_Issue kv.2)) (map_to_list (AutomationQueue state))).

(** The four prunes both sweeps make, in their order: the counts and the
    rejected identifiers. *)
Definition pruneIssueLedgers (keep : string -> bool) (state : State) :
    LedgerJanitorCounts * list string * State :=
  let '(nInput, r1, input) := pruneMap (InputRequiredIssues state) identOfKey keep in
  let state := state <| InputRequiredIssues := input |> in
  let '(nRetry, r2, retry) := pruneMap (RetryAttempts state) identOfRetry keep in
  let state := state <| RetryAttempts := retry |> in
  let r3 := queue_rejects state keep in
  let '(nQueue, state) := pruneAutomationQueue keep state in
  let '(nPaused, r4, state) := pausedCleanup state keep in
  (MkLedgerJanitorCounts nInput nRetry nQueue nPaused 0 0, r1 ++ r2 ++ r3 ++ r4, state).

(** One janitor row per identifier, with an empty [FromState] that
    [appendIssueStatusChange] completes. *)
Definition janitor_row (reason : string) (now : Time) (state : State) (ident : string) : State :=
  appendIssueStatusChange state
    (MkIssueStatusChange ident "" (default "" (PrevIssueStates state !! ident))
       StatusSourceJanitor "" "" "" "" "" reason now) now.

(** ** Terminal issues (250-298) *)

Definition pruneTerminalRuntimeLedgers (state : State) (terminal : gset string) (now : Time) :
    LedgerJanitorCounts * State :=
  if decide (size terminal = 0%nat) then (zero_counts, state)
  else
    let keep ident := negb (bool_decide (ident ∈ terminal)) in
    let state := state
      <| PROpenedDispatched := pruneSet (PROpenedDispatched state) identOfPROpened keep |>
      <| PRMergedDispatched := pruneSet (PRMergedDispatched state) identOfPROpened keep |>
      <| BackendLimitedHolds := snd (pruneMap (BackendLimitedHolds state) identOfKey keep) |> in
    let '(counts, _, state) := pruneIssueLedgers keep state in
    if 0 <? lj_InputRequired counts + lj_Retry counts + lj_Queue counts + lj_Paused counts then
      (counts, foldl (janitor_row JanitorReasonIssueTerminal now) state (elements terminal))
    else (counts, state).

(** ** Absent issues (300-412) *)

Definition dependencyAuditIdentifiers (state : State) : gset string :=
  list_to_set (filter (.≠ "") (map (fun kv => da_Identifier kv.2)
    (map_to_list (DependencyAudit state)))).

Definition buildPresentPredicate (state : State) (currentActive prevActive : gset string)
    (id : string) : bool :=
  let auditIdents := dependencyAuditIdentifiers state in
  bool_decide (id ∈ currentActive) || bool_decide (id ∈ prevActive)
  || bool_decide (is_Some (Running state !! id)) || bool_decide (id ∈ auditIdents).

Definition pruneAbsentTrackerIssues (state : State) (currentActive prevActive : gset string)
    (now : Time) : LedgerJanitorCounts * State :=
  if decide (size prevActive = 0%nat) then (zero_counts, state)
  else
    let keep := buildPresentPredicate state currentActive prevActive in
    let '(counts, r, state) := pruneIssueLedgers keep state in
    let '(nProfile, r5, profiles) := pruneMap (IssueProfiles state) identOfKey keep in
    let state := state <| IssueProfiles := profiles |> in
    let '(nBackend, r6, backends) := pruneMap (IssueBackends state) identOfKey keep in
    let state := state <| IssueBackends := backends |> in
    let removedIdents : gset string := list_to_set (r ++ r5 ++ r6) in
    let state := state
      <| AutoSwitchedIdentifiers := pruneSet (AutoSwitchedIdentifiers state) (fun k => k) keep |>
      <| AutoSwitchedAt := snd (pruneMap (AutoSwitchedAt state) identOfKey keep) |>
      <| AutoSwitchInfo := snd (pruneMap (AutoSwitchInfo state) identOfKey keep) |>
      <| BackendLimitedHolds := snd (pruneMap (BackendLimitedHolds state) identOfKey keep) |> in
    (MkLedgerJanitorCounts (lj_InputRequired counts) (lj_Retry counts) (lj_Queue counts)
       (lj_Paused counts) nProfile nBackend,
     foldl (janitor_row JanitorReasonAbsentFromTracker now) state (elements removedIdents)).

(** ** Audit rows (86-128, 414-434) *)

Definition automationQueueIdentifiers (state : State) : gset string :=
  list_to_set (filter (.≠ "")
    (flat_map (fun kv => [issue_Identifier (aq_Issue kv.2); issue_ID (aq_Issue kv.2)])
       (map_to_list (AutomationQueue state)))).

Definition audit_row_kept (state : State) (e : DependencyAuditEntry) : bool :=
  let queued := automationQueueIdentifiers state in
  negb (isTerminalState (da_IssueState e) state)
  || bool_decide (da_Identifier e ∈ queued)
  || (negb (String.eqb (da_IssueID e) "") && bool_decide (da_IssueID e ∈ queued))
  || bool_decide (is_Some (Running state !! da_Identifier e)).

Definition pruneTerminalDependencyAudit (state : State) : Z * State :=
  let kept := filter (fun kv => audit_row_kept state kv.2 = true) (DependencyAudit state) in
  (Z.of_nat (size (DependencyAudit state)) - Z.of_nat (size kept),
   state <| DependencyAudit := kept |>).

(** ** Review ledgers (436-501) *)

Definition pruneReviewLedgers (state : State) (untracked midChain : string -> bool) : Z * State :=
  let keep ident := negb (untracked ident) || midChain ident in
  let '(n1, _, verdicts) := pruneMap (ReviewVerdicts state) identOfKey keep in
  let '(n2, _, outcomes) := pruneMap (ReviewOutcomes state) identOfKey keep in
  let '(n3, _, chain) := pruneMap (ReviewChainIndex state) identOfKey keep in
  (n1 + n2 + n3,
   state <| ReviewVerdicts := verdicts |> <| ReviewOutcomes := outcomes |>
         <| ReviewChainIndex := chain |>).

Definition untrackedIdentifierPredicate (terminal currentActive prevActive : gset string)
    (ident : string) : bool :=
  if bool_decide (ident ∈ terminal) then true
  else if decide (size prevActive = 0%nat) then false
  else negb (bool_decide (ident ∈ currentActive)) && negb (bool_decide (ident ∈ prevActive)).

(** [injected] are the keys of the orchestrator's reviewerInjectedProfiles. *)
Definition reviewMidChainPredicate (state : State) (injected : gset string) (ident : string) : bool :=
  existsb (fun kv => String.eqb (issue_Identifier (run_Issue kv.2)) ident)
    (map_to_list (Running state))
  || existsb (fun kv => String.eqb (retry_Identifier kv.2) ident) (map_to_list (RetryAttempts state))
  || bool_decide (ident ∈ injected).

(** ** Discard markers (560-603) *)

Definition postRunTimeout : Duration := 60 * Second.
Definition discardMarkerTTL : Duration := postRunTimeout + 30 * Second + 30 * Second.

Definition markDiscarding (state : State) (identifier : string) (now : Time) : Z * State :=
  let gen := addu64 (DiscardGeneration state) 1 in
  (gen, state <| DiscardGeneration := gen |>
              <| DiscardingIdentifiers :=
                   <[identifier := MkDiscardMarker gen now]> (DiscardingIdentifiers state) |>).

Definition marker_kept (now : Time) (m : DiscardMarker) : bool :=
  time_is_zero (discard_At m) || (time_sub now (discard_At m) <=? discardMarkerTTL).

Definition expireDiscardMarkers (state : State) (now : Time) : Z * State :=
  let kept := filter (fun kv => marker_kept now kv.2 = true) (DiscardingIdentifiers state) in
  (Z.of_nat (size (DiscardingIdentifiers state)) - Z.of_nat (size kept),
   state <| DiscardingIdentifiers := kept |>).

(** ** What the sweeps do *)

Lemma pruneMap_lookup {V} (m : gmap string V) identOf keep k v :
  snd (pruneMap m identOf keep) !! k = Some v <-> m !! k = Some v /\ keep (identOf k v) = true.
Proof. cbn. apply map_lookup_filter_Some. Qed.

Lemma pruneSet_elem s identOf keep k :
  (k ∈ pruneSet s identOf keep) <-> k ∈ s /\ keep (identOf k) = true.
Proof. unfold pruneSet. rewrite elem_of_filter. tauto. Qed.

Lemma pruneAutomationQueue_lookup keep state k e :
  AutomationQueue (snd (pruneAutomationQueue keep state)) !! k = Some e <->
  AutomationQueue state !! k = Some e /\ keep (issue_Identifier (aq_Issue e)) = true.
Proof.
  unfold pruneAutomationQueue. destruct (decide _) as [Hz|].
  - apply map_size_empty_inv in Hz. cbn. rewrite Hz, lookup_empty. naive_solver.
  - cbn. apply map_lookup_filter_Some.
Qed.

Lemma rows_history_only reason now l s : history_only s (foldl (janitor_row reason now) s l).
Proof.
  revert s. induction l as [|x l IH]; intros s; [apply history_only_refl|].
  cbn [foldl]. destruct (IH (janitor_row reason now s x)) as (h & p & ->).
  destruct (append_history_only s (MkIssueStatusChange x "" (default "" (PrevIssueStates s !! x))
       StatusSourceJanitor "" "" "" "" "" reason now) now) as (h' & p' & E).
  unfold janitor_row. rewrite E. by exists h, p.
Qed.

(** What a sweep with the predicate [keep] leaves of the issue ledgers. *)
Record swept (keep : string -> bool) (before after : State) : Prop := {
  sw_input : forall k v, InputRequiredIssues after !! k = Some v <->
    InputRequiredIssues before !! k = Some v /\ keep k = true;
  sw_retry : forall k v, RetryAttempts after !! k = Some v <->
    RetryAttempts before !! k = Some v /\ keep (identOfRetry k v) = true;
  sw_queue : forall k v, AutomationQueue after !! k = Some v <->
    AutomationQueue before !! k = Some v /\ keep (issue_Identifier (aq_Issue v)) = true;
  sw_paused : forall k v, PausedIdentifiers after !! k = Some v <->
    PausedIdentifiers before !! k = Some v /\ keep k = true;
  sw_reasons : forall k v, PauseReasons after !! k = Some v <->
    PauseReasons before !! k = Some v /\ (keep k = true \/ PausedIdentifiers before !! k = None);
  sw_order : queue_wf before -> queue_wf after;
}.

Lemma swept_all keep s : (forall i, keep i = true) -> swept keep s s.
Proof. intros H. constructor; intros; rewrite ?H; tauto. Qed.

Lemma prune_queue_only keep state :
  exists m o bp, snd (pruneAutomationQueue keep state) =
    state <| AutomationQueue := m |> <| AutomationQueueOrder := o |> <| QueueBackpressure := bp |>.
Proof.
  unfold pruneAutomationQueue. destruct (decide _).
  - exists (AutomationQueue state), (AutomationQueueOrder state), (QueueBackpressure state).
    by destruct state.
  - by eexists _, _, _.
Qed.

Lemma reasons_kept state keep k v :
  filter (fun kv => kv.1 ∉ dom (filter (fun kv => keep kv.1 = false) (PausedIdentifiers state)))
    (PauseReasons state) !! k = Some v <->
  PauseReasons state !! k = Some v /\ (keep k = true \/ PausedIdentifiers state !! k = None).
Proof.
  rewrite map_lookup_filter_Some. cbn. rewrite elem_of_dom.
  split; intros [Hv Hk]; (split; [exact Hv|]).
  - destruct (keep k) eqn:E; [by left|right]. destruct (PausedIdentifiers state !! k) as [i|] eqn:Ei; [|done].
    exfalso. apply Hk. exists i. by apply map_lookup_filter_Some.
  - intros [i [Hi Hf]%map_lookup_filter_Some]. cbn in Hf. destruct Hk; congruence.
Qed.

(** The fields the four prunes and the janitor rows leave alone. *)
Definition same_rest (s s' : State) : Prop :=
  Running s' = Running s /\ IssueProfiles s' = IssueProfiles s /\
  IssueBackends s' = IssueBackends s /\ BackendLimitedHolds s' = BackendLimitedHolds s /\
  PROpenedDispatched s' = PROpenedDispatched s /\ AutoSwitchInfo s' = AutoSwitchInfo s.


Lemma swept_history keep s s1 s2 : swept keep s s1 -> history_only s1 s2 -> swept keep s s2.
Proof.
  intros [] (h & p & ->). constructor; try done.
  intros H. by eapply queue_wf_same; [|auto].
Qed.

Lemma same_rest_history s s1 s2 : same_rest s s1 -> history_only s1 s2 -> same_rest s s2.
Proof. intros H (h & p & ->). exact H. Qed.

Lemma issue_ledgers_swept keep state :
  let after := snd (pruneIssueLedgers keep state) in
  swept keep state after /\ same_rest state after.
Proof.
  cbn zeta. unfold pruneIssueLedgers. cbn [pruneMap].
  set (s1 := state <| InputRequiredIssues := _ |> <| RetryAttempts := _ |>).
  destruct (pruneAutomationQueue keep s1) as [nq sq] eqn:Eq.
  pose proof (prune_queue_only keep s1) as (m & o & bp & Hs).
  pose proof (pruneAutomationQueue_lookup keep s1) as Hl. pose proof (prune_wf s1 keep) as Hw.
  rewrite Eq in Hs, Hl, Hw. cbn [snd] in *. subst sq. cbn in Hl.
  split; [constructor|done]; cbn.
  - intros k v. apply map_lookup_filter_Some.
  - intros k v. apply map_lookup_filter_Some.
  - exact Hl.
  - intros k v. apply map_lookup_filter_Some.
  - intros k v. apply reasons_kept.
  - intros H. eapply queue_wf_same; [|apply Hw; eapply queue_wf_same; [|exact H]]; done.
Qed.

(** The terminal sweep is exact.  After it no ledger of the loop holds
    anything for an issue the tracker shows in a terminal state, whichever way
    the ledger is keyed; nothing of any other issue is lost; workers are never
    touched and the queue stays well formed. *)
Theorem terminal_sweep_exact state terminal now :
  let after := snd (pruneTerminalRuntimeLedgers state terminal now) in
  let keep ident := negb (bool_decide (ident ∈ terminal)) in
  swept keep state after /\ Running after = Running state /\
  (forall k v, BackendLimitedHolds after !! k = Some v <->
     BackendLimitedHolds state !! k = Some v /\ keep k = true) /\
  (forall key, (key ∈ PROpenedDispatched after) <->
     key ∈ PROpenedDispatched state /\ keep (identOfPROpened key) = true).
Proof.
  intros after0 keep. subst after0. unfold pruneTerminalRuntimeLedgers. fold keep.
  destruct (decide _) as [Hz|Hz].
  { apply size_empty_inv in Hz. assert (Hk : forall i, bool_decide (i ∈ terminal) = false).
    { intros i. apply bool_decide_eq_false. set_solver. }
    split_and!; [apply swept_all; intros i; unfold keep; by rewrite Hk|done|..];
      intros; unfold keep; rewrite Hk; cbn; tauto. }
  clearbody keep. cbn zeta.
  set (s0 := state <| PROpenedDispatched := _ |> <| PRMergedDispatched := _ |>
               <| BackendLimitedHolds := _ |>).
  destruct (issue_ledgers_swept keep s0) as [Hsw Hrest].
  destruct (pruneIssueLedgers keep s0) as [[counts r] s1]. cbn [snd] in *.
  set (after := snd (if 0 <? _ then _ else _)).
  assert (Ha : history_only s1 after).
  { unfold after. destruct (0 <? _); [apply rows_history_only|apply history_only_refl]. }
  pose proof (swept_history _ _ _ _ Hsw Ha) as Hsw'.
  destruct (same_rest_history _ _ _ Hrest Ha) as (-> & _ & _ & -> & -> & _).
  split_and!.
  - destruct Hsw'. constructor; try done.
    intros H. apply sw_order0. by eapply queue_wf_same; [|exact H].
  - done.
  - intros k v. apply pruneMap_lookup.
  - intros k. apply pruneSet_elem.
Qed.

(** The absence sweep needs two polls in a row.  Without an earlier poll
    it does nothing; an identifier in either of the two polls, or with an audit
    row, keeps every ledger entry and override; the others lose exactly
    theirs, and workers are never touched. *)
Theorem absent_sweep_grace state currentActive prevActive now :
  let after := snd (pruneAbsentTrackerIssues state currentActive prevActive now) in
  let keep := buildPresentPredicate state currentActive prevActive in
  (prevActive = ∅ -> after = state) /\
  (forall id, id ∈ currentActive ∪ prevActive ∪ dependencyAuditIdentifiers state ->
     keep id = true) /\
  (prevActive <> ∅ ->
   swept keep state after /\ Running after = Running state /\
   (forall k v, IssueProfiles after !! k = Some v <->
      IssueProfiles state !! k = Some v /\ keep k = true) /\
   (forall k v, IssueBackends after !! k = Some v <->
      IssueBackends state !! k = Some v /\ keep k = true) /\
   (forall k v, BackendLimitedHolds after !! k = Some v <->
      BackendLimitedHolds state !! k = Some v /\ keep k = true) /\
   (forall k v, AutoSwitchInfo after !! k = Some v <->
      AutoSwitchInfo state !! k = Some v /\ keep k = true)).
Proof.
  intros after keep. split_and!.
  - intros ->. unfold after, pruneAbsentTrackerIssues. by rewrite decide_True.
  - intros id Hid. unfold keep, buildPresentPredicate. rewrite !elem_of_union in Hid.
    destruct Hid as [[H|H]|H]; rewrite (bool_decide_eq_true_2 _ H); by rewrite ?orb_true_r.
  - intros Hne. unfold after, pruneAbsentTrackerIssues. fold keep. clearbody keep. clear after.
    destruct (decide _) as [Hz|_]; [by apply size_empty_inv, leibniz_equiv in Hz|].
    destruct (issue_ledgers_swept keep state) as [Hsw (Hr & Hp & Hb & Hh & _ & Ha)].
    destruct (pruneIssueLedgers keep state) as [[counts r] s1]. cbn [snd] in *.
    cbn [pruneMap snd]. rewrite <- Hr, <- Hp, <- Hb, <- Hh, <- Ha.
    match goal with |- context [foldl ?f ?s0 ?l] => destruct (rows_history_only
      JanitorReasonAbsentFromTracker now l s0) as (h & p & ->) end.
    split; [|split_and!; [done|..]; intros k v; apply map_lookup_filter_Some].
    destruct Hsw. constructor; try done.
    intros H. by eapply queue_wf_same; [|auto].
Qed.

Example absent_sweep_grace_witness :
  let state := empty_State <| IssueProfiles := {["ENG-1" := "reviewer"]} |> in
  IssueProfiles (snd (pruneAbsentTrackerIssues state ∅ {["ENG-2"]} 5)) !! "ENG-1" = None /\
  buildPresentPredicate state {["ENG-1"]} {["ENG-2"]} "ENG-1" = true.
Proof.
  set (state := empty_State <| IssueProfiles := {["ENG-1" := "reviewer"]} |>).
  split.
  - destruct (absent_sweep_grace state ∅ {["ENG-2"]} 5) as (_ & _ & H).
    destruct (H ltac:(discriminate)) as (_ & _ & Hp & _).
    apply eq_None_not_Some. intros [v [_ Hv]%Hp]. revert Hv. vm_compute. discriminate.
  - destruct (absent_sweep_grace state {["ENG-1"]} {["ENG-2"]} 5) as (_ & H & _).
    apply H. set_solver.
Defined.

(** ** A worker the sweeps do not see *)

(** Issue ENG-1 with the tracker id uuid-1: a worker runs on it, the operator
    gave it a profile, its audit row says it is done, and neither poll lists
    it. *)
Definition busy_issue : Issue :=
  zero_Issue <| issue_ID := "uuid-1" |> <| issue_Identifier := "ENG-1" |>
             <| issue_State := "Done" |>.

Definition busy_state : State :=
  snd (auditIssueDependencies
    (empty_State <| Running := {["uuid-1" := zero_RunEntry <| run_Issue := busy_issue |>]} |>
                 <| IssueProfiles := {["ENG-1" := "reviewer"]} |>) busy_issue 1).

(** Both sweeps ask [Running], which is keyed by issue id, about an
    identifier, so where the two differ they do not see the worker: the audit
    row of an issue under work is dropped, and so are the overrides of an
    issue whose worker is in flight, which the comments say they never are. *)
Theorem sweeps_miss_running_worker :
  let unaudited := busy_state <| DependencyAudit := ∅ |> in
  is_Some (Running busy_state !! issue_ID busy_issue) /\
  DependencyAudit busy_state !! "uuid-1" <> None /\
  DependencyAudit (snd (pruneTerminalDependencyAudit busy_state)) !! "uuid-1" = None /\
  IssueProfiles unaudited !! issue_Identifier busy_issue = Some "reviewer" /\
  IssueProfiles (snd (pruneAbsentTrackerIssues unaudited ∅ {["ENG-2"]} 5))
    !! issue_Identifier busy_issue = None.
Proof. split_and!; try by vm_compute. by eexists. Qed.
