(* ===== verification/Orchestrator.v ===== *)
(** * Orchestrator: the event loop's fields outside its state
    (internal/orchestrator/orchestrator.go 205-232, 566-589, ssh_host.go,
    drain.go, backend_switch_notice.go, issue_control.go 257-274 and the host
    and override choices of event_loop.go)

    The orchestrator keeps what other goroutines may touch: the operator's
    overrides, the marks a user leaves on a run, and the cancel functions. *)

From stdpp Require Import base gmap list strings.
From S2P Require Import Prelude Domain State Config AutomationQueue.

Local Open Scope Z_scope.

(** ** Host choice (ssh_host.go, event_loop.go 1509-1520) *)

Definition host_count (running : gmap string RunEntry) (h : string) : Z :=
  Z.of_nat (size (filter (fun kv => run_WorkerHost kv.2 = h) running)).

(** The scan keeps the first host whose count is below the minimum so far;
    the minimum starts at the largest int. *)
Fixpoint least_loaded_from (running : gmap string RunEntry) (selected : string) (minCount : Z)
    (hosts : list string) : string :=
  match hosts with
  | [] => selected
  | h :: rest =>
      if host_count running h <? minCount
      then least_loaded_from running h (host_count running h) rest
      else least_loaded_from running selected minCount rest
  end.

Definition selectLeastLoadedHost (hosts : list string) (running : gmap string RunEntry) : string :=
  match hosts with
  | [] => ""
  | h :: _ => least_loaded_from running h int64_max hosts
  end.

(** ** The orchestrator's own fields

    [issueBackends] and [issueProfiles] are the operator's overrides,
    [reviewerInjectedProfiles] marks the profiles a reviewer dispatch wrote,
    [commentCounts] the comments posted by a live run, [exitsSent] the time a
    worker marked its exit,
    [drainRequested] an announced drain, [sshHostIdx] the round-robin counter:
    it starts at 0 and counts dispatches, so it does not wrap.

    A worker is a number, the next one of [o_nextWorker].  [o_workerCancels]
    maps an identifier to the worker whose cancel function is registered under
    it; calling a cancel function puts its worker into [o_cancelled]. *)
Record Orchestrator := MkOrchestrator {
  o_cfg : Config;
  o_DryRun : bool;
  o_drainRequested : bool;
  o_issueBackends : gmap string string;
  o_issueProfiles : gmap string string;
  o_sshHostIdx : Z;
  o_reviewerInjectedProfiles : gset string;
  o_userCancelledIDs : gset string;
  o_userTerminatedIDs : gset string;
  o_transitionFailed : gset string;
  o_workerCancels : gmap string nat;
  o_nextWorker : nat;
  o_cancelled : gset nat;
  o_stoppingAfterCancel : bool;
  o_commentCounts : gmap string Z;
  o_exitsSent : gmap string Time;
}.

#[export] Instance eta_Orchestrator : Settable Orchestrator := {|
  eta_record o := MkOrchestrator (o_cfg o) (o_DryRun o) (o_drainRequested o) (o_issueBackends o)
    (o_issueProfiles o) (o_sshHostIdx o) (o_reviewerInjectedProfiles o) (o_userCancelledIDs o)
    (o_userTerminatedIDs o) (o_transitionFailed o) (o_workerCancels o) (o_nextWorker o)
    (o_cancelled o) (o_stoppingAfterCancel o) (o_commentCounts o)
    (o_exitsSent o) |}.

Definition new_orchestrator (cfg : Config) : Orchestrator :=
  MkOrchestrator cfg false false ∅ ∅ 0 ∅ ∅ ∅ ∅ ∅ 0 ∅ false ∅ ∅.

(** [context.WithCancel] and the registration of its cancel function. *)
Definition registerWorker (o : Orchestrator) (identifier : string) : nat * Orchestrator :=
  (o_nextWorker o,
   o <| o_workerCancels := <[identifier := o_nextWorker o]> (o_workerCancels o) |>
     <| o_nextWorker := S (o_nextWorker o) |>).

Definition cancel_worker (o : Orchestrator) (worker : nat) : Orchestrator :=
  o <| o_cancelled := {[worker]} ∪ o_cancelled o |>.

Definition cancelAndCleanupWorker (o : Orchestrator) (identifier : string) : Orchestrator :=
  match o_workerCancels o !! identifier with
  | None => o
  | Some worker =>
      cancel_worker (o <| o_workerCancels := base.delete identifier (o_workerCancels o) |>) worker
  end.

Definition cancelRunningWorker (o : Orchestrator) (identifier : string)
    (cleanup : Orchestrator -> Orchestrator) : bool * Orchestrator :=
  match o_workerCancels o !! identifier with
  | Some worker => (true, cancel_worker o worker)
  | None => (false, cleanup o)
  end.

Definition selectWorkerHost (o : Orchestrator) (hosts : list string) (dispatchStrategy : string)
    (state : State) : string * Orchestrator :=
  match hosts with
  | [] => ("", o)
  | _ =>
      if String.eqb dispatchStrategy "least-loaded"
      then (selectLeastLoadedHost hosts (Running state), o)
      else (default "" (hosts !! Z.to_nat (Z.rem (o_sshHostIdx o) (Z.of_nat (length hosts)))),
            o <| o_sshHostIdx := add64 (o_sshHostIdx o) 1 |>)
  end.

Definition operatorPinnedBackend (o : Orchestrator) (identifier : string) : string :=
  default "" (o_issueBackends o !! identifier).

(** The operator's pin, else the automatic switch; a pin to the empty string
    is still a pin. *)
Definition issueBackendForDispatch (o : Orchestrator) (state : State) (identifier : string) : string :=
  match o_issueBackends o !! identifier with
  | Some override => override
  | None => default "" (IssueBackends state !! identifier)
  end.

Definition issueProfileForDispatch (o : Orchestrator) (state : State) (identifier : string) : string :=
  match o_issueProfiles o !! identifier with
  | Some override => override
  | None => default "" (IssueProfiles state !! identifier)
  end.

(** ** Draining (drain.go 97-128) *)

Definition applyDrain (state : State) : State :=
  if Draining state then state else state <| Draining := true |>.

Definition syncDrainRequest (o : Orchestrator) (state : State) : State :=
  if negb (Draining state) && o_drainRequested o then applyDrain state else state.

(** Whether [Drained] is closed after this iteration. *)
Definition observeDrained (state : State) : bool :=
  Draining state && bool_decide (size (Running state) = 0%nat).

(** ** The notice a moved run gets (backend_switch_notice.go) *)

Record BackendSwitchNotice := MkBackendSwitchNotice {
  bn_PreviousBackend : string;
  bn_PreviousProfile : string;
  bn_Backend : string;
  bn_Profile : string;
  bn_Reason : string;
  bn_LimitResetsAt : Time;
}.

(** The latest of two times. *)
Definition later (a b : Time) : Time := if time_before a b then b else a.

Definition counts_for (backend fromKey : string) (kv : string * BackendHealthEntry) : bool :=
  bh_ResetKnown kv.2 && negb (time_is_zero (bh_LimitedUntil kv.2))
  && if negb (String.eqb fromKey "") then String.eqb kv.1 fromKey
     else String.eqb (bh_Backend kv.2) backend.

Definition previousBackendReset (state : State) (backend fromKey : string) : Time :=
  foldr (fun kv reset => if counts_for backend fromKey kv then later reset (bh_LimitedUntil kv.2)
                         else reset) zero_time (map_to_list (BackendHealth state)).

Definition rate_limited_reason (automationID : string) : string :=
  String.append "rate_limited automation " (go_quote automationID).

Definition backendSwitchNotice (state : State) (identifier backend profile : string)
    (automation : option AutomationDispatch) : option BackendSwitchNotice :=
  let notice previousBackend previousProfile reason fromKey :=
    Some (MkBackendSwitchNotice previousBackend previousProfile backend profile reason
            (previousBackendReset state previousBackend fromKey)) in
  let from_info :=
    match AutoSwitchInfo state !! identifier with
    | Some rec =>
        if String.eqb (asr_ToBackend rec) "" || String.eqb (asr_ToBackend rec) backend
        then notice (asr_FromBackend rec) (asr_FromProfile rec) (asr_Reason rec) (asr_FromKey rec)
        else None
    | None => None
    end in
  match automation with
  | Some d =>
      if String.eqb (trig_Type (ad_Trigger d)) AutomationTriggerRateLimited
      then notice (trig_FailedBackend (ad_Trigger d)) (trig_FailedProfile (ad_Trigger d))
             (rate_limited_reason (ad_AutomationID d)) ""
      else from_info
  | None => from_info
  end.

(** ** Starting a worker

    [go o.runWorker(...)]: the effect of a start, its arguments as a record. *)

Record ResumeContext := MkResumeContext {
  rx_SessionID : string;
  rx_UserMessage : string;
  rx_InputContext : string;
}.

Record Launch := MkLaunch {
  ln_Worker : nat;
  ln_Issue : Issue;
  ln_Attempt : Z;
  ln_WorkerHost : string;
  ln_RunnerCommand : string;
  ln_Backend : string;
  ln_ProfileName : string;
  ln_SkipPRCheck : bool;
  ln_Resume : option ResumeContext;
  ln_Automation : option AutomationDispatch;
  ln_Notice : option BackendSwitchNotice;
}.
