(* ===== verification/LimitText.v ===== *)
(** * LimitText: failures told apart by their text
    (internal/orchestrator/automation_rate_limited.go 30-245,
    transport_error.go, internal/agent/failure_text.go 79-109)

    Patterns are substrings; a clause rule asks for a qualifier as a whole word
    after its opener. *)

From stdpp Require Import base list strings.
From Stdlib Require Import Ascii.
From S2P Require Import Prelude.

Local Open Scope nat_scope.

(** [strings.Index(s[from:], sub)] as a position in [s]. *)
Definition index_from (from : nat) (sub s : string) : option nat := String.index from sub s.

(** ** Words *)

Definition isWordByte (c : ascii) : bool :=
  let n := nat_of_ascii c in
  ((97 <=? n) && (n <=? 122)) || ((65 <=? n) && (n <=? 90)) || ((48 <=? n) && (n <=? 57)).

Definition word_at (s : string) (n : nat) : bool :=
  match String.get n s with Some c => isWordByte c | None => false end.

(** The occurrence of [word] at [start] is a whole word of [s], a plural
    "s" allowed. *)
Definition whole_word (s : string) (start : nat) (word : string) : bool :=
  let end_ := start + String.length word in
  let end_ := match String.get end_ s with
              | Some c => if Ascii.eqb c "s"%char then S end_ else end_
              | None => end_
              end in
  negb (match start with O => false | S b => word_at s b end) && negb (word_at s end_).

(** The loop moves past the occurrence it rejects; [fuel] bounds its turns. *)
Fixpoint contains_word_loop (fuel : nat) (s : string) (off hi : nat) (word : string) : bool :=
  match fuel with
  | O => false
  | S fuel =>
      if off <? hi then
        match index_from off word s with
        | None => false
        | Some start =>
            if hi <? start + String.length word then false
            else if whole_word s start word then true
            else contains_word_loop fuel s (S start) hi word
        end
      else false
  end.

Definition containsWordIn (s : string) (lo hi : nat) (word : string) : bool :=
  contains_word_loop (S hi) s lo hi word.

(** ** Clause rules *)

Record rateLimitClauseRule := MkClauseRule {
  cl_lead : string;
  cl_qualifiers : list string;
  cl_maxGap : nat;
}.

Definition clause_end (c : ascii) : bool :=
  existsb (Ascii.eqb c) ["."%char; ";"%char; ":"%char; "!"%char; "?"%char; "010"%char].

(** The first clause end in [s[lo:hi]], else [hi]. *)
Fixpoint clause_limit (s : string) (lo n : nat) : nat :=
  match n with
  | O => lo
  | S n =>
      match String.get lo s with
      | Some c => if clause_end c then lo else clause_limit s (S lo) n
      | None => lo
      end
  end.

Fixpoint clause_loop (fuel : nat) (r : rateLimitClauseRule) (lower : string) (from : nat) : bool :=
  match fuel with
  | O => false
  | S fuel =>
      match index_from from (cl_lead r) lower with
      | None => false
      | Some i =>
          let lo := i + String.length (cl_lead r) in
          let hi := Nat.min (String.length lower) (lo + cl_maxGap r) in
          let hi := clause_limit lower lo (hi - lo) in
          existsb (containsWordIn lower lo hi) (cl_qualifiers r)
          || clause_loop fuel r lower lo
      end
  end.

Definition clause_matches (r : rateLimitClauseRule) (lower : string) : bool :=
  clause_loop (S (String.length lower)) r lower 0.

Definition defaultRateLimitClauseRules : list rateLimitClauseRule :=
  [MkClauseRule "you've hit your" ["limit"; "budget"; "spend cap"] 48].

Definition defaultRateLimitErrorPatterns : list string :=
  ["rate_limit_exceeded"; "rate limit"; "http 429"; "status: 429"; "(429)"; "429 too many requests";
   "insufficient_quota"; "quota exceeded for"; "usage quota"; "exceeded your current quota";
   "too many requests"; "out of extra usage"; "reached the limit for your current claude";
   "out of credits"; "resets at"; "you hit your spend cap"; "usage limit"; "session limit";
   "weekly limit"; "spend limit"; "spend cap"; "credit balance is too low"; "credits required";
   "temporarily limiting requests"].

(** ** Normalisation *)

Definition byte (n : N) : ascii := ascii_of_N n.

(** The two typographic apostrophes, E2 80 98 and E2 80 99, become ASCII. *)
Fixpoint apostropheNormaliser (s : string) : string :=
  match s with
  | String a ((String b (String c r)) as tl) =>
      if Ascii.eqb a (byte 226) && Ascii.eqb b (byte 128)
         && (Ascii.eqb c (byte 152) || Ascii.eqb c (byte 153))
      then String "'"%char (apostropheNormaliser r)
      else String a (apostropheNormaliser tl)
  | String a tl => String a (apostropheNormaliser tl)
  | EmptyString => EmptyString
  end.

Definition normaliseForRateLimitMatch (s : string) : string := to_lower (apostropheNormaliser s).

(** ** The agent's part of a failure text *)

Definition failureTextSeparator : string := " | ".
Definition failureTextStderrLabel : string := "stderr: ".

Definition has_suffix (s suf : string) : bool :=
  let n := String.length s - String.length suf in
  String.eqb (String.substring n (String.length suf) s) suf.

Fixpoint split_failure_loop (fuel : nat) (s : string) (from : nat) : string * string :=
  match fuel with
  | O => (s, "")
  | S fuel =>
      match index_from from failureTextStderrLabel s with
      | None => (s, "")
      | Some at_ =>
          let before := take_bytes at_ s in
          let after := drop_bytes (at_ + String.length failureTextStderrLabel) s in
          if at_ =? 0 then ("", after)
          else if has_suffix before failureTextSeparator
          then (take_bytes (at_ - String.length failureTextSeparator) s, after)
          else if has_suffix before ": " then (before, after)
          else split_failure_loop fuel s (at_ + String.length failureTextStderrLabel)
      end
  end.

Definition SplitFailureText (s : string) : string * string :=
  split_failure_loop (S (String.length s)) s 0.

(** The expression [(^|[^0-9])429([^0-9]|$)]; [digit_before] tells whether the
    byte before [s] is a digit. *)
Definition digit_at (s : string) (n : nat) : bool :=
  match String.get n s with Some c => is_digit c | None => false end.

Fixpoint standalone_429 (digit_before : bool) (s : string) : bool :=
  (negb digit_before && has_prefix s "429" && negb (digit_at s 3)) ||
  match s with
  | EmptyString => false
  | String c s' => standalone_429 (is_digit c) s'
  end.

Definition standaloneHTTP429 (s : string) : bool := standalone_429 false s.

(** ** The classifiers *)

Definition RateLimitPatternsModeExtend : string := "extend".

(** A pattern of the operator counts when it is not empty. *)
Definition custom_match (lower : string) (patterns : list string) : bool :=
  existsb (fun p => negb (String.eqb p "") && contains lower (normaliseForRateLimitMatch p)) patterns.

Definition IsRateLimitFailureWithPatternsMode (errorMessage : string) (patterns : list string)
    (mode : string) : bool :=
  if String.eqb errorMessage "" then false
  else
    let lower := normaliseForRateLimitMatch errorMessage in
    if custom_match lower patterns then true
    else if existsb (fun p => negb (String.eqb p "")) patterns
            && negb (String.eqb mode RateLimitPatternsModeExtend) then false
    else if existsb (fun r => clause_matches r lower) defaultRateLimitClauseRules then true
    else if existsb (fun p => contains lower (normaliseForRateLimitMatch p))
              defaultRateLimitErrorPatterns then true
    else standaloneHTTP429 (fst (SplitFailureText lower)).

Definition IsTransportFailure (errMsg : string) (patterns : list string) : bool :=
  let lower := to_lower errMsg in
  let hit pattern :=
    let p := trim_space (to_lower pattern) in negb (String.eqb p "") && contains lower p in
  negb (String.eqb errMsg "") && existsb hit patterns.
