(* ===== verification/InputDetector.v ===== *)
(** * InputDetector: is a successful turn waiting for a human?
    (internal/agent/input_detector.go, events.go 128-207)

    The last paragraphs of a message are scored by the cues they contain; two
    points make it a question.  The list-item expression
    [(?m)^\s*(?:\d+[.)]|[-*])\s+\S] is spelled out; its white space has no
    vertical tab. *)

From stdpp Require Import base list strings.
From Stdlib Require Import Ascii.
From S2P Require Import Prelude LimitText BackendHealth AgentTurn.

Local Open Scope Z_scope.

(** ** Cues *)

Definition dquote : string := String quote_char EmptyString.

Definition blockingPromptCues : list string :=
  ["what would you like"; "how would you like"; "what should i do"; "should i "; "do you want me to";
   "would you like me to"].
Definition weakPromptCues : list string := ["which option"; "which one"; "which path"].
Definition imperativePromptCues : list string := ["pick one"; "choose one"; "select one"; "select an option"].
Definition confirmationCues : list string :=
  ["please confirm"; "can you confirm"; "could you confirm"; "awaiting confirmation"; "i need approval";
   "please approve"].
Definition imperativeConfirmationCues : list string :=
  ["reply with"; "respond with"; "type '"; "type " +:+ dquote; "send the word"; "approve this"].
Definition weakConfirmationCues : list string := ["confirm"; "approval"].
Definition blockingContinuationCues : list string :=
  ["need your input"; "need your decision"; "need your confirmation"; "need your approval";
   "need your permission"; "i need permission"; "waiting for your"; "blocked on your";
   "go-ahead to continue"; "go-ahead to proceed"; "reply to continue"; "reply to proceed";
   "respond to continue"; "respond to proceed"].
Definition weakContinuationCues : list string :=
  ["to continue"; "to proceed"; "before proceeding"; "before i continue"; "before i proceed";
   "so i can continue"; "so i can proceed"].
Definition nonBlockingClosers : list string :=
  ["anything else"; "does that help"; "can i help with anything else"; "want a summary";
   "want me to explain"; "need anything else"].

(** ** List items *)

Definition re_space (c : ascii) : bool := is_space c && negb (Ascii.eqb c "011"%char).

Fixpoint skip_while (p : ascii -> bool) (s : string) : string :=
  match s with
  | EmptyString => EmptyString
  | String c s' => if p c then skip_while p s' else s
  end.

(** The rest after the item's marker. *)
Definition after_marker (s : string) : option string :=
  match s with
  | String c s' =>
      if Ascii.eqb c "-"%char || Ascii.eqb c "*"%char then Some s'
      else if is_digit c then
        match skip_while is_digit s' with
        | String d s'' => if Ascii.eqb d "."%char || Ascii.eqb d ")"%char then Some s'' else None
        | EmptyString => None
        end
      else None
  | EmptyString => None
  end.

Definition item_at (s : string) : bool :=
  match after_marker (skip_while re_space s) with
  | Some (String c s') => re_space c && negb (String.eqb (skip_while re_space s') "")
  | _ => false
  end.

(** Some line of the text starts an item; [start] says whether [s] starts a
    line. *)
Fixpoint has_item (start : bool) (s : string) : bool :=
  (start && item_at s) ||
  match s with
  | EmptyString => false
  | String c s' => has_item (Ascii.eqb c newline) s'
  end.

Definition isChoiceListParagraph (paragraph : string) : bool := has_item true paragraph.

(** ** Sentences *)

Fixpoint trim_cutset_right (cut : ascii -> bool) (s : string) : string :=
  match s with
  | EmptyString => EmptyString
  | String c s' =>
      match trim_cutset_right cut s' with
      | EmptyString => if cut c then EmptyString else String c EmptyString
      | r => String c r
      end
  end.

Definition opener (c : ascii) : bool := contains_byte c (" *_>`'(-" +:+ dquote +:+ String "009"%char "").

Definition sentence_end (c : ascii) : bool :=
  existsb (Ascii.eqb c) ["."%char; "!"%char; "?"%char; ":"%char; ";"%char; newline].

Definition sentenceStartsAt (text : string) (at_ : nat) : bool :=
  let before := trim_cutset_right opener (take_bytes at_ text) in
  match String.get (String.length before - 1) before with
  | None => true
  | Some c => sentence_end c
  end.

(** The loop tries every occurrence of the cue. *)
Definition cue_at (text cue : string) (at_ : nat) : bool := has_prefix (drop_bytes at_ text) cue.

Definition containsAtSentenceStart (text : string) (cues : list string) : bool :=
  existsb (fun cue => existsb (fun at_ => cue_at text cue at_ && sentenceStartsAt text at_)
                        (seq 0 (String.length text))) cues.

(** The last line that is not blank. *)
Definition endsWithQuestion (text : string) : bool :=
  match List.find (fun line => negb (String.eqb (trim_space line) ""))
          (rev (split_at newline (trim_space text))) with
  | Some line => has_suffix (trim_space line) "?"
  | None => false
  end.

(** ** Paragraphs *)

Definition stripSentinel (text : string) : string := replace_all text InputRequiredSentinel "".

Definition normalizeDetectorText (text : string) : string :=
  trim_space (to_lower (replace_all (replace_all text crlf nl) cr nl)).

Definition splitDetectorParagraphs (text : string) : list string :=
  filter (fun p => p <> "") (map trim_space (split_on (replace_all text crlf nl) (nl +:+ nl))).

Definition all_cues : list (list string) :=
  [blockingPromptCues; weakPromptCues; imperativePromptCues; confirmationCues; imperativeConfirmationCues;
   weakConfirmationCues; blockingContinuationCues; weakContinuationCues].

Definition isLikelyBlockingTail (lower original : string) : bool :=
  existsb (containsAny lower) all_cues || endsWithQuestion original.

Definition isPromptLeadIn (paragraph : string) : bool :=
  let lower := normalizeDetectorText paragraph in
  containsAny lower blockingPromptCues || containsAtSentenceStart lower imperativePromptCues
  || containsAny lower blockingContinuationCues.

(** Up to [room] paragraphs before the last, nearest first, while they are
    options or lead in to a question. *)
Fixpoint lead_in (room : nat) (before : list string) : list string :=
  match room, before with
  | S room, p :: before => if isChoiceListParagraph p || isPromptLeadIn p then p :: lead_in room before else []
  | _, _ => []
  end.

Definition extractBlockingCandidate (text : string) : string :=
  match rev (splitDetectorParagraphs text) with
  | [] => ""
  | last :: before =>
      if isLikelyBlockingTail (normalizeDetectorText last) last
      then String.concat (nl +:+ nl) (rev (last :: lead_in 2 before)) else ""
  end.

(** ** The score *)

Record InputRequiredDecision := MkDecision { dec_NeedsInput : bool; dec_Question : string; dec_Reason : string }.
Definition no_input : InputRequiredDecision := MkDecision false "" "".

(** Two points for a direct ask, else one for a mention. *)
Definition graded (strong weak : bool) (strong_reason weak_reason : string) : Z * list string :=
  if strong then (2, [strong_reason]) else if weak then (1, [weak_reason]) else (0, []).

Definition point (b : bool) (reason : string) : Z * list string := if b then (1, [reason]) else (0, []).

Definition signals (candidate : string) : list (Z * list string) :=
  let lower := normalizeDetectorText candidate in
  [graded (containsAny lower blockingPromptCues || containsAtSentenceStart lower imperativePromptCues)
     (containsAny lower weakPromptCues || containsAny lower imperativePromptCues)
     "asks the human to choose the next action" "mentions a choice";
   graded (containsAny lower confirmationCues || containsAtSentenceStart lower imperativeConfirmationCues)
     (containsAny lower weakConfirmationCues || containsAny lower imperativeConfirmationCues)
     "asks for explicit confirmation or approval" "mentions confirmation or approval";
   graded (containsAny lower blockingContinuationCues) (containsAny lower weakContinuationCues)
     "states that the agent is waiting before it can continue" "mentions continuing or proceeding";
   point (isChoiceListParagraph candidate) "includes reply options";
   point (endsWithQuestion candidate) "ends with a direct human-facing question"].

Definition DetectInputRequiredFallback (assistantOutput : string) : InputRequiredDecision :=
  let text := trim_space (stripSentinel assistantOutput) in
  if String.eqb text "" then no_input
  else
    let candidate := extractBlockingCandidate text in
    if String.eqb candidate "" then no_input
    else if containsAny (normalizeDetectorText candidate) nonBlockingClosers then no_input
    else
      let found := signals candidate in
      if foldr (fun s n => fst s + n) 0 found <? 2 then no_input
      else MkDecision true (trim_space candidate) (String.concat "; " (concat (map snd found))).

(** ** Errors that ask a human (events.go 128-207) *)

Definition pendingHumanAnswerPhrases : list string :=
  ["human turn"; "needs your input"; "need your input"; "waiting for your input"; "waiting for your answer";
   "awaiting your input"; "waiting for user input"].
Definition cliConfigErrorMarkers : list string :=
  ["non-interactive"; "not an interactive"; "not a tty"; "not a terminal"; "raw mode"; "approval policy";
   "approval_policy"; "ask-for-approval"; "not supported in exec mode"; "cannot ask";
   "nothing on this machine"; "permission denied"].

Section limits.
(** the clause rule of limit_signal.go is a regular expression *)
Context (quotaLimitClause : string -> bool).

Definition quotaLimitPhrases : list string :=
  ["you've hit your usage limit"; "usage limit reached"; "usage_limit_reached"; "usagelimitexceeded";
   "usage_limit_exceeded"; "you hit your spend cap"; "you've hit your spend cap";
   "credit balance is too low"; "out of credits"; "out of extra usage"; "insufficient_quota";
   "exceeded your current quota"].
Definition throttlePhrases : list string :=
  ["rate limit reached"; "rate limit exceeded"; "rate_limit_exceeded"; "429 too many requests";
   "too many requests"; "overloaded_error"; "server is overloaded"].

(** U+2019 becomes an ASCII apostrophe. *)
Definition typographic_apostrophe : string := utf8_bytes [226; 128; 153]%N.
Definition normalizeLimitText (s : string) : string := to_lower (replace_all s typographic_apostrophe "'").

Definition limitKindOfText (lower : string) : string :=
  if containsAny lower quotaLimitPhrases || quotaLimitClause lower then LimitKindQuota
  else if containsAny lower throttlePhrases then LimitKindThrottle
  else "".

Definition isInputRequiredMsg (msg : string) : bool :=
  let lower := to_lower msg in
  if containsAny lower cliConfigErrorMarkers then false
  else if negb (String.eqb (limitKindOfText (normalizeLimitText msg)) "") then false
  else containsAny lower pendingHumanAnswerPhrases.
End limits.

(** ** What a verdict rests on *)

(** A direct ask, and the number of weak signals. *)
Definition direct_ask (candidate : string) : bool :=
  let lower := normalizeDetectorText candidate in
  containsAny lower blockingPromptCues || containsAtSentenceStart lower imperativePromptCues
  || containsAny lower confirmationCues || containsAtSentenceStart lower imperativeConfirmationCues
  || containsAny lower blockingContinuationCues.

Definition weak_signals (candidate : string) : nat :=
  let lower := normalizeDetectorText candidate in
  length (filter (fun b : bool => b = true)
    [containsAny lower weakPromptCues || containsAny lower imperativePromptCues;
     containsAny lower weakConfirmationCues || containsAny lower imperativeConfirmationCues;
     containsAny lower weakContinuationCues; isChoiceListParagraph candidate; endsWithQuestion candidate]).

Lemma score_two candidate :
  (foldr (fun s n => fst s + n) 0 (signals candidate) <? 2)
  = negb (direct_ask candidate || (2 <=? weak_signals candidate)%nat).
Proof.
  unfold signals, direct_ask, weak_signals. cbn zeta.
  generalize (containsAny (normalizeDetectorText candidate) blockingPromptCues) as s1.
  generalize (containsAtSentenceStart (normalizeDetectorText candidate) imperativePromptCues) as s2.
  generalize (containsAny (normalizeDetectorText candidate) confirmationCues) as s3.
  generalize (containsAtSentenceStart (normalizeDetectorText candidate) imperativeConfirmationCues) as s4.
  generalize (containsAny (normalizeDetectorText candidate) blockingContinuationCues) as s5.
  generalize (containsAny (normalizeDetectorText candidate) weakPromptCues
    || containsAny (normalizeDetectorText candidate) imperativePromptCues) as w1.
  generalize (containsAny (normalizeDetectorText candidate) weakConfirmationCues
    || containsAny (normalizeDetectorText candidate) imperativeConfirmationCues) as w2.
  generalize (containsAny (normalizeDetectorText candidate) weakContinuationCues) as w3.
  generalize (isChoiceListParagraph candidate) as p1. generalize (endsWithQuestion candidate) as p2.
  intros [] [] [] [] [] [] [] [] [] []; reflexivity.
Qed.

(** A message without an explicit request stops the run for a human exactly
    when its last paragraphs ask for something, do not close the conversation,
    and either ask directly or give at least two of the five weak signals: one
    ordinary phrase alone never stops a finished run. *)
Theorem detector_exact output :
  let text := trim_space (stripSentinel output) in
  let candidate := extractBlockingCandidate text in
  dec_NeedsInput (DetectInputRequiredFallback output) = true <->
  text <> "" /\ candidate <> "" /\
  containsAny (normalizeDetectorText candidate) nonBlockingClosers = false /\
  (direct_ask candidate = true \/ (2 <= weak_signals candidate)%nat).
Proof.
  intros text candidate. unfold DetectInputRequiredFallback. fold text. fold candidate.
  destruct (String.eqb_spec text "") as [E|Ht]; [split; [done|by intros (? & _)]|].
  cbn zeta. destruct (String.eqb_spec candidate "") as [E|Hc]; [split; [done|by intros (_ & ? & _)]|].
  destruct (containsAny (normalizeDetectorText candidate) nonBlockingClosers); [split; [done|by intros (_ & _ & ? & _)]|].
  rewrite score_two. destruct (direct_ask candidate); cbn [orb negb].
  - split; [intros _; split_and!; auto|done].
  - destruct (Nat.leb_spec 2 (weak_signals candidate)); cbn [negb].
    + split; [intros _; split_and!; auto|done].
    + split; [done|]. intros (_ & _ & _ & [|]); [done|lia].
Qed.

Definition not_asking : string := "All tests pass and I got approval to merge.".
Example not_asking_passes : DetectInputRequiredFallback not_asking = no_input.
Proof. by vm_compute. Qed.
Example asking_stops :
  dec_NeedsInput (DetectInputRequiredFallback ("Done so far." +:+ nl +:+ nl +:+ "Should I delete the old table?")) = true.
Proof. by vm_compute. Qed.
