(* ===== verification/Failures.v ===== *)
(** * Failures: the ring of recent failures and the last tracker error
    (internal/orchestrator/recent_failures.go, failure_ack.go,
    tracker_error.go)

    A message is redacted before it is cut.  [redact] stands for
    logging.RedactString, a chain of regular expressions. *)

From stdpp Require Import base gmap list strings.
From S2P Require Import Prelude Domain State Config LimitText.

Local Open Scope Z_scope.

Definition RecentFailuresCap : Z := 100.
Definition failureMessageMaxBytes : nat := 1024.
Definition ellipsis : string :=
  String (byte 226) (String (byte 128) (String (byte 166) EmptyString)).

(** [s[:cut]], the cut moved back to a rune boundary. *)
Definition cut_at_rune (s : string) (cut : nat) : string := take_bytes (cut_back s cut) s.

Definition sanitizeFailureField (s : string) : string :=
  if (String.length s <=? 128)%nat then s else cut_at_rune s 128.

(** ** The ring (recent_failures.go) *)

Definition coalescesBySource (kind : FailureKind) : bool :=
  bool_decide (kind = FailureKindTrackerPoll).

Definition same_source (e f : FailureRecord) : bool :=
  bool_decide (fr_Kind e = fr_Kind f) && String.eqb (fr_Identifier e) (fr_Identifier f)
  && String.eqb (fr_Source e) (fr_Source f).

(** The first entry that satisfies [P], with what is left without it. *)
Fixpoint take_first {A} (P : A -> bool) (l : list A) : option (A * list A) :=
  match l with
  | [] => None
  | x :: l =>
      if P x then Some (x, l)
      else match take_first P l with
           | Some (y, rest) => Some (y, x :: rest)
           | None => None
           end
  end.

Definition after_or (a b : Time) : Time := if time_after a b then a else b.

(** A poll failure moves to the newest slot with the running count. *)
Definition absorbed (f e : FailureRecord) : FailureRecord :=
  f <| fr_Count := add64 (fr_Count f) (fr_Count e) |>
    <| fr_OccurredAt := after_or (fr_OccurredAt e) (fr_OccurredAt f) |>.

(** An identical failure is counted on the newest entry. *)
Definition repeated (last f : FailureRecord) (now : Time) : FailureRecord :=
  last <| fr_Count := add64 (fr_Count last) (fr_Count f) |> <| fr_RecordedAt := now |>
       <| fr_OccurredAt := after_or (fr_OccurredAt f) (fr_OccurredAt last) |>.

Definition push_ring (ring : list FailureRecord) (f : FailureRecord) : list FailureRecord :=
  drop (Z.to_nat (Z.max 0 (Z.of_nat (length ring) + 1 - RecentFailuresCap))) ring ++ [f].

Definition ring_append (ring : list FailureRecord) (f : FailureRecord) (now : Time) :
    list FailureRecord :=
  match (if coalescesBySource (fr_Kind f) then take_first (fun e => same_source e f) ring else None) with
  | Some (e, rest) => rest ++ [absorbed f e]
  | None =>
      match last ring with
      | Some l =>
          if same_source l f && String.eqb (fr_Message l) (fr_Message f)
          then removelast ring ++ [repeated l f now] else push_ring ring f
      | None => push_ring ring f
      end
  end.

Section redaction.
Context (redact : string -> string).

Definition sanitizeFailureMessage (msg : string) : string :=
  let msg := trim_space (redact msg) in
  if (String.length msg <=? failureMessageMaxBytes)%nat then msg
  else String.append (cut_at_rune msg (failureMessageMaxBytes - 3)) ellipsis.

(** The record as it enters the ring. *)
Definition prepared (f : FailureRecord) (now : Time) : FailureRecord :=
  f <| fr_Message := sanitizeFailureMessage (fr_Message f) |>
    <| fr_Identifier := sanitizeFailureField (fr_Identifier f) |>
    <| fr_Source := sanitizeFailureField (fr_Source f) |>
    <| fr_OccurredAt := (if time_is_zero (fr_OccurredAt f) then now else fr_OccurredAt f) |>
    <| fr_RecordedAt := now |> <| fr_Count := Z.max (fr_Count f) 1 |>.

Definition appendRecentFailure (state : State) (f : FailureRecord) (now : Time) : State :=
  state <| RecentFailures := ring_append (RecentFailures state) (prepared f now) now |>.

(** ** Worker failures *)

(** A worker's exit error, as far as the event loop looks into it. *)
Record ExitError := MkExitError {
  ee_Message : string;
  ee_Canceled : bool;  (* errors.Is(err, context.Canceled) *)
  ee_Panic : bool;     (* errors.Is(err, errWorkerPanic) *)
}.

Definition isRateLimitFailureCfg (cfg : Config) (msg : string) : bool :=
  IsRateLimitFailureWithPatternsMode msg (agent_RateLimitErrorPatterns (cfg_Agent cfg))
    (agent_RateLimitErrorPatternsMode (cfg_Agent cfg)).

Definition classifyWorkerFailure (cfg : Config) (err : option ExitError) : string :=
  match err with
  | None => "agent error"
  | Some e =>
      if ee_Panic e then "worker panicked"
      else if isRateLimitFailureCfg cfg (ee_Message e) then "rate limited"
      else if IsTransportFailure (ee_Message e) (agent_TransportErrorPatterns (cfg_Agent cfg))
      then "transport error" else "agent error"
  end.

Definition worker_failure (kind : FailureKind) (identifier message : string) (now : Time) :
    FailureRecord :=
  MkFailureRecord kind identifier "" message now zero_time 0.

Definition recordWorkerFailure (cfg : Config) (state : State) (entry : RunEntry)
    (err : option ExitError) (attempt : Z) (now : Time) : State :=
  let identifier := issue_Identifier (run_Issue entry) in
  let n := format_d (add64 attempt 1) in
  match run_TerminalReason entry with
  | TerminalStalled =>
      appendRecentFailure state (worker_failure FailureKindWorkerStalled identifier
        ("worker stalled on attempt " +:+ n +:+ " (no agent output within the stall timeout)") now) now
  | TerminalRateLimited =>
      appendRecentFailure state (worker_failure FailureKindWorkerFailed identifier
        ("worker run hit a vendor usage limit on attempt " +:+ n
         +:+ "; see the issue log for details") now) now
  | TerminalFailed =>
      if match err with Some e => ee_Canceled e | None => false end then state
      else
        appendRecentFailure state (worker_failure FailureKindWorkerFailed identifier
          ("worker run failed on attempt " +:+ n +:+ " (" +:+ classifyWorkerFailure cfg err
           +:+ "); see the issue log for details") now) now
  | _ => state
  end.

(** ** Tracker errors (tracker_error.go) *)

Definition TrackerErrorKindOutage : string := "outage".
Definition TrackerErrorKindRateLimited : string := "rate_limited".
Definition TrackerErrorOpPoll : string := "poll".
Definition TrackerErrorOpUpdateState : string := "update_state".
Definition trackerWriteErrorTTL : Duration := Hour.

(** An error of the tracker: its text, and the reset time of a rate limit. *)
Record PollError := MkPollError {
  pe_Message : string;
  pe_RateLimited : option Time;
}.

Definition classifyTrackerError (op : string) (err : option PollError) (now : Time) :
    TrackerErrorInfo :=
  match err with
  | None => MkTrackerErrorInfo now op TrackerErrorKindOutage "" zero_time
  | Some e =>
      match pe_RateLimited e with
      | Some reset => MkTrackerErrorInfo now op TrackerErrorKindRateLimited (pe_Message e) reset
      | None => MkTrackerErrorInfo now op TrackerErrorKindOutage (pe_Message e) zero_time
      end
  end.

Definition recordPollFailure (state : State) (err : PollError) (now : Time) : State :=
  let info := classifyTrackerError TrackerErrorOpPoll (Some err) now in
  let state := state <| LastTrackerError := info |> in
  if String.eqb (te_Kind info) TrackerErrorKindRateLimited then state
  else
    appendRecentFailure
      (state <| ConsecutivePollFailures := add64 (ConsecutivePollFailures state) 1 |>)
      (MkFailureRecord FailureKindTrackerPoll "" TrackerErrorOpPoll (te_Message info) now zero_time 0)
      now.

Definition no_tracker_error : TrackerErrorInfo := MkTrackerErrorInfo zero_time "" "" "" zero_time.

Definition recordPollSuccess (state : State) (now : Time) : State :=
  let state := state <| ConsecutivePollFailures := 0 |> in
  let last := LastTrackerError state in
  if time_is_zero (te_At last) then state
  else if String.eqb (te_Op last) TrackerErrorOpPoll
          || (trackerWriteErrorTTL <? time_sub now (te_At last))
  then state <| LastTrackerError := no_tracker_error |> else state.

Definition recordTrackerWriteFailure (state : State) (op : string) (err : option PollError)
    (now : Time) : State :=
  match err with
  | None => state
  | Some _ => state <| LastTrackerError := classifyTrackerError op err now |>
  end.

End redaction.

(** ** Acknowledgements (failure_ack.go) *)

Definition isAckableFailure (f : FailureRecord) : bool :=
  negb (String.eqb (fr_Identifier f) "")
  && bool_decide (fr_Kind f = FailureKindWorkerFailed \/ fr_Kind f = FailureKindWorkerStalled).

Definition pruneFailureAcks (state : State) : State :=
  let live : gset string :=
    list_to_set (map fr_Identifier (filter (fun f => isAckableFailure f = true) (RecentFailures state))) in
  state <| FailureAcks := filter (fun kv => kv.1 ∈ live) (FailureAcks state) |>.

Definition applyFailureAck (state : State) (identifier : string) (upTo : Time) : State :=
  if String.eqb identifier "" || time_is_zero upTo then state
  else
    let newer := match FailureAcks state !! identifier with
                 | None => true
                 | Some prev => time_after upTo prev
                 end in
    pruneFailureAcks
      (if newer then state <| FailureAcks := <[identifier := upTo]> (FailureAcks state) |> else state).
