(* ===== verification/Automation.v ===== *)
(** * Automation: starting, queueing and draining automation runs
    (internal/orchestrator/automation.go, automation_queue.go 491-757)

    An automation that fires is started, queued or dropped; each tick drains
    the queue in order while slots last.  Starting a run is the effect
    [Launch]: the worker goroutine and its command line. *)

From stdpp Require Import base gmap list strings.
From S2P Require Import Prelude Domain State Config Dispatch Resolve BackendHealth BackendGate.
From S2P Require Import Tracker AutomationQueue StatusHistory DependencyAudit Orchestrator.

Local Open Scope Z_scope.

(** ** Starting a run (728-869) *)

Inductive StartOutcome :=
  | NotStarted
  | Held
  | Started (launch : option Launch).  (** [None] in a dry run *)

Definition recovery_backend (automation : AutomationDispatch) : string :=
  if String.eqb (trig_Type (ad_Trigger automation)) AutomationTriggerRateLimited
     && ad_AutoResume automation
  then trig_SwitchedToBackend (ad_Trigger automation) else "".

Definition automation_gate_request (o : Orchestrator) (state : State) (issue : Issue)
    (automation : AutomationDispatch) (profile : AgentProfile) (workerHost : string) : gateRequest :=
  let agent := cfg_Agent (o_cfg o) in
  MkGateRequest (issue_Identifier issue)
    (MkTargetInput (agent_Command agent) (agent_Backend agent) (Some profile)
       (issueBackendForDispatch o state (issue_Identifier issue)) (recovery_backend automation))
    (ad_ProfileName automation) workerHost (agent_SSHHosts agent)
    (negb (ad_UseIssueLifecycle automation)
     && String.eqb (operatorPinnedBackend o (issue_Identifier issue)) "")
    None.

Definition automation_run (issue : Issue) (now : Time) (automation : AutomationDispatch)
    (workerHost backend profileName : string) (worker : nat) : RunEntry :=
  zero_RunEntry <| run_Issue := issue |> <| run_WorkerHost := workerHost |>
    <| run_Backend := backend |> <| run_ProfileName := profileName |>
    <| run_Kind := (if ad_UseIssueLifecycle automation then "worker" else "automation") |>
    <| run_AutomationID := ad_AutomationID automation |>
    <| run_TriggerType := trig_Type (ad_Trigger automation) |>
    <| run_StartedAt := now |> <| run_RetryAttempt := Some 0 |>
    <| run_WorkerCancel := Some worker |>.

Definition startAutomationRunOrHold (o : Orchestrator) (state : State) (issue : Issue) (now : Time)
    (automation : AutomationDispatch) : StartOutcome * Orchestrator * State :=
  if String.eqb (ad_ProfileName automation) "" then (NotStarted, o, state)
  else if bool_decide (is_Some (Running state !! issue_ID issue)) then (NotStarted, o, state)
  else if bool_decide (issue_ID issue ∈ Claimed state) then (NotStarted, o, state)
  else
    let state := syncDrainRequest o state in
    if AvailableSlots state <=? 0 then (NotStarted, o, state)
    else
      let agent := cfg_Agent (o_cfg o) in
      match agent_Profiles agent !! ad_ProfileName automation with
      | None => (NotStarted, o, state)
      | Some profile =>
          if negb (ProfileEnabled profile) then (NotStarted, o, state)
          else
            let '(workerHost, o) :=
              selectWorkerHost o (agent_SSHHosts agent) (agent_DispatchStrategy agent) state in
            let '(gate, state) := gateDispatch (o_cfg o) state
              (automation_gate_request o state issue automation profile workerHost) now in
            if gr_held gate then (Held, o, state)
            else
              let target := gr_target gate in
              let workerHost := gr_host gate in
              let profileName :=
                if gr_rerouted gate then gr_profileName gate else ad_ProfileName automation in
              let state := state <| Claimed := {[issue_ID issue]} ∪ Claimed state |> in
              if o_DryRun o then (Started None, o, state)
              else
                let '(worker, o) := registerWorker o (issue_Identifier issue) in
                (Started (Some (MkLaunch worker issue 0 workerHost (dt_RunnerCommand target)
                   (dt_Backend target) profileName false None (Some automation)
                   (backendSwitchNotice state (issue_Identifier issue) (dt_Backend target) profileName
                      (Some automation)))), o,
                 state <| Running :=
                   <[issue_ID issue := automation_run issue now automation workerHost
                       (dt_Backend target) profileName worker]> (Running state) |>)
      end.

(** ** Dispatch or queue (automation_queue.go 491-549) *)

(** Whether the automation was started or accepted by the queue, and the run. *)
Record DispatchOutcome := MkDispatchOutcome {
  do_accepted : bool;
  do_launch : option Launch;
}.

Definition dropped : DispatchOutcome := MkDispatchOutcome false None.

Definition enqueue_outcome (o : Orchestrator) (r : bool * State) :
    DispatchOutcome * Orchestrator * State :=
  (MkDispatchOutcome (fst r) None, o, snd r).

(** A rate_limited recovery un-pauses the issue it was switched for. *)
Definition unpause_recovered (state : State) (issue : Issue) (d : AutomationDispatch) : State :=
  let i := issue_Identifier issue in
  if String.eqb (trig_Type (ad_Trigger d)) AutomationTriggerRateLimited && ad_AutoResume d
     && bool_decide (i ∈ AutoSwitchedIdentifiers state) then
    clearPauseReason (state <| PausedIdentifiers := base.delete i (PausedIdentifiers state) |>) i
      <| PausedSessions := base.delete i (PausedSessions state) |>
  else state.

Definition dispatchOrQueueAutomation (o : Orchestrator) (state : State) (issue : Issue)
    (d : AutomationDispatch) (now : Time) : DispatchOutcome * Orchestrator * State :=
  let '(fresh, state) := claimPROpenedDedup state issue d in
  if negb fresh then (dropped, o, state)
  else if negb (String.eqb (automationProfileUnavailableReason (o_cfg o) d) "")
  then (dropped, o, state)
  else if bool_decide (is_Some (InputRequiredIssues state !! issue_Identifier issue))
          && negb (String.eqb (trig_Type (ad_Trigger d)) AutomationTriggerInputRequired)
  then enqueue_outcome o (enqueueAutomation state issue d AutomationQueueReasonInputRequired now)
  else
    let state := unpause_recovered state issue d in
    let reason := IneligibleReasonForAutomation issue state (o_cfg o) in
    if negb (String.eqb reason "") then
      if IsQueueableAutomationReason reason
      then enqueue_outcome o (enqueueAutomation state issue d reason now)
      else (dropped, o, state)
    else
      let '(outcome, o, state) := startAutomationRunOrHold o state issue now d in
      match outcome with
      | Held => enqueue_outcome o
                  (enqueueAutomation state issue d AutomationQueueReasonBackendLimited now)
      | Started launch => (MkDispatchOutcome true launch, o, state)
      | NotStarted => (dropped, o, state)
      end.

(** ** Draining the queue (551-757) *)

Definition drainAutomationQueueFetchBudget : Z := 10.

Inductive FetchKey :=
  | ByID (id : string)
  | ByIdentifier (identifier : string).

(** What the tracker answers: an issue, [ErrNotFound], another error, or a nil
    issue without one. *)
Inductive FetchOutcome :=
  | Fetched (issue : Issue)
  | FetchMissing (msg : string)
  | FetchFailed (msg : string)
  | FetchNil.

(** What a pass reads from outside: the tracker ([None] when there is none),
    the tick's candidates by id and identifier, and the clocks. *)
Record DrainEnv := MkDrainEnv {
  de_tracker : option (FetchKey -> FetchOutcome);
  de_candidates : gmap string Issue;
  de_now : Time;
  de_wall : Time;
}.

#[export] Instance eta_DrainEnv : Settable DrainEnv := {|
  eta_record d := MkDrainEnv (de_tracker d) (de_candidates d) (de_now d) (de_wall d) |}.

Definition lookupCandidate (candidates : gmap string Issue) (target : Issue) : option Issue :=
  if decide (size candidates = 0%nat) then None
  else
    let by_id := if negb (String.eqb (issue_ID target) "")
                 then candidates !! issue_ID target else None in
    match by_id with
    | Some hit => Some hit
    | None => if negb (String.eqb (issue_Identifier target) "")
              then candidates !! issue_Identifier target else None
    end.

Definition update_entry (state : State) (id : string) (e : AutomationQueueEntry) : State :=
  state <| AutomationQueue := <[id := e]> (AutomationQueue state) |>.

(** [None]: nothing to work on this pass. *)
Definition refreshQueuedAutomationIssue (env : DrainEnv) (state : State) (id : string)
    (e : AutomationQueueEntry) : option Issue * State :=
  match de_tracker env with
  | None => (Some (aq_Issue e), state)
  | Some fetch =>
      let key :=
        if negb (String.eqb (issue_ID (aq_Issue e)) "") then Some (ByID (issue_ID (aq_Issue e)))
        else if negb (String.eqb (issue_Identifier (aq_Issue e)) "")
        then Some (ByIdentifier (issue_Identifier (aq_Issue e))) else None in
      match key with
      | None => (Some (aq_Issue e), state)
      | Some key =>
          let failed msg := e <| aq_LastAttemptAt := de_now env |> <| aq_LastError := msg |> in
          match fetch key with
          | FetchMissing msg =>
              (None, removeAutomationQueueEntry (update_entry state id (failed msg)) (aq_ID e))
          | FetchFailed msg => (None, update_entry state id (failed msg))
          | FetchNil => (None, update_entry state id (failed "tracker returned nil issue"))
          | Fetched issue =>
              (Some issue,
               update_entry state id (e <| aq_Issue := issue |> <| aq_LastError := "" |>))
          end
      end
  end.

(** The issue to work on, whether the tracker was asked, and the budget left. *)
Definition resolveQueuedAutomationIssue (env : DrainEnv) (state : State) (id : string)
    (e : AutomationQueueEntry) (pollInterval : Duration) (budget : Z) :
    option (Issue * bool) * Z * State :=
  match lookupCandidate (de_candidates env) (aq_Issue e) with
  | Some hint =>
      (Some (hint, false), budget,
       update_entry state id (e <| aq_Issue := hint |> <| aq_LastError := "" |>))
  | None =>
      if (0 <? pollInterval) && negb (time_is_zero (aq_LastAttemptAt e))
         && (time_sub (de_now env) (aq_LastAttemptAt e) <? pollInterval)
      then (Some (aq_Issue e, false), budget, state)
      else if budget <=? 0 then (Some (aq_Issue e, false), budget, state)
      else
        match refreshQueuedAutomationIssue env state id e with
        | (None, state) => (None, budget, state)
        | (Some issue, state) => (Some (issue, true), budget - 1, state)
        end
  end.

(** What one entry does to the pass: go on, or stop it. *)
Record Pass := MkPass {
  pass_orch : Orchestrator;
  pass_state : State;
  pass_budget : Z;
  pass_launches : list Launch;
}.

(** The eligibility check and the start (lines 603-639) for an entry that is
    still in the queue under [id]; [true] stops the pass. *)
Definition drain_eligible (env : DrainEnv) (p : Pass) (id : string) (issue : Issue)
    (d : AutomationDispatch) : bool * Pass :=
  let o := pass_orch p in
  let state := pass_state p in
  let at_ state := MkPass o state (pass_budget p) (pass_launches p) in
  match AutomationQueue state !! id with
  | None => (false, p)
  | Some e =>
      let reason := IneligibleReasonForAutomation issue state (o_cfg o) in
      if negb (String.eqb reason "") then
        match updateAutomationQueueEntryReason e reason (de_now env) with
        | None => (false, at_ (removeAutomationQueueEntry state (aq_ID e)))
        | Some e' =>
            (String.eqb (aq_Reason e') AutomationQueueReasonNoSlots, at_ (update_entry state id e'))
        end
      else
        let e := e <| aq_Status := AutomationQueueDispatching |>
                   <| aq_LastAttemptAt := de_now env |>
                   <| aq_AttemptCount := add64 (aq_AttemptCount e) 1 |> in
        let '(outcome, o, state) :=
          startAutomationRunOrHold o (update_entry state id e) issue (de_now env) d in
        let at_ state launches := MkPass o state (pass_budget p) (pass_launches p ++ launches) in
        match outcome with
        | Started launch =>
            (false, at_ (removeAutomationQueueEntry state (aq_ID e))
                      (match launch with Some l => [l] | None => [] end))
        | Held =>
            let e' := default e (updateAutomationQueueEntryReason e
                        AutomationQueueReasonBackendLimited (de_now env)) in
            (false, at_ (update_entry state id e') [])
        | NotStarted =>
            if AvailableSlots state <=? 0 then
              let e' := default e (updateAutomationQueueEntryReason e
                          AutomationQueueReasonNoSlots (de_now env)) in
              (true, at_ (update_entry state id e') [])
            else (false, at_ (removeAutomationQueueEntry state (aq_ID e)) [])
        end
  end.

(** One entry of the pass.  The order lists each id once, so the pointer of
    the snapshot is the map's entry. *)
Definition drain_entry (env : DrainEnv) (pollInterval : Duration) (p : Pass) (id : string) :
    bool * Pass :=
  let o := pass_orch p in
  let state := pass_state p in
  if AvailableSlots state <=? 0 then (true, p)
  else
    match AutomationQueue state !! id with
    | None => (false, p)
    | Some e =>
        let d := automationDispatchFromQueueEntry e in
        if negb (String.eqb (automationProfileUnavailableReason (o_cfg o) d) "") then
          (false, MkPass o (removeAutomationQueueEntry state (aq_ID e)) (pass_budget p)
                    (pass_launches p))
        else
          match resolveQueuedAutomationIssue env state id e pollInterval (pass_budget p) with
          | (None, budget, state) => (false, MkPass o state budget (pass_launches p))
          | (Some (issue, refreshed), budget, state) =>
              let state :=
                if refreshed
                then snd (auditFetchedIssueDependencies state issue (de_now env) (de_wall env))
                else state in
              drain_eligible env (MkPass o state budget (pass_launches p)) id issue d
          end
    end.

Fixpoint drain_loop (env : DrainEnv) (pollInterval : Duration) (p : Pass) (ids : list string) : Pass :=
  match ids with
  | [] => p
  | id :: rest =>
      let '(stop, p) := drain_entry env pollInterval p id in
      if stop then p else drain_loop env pollInterval p rest
  end.

Definition drainAutomationQueueWithCandidates (env : DrainEnv) (o : Orchestrator) (state : State) :
    Orchestrator * State * list Launch :=
  let state := ensureAutomationQueueState state in
  let pollInterval := mul64 (PollIntervalMs state) Millisecond in
  let p := drain_loop env pollInterval (MkPass o state drainAutomationQueueFetchBudget [])
             (map aq_ID (sortedAutomationQueue state)) in
  (pass_orch p, pass_state p, pass_launches p).

(** ** Starting a run: what it needs and what it changes *)

(** The drain flag after the sync, and nothing else. *)
Lemma sync_spec o state :
  syncDrainRequest o state = state <| Draining := Draining state || o_drainRequested o |>.
Proof.
  unfold syncDrainRequest, applyDrain. destruct state as [[]]; cbn; [done|].
  by destruct (o_drainRequested o).
Qed.

Lemma select_host_cfg o hosts strategy state h o' :
  selectWorkerHost o hosts strategy state = (h, o') ->
  o_cfg o' = o_cfg o /\ o_DryRun o' = o_DryRun o /\ o_drainRequested o' = o_drainRequested o /\
  o_issueBackends o' = o_issueBackends o.
Proof.
  unfold selectWorkerHost. destruct hosts; [by intros [= <- <-]|].
  destruct (String.eqb _ _); by intros [= <- <-].
Qed.

(** The fields a start leaves alone. *)
Definition start_frame (o o' : Orchestrator) (s s' : State) : Prop :=
  o_cfg o' = o_cfg o /\ o_DryRun o' = o_DryRun o /\ o_drainRequested o' = o_drainRequested o /\
  same_queue s s' /\ QueueBackpressure s' = QueueBackpressure s /\
  MaxConcurrentAgents s' = MaxConcurrentAgents s /\ TerminalStates s' = TerminalStates s.

Definition start_open (o : Orchestrator) (s : State) : Prop :=
  Draining s = false /\ o_drainRequested o = false /\ running_count s < MaxConcurrentAgents s.

(** What each outcome says. *)
Definition start_ok (o : Orchestrator) (s s' : State) (issue : Issue) (outcome : StartOutcome) : Prop :=
  match outcome with
  | NotStarted => Running s' = Running s /\ Claimed s' = Claimed s /\
                  (Draining s = true -> Draining s' = true)
  | Held => start_open o s /\ Running s' = Running s /\ Claimed s' = Claimed s /\ Draining s' = false
  | Started launch =>
      start_open o s /\ Draining s' = false /\
      Running s !! issue_ID issue = None /\ (issue_ID issue ∉ Claimed s) /\
      Claimed s' = {[issue_ID issue]} ∪ Claimed s /\
      match launch with
      | None => o_DryRun o = true /\ Running s' = Running s
      | Some l =>
          o_DryRun o = false /\ ln_Issue l = issue /\
          exists r, Running s' = <[issue_ID issue := r]> (Running s) /\ run_Issue r = issue /\
            run_Backend r = ln_Backend l /\ run_WorkerHost r = ln_WorkerHost l /\
            run_ProfileName r = ln_ProfileName l
      end
  end.

Lemma available_open o state :
  (AvailableSlots (syncDrainRequest o state) <=? 0) = false -> start_open o state.
Proof.
  rewrite Z.leb_gt, AvailableSlots_pos, sync_spec. cbn. intros [Hd Hs].
  apply orb_false_iff in Hd as [? ?]. by split_and!.
Qed.

Lemma start_spec o s issue now d outcome o' s' :
  startAutomationRunOrHold o s issue now d = (outcome, o', s') ->
  start_frame o o' s s' /\ start_ok o s s' issue outcome.
Proof.
  unfold startAutomationRunOrHold, start_frame, same_queue.
  destruct (String.eqb _ ""); [by intros [= <- <- <-]|].
  destruct (bool_decide (is_Some _)) eqn:Hrun; [by intros [= <- <- <-]|].
  destruct (bool_decide (_ ∈ _)) eqn:Hcl; [by intros [= <- <- <-]|].
  apply bool_decide_eq_false in Hrun, Hcl. apply eq_None_not_Some in Hrun. cbn zeta.
  destruct (AvailableSlots _ <=? 0) eqn:Hslots.
  { intros [= <- <- <-]. rewrite sync_spec. cbn. split_and!; try done. by intros ->. }
  apply available_open in Hslots as Hopen.
  assert (Hs1 : exists s1, s1 = syncDrainRequest o s /\ Draining s1 = false /\
    Running s1 = Running s /\ Claimed s1 = Claimed s /\ AutomationQueue s1 = AutomationQueue s /\
    AutomationQueueOrder s1 = AutomationQueueOrder s /\
    QueueBackpressure s1 = QueueBackpressure s /\
    MaxConcurrentAgents s1 = MaxConcurrentAgents s /\ TerminalStates s1 = TerminalStates s).
  { eexists. split; [reflexivity|]. rewrite sync_spec. cbn. destruct Hopen as (-> & -> & _). done. }
  destruct Hs1 as (s1 & <- & Hd1 & Hr1 & Hc1 & Hq1 & Ho1 & Hb1 & Hm1 & Ht1).
  assert (Hstay : start_frame o o s s1 /\ start_ok o s s1 issue NotStarted).
  { split; [by split_and!|]. split_and!; [done|done|]. destruct Hopen as [-> _]. done. }
  destruct (agent_Profiles _ !! _) as [profile|]; [|by intros [= <- <- <-]].
  destruct (negb (ProfileEnabled profile)); [by intros [= <- <- <-]|]. clear Hstay.
  destruct (selectWorkerHost o _ _ s1) as [h o1] eqn:Hh.
  apply select_host_cfg in Hh as (Hcfg & Hdry & Hdrain & _).
  match goal with |- context [gateDispatch ?c ?s ?r ?n] =>
    pose proof (gate_dispatch_only c s r n) as (bh & holds & Hg);
    destruct (gateDispatch c s r n) as [gate s2] end.
  cbn [snd] in Hg. subst s2. cbn. destruct (gr_held gate).
  { intros [= <- <- <-]. by split_and!. }
  rewrite Hdry. destruct (o_DryRun o) eqn:Edry; intros [= <- <- <-]; cbn; rewrite ?Hr1, ?Hc1.
  - by split_and!.
  - split; [by split_and!|]. split_and!; try done. by eexists.
Qed.

(** ** No automation is lost silently *)

Lemma claim_queue state issue d :
  let s := snd (claimPROpenedDedup state issue d) in
  same_queue state s /\ QueueBackpressure s = QueueBackpressure state /\
  Draining s = Draining state /\ Running s = Running state.
Proof. unfold claimPROpenedDedup, same_queue. repeat case_match; done. Qed.

Lemma unpause_queue state issue d :
  let s := unpause_recovered state issue d in
  same_queue state s /\ QueueBackpressure s = QueueBackpressure state /\
  Draining s = Draining state /\ Running s = Running state.
Proof. unfold unpause_recovered, same_queue, clearPauseReason. case_match; done. Qed.

(** The automation sits in the queue as it was dispatched; an entry that was
    already there keeps the automation id it was queued under. *)
Definition queued_as (state : State) (issue : Issue) (d : AutomationDispatch) : Prop :=
  exists e, AutomationQueue state !! automationQueueKey issue d = Some e /\
    aq_Issue e = issue /\
    automationDispatchFromQueueEntry e = d <| ad_AutomationID := aq_AutomationID e |>.

Definition queue_full (state : State) (issue : Issue) (d : AutomationDispatch) : Prop :=
  AutomationQueue state !! automationQueueKey issue d = None /\
  automationQueueMaxLength state <= queue_length state.

Lemma enqueue_accounts s issue d reason now ok s' :
  enqueueAutomation s issue d reason now = (ok, s') ->
  if ok then queued_as s' issue d else queue_full s issue d.
Proof.
  intros H. apply enqueue_cases in H as (_ & [H|[H|H]]).
  - destruct H as (e & e' & _ & -> & Hq & _ & _ & _ & _ & Hd & Hi).
    assert (aq_AutomationID e' = aq_AutomationID e) as Ha by (by apply (f_equal ad_AutomationID) in Hd).
    exists e'. rewrite Hq, lookup_insert_eq, Ha. done.
  - destruct H as (e' & _ & -> & _ & Hq & _ & _ & _ & Hd & Hi). exists e'.
    rewrite Hq, lookup_insert_eq. split_and!; [done|done|]. rewrite Hd.
    apply (f_equal ad_AutomationID) in Hd as Ha. cbn in Ha. rewrite Ha. by destruct d.
  - by destruct H as (? & -> & ? & _).
Qed.

Lemma queue_full_same s s' issue d :
  same_queue s s' -> QueueBackpressure s' = QueueBackpressure s ->
  queue_full s' issue d -> queue_full s issue d.
Proof.
  intros [Hq _] Hb. unfold queue_full, queue_length, automationQueueMaxLength. by rewrite Hq, Hb.
Qed.

Lemma enqueue_outcome_spec state o1 s issue d reason now out o' state' :
  same_queue state s -> QueueBackpressure s = QueueBackpressure state ->
  enqueue_outcome o1 (enqueueAutomation s issue d reason now) = (out, o', state') ->
  if do_accepted out then do_launch out = None /\ queued_as state' issue d
  else queue_full state issue d.
Proof.
  intros Hq Hb. unfold enqueue_outcome. intros [= <- <- Hs].
  destruct (enqueueAutomation s issue d reason now) as [ok s''] eqn:He. cbn [fst snd] in *.
  subst s''. apply enqueue_accounts in He. destruct ok; cbn; [done|]. by eapply queue_full_same.
Qed.

(** An eligible automation with a usable profile fails to start only when a
    drain is pending. *)
Lemma not_started_drain o s issue now d o' s' :
  IneligibleReasonForAutomation issue s (o_cfg o) = "" ->
  automationProfileUnavailableReason (o_cfg o) d = "" ->
  startAutomationRunOrHold o s issue now d = (NotStarted, o', s') ->
  Draining s = false /\ o_drainRequested o = true.
Proof.
  unfold IneligibleReasonForAutomation, automationProfileUnavailableReason.
  destruct (missing_fields issue); [done|]. rewrite shared_empty_iff. intros Hd Hp.
  pose proof (dispatchable_slot _ _ _ _ Hd) as Hslot. destruct Hd.
  unfold startAutomationRunOrHold. destruct (String.eqb _ ""); [done|].
  rewrite d_not_running, bool_decide_eq_false_2 by apply is_Some_None.
  rewrite bool_decide_eq_false_2 by done. cbn zeta.
  destruct (AvailableSlots _ <=? 0) eqn:Hs.
  - intros _. split; [done|]. destruct (o_drainRequested o) eqn:E; [done|].
    unfold syncDrainRequest in Hs. rewrite E, andb_false_r in Hs. apply Z.leb_le in Hs. lia.
  - destruct (agent_Profiles _ !! _) as [p|]; [|done]. destruct (ProfileEnabled p); [|done].
    cbn [negb]. destruct (selectWorkerHost _ _ _ _) as [h o1].
    destruct (gateDispatch _ _ _ _) as [gate s2]. destruct (gr_held gate); [done|].
    by destruct (o_DryRun o1).
Qed.

Ltac queued_case st H :=
  apply (enqueue_outcome_spec st) in H; [|done|congruence];
  destruct (do_accepted _); [destruct H as [-> ?]; by left | by do 2 right; left].


(** ** A drain pass *)

(** The parts of the state a pass changes by starting runs only. *)
Definition pass_frame (s s' : State) : Prop :=
  Running s' = Running s /\ MaxConcurrentAgents s' = MaxConcurrentAgents s /\
  Draining s' = Draining s /\ (queue_wf s -> queue_wf s') /\
  AutomationQueueOrder s' `sublist_of` AutomationQueueOrder s.

#[export] Instance pass_frame_preorder : PreOrder pass_frame.
Proof.
  split; unfold pass_frame.
  - by intros s.
  - intros s1 s2 s3 (? & ? & ? & ? & ?) (? & ? & ? & ? & ?).
    split_and!; try congruence; [auto|by etransitivity].
Qed.

Lemma frame_update s id e e' :
  AutomationQueue s !! id = Some e -> aq_ID e' = aq_ID e -> pass_frame s (update_entry s id e').
Proof.
  intros He Hid. unfold pass_frame. split_and!; try done.
  intros Hwf. by eapply (wf_insert_existing s _ id e e').
Qed.

Lemma frame_remove s id : pass_frame s (removeAutomationQueueEntry s id).
Proof.
  unfold pass_frame. split_and!; auto with itervox; apply remove_first_sublist.
Qed.

Lemma frame_history s s' : history_only s s' -> pass_frame s s'.
Proof.
  intros (h & p & ->). unfold pass_frame. split_and!; try done.
  intros H. by eapply queue_wf_same; [|exact H].
Qed.

Lemma frame_audit s issue now wall :
  pass_frame s (snd (auditFetchedIssueDependencies s issue now wall)).
Proof.
  unfold auditFetchedIssueDependencies.
  etransitivity; [eauto using frame_history with itervox|].
  set (s1 := recordObservedIssueState s issue now wall).
  assert (H : pass_frame s1 (snd (auditIssueDependencies s1 issue now))).
  { unfold auditIssueDependencies. destruct (issueHasResolvedBlockersTransition _ _); cbn [snd];
      unfold pass_frame; split_and!; try done; intros Hw; by eapply queue_wf_same; [|exact Hw]. }
  destruct (auditIssueDependencies s1 issue now) as [entry s2]. cbn [snd] in *.
  etransitivity; [exact H|]. unfold pass_frame. split_and!; try done.
  apply fmap_wf. intros e. unfold refresh_queued. by repeat case_match.
Qed.

Lemma frame_refresh env s id e r s' :
  AutomationQueue s !! id = Some e ->
  refreshQueuedAutomationIssue env s id e = (r, s') -> pass_frame s s'.
Proof.
  intros He. unfold refreshQueuedAutomationIssue.
  destruct (de_tracker env) as [fetch|]; [|by intros [= <- <-]].
  destruct (if negb _ then Some _ else _) as [key|]; [|by intros [= <- <-]].
  destruct (fetch key); intros [= <- <-]; try (by eapply (frame_update s id e)).
  etransitivity; [|apply frame_remove]. by eapply (frame_update s id e).
Qed.

Lemma frame_resolve env s id e poll budget r budget' s' :
  AutomationQueue s !! id = Some e ->
  resolveQueuedAutomationIssue env s id e poll budget = (r, budget', s') -> pass_frame s s'.
Proof.
  intros He. unfold resolveQueuedAutomationIssue.
  destruct (lookupCandidate _ _); [intros [= <- <- <-]; by eapply (frame_update s id e)|].
  destruct (_ && _ && _); [by intros [= <- <- <-]|].
  destruct (budget <=? 0); [by intros [= <- <- <-]|].
  destruct (refreshQueuedAutomationIssue env s id e) as [[i|] s1] eqn:Hr;
    intros [= <- <- <-]; by eapply frame_refresh.
Qed.

Definition launch_id (l : Launch) : string := issue_ID (ln_Issue l).

(** What holds after every entry of a pass that began at [o0] and [s0]. *)
Record pass_ok (o0 : Orchestrator) (s0 : State) (p : Pass) : Prop := {
  po_orch : o_cfg (pass_orch p) = o_cfg o0 /\ o_DryRun (pass_orch p) = o_DryRun o0 /\
            o_drainRequested (pass_orch p) = o_drainRequested o0;
  po_max : MaxConcurrentAgents (pass_state p) = MaxConcurrentAgents s0;
  po_drain : Draining s0 = true -> Draining (pass_state p) = true;
  po_wf : queue_wf s0 -> queue_wf (pass_state p);
  po_order : AutomationQueueOrder (pass_state p) `sublist_of` AutomationQueueOrder s0;
  po_count : running_count (pass_state p) =
               running_count s0 + Z.of_nat (length (pass_launches p));
  po_kept : Running s0 ⊆ Running (pass_state p);
  po_launched : Forall (fun l => Running s0 !! launch_id l = None /\
      exists r, Running (pass_state p) !! launch_id l = Some r /\ run_Issue r = ln_Issue l)
    (pass_launches p);
  po_distinct : NoDup (map launch_id (pass_launches p));
  po_limit : pass_launches p <> [] ->
    running_count (pass_state p) <= MaxConcurrentAgents s0 /\ Draining s0 = false /\
    o_drainRequested o0 = false /\ o_DryRun o0 = false;
}.

Lemma pass_ok_start o s : pass_ok o s (MkPass o s drainAutomationQueueFetchBudget []).
Proof. constructor; cbn; try done; [lia|by apply NoDup_nil_2]. Qed.

Lemma pass_ok_frame o0 s0 p s' budget :
  pass_ok o0 s0 p -> pass_frame (pass_state p) s' ->
  pass_ok o0 s0 (MkPass (pass_orch p) s' budget (pass_launches p)).
Proof.
  intros [] (Hr & Hm & Hd & Hw & Ho). constructor; cbn; unfold running_count in *; rewrite ?Hr;
    try done; [congruence|rewrite Hd; auto|auto|by etransitivity].
Qed.

(** A start that launched nothing. *)
Lemma pass_ok_idle o0 s0 p o s' budget :
  pass_ok o0 s0 p -> start_frame (pass_orch p) o (pass_state p) s' ->
  Running s' = Running (pass_state p) -> (Draining (pass_state p) = true -> Draining s' = true) ->
  pass_ok o0 s0 (MkPass o s' budget (pass_launches p)).
Proof.
  intros [Horch] (Hc & Hdry & Hreq & [Hq Ho] & _ & Hm & _) Hr Hd.
  destruct Horch as (? & ? & ?).
  constructor; cbn; unfold running_count in *; rewrite ?Hr; try done.
  - split_and!; congruence.
  - congruence.
  - auto.
  - intros Hw. eapply queue_wf_same; [|auto]. by split.
  - by rewrite Ho.
Qed.

(** A start that launched a run. *)
Lemma pass_ok_launch o0 s0 p o s' budget issue l :
  pass_ok o0 s0 p -> start_frame (pass_orch p) o (pass_state p) s' ->
  start_ok (pass_orch p) (pass_state p) s' issue (Started (Some l)) ->
  pass_ok o0 s0 (MkPass o s' budget (pass_launches p ++ [l])).
Proof.
  intros [Horch Hmax Hdrain Hwf Hord Hcount Hkept Hall Hnd Hlim]
    (Hc & Hdry & Hreq & [Hq Ho] & _ & Hm & _)
    ((Hd & Hdr & Hslot) & Hd' & Hnone & _ & _ & Hdr' & Hi & r & Hr & Hri & _).
  destruct Horch as (Ho1 & Ho2 & Ho3).
  assert (Hid : launch_id l = issue_ID issue) by (unfold launch_id; by rewrite Hi).
  assert (Hn0 : Running s0 !! launch_id l = None).
  { rewrite Hid. by eapply lookup_weaken_None. }
  assert (Hcount' : running_count s' = running_count (pass_state p) + 1).
  { unfold running_count. rewrite Hr, map_size_insert_None by done. lia. }
  constructor; cbn.
  - split_and!; congruence.
  - congruence.
  - intros H. apply Hdrain in H. congruence.
  - intros H. eapply queue_wf_same; [|auto]. by split.
  - by rewrite Ho.
  - rewrite length_app, Hcount', Hcount. cbn. lia.
  - rewrite Hr. etransitivity; [exact Hkept|by apply insert_subseteq].
  - apply Forall_app. split.
    + eapply Forall_impl; [exact Hall|]. intros x (Hx & rx & Hrx & Hix). split; [done|].
      exists rx. split; [|done]. rewrite Hr, lookup_insert_ne; [done|]. congruence.
    + apply Forall_singleton. split; [done|]. exists r. rewrite Hr, Hid, lookup_insert_eq.
      by rewrite Hri, Hi.
  - rewrite map_app. apply NoDup_app. split; [done|]. split; [|apply NoDup_singleton].
    intros x Hx. cbn. rewrite list_elem_of_singleton. intros ->.
    apply list_elem_of_fmap in Hx as (y & Hy & Hin).
    rewrite Forall_forall in Hall. destruct (Hall y Hin) as (_ & ry & Hry & _).
    rewrite <- Hy, Hid in Hry. congruence.
  - intros _. split_and!; [lia| |congruence|congruence].
    destruct (Draining s0); [by rewrite Hdrain in Hd|done].
Qed.

Lemma updated_id e reason now e' :
  updateAutomationQueueEntryReason e reason now = Some e' -> aq_ID e' = aq_ID e.
Proof.
  unfold updateAutomationQueueEntryReason.
  destruct (automationQueueableReason reason) as [[]|]; [|done]. by intros [= <-].
Qed.

Lemma default_updated_id e reason now :
  aq_ID (default e (updateAutomationQueueEntryReason e reason now)) = aq_ID e.
Proof.
  destruct (updateAutomationQueueEntryReason e reason now) eqn:E; [|done]. by eapply updated_id.
Qed.

(** The pass with another queue entry under [id]. *)
Lemma pass_ok_update o0 s0 p id e' :
  pass_ok o0 s0 p ->
  (exists e, AutomationQueue (pass_state p) !! id = Some e /\ aq_ID e' = aq_ID e) ->
  pass_ok o0 s0 (MkPass (pass_orch p) (update_entry (pass_state p) id e') (pass_budget p)
                   (pass_launches p)).
Proof. intros Hp (e & He & Hid). apply pass_ok_frame; [done|]. by eapply (frame_update _ id e). Qed.

Lemma pass_ok_remove o0 s0 p id :
  pass_ok o0 s0 p ->
  pass_ok o0 s0 (MkPass (pass_orch p) (removeAutomationQueueEntry (pass_state p) id)
                   (pass_budget p) (pass_launches p)).
Proof. intros Hp. apply pass_ok_frame; [done|apply frame_remove]. Qed.

Lemma drain_eligible_ok o0 s0 env p id issue d :
  pass_ok o0 s0 p -> pass_ok o0 s0 (snd (drain_eligible env p id issue d)).
Proof.
  intros Hp. unfold drain_eligible.
  destruct (AutomationQueue (pass_state p) !! id) as [e|] eqn:He; [|done].
  destruct (negb (String.eqb _ "")).
  - destruct (updateAutomationQueueEntryReason _ _ _) as [e'|] eqn:Eu; cbn [snd].
    + apply pass_ok_update; [done|]. exists e. split; [done|]. by eapply updated_id.
    + by apply pass_ok_remove.
  - set (e1 := e <| aq_Status := _ |> <| aq_LastAttemptAt := _ |> <| aq_AttemptCount := _ |>).
    assert (Hp1 := pass_ok_update o0 s0 p id e1 Hp ltac:(by exists e)).
    destruct (startAutomationRunOrHold _ _ _ _ _) as [[outcome o] s'] eqn:Hs.
    apply start_spec in Hs as [Hf Hok].
    assert (Hq : exists e, AutomationQueue s' !! id = Some e /\ aq_ID e1 = aq_ID e).
    { destruct Hf as (_ & _ & _ & [-> _] & _). exists e1. cbn. by rewrite lookup_insert_eq. }
    destruct outcome as [| |launch].
    + destruct Hok as (Hr & _ & Hd).
      pose proof (pass_ok_idle _ _ _ o s' (pass_budget p) Hp1 Hf Hr Hd) as Hp2.
      cbn [pass_launches] in Hp2. cbn [snd]. destruct (_ <=? 0); cbn [snd]; rewrite app_nil_r.
      * apply (pass_ok_update _ _ _ id _ Hp2). cbn [pass_state]. destruct Hq as (x & ? & ?). exists x.
        split; [done|]. by rewrite default_updated_id.
      * apply (pass_ok_remove _ _ _ (aq_ID e1) Hp2).
    + destruct Hok as ((Hd0 & _) & Hr & _ & Hd).
      pose proof (pass_ok_idle _ _ _ o s' (pass_budget p) Hp1 Hf Hr) as Hp2.
      cbn [pass_launches snd] in *. rewrite app_nil_r.
      apply (pass_ok_update _ _ _ id _ (Hp2 ltac:(intros H; cbn in *; congruence))). cbn [pass_state].
      destruct Hq as (x & ? & ?). exists x. split; [done|]. by rewrite default_updated_id.
    + cbn [snd]. destruct launch as [l|].
      * apply (pass_ok_remove _ _ _ (aq_ID e1)
          (pass_ok_launch _ _ _ o s' (pass_budget p) issue l Hp1 Hf Hok)).
      * destruct Hok as ((Hd0 & _) & Hd & _ & _ & _ & _ & Hr).
        pose proof (pass_ok_idle _ _ _ o s' (pass_budget p) Hp1 Hf Hr) as Hp2.
        rewrite app_nil_r.
        apply (pass_ok_remove _ _ _ (aq_ID e1) (Hp2 ltac:(intros H; cbn in *; congruence))).
Qed.

Lemma drain_entry_ok o0 s0 env poll p id :
  pass_ok o0 s0 p -> pass_ok o0 s0 (snd (drain_entry env poll p id)).
Proof.
  intros Hp. unfold drain_entry. destruct (_ <=? 0); [done|].
  destruct (AutomationQueue (pass_state p) !! id) as [e|] eqn:He; [|done].
  destruct (negb _); [by apply pass_ok_remove|].
  destruct (resolveQueuedAutomationIssue _ _ _ _ _ _) as [[[[issue refreshed]|] budget] s'] eqn:Hr;
    apply frame_resolve in Hr; [|done| |done].
  - apply drain_eligible_ok. apply pass_ok_frame; [done|]. destruct refreshed; [|done].
    etransitivity; [exact Hr|apply frame_audit].
  - by apply pass_ok_frame.
Qed.

Lemma drain_loop_ok o0 s0 env poll p ids :
  pass_ok o0 s0 p -> pass_ok o0 s0 (drain_loop env poll p ids).
Proof.
  revert p. induction ids as [|id ids IH]; intros p Hp; [done|]. cbn [drain_loop].
  pose proof (drain_entry_ok _ _ env poll p id Hp).
  destruct (drain_entry env poll p id) as [[] p']; cbn [snd] in *; auto.
Qed.

(** C8: a drain pass is safe.  Whatever the tracker answers, it starts runs
    only for issues without one, each at most once, never beyond the
    concurrency limit, and none while the loop drains, a drain is announced or
    in a dry run; it stops no running worker; and the queue stays well formed
    and in its order. *)
Theorem drain_pass_safe env o state o' state' launches
    (Hrun : drainAutomationQueueWithCandidates env o state = (o', state', launches)) :
  Running state ⊆ Running state' /\
  running_count state' = running_count state + Z.of_nat (length launches) /\
  NoDup (map launch_id launches) /\
  (forall l, l ∈ launches -> Running state !! launch_id l = None /\
     exists r, Running state' !! launch_id l = Some r /\ run_Issue r = ln_Issue l) /\
  (launches <> [] ->
     running_count state' <= MaxConcurrentAgents state /\ Draining state = false /\
     o_drainRequested o = false /\ o_DryRun o = false) /\
  (queue_wf state -> queue_wf state') /\
  AutomationQueueOrder state' `sublist_of` AutomationQueueOrder state.
Proof.
  unfold drainAutomationQueueWithCandidates in Hrun. cbn zeta in Hrun.
  set (s0 := ensureAutomationQueueState state) in *.
  match type of Hrun with context [drain_loop env ?i ?p ?ids] =>
    pose proof (drain_loop_ok o s0 env i p ids (pass_ok_start o s0)) as Hok end.
  injection Hrun as <- <- <-. destruct Hok. rewrite Forall_forall in po_launched0.
  split_and!; try done. intros Hw. apply po_wf0. by eapply queue_wf_same; [|exact Hw].
Qed.

(** ** Examples, and two findings *)

Definition coder_config : Config :=
  empty_config <| cfg_Agent := cfg_Agent empty_config
    <| agent_Profiles := {["coder" := MkAgentProfile "" "" None]} |> |>.

Definition idle : Orchestrator := new_orchestrator coder_config.
Definition asked_to_drain : Orchestrator := idle <| o_drainRequested := true |>.

Definition todo (id : string) : Issue :=
  MkIssue id id "title" None None "Todo" None None [] [] [] None None.

Definition nightly : AutomationDispatch := example_dispatch.


(** A queue of [n] automations, one per issue, all waiting for a slot. *)
Fixpoint waiting (ids : list string) (state : State) : State :=
  match ids with
  | [] => state
  | id :: rest =>
      waiting rest (snd (enqueueAutomation state (todo id) nightly AutomationQueueReasonNoSlots 5))
  end.

Definition tracker_down : DrainEnv :=
  MkDrainEnv (Some (fun _ => FetchFailed "502")) ∅ (10 * Minute) (10 * Minute).
Definition no_tracker : DrainEnv := MkDrainEnv None ∅ (10 * Minute) (10 * Minute).

Example drain_pass_safe_witness :
  exists o' state' launches,
    drainAutomationQueueWithCandidates no_tracker idle (waiting ["1"; "2"; "3"; "4"] empty_State)
      = (o', state', launches) /\
    map launch_id launches = ["1"; "2"; "3"] /\
    running_count state' <= 3 /\ length (AutomationQueueOrder state') = 1%nat.
Proof.
  do 3 eexists. split; [vm_compute; reflexivity|]. split; [reflexivity|].
  split; [|reflexivity].
  refine (proj1 (proj1 (proj2 (proj2 (proj2 (proj2 (drain_pass_safe no_tracker idle
    (waiting ["1"; "2"; "3"; "4"] empty_State) _ _ _ _))))) _)); [vm_compute; reflexivity|discriminate].
Defined.

Lemma drained_reason issue state cfg :
  IneligibleReasonForAutomation issue state cfg = "" ->
  IneligibleReasonForAutomation issue (state <| Draining := true |>) cfg = "no_slots".
Proof.
  unfold IneligibleReasonForAutomation. destruct (missing_fields issue); [done|].
  rewrite shared_empty_iff. intros []. unfold ineligibleReasonShared. cbn.
  change (isTerminalState (issue_State issue) (state <| Draining := true |>))
    with (isTerminalState (issue_State issue) state).
  rewrite d_not_terminal, d_not_paused, d_not_discarding, d_no_resume, d_not_running.
  rewrite !(bool_decide_eq_false_2 (is_Some None)) by apply is_Some_None.
  rewrite andb_false_r. by rewrite bool_decide_eq_false_2.
Qed.

(** An announced drain loses automations.  Between the announcement and
    the event loop's own sync, an automation for an issue that could be worked
    on right now is dropped: it is neither started nor queued, even with room
    in the queue.  Had the loop synced first, it would have been queued. *)
Theorem announced_drain_loses o state issue d now
    (Hready : IneligibleReasonForAutomation issue state (o_cfg o) = "")
    (Hprofile : automationProfileUnavailableReason (o_cfg o) d = "")
    (Htrigger : trig_Type (ad_Trigger d) = AutomationTriggerRunFailed)
    (Hinput : InputRequiredIssues state !! issue_Identifier issue = None)
    (Hroom : queue_length state < automationQueueMaxLength state)
    (Hdrain : o_drainRequested o = true) :
  (let '(out, _, state') := dispatchOrQueueAutomation o state issue d now in
   do_accepted out = false /\ AutomationQueue state' = AutomationQueue state /\
   Running state' = Running state) /\
  (let '(out, _, state') := dispatchOrQueueAutomation o (syncDrainRequest o state) issue d now in
   do_accepted out = true /\ queued_as state' issue d).
Proof.
  assert (Hclaim : forall s, claimPROpenedDedup s issue d = (true, s))
    by (intros s; unfold claimPROpenedDedup; by rewrite Htrigger).
  assert (Hpause : forall s, unpause_recovered s issue d = s)
    by (intros s; unfold unpause_recovered; by rewrite Htrigger).
  unfold dispatchOrQueueAutomation. rewrite !Hclaim. cbn [negb]. rewrite Hprofile, !Hpause.
  cbn [String.eqb negb]. split.
  - rewrite Hinput, bool_decide_eq_false_2 by apply is_Some_None. cbn [andb].
    rewrite Hready. cbn [String.eqb negb].
    assert (Hnot : exists s', startAutomationRunOrHold o state issue now d = (NotStarted, o, s') /\
      same_queue state s' /\ Running s' = Running state).
    { unfold startAutomationRunOrHold. repeat (case_match; [by eexists|]).
      assert (Hs : (AvailableSlots (syncDrainRequest o state) <=? 0) = true).
      { rewrite sync_spec, Hdrain, orb_true_r. done. }
      rewrite Hs. eexists. split; [reflexivity|]. by rewrite sync_spec. }
    destruct Hnot as (s' & -> & [-> _] & ->). done.
  - rewrite sync_spec, Hdrain, orb_true_r.
    set (s1 := state <| Draining := true |>). cbn [InputRequiredIssues].
    replace (InputRequiredIssues s1) with (InputRequiredIssues state) by done.
    rewrite Hinput, bool_decide_eq_false_2 by apply is_Some_None. cbn [andb].
    unfold s1. rewrite drained_reason by done. cbn [String.eqb negb Ascii.eqb Bool.eqb].
    unfold enqueue_outcome. destruct (enqueueAutomation _ issue d _ now) as [ok s2] eqn:He.
    apply enqueue_accounts in He. cbn [fst snd]. destruct ok; [done|].
    destruct He as [_ He]. unfold automationQueueMaxLength, queue_length in *. cbn in *. lia.
Qed.

Definition after_failure : AutomationDispatch :=
  nightly <| ad_Trigger := zero_AutomationTriggerContext <| trig_Type := "run_failed" |> |>.

Example announced_drain_loses_witness :
  let '(out, _, state') :=
    dispatchOrQueueAutomation asked_to_drain empty_State (todo "1") after_failure 5 in
  do_accepted out = false /\ AutomationQueue state' = ∅.
Proof.
  destruct (announced_drain_loses asked_to_drain empty_State (todo "1") after_failure 5
    ltac:(by vm_compute) ltac:(by vm_compute) ltac:(by vm_compute) ltac:(by vm_compute)
    ltac:(by vm_compute) ltac:(by vm_compute)) as [H _].
  destruct (dispatchOrQueueAutomation asked_to_drain empty_State (todo "1") after_failure 5)
    as [[out o'] s'].
  destruct H as (? & -> & _). by split.
Defined.

(** The fetch budget does not count failures.  It is spent only after a
    fetch that succeeded, so with the tracker down a pass asks it once per
    queued entry, here eleven times against a cap of ten. *)
Theorem failed_fetches_are_free :
  let ids := ["1"; "2"; "3"; "4"; "5"; "6"; "7"; "8"; "9"; "10"; "11"] in
  let p := drain_loop tracker_down (30 * Second)
             (MkPass idle (waiting ids empty_State) drainAutomationQueueFetchBudget [])
             (AutomationQueueOrder (waiting ids empty_State)) in
  pass_budget p = drainAutomationQueueFetchBudget /\
  Z.of_nat (length (filter (fun e => aq_LastError e = "502") (sortedAutomationQueue (pass_state p))))
    = drainAutomationQueueFetchBudget + 1.
Proof. vm_compute. split; reflexivity. Qed.
