(* ===== verification/Triggers.v ===== *)
(** * Triggers: matching automation rules against what happened
    (internal/orchestrator/automation.go 118-202, 432-515, 577-726)

    A compiled regular expression is a predicate on strings; the rules come
    compiled from the configuration. *)

From stdpp Require Import base gmap list strings.
From S2P Require Import Prelude Domain State Config Dispatch AutomationQueue Orchestrator Automation.

Local Open Scope Z_scope.

Definition Regexp : Type := string -> bool.

(** The fields every kind of rule has. *)
Record Rule := MkRule {
  rule_ID : string;
  rule_ProfileName : string;
  rule_Instructions : string;
  rule_MatchMode : string;
  rule_States : list string;
  rule_LabelsAny : list string;
  rule_IdentifierRegex : option Regexp;
}.

Record InputRequiredAutomation := MkInputRequiredAutomation {
  ira_rule : Rule;
  ira_InputContextRegex : option Regexp;
  ira_AutoResume : bool;
  ira_MaxAge : Duration;
}.

Definition RunFailedAutomation : Type := Rule.

Record BlockersResolvedAutomation := MkBlockersResolvedAutomation {
  bra_rule : Rule;
  bra_MoveToState : string;
}.

Record RateLimitedAutomation := MkRateLimitedAutomation {
  rla_rule : Rule;
  rla_AutoResume : bool;
  rla_SwitchToProfile : string;
  rla_SwitchToBackend : string;
  rla_Cooldown : Duration;
}.

Definition AutomationFilterMatchAny : string := "any".

(** The configured criteria, each as one check. *)
Definition filter_checks (issue : Issue) (states labelsAny : list string)
    (identifierRegex inputContextRegex : option Regexp) (inputContext : string) : list bool :=
  match identifierRegex with Some r => [r (issue_Identifier issue)] | None => [] end
  ++ match states with
     | [] => []
     | _ => [existsb (fun s => equal_fold s (issue_State issue)) states]
     end
  ++ match labelsAny with
     | [] => []
     | _ => [existsb (fun wanted => existsb (fun l => equal_fold l wanted) (issue_Labels issue))
               labelsAny]
     end
  ++ match inputContextRegex with Some r => [r inputContext] | None => [] end.

Definition MatchesAutomationFilter (issue : Issue) (matchMode : string)
    (states labelsAny : list string) (identifierRegex inputContextRegex : option Regexp)
    (inputContext : string) : bool :=
  let checks := filter_checks issue states labelsAny identifierRegex inputContextRegex inputContext in
  match checks with
  | [] => true
  | _ => if String.eqb matchMode AutomationFilterMatchAny
         then existsb (fun c => c) checks else forallb (fun c => c) checks
  end.

Definition matches_rule (issue : Issue) (r : Rule) (contextRegex : option Regexp) (context : string) :
    bool :=
  MatchesAutomationFilter issue (rule_MatchMode r) (rule_States r) (rule_LabelsAny r)
    (rule_IdentifierRegex r) contextRegex context.

Definition matchesInputRequiredAutomation (issue : Issue) (a : InputRequiredAutomation)
    (inputContext : string) : bool :=
  matches_rule issue (ira_rule a) (ira_InputContextRegex a) inputContext.

(** The loops dispatch one automation after the other; a fold threads the
    orchestrator and the state and collects the outcomes. *)
Definition dispatch_all (issue : Issue) (now : Time) (ds : list AutomationDispatch)
    (o : Orchestrator) (state : State) : list DispatchOutcome * Orchestrator * State :=
  foldl (fun '(outs, o, state) d =>
           let '(out, o, state) := dispatchOrQueueAutomation o state issue d now in
           (outs ++ [out], o, state))
    ([], o, state) ds.

Definition fired (type : string) (issue : Issue) (r : Rule) (now : Time) : AutomationTriggerContext :=
  zero_AutomationTriggerContext <| trig_Type := type |> <| trig_FiredAt := now |>
    <| trig_AutomationID := rule_ID r |> <| trig_CurrentState := issue_State issue |>.

Definition run_failed_dispatch (issue : Issue) (now : Time) (errorMessage : string) (attempt : Z)
    (r : RunFailedAutomation) : AutomationDispatch :=
  MkAutomationDispatch (rule_ID r) (rule_ProfileName r) (rule_Instructions r)
    (fired AutomationTriggerRunFailed issue r now
       <| trig_ErrorMessage := errorMessage |> <| trig_WillRetry := false |>
       <| trig_RetryAttempt := attempt |>) false "" false.

Definition dispatchMatchingRunFailedAutomations (automations : list RunFailedAutomation)
    (o : Orchestrator) (state : State) (issue : Issue) (now : Time) (errorMessage : string)
    (attempt : Z) : list DispatchOutcome * Orchestrator * State :=
  dispatch_all issue now
    (map (run_failed_dispatch issue now errorMessage attempt)
       (filter (fun r => matches_rule issue r None "" = true) automations)) o state.

Definition blockers_resolved_dispatch (issue : Issue) (audit : DependencyAuditEntry) (now : Time)
    (a : BlockersResolvedAutomation) : AutomationDispatch :=
  let r := bra_rule a in
  MkAutomationDispatch (rule_ID r) (rule_ProfileName r) (rule_Instructions r)
    (fired AutomationTriggerBlockersResolved issue r now
       <| trig_ResolvedBlockers := da_ResolvedBlockers audit |>
       <| trig_PreviouslyBlockedBy := da_BlockedBy audit |>
       <| trig_DependencyAuditVersion := da_LastTransitionVersion audit |>
       <| trig_DependencyUnblockedAt := da_UnblockedAt audit |>
       <| trig_MoveToState := bra_MoveToState a |>) false (bra_MoveToState a) false.

Definition dispatchMatchingBlockersResolvedAutomations
    (automations : list BlockersResolvedAutomation) (o : Orchestrator) (state : State)
    (issue : Issue) (audit : DependencyAuditEntry) (now : Time) :
    list DispatchOutcome * Orchestrator * State :=
  if da_LastTransitionVersion audit =? 0 then ([], o, state)
  else
    dispatch_all issue now
      (map (blockers_resolved_dispatch issue audit now)
         (filter (fun a => matches_rule issue (bra_rule a) None "" = true) automations)) o state.

(** A rule with a maximum age skips entries queued longer ago. *)
Definition input_stale (e : InputRequiredEntry) (now : Time) (a : InputRequiredAutomation) : bool :=
  (0 <? ira_MaxAge a) && negb (time_is_zero (ir_QueuedAt e))
  && (ira_MaxAge a <? time_sub now (ir_QueuedAt e)).

Definition input_required_dispatch (e : InputRequiredEntry) (now : Time)
    (a : InputRequiredAutomation) : AutomationDispatch :=
  let r := ira_rule a in
  MkAutomationDispatch (rule_ID r) (rule_ProfileName r) (rule_Instructions r)
    (zero_AutomationTriggerContext <| trig_Type := AutomationTriggerInputRequired |>
       <| trig_FiredAt := now |> <| trig_AutomationID := rule_ID r |>
       <| trig_InputContext := ir_Context e |> <| trig_BlockedProfile := ir_ProfileName e |>
       <| trig_BlockedBackend := ir_Backend e |>) (ira_AutoResume a) "" false.

Definition self_reentry (prevRun : option RunEntry) : bool :=
  match prevRun with
  | Some r => negb (String.eqb (run_AutomationID r) "")
              && String.eqb (run_TriggerType r) AutomationTriggerInputRequired
  | None => false
  end.

Definition dispatchMatchingInputRequiredAutomations (automations : list InputRequiredAutomation)
    (o : Orchestrator) (state : State) (issue : Issue) (entry : option InputRequiredEntry)
    (now : Time) (prevRun : option RunEntry) : list DispatchOutcome * Orchestrator * State :=
  match entry with
  | None => ([], o, state)
  | Some e =>
      if self_reentry prevRun then
        ([], o, state <| AutomationDropsSelfReentryTotal :=
                  addu64 (AutomationDropsSelfReentryTotal state) 1 |>)
      else
        dispatch_all issue now
          (map (input_required_dispatch e now)
             (filter (fun a => matchesInputRequiredAutomation issue a (ir_Context e) = true
                               /\ input_stale e now a = false) automations)) o state
  end.
