(* ===== verification/RefreshWorker.v ===== *)
(** * RefreshWorker: one batch of the dependency refresh, off the event loop
    (internal/orchestrator/dependency_refresh.go 18-26, 123-450)

    The worker gets an order, asks the tracker, and reports; it reads no loop
    state.  The tracker's answers and the fetch deadline may depend on how many
    requests came before.  A panic inside the tracker is not modelled. *)

From stdpp Require Import base gmap list strings.
From S2P Require Import Prelude Domain State Config Automation.

Local Open Scope Z_scope.

Record dependencyRefreshTarget := MkRefreshTarget {
  rt_Key : string;
  rt_IssueID : string;
  rt_Identifier : string;
}.

Record DependencyRefreshIssue := MkRefreshIssue {
  dri_RequestKey : string;
  dri_Issue : Issue;
}.

Record DependencyRefreshResult := MkRefreshResult {
  dr_BatchKeys : list string;
  dr_Issues : list DependencyRefreshIssue;
  dr_MissingKeys : list string;
  dr_FailedKeys : list string;
  dr_BlockersResolvedIssues : list Issue;
  dr_BlockersResolvedRan : bool;
  dr_BlockersResolvedOK : bool;
  dr_StartedAt : Time;
  dr_FinishedAt : Time;
  dr_Generation : Z;
  dr_SeqAtLaunch : Z;
}.

#[export] Instance eta_DependencyRefreshResult : Settable DependencyRefreshResult := {|
  eta_record r := MkRefreshResult (dr_BatchKeys r) (dr_Issues r) (dr_MissingKeys r)
    (dr_FailedKeys r) (dr_BlockersResolvedIssues r) (dr_BlockersResolvedRan r)
    (dr_BlockersResolvedOK r) (dr_StartedAt r) (dr_FinishedAt r) (dr_Generation r)
    (dr_SeqAtLaunch r) |}.

Record dependencyRefreshOrder := MkRefreshOrder {
  do_Targets : list dependencyRefreshTarget;
  do_States : list string;
  do_Timeout : Duration;
  do_StartedAt : Time;
  do_Generation : Z;
  do_SeqAtLaunch : Z;
}.

(** ** The tracker as the worker sees it *)

Inductive BatchAnswer :=
  | BatchIssues (issues : list Issue)
  | BatchNotFound
  | BatchFailed.

(** The first argument of every answer is the number of requests made before;
    [rf_expired n] tells whether the fetch context is done after [n]. *)
Record RefreshTracker := MkRefreshTracker {
  rf_by_states : nat -> list string -> option (list Issue);
  rf_by_ids : nat -> list string -> BatchAnswer;
  rf_detail : nat -> string -> FetchOutcome;
  rf_by_identifier : nat -> string -> FetchOutcome;
  rf_expired : nat -> bool;
}.

(** The result so far, and the requests made. *)
Definition Refreshing : Type := DependencyRefreshResult * nat.

Definition partitionRefreshTargets (targets : list dependencyRefreshTarget) :
    list dependencyRefreshTarget * list dependencyRefreshTarget :=
  (filter (fun t => rt_IssueID t <> "") targets, filter (fun t => rt_IssueID t = "") targets).

Definition dependencyRefreshDegradeBudget : nat := 10.

Definition boundRefreshDegradation (targets : list dependencyRefreshTarget) :
    list dependencyRefreshTarget * list dependencyRefreshTarget :=
  if (length targets <=? dependencyRefreshDegradeBudget)%nat then (targets, [])
  else (take dependencyRefreshDegradeBudget targets, drop dependencyRefreshDegradeBudget targets).

(** A nil issue without an error counts as not found. *)
Definition nil_is_missing (r : FetchOutcome) : FetchOutcome :=
  match r with FetchNil => FetchMissing "not found" | r => r end.

Definition fetchDependencyRefreshIssue (tr : RefreshTracker) (n : nat) (t : dependencyRefreshTarget) :
    FetchOutcome * nat :=
  if negb (String.eqb (rt_IssueID t) "") then (nil_is_missing (rf_detail tr n (rt_IssueID t)), S n)
  else if negb (String.eqb (rt_Identifier t) "")
  then (nil_is_missing (rf_by_identifier tr n (rt_Identifier t)), S n)
  else (FetchMissing "not found", n).

Definition report_issue (t : dependencyRefreshTarget) (issue : Issue) (r : DependencyRefreshResult) :
    DependencyRefreshResult :=
  r <| dr_Issues := dr_Issues r ++ [MkRefreshIssue (rt_Key t) issue] |>.
Definition report_missing (t : dependencyRefreshTarget) (r : DependencyRefreshResult) :
    DependencyRefreshResult := r <| dr_MissingKeys := dr_MissingKeys r ++ [rt_Key t] |>.
Definition report_failed (t : dependencyRefreshTarget) (r : DependencyRefreshResult) :
    DependencyRefreshResult := r <| dr_FailedKeys := dr_FailedKeys r ++ [rt_Key t] |>.

(** The switch on a single fetch (279-294, 391-405). *)
Definition fetch_one (tr : RefreshTracker) (t : dependencyRefreshTarget) (p : Refreshing) : Refreshing :=
  let '(r, n) := p in
  let '(out, n) := fetchDependencyRefreshIssue tr n t in
  match out with
  | Fetched issue => (report_issue t issue r, n)
  | FetchMissing _ => (report_missing t r, n)
  | FetchFailed _ | FetchNil => (report_failed t r, n)
  end.

Fixpoint confirmDependencyRefreshTargets (tr : RefreshTracker)
    (targets : list dependencyRefreshTarget) (byID : gmap string Issue) (p : Refreshing) : Refreshing :=
  match targets with
  | [] => p
  | t :: rest =>
      let '(r, n) := p in
      let p := match byID !! rt_IssueID t with
               | Some issue => (report_issue t issue r, n)
               | None => if rf_expired tr n then (report_failed t r, n) else fetch_one tr t p
               end in
      confirmDependencyRefreshTargets tr rest byID p
  end.

Definition defer_all (targets : list dependencyRefreshTarget) (p : Refreshing) : Refreshing :=
  (foldl (fun r t => report_failed t r) (fst p) targets, snd p).

(** [byID] keeps the last issue of an id. *)
Definition by_id (issues : list Issue) : gmap string Issue :=
  foldl (fun m i => <[issue_ID i := i]> m) ∅ issues.

Definition degrade (tr : RefreshTracker) (targets : list dependencyRefreshTarget) (p : Refreshing) :
    Refreshing :=
  let '(confirm, deferred) := boundRefreshDegradation targets in
  defer_all deferred (confirmDependencyRefreshTargets tr confirm ∅ p).

Definition fetchDependencyRefreshBatched (tr : RefreshTracker)
    (targets : list dependencyRefreshTarget) (p : Refreshing) : Refreshing :=
  let '(r, n) := p in
  match targets with
  | [] => p
  | _ =>
      if rf_expired tr n then p
      else
        match rf_by_ids tr n (map rt_IssueID targets) with
        | BatchNotFound | BatchFailed => degrade tr targets (r, S n)
        | BatchIssues issues => confirmDependencyRefreshTargets tr targets (by_id issues) (r, S n)
        end
  end.

(** The loop over the targets without an issue id (270-295). *)
Fixpoint fetch_rest (tr : RefreshTracker) (targets : list dependencyRefreshTarget) (p : Refreshing) :
    Refreshing :=
  match targets with
  | [] => p
  | t :: rest => if rf_expired tr (snd p) then p else fetch_rest tr rest (fetch_one tr t p)
  end.

(** The states scan (236-246). *)
Definition scan_states (tr : RefreshTracker) (states : list string) (p : Refreshing) : Refreshing :=
  let '(r, n) := p in
  match states with
  | [] => p
  | _ =>
      if rf_expired tr n then p
      else
        let r := r <| dr_BlockersResolvedRan := true |> in
        match rf_by_states tr n states with
        | None => (r, S n)
        | Some issues =>
            (r <| dr_BlockersResolvedOK := true |> <| dr_BlockersResolvedIssues := issues |>, S n)
        end
  end.

Definition new_result (order : dependencyRefreshOrder) : DependencyRefreshResult :=
  MkRefreshResult (map rt_Key (do_Targets order)) [] [] [] [] false false (do_StartedAt order)
    zero_time (do_Generation order) (do_SeqAtLaunch order).

Definition refresh_run (tr : RefreshTracker) (order : dependencyRefreshOrder) : Refreshing :=
  let '(batched, perIssue) := partitionRefreshTargets (do_Targets order) in
  fetch_rest tr perIssue
    (fetchDependencyRefreshBatched tr batched (scan_states tr (do_States order) (new_result order, O))).

(** The result as it is sent, and the requests it cost. *)
Definition runDependencyRefresh (tr : RefreshTracker) (order : dependencyRefreshOrder) (finished : Time) :
    DependencyRefreshResult * nat :=
  let '(r, n) := refresh_run tr order in (r <| dr_FinishedAt := finished |>, n).

(** ** What a batch reports *)

Definition reported (r : DependencyRefreshResult) : list string :=
  map dri_RequestKey (dr_Issues r) ++ dr_MissingKeys r ++ dr_FailedKeys r.

(** The tracker, asked for this issue alone, answered that it does not exist. *)
Definition not_found_alone (tr : RefreshTracker) (t : dependencyRefreshTarget) : Prop :=
  exists n msg, fst (fetchDependencyRefreshIssue tr n t) = FetchMissing msg.

(** The issue is the tracker's answer to a request for this target. *)
Definition answered (tr : RefreshTracker) (t : dependencyRefreshTarget) (i : Issue) : Prop :=
  (exists n, fst (fetchDependencyRefreshIssue tr n t) = Fetched i) \/
  (exists n ids issues, rf_by_ids tr n ids = BatchIssues issues /\ (i ∈ issues) /\
     issue_ID i = rt_IssueID t /\ (rt_IssueID t ∈ ids)).

(** [filed tr ts p p']: the targets [ts], each once, were filed on the way from
    [p] to [p'], with reason. *)
Record filed (tr : RefreshTracker) (ts : list dependencyRefreshTarget) (p p' : Refreshing) : Prop := {
  fi_reported : reported (fst p') ≡ₚ reported (fst p) ++ map rt_Key ts;
  fi_missing : forall k, k ∈ dr_MissingKeys (fst p') ->
    k ∈ dr_MissingKeys (fst p) \/ exists t, t ∈ ts /\ rt_Key t = k /\ not_found_alone tr t;
  fi_issues : forall d, d ∈ dr_Issues (fst p') ->
    d ∈ dr_Issues (fst p) \/
    exists t, t ∈ ts /\ rt_Key t = dri_RequestKey d /\ answered tr t (dri_Issue d);
  fi_kept : dr_BatchKeys (fst p') = dr_BatchKeys (fst p) /\
            dr_Generation (fst p') = dr_Generation (fst p) /\
            dr_SeqAtLaunch (fst p') = dr_SeqAtLaunch (fst p) /\
            dr_StartedAt (fst p') = dr_StartedAt (fst p);
}.

Section Filed.
Context (tr : RefreshTracker).

Lemma filed_nil p p' : fst p' = fst p -> filed tr [] p p'.
Proof. intros H. constructor; rewrite ?H, ?app_nil_r; auto. Qed.

Lemma filed_app ts ts' p1 p2 p3 :
  filed tr ts p1 p2 -> filed tr ts' p2 p3 -> filed tr (ts ++ ts') p1 p3.
Proof.
  intros [R1 M1 I1 (K1 & K2 & K3 & K4)] [R2 M2 I2 (K1' & K2' & K3' & K4')]. constructor.
  - rewrite R2, R1, map_app. by rewrite app_assoc.
  - intros k [H|(t & ? & ? & ?)]%M2; [|right; exists t; rewrite elem_of_app; auto].
    destruct (M1 k H) as [|(t & ? & ? & ?)]; [by left|]. right. exists t. rewrite elem_of_app. auto.
  - intros d [H|(t & ? & ? & ?)]%I2; [|right; exists t; rewrite elem_of_app; auto].
    destruct (I1 d H) as [|(t & ? & ? & ?)]; [by left|]. right. exists t. rewrite elem_of_app. auto.
  - split_and!; congruence.
Qed.

Lemma filed_issue t i r n n' : answered tr t i -> filed tr [t] (r, n) (report_issue t i r, n').
Proof.
  intros Ha. constructor; cbn; [| |intros d; rewrite elem_of_app, list_elem_of_singleton; intros [ | -> ]| ];
    auto.
  - unfold reported, report_issue. cbn. rewrite map_app. cbn. solve_Permutation.
  - right. exists t. rewrite list_elem_of_singleton. auto.
Qed.

Lemma filed_missing t r n n' : not_found_alone tr t -> filed tr [t] (r, n) (report_missing t r, n').
Proof.
  intros Ha. constructor; cbn; [|intros d; rewrite elem_of_app, list_elem_of_singleton; intros [ | -> ]| |];
    auto.
  - unfold reported, report_missing. cbn. solve_Permutation.
  - right. exists t. rewrite list_elem_of_singleton. auto.
Qed.

Lemma filed_failed t r n n' : filed tr [t] (r, n) (report_failed t r, n').
Proof.
  constructor; cbn; auto. unfold reported, report_failed. cbn. solve_Permutation.
Qed.

Lemma fetch_one_filed t p : filed tr [t] p (fetch_one tr t p).
Proof.
  destruct p as [r n]. unfold fetch_one.
  destruct (fetchDependencyRefreshIssue tr n t) as [[i|msg|msg|] n'] eqn:E;
    try apply filed_failed.
  - apply filed_issue. left. exists n. by rewrite E.
  - apply filed_missing. exists n, msg. by rewrite E.
Qed.

(** Every issue of the batch's answer is an answer to its target. *)
Definition justified (byID : gmap string Issue) (ts : list dependencyRefreshTarget) : Prop :=
  forall t i, t ∈ ts -> byID !! rt_IssueID t = Some i -> answered tr t i.

Lemma confirm_filed ts byID p :
  justified byID ts -> filed tr ts p (confirmDependencyRefreshTargets tr ts byID p).
Proof.
  revert p. induction ts as [|t ts IH]; intros [r n] Hj; cbn; [by apply filed_nil|].
  apply (filed_app [t] ts _ (match byID !! rt_IssueID t with
    | Some issue => (report_issue t issue r, n)
    | None => if rf_expired tr n then (report_failed t r, n) else fetch_one tr t (r, n) end)).
  - destruct (byID !! rt_IssueID t) as [i|] eqn:E.
    + apply filed_issue, (Hj t); [apply list_elem_of_here|done].
    + destruct (rf_expired tr n); [apply filed_failed|apply fetch_one_filed].
  - apply IH. intros t' i Ht. apply Hj. by apply list_elem_of_further.
Qed.

Lemma defer_filed ts p : filed tr ts p (defer_all ts p).
Proof.
  destruct p as [r n]. unfold defer_all. cbn [fst snd]. revert r.
  induction ts as [|t ts IH]; intros r; cbn; [by apply filed_nil|].
  apply (filed_app [t] ts _ (report_failed t r, n)); [apply filed_failed|apply IH].
Qed.

Lemma by_id_issue issues id i : by_id issues !! id = Some i -> i ∈ issues /\ issue_ID i = id.
Proof.
  unfold by_id.
  assert (H : forall m : gmap string Issue, (forall id i, m !! id = Some i -> i ∈ issues /\ issue_ID i = id) ->
    forall l, l ⊆ issues -> foldl (fun m i => <[issue_ID i := i]> m) m l !! id = Some i ->
    i ∈ issues /\ issue_ID i = id); [|by apply H].
  intros m Hm l. revert m Hm. induction l as [|x l IH]; intros m Hm Hl; [apply Hm|].
  apply IH; [|set_solver]. intros id' i'. rewrite lookup_insert_Some.
  intros [[<- <-]|[_ H]]; [split; [set_solver|done]|by apply Hm].
Qed.

Lemma degrade_filed ts p : filed tr ts p (degrade tr ts p).
Proof.
  assert (Hj : forall l, justified ∅ l) by (intros l t i _; by rewrite lookup_empty).
  unfold degrade, boundRefreshDegradation. destruct (_ <=? _)%nat.
  - rewrite <- (app_nil_r ts) at 1. eapply filed_app; [by apply confirm_filed|apply defer_filed].
  - rewrite <- (take_drop dependencyRefreshDegradeBudget ts) at 1.
    eapply filed_app; [by apply confirm_filed|apply defer_filed].
Qed.

(** All of the batch, or none of it when the deadline has passed. *)
Lemma batched_filed ts p :
  filed tr ts p (fetchDependencyRefreshBatched tr ts p) \/
  (fetchDependencyRefreshBatched tr ts p = p /\ rf_expired tr (snd p) = true).
Proof.
  destruct p as [r n]. unfold fetchDependencyRefreshBatched. destruct ts as [|t ts].
  { left. by apply filed_nil. }
  destruct (rf_expired tr n) eqn:E; [by right|]. left.
  assert (Hn : forall l p', filed tr l (r, S n) p' -> filed tr l (r, n) p')
    by (intros l p' [R M I K]; by constructor).
  destruct (rf_by_ids tr n _) as [issues| |] eqn:Eb; apply Hn; try apply degrade_filed.
  apply confirm_filed. intros t' i Ht (Hi & He)%by_id_issue. right.
  eexists n, _, issues. split; [exact Eb|]. split; [done|]. split; [done|].
  by apply (list_elem_of_fmap_2 rt_IssueID).
Qed.

Lemma fetch_rest_filed ts p :
  exists done_ rest, ts = done_ ++ rest /\ filed tr done_ p (fetch_rest tr ts p) /\
    (rest = [] \/ exists n, rf_expired tr n = true).
Proof.
  revert p. induction ts as [|t ts IH]; intros p; cbn.
  { exists [], []. split; [done|]. split; [by apply filed_nil|by left]. }
  destruct (rf_expired tr (snd p)) eqn:E.
  { exists [], (t :: ts). split; [done|]. split; [by apply filed_nil|right; eauto]. }
  destruct (IH (fetch_one tr t p)) as (d & rest & -> & Hf & Hr).
  exists (t :: d), rest. split; [done|]. split; [|done].
  apply (filed_app [t] d _ (fetch_one tr t p)); [apply fetch_one_filed|done].
Qed.

Lemma scan_filed states p : filed tr [] p (scan_states tr states p).
Proof.
  destruct p as [r n]. unfold scan_states. destruct states; [by apply filed_nil|].
  destruct (rf_expired tr n); [by apply filed_nil|].
  destruct (rf_by_states tr n _); by constructor; cbn; auto;
    unfold reported; cbn; rewrite app_nil_r.
Qed.
End Filed.

Lemma partition_perm ts :
  (partitionRefreshTargets ts).1 ++ (partitionRefreshTargets ts).2 ≡ₚ ts.
Proof.
  cbn. induction ts as [|t ts IH]; [done|]. rewrite !filter_cons.
  destruct (decide (rt_IssueID t <> "")), (decide (rt_IssueID t = "")); try done; cbn.
  - by rewrite IH.
  - rewrite <- Permutation_middle. by rewrite IH.
Qed.

(** The targets a run files, and that only a passed deadline leaves any out. *)
Lemma run_filed tr order :
  exists done_, done_ ⊆+ do_Targets order /\
    filed tr done_ (new_result order, O) (refresh_run tr order) /\
    ((forall n, rf_expired tr n = false) -> done_ ≡ₚ do_Targets order).
Proof.
  unfold refresh_run. pose proof (partition_perm (do_Targets order)) as Hp.
  destruct (partitionRefreshTargets _) as [batched perIssue]. cbn [fst snd] in Hp.
  set (p1 := scan_states tr _ _). pose proof (scan_filed tr (do_States order) (new_result order, O)) as H1.
  fold p1 in H1. destruct (fetch_rest_filed tr perIssue (fetchDependencyRefreshBatched tr batched p1))
    as (d & rest & -> & H3 & Hr).
  assert (Hall : (forall n, rf_expired tr n = false) -> rest = []).
  { intros Hn. destruct Hr as [->|[n Hr]]; [done|]. by rewrite Hn in Hr. }
  destruct (batched_filed tr batched p1) as [H2|[He Hx]].
  - exists (batched ++ d). split_and!.
    + rewrite <- Hp, app_assoc. by apply submseteq_inserts_r.
    + apply (filed_app _ [] _ _ p1); [done|]. by eapply filed_app.
    + intros ->%Hall. by rewrite app_nil_r in Hp.
  - exists d. rewrite He in H3 |- *. split_and!.
    + rewrite <- Hp. apply submseteq_inserts_l. by apply submseteq_inserts_r.
    + by apply (filed_app _ [] _ _ p1).
    + intros Hn. by rewrite Hn in Hx.
Qed.

(** A batch reports truthfully.  No row is filed twice; only a passed
    deadline leaves a row out; a row is retired only when the tracker, asked
    for that issue alone, said it does not exist, never because a batched
    answer left it out or failed; and each reported issue is the tracker's
    answer to a request for that very row. *)
Theorem refresh_reports tr order finished :
  let r := fst (runDependencyRefresh tr order finished) in
  dr_BatchKeys r = map rt_Key (do_Targets order) /\ dr_Generation r = do_Generation order /\
  reported r ⊆+ dr_BatchKeys r /\
  ((forall n, rf_expired tr n = false) -> reported r ≡ₚ dr_BatchKeys r) /\
  (forall k, k ∈ dr_MissingKeys r ->
     exists t, t ∈ do_Targets order /\ rt_Key t = k /\ not_found_alone tr t) /\
  (forall d, d ∈ dr_Issues r ->
     exists t, t ∈ do_Targets order /\ rt_Key t = dri_RequestKey d /\ answered tr t (dri_Issue d)).
Proof.
  cbn zeta. unfold runDependencyRefresh.
  destruct (run_filed tr order) as (d & Hd & [R M I (K1 & K2 & _ & _)] & Hall).
  destruct (refresh_run tr order) as [r n]. cbn [fst snd] in *. cbn in R, K1, K2.
  cbn [dr_BatchKeys dr_Generation dr_MissingKeys dr_Issues].
  change (reported (r <| dr_FinishedAt := finished |>)) with (reported r).
  cbn. rewrite K1, R. split_and!; try done.
  - by apply fmap_submseteq.
  - intros Hn. by rewrite (Hall Hn).
  - intros k Hk. destruct (M k Hk) as [H|(t & Ht & ? & ?)]; [by apply elem_of_nil in H|].
    exists t. split; [|done]. by eapply elem_of_submseteq.
  - intros x Hx. destruct (I x Hx) as [H|(t & Ht & ? & ?)]; [by apply elem_of_nil in H|].
    exists t. split; [|done]. by eapply elem_of_submseteq.
Qed.

(** ** What a batch costs *)

Section Requests.
Context (tr : RefreshTracker).
Local Open Scope nat_scope.

Lemma fetch_one_requests t p : snd (fetch_one tr t p) <= S (snd p).
Proof.
  destruct p as [r n]. unfold fetch_one, fetchDependencyRefreshIssue.
  repeat case_match; simplify_eq; cbn; lia.
Qed.

Lemma confirm_requests ts byID p :
  snd (confirmDependencyRefreshTargets tr ts byID p) <= snd p + length ts.
Proof.
  revert p. induction ts as [|t ts IH]; intros [r n];
    cbn [confirmDependencyRefreshTargets length snd]; [lia|].
  etransitivity; [apply IH|].
  pose proof (fetch_one_requests t (r, n)) as H. cbn [snd] in H.
  destruct (byID !! _); [cbn; lia|]. destruct (rf_expired tr n); cbn [snd]; lia.
Qed.

Lemma degrade_requests ts p :
  snd (degrade tr ts p) <= snd p + dependencyRefreshDegradeBudget.
Proof.
  unfold degrade, boundRefreshDegradation, defer_all.
  destruct (Nat.leb_spec (length ts) dependencyRefreshDegradeBudget); cbn [snd];
    (etransitivity; [apply confirm_requests|]); rewrite ?length_take; lia.
Qed.

Lemma degrade_requests_targets ts p : snd (degrade tr ts p) <= snd p + length ts.
Proof.
  unfold degrade, boundRefreshDegradation, defer_all. destruct (_ <=? _)%nat; cbn [snd];
    (etransitivity; [apply confirm_requests|]); rewrite ?length_take; lia.
Qed.

Lemma fetch_rest_requests ts p : snd (fetch_rest tr ts p) <= snd p + length ts.
Proof.
  revert p. induction ts as [|t ts IH]; intros p; cbn; [lia|].
  destruct (rf_expired tr (snd p)); [lia|]. etransitivity; [apply IH|].
  pose proof (fetch_one_requests t p). lia.
Qed.

Lemma scan_requests states p : snd (scan_states tr states p) <= S (snd p).
Proof. destruct p as [r n]. unfold scan_states. repeat case_match; cbn; lia. Qed.

Lemma batched_requests ts p :
  snd (fetchDependencyRefreshBatched tr ts p) <= S (snd p + length ts) /\
  ((forall n ids issues, rf_by_ids tr n ids <> BatchIssues issues) ->
   snd (fetchDependencyRefreshBatched tr ts p) <= S (snd p + dependencyRefreshDegradeBudget)).
Proof.
  destruct p as [r n]. unfold fetchDependencyRefreshBatched. destruct ts as [|t ts]; [split; [|intros _]; cbn; lia|].
  destruct (rf_expired tr n); [split; [|intros _]; cbn; lia|].
  destruct (rf_by_ids tr n _) as [issues| |] eqn:E.
  - split; [|intros H; by apply H in E].
    etransitivity; [apply confirm_requests|]. cbn; lia.
  - split; [etransitivity; [apply degrade_requests_targets|]; cbn; lia|].
    intros _. etransitivity; [apply degrade_requests|]. cbn; lia.
  - split; [etransitivity; [apply degrade_requests_targets|]; cbn; lia|].
    intros _. etransitivity; [apply degrade_requests|]. cbn; lia.
Qed.
End Requests.

(** A batch spends a bounded number of tracker requests: two more than its
    rows at most.  When the tracker refuses every batched request, as under a
    revoked token, the rows with an issue id cost ten requests in all, however
    many they are. *)
Theorem refresh_requests tr order finished :
  let n := Z.of_nat (snd (runDependencyRefresh tr order finished)) in
  let '(batched, perIssue) := partitionRefreshTargets (do_Targets order) in
  n <= 2 + Z.of_nat (length (do_Targets order)) /\
  ((forall n ids issues, rf_by_ids tr n ids <> BatchIssues issues) ->
   n <= 12 + Z.of_nat (length perIssue)).
Proof.
  unfold runDependencyRefresh, refresh_run.
  pose proof (Permutation_length (partition_perm (do_Targets order))) as Hlen.
  destruct (partitionRefreshTargets _) as [batched perIssue]. cbn [fst snd] in Hlen.
  rewrite length_app in Hlen.
  set (p1 := scan_states tr _ _). pose proof (scan_requests tr (do_States order) (new_result order, O)) as H1.
  fold p1 in H1. cbn [snd] in H1. destruct (batched_requests tr batched p1) as [H2 H2'].
  pose proof (fetch_rest_requests tr perIssue (fetchDependencyRefreshBatched tr batched p1)) as H3.
  destruct (fetch_rest tr perIssue _) as [r n]. cbn [snd] in *.
  split; [lia|]. intros Hf. specialize (H2' Hf). unfold dependencyRefreshDegradeBudget in *. lia.
Qed.

(** A tracker that has lost its batch endpoint and one of the two issues. *)
Definition refused_batches : RefreshTracker :=
  MkRefreshTracker (fun _ _ => None) (fun _ _ => BatchFailed)
    (fun _ id => if String.eqb id "1" then Fetched (zero_Issue <| issue_ID := "1" |>) else FetchMissing "gone")
    (fun _ _ => FetchNil) (fun _ => false).

Definition two_rows : dependencyRefreshOrder :=
  MkRefreshOrder [MkRefreshTarget "k1" "1" "I-1"; MkRefreshTarget "k2" "2" "I-2"] [] 0 0 7 3.

Lemma refresh_reports_witness :
  let r := fst (runDependencyRefresh refused_batches two_rows 9) in
  dr_MissingKeys r = ["k2"] /\ map dri_RequestKey (dr_Issues r) = ["k1"] /\
  reported r ≡ₚ dr_BatchKeys r.
Proof.
  cbn zeta. split; [vm_compute; reflexivity|]. split; [vm_compute; reflexivity|].
  apply (refresh_reports refused_batches two_rows 9). intros n. reflexivity.
Defined.

Lemma refresh_requests_witness :
  snd (runDependencyRefresh refused_batches two_rows 9) = 3%nat /\
  Z.of_nat (snd (runDependencyRefresh refused_batches two_rows 9)) <= 12 + 0.
Proof.
  split; [vm_compute; reflexivity|].
  apply (refresh_requests refused_batches two_rows 9). intros n ids issues. discriminate.
Defined.
