(* ===== verification/World.v ===== *)
(** * World: what an event handler reads and changes
    (internal/orchestrator/event_loop.go, dependency_audit.go 201-232,
    restack.go, orchestrator.go)

    A handler works on a [World]: the orchestrator's own fields, the loop's
    state, and the effects it has started, in their order.  What it reads from
    outside, the clock, the tracker and the workspace, is an [Env]; one event
    reads the clock once. *)

From stdpp Require Import base gmap list strings.
From Stdlib Require Import Ascii.
From S2P Require Import Prelude Domain State Config Retry Dispatch Resolve BackendHealth BackendGate.
From S2P Require Import AutomationQueue StatusHistory DependencyAudit Janitor Tracker Outbox.
From S2P Require Import Orchestrator Automation Triggers RefreshWorker.

Local Open Scope Z_scope.

(** ** Effects *)

Record CompletedRun := MkCompletedRun {
  cr_Identifier : string;
  cr_Title : string;
  cr_StartedAt : Time;
  cr_FinishedAt : Time;
  cr_ElapsedMs : Z;
  cr_TurnCount : Z;
  cr_TotalTokens : Z;
  cr_InputTokens : Z;
  cr_OutputTokens : Z;
  cr_Status : string;
  cr_WorkerHost : string;
  cr_Backend : string;
  cr_ProfileName : string;
  cr_SessionID : string;
  cr_Kind : string;
  cr_AutomationID : string;
  cr_TriggerType : string;
  cr_CommentCount : Z;
}.

(** Goroutines the loop starts, the rows it adds to the run history, and the
    exit events it sends itself. *)
Inductive Effect :=
  | Spawn (launch : Launch)
  | Transition (viaSink : bool) (issueID identifier target fromState : string) (gen : Z)
  | PostComment (issueID identifier body : string)
  | PostKeyed (issueID identifier key body : string)
  | PostQuestionDirectly (issueID identifier key body : string)
  | RunRecorded (run : CompletedRun)
  | ClearWorkspace (identifier branch : string)
  | SendExit (issueID : string) (entry : option RunEntry)
  | LaunchRefresh (order : dependencyRefreshOrder).

Record World := MkWorld {
  w_orch : Orchestrator;
  w_state : State;
  w_effects : list Effect;
}.

#[export] Instance eta_World : Settable World := {|
  eta_record w := MkWorld (w_orch w) (w_state w) (w_effects w) |}.

Definition emit (e : Effect) (w : World) : World := w <| w_effects := w_effects w ++ [e] |>.
Definition on_state (f : State -> State) (w : World) : World := w <| w_state := f (w_state w) |>.
Definition on_orch (f : Orchestrator -> Orchestrator) (w : World) : World :=
  w <| w_orch := f (w_orch w) |>.
Definition when (b : bool) (f : World -> World) (w : World) : World := if b then f w else w.

(** ** The environment *)

Record Env := MkEnv {
  env_now : Time;
  (** [FetchIssueStatesByIDs] and [FetchIssuesByStates]; [None] is an error. *)
  env_by_ids : list string -> option (list Issue);
  env_by_states : list string -> option (list Issue);
  (** [FetchIssueDetail] and [tracker.PrefetchDetails]. *)
  env_detail : string -> FetchOutcome;
  env_prefetch : list string -> gmap string Issue;
  (** what the queue drain reads *)
  env_drain : DrainEnv;
  (** the compiled automation rules *)
  env_run_failed : list RunFailedAutomation;
  env_blockers_resolved : list BlockersResolvedAutomation;
  env_input_required : list InputRequiredAutomation;
  env_rate_limited : list RateLimitedAutomation;
  (** whether a workspace can restack, onto which branch, and whether that
      conflicts *)
  env_restack : option (string * (Issue -> bool));
  (** the verdict file of a reviewer; [inr] is the error of reading it, with
      no resolvable workspace among its causes *)
  env_verdict : string -> string -> ReviewVerdict + string;
  (** [None]: comments cannot carry keys here; [Some key]: the fresh key *)
  env_comment_key : option string;
  (** whether the outbox accepts an enqueue *)
  env_enqueue_ok : bool;
  (** the entries of the outbox; [None] when there is none *)
  env_outbox : option (list Entry);
  (** whether [o.workspace] is set *)
  env_workspace : bool;
}.

(** ** Calls of the automation component *)

Definition spawn_all (launches : list Launch) (w : World) : World :=
  w <| w_effects := w_effects w ++ map Spawn launches |>.

Definition from_option_launch (l : option Launch) : list Launch :=
  match l with Some l => [l] | None => [] end.

Definition run_dispatchOrQueue (issue : Issue) (d : AutomationDispatch) (now : Time) (w : World) :
    bool * World :=
  let '(out, o, state) := dispatchOrQueueAutomation (w_orch w) (w_state w) issue d now in
  (do_accepted out, spawn_all (from_option_launch (do_launch out)) (MkWorld o state (w_effects w))).

(** The result of a dispatcher of [Triggers]. *)
Definition after_dispatches (w : World) (r : list DispatchOutcome * Orchestrator * State) : World :=
  let '(outs, o, state) := r in
  spawn_all (concat (map (fun out => from_option_launch (do_launch out)) outs))
    (MkWorld o state (w_effects w)).

Definition run_failed_automations (env : Env) (issue : Issue) (errorMessage : string) (attempt : Z)
    (w : World) : World :=
  after_dispatches w (dispatchMatchingRunFailedAutomations (env_run_failed env) (w_orch w) (w_state w)
    issue (env_now env) errorMessage attempt).

Definition blockers_resolved_automations (env : Env) (issue : Issue) (audit : DependencyAuditEntry)
    (w : World) : World :=
  after_dispatches w (dispatchMatchingBlockersResolvedAutomations (env_blockers_resolved env)
    (w_orch w) (w_state w) issue audit (env_now env)).

Definition input_required_automations (env : Env) (issue : Issue) (entry : option InputRequiredEntry)
    (prevRun : option RunEntry) (w : World) : World :=
  after_dispatches w (dispatchMatchingInputRequiredAutomations (env_input_required env) (w_orch w)
    (w_state w) issue entry (env_now env) prevRun).

Definition drain_with_candidates (candidates : gmap string Issue) (env : Env) (w : World) : World :=
  let '(o, state, launches) :=
    drainAutomationQueueWithCandidates (env_drain env <| de_candidates := candidates |>)
      (w_orch w) (w_state w) in
  spawn_all launches (MkWorld o state (w_effects w)).

Definition drainAutomationQueue (env : Env) (w : World) : World := drain_with_candidates ∅ env w.

(** ** Branch names (internal/workspace/worktree.go 18-63)

    A byte of a longer rune counts as part of a letter. *)

Definition IsDefaultBranch (branch : string) : bool :=
  existsb (String.eqb branch) [""; "main"; "master"; "develop"; "HEAD"].

Definition slug_byte (c : ascii) : ascii :=
  let n := N_of_ascii c in
  if ((97 <=? n) && (n <=? 122) || (65 <=? n) && (n <=? 90) || (48 <=? n) && (n <=? 57) || (128 <=? n))%N
  then c else "-"%char.

Fixpoint map_bytes (f : ascii -> ascii) (s : string) : string :=
  match s with
  | EmptyString => EmptyString
  | String c s => String (f c) (map_bytes f s)
  end.

(** [strings.Trim(s, "-")]. *)
Fixpoint trim_hyphens_left (s : string) : string :=
  match s with
  | String c s' => if Ascii.eqb c "-"%char then trim_hyphens_left s' else s
  | EmptyString => EmptyString
  end.
Fixpoint trim_hyphens_right (s : string) : string :=
  match s with
  | EmptyString => EmptyString
  | String c s' =>
      match trim_hyphens_right s' with
      | EmptyString => if Ascii.eqb c "-"%char then EmptyString else String c EmptyString
      | r => String c r
      end
  end.

(** [strings.ReplaceAll(s, "--", "-")]: each pair, from the left. *)
Fixpoint replace_pairs (s : string) : string :=
  match s with
  | String a ((String b r) as tl) =>
      if Ascii.eqb a "-"%char && Ascii.eqb b "-"%char then String "-"%char (replace_pairs r)
      else String a (replace_pairs tl)
  | s => s
  end.

Fixpoint dedup_hyphens (fuel : nat) (s : string) : string :=
  match fuel with
  | O => s
  | S fuel => if contains s "--" then dedup_hyphens fuel (replace_pairs s) else s
  end.

Definition SlugifyIdentifier (id : string) : string :=
  let mapped := map_bytes slug_byte (trim_space (to_lower id)) in
  let result := trim_hyphens_right (trim_hyphens_left mapped) in
  dedup_hyphens (String.length result) result.

Definition ResolveWorktreeBranch (branchName : option string) (identifier : string) : string :=
  let fresh := String.append "itervox/" (SlugifyIdentifier identifier) in
  match branchName with
  | Some b => if IsDefaultBranch b then fresh else b
  | None => fresh
  end.

(** ** Restacking (restack.go) *)

(** [issueRunning]. *)
Definition issueRunning (state : State) (issue : Issue) : bool :=
  (bool_decide (is_Some (Running state !! issue_ID issue)) && negb (String.eqb (issue_ID issue) ""))
  || existsb (fun kv => String.eqb (issue_Identifier (run_Issue kv.2)) (issue_Identifier issue))
       (map_to_list (Running state)).

Definition restackEligible (state : State) (issue : Issue) : bool :=
  negb (String.eqb (issue_Identifier issue) "") && negb (issueRunning state issue)
  && forallb (fun b => match br_State b with Some s => isTerminalState s state | None => false end)
       (issue_BlockedBy issue).

(** Whether the restack conflicted.  The pull-request retarget it may start
    changes no state. *)
Definition restackUnblockedIssue (env : Env) (state : State) (issue : Issue) : bool * State :=
  match env_restack env with
  | None => (false, state)
  | Some (_, conflicts) =>
      if negb (String.eqb (issue_Identifier issue) "") && issueRunning state issue
      then (false, state <| PendingRestacks := {[issue_Identifier issue]} ∪ PendingRestacks state |>)
      else if negb (restackEligible state issue) then (false, state)
      else (conflicts issue, state)
  end.

Definition zero_InputRequiredEntry : InputRequiredEntry :=
  MkInputRequiredEntry "" "" "" "" "" "" "" "" "" "" "" "" "" zero_time zero_time false.

Definition markRestackConflict (env : Env) (state : State) (issue : Issue) : State :=
  match InputRequiredIssues state !! issue_Identifier issue with
  | Some _ => state
  | None =>
      let base := match env_restack env with Some (b, _) => b | None => "" end in
      state <| InputRequiredIssues :=
        <[issue_Identifier issue := zero_InputRequiredEntry
            <| ir_IssueID := issue_ID issue |> <| ir_Identifier := issue_Identifier issue |>
            <| ir_Context := String.append "Restacking this branch onto " (String.append base
                 " hit a merge conflict after its blocker landed. The rebase was aborted, so the branch is unchanged. Resolve the conflict manually, then resume.") |>
            <| ir_BranchName := ResolveWorktreeBranch (issue_BranchName issue) (issue_Identifier issue) |>
            <| ir_QueuedAt := env_now env |>]> (InputRequiredIssues state) |>
  end.

Definition restack (env : Env) (issue : Issue) (state : State) : State :=
  let '(conflicted, state) := restackUnblockedIssue env state issue in
  if conflicted then markRestackConflict env state issue else state.

(** ** The audit of a fetched issue (dependency_audit.go 201-232) *)

Definition auditFetchedIssueDependenciesAndDispatch (env : Env) (issue : Issue) (w : World) : World :=
  let beforeSeq := DependencyTransitionSeq (w_state w) in
  let '(entry, state) := auditFetchedIssueDependencies (w_state w) issue (env_now env) (env_now env) in
  let w := w <| w_state := state |> in
  let unblocked := bool_decide (da_Status entry = DependencyAuditUnblocked) in
  if (beforeSeq <? da_LastTransitionVersion entry) && unblocked
  then blockers_resolved_automations env issue entry (on_state (restack env issue) w)
  else if bool_decide (issue_Identifier issue ∈ PendingRestacks state) then
    let dropped s := s <| PendingRestacks := PendingRestacks s ∖ {[issue_Identifier issue]} |> in
    if negb unblocked then on_state dropped w
    else if negb (issueRunning state issue) then on_state (fun s => restack env issue (dropped s)) w
    else w
  else w.

(** ** Discards (event_loop.go 2569-2690) *)

(** Both discards: mark the identifier, and let a goroutine move the issue. *)
Definition discard (env : Env) (viaSink : bool) (issueID identifier targetState fromState : string)
    (w : World) : World :=
  if String.eqb issueID "" || String.eqb targetState "" then w
  else
    let '(gen, state) := markDiscarding (w_state w) identifier (env_now env) in
    emit (Transition viaSink issueID identifier targetState fromState gen) (w <| w_state := state |>).

Definition asyncDiscardAndTransitionTo (env : Env) (issueID identifier targetState fromState : string)
    (w : World) : World :=
  discard env true issueID identifier targetState fromState w.

(** Backlog first, else the first active state. *)
Definition discard_target (cfg : Config) : string :=
  match tracker_BacklogStates (cfg_Tracker cfg), tracker_ActiveStates (cfg_Tracker cfg) with
  | s :: _, _ => s
  | [], s :: _ => s
  | [], [] => ""
  end.

Definition asyncDiscardAndTransition (env : Env) (issueID identifier : string) (w : World) : World :=
  discard env false issueID identifier (discard_target (o_cfg (w_orch w))) "" w.

(** ** History (event_loop.go 2688-2732) *)

Definition completed_run (counts : gmap string Z) (liveEntry : option RunEntry) (issue : Issue)
    (finishedAt : Time) (status : string) : CompletedRun :=
  let i := issue_Identifier issue in
  match liveEntry with
  | None =>
      MkCompletedRun i (issue_Title issue) finishedAt finishedAt 0 0 0 0 0 status "" "" "" "" "" "" "" 0
  | Some r =>
      MkCompletedRun i (issue_Title issue) (run_StartedAt r) finishedAt
        (Z.quot (time_sub finishedAt (run_StartedAt r)) Millisecond)
        (run_TurnCount r) (run_TotalTokens r) (run_InputTokens r) (run_OutputTokens r) status
        (run_WorkerHost r) (run_Backend r) (run_ProfileName r) (run_SessionID r) (run_Kind r)
        (run_AutomationID r) (run_TriggerType r)
        (Z.max (default 0 (counts !! i)) (run_CommentCount r))
  end.

Definition recordHistory (liveEntry : option RunEntry) (issue : Issue) (finishedAt : Time)
    (status : string) (w : World) : World :=
  emit (RunRecorded (completed_run (o_commentCounts (w_orch w)) liveEntry issue finishedAt status))
    (on_orch (fun o => o <| o_commentCounts := base.delete (issue_Identifier issue) (o_commentCounts o) |>) w).
