(* ===== verification/DependencyRefresh.v ===== *)
(** * DependencyRefresh: the loop's side of the dependency refresh
    (internal/orchestrator/dependency_refresh.go 28-121, 452-782)

    The loop selects a batch of audit rows, arms their latch and launches one
    worker at a time; the result event folds the answers back in.  A result
    that carries another generation than the state's is dropped, and a batch
    that outlives its timeout is reclaimed. *)

From stdpp Require Import base gmap list strings.
From S2P Require Import Prelude Domain State Config Dispatch AutomationQueue StatusHistory.
From S2P Require Import DependencyAudit Orchestrator Automation Triggers RefreshWorker World.

Local Open Scope Z_scope.

(** ** Selecting a batch *)

Record RefreshCandidate := MkRefreshCandidate {
  rfc_target : dependencyRefreshTarget;
  rfc_priority : bool;
  rfc_auditedAt : Time;
}.

Definition unfetchable (e : DependencyAuditEntry) : bool :=
  String.eqb (da_IssueID e) "" && String.eqb (da_Identifier e) "".

Definition refresh_skips (now : Time) (interval : Duration) (e : DependencyAuditEntry) : bool :=
  da_InFlight e || (da_LastAuditedAt e =? now)
  || (negb (time_is_zero (da_LastRefreshAttemptAt e))
      && (time_sub now (da_LastRefreshAttemptAt e) <? interval)).

Definition refresh_candidate (queued : gset string) (kv : string * DependencyAuditEntry) :
    RefreshCandidate :=
  let e := kv.2 in
  MkRefreshCandidate (MkRefreshTarget kv.1 (da_IssueID e) (da_Identifier e))
    (bool_decide (da_Identifier e ∈ queued)
     || (negb (String.eqb (da_IssueID e) "") && bool_decide (da_IssueID e ∈ queued)))
    (da_LastAuditedAt e).

(** Queued consumers first, then the oldest audit, then the key. *)
Definition refresh_before (a b : RefreshCandidate) : bool :=
  if negb (Bool.eqb (rfc_priority a) (rfc_priority b)) then rfc_priority a
  else if negb (rfc_auditedAt a =? rfc_auditedAt b) then time_before (rfc_auditedAt a) (rfc_auditedAt b)
  else string_less (rt_Key (rfc_target a)) (rt_Key (rfc_target b)).

(** The rows a batch may take, in their order. *)
Definition refresh_order (state : State) (now : Time) (interval : Duration) : list RefreshCandidate :=
  sort_stable refresh_before
    (map (refresh_candidate (blockersResolvedQueueIdentifiers state))
       (filter (fun kv => unfetchable kv.2 = false /\ refresh_skips now interval kv.2 = false)
          (map_to_list (DependencyAudit state)))).

Definition arm (now : Time) (e : DependencyAuditEntry) : DependencyAuditEntry :=
  e <| da_InFlight := true |> <| da_LastRefreshAttemptAt := now |>.

Definition arm_row (now : Time) (audit : gmap string DependencyAuditEntry)
    (t : dependencyRefreshTarget) : gmap string DependencyAuditEntry :=
  alter (arm now) (rt_Key t) audit.

Definition selectDependencyRefreshBatch (state : State) (now : Time) (interval : Duration)
    (batchSize : Z) : list dependencyRefreshTarget * State :=
  if decide (size (DependencyAudit state) = 0%nat) then ([], state)
  else if batchSize <=? 0 then ([], state)
  else
    let targets := map rfc_target (firstn (Z.to_nat batchSize) (refresh_order state now interval)) in
    let fetchable := filter (fun kv => unfetchable kv.2 = false) (DependencyAudit state) in
    (targets, state <| DependencyAudit := foldl (arm_row now) fetchable targets |>).

(** ** Launching *)

Definition dependencyRefreshWatchdogGrace : Duration := 5 * Second.

Definition dependencyRefreshTimeout (cfg : Config) : Duration :=
  let ms := agent_DependencyAuditRefreshTimeoutMs (cfg_Agent cfg) in
  mul64 (if ms <=? 0 then DefaultDependencyAuditRefreshTimeoutMs else ms) Millisecond.

Definition dependencyRefreshInterval (cfg : Config) : Duration :=
  let ms := agent_DependencyAuditRefreshIntervalMs (cfg_Agent cfg) in
  mul64 (if ms <=? 0 then DefaultDependencyAuditRefreshIntervalMs else ms) Millisecond.

Definition dependencyRefreshBatchSize (cfg : Config) : Z :=
  let n := agent_DependencyAuditRefreshBatchSize (cfg_Agent cfg) in
  if n <=? 0 then DefaultDependencyAuditRefreshBatchSize else n.

Definition disarm (e : DependencyAuditEntry) : DependencyAuditEntry := e <| da_InFlight := false |>.

Definition reclaimStuckDependencyRefresh (cfg : Config) (state : State) (now : Time) : State :=
  if negb (DepsRefreshInFlight state) then state
  else if time_sub now (DepsRefreshStartedAt state)
          <=? add64 (dependencyRefreshTimeout cfg) dependencyRefreshWatchdogGrace then state
  else
    state <| DependencyAudit := (disarm <$> DependencyAudit state) |>
          <| DepsRefreshInFlight := false |> <| DepsRefreshBatchSize := 0 |>
          <| DepsRefreshStartedAt := zero_time |>
          <| DepsRefreshGeneration := add64 (DepsRefreshGeneration state) 1 |>.

Definition pendingBlockersResolvedStates (automations : list BlockersResolvedAutomation)
    (state : State) : list string :=
  match automations with
  | [] => []
  | _ =>
      if DependencyTransitionSeq state =? LastBlockersResolvedAuditSeq state then []
      else deduplicateStringsFold (flat_map (fun a => rule_States (bra_rule a)) automations)
  end.

(** With a tracker set. *)
Definition reconcileDependencyRefresh (env : Env) (w : World) : World :=
  let now := env_now env in
  let cfg := o_cfg (w_orch w) in
  let state := reclaimStuckDependencyRefresh cfg (w_state w) now in
  if DepsRefreshInFlight state then w <| w_state := state |>
  else
    let '(targets, state) := selectDependencyRefreshBatch state now (dependencyRefreshInterval cfg)
                               (dependencyRefreshBatchSize cfg) in
    let states := pendingBlockersResolvedStates (env_blockers_resolved env) state in
    match targets, states with
    | [], [] => w <| w_state := state |>
    | _, _ =>
        let state :=
          state <| DepsRefreshInFlight := true |> <| DepsRefreshStartedAt := now |>
                <| DepsRefreshBatchSize := Z.of_nat (length targets) |>
                <| DepsRefreshGeneration := add64 (DepsRefreshGeneration state) 1 |> in
        emit (LaunchRefresh (MkRefreshOrder targets states (dependencyRefreshTimeout cfg) now
                (DepsRefreshGeneration state) (DependencyTransitionSeq state)))
          (w <| w_state := state |>)
    end.

(** ** Folding a result back *)

Definition set_audit (f : gmap string DependencyAuditEntry -> gmap string DependencyAuditEntry)
    (state : State) : State := state <| DependencyAudit := f (DependencyAudit state) |>.

Definition disarm_key (audit : gmap string DependencyAuditEntry) (key : string) :
    gmap string DependencyAuditEntry := alter disarm key audit.

Definition count_failure (audit : gmap string DependencyAuditEntry) (key : string) :
    gmap string DependencyAuditEntry :=
  alter (fun e => e <| da_ConsecutiveFailures := add64 (da_ConsecutiveFailures e) 1 |>) key audit.

Definition drop_key (audit : gmap string DependencyAuditEntry) (key : string) :
    gmap string DependencyAuditEntry := base.delete key audit.

(** The row was audited before the batch started. *)
Definition older_than (started : Time) (e : DependencyAuditEntry) : bool :=
  time_before (da_LastAuditedAt e) started.

Definition refreshed_row (now : Time) (e : DependencyAuditEntry) : DependencyAuditEntry :=
  e <| da_ConsecutiveFailures := 0 |> <| da_InFlight := false |> <| da_LastRefreshAttemptAt := now |>.

(** One fetched issue: skipped when its row is gone or newer, under the key it
    was requested by or the key it has now; otherwise audited, and its row
    moved to its present key. *)
Definition apply_refreshed (env : Env) (started : Time) (w : World) (d : DependencyRefreshIssue) : World :=
  match DependencyAudit (w_state w) !! dri_RequestKey d with
  | None => w
  | Some e =>
      if negb (older_than started e) then w
      else
        let newKey := dependencyAuditKey (dri_Issue d) in
        let superseded := match DependencyAudit (w_state w) !! newKey with
                          | Some e' => negb (String.eqb newKey "") && negb (older_than started e')
                          | None => false
                          end in
        if superseded then w
        else
          let w := auditFetchedIssueDependenciesAndDispatch env (dri_Issue d) w in
          let w := when (negb (String.eqb newKey "") && negb (String.eqb newKey (dri_RequestKey d)))
                     (on_state (set_audit (base.delete (dri_RequestKey d)))) w in
          on_state (set_audit (alter (refreshed_row (env_now env)) newKey)) w
  end.

(** One issue of the states scan: a row that is absent is created. *)
Definition apply_scanned (env : Env) (started : Time) (w : World) (issue : Issue) : World :=
  match DependencyAudit (w_state w) !! dependencyAuditKey issue with
  | Some e => if negb (older_than started e) then w
              else auditFetchedIssueDependenciesAndDispatch env issue w
  | None => auditFetchedIssueDependenciesAndDispatch env issue w
  end.

(** [Milliseconds()] truncates towards zero. *)
Definition landed (result : DependencyRefreshResult) (state : State) : State :=
  let state := state <| DepsRefreshInFlight := false |> <| DepsRefreshBatchSize := 0 |>
                     <| DepsRefreshStartedAt := zero_time |> in
  let state :=
    if negb (time_is_zero (dr_FinishedAt result)) && negb (time_is_zero (dr_StartedAt result))
    then state <| DepsRefreshLastDurationMs :=
                    Z.quot (time_sub (dr_FinishedAt result) (dr_StartedAt result)) Millisecond |>
    else state in
  let audit := foldl disarm_key (DependencyAudit state) (dr_BatchKeys result) in
  let audit := foldl drop_key audit (dr_MissingKeys result) in
  state <| DependencyAudit := foldl count_failure audit (dr_FailedKeys result) |>.

Definition applyDependencyRefreshResult (env : Env) (result : DependencyRefreshResult) (w : World) : World :=
  if negb (dr_Generation result =? DepsRefreshGeneration (w_state w)) then w
  else
    let started := dr_StartedAt result in
    let w := on_state (landed result) w in
    let w := foldl (apply_refreshed env started) w (dr_Issues result) in
    if dr_BlockersResolvedRan result && dr_BlockersResolvedOK result then
      on_state (fun s => s <| LastBlockersResolvedAuditSeq := dr_SeqAtLaunch result |>)
        (foldl (apply_scanned env started) w (dr_BlockersResolvedIssues result))
    else w.
