(* ===== verification/RateLimited.v ===== *)
(** * RateLimited: switching an issue off a limited backend
    (internal/orchestrator/automation_rate_limited.go 247-725,
    backend_gate.go 288-332, backend_health.go 449-454)

    Switches are counted per issue in a rolling window; a cooldown mutes a rule
    for the profile it just left; the comment that the budget is spent is
    posted once per window. *)

From stdpp Require Import base gmap list strings.
From S2P Require Import Prelude Domain State Config Resolve BackendHealth BackendGate.
From S2P Require Import AutomationQueue Tracker Orchestrator Automation Triggers World.

Local Open Scope Z_scope.

(** ** The switch budget (429-521) *)

Definition rateLimitSwitchWindowDuration (cfg : Config) : Duration :=
  let windowH := agent_SwitchWindowHours (cfg_Agent cfg) in
  mul64 (if windowH <=? 0 then 6 else windowH) Hour.

Definition window_start (cfg : Config) (now : Time) : Time :=
  time_add now (- rateLimitSwitchWindowDuration cfg).

Definition stamps (state : State) (issueID : string) : list Time :=
  default [] (SwitchHistory state !! issueID).

Definition recent_stamps (cfg : Config) (now : Time) (l : list Time) : list Time :=
  filter (fun t => time_before t (window_start cfg now) = false) l.

Definition set_stamps (state : State) (issueID : string) (l : list Time) : State :=
  state <| SwitchHistory :=
    match l with
    | [] => base.delete issueID (SwitchHistory state)
    | _ => <[issueID := l]> (SwitchHistory state)
    end |>.

Definition allowRateLimitSwitch (cfg : Config) (state : State) (issueID : string) (now : Time) :
    bool * State :=
  let cap := agent_MaxSwitchesPerIssuePerWindow (cfg_Agent cfg) in
  if cap <=? 0 then (true, state)
  else
    let pruned := recent_stamps cfg now (stamps state issueID) in
    (Z.of_nat (length pruned) <? cap, set_stamps state issueID pruned).

Definition recordRateLimitSwitch (state : State) (issueID : string) (now : Time) : State :=
  state <| SwitchHistory := <[issueID := stamps state issueID ++ [now]]> (SwitchHistory state) |>.

(** The oldest stamp of the window; the zero time when there is none. *)
Definition oldest_stamp (cfg : Config) (now : Time) (l : list Time) : Time :=
  foldl (fun oldest t =>
           if time_before t (window_start cfg now) then oldest
           else if time_is_zero oldest || time_before t oldest then t else oldest) zero_time l.

Definition nextRateLimitCapCommentUntil (cfg : Config) (state : State) (issueID : string) (now : Time) :
    Time :=
  let window := rateLimitSwitchWindowDuration cfg in
  let oldest := oldest_stamp cfg now (stamps state issueID) in
  if time_is_zero oldest then time_add now window
  else
    let until := time_add oldest window in
    if negb (time_after until now) then time_add now window else until.

Definition claimRateLimitCapComment (cfg : Config) (state : State) (issueID : string) (now : Time) :
    bool * State :=
  if String.eqb issueID "" then (false, state)
  else
    let until := nextRateLimitCapCommentUntil cfg state issueID now in
    match RateLimitCapCommentUntil state !! issueID with
    | Some existing =>
        if time_before now existing then (false, state)
        else (true, state <| RateLimitCapCommentUntil :=
                      <[issueID := until]> (RateLimitCapCommentUntil state) |>)
    | None => (true, state <| RateLimitCapCommentUntil :=
                       <[issueID := until]> (RateLimitCapCommentUntil state) |>)
    end.

Definition setRateLimitCooldown (state : State) (key : string) (until : Time) : State :=
  state <| RateLimitCooldowns := <[key := until]> (RateLimitCooldowns state) |>.

Definition muted (state : State) (key : string) (now : Time) : bool :=
  match RateLimitCooldowns state !! key with
  | Some until => time_before now until
  | None => false
  end.

(** ** Comments (523-610) *)

Definition robot : string :=
  String.append (utf8_bytes [240; 159; 164; 150]%N) " ".

Definition fallbackProfileLabel (profile : string) : string :=
  if String.eqb profile "" then "(default)" else profile.

Definition formatBackendOverride (backend : string) : string :=
  if String.eqb backend "" then "" else " (backend override: `" +:+ backend +:+ "`)".

Definition rate_limited_switch_body (failedProfile failedBackend : string) (rule : RateLimitedAutomation)
    (promptTokensTotal completionTokensTotal : Z) (exhaustedBody : string) : string :=
  let body := robot +:+ "Itervox: rate-limit auto-switch" +:+ blank_line +:+
    "Profile **" +:+ fallbackProfileLabel failedProfile +:+ "** exhausted retries on backend `" +:+
    failedBackend +:+ "` (consumed " +:+ format_d promptTokensTotal +:+ " input + " +:+
    format_d completionTokensTotal +:+ " output tokens). Re-dispatching this issue under profile **" +:+
    rla_SwitchToProfile rule +:+ "**" +:+ formatBackendOverride (rla_SwitchToBackend rule) +:+ "." in
  if String.eqb exhaustedBody "" then body else body +:+ blank_line +:+ exhaustedBody.

Definition commentRateLimitedSwitch (issue : Issue) (failedProfile failedBackend : string)
    (rule : RateLimitedAutomation) (promptTokensTotal completionTokensTotal : Z)
    (exhaustedBody : string) : Effect :=
  PostComment (issue_ID issue) (issue_Identifier issue)
    (MarkManagedComment (rate_limited_switch_body failedProfile failedBackend rule promptTokensTotal
       completionTokensTotal exhaustedBody)).

Definition cap_exhausted_body (cfg : Config) (failedProfile : string) : string :=
  let hours := agent_SwitchWindowHours (cfg_Agent cfg) in
  robot +:+ "Itervox: rate-limit auto-switch budget exhausted" +:+ blank_line +:+
  "Profile **" +:+ fallbackProfileLabel failedProfile +:+
  "** hit a vendor rate-limit, but this issue has already burned through its **" +:+
  format_d (agent_MaxSwitchesPerIssuePerWindow (cfg_Agent cfg)) +:+ " switches in the last " +:+
  format_d (if hours <=? 0 then 6 else hours) +:+
  " hours** budget. No further auto-switches will fire until the rolling window opens. Triage manually or raise the cap in /settings.".

Definition commentRateLimitCapExhausted (cfg : Config) (issue : Issue) (failedProfile : string) : Effect :=
  PostComment (issue_ID issue) (issue_Identifier issue)
    (MarkManagedComment (cap_exhausted_body cfg failedProfile)).

(** ** The rules (260-428) *)

(** What the failed run leaves for the rules.  [ru_exhausted] is the text of
    the retries-exhausted comment while no switch comment has taken it. *)
Record RateLimitedRun := MkRateLimitedRun {
  ru_Profile : string;
  ru_Backend : string;
  ru_Error : string;
  ru_Attempt : Z;
  ru_PromptTokens : Z;
  ru_CompletionTokens : Z;
}.

Definition switches (rule : RateLimitedAutomation) : bool :=
  rla_AutoResume rule && negb (String.eqb (rla_SwitchToProfile rule) "").

Definition rate_limited_dispatch (issue : Issue) (now : Time) (run : RateLimitedRun)
    (rule : RateLimitedAutomation) : AutomationDispatch :=
  let r := rla_rule rule in
  MkAutomationDispatch (rule_ID r)
    (if switches rule then rla_SwitchToProfile rule else rule_ProfileName r) (rule_Instructions r)
    (fired AutomationTriggerRateLimited issue r now
       <| trig_ErrorMessage := ru_Error run |> <| trig_RetryAttempt := ru_Attempt run |>
       <| trig_FailedProfile := ru_Profile run |> <| trig_FailedBackend := ru_Backend run |>
       <| trig_PromptTokensTotal := ru_PromptTokens run |>
       <| trig_CompletionTokensTotal := ru_CompletionTokens run |>
       <| trig_SwitchedToProfile := rla_SwitchToProfile rule |>
       <| trig_SwitchedToBackend := rla_SwitchToBackend rule |>)
    (rla_AutoResume rule) "" (switches rule).

(** The sticky override and its provenance. *)
Definition record_auto_switch (cfg : Config) (issue : Issue) (now : Time) (run : RateLimitedRun)
    (rule : RateLimitedAutomation) (state : State) : State :=
  let i := issue_Identifier issue in
  let toProfile := rla_SwitchToProfile rule in
  let toBackend := if String.eqb (rla_SwitchToBackend rule) ""
                   then profileKeyBackend cfg toProfile (agent_Command (cfg_Agent cfg))
                   else rla_SwitchToBackend rule in
  state <| IssueProfiles := <[i := toProfile]> (IssueProfiles state) |>
        <| IssueBackends := (if String.eqb (rla_SwitchToBackend rule) "" then IssueBackends state
                             else <[i := rla_SwitchToBackend rule]> (IssueBackends state)) |>
        <| AutoSwitchedIdentifiers := {[i]} ∪ AutoSwitchedIdentifiers state |>
        <| AutoSwitchedAt := <[i := now]> (AutoSwitchedAt state) |>
        <| AutoSwitchInfo :=
             <[i := MkAutoSwitchRecord AutoSwitchSourceAutomation (ru_Backend run) (ru_Profile run)
                      toBackend toProfile (rate_limited_reason (rule_ID (rla_rule rule)))
                      (BackendHealthKey (ru_Backend run) "") now]> (AutoSwitchInfo state) |>.

(** The loop's accumulator: the accepted dispatches, the note still to post,
    and the world. *)
Definition Evaluation : Type := Z * option string * World.

Definition rate_limited_rule (env : Env) (issue : Issue) (run : RateLimitedRun) (acc : Evaluation)
    (rule : RateLimitedAutomation) : Evaluation :=
  let '(queued, note, w) := acc in
  let now := env_now env in
  let cfg := o_cfg (w_orch w) in
  if negb (matches_rule issue (rla_rule rule) None "") then acc
  else if switches rule && String.eqb (ru_Profile run) (rla_SwitchToProfile rule) then acc
  else
    let '(allowed, state) := allowRateLimitSwitch cfg (w_state w) (issue_ID issue) now in
    let w := w <| w_state := state |> in
    if negb allowed then
      let '(claimed, state) := claimRateLimitCapComment cfg state (issue_ID issue) now in
      (queued, note,
       when claimed (emit (commentRateLimitCapExhausted cfg issue (ru_Profile run)))
         (w <| w_state := state |>))
    else
      let cooldownKey := issue_ID issue +:+ "|" +:+ ru_Profile run in
      if muted state cooldownKey now then (queued, note, w)
      else
        let '(accepted, w) :=
          run_dispatchOrQueue issue (rate_limited_dispatch issue now run rule) now w in
        if negb accepted then (queued, note, w)
        else
          let w := on_state (fun s => recordRateLimitSwitch s (issue_ID issue) now) w in
          let w := when (0 <? rla_Cooldown rule)
                     (on_state (fun s => setRateLimitCooldown s cooldownKey
                                           (time_add now (rla_Cooldown rule)))) w in
          if switches rule then
            (queued + 1, None,
             emit (commentRateLimitedSwitch issue (ru_Profile run) (ru_Backend run) rule
                     (ru_PromptTokens run) (ru_CompletionTokens run) (default "" note))
               (on_state (record_auto_switch cfg issue now run rule) w))
          else (queued + 1, note, w).

Definition dispatchMatchingRateLimitedAutomationsNote (env : Env) (issue : Issue) (run : RateLimitedRun)
    (exhausted : option string) (w : World) : Evaluation :=
  foldl (rate_limited_rule env issue run) (0, exhausted, w) (env_rate_limited env).

Definition dispatchRateLimitedFallback (env : Env) (issue : Issue) (liveEntry : option RunEntry)
    (errMsg : string) (attempt : Z) (exhausted : option string) (w : World) : Evaluation :=
  let field {A} (f : RunEntry -> A) (d : A) := match liveEntry with Some r => f r | None => d end in
  let failedProfile := field run_ProfileName "" in
  let failedProfile :=
    if String.eqb failedProfile ""
    then issueProfileForDispatch (w_orch w) (w_state w) (issue_Identifier issue) else failedProfile in
  dispatchMatchingRateLimitedAutomationsNote env issue
    (MkRateLimitedRun failedProfile (field run_Backend "") errMsg attempt
       (field run_InputTokens 0) (field run_OutputTokens 0)) exhausted w.

(** ** Fallback switches (backend_gate.go 288-332) *)

Definition describeHold (h : BackendHold) : string :=
  if time_is_zero (hold_Until h) then hold_Key h
  else hold_Key h +:+ " until " +:+ FormatRFC3339 (hold_Until h).

Definition fallback_reason (state : State) (fromKey : string) : string :=
  let base := "backend_fallback: " +:+ fromKey +:+ " limited" in
  match BackendHealth state !! fromKey with
  | Some e =>
      if time_is_zero (bh_LimitedUntil e) then base
      else base +:+ " until " +:+ FormatRFC3339 (bh_LimitedUntil e) +:+
             (if bh_ResetKnown e then "" else " (cooldown; reset unknown)")
  | None => base
  end.

Definition fallback_body (g : gateResult) (reason : string) : string :=
  robot +:+ "Itervox: backend fallback" +:+ blank_line +:+
  "Backend `" +:+ gr_fromBackend g +:+ "` is limited (" +:+ reason +:+
  "). This issue now runs profile **" +:+ fallbackProfileLabel (gr_profileName g) +:+ "** on `" +:+
  dt_Backend (gr_target g) +:+ "`; it switches back per `agent.backend_fallback.switch_back`.".

Definition recordFallbackSwitch (issue : Issue) (g : gateResult) (now : Time) (w : World) : World :=
  let i := issue_Identifier issue in
  let state := w_state w in
  let reason := fallback_reason state (gr_fromKey g) in
  let state := state
    <| IssueProfiles := (if String.eqb (gr_profileName g) "" then base.delete i (IssueProfiles state)
                         else <[i := gr_profileName g]> (IssueProfiles state)) |>
    <| IssueBackends := <[i := dt_Backend (gr_target g)]> (IssueBackends state) |>
    <| AutoSwitchedIdentifiers := {[i]} ∪ AutoSwitchedIdentifiers state |>
    <| AutoSwitchedAt := <[i := now]> (AutoSwitchedAt state) |>
    <| AutoSwitchInfo :=
         <[i := MkAutoSwitchRecord AutoSwitchSourceBackendFallback (gr_fromBackend g) (gr_fromProfile g)
                  (dt_Backend (gr_target g)) (gr_profileName g) reason (gr_fromKey g) now]>
           (AutoSwitchInfo state) |> in
  emit (PostComment (issue_ID issue) i (MarkManagedComment (fallback_body g reason)))
    (w <| w_state := recordRateLimitSwitch state (issue_ID issue) now |>).

(** ** Upkeep (612-690) *)

Definition RevertExpiredAutoSwitches (state : State) (ttl : Duration) (now : Time) : Z * State :=
  if ttl <=? 0 then (0, state)
  else
    let threshold := time_add now (- ttl) in
    let expired := map fst (filter (fun kv => time_after kv.2 threshold = false)
                             (map_to_list (AutoSwitchedAt state))) in
    (Z.of_nat (length expired), foldl clearAutoSwitch state expired).

Definition revertExpiredAutoSwitchesForTick (cfg : Config) (state : State) (now : Time) : Z * State :=
  let revertHours := agent_SwitchRevertHours (cfg_Agent cfg) in
  if revertHours <=? 0 then (0, state)
  else RevertExpiredAutoSwitches state (mul64 revertHours Hour) now.

Definition newest_stamp (l : list Time) : Time := foldl (fun n t => if time_after t n then t else n) zero_time l.

Definition pruneRateLimitedMaps (cfg : Config) (state : State) (now : Time) : Z * State :=
  let staleAfter := time_add now (mul64 (-2) (rateLimitSwitchWindowDuration cfg)) in
  let history := filter (fun kv => kv.2 <> [] /\ time_before (newest_stamp kv.2) staleAfter = false)
                   (SwitchHistory state) in
  let cooldowns := filter (fun kv => time_after kv.2 now = true) (RateLimitCooldowns state) in
  let comments := filter (fun kv => time_after kv.2 now = true) (RateLimitCapCommentUntil state) in
  let size_of {V} (m : gmap string V) := Z.of_nat (size m) in
  (size_of (SwitchHistory state) - size_of history
   + (size_of (RateLimitCooldowns state) - size_of cooldowns)
   + (size_of (RateLimitCapCommentUntil state) - size_of comments),
   state <| SwitchHistory := history |> <| RateLimitCooldowns := cooldowns |>
         <| RateLimitCapCommentUntil := comments |>).
