(* ===== verification/Reviews.v ===== *)
(** * Reviews: verdicts, the quorum and the reviewer chain
    (internal/orchestrator/review_quorum.go, pending_review.go 135-160, 218-233,
    review_feedback.go 366-381)

    Reviewers run one after the other; each leaves a verdict, and the quorum
    closes after the last.  A verdict that cannot be read blocks. *)

From stdpp Require Import base gmap list strings.
From S2P Require Import Prelude Domain State Config Dispatch.

Local Open Scope Z_scope.

Definition ReviewVerdictApprove : string := "approve".
Definition ReviewVerdictBlock : string := "block".
Definition ReviewQuorumAnyBlock : string := "any_block".
Definition ReviewQuorumMajority : string := "majority".
Definition ReviewQuorumUnanimous : string := "unanimous".

(** ** Verdicts *)

Definition NormalizeReviewVerdict (raw : string) : string :=
  if equal_fold (trim_space raw) ReviewVerdictApprove then ReviewVerdictApprove
  else ReviewVerdictBlock.

Definition blocks (v : ReviewVerdict) : bool :=
  String.eqb (NormalizeReviewVerdict (rv_Verdict v)) ReviewVerdictBlock.

Definition EvaluateReviewQuorum (verdicts : list ReviewVerdict) (quorum : string) : ReviewOutcome :=
  let nBlocks := Z.of_nat (length (filter (fun v => blocks v = true) verdicts)) in
  let n := Z.of_nat (length verdicts) in
  let blocked :=
    if String.eqb quorum ReviewQuorumUnanimous then nBlocks =? n
    else if String.eqb quorum ReviewQuorumMajority then n <? nBlocks * 2
    else 0 <? nBlocks in
  MkReviewOutcome (match verdicts with [] => false | _ => blocked end) (n - nBlocks) nBlocks quorum.

Definition ReviewerProfileChain (cfg : Config) : list string :=
  let a := cfg_Agent cfg in
  let source :=
    match agent_ReviewerProfiles a with
    | [] => if String.eqb (agent_ReviewerProfile a) "" then [] else [agent_ReviewerProfile a]
    | l => l
    end in
  filter (fun p => p <> "") (map trim_space source).

(** A second verdict of one profile replaces its first. *)
Fixpoint UpsertReviewVerdict (existing : list ReviewVerdict) (v : ReviewVerdict) : list ReviewVerdict :=
  match existing with
  | [] => [v]
  | e :: rest =>
      if String.eqb (rv_Profile e) (rv_Profile v) then v :: rest
      else e :: UpsertReviewVerdict rest v
  end.

(** ** The chain *)

(** The verdict as recorded; [inr] is the error of reading it. *)
Definition recorded_verdict (finishedProfile : string) (verdict : ReviewVerdict + string) (now : Time) :
    ReviewVerdict :=
  let v := match verdict with
           | inl v => v
           | inr err => MkReviewVerdict finishedProfile ReviewVerdictBlock
                          ["no parseable verdict recorded: " +:+ err] [] zero_time
           end in
  v <| rv_Profile := finishedProfile |> <| rv_Verdict := NormalizeReviewVerdict (rv_Verdict v) |>
    <| rv_RecordedAt := now |>.

Definition verdicts_of (state : State) (identifier : string) : list ReviewVerdict :=
  default [] (ReviewVerdicts state !! identifier).

(** [inl next]: the next reviewer; [inr tt]: the quorum has closed. *)
Definition AdvanceReviewChain (state : State) (identifier finishedProfile : string)
    (verdict : ReviewVerdict + string) (chain : list string) (quorum : string) (now : Time) :
    (string + unit) * State :=
  let v := recorded_verdict finishedProfile verdict now in
  let verdicts := UpsertReviewVerdict (verdicts_of state identifier) v in
  let state := state <| ReviewVerdicts := <[identifier := verdicts]> (ReviewVerdicts state) |> in
  let next := default 0 (ReviewChainIndex state !! identifier) + 1 in
  if next <? Z.of_nat (length chain) then
    (inl (default "" (chain !! Z.to_nat next)),
     state <| ReviewChainIndex := <[identifier := next]> (ReviewChainIndex state) |>)
  else
    (inr tt,
     state <| ReviewOutcomes :=
                <[identifier := EvaluateReviewQuorum verdicts quorum]> (ReviewOutcomes state) |>
           <| ReviewChainIndex := base.delete identifier (ReviewChainIndex state) |>).

Definition ResetReviewChain (state : State) (identifier : string) : State :=
  state <| ReviewVerdicts := base.delete identifier (ReviewVerdicts state) |>
        <| ReviewOutcomes := base.delete identifier (ReviewOutcomes state) |>
        <| ReviewChainIndex := <[identifier := 0]> (ReviewChainIndex state) |>.

Definition reviewChainInFlight (state : State) (identifier : string) : bool :=
  bool_decide (is_Some (ReviewChainIndex state !! identifier)).

(** ** The comment of a closed quorum *)

Definition backquoted (s : string) : string := "`" +:+ s +:+ "`".
Definition nl : string := utf8_bytes [10]%N.

Definition formatReviewOutcomeComment (outcome : ReviewOutcome) (verdicts : list ReviewVerdict) :
    string :=
  let head := if ro_Blocked outcome
              then utf8_bytes [226; 157; 140]%N +:+ " changes requested"
              else utf8_bytes [226; 156; 133]%N +:+ " approved" in
  let tail := if ro_Blocked outcome
              then nl +:+ nl +:+ "The reasons and line comments are in the reviewer comments above. Move the issue back to an active state to have the implementer address them."
              else "" in
  join nl
    (("**Review result: " +:+ head +:+ "** (" +:+ format_d (ro_Approvals outcome) +:+ " approve / "
      +:+ format_d (ro_Blocks outcome) +:+ " block, quorum " +:+ backquoted (ro_Quorum outcome) +:+ ")")
     :: map (fun v => "- " +:+ backquoted (rv_Profile v) +:+ ": " +:+ rv_Verdict v) verdicts)
  +:+ tail.

(** ** Reviews kept over a drain (pending_review.go) *)

Definition recordPendingReview (state : State) (issue : Issue) (profile : string) (now : Time) : State :=
  if String.eqb (issue_ID issue) "" || String.eqb (issue_Identifier issue) "" || String.eqb profile ""
  then state
  else state <| PendingReviews :=
         <[issue_Identifier issue := MkPendingReview (issue_ID issue) (issue_Identifier issue) profile now
             (issue_State issue)]> (PendingReviews state) |>.

Definition clearPendingReview (state : State) (identifier : string) : State :=
  state <| PendingReviews := base.delete identifier (PendingReviews state) |>.

(** The reason not to replay a review, or "". *)
Definition pendingReviewObsolete (cfg : Config) (state : State) (pr : PendingReview) (current : string) :
    string :=
  let completion := tracker_CompletionState (cfg_Tracker cfg) in
  if negb (isTerminalState current state) then ""
  else if negb (String.eqb (pr_IssueState pr) "") then
    if equal_fold current (pr_IssueState pr) then ""
    else "issue moved to a terminal state after the review was queued"
  else if negb (String.eqb completion "") && equal_fold current completion then ""
  else "issue is in a terminal state".
