(* ===== verification/Replies.v ===== *)
(** * Replies: the agent's question and the human's answer
    (internal/orchestrator/event_loop.go 592-1030, tracker_reply_budget.go,
    input_question_fallback.go 184-207, input_question_stuck.go)

    A question is posted under a key; the first later comment that is neither
    Itervox's nor the question's author's is the answer. *)

From stdpp Require Import base gmap list strings.
From S2P Require Import Prelude Domain State Config Tracker Outbox Orchestrator Automation Triggers World.

Local Open Scope Z_scope.

Definition itervoxCommentPrefix : string :=
  utf8_bytes [240; 159; 164; 150]%N +:+ " **Agent needs your input**".
Definition newline_byte : string := utf8_bytes [10]%N.

(** ** The question (600-650) *)

Definition maxInputRequiredCommentBytes : nat := 8 * 1024.

Definition truncated_note : string :=
  "_" +:+ utf8_bytes [226; 128; 166]%N
  +:+ " earlier text truncated; the full text is in the Itervox dashboard._" +:+ blank_line.

Definition boundInputRequiredContext (text : string) : string :=
  if (String.length text <=? maxInputRequiredCommentBytes)%nat then text
  else
    let cut := (String.length text - (maxInputRequiredCommentBytes - String.length truncated_note))%nat in
    truncated_note +:+ drop_bytes (cut_forward text cut (String.length text - cut)) text.

Definition buildInputRequiredComment (entry : InputRequiredEntry) (inlineInput : bool) : string :=
  let footer := if inlineInput then "_Reply to this comment to continue._"
                else "_Reply in the tracker or via the Itervox dashboard to continue._" in
  itervoxCommentPrefix +:+ blank_line +:+ boundInputRequiredContext (ir_Context entry) +:+ blank_line
  +:+ "---" +:+ newline_byte +:+ footer.

(** ** Entries that change hands (709-753) *)

Definition buildPendingInputResumeEntry (e : InputRequiredEntry) (userMessage : string) (now : Time) :
    PendingInputResumeEntry :=
  MkPendingInputResumeEntry (ir_IssueID e) (ir_Identifier e) (ir_SessionID e) (ir_Context e) userMessage
    (ir_BranchName e) (ir_Backend e) (ir_Command e) (ir_WorkerHost e) (ir_ProfileName e)
    (ir_QuestionCommentKey e) (ir_QuestionCommentID e) (ir_QuestionAuthorID e)
    (ir_QuestionAuthorName e) now zero_time.

Definition inputRequiredEntryFromPending (e : PendingInputResumeEntry) : InputRequiredEntry :=
  MkInputRequiredEntry (pir_IssueID e) (pir_Identifier e) (pir_SessionID e) (pir_Context e)
    (pir_BranchName e) (pir_Backend e) (pir_Command e) (pir_WorkerHost e) (pir_ProfileName e)
    (pir_QuestionCommentKey e) (pir_QuestionCommentID e) (pir_QuestionAuthorID e)
    (pir_QuestionAuthorName e) (pir_QueuedAt e) zero_time false.

(** ** Finding the question and the reply (755-868) *)

Fixpoint find_index {A} (P : A -> bool) (l : list A) : option (nat * A) :=
  match l with
  | [] => None
  | x :: l => if P x then Some (O, x)
              else match find_index P l with Some (i, y) => Some (S i, y) | None => None end
  end.

Definition is_question (c : Comment) : bool := has_prefix (comment_Body c) itervoxCommentPrefix.

(** The search from the end. *)
Definition findLatestItervoxQuestionComment (comments : list Comment) : option (nat * Comment) :=
  match find_index is_question (rev comments) with
  | Some (i, c) => Some ((length comments - S i)%nat, c)
  | None => None
  end.

Definition carries_key (key : string) (c : Comment) : bool :=
  String.eqb (comment_ID c) key || CommentHasKey (comment_Body c) key.

(** [findTrackedQuestionComment] of an entry. *)
Definition findTrackedQuestionComment (comments : list Comment) (entry : InputRequiredEntry) :
    option (nat * Comment) :=
  if negb (String.eqb (ir_QuestionCommentKey entry) "")
  then find_index (carries_key (ir_QuestionCommentKey entry)) comments
  else
    let by_id := if negb (String.eqb (ir_QuestionCommentID entry) "")
                 then find_index (fun c => String.eqb (comment_ID c) (ir_QuestionCommentID entry)) comments
                 else None in
    match by_id with
    | Some r => Some r
    | None => findLatestItervoxQuestionComment comments
    end.

Definition sameCommentAuthor (a b : Comment) : bool :=
  if negb (String.eqb (comment_AuthorID a) "") && negb (String.eqb (comment_AuthorID b) "")
  then String.eqb (comment_AuthorID a) (comment_AuthorID b)
  else if negb (String.eqb (comment_AuthorName a) "") && negb (String.eqb (comment_AuthorName b) "")
  then equal_fold (comment_AuthorName a) (comment_AuthorName b)
  else false.

Definition is_reply (question c : Comment) : bool :=
  negb (is_question c) && negb (IsManagedComment c) && negb (sameCommentAuthor c question).

Definition findReplyAfterQuestion (comments : list Comment) (questionIdx : nat) (question : Comment) :
    option Comment :=
  List.find (is_reply question) (drop (S questionIdx) comments).

Definition created_after (since : Time) (c : Comment) : bool :=
  match comment_CreatedAt c with Some t => time_after t since | None => false end.

Definition findReplySince (comments : list Comment) (since : Time) (question : Comment) :
    option Comment :=
  if time_is_zero since then None
  else List.find (fun c => created_after since c && is_reply question c) comments.

Definition zero_Comment : Comment := MkComment "" "" None "" "".

(** The reply [checkTrackerReplies] acts on (987-1015). *)
Definition detect_reply (comments : list Comment) (entry : InputRequiredEntry) : option Comment :=
  let question := findTrackedQuestionComment comments entry in
  let positional := match question with
                    | Some (i, q) => findReplyAfterQuestion comments i q
                    | None => None
                    end in
  match positional with
  | Some c => Some c
  | None =>
      if negb (String.eqb (ir_QuestionCommentKey entry) "")
      then findReplySince comments (ir_QueuedAt entry)
             (match question with Some (_, q) => q | None => zero_Comment end)
      else None
  end.

(** ** A question found on the tracker after a restart (874-926) *)

(** [strings.LastIndex(s, sep)] and what is before it. *)
Fixpoint before_last (s sep : string) : option string :=
  match s with
  | EmptyString => if String.eqb sep "" then Some "" else None
  | String c s' =>
      match before_last s' sep with
      | Some b => Some (String c b)
      | None => if has_prefix s sep then Some "" else None
      end
  end.

Definition branchNameValue (branchName : option string) : string := default "" branchName.

Definition question_context (body : string) : string :=
  let ctx := trim_space (default body (cut_prefix body itervoxCommentPrefix)) in
  match before_last ctx (newline_byte +:+ "---" +:+ newline_byte) with
  | Some b => trim_space b
  | None => ctx
  end.

Definition recoverInputRequired (env : Env) (issue : Issue) : option InputRequiredEntry :=
  match env_detail env (issue_ID issue) with
  | Fetched detailed =>
      match findLatestItervoxQuestionComment (issue_Comments detailed) with
      | None => None
      | Some (i, q) =>
          match findReplyAfterQuestion (issue_Comments detailed) i q with
          | Some _ => None
          | None =>
              Some (zero_InputRequiredEntry
                <| ir_IssueID := issue_ID issue |> <| ir_Identifier := issue_Identifier issue |>
                <| ir_Context := question_context (comment_Body q) |>
                <| ir_BranchName := branchNameValue (issue_BranchName issue) |>
                <| ir_QuestionCommentID := comment_ID q |>
                <| ir_QuestionAuthorID := comment_AuthorID q |>
                <| ir_QuestionAuthorName := comment_AuthorName q |>
                <| ir_QueuedAt := env_now env |>)
          end
      end
  | _ => None
  end.

(** ** The per-tick budget (tracker_reply_budget.go) *)

Definition trackerReplyCheckPerTickBudget : Z := 5.

Definition selectLeastRecentlyChecked {T} (entries : gmap string T) (budget : Z)
    (lastChecked : T -> Time) : list string :=
  if budget <=? 0 then []
  else
    let key (kv : string * T) := UnixNano (lastChecked kv.2) in
    let less a b := (key a <? key b) || (key a =? key b) && string_less a.1 b.1 in
    take (Z.to_nat budget) (map fst (sort_stable less (map_to_list entries))).

Definition selectTrackerReplyCheckBatch (entries : gmap string InputRequiredEntry) (budget : Z) :
    list string :=
  selectLeastRecentlyChecked entries budget ir_LastReplyCheckAt.

Definition selectPendingResumeFetchBatch (entries : gmap string PendingInputResumeEntry) (budget : Z) :
    list string :=
  selectLeastRecentlyChecked entries budget pir_LastResumeAttemptAt.

(** ** Polling for replies (938-1029) *)

Definition set_input (state : State) (identifier : string) (e : InputRequiredEntry) : State :=
  state <| InputRequiredIssues := <[identifier := e]> (InputRequiredIssues state) |>.

Definition warnIfQuestionStuck (env : Env) (e : InputRequiredEntry) : InputRequiredEntry :=
  if ir_QuestionStuckWarned e || String.eqb (ir_QuestionCommentKey e) "" then e
  else
    match env_outbox env with
    | None => e
    | Some queued =>
        match List.find (fun q => String.eqb (e_CommentKey q) (ir_QuestionCommentKey e)) queued with
        | Some q => if Degraded q then e <| ir_QuestionStuckWarned := true |> else e
        | None => e
        end
    end.

(** The answer found for one entry, if it says anything. *)
Definition answer_of (comments : list Comment) (e : InputRequiredEntry) : option string :=
  match detect_reply comments e with
  | Some c => if String.eqb (trim_space (comment_Body c)) "" then None else Some (comment_Body c)
  | None => None
  end.

Definition queue_resume (now : Time) (identifier : string) (e : InputRequiredEntry) (answer : string)
    (state : State) : State :=
  state <| InputRequiredIssues := base.delete identifier (InputRequiredIssues state) |>
        <| PendingInputResumes :=
             <[identifier := buildPendingInputResumeEntry e answer now]> (PendingInputResumes state) |>.

Definition check_reply (env : Env) (prefetched : gmap string Issue) (w : World) (identifier : string) :
    World :=
  match InputRequiredIssues (w_state w) !! identifier with
  | None => w
  | Some e =>
      let e := warnIfQuestionStuck env (e <| ir_LastReplyCheckAt := env_now env |>) in
      let w := on_state (fun s => set_input s identifier e) w in
      let detailed := match prefetched !! ir_IssueID e with
                      | Some i => Fetched i
                      | None => env_detail env (ir_IssueID e)
                      end in
      match detailed with
      | Fetched issue =>
          let w := auditFetchedIssueDependenciesAndDispatch env issue w in
          match answer_of (issue_Comments issue) e with
          | Some answer => on_state (queue_resume (env_now env) identifier e answer) w
          | None => w
          end
      | _ => w
      end
  end.

Definition checkTrackerReplies (env : Env) (w : World) : World :=
  let inputs := InputRequiredIssues (w_state w) in
  if decide (size inputs = 0%nat) then w
  else
    let selected := selectTrackerReplyCheckBatch inputs trackerReplyCheckPerTickBudget in
    let ids := omap (fun i => ir_IssueID <$> inputs !! i) selected in
    foldl (check_reply env (env_prefetch env ids)) w selected.

(** ** The outcome of a direct post (input_question_fallback.go 184-207) *)

Definition handleInputQuestionFallback (state : State) (identifier : string)
    (res : option InputRequiredEntry) (failed : bool) : State :=
  match res, InputRequiredIssues state !! identifier with
  | Some res, Some entry =>
      if String.eqb (ir_QuestionCommentKey entry) ""
         || negb (String.eqb (ir_QuestionCommentKey entry) (ir_QuestionCommentKey res))
      then state
      else if failed then state
      else set_input state identifier
             (entry <| ir_QuestionCommentKey := "" |>
                    <| ir_QuestionCommentID := ir_QuestionCommentID res |>
                    <| ir_QuestionAuthorID := ir_QuestionAuthorID res |>
                    <| ir_QuestionAuthorName := ir_QuestionAuthorName res |>)
  | _, _ => state
  end.

(** ** Posting (655-707)

    [true] when the outbox refused the comment. *)
Definition postInputRequiredComment (env : Env) (issueID identifier key body : string) (w : World) :
    bool * World :=
  if env_enqueue_ok env then (false, emit (PostKeyed issueID identifier key body) w) else (true, w).

Definition newInputRequiredCommentKey (env : Env) : string := default "" (env_comment_key env).
