(* ===== verification/Workers.v ===== *)
(** * Workers: starting agents
    (internal/orchestrator/event_loop.go 1031-1508, review_quorum.go 228-293,
    pending_review.go 162-216, event_loop.go 2862-2880)

    Four paths start a worker besides automations: a dispatch of an issue, a
    resume with the user's answer, a reviewer, and a review kept over a drain.
    Each asks the backend gate, claims the issue and registers the worker. *)

From stdpp Require Import base gmap list strings.
From S2P Require Import Prelude Domain State Config Retry Dispatch Resolve BackendHealth BackendGate.
From S2P Require Import AutomationQueue Tracker Orchestrator Automation Triggers World.
From S2P Require Import RateLimited Reviews Replies.

Local Open Scope Z_scope.

(** ** The switch cap as the gate asks it

    The gate calls [rerouteAllowed] when the first mapped target of the chain is
    reached; the call drops the expired stamps of the issue. *)
Definition gate_asks (cfg : Config) (state : State) (req : gateRequest) (now : Time) : bool :=
  let t := resolveDispatchTarget (gq_in req) in
  match admitBackend req now (dt_Backend t) state no_hold with
  | (Some _, _, _) => false
  | (None, _, _) =>
      gq_allowReroute req && fb_Enabled (fallback cfg)
      && existsb (fun b => negb (String.eqb b (dt_Backend t))
                           && bool_decide (is_Some (fallbackTarget cfg req b))) (fb_Chain (fallback cfg))
  end.

(** ** Registering a run *)

(** The claim, the entry of [Running], the cancel function and the goroutine.
    [entry] and [launch] are given the worker's number. *)
Definition start_worker (issue : Issue) (entry : nat -> RunEntry) (launch : nat -> State -> Launch)
    (w : World) : World :=
  let '(worker, o) := registerWorker (w_orch w) (issue_Identifier issue) in
  let state := w_state w
    <| Claimed := {[issue_ID issue]} ∪ Claimed (w_state w) |>
    <| Running := <[issue_ID issue := entry worker]> (Running (w_state w)) |> in
  emit (Spawn (launch worker state)) (w <| w_orch := o |> <| w_state := state |>).

(** ** Dispatch (1182-1350) *)

Definition resumeBackendMatches (stored resolved : string) : bool :=
  (String.eqb stored "claude" || String.eqb stored "codex") && String.eqb stored resolved.

(** A profile that is missing or disabled is dropped. *)
Definition usable_profile (cfg : Config) (profileName : string) : string * option AgentProfile :=
  if String.eqb profileName "" then ("", None)
  else
    match agent_Profiles (cfg_Agent cfg) !! profileName with
    | Some p => if ProfileEnabled p then (profileName, Some p) else ("", None)
    | None => ("", None)
    end.

Definition isReviewerInjected (o : Orchestrator) (identifier : string) : bool :=
  bool_decide (identifier ∈ o_reviewerInjectedProfiles o).

Definition allows_reroute (o : Orchestrator) (identifier : string) : bool :=
  String.eqb (operatorPinnedBackend o identifier) "".

(** The session a manual pause left, if the runner can continue it. *)
Definition paused_resume (state : State) (identifier runnerCommand : string) : option ResumeContext :=
  match PausedSessions state !! identifier with
  | Some s => if resumeBackendMatches (psi_Backend s) (BackendFromCommand runnerCommand)
              then Some (MkResumeContext (psi_SessionID s) "" "") else None
  | None => None
  end.

(** The gate's answer for an issue, with the state it leaves (1226-1275). *)
Definition dispatch_gate (o : Orchestrator) (state : State) (issue : Issue) (profileName : string)
    (profile : option AgentProfile) (workerHost : string) (now : Time) : gateResult * State :=
  let cfg := o_cfg o in
  let agent := cfg_Agent cfg in
  let i := issue_Identifier issue in
  let capped := negb (isReviewerInjected o i) in
  let '(allowed, pruned) := allowRateLimitSwitch cfg state (issue_ID issue) now in
  let req := MkGateRequest i
    (MkTargetInput (agent_Command agent) (agent_Backend agent) profile
       (issueBackendForDispatch o state i) "")
    profileName workerHost (agent_SSHHosts agent) (allows_reroute o i)
    (if capped then Some allowed else None) in
  let state := if capped && gate_asks cfg state req now then pruned else state in
  gateDispatch cfg state req now.

(** What a reroute records (1277-1286). *)
Definition note_reroute (issue : Issue) (gate : gateResult) (now : Time) (w : World) : World :=
  if isReviewerInjected (w_orch w) (issue_Identifier issue)
  then on_orch (fun o => o <| o_issueProfiles :=
                 <[issue_Identifier issue := gr_profileName gate]> (o_issueProfiles o) |>) w
  else recordFallbackSwitch issue gate now w.

Definition dispatch_run (issue : Issue) (attempt : Z) (gate : gateResult) (profileName : string)
    (now : Time) (worker : nat) : RunEntry :=
  zero_RunEntry <| run_Issue := issue |> <| run_WorkerHost := gr_host gate |>
    <| run_Backend := dt_Backend (gr_target gate) |> <| run_ProfileName := profileName |>
    <| run_StartedAt := now |> <| run_RetryAttempt := Some attempt |>
    <| run_WorkerCancel := Some worker |>.

Definition dispatch (env : Env) (issue : Issue) (attempt : Z) (w : World) : World :=
  let now := env_now env in
  let i := issue_Identifier issue in
  let w := on_state (syncDrainRequest (w_orch w)) w in
  if Draining (w_state w) then w
  else
    let skipPRCheck := bool_decide (i ∈ ForceReanalyze (w_state w)) in
    let w := on_state (fun s => s <| ForceReanalyze := ForceReanalyze s ∖ {[i]} |>) w in
    let agent := cfg_Agent (o_cfg (w_orch w)) in
    let '(workerHost, o) :=
      selectWorkerHost (w_orch w) (agent_SSHHosts agent) (agent_DispatchStrategy agent) (w_state w) in
    let w := w <| w_orch := o |> in
    let '(profileName, profile) := usable_profile (o_cfg o) (issueProfileForDispatch o (w_state w) i) in
    let '(gate, state) := dispatch_gate o (w_state w) issue profileName profile workerHost now in
    let w := w <| w_state := state |> in
    if gr_held gate then w
    else
      let profileName := if gr_rerouted gate then gr_profileName gate else profileName in
      let w := when (gr_rerouted gate) (note_reroute issue gate now) w in
      if o_DryRun o
      then on_state (fun s => s <| Claimed := {[issue_ID issue]} ∪ Claimed s |>) w
      else
        let target := gr_target gate in
        let resume := paused_resume (w_state w) i (dt_RunnerCommand target) in
        let w := on_state (fun s => s <| PausedSessions := base.delete i (PausedSessions s) |>) w in
        start_worker issue (dispatch_run issue attempt gate profileName now)
          (fun worker s =>
             MkLaunch worker issue attempt (gr_host gate) (dt_RunnerCommand target) (dt_Backend target)
               profileName skipPRCheck resume None
               (backendSwitchNotice s i (dt_Backend target) profileName None)) w.

(** ** Reviewers (1388-1508) *)

Definition inject_reviewer (identifier profileName : string) (o : Orchestrator) : Orchestrator :=
  o <| o_issueProfiles := <[identifier := profileName]> (o_issueProfiles o) |>
    <| o_reviewerInjectedProfiles := {[identifier]} ∪ o_reviewerInjectedProfiles o |>.

Definition reviewer_run (issue : Issue) (gate : gateResult) (profileName : string) (now : Time)
    (worker : nat) : RunEntry :=
  dispatch_run issue 0 gate profileName now worker <| run_Kind := "reviewer" |>.

Definition held_error (hold : BackendHold) : string := "backend limited: " +:+ describeHold hold.

Definition dispatchReviewerForIssue (env : Env) (issue : Issue) (profileName : string) (w : World) : World :=
  let now := env_now env in
  let i := issue_Identifier issue in
  let w := on_state (syncDrainRequest (w_orch w)) w in
  if Draining (w_state w) then on_state (fun s => recordPendingReview s issue profileName now) w
  else
    let cfg := o_cfg (w_orch w) in
    let agent := cfg_Agent cfg in
    match agent_Profiles agent !! profileName with
    | None => w
    | Some profile =>
        if negb (ProfileEnabled profile) then w
        else
          let issueBackend := issueBackendForDispatch (w_orch w) (w_state w) i in
          let '(workerHost, o) :=
            selectWorkerHost (w_orch w) (agent_SSHHosts agent) (agent_DispatchStrategy agent) (w_state w) in
          let w := w <| w_orch := o |> in
          let '(gate, state) := gateDispatch cfg (w_state w)
            (MkGateRequest i
               (MkTargetInput (agent_Command agent) (agent_Backend agent) (Some profile) issueBackend "")
               profileName workerHost (agent_SSHHosts agent) (allows_reroute o i) None) now in
          let w := w <| w_state := state |> in
          if gr_held gate then
            on_state (fun s => ScheduleRetry s (issue_ID issue) 0 i (held_error (gr_hold gate)) now
                                 (holdRetryDelay s (gr_hold gate) now))
              (on_orch (inject_reviewer i profileName) w)
          else
            let profileName := if gr_rerouted gate then gr_profileName gate else profileName in
            if o_DryRun o then w
            else
              let target := gr_target gate in
              on_orch (inject_reviewer i profileName)
                (on_state (fun s => clearPendingReview s i)
                   (start_worker issue (reviewer_run issue gate profileName now)
                      (fun worker _ =>
                         MkLaunch worker issue 0 (gr_host gate) (dt_RunnerCommand target)
                           (dt_Backend target) profileName false None None None) w))
    end.

(** ** The chain after a reviewer (review_quorum.go 228-293) *)

Definition advanceReviewChainForIssue (env : Env) (issue : Issue) (finishedProfile : string) (w : World) :
    World :=
  let i := issue_Identifier issue in
  let cfg := o_cfg (w_orch w) in
  let chain := ReviewerProfileChain cfg in
  if (length chain <=? 1)%nat then w
  else if negb (reviewChainInFlight (w_state w) i) then w
  else
    let '(next, state) := AdvanceReviewChain (w_state w) i finishedProfile
      (env_verdict env i finishedProfile) chain (agent_ReviewQuorum (cfg_Agent cfg)) (env_now env) in
    let w := w <| w_state := state |> in
    match next with
    | inl next => dispatchReviewerForIssue env issue next w
    | inr _ =>
        let outcome := default (MkReviewOutcome false 0 0 "") (ReviewOutcomes state !! i) in
        emit (PostComment (issue_ID issue) i
                (MarkManagedComment (formatReviewOutcomeComment outcome (verdicts_of state i)))) w
    end.

(** ** Reviews kept over a drain (pending_review.go 162-216) *)

Definition pending_order (m : gmap string PendingReview) (ids : list string) : list string :=
  let at_ i := match m !! i with Some pr => pr_QueuedAt pr | None => zero_time end in
  sort_stable (fun a b => at_ a <? at_ b) ids.

Definition resume_review (env : Env) (id : string) (w : World) : World :=
  match PendingReviews (w_state w) !! id with
  | None => w
  | Some pr =>
      let cleared := on_state (fun s => clearPendingReview s id) in
      if bool_decide (is_Some (Running (w_state w) !! pr_IssueID pr)) then w
      else if bool_decide (pr_IssueID pr ∈ Claimed (w_state w)) then w
      else
        match env_detail env (pr_IssueID pr) with
        | FetchMissing _ | FetchNil => cleared w
        | FetchFailed _ => w
        | Fetched issue =>
            let cfg := o_cfg (w_orch w) in
            if negb (String.eqb (pendingReviewObsolete cfg (w_state w) pr (issue_State issue)) "")
            then cleared w
            else
              let chain := ReviewerProfileChain cfg in
              let restart := (1 <? length chain)%nat && bool_decide (pr_Profile pr ∈ chain) in
              let w := when restart (on_state (fun s => ResetReviewChain s id)) w in
              let profile := if restart then default "" (head chain) else pr_Profile pr in
              let w := dispatchReviewerForIssue env issue profile w in
              if negb (bool_decide (is_Some (Running (w_state w) !! pr_IssueID pr)))
                 && negb (Draining (w_state w))
              then cleared w else w
        end
  end.

(** The keys come in the map's order; a stable sort keeps it among equal times. *)
Fixpoint resume_reviews (env : Env) (ids : list string) (w : World) : World :=
  match ids with
  | [] => w
  | id :: rest => if AvailableSlots (w_state w) <=? 0 then w
                  else resume_reviews env rest (resume_review env id w)
  end.

Definition resumePendingReviews (env : Env) (w : World) : World :=
  let reviews := PendingReviews (w_state w) in
  if decide (size reviews = 0%nat) then w
  else
    resume_reviews env (pending_order reviews (map fst (map_to_list reviews)))
      (on_state (syncDrainRequest (w_orch w)) w).

(** ** Answers (1031-1180, 2862-2880) *)

Definition resumeRunnerCommand (cfg : Config) (entry : InputRequiredEntry) : string :=
  let profileCommand :=
    match agent_Profiles (cfg_Agent cfg) !! ir_ProfileName entry with
    | Some p => if String.eqb (ir_ProfileName entry) "" then "" else profile_Command p
    | None => ""
    end in
  dt_RunnerCommand (resolveResumeTarget (ir_Command entry) (ir_Backend entry) profileCommand
                      (agent_Command (cfg_Agent cfg))).

(** The entry has no cancel function, as in the code. *)
Definition resume_run (issue : Issue) (e : PendingInputResumeEntry) (now : Time) (_ : nat) : RunEntry :=
  zero_RunEntry <| run_Issue := issue |> <| run_AgentSessionID := pir_SessionID e |>
    <| run_WorkerHost := pir_WorkerHost e |> <| run_Backend := pir_Backend e |>
    <| run_ProfileName := pir_ProfileName e |> <| run_PendingInputResume := true |>
    <| run_BranchName := branchNameValue (issue_BranchName issue) |> <| run_StartedAt := now |>.

Definition resume_issue (detailed : Issue) (e : PendingInputResumeEntry) : Issue :=
  match issue_BranchName detailed with
  | None => if String.eqb (pir_BranchName e) "" then detailed
            else detailed <| issue_BranchName := Some (pir_BranchName e) |>
  | Some _ => detailed
  end.

Definition drop_resume (identifier : string) (state : State) : State :=
  state <| PendingInputResumes := base.delete identifier (PendingInputResumes state) |>.

(** The start of a resume whose issue was fetched (1128-1178).  The claim and the
    entry are those of the queued issue id, the cancel function that of the
    queued identifier. *)
Definition resume_start (env : Env) (identifier : string) (e : PendingInputResumeEntry) (detailed : Issue)
    (w : World) : World :=
  let now := env_now env in
  if isTerminalState (issue_State detailed) (w_state w) then on_state (drop_resume identifier) w
  else if negb (isActiveState (issue_State detailed) (w_state w)) then on_state (drop_resume identifier) w
  else
    let issue := resume_issue detailed e in
    let '(ok, state) :=
      admitBackendKey (w_state w) (BackendHealthKey (pir_Backend e) (pir_WorkerHost e)) identifier now in
    let w := w <| w_state := state |> in
    if negb ok then w
    else
      let state := clearBackendHold state identifier in
      let '(worker, o) := registerWorker (w_orch w) identifier in
      let state := state <| Claimed := {[pir_IssueID e]} ∪ Claimed state |>
                         <| Running := <[pir_IssueID e := resume_run issue e now worker]> (Running state) |> in
      emit (Spawn (MkLaunch worker issue 0 (pir_WorkerHost e)
              (resumeRunnerCommand (o_cfg o) (inputRequiredEntryFromPending e)) (pir_Backend e)
              (pir_ProfileName e) false
              (Some (MkResumeContext (pir_SessionID e) (pir_UserMessage e) (pir_Context e))) None None))
        (w <| w_orch := o |> <| w_state := state |>).

Definition resume_one (env : Env) (allowed : list string) (prefetched : gmap string Issue)
    (identifier : string) (w : World) : World :=
  let now := env_now env in
  let state := w_state w in
  match PendingInputResumes state !! identifier with
  | None => w
  | Some e =>
      if bool_decide (is_Some (Running state !! pir_IssueID e)) then w
      else if bool_decide (pir_IssueID e ∈ Claimed state) then w
      else if bool_decide (is_Some (PausedIdentifiers state !! identifier))
      then on_state (drop_resume identifier) w
      else if bool_decide (is_Some (DiscardingIdentifiers state !! identifier))
      then on_state (drop_resume identifier) w
      else if negb (bool_decide (identifier ∈ allowed)) then w
      else
        let key := BackendHealthKey (pir_Backend e) (pir_WorkerHost e) in
        let '(blocked, until) := backendKeyBlocked state key identifier now in
        if blocked then on_state (fun s => setBackendHold s identifier (MkBackendHold key until)) w
        else
          let e := e <| pir_LastResumeAttemptAt := now |> in
          let w := on_state (fun s => s <| PendingInputResumes :=
                                <[identifier := e]> (PendingInputResumes s) |>) w in
          let detailed := match prefetched !! pir_IssueID e with
                          | Some i => Fetched i
                          | None => env_detail env (pir_IssueID e)
                          end in
          match detailed with
          | Fetched issue =>
              resume_start env identifier e issue (auditFetchedIssueDependenciesAndDispatch env issue w)
          | _ => w
          end
  end.

Fixpoint resume_loop (env : Env) (allowed : list string) (prefetched : gmap string Issue)
    (identifiers : list string) (w : World) : World :=
  match identifiers with
  | [] => w
  | i :: rest =>
      let w := on_state (syncDrainRequest (w_orch w)) w in
      if AvailableSlots (w_state w) <=? 0 then w
      else resume_loop env allowed prefetched rest (resume_one env allowed prefetched i w)
  end.

Definition processPendingInputResumes (env : Env) (w : World) : World :=
  let resumes := PendingInputResumes (w_state w) in
  if bool_decide (size resumes = 0%nat) || (AvailableSlots (w_state w) <=? 0) then w
  else
    let allowed := selectPendingResumeFetchBatch resumes trackerReplyCheckPerTickBudget in
    let ids := omap (fun i => pir_IssueID <$> resumes !! i) allowed in
    resume_loop env allowed (env_prefetch env ids)
      (sort_strings (map fst (map_to_list resumes))) w.
