(* ===== verification/Exits.v ===== *)
(** * Exits: what the loop does when a worker ends
    (internal/orchestrator/event_loop.go 1836-2215 and 2217-2548, 2734-2757,
    2831-2851)

    An exit names an issue and, unless the reconciler sent it for a run it has
    already dropped, the run as the worker saw it.  The renaming of handoff
    files is left out. *)

From stdpp Require Import base gmap list strings.
From S2P Require Import Prelude Domain State Config Retry Dispatch Resolve BackendHealth BackendGate.
From S2P Require Import AutomationQueue StatusHistory Tracker Orchestrator LimitText Failures.
From S2P Require Import Automation Triggers World RateLimited Reviews Replies Workers.

Local Open Scope Z_scope.

Record Exit := MkExit {
  ex_IssueID : string;
  ex_RunEntry : option RunEntry;
  ex_Error : option ExitError;
  ex_Limit : option LimitSignal;
  ex_InputRequired : option InputRequiredEntry;
}.

Definition PauseReasonUserCancelled : string := "user_cancelled".
Definition PauseReasonUserDismissedInput : string := "user_dismissed_input".
Definition PauseReasonRetriesExhausted : string := "retries_exhausted".
Definition PauseReasonTransitionFailed : string := "transition_failed".

(** ** Parts of several exits *)

Definition release (id : string) (state : State) : State :=
  state <| Claimed := Claimed state ∖ {[id]} |>.

Definition pause (identifier id reason : string) (state : State) : State :=
  setPauseReason (state <| PausedIdentifiers := <[identifier := id]> (PausedIdentifiers state) |>)
    identifier reason.

(** A resumed run that never reported progress drops its queued answer. *)
Definition answer_used (live : option RunEntry) (identifier : string) (state : State) : State :=
  match live with
  | Some r => if run_PendingInputResume r then drop_resume identifier state else state
  | None => state
  end.

Definition forget_injected (identifier : string) (o : Orchestrator) : Orchestrator :=
  if isReviewerInjected o identifier
  then o <| o_issueProfiles := base.delete identifier (o_issueProfiles o) |>
         <| o_reviewerInjectedProfiles := o_reviewerInjectedProfiles o ∖ {[identifier]} |>
  else o.

Definition live_kind (live : option RunEntry) : string :=
  match live with Some r => run_Kind r | None => "" end.

Definition exitedRunIsReviewer (o : Orchestrator) (live : option RunEntry) (identifier : string) : bool :=
  String.eqb (live_kind live) "reviewer" || isReviewerInjected o identifier.

Definition abandonReviewerRun (live : option RunEntry) (identifier : string) (w : World) : World :=
  if negb (exitedRunIsReviewer (w_orch w) live identifier) then w
  else on_state (fun s => s <| ReviewChainIndex := base.delete identifier (ReviewChainIndex s) |>)
         (on_orch (forget_injected identifier) w).

Definition runEligibleForAutoReview (live : option RunEntry) : bool :=
  match live with
  | None => false
  | Some r => String.eqb (run_Kind r) "" || String.eqb (run_Kind r) "worker"
  end.

(** The branch the worktree was on, else the one derived from the issue. *)
Definition scheduleWorkspaceClear (env : Env) (entry : RunEntry) (w : World) : World :=
  let issue := run_Issue entry in
  let branch := if String.eqb (run_BranchName entry) ""
                then ResolveWorktreeBranch (issue_BranchName issue) (issue_Identifier issue)
                else run_BranchName entry in
  when (env_workspace env) (emit (ClearWorkspace (issue_Identifier issue) branch)) w.

(** ** A user's kill (1883-1945) *)

Definition paused_session (cfg : Config) (state : State) (issue : Issue) (r : RunEntry) :
    PausedSessionInfo :=
  let profileName := if String.eqb (run_ProfileName r) ""
                     then default "" (IssueProfiles state !! issue_Identifier issue)
                     else run_ProfileName r in
  let command :=
    match agent_Profiles (cfg_Agent cfg) !! profileName with
    | Some p => if String.eqb profileName "" || String.eqb (profile_Command p) ""
                then agent_Command (cfg_Agent cfg) else profile_Command p
    | None => agent_Command (cfg_Agent cfg)
    end in
  MkPausedSessionInfo (issue_ID issue) (run_AgentSessionID r) (run_WorkerHost r) (run_Backend r)
    command profileName.

Definition keep_session (cfg : Config) (issue : Issue) (live : option RunEntry) (state : State) : State :=
  match live with
  | Some r =>
      if String.eqb (run_AgentSessionID r) "" then state
      else state <| PausedSessions :=
             <[issue_Identifier issue := paused_session cfg state issue r]> (PausedSessions state) |>
  | None => state
  end.

Definition exit_cancelled (env : Env) (id : string) (issue : Issue) (live : option RunEntry) (w : World) :
    World :=
  let i := issue_Identifier issue in
  let '(transitionFailed, marks) := take (o_transitionFailed (w_orch w)) i in
  let reason := if transitionFailed then PauseReasonTransitionFailed else PauseReasonUserCancelled in
  let w := on_orch (fun o => o <| o_transitionFailed := marks |>) w in
  let w := on_state (fun s => release id (keep_session (o_cfg (w_orch w)) issue live
                                (pause i (issue_ID issue) reason s))) w in
  recordHistory live issue (env_now env) "cancelled" w.

Definition exit_terminated (env : Env) (id : string) (issue : Issue) (live : option RunEntry) (w : World) :
    World :=
  let i := issue_Identifier issue in
  let w := on_state (fun s => release id (answer_used live i s)) w in
  let w := recordHistory live issue (env_now env) "cancelled" w in
  asyncDiscardAndTransition env id i (abandonReviewerRun live i w).

(** ** Success (1972-2090) *)

(** Kind and profile of the finished run; a reviewer's mark stands in for a
    missing entry or an empty field. *)
Definition finished_as (o : Orchestrator) (live : option RunEntry) (identifier : string) :
    string * string :=
  let kind := live_kind live in
  let profile := match live with Some r => run_ProfileName r | None => "" end in
  if isReviewerInjected o identifier then
    (if String.eqb kind "" then "reviewer" else kind,
     if String.eqb profile "" then default "" (o_issueProfiles o !! identifier) else profile)
  else (kind, profile).

Definition clear_switch_on_success (cfg : Config) (identifier : string) (now : Time) (state : State) :
    State :=
  if bool_decide (identifier ∈ AutoSwitchedIdentifiers state)
     && clearAutoSwitchOnSuccess cfg state identifier now
  then clearAutoSwitch state identifier else state.

Definition start_auto_review (env : Env) (issue : Issue) (w : World) : World :=
  let cfg := o_cfg (w_orch w) in
  match ReviewerProfileChain cfg with
  | first :: _ :: _ =>
      dispatchReviewerForIssue env issue first
        (on_state (fun s => ResetReviewChain s (issue_Identifier issue)) w)
  | _ => dispatchReviewerForIssue env issue (agent_ReviewerProfile (cfg_Agent cfg)) w
  end.

Definition reviewer_will_run (cfg : Config) (live : option RunEntry) : bool :=
  agent_AutoReview (cfg_Agent cfg) && negb (String.eqb (agent_ReviewerProfile (cfg_Agent cfg)) "")
  && runEligibleForAutoReview live.

Definition exit_succeeded (env : Env) (id : string) (entry : RunEntry) (live : option RunEntry) (w : World) :
    World :=
  let issue := run_Issue entry in
  let i := issue_Identifier issue in
  let now := env_now env in
  let cfg := o_cfg (w_orch w) in
  let w := on_state (fun s => release id (answer_used live i s)) w in
  let '(kind, profile) := finished_as (w_orch w) live i in
  let w := when (String.eqb kind "reviewer")
             (fun w => advanceReviewChainForIssue env issue profile (on_orch (forget_injected i) w)) w in
  let w := on_orch (fun o => o <| o_issueBackends := base.delete i (o_issueBackends o) |>) w in
  let w := on_state (clear_switch_on_success cfg i now) w in
  let w := recordHistory live issue now "succeeded" w in
  let reviewed := reviewer_will_run cfg live in
  let w := when (cfg_AutoClearWorkspace cfg && negb reviewed
                 && negb (reviewChainInFlight (w_state w) i)) (scheduleWorkspaceClear env entry) w in
  when reviewed (start_auto_review env issue) w.

(** ** Input required, and a stack that is not ready (2112-2175) *)

(** The entry's counts as the exit reports them. *)
Definition last_counts (entry : RunEntry) (r : RunEntry) : RunEntry :=
  let r := if 0 <? run_TurnCount entry then r <| run_TurnCount := run_TurnCount entry |> else r in
  let r := if 0 <? run_TotalTokens entry
           then r <| run_TotalTokens := run_TotalTokens entry |>
                  <| run_InputTokens := run_InputTokens entry |>
                  <| run_OutputTokens := run_OutputTokens entry |> else r in
  if String.eqb (run_SessionID entry) "" then r else r <| run_SessionID := run_SessionID entry |>.

Definition ask_human (env : Env) (id : string) (entry : RunEntry) (live : option RunEntry)
    (question : InputRequiredEntry) (w : World) : World :=
  let issue := run_Issue entry in
  let i := issue_Identifier issue in
  let key := newInputRequiredCommentKey env in
  let question := question <| ir_QuestionCommentKey := key |> in
  let body := MarkManagedComment
    (buildInputRequiredComment question (agent_InlineInput (cfg_Agent (o_cfg (w_orch w))))) in
  let '(refused, w) := postInputRequiredComment env (ir_IssueID question) i key body w in
  let w := when refused (emit (PostQuestionDirectly (ir_IssueID question) i key body)) w in
  let w := on_state (fun s => set_input s i question) w in
  let w := input_required_automations env issue (Some question) live w in
  recordHistory live issue (env_now env) "input_required" w.

Definition exit_input_required (env : Env) (id : string) (entry : RunEntry) (live : option RunEntry)
    (question : option InputRequiredEntry) (w : World) : World :=
  let w := on_state (fun s => answer_used live (issue_Identifier (run_Issue entry)) (release id s)) w in
  match question with
  | None => w
  | Some q => ask_human env id entry (last_counts entry <$> live) q w
  end.

Definition exit_stack_unavailable (id : string) (issue : Issue) (state : State) : State :=
  let state := release id state in
  let key := reviewStackKey issue state in
  if String.eqb key "" then state
  else state <| StackUnavailable := <[issue_Identifier issue := key]> (StackUnavailable state) |>.

(** ** Failure (2217-2460) *)

Section redaction.
Context (redact : string -> string).

Definition newlines : string := nl +:+ nl.

Definition maxRetriesExhaustedBody (attempts : Z) (lastErr : string) : string :=
  "Itervox: maximum retries exhausted (" +:+ format_d attempts +:+ " attempts). Last error:" +:+ newlines
  +:+ redact lastErr +:+ newlines
  +:+ "Retries have stopped for this run. Itervox may move the issue to failed state, pause it, or let a matching automation recover it.".

Definition commentMaxRetriesExhausted (issue : Issue) (body : string) (w : World) : World :=
  emit (PostComment (issue_ID issue) (issue_Identifier issue) (MarkManagedComment body)) w.

Definition retryPending (id : string) (state : State) : bool :=
  bool_decide (is_Some (RetryAttempts state !! id)).

(** The worker's context was cancelled (2233-2263). *)
Definition exit_context_cancelled (env : Env) (id : string) (issue : Issue) (live : option RunEntry)
    (w : World) : World :=
  let w := if retryPending id (w_state w) then w
           else abandonReviewerRun live (issue_Identifier issue) (on_state (release id) w) in
  when (o_stoppingAfterCancel (w_orch w)) (recordHistory live issue (env_now env) "cancelled") w.

(** Parking an issue whose retries are spent (2380-2440). *)
Definition park_exhausted (env : Env) (id : string) (entry : RunEntry) (recovering : bool) (w : World) :
    World :=
  let issue := run_Issue entry in
  let i := issue_Identifier issue in
  let cfg := o_cfg (w_orch w) in
  let failedState := tracker_FailedState (cfg_Tracker cfg) in
  if recovering then w
  else if negb (String.eqb failedState "") then
    when (cfg_AutoClearWorkspace cfg) (scheduleWorkspaceClear env entry)
      (asyncDiscardAndTransitionTo env id i failedState (issue_State issue) w)
  else on_state (pause i (issue_ID issue) PauseReasonRetriesExhausted) w.

Definition count_transport (cfg : Config) (errMsg : string) (state : State) : State :=
  if IsTransportFailure errMsg (agent_TransportErrorPatterns (cfg_Agent cfg))
  then state <| TransportFailureCount := addu64 (TransportFailureCount state) 1 |> else state.

Definition exit_exhausted (env : Env) (ex : Exit) (entry : RunEntry) (live : option RunEntry)
    (errMsg : string) (attempt nextAttempt : Z) (limitSwitchTried : bool) (w : World) : World :=
  let issue := run_Issue entry in
  let i := issue_Identifier issue in
  let id := ex_IssueID ex in
  let cfg := o_cfg (w_orch w) in
  let body := maxRetriesExhaustedBody attempt errMsg in
  let w := on_state (fun s => count_transport cfg errMsg (release id s)) w in
  let rateLimited := (isRateLimitFailureCfg cfg errMsg || Terminal (ex_Limit ex)) && negb limitSwitchTried
                     && negb (exitedRunIsReviewer (w_orch w) live i) in
  let '(queued, note, w) :=
    if rateLimited then dispatchRateLimitedFallback env issue live errMsg nextAttempt (Some body) w
    else (0, Some body, w) in
  let w := match note with Some body => commentMaxRetriesExhausted issue body w | None => w end in
  let w := run_failed_automations env issue errMsg nextAttempt w in
  let w := park_exhausted env id entry (0 <? queued) w in
  recordHistory live issue (env_now env) "failed" (abandonReviewerRun live i w).

Definition retry_delay (cfg : Config) (nextAttempt : Z) (limit : option LimitSignal) (now : Time) : Z :=
  Z.max (BackoffMs nextAttempt (agent_MaxRetryBackoffMs (cfg_Agent cfg))) (vendorRetryDelayMs limit now).

Definition exit_retry (env : Env) (ex : Exit) (entry : RunEntry) (live : option RunEntry)
    (errMsg : string) (nextAttempt : Z) (w : World) : World :=
  let issue := run_Issue entry in
  let now := env_now env in
  let delay := retry_delay (o_cfg (w_orch w)) nextAttempt (ex_Limit ex) now in
  recordHistory live issue now "failed"
    (on_state (fun s => ScheduleRetry s (ex_IssueID ex) nextAttempt (issue_Identifier issue) errMsg now delay) w).

Definition exit_failed (env : Env) (ex : Exit) (entry : RunEntry) (live : option RunEntry)
    (errMsg : string) (attempt : Z) (limitSwitchTried : bool) (w : World) : World :=
  let nextAttempt := add64 attempt 1 in
  let maxRetries := agent_MaxRetries (cfg_Agent (o_cfg (w_orch w))) in
  if (0 <? maxRetries) && (maxRetries <? nextAttempt)
  then exit_exhausted env ex entry live errMsg attempt nextAttempt limitSwitchTried w
  else exit_retry env ex entry live errMsg nextAttempt w.

(** A quota limit, on its first failure (2283-2342). *)
Definition exit_rate_limited (env : Env) (ex : Exit) (entry : RunEntry) (live : option RunEntry)
    (errMsg : string) (attempt : Z) (w : World) : World :=
  let issue := run_Issue entry in
  let i := issue_Identifier issue in
  let id := ex_IssueID ex in
  let now := env_now env in
  let cfg := o_cfg (w_orch w) in
  let limited r := on_state (fun s => snd (recordBackendLimit cfg s (run_Backend r) (run_WorkerHost r) i
                                             (ex_Limit ex) now)) in
  let w := match live with Some r => limited r w | None => w end in
  let covered := match live with
                 | Some r => backendFallbackCovers cfg (o_issueBackends (w_orch w)) i
                               (run_ProfileName r) (run_Backend r)
                 | None => false
                 end in
  if covered then
    recordHistory live issue now "failed" (dispatch env issue attempt (on_state (release id) w))
  else if exitedRunIsReviewer (w_orch w) live i
  then exit_failed env ex entry live errMsg attempt true w
  else
    let '(queued, _, w) :=
      dispatchRateLimitedFallback env issue live errMsg (add64 attempt 1) None (on_state (release id) w) in
    if 0 <? queued then recordHistory live issue now "failed" w
    else exit_failed env ex entry live errMsg attempt true w.

Definition exit_attempt (entry : RunEntry) : Z := default 0 (run_RetryAttempt entry).

Definition handleFailedExit (env : Env) (ex : Exit) (entry : RunEntry) (live : option RunEntry) (w : World) :
    World :=
  let attempt := exit_attempt entry in
  if match ex_Error ex with Some e => ee_Canceled e | None => false end
  then exit_context_cancelled env (ex_IssueID ex) (run_Issue entry) live w
  else
    let cfg := o_cfg (w_orch w) in
    let w := on_state (fun s => recordWorkerFailure redact cfg s entry (ex_Error ex) attempt (env_now env)) w in
    let errMsg := match ex_Error ex with Some e => ee_Message e | None => "" end in
    match run_TerminalReason entry with
    | TerminalRateLimited => exit_rate_limited env ex entry live errMsg attempt w
    | _ => exit_failed env ex entry live errMsg attempt false w
    end.

(** A stall: the reconciler has done the rest (2092-2110). *)
Definition exit_stalled (env : Env) (ex : Exit) (entry : RunEntry) (live : option RunEntry) (w : World) : World :=
  let issue := run_Issue entry in
  let now := env_now env in
  let w := recordHistory (Some entry) issue now "stalled" w in
  let cfg := o_cfg (w_orch w) in
  let w := on_state (fun s => recordWorkerFailure redact cfg s entry (ex_Error ex) (exit_attempt entry) now) w in
  if retryPending (ex_IssueID ex) (w_state w) then w
  else abandonReviewerRun live (issue_Identifier issue) w.

(** ** The exit event (1836-2215) *)

Definition exit_outcome (env : Env) (ex : Exit) (entry : RunEntry) (live : option RunEntry) (w : World) :
    World :=
  let issue := run_Issue entry in
  let id := ex_IssueID ex in
  match run_TerminalReason entry with
  | TerminalCanceledByReconciliation => on_state (release id) w
  | TerminalSucceeded => exit_succeeded env id entry live w
  | TerminalStalled => exit_stalled env ex entry live w
  | TerminalInputRequired => exit_input_required env id entry live (ex_InputRequired ex) w
  | TerminalStackUnavailable => on_state (exit_stack_unavailable id issue) w
  | _ => handleFailedExit env ex entry live w
  end.

Definition handleExit (env : Env) (ex : Exit) (w : World) : World :=
  let id := ex_IssueID ex in
  let w := on_orch (fun o => o <| o_exitsSent := base.delete id (o_exitsSent o) |>) w in
  let live := Running (w_state w) !! id in
  let w := on_state (fun s => s <| Running := base.delete id (Running s) |>) w in
  match ex_RunEntry ex with
  | None => w
  | Some entry =>
      let issue := run_Issue entry in
      let i := issue_Identifier issue in
      let w := on_orch (fun o => cancelAndCleanupWorker o i) w in
      let w := on_state (fun s => snd (settleBackendProbe s live i (run_TerminalReason entry))) w in
      let o := w_orch w in
      let cancelled := bool_decide (i ∈ o_userCancelledIDs o) in
      let terminated := bool_decide (i ∈ o_userTerminatedIDs o) in
      let w := on_orch (fun o => o <| o_userCancelledIDs := o_userCancelledIDs o ∖ {[i]} |>
                                   <| o_userTerminatedIDs := o_userTerminatedIDs o ∖ {[i]} |>) w in
      if cancelled then exit_cancelled env id issue live w
      else if terminated then exit_terminated env id issue live w
      else exit_outcome env ex entry live w
  end.

End redaction.
