(* ===== verification/Worker.v ===== *)
(** * Worker: one run of an agent on an issue
    (internal/orchestrator/worker.go, event_loop.go 1524-1547, logging.go
    120-184, handoff.go 187-222, backend_health_ops.go 56-74, stacked_base.go
    123-125)

    [runWorker] is a program in a small monad over the sink the worker writes
    through: it records what the worker does ([WorkerEffect]) and stops where
    the code returns.  What hooks, git, gh, the tracker and the agent answer is
    a [WorkerEnv].  The text of a prompt is not modelled, only whether it is the
    rendered one or the human's reply.  Progress updates and log lines are left
    out. *)

From stdpp Require Import base gmap list strings.
From Stdlib Require Import Ascii.
From S2P Require Import Prelude Domain State Config Dispatch Resolve BackendHealth AutomationQueue Tracker Outbox.
From S2P Require Import Orchestrator LimitText Failures Automation RefreshWorker World Reviews Workers Exits.
From S2P Require Import AgentTurn InputDetector Evidence WriteSink Grants RunnerCommand.

Local Open Scope Z_scope.

(** ** Answers *)

Record PRContext := MkPRContext { prx_Branch : string; prx_URL : string }.

Record WorkspaceInfo := MkWorkspaceInfo {
  wi_Path : string;
  wi_CreatedNow : bool;
  wi_StackedOn : string;
}.

(** One turn: what the tracker knows of the issue (asked in the first turn
    only), rendering the prompt and its size, the agent's result and the
    runner's error, the after_run hook, the branch the agent left, and the
    tracker's answer on the issue's state ([None] is an error). *)
Record TurnEnv := MkTurnEnv {
  te_detail : FetchOutcome;
  te_render : option ExitError;
  te_prompt_size : option ExitError;
  te_result : TurnResult;
  te_runErr : option ExitError;
  te_after_run : option ExitError;
  te_branch : string;
  te_set_branch_ok : bool;
  te_cancelled : bool;
  te_now : Time;
  te_states : ExitError + list Issue;
}.

(** Where the finishing worker looks whether its context is done. *)
Inductive WorkerPoint := AtHandoff | AtPush | AtEvidence | AtCompletion.

Record WorkerEnv := MkWorkerEnv {
  we_pr : option PRContext;
  we_workspace : option (ExitError + WorkspaceInfo);  (* [None]: no workspaces *)
  we_review_key : string;                             (* reviewStackKeyNow *)
  we_branch_has_commits : bool;
  we_after_create : option ExitError;
  we_before_run : option ExitError;
  we_working_ok : bool;
  we_checkout_ok : bool;
  we_token : option string;                           (* [None]: no token could be issued *)
  we_run_id : string;
  we_path : string;                                   (* with the shim first *)
  we_turn : Z -> TurnEnv;
  we_open_pr : string;                                (* FindOpenPRURL *)
  we_reviewer_changes : list string;
  we_verdict_comment : list string -> string;         (* formatReviewVerdictComment *)
  we_handoff_size : option Z;                         (* [None]: no such file, or a directory *)
  we_handoff_write : option ExitError;
  we_cancelled : WorkerPoint -> bool;
  we_evidence : EvidenceEnv;
  we_now : Time;
}.

(** The settings a run reads besides the modelled configuration, those of the
    profile looked up by its name. *)
Record WorkerSettings := MkWorkerSettings {
  ws_MaxTurns : Z;
  ws_AfterRunRequired : bool;
  ws_WorkingState : string;
  ws_PRFooter : bool;
  ws_Worktree : bool;
  ws_AllowedActions : string -> list string;
  ws_CreateIssueState : string -> string;
  ws_RequireEvidence : string -> list string;
  ws_DaemonURL : string;                              (* agentActionBaseURL *)
}.

(** ** What a worker does *)

Inductive Prompt :=
  | Rendered (reviewer : bool) (reply : option (string * string))  (* agent request, reply *)
  | Reply (message : string).

Inductive WorkerEffect :=
  | SetWorkingState (issueID target : string) (ok : bool)
  | Hook (name : string)
  | RemoveWorkspace (identifier branch : string)
  | CheckoutBranch (branch : string)
  | IssueToken (token : string) (actions : list string)
  | RevokeToken (token : string)
  | ReviewerBaseline                                 (* reviewerBaseline *)
  | ClearVerdict                                     (* os.Remove of the verdict *)
  | ClearBaseline
  | RecordStatus (identifier from to profile : string)  (* RecordIssueStatusChange *)
  | AgentTurn (turn : Z) (session : option string) (prompt : Prompt) (command : string)
  | TrackBranch (issueID branch : string)
  | Comment (issueID body : string) (ok : bool)
  | RetargetPR (url base : string)
  | AddFooter (url : string)
  | FlagVerdict (changes : list string)
  | SynthesizeHandoff
  | CommitHandoff
  | Push (branch : string)
  | CommentPR (url body : string)
  | MoveIssue (issueID target fromState : string) (ok : bool)
  | PauseMark (identifier : string)                  (* transitionFailed, userCancelledIDs *)
  | MarkExiting (issueID : string)                   (* exitsSent *)
  | DeliverExit (ex : Exit)
  | PROpened (url branch : string).

Section Worker.
Context {S : Type} `{!WriteSink S}.
Context (redact : string -> string).

(** The sink, what was done, and what is deferred to the end. *)
Record Run := MkRun {
  r_sink : S;
  r_done : list WorkerEffect;
  r_deferred : list WorkerEffect;
}.

(** A part of the run; [None]: it has returned. *)
Definition M (A : Type) : Type := Run -> option A * Run.

Definition ret {A} (a : A) : M A := fun r => (Some a, r).
Definition bind {A B} (m : M A) (k : A -> M B) : M B := fun r =>
  match m r with
  | (Some a, r) => k a r
  | (None, r) => (None, r)
  end.
Definition stop {A} : M A := fun r => (None, r).
Definition tell (e : WorkerEffect) : M () := fun r => (Some (), MkRun (r_sink r) (r_done r ++ [e]) (r_deferred r)).
Definition defer (e : WorkerEffect) : M () := fun r => (Some (), MkRun (r_sink r) (r_done r) (e :: r_deferred r)).
Definition run_deferred : M () := fun r => (Some (), MkRun (r_sink r) (r_done r ++ r_deferred r) []).
Definition unless (b : bool) (m : M ()) : M () := if b then ret () else m.

Notation "x <- m ;; k" := (bind m (fun x => k)) (at level 100, m at next level, right associativity).
Notation "m ;; k" := (bind m (fun _ => k)) (at level 100, right associativity).

Definition comment (issueID identifier body : string) : M bool := fun r =>
  let '(err, s) := sink_comment issueID identifier body (r_sink r) in
  let ok := bool_decide (err = None) in
  (Some ok, MkRun s (r_done r ++ [Comment issueID body ok]) (r_deferred r)).

Definition move_issue (issueID identifier target fromState : string) : M bool := fun r =>
  let '(err, s) := sink_update issueID identifier target fromState (r_sink r) in
  let ok := bool_decide (err = None) in
  (Some ok, MkRun s (r_done r ++ [MoveIssue issueID target fromState ok]) (r_deferred r)).

(** ** The run's parameters

    [cfg] and [ws] are what the run reads of the configuration, [injected]
    whether the issue carries the mark of a reviewer dispatch. *)
Context (cfg : Config) (ws : WorkerSettings) (injected : bool) (env : WorkerEnv) (ln : Launch).

Definition w_profile : string := ln_ProfileName ln.
Definition w_identifier : string := issue_Identifier (ln_Issue ln).

Definition automationRun : bool :=
  match ln_Automation ln with Some d => negb (ad_UseIssueLifecycle d) | None => false end.
Definition hasResumeSession : bool :=
  match ln_Resume ln with Some r => negb (String.eqb (rx_SessionID r) "") | None => false end.
Definition hasResumeMessage : bool :=
  match ln_Resume ln with Some r => negb (String.eqb (rx_UserMessage r) "") | None => false end.
Definition inputRequiredResume : bool := hasResumeSession && hasResumeMessage.

Definition isReviewerProfile (name : string) : bool :=
  if String.eqb name "" then false
  else String.eqb name (agent_ReviewerProfile (cfg_Agent cfg)) || bool_decide (name ∈ ReviewerProfileChain cfg).

Definition readOnlyReviewer : bool :=
  isReviewerProfile w_profile || (negb (String.eqb w_profile "") && injected).

Definition isReviewerRun : bool :=
  negb (String.eqb w_profile "") &&
  (String.eqb w_profile (agent_ReviewerProfile (cfg_Agent cfg))
   || bool_decide (w_profile ∈ agent_ReviewerProfiles (cfg_Agent cfg))).

(** ** Exits *)

Definition exit_entry (issue : Issue) (branch prURL : string) (reason : TerminalReason) : RunEntry :=
  zero_RunEntry <| run_Issue := issue |> <| run_BranchName := branch |> <| run_PRURL := prURL |>
    <| run_TerminalReason := reason |> <| run_RetryAttempt := Some (ln_Attempt ln) |>.

Definition sendExitWithBranch (issue : Issue) (reason : TerminalReason) (err : option ExitError)
    (branch prURL : string) : M () :=
  tell (MarkExiting (issue_ID issue)) ;;
  tell (DeliverExit (MkExit (issue_ID issue) (Some (exit_entry issue branch prURL reason)) err None None)).

Definition sendExit {A} (issue : Issue) (reason : TerminalReason) (err : option ExitError) : M A :=
  sendExitWithBranch issue reason err "" "" ;; stop.

Definition sendExitWithLimit {A} (issue : Issue) (reason : TerminalReason) (err : ExitError)
    (limit : option LimitSignal) : M A :=
  tell (MarkExiting (issue_ID issue)) ;;
  tell (DeliverExit (MkExit (issue_ID issue) (Some (exit_entry issue "" "" reason)) (Some err) limit None)) ;; stop.

(** A panic runs what was deferred, then the recovery sends the exit. *)
Definition panic {A} (issue : Issue) (msg : string) : M A :=
  run_deferred ;; sendExit issue TerminalFailed (Some (MkExitError ("worker panic: " +:+ msg) false true)).

Definition limitForHost (sig : option LimitSignal) (host : string) : option LimitSignal :=
  match sig with
  | None => None
  | Some s =>
      if String.eqb host "" || negb (ls_ResetZoneAssumed s) || time_is_zero (ls_ResetsAt s) then sig
      else Some (MkLimitSignal (ls_Kind s) (ls_Source s) (ls_LimitType s) zero_time (ls_RetryAfter s) (ls_Status s)
                   (ls_HTTPStatus s) (ls_ErrorCategory s) (ls_Message s) false)
  end.

Definition turnFailureCause (turn : Z) (failureText : string) (runErr : option ExitError) : ExitError :=
  let prefix := "turn " +:+ format_d turn +:+ ": " in
  match runErr with
  | None =>
      if String.eqb failureText "" then MkExitError (prefix +:+ "agent reported failure") false false
      else MkExitError (prefix +:+ failureText) false false
  | Some e =>
      if String.eqb failureText "" then e
      else if contains failureText (ee_Message e) then MkExitError (prefix +:+ failureText) (ee_Canceled e) (ee_Panic e)
      else MkExitError (prefix +:+ failureText +:+ ": " +:+ ee_Message e) (ee_Canceled e) (ee_Panic e)
  end.

(** ** Questions *)

Definition explicitInputRequiredDefault : string := "Agent requires human input to continue".

(** The first that is not blank: the result, the last message, the vendor's
    error without the agent's stderr. *)
Definition explicitInputRequiredContext (r : TurnResult) : string :=
  let text := trim_space (tr_ResultText r) in
  let text := if String.eqb text "" then trim_space (tr_LastText r) else text in
  let text := if String.eqb text "" && negb (String.eqb (tr_FailureText r) "")
              then trim_space (fst (SplitFailureText (tr_FailureText r))) else text in
  if String.eqb text "" then explicitInputRequiredDefault else text.

Definition last_blocks (n : nat) (l : list string) : list string := drop (length l - n) l.

Definition buildSuccessfulTurnInputCheckText (r : TurnResult) : string :=
  let blocks := trim_space (String.concat nl (last_blocks 3 (tr_AllTextBlocks r))) in
  let resultText := trim_space (tr_ResultText r) in
  if String.eqb blocks "" then resultText
  else if String.eqb resultText "" then blocks
  else blocks +:+ nl +:+ resultText.

Definition trimInputRequiredContext (text : string) : string :=
  let text := trim_space text in
  if (String.length text <=? 4000)%nat then text else drop_bytes (String.length text - 4000) text.

(** The state of the turns. *)
Record Turns := MkTurns {
  ts_issue : Issue;
  ts_session : option string;
  ts_branch : string;
  ts_texts : list string;
  ts_input : Z;
  ts_cached : Z;
  ts_output : Z;
  ts_prev : string;
  ts_after_run : option ExitError;
}.

Definition input_exit_entry (turn : Z) (st : Turns) (r : TurnResult) : RunEntry :=
  let input := add64 (ts_input st) (tr_InputTokens r) in
  let output := add64 (ts_output st) (tr_OutputTokens r) in
  let total := add64 (add64 (add64 input (ts_cached st)) (tr_CachedInputTokens r)) output in
  zero_RunEntry <| run_Issue := ts_issue st |> <| run_WorkerHost := ln_WorkerHost ln |>
    <| run_Backend := ln_Backend ln |> <| run_TerminalReason := TerminalInputRequired |>
    <| run_InputTokens := input |> <| run_OutputTokens := output |> <| run_TotalTokens := total |>
    <| run_TurnCount := turn |> <| run_RetryAttempt := Some (ln_Attempt ln) |>.

Definition queueInputRequiredEntry {A} (turn : Z) (st : Turns) (command context : string) (now : Time) (r : TurnResult) : M A :=
  let issue := ts_issue st in
  tell (DeliverExit (MkExit (issue_ID issue) (Some (input_exit_entry turn st r)) None None
    (Some (MkInputRequiredEntry (issue_ID issue) (issue_Identifier issue) (default "" (ts_session st)) (redact context)
       (ts_branch st) (ln_Backend ln) command (ln_WorkerHost ln) w_profile "" "" "" "" now zero_time false)))) ;;
  stop.

(** Whether a successful turn is a question, and which. *)
Definition successful_question (r : TurnResult) : option string :=
  let checkText := buildSuccessfulTurnInputCheckText r in
  if String.eqb checkText "" then None
  else if IsSentinelInputRequired checkText then Some (trimInputRequiredContext checkText)
  else
    let decision := DetectInputRequiredFallback checkText in
    if dec_NeedsInput decision then
      let q := trim_space (dec_Question decision) in
      Some (trimInputRequiredContext (if String.eqb q "" then checkText else q))
    else None.

(** ** A turn *)

Inductive TurnEnd := Concluded (st : Turns) | Again (st : Turns).

Definition prompt_of : Prompt :=
  match ln_Resume ln with
  | Some rx =>
      if hasResumeMessage then
        if inputRequiredResume then Reply (rx_UserMessage rx)
        else Rendered readOnlyReviewer (Some (rx_InputContext rx, rx_UserMessage rx))
      else Rendered readOnlyReviewer None
  | None => Rendered readOnlyReviewer None
  end.

(** The tracker's current view of the issue replaces the cached one. *)
Definition detail_issue (turn : Z) (te : TurnEnv) (issue : Issue) : M Issue :=
  if turn =? 1 then
    match te_detail te with
    | Fetched detailed => ret detailed
    | FetchMissing _ | FetchFailed _ => ret issue
    | FetchNil => panic issue "runtime error: invalid memory address or nil pointer dereference"
    end
  else ret issue.

Definition run_after_hook (wsPath : string) (te : TurnEnv) : M (option ExitError) :=
  if String.eqb wsPath "" then ret None else tell (Hook "after_run") ;; ret (te_after_run te).

(** The branch the agent switched to is written to the tracker. *)
Definition track_branch (wsPath : string) (te : TurnEnv) (st : Turns) : M Turns :=
  let b := te_branch te in
  if String.eqb wsPath "" || IsDefaultBranch b || bool_decide (issue_BranchName (ts_issue st) = Some b) then ret st
  else
    tell (TrackBranch (issue_ID (ts_issue st)) b) ;;
    ret (if te_set_branch_ok te
         then MkTurns (ts_issue st <| issue_BranchName := Some b |>) (ts_session st) b (ts_texts st) (ts_input st)
                (ts_cached st) (ts_output st) (ts_prev st) (ts_after_run st)
         else st).

Definition with_session (r : TurnResult) (after : option ExitError) (st : Turns) : Turns :=
  MkTurns (ts_issue st) (if String.eqb (tr_SessionID r) "" then ts_session st else Some (tr_SessionID r)) (ts_branch st)
    (ts_texts st ++ tr_AllTextBlocks r) (ts_input st) (ts_cached st) (ts_output st) (ts_prev st) after.

Definition with_issue (issue : Issue) (st : Turns) : Turns :=
  MkTurns issue (ts_session st) (ts_branch st) (ts_texts st) (ts_input st) (ts_cached st) (ts_output st) (ts_prev st)
    (ts_after_run st).

Definition with_tokens (r : TurnResult) (st : Turns) : Turns :=
  MkTurns (ts_issue st) (ts_session st) (ts_branch st) (ts_texts st) (add64 (ts_input st) (tr_InputTokens r))
    (add64 (ts_cached st) (tr_CachedInputTokens r)) (add64 (ts_output st) (tr_OutputTokens r)) (tr_ResultText r)
    (ts_after_run st).

Definition no_tokens (r : TurnResult) : bool := (tr_InputTokens r =? 0) && (tr_OutputTokens r =? 0).

Definition failed_turn (te : TurnEnv) : bool :=
  tr_Failed (te_result te) || bool_decide (is_Some (te_runErr te)).

Definition cancelled_run (te : TurnEnv) : bool :=
  match te_runErr te with Some e => ee_Canceled e | None => false end.

(** The tracker's answer decides whether there is another turn. *)
Definition refresh_issue (te : TurnEnv) (st : Turns) : M TurnEnd :=
  match te_states te with
  | inl err => sendExit (ts_issue st) TerminalFailed (Some err)
  | inr refreshed =>
      let issue := match refreshed with
                   | i :: _ => match issue_BranchName i with
                               | Some _ => i
                               | None => i <| issue_BranchName := issue_BranchName (ts_issue st) |>
                               end
                   | [] => ts_issue st
                   end in
      let st := with_issue issue st in
      ret (if existsb (fun s => equal_fold s (issue_State issue)) (tracker_ActiveStates (cfg_Tracker cfg))
           then Again st else Concluded st)
  end.

(** What follows from the agent's result, in the order the code asks. *)
Definition judge_turn (command : string) (turn : Z) (te : TurnEnv) (st : Turns) : M TurnEnd :=
  let r := te_result te in
  let cause := turnFailureCause turn (redact (tr_FailureText r)) (te_runErr te) in
  if failed_turn te && Terminal (tr_LastLimit r) && negb (cancelled_run te) then
    sendExitWithLimit (ts_issue st) TerminalRateLimited cause (limitForHost (tr_LastLimit r) (ln_WorkerHost ln))
  else if tr_InputRequired r && bool_decide (te_runErr te = None) then
    queueInputRequiredEntry turn st command (explicitInputRequiredContext r) (te_now te) r
  else if failed_turn te then
    if bool_decide (te_runErr te = None) && String.eqb (tr_FailureText r) "" && no_tokens r then ret (Concluded st)
    else sendExitWithLimit (ts_issue st) TerminalFailed cause (limitForHost (tr_LastLimit r) (ln_WorkerHost ln))
  else if no_tokens r then ret (Concluded st)
  else
    match (if te_cancelled te then None else successful_question r) with
    | Some question => queueInputRequiredEntry turn st command question (te_now te) r
    | None =>
        if String.eqb (ln_Backend ln) "codex" then ret (Concluded st)
        else if negb (String.eqb (tr_ResultText r) "") && String.eqb (tr_ResultText r) (ts_prev st) then ret (Concluded st)
        else refresh_issue te (with_tokens r st)
    end.

Definition one_turn (wsPath command : string) (turn : Z) (st : Turns) : M TurnEnd :=
  let te := we_turn env turn in
  issue <- detail_issue turn te (ts_issue st) ;;
  let st := with_issue issue st in
  match te_render te with
  | Some err =>
      unless (String.eqb wsPath "") (tell (Hook "after_run")) ;;
      sendExit issue TerminalFailed (Some err)
  | None =>
      match te_prompt_size te with
      | Some err => sendExit issue TerminalFailed (Some err)
      | None =>
          tell (AgentTurn turn (ts_session st) prompt_of command) ;;
          after <- run_after_hook wsPath te ;;
          st <- track_branch wsPath te (with_session (te_result te) after st) ;;
          judge_turn command turn te st
      end
  end.

(** [n] turns are left; the turn the loop ends in is returned with its state. *)
Fixpoint turns (wsPath command : string) (n : nat) (turn : Z) (st : Turns) : M (Z * Turns) :=
  match n with
  | O => ret (turn, st)
  | Datatypes.S n =>
      e <- one_turn wsPath command turn st ;;
      match e with
      | Concluded st => ret (turn, st)
      | Again st => turns wsPath command n (turn + 1) st
      end
  end.

Definition effectiveMaxTurns : Z := if inputRequiredResume then 1 else ws_MaxTurns ws.


(** ** Before the turns *)

Definition shouldBackOutUnstacked (inputRequiredResume : bool) (stackedOn stackKey : string) : bool :=
  negb inputRequiredResume && String.eqb stackedOn "" && negb (String.eqb stackKey "").

(** An open pull request of the issue, if it is looked for and has a branch. *)
Definition detected_pr : option PRContext :=
  if ln_SkipPRCheck ln || inputRequiredResume then None
  else match we_pr env with
       | Some p => if String.eqb (prx_Branch p) "" then None else Some p
       | None => None
       end.

Definition start_branch : string :=
  match detected_pr with
  | Some p => prx_Branch p
  | None => ResolveWorktreeBranch (issue_BranchName (ln_Issue ln)) w_identifier
  end.

(** The worktree, what it is stacked on, and whether the setup of a fresh
    dispatch is skipped. *)
Definition setup_workspace : M (string * string * bool) :=
  let issue := ln_Issue ln in
  match we_workspace env with
  | None => ret ("", "", inputRequiredResume)
  | Some (inl err) => sendExit issue TerminalFailed (Some err)
  | Some (inr wi) =>
      if shouldBackOutUnstacked inputRequiredResume (wi_StackedOn wi) (we_review_key env) then
        unless (negb (wi_CreatedNow wi))
          (tell (RemoveWorkspace w_identifier (if we_branch_has_commits env then "" else start_branch))) ;;
        sendExit issue TerminalStackUnavailable None
      else
        let skip := inputRequiredResume && negb (wi_CreatedNow wi) in
        if wi_CreatedNow wi && negb skip then
          tell (Hook "after_create") ;;
          match we_after_create env with
          | Some err => tell (RemoveWorkspace w_identifier "") ;; sendExit issue TerminalFailed (Some err)
          | None => ret (wi_Path wi, wi_StackedOn wi, skip)
          end
        else ret (wi_Path wi, wi_StackedOn wi, skip)
  end.

Definition transitionToWorking : M () :=
  let issue := ln_Issue ln in
  let target := ws_WorkingState ws in
  if String.eqb target "" || equal_fold (issue_State issue) target then ret ()
  else
    tell (SetWorkingState (issue_ID issue) target (we_working_ok env)) ;;
    unless (negb (we_working_ok env)) (tell (RecordStatus w_identifier (issue_State issue) target "")).

Definition profileMoveIssueState : string :=
  match ln_Automation ln with
  | Some d => if String.eqb (trig_Type (ad_Trigger d)) AutomationTriggerBlockersResolved then trim_space (ad_MoveToState d) else ""
  | None => ""
  end.

(** The daemon's actions: a token for the run, given back when it ends. *)
Definition action_bridge : M string :=
  let actions := filterAllowedActionsForAutomation (ws_AllowedActions ws w_profile) (ln_Automation ln) in
  let command := ln_RunnerCommand ln in
  if bool_decide (actions = []) || negb (String.eqb (ln_WorkerHost ln) "") || String.eqb (ws_DaemonURL ws) "" then ret command
  else
    match we_token env with
    | None => ret command
    | Some token =>
        tell (IssueToken token actions) ;;
        defer (RevokeToken token) ;;
        ret (prependEnvToCommand command
               [("ITERVOX_ACTION_TOKEN", token); ("ITERVOX_DAEMON_URL", ws_DaemonURL ws);
                ("ITERVOX_CREATE_ISSUE_STATE", trim_space (ws_CreateIssueState ws w_profile));
                ("ITERVOX_ISSUE_IDENTIFIER", w_identifier); ("ITERVOX_MOVE_ISSUE_STATE", profileMoveIssueState);
                ("ITERVOX_RUN_ID", we_run_id env); ("PATH", we_path env)])
    end.

Definition before_run (wsPath : string) (skip : bool) : M () :=
  if String.eqb wsPath "" || skip then ret ()
  else
    tell (Hook "before_run") ;;
    match we_before_run env with
    | Some err => sendExit (ln_Issue ln) TerminalFailed (Some err)
    | None => ret ()
    end.

Definition checkout_branch (wsPath : string) (skip : bool) : M () :=
  match issue_BranchName (ln_Issue ln) with
  | Some b => unless (String.eqb wsPath "" || skip || ws_Worktree ws || IsDefaultBranch b) (tell (CheckoutBranch b))
  | None => ret ()
  end.

(** ** After the turns *)

(** [formatSessionComment] and the [SILENT] convention. *)
Definition formatSessionComment (allText : list string) (identifier : string) : string :=
  match filter (fun t => trim_space t <> "") allText with
  | [] => ""
  | nonEmpty =>
      "## Itervox Agent Session " +:+ utf8_bytes [226; 128; 148]%N +:+ " " +:+ identifier +:+ blank_line
      +:+ String.concat "" (map (fun t => t +:+ blank_line) nonEmpty)
  end.

Definition silentOutputPrefix : string := "[SILENT]".

Definition silentSessionOutput (allText : list string) : bool :=
  match List.find (fun t => negb (String.eqb (trim_space t) "")) (rev allText) with
  | Some t => has_prefix (trim_space t) silentOutputPrefix
  | None => false
  end.

Definition sessionCommentForRun (allText : list string) (identifier : string) : string :=
  if silentSessionOutput allText then "" else formatSessionComment allText identifier.

Definition after_run_gate (st : Turns) : M () :=
  match ts_after_run st with
  | Some err =>
      if ws_AfterRunRequired ws
      then sendExit (ts_issue st) TerminalFailed
             (Some (MkExitError ("worker: after_run gate failed: " +:+ ee_Message err) (ee_Canceled err) (ee_Panic err)))
      else ret ()
  | None => ret ()
  end.

(** The pull request's URL, and the one this run is the first to name with the
    branch it is on. *)
Definition announce_pr (wsPath : string) (st : Turns) : M (string * string * string) :=
  let found := match detected_pr with Some p => prx_URL p | None => "" end in
  let url := we_open_pr env in
  if String.eqb wsPath "" || bool_decide (is_Some detected_pr) || automationRun || String.eqb url "" then ret (found, "", "")
  else
    let issue := ts_issue st in
    if existsb (fun c => contains (comment_Body c) url) (issue_Comments issue) then ret (url, "", "")
    else
      ok <- comment (issue_ID issue) (issue_Identifier issue)
              (MarkManagedComment (utf8_bytes [240; 159; 148; 151]%N +:+ " Pull request created: " +:+ url)) ;;
      ret (if ok : bool then (url, url, ts_branch st) else (url, "", "")).

Definition adjust_pr (stackedOn url : string) : M () :=
  unless (String.eqb stackedOn "" || String.eqb url "" || automationRun) (tell (RetargetPR url stackedOn)) ;;
  unless (negb (ws_PRFooter ws) || bool_decide (is_Some detected_pr) || String.eqb url "" || automationRun) (tell (AddFooter url)).

Definition report_verdict (wsPath : string) (st : Turns) : M () :=
  if readOnlyReviewer && negb (String.eqb wsPath "") && negb automationRun then
    let changes := we_reviewer_changes env in
    unless (bool_decide (changes = [])) (tell (FlagVerdict changes)) ;;
    tell ClearBaseline ;;
    comment (issue_ID (ts_issue st)) (issue_Identifier (ts_issue st)) (MarkManagedComment (we_verdict_comment env changes)) ;;
    ret ()
  else ret ().

(** [ensureHandoffOnSuccess]: a missing or empty deliverable is written from
    the session's summary. *)
Definition handoff (wsPath : string) (st : Turns) : M () :=
  let written := match we_handoff_size env with Some n => 0 <? n | None => false end in
  if String.eqb wsPath "" || we_cancelled env AtHandoff then ret ()
  else
    unless written
      (tell SynthesizeHandoff ;;
       match we_handoff_write env with
       | Some err =>
           sendExit (ts_issue st) TerminalFailed
             (Some (MkExitError ("worker: success without handoff and synthesis failed: " +:+ ee_Message err)
                      (ee_Canceled err) (ee_Panic err)))
       | None => ret ()
       end) ;;
    unless readOnlyReviewer (tell CommitHandoff).

Definition publish (wsPath sessionComment : string) : M () :=
  match detected_pr with
  | Some pr =>
      if we_cancelled env AtPush || automationRun then ret ()
      else
        unless (String.eqb wsPath "" || readOnlyReviewer) (tell (Push (prx_Branch pr))) ;;
        unless (String.eqb sessionComment "") (tell (CommentPR (prx_URL pr) sessionComment))
  | None => ret ()
  end.

Definition session_comment (sessionComment : string) (st : Turns) : M () :=
  if String.eqb sessionComment "" || bool_decide (is_Some detected_pr) || automationRun then ret ()
  else comment (issue_ID (ts_issue st)) (issue_Identifier (ts_issue st)) (MarkManagedComment sessionComment) ;; ret ().

Definition completionState : string := tracker_CompletionState (cfg_Tracker cfg).

Definition evidenceHoldContext (missing : list string) : string :=
  "Needs evidence before moving to " +:+ go_quote completionState +:+ " (require_evidence):" +:+ nl +:+ "- "
  +:+ join (nl +:+ "- ") missing +:+ blank_line
  +:+ "Ask the agent to run the missing checks and record them (or wait for CI), then reply to resume; "
  +:+ "the issue moves on once the evidence is in place.".

Definition missing_evidence (url : string) : list string :=
  checkEvidence (we_evidence env) (evidenceRelPathFor w_profile) (ws_RequireEvidence ws w_profile) url.

Definition needs_evidence : bool :=
  negb (bool_decide (ws_RequireEvidence ws w_profile = [])) && negb (String.eqb completionState "")
  && negb (we_cancelled env AtEvidence) && negb automationRun && negb isReviewerRun.

Definition evidence_gate (command url : string) (turn : Z) (st : Turns) : M () :=
  if needs_evidence && negb (bool_decide (missing_evidence url = []))
  then queueInputRequiredEntry turn st command (evidenceHoldContext (missing_evidence url)) (we_now env) zero_TurnResult
  else ret ().

Definition complete (st : Turns) : M () :=
  if String.eqb completionState "" || we_cancelled env AtCompletion || automationRun then ret ()
  else
    let issue := ts_issue st in
    tell (MarkExiting (issue_ID issue)) ;;
    ok <- move_issue (issue_ID issue) (issue_Identifier issue) completionState (issue_State issue) ;;
    tell (if ok : bool then RecordStatus (issue_Identifier issue) (issue_State issue) completionState w_profile
          else PauseMark (issue_Identifier issue)).

Definition succeed (st : Turns) (url openedURL openedBranch : string) : M () :=
  sendExitWithBranch (ts_issue st) TerminalSucceeded None (ts_branch st) url ;;
  let resolved := if String.eqb openedURL "" then url else openedURL in
  unless (String.eqb resolved "") (tell (PROpened resolved (if String.eqb openedBranch "" then ts_branch st else openedBranch))).

Definition finish (wsPath stackedOn command : string) (turn : Z) (st : Turns) : M (string * string * string) :=
  after_run_gate st ;;
  pr <- announce_pr wsPath st ;;
  let '(url, openedURL, openedBranch) := pr in
  adjust_pr stackedOn url ;;
  let sessionComment := sessionCommentForRun (ts_texts st) (issue_Identifier (ts_issue st)) in
  report_verdict wsPath st ;;
  handoff wsPath st ;;
  publish wsPath sessionComment ;;
  session_comment sessionComment st ;;
  evidence_gate command url turn st ;;
  ret (url, openedURL, openedBranch).

(** ** The run *)

Definition setup : M (string * string * string) :=
  w <- setup_workspace ;;
  let '(wsPath, stackedOn, skip) := w in
  unless (skip || automationRun) transitionToWorking ;;
  unless (negb readOnlyReviewer || String.eqb wsPath "") (tell ReviewerBaseline ;; tell ClearVerdict) ;;
  command <- action_bridge ;;
  before_run wsPath skip ;;
  checkout_branch wsPath skip ;;
  ret (wsPath, stackedOn, command).

Definition first_turns : Turns :=
  MkTurns (ln_Issue ln)
    (match ln_Resume ln with Some r => if String.eqb (rx_SessionID r) "" then None else Some (rx_SessionID r) | None => None end)
    start_branch [] 0 0 0 "" None.

(** What ends in an exit that is not a success, or comes back. *)
Definition work : M (Turns * (string * string * string)) :=
  s <- setup ;;
  let '(wsPath, stackedOn, command) := s in
  t <- turns wsPath command (Z.to_nat effectiveMaxTurns) 1 first_turns ;;
  let '(turn, st) := t in
  u <- finish wsPath stackedOn command turn st ;;
  ret (st, u).

Definition conclude (st : Turns) (url openedURL openedBranch : string) : M () :=
  complete st ;;
  succeed st url openedURL openedBranch.

Definition worker_body : M () :=
  w <- work ;;
  let '(st, (url, openedURL, openedBranch)) := w in
  conclude st url openedURL openedBranch.

(** What the run did, and the sink it leaves. *)
Definition runWorker (s : S) : list WorkerEffect * S :=
  let '(_, r) := worker_body (MkRun s [] []) in
  (r_done r ++ r_deferred r, r_sink r).

End Worker.
