(* ===== verification/WorkerFacts.v ===== *)
(** * WorkerFacts: what a run of the worker does and how it ends

    A small program logic for the worker's monad ([runs]: what holds of the
    effects a part adds when it comes back, and when it returns with an exit),
    the parts of [runWorker] in it, and the properties of the whole run. *)

From stdpp Require Import base gmap list strings.
From S2P Require Import Prelude Domain State Config Dispatch Resolve BackendHealth AutomationQueue Tracker Outbox.
From S2P Require Import Orchestrator LimitText Failures Automation RefreshWorker World Reviews Workers Exits.
From S2P Require Import AgentTurn InputDetector Evidence WriteSink Grants Worker.

Local Open Scope Z_scope.

Section Facts.
Context {S : Type} `{!WriteSink S}.

(** ** The logic *)

Definition is_revoke (e : WorkerEffect) : Prop := match e with RevokeToken _ => True | _ => False end.

(** What is deferred gives tokens back, and every token given out is, or will
    be, given back. *)
Definition sound (r : Run (S := S)) : Prop :=
  Forall is_revoke (r_deferred r) /\
  forall t a, IssueToken t a ∈ r_done r -> RevokeToken t ∈ r_done r ++ r_deferred r.

Lemma sound_add r e s :
  sound r -> (forall t a, e <> IssueToken t a) -> sound (MkRun s (r_done r ++ [e]) (r_deferred r)).
Proof.
  intros [Hd Ht] He. split; [done|]. cbn. intros t a [H|H%list_elem_of_singleton]%elem_of_app; [|by destruct (He t a)].
  apply Ht in H. rewrite !elem_of_app in *. tauto.
Qed.

Lemma sound_exit r i ex :
  sound r -> sound (MkRun (r_sink r) ((r_done r ++ [MarkExiting i]) ++ [DeliverExit ex]) (r_deferred r)).
Proof.
  intros H. apply (sound_add (MkRun (r_sink r) (r_done r ++ [MarkExiting i]) (r_deferred r))); [|done].
  by apply sound_add.
Qed.

Lemma sound_flush r : sound r -> sound (MkRun (r_sink r) (r_done r ++ r_deferred r) []).
Proof.
  intros [Hd Ht]. split; [constructor|]. cbn. rewrite app_nil_r. intros t a [H|H]%elem_of_app; [by apply Ht in H|].
  by eapply Forall_forall in Hd; [|exact H].
Qed.

Definition runs {A} (G : A -> list WorkerEffect -> Prop) (N : list WorkerEffect -> Exit -> Prop) (m : M (S := S) A) : Prop :=
  forall r, sound r ->
  match m r with
  | (Some a, r') => sound r' /\ exists l, r_done r' = r_done r ++ l /\ G a l
  | (None, r') => sound r' /\ exists l ex, r_done r' = r_done r ++ l ++ [DeliverExit ex] /\ N l ex
  end.

Lemma runs_ret {A} (G : A -> list WorkerEffect -> Prop) N a : G a [] -> runs G N (ret a).
Proof. intros H r Hd. cbn. split; [done|]. exists []. by rewrite app_nil_r. Qed.

Lemma runs_bind {A B} (G1 : A -> list WorkerEffect -> Prop) (G : B -> list WorkerEffect -> Prop) N m k :
  runs G1 N m ->
  (forall a l, G1 a l -> runs (fun b l' => G b (l ++ l')) (fun l' ex => N (l ++ l') ex) (k a)) ->
  runs G N (bind m k).
Proof.
  intros Hm Hk r Hd. unfold bind. specialize (Hm r Hd). destruct (m r) as [[a|] r1]; [|done].
  destruct Hm as (Hd1 & l & Hl & Ha). specialize (Hk a l Ha r1 Hd1). destruct (k a r1) as [[b|] r2].
  - destruct Hk as (Hd2 & l' & Hl' & Hb). split; [done|]. exists (l ++ l'). by rewrite Hl', Hl, app_assoc.
  - destruct Hk as (Hd2 & l' & ex & Hl' & Hb). split; [done|]. exists (l ++ l'), ex. by rewrite Hl', Hl, <-!app_assoc.
Qed.

Lemma runs_weaken {A} (G G' : A -> list WorkerEffect -> Prop) (N N' : list WorkerEffect -> Exit -> Prop) m :
  runs G N m -> (forall a l, G a l -> G' a l) -> (forall l ex, N l ex -> N' l ex) -> runs G' N' m.
Proof.
  intros H HG HN r Hd. specialize (H r Hd). destruct (m r) as [[a|] r'].
  - destruct H as (? & l & ? & ?). eauto.
  - destruct H as (? & l & ex & ? & ?). split; [done|]. exists l, ex. eauto.
Qed.

(** Every effect is of a class; what is known of the value and of the exit. *)
Definition within {A} (C : WorkerEffect -> Prop) (G : A -> Prop) (E : Exit -> Prop) : M (S := S) A -> Prop :=
  runs (fun a l => Forall C l /\ G a) (fun l ex => Forall C l /\ E ex).

Lemma within_ret {A} C (G : A -> Prop) E a : G a -> within C G E (ret a).
Proof. intros H. apply runs_ret. by split; [constructor|]. Qed.

Lemma within_bind {A B} C (G1 : A -> Prop) (G : B -> Prop) E m k :
  within C G1 E m -> (forall a, G1 a -> within C G E (k a)) -> within C G E (bind m k).
Proof.
  intros Hm Hk. eapply runs_bind; [exact Hm|]. intros a l [Hl Ha]. eapply runs_weaken; [apply (Hk a Ha)|..].
  - intros b l' [Hl' Hb]. cbn. by rewrite Forall_app.
  - intros l' ex [Hl' Hb]. cbn. by rewrite Forall_app.
Qed.

Lemma within_weaken {A} (C C' : WorkerEffect -> Prop) (G G' : A -> Prop) (E : Exit -> Prop) m :
  within C G E m -> (forall e, C e -> C' e) -> (forall a, G a -> G' a) -> within C' G' E m.
Proof.
  intros H HC HG. eapply runs_weaken; [exact H|..].
  - intros a l [Hl Ha]. split; [by eapply Forall_impl|by apply HG].
  - intros l ex [Hl Ha]. split; [by eapply Forall_impl|done].
Qed.

Lemma within_tell C (G : () -> Prop) E e :
  C e -> (forall t a, e <> IssueToken t a) -> G () -> within C G E (tell e).
Proof.
  intros He Hi HG r Hd. split; [by apply sound_add|]. exists [e]. split; [done|]. split; [by repeat constructor|done].
Qed.

Lemma within_unless C (G : () -> Prop) E (b : bool) m :
  G () -> (b = false -> within C G E m) -> within C G E (unless b m).
Proof. intros HG Hm. destruct b; [by apply within_ret|by apply Hm]. Qed.

(** A token is given out with its return deferred. *)
Lemma within_token {A} (C : WorkerEffect -> Prop) (G : A -> Prop) E token actions a :
  C (IssueToken token actions) -> G a ->
  within C G E (bind (tell (IssueToken token actions)) (fun _ => bind (defer (RevokeToken token)) (fun _ => ret a))).
Proof.
  intros HC HG r [Hd Ht]. cbn. split; [|exists [IssueToken token actions]; split; [done|]; split; [by repeat constructor|done]].
  split; [by constructor|]. cbn. intros t a' [H|H%list_elem_of_singleton]%elem_of_app.
  - apply Ht in H. rewrite !elem_of_app, !elem_of_cons in *. tauto.
  - assert (t = token) as -> by congruence. rewrite !elem_of_app, !elem_of_cons. tauto.
Qed.

Lemma within_comment C (G : bool -> Prop) E i n b :
  (forall ok, C (Comment i b ok)) -> (forall ok, G ok) -> within C G E (comment i n b).
Proof.
  intros HC HG r Hd. unfold comment. destruct (sink_comment _ _ _ _) as [err s]. split; [by apply sound_add|].
  eexists. split; [done|]. split; [by repeat constructor|done].
Qed.

(** ** The parts of a run *)

Context (redact : string -> string) (cfg : Config) (ws : WorkerSettings) (injected : bool) (env : WorkerEnv) (ln : Launch).

Definition the_issue : string := issue_ID (ln_Issue ln).

(** What the code relies on: the tracker answers about the issue it is asked
    for. *)
Record issue_kept : Prop := {
  ik_detail : forall t i, te_detail (we_turn env t) = Fetched i -> issue_ID i = the_issue;
  ik_states : forall t l i, te_states (we_turn env t) = inr l -> i ∈ l -> issue_ID i = the_issue;
}.

(** An exit of this run. *)
Record exit_fits (ex : Exit) : Prop := {
  ef_issue : ex_IssueID ex = the_issue;
  ef_entry : exists entry, ex_RunEntry ex = Some entry /\ issue_ID (run_Issue entry) = the_issue /\
                           run_RetryAttempt entry = Some (ln_Attempt ln);
  ef_question : forall q, ex_InputRequired ex = Some q ->
                  ir_IssueID q = the_issue /\ ex_Error ex = None /\ ex_Limit ex = None;
}.

Definition exit_reason (ex : Exit) : TerminalReason :=
  match ex_RunEntry ex with Some entry => run_TerminalReason entry | None => TerminalFailed end.

(** A run that is cut short. *)
Definition exit_early (ex : Exit) : Prop := exit_fits ex /\ exit_reason ex <> TerminalSucceeded.

Lemma within_sendExit {A} C (G : A -> Prop) issue reason err :
  (forall i, C (MarkExiting i)) -> issue_ID issue = the_issue -> reason <> TerminalSucceeded ->
  within C G exit_early (sendExit ln issue reason err).
Proof.
  intros HC Hi Hr r Hd. split; [exact (sound_exit r _ _ Hd)|]. exists [MarkExiting (issue_ID issue)]. eexists. cbn. rewrite <-app_assoc.
  split; [done|]. split; [by repeat constructor|]. split; [|done]. split; [done|by eexists|done].
Qed.

Lemma within_sendExitWithLimit {A} C (G : A -> Prop) issue reason err limit :
  (forall i, C (MarkExiting i)) -> issue_ID issue = the_issue -> reason <> TerminalSucceeded ->
  within C G exit_early (sendExitWithLimit ln issue reason err limit).
Proof.
  intros HC Hi Hr r Hd. split; [exact (sound_exit r _ _ Hd)|]. exists [MarkExiting (issue_ID issue)]. eexists. cbn. rewrite <-app_assoc.
  split; [done|]. split; [by repeat constructor|]. split; [|done]. split; [done|by eexists|done].
Qed.

Lemma within_question {A} C (G : A -> Prop) turn st command context now res :
  issue_ID (ts_issue st) = the_issue ->
  within C G exit_early (queueInputRequiredEntry redact ln turn st command context now res).
Proof.
  intros Hi r Hd. split; [by apply sound_add|]. exists []. eexists. split; [done|]. split; [constructor|].
  split; [|done]. split; [done|by eexists|]. intros q Hq. cbn in Hq. assert (ir_IssueID q = issue_ID (ts_issue st)) as ->.
  { by destruct q; inversion Hq. } done.
Qed.

Lemma within_panic {A} (C : WorkerEffect -> Prop) (G : A -> Prop) issue msg :
  (forall i, C (MarkExiting i)) -> (forall t, C (RevokeToken t)) -> issue_ID issue = the_issue ->
  within C G exit_early (panic ln issue msg).
Proof.
  intros HC HR Hi r Hd. split.
  { exact (sound_exit (MkRun (r_sink r) (r_done r ++ r_deferred r) []) _ _ (sound_flush r Hd)). }
  destruct Hd as [Hd _]. exists (r_deferred r ++ [MarkExiting (issue_ID issue)]). eexists. cbn.
  rewrite <-!app_assoc. split; [done|]. split.
  - apply Forall_app. split; [|by repeat constructor]. eapply Forall_impl; [exact Hd|]. by intros [].
  - split; [|done]. split; [done|by eexists|done].
Qed.

(** *** Setting up *)

Definition setup_effect (e : WorkerEffect) : Prop :=
  match e with
  | SetWorkingState i target _ => automationRun ln = false /\ i = the_issue /\ target = ws_WorkingState ws
  | RecordStatus _ _ target _ => automationRun ln = false /\ target = ws_WorkingState ws
  | ReviewerBaseline | ClearVerdict => readOnlyReviewer cfg injected ln = true
  | Hook _ | RemoveWorkspace _ _ | CheckoutBranch _ | IssueToken _ _ | MarkExiting _ | RevokeToken _ => True
  | _ => False
  end.

(** What the conditions passed say. *)
Ltac facts :=
  repeat match goal with
    | H : _ || _ = false |- _ => apply orb_false_iff in H as [? ?]
    | H : _ && _ = true |- _ => apply andb_true_iff in H as [? ?]
    | H : negb _ = false |- _ => apply negb_false_iff in H
    | H : negb _ = true |- _ => apply negb_true_iff in H
    end.

(** One step of a walk through a part. *)
Ltac walk1 :=
  first
    [ apply within_ret; done
    | apply within_tell; [facts; by eauto|done|done]
    | apply within_token; done
    | apply within_comment; [intros ?; facts; by auto|done]
    | apply within_sendExit; done
    | apply within_sendExitWithLimit; done
    | apply within_question; done
    | apply within_unless; [done|intros ?]
    | apply (within_bind _ (fun _ => True)); [|intros ? _] ].
Ltac walk := repeat first [walk1 | case_match].

(** The run's worktree, if there is one. *)
Definition worker_path : string := match we_workspace env with Some (inr wi) => wi_Path wi | _ => "" end.

Lemma setup_workspace_within :
  within setup_effect (fun s => s.1.1 = worker_path) exit_early (setup_workspace env ln).
Proof. unfold setup_workspace, worker_path. walk. Qed.

Lemma setup_within :
  within setup_effect (fun s => s.1.1 = worker_path) exit_early (setup cfg ws injected env ln).
Proof.
  unfold setup. eapply within_bind; [apply setup_workspace_within|]. intros [[wsPath stackedOn] skip] Hs.
  unfold transitionToWorking, action_bridge, before_run, checkout_branch. walk.
Qed.

(** *** A turn *)

(** What a turn does besides the agent's part. *)
Definition between (e : WorkerEffect) : Prop :=
  match e with
  | Hook name => name = "after_run"
  | TrackBranch i b => i = the_issue /\ IsDefaultBranch b = false
  | MarkExiting _ | RevokeToken _ => True
  | _ => False
  end.

Definition resumed_session : option string := ts_session (first_turns env ln).

Definition turn_effect (e : WorkerEffect) : Prop :=
  match e with
  | AgentTurn t session prompt _ => prompt = prompt_of cfg injected ln /\ (t = 1 -> session = resumed_session)
  | _ => between e
  end.

Definition agent_turns (l : list WorkerEffect) : list Z :=
  omap (fun e => match e with AgentTurn t _ _ _ => Some t | _ => None end) l.

Lemma between_no_turns l : Forall between l -> agent_turns l = [].
Proof. by induction 1 as [|[] l He _ IH]. Qed.

Lemma between_turn_effect e : between e -> turn_effect e.
Proof. by destruct e. Qed.

(** A turn that the run may go on from: it did not fail, save for an empty
    answer of a session that had ended, and did not ask. *)
Definition turn_fine (te : TurnEnv) : Prop :=
  te_runErr te = None /\ tr_InputRequired (te_result te) = false /\
  Terminal (tr_LastLimit (te_result te)) && tr_Failed (te_result te) = false /\
  (tr_Failed (te_result te) = true -> tr_FailureText (te_result te) = "" /\ no_tokens (te_result te) = true).

Definition end_state (e : TurnEnd) : Turns := match e with Concluded st | Again st => st end.

(** The run's issue and its last after_run hook. *)
Definition carries (after : option ExitError) (st : Turns) : Prop :=
  issue_ID (ts_issue st) = the_issue /\ ts_after_run st = after.

Context (kept : issue_kept).

Lemma refresh_issue_within t after st :
  carries after st ->
  within between (fun e => carries after (end_state e)) exit_early (refresh_issue cfg ln (we_turn env t) st).
Proof.
  intros [Hi Ha]. unfold refresh_issue. destruct (te_states (we_turn env t)) as [err|refreshed] eqn:E; [walk|].
  apply within_ret. set (issue := match refreshed with [] => _ | _ => _ end).
  assert (carries after (with_issue issue st)) as Hc.
  { split; [|done]. cbn. subst issue. destruct refreshed as [|i refreshed]; [done|].
    assert (issue_ID i = the_issue) as <- by (eapply (ik_states kept); [exact E|by left]).
    by destruct (issue_BranchName i). }
  by destruct (existsb _ _).
Qed.

Lemma judge_turn_within t command after st :
  carries after st ->
  within between (fun e => turn_fine (we_turn env t) /\ carries after (end_state e)) exit_early
    (judge_turn redact cfg ln command t (we_turn env t) st).
Proof.
  intros Hc. pose proof Hc as [Hi Ha]. unfold judge_turn, failed_turn, cancelled_run. set (te := we_turn env t).
  destruct (te_runErr te) as [e|] eqn:Ee.
  { rewrite orb_true_r. walk. all: discriminate. }
  destruct (tr_InputRequired (te_result te)) eqn:Eq; [walk|].
  assert (Hf : Terminal (tr_LastLimit (te_result te)) && tr_Failed (te_result te) = false ->
    (tr_Failed (te_result te) = true -> tr_FailureText (te_result te) = "" /\ no_tokens (te_result te) = true) ->
    turn_fine te) by (intros; by split; [|split; [|split]]).
  destruct (tr_Failed (te_result te)) eqn:Ef; cbn [orb andb bool_decide negb].
  - destruct (Terminal (tr_LastLimit (te_result te))); [walk|]. cbn. destruct (String.eqb_spec (tr_FailureText (te_result te)) "").
    2: by walk. destruct (no_tokens (te_result te)); [|by walk]. apply within_ret. by split; [apply Hf|].
  - rewrite andb_false_r in Hf. cbn. specialize (Hf eq_refl ltac:(done)).
    destruct (no_tokens (te_result te)); [by apply within_ret|]. case_match; [walk|].
    destruct (String.eqb _ _); [by apply within_ret|]. destruct (_ && _); [by apply within_ret|].
    eapply within_weaken; [by apply (refresh_issue_within t after (with_tokens _ st))|done|done].
Qed.

Lemma agent_turns_app l l' : agent_turns (l ++ l') = agent_turns l ++ agent_turns l'.
Proof. apply omap_app. Qed.

(** A part between the agent's parts, after the effects [p]. *)
Lemma within_after {A} (G : A -> Prop) m p :
  Forall turn_effect p -> within between G exit_early m ->
  runs (fun a l => Forall turn_effect (p ++ l) /\ agent_turns (p ++ l) = agent_turns p /\ G a)
    (fun l ex => Forall turn_effect (p ++ l) /\ agent_turns (p ++ l) = agent_turns p /\ exit_early ex) m.
Proof.
  intros Hp Hm.
  assert (Hx : forall l, Forall between l -> Forall turn_effect (p ++ l) /\ agent_turns (p ++ l) = agent_turns p).
  { intros l Hl. rewrite Forall_app, agent_turns_app, (between_no_turns l Hl), app_nil_r.
    split; [|done]. split; [done|]. eapply Forall_impl; [exact Hl|apply between_turn_effect]. }
  eapply runs_weaken; [exact Hm|intros a l [Hl Ha]|intros l ex [Hl Ha]]; by destruct (Hx l Hl).
Qed.

Lemma detail_issue_within t issue :
  issue_ID issue = the_issue ->
  within between (fun i => issue_ID i = the_issue) exit_early (detail_issue ln t (we_turn env t) issue).
Proof.
  intros Hi. unfold detail_issue. destruct (t =? 1); [|by apply within_ret].
  destruct (te_detail (we_turn env t)) eqn:E; [|by apply within_ret..|by apply within_panic].
  apply within_ret. by eapply (ik_detail kept).
Qed.

Definition hook_result (wsPath : string) (t : Z) : option ExitError :=
  if String.eqb wsPath "" then None else te_after_run (we_turn env t).

Lemma run_after_hook_within wsPath t :
  within between (fun after => after = hook_result wsPath t) exit_early (run_after_hook wsPath (we_turn env t)).
Proof. unfold run_after_hook, hook_result. walk. Qed.

Lemma track_branch_within wsPath t after st :
  carries after st -> within between (carries after) exit_early (track_branch wsPath (we_turn env t) st).
Proof.
  intros [Hi Ha]. unfold track_branch. walk.
Qed.

Lemma one_turn_runs wsPath command t st :
  issue_ID (ts_issue st) = the_issue -> (t = 1 -> ts_session st = resumed_session) ->
  runs (fun e l => Forall turn_effect l /\ agent_turns l = [t] /\ turn_fine (we_turn env t) /\
                   carries (hook_result wsPath t) (end_state e))
    (fun l ex => Forall turn_effect l /\ (agent_turns l = [] \/ agent_turns l = [t]) /\ exit_early ex)
    (one_turn redact cfg injected env ln wsPath command t st).
Proof.
  intros Hi Hs. unfold one_turn.
  eapply runs_bind.
  { eapply runs_weaken; [apply (within_after _ _ [] (Forall_nil_2 _) (detail_issue_within t _ Hi))|..].
    - intros i l H. exact H.
    - intros l ex (? & ? & ?). auto. }
  intros issue l (Hl & Hn & Hissue). cbn [app] in Hl, Hn.
  destruct (te_render _) as [err|].
  { eapply runs_weaken; [apply (within_after (fun _ => False) _ l Hl); by walk|by intros ? ? (_ & _ & [])|]. intros l' ex (? & -> & ?). auto. }
  destruct (te_prompt_size _) as [err|].
  { eapply runs_weaken; [apply (within_after (fun _ => False) _ l Hl); by walk|by intros ? ? (_ & _ & [])|]. intros l' ex (? & -> & ?). auto. }
  eapply (runs_bind (fun _ l' => l' = [AgentTurn t (ts_session st) (prompt_of cfg injected ln) command])).
  { intros r Hd. split; [by apply sound_add|]. by eexists. }
  intros [] l1 ->. set (p := l ++ [AgentTurn t (ts_session st) (prompt_of cfg injected ln) command]).
  assert (Forall turn_effect p /\ agent_turns p = [t]) as [Hp Hpn].
  { subst p. rewrite Forall_app, agent_turns_app, Hn. split; [|done]. split; [done|]. by repeat constructor. }
  eapply runs_weaken.
  - apply (within_after (fun e => turn_fine (we_turn env t) /\ carries (hook_result wsPath t) (end_state e)) _ p Hp).
    eapply within_bind; [apply run_after_hook_within|]. intros after ->.
    eapply within_bind; [by apply track_branch_within|]. intros st' Hst'. by apply judge_turn_within.
  - intros e l' (? & ? & ? & ?). rewrite <-Hpn. subst p. rewrite <-!app_assoc in *. by split_and!.
  - intros l' ex (? & ? & ?). rewrite <-Hpn. subst p. rewrite <-!app_assoc in *. auto.
Qed.

(** Turn numbers from [t] on, at most [n] of them. *)
Definition consecutive (t : Z) (n : nat) (us : list Z) : Prop :=
  us = seqZ t (Z.of_nat (length us)) /\ (length us <= n)%nat.

Lemma consecutive_nil t n : consecutive t n [].
Proof. split; [done|cbn; lia]. Qed.

Lemma consecutive_cons t n us : consecutive (t + 1) n us -> consecutive t (Datatypes.S n) (t :: us).
Proof.
  intros [Hu Hl]. split; [|cbn; lia]. cbn [length]. rewrite seqZ_cons by lia. f_equal.
  etransitivity; [exact Hu|]. f_equal; lia.
Qed.

(** The hook of the last turn gone through. *)
Definition last_hook (wsPath : string) (before : option ExitError) (us : list Z) : option ExitError :=
  match last us with Some t => hook_result wsPath t | None => before end.

Lemma last_hook_cons wsPath before t us :
  last_hook wsPath (hook_result wsPath t) us = last_hook wsPath before (t :: us).
Proof. unfold last_hook. rewrite last_cons. by destruct (last us). Qed.

Lemma turns_runs wsPath command n t st :
  issue_ID (ts_issue st) = the_issue -> 1 <= t -> (t = 1 -> ts_session st = resumed_session) ->
  runs (fun p l => Forall turn_effect l /\ consecutive t n (agent_turns l) /\
                   Forall (fun u => turn_fine (we_turn env u)) (agent_turns l) /\
                   carries (last_hook wsPath (ts_after_run st) (agent_turns l)) (snd p))
    (fun l ex => Forall turn_effect l /\ consecutive t n (agent_turns l) /\ exit_early ex)
    (turns redact cfg injected env ln wsPath command n t st).
Proof.
  revert t st. induction n as [|n IH]; intros t st Hi Ht Hs; cbn [turns].
  { apply runs_ret. cbn [agent_turns omap list_omap]. repeat (split; [by (constructor || apply consecutive_nil)|]). done. }
  eapply runs_bind.
  { eapply runs_weaken; [by apply one_turn_runs|intros e l H; exact H|]. intros l ex (? & Hn & ?). split; [done|].
    split; [|done]. destruct Hn as [-> | ->]; [apply consecutive_nil|]. apply consecutive_cons, consecutive_nil. }
  intros e l (Hl & Hn & Hf & Hc). destruct e as [st'|st']; cbn [end_state] in Hc.
  - apply runs_ret. rewrite app_nil_r, Hn. split; [done|]. split; [apply consecutive_cons, consecutive_nil|].
    split; [by apply Forall_singleton|]. done.
  - destruct Hc as [Hi' Ha']. eapply runs_weaken; [apply (IH (t + 1) st' Hi'); lia|..].
    + intros p l' (Hl' & Hn' & Hf' & Hc'). rewrite Forall_app, agent_turns_app, Hn. split; [done|].
      split; [by apply consecutive_cons|]. split; [by constructor|]. cbn [app]. by rewrite <-last_hook_cons, <-Ha'.
    + intros l' ex (Hl' & Hn' & Hc'). rewrite Forall_app, agent_turns_app, Hn. split; [done|].
      split; [by apply consecutive_cons|]. done.
Qed.

(** *** Finishing *)

Definition finish_effect (e : WorkerEffect) : Prop :=
  match e with
  | Comment i _ _ => automationRun ln = false /\ i = the_issue
  | RetargetPR _ _ | AddFooter _ => automationRun ln = false
  | CommentPR _ _ => automationRun ln = false /\ is_Some (detected_pr env ln)
  | Push b => automationRun ln = false /\ readOnlyReviewer cfg injected ln = false
              /\ prx_Branch <$> detected_pr env ln = Some b
  | FlagVerdict _ | ClearBaseline => automationRun ln = false /\ readOnlyReviewer cfg injected ln = true
  | CommitHandoff => readOnlyReviewer cfg injected ln = false
  | SynthesizeHandoff | MarkExiting _ | RevokeToken _ => True
  | _ => False
  end.

(** What has been checked when the run is about to conclude. *)
Definition proved (st : Turns) (url : string) : Prop :=
  (ws_AfterRunRequired ws = true -> ts_after_run st = None) /\
  (needs_evidence cfg ws env ln = true -> missing_evidence ws env ln url = []).

Lemma after_run_gate_within st :
  issue_ID (ts_issue st) = the_issue ->
  within finish_effect (fun _ => ws_AfterRunRequired ws = true -> ts_after_run st = None) exit_early (after_run_gate ws ln st).
Proof. intros Hi. unfold after_run_gate. destruct (ts_after_run st); [destruct (ws_AfterRunRequired ws)|]; walk. Qed.

Lemma evidence_gate_within command url turn st :
  issue_ID (ts_issue st) = the_issue ->
  within finish_effect (fun _ => needs_evidence cfg ws env ln = true -> missing_evidence ws env ln url = []) exit_early
    (evidence_gate redact cfg ws env ln command url turn st).
Proof.
  intros Hi. unfold evidence_gate. destruct (needs_evidence cfg ws env ln); cbn [andb]; [|by apply within_ret].
  case_bool_decide as E; cbn [negb]; [by apply within_ret|by apply within_question].
Qed.

(** The parts of the end that only add effects. *)
Lemma finish_parts_within wsPath stackedOn url sessionComment st :
  issue_ID (ts_issue st) = the_issue ->
  let quiet {A} := within (A := A) finish_effect (fun _ => True) exit_early in
  quiet (announce_pr env ln wsPath st) /\ quiet (adjust_pr ws env ln stackedOn url) /\
  quiet (report_verdict cfg injected env ln wsPath st) /\ quiet (handoff cfg injected env ln wsPath st) /\
  quiet (publish cfg injected env ln wsPath sessionComment) /\ quiet (session_comment env ln sessionComment st).
Proof.
  intros Hi quiet. subst quiet. cbn beta. split_and!.
  - unfold announce_pr. walk.
  - unfold adjust_pr. walk.
  - unfold report_verdict. walk.
  - unfold handoff. walk.
  - unfold publish. destruct (detected_pr env ln) eqn:E; walk.
    all: apply within_tell; [facts; cbn; rewrite E; by eauto|done|done].
  - unfold session_comment. walk.
Qed.

Lemma finish_within wsPath stackedOn command turn st :
  issue_ID (ts_issue st) = the_issue ->
  within finish_effect (fun u => proved st u.1.1) exit_early
    (finish redact cfg ws injected env ln wsPath stackedOn command turn st).
Proof.
  intros Hi. unfold finish.
  eapply within_bind; [by apply after_run_gate_within|]. intros ? Hgate.
  set (sc := sessionCommentForRun _ _).
  destruct (finish_parts_within wsPath stackedOn "" sc st Hi) as (Hpr & _ & Hv & Hh & Hp & Hc).
  eapply within_bind; [exact Hpr|]. intros [[url openedURL] openedBranch] _.
  destruct (finish_parts_within wsPath stackedOn url sc st Hi) as (_ & Ha & _).
  do 5 (eapply within_bind; [eassumption|]; intros ? _).
  eapply within_bind; [by apply evidence_gate_within|]. intros ? Hev. by apply within_ret.
Qed.

(** ** The run until it concludes *)

Definition phases (l1 l2 l3 : list WorkerEffect) : Prop :=
  Forall setup_effect l1 /\ Forall turn_effect l2 /\ Forall finish_effect l3 /\
  consecutive 1 (Z.to_nat (effectiveMaxTurns ws ln)) (agent_turns l2).

Definition concluding (w : Turns * (string * string * string)) (l2 : list WorkerEffect) : Prop :=
  let '(st, (url, _, _)) := w in
  proved st url /\ Forall (fun u => turn_fine (we_turn env u)) (agent_turns l2) /\
  carries (last_hook worker_path None (agent_turns l2)) st.

Lemma work_runs :
  runs (fun w l => exists l1 l2 l3, l = l1 ++ l2 ++ l3 /\ phases l1 l2 l3 /\ concluding w l2)
    (fun l ex => (exists l1 l2 l3, l = l1 ++ l2 ++ l3 /\ phases l1 l2 l3) /\ exit_early ex)
    (work redact cfg ws injected env ln).
Proof.
  unfold work. eapply runs_bind.
  { eapply runs_weaken; [apply setup_within|intros s l H; exact H|]. intros l ex [Hl He]. split; [|done].
    exists l, [], []. rewrite !app_nil_r. split; [done|].
    split; [done|]. split; [constructor|]. split; [constructor|apply consecutive_nil]. }
  intros [[wsPath stackedOn] command] l1 [Hl1 Hw]. cbn in Hw. subst wsPath.
  eapply runs_bind.
  { eapply runs_weaken; [by apply turns_runs|intros p l H; exact H|]. intros l ex (Hl & Hn & He). split; [|done].
    exists l1, l, []. rewrite app_nil_r. split; [done|].
    split; [done|]. split; [done|]. split; [constructor|done]. }
  intros [turn st] l2 (Hl2 & Hn & Hf & Hc). cbn [snd] in Hc.
  eapply runs_bind.
  { eapply runs_weaken; [apply finish_within, Hc|intros u l H; exact H|]. intros l ex [Hl He]. split; [|done].
    by exists l1, l2, l. }
  intros [[url openedURL] openedBranch] l3 [Hl3 Hp]. apply runs_ret. rewrite app_nil_r.
  by exists l1, l2, l3.
Qed.

(** The effects after the work: the move, the exit, the pull request. *)
Definition success_exit (st : Turns) (url : string) : Exit :=
  MkExit (issue_ID (ts_issue st)) (Some (exit_entry ln (ts_issue st) (ts_branch st) url TerminalSucceeded)) None None None.

Definition completes : bool :=
  negb (String.eqb (completionState cfg) "" || we_cancelled env AtCompletion || automationRun ln).

Definition completion_effects (st : Turns) (ok : bool) : list WorkerEffect :=
  let issue := ts_issue st in
  if completes then
    [MarkExiting (issue_ID issue); MoveIssue (issue_ID issue) (completionState cfg) (issue_State issue) ok;
     if ok then RecordStatus (issue_Identifier issue) (issue_State issue) (completionState cfg) (w_profile ln)
     else PauseMark (issue_Identifier issue)]
  else [].

Definition pr_effects (st : Turns) (url openedURL openedBranch : string) : list WorkerEffect :=
  let resolved := if String.eqb openedURL "" then url else openedURL in
  if String.eqb resolved "" then []
  else [PROpened resolved (if String.eqb openedBranch "" then ts_branch st else openedBranch)].

(** [ok] is what the sink answers to the move. *)
Definition accepted (st : Turns) (s s' : S) (ok : bool) : Prop :=
  if completes then
    exists err, sink_update (issue_ID (ts_issue st)) (issue_Identifier (ts_issue st)) (completionState cfg)
                  (issue_State (ts_issue st)) s = (err, s') /\ ok = bool_decide (err = None)
  else s' = s.

Lemma conclude_spec st url openedURL openedBranch r :
  exists ok s', accepted st (r_sink r) s' ok /\
  conclude cfg env ln st url openedURL openedBranch r =
    (Some (), MkRun s' (r_done r ++ completion_effects st ok ++ [MarkExiting (issue_ID (ts_issue st));
                        DeliverExit (success_exit st url)] ++ pr_effects st url openedURL openedBranch) (r_deferred r)).
Proof.
  unfold conclude, succeed, complete, completion_effects, accepted, pr_effects, completes.
  set (stops := _ || _). destruct stops; cbn [negb].
  - exists true, (r_sink r). split; [done|]. cbn. destruct (String.eqb _ ""); unfold unless, tell, ret; cbn; by rewrite <-!app_assoc.
  - destruct (sink_update (issue_ID (ts_issue st)) (issue_Identifier (ts_issue st)) (completionState cfg)
                (issue_State (ts_issue st)) (r_sink r)) as [err s'] eqn:E.
    exists (bool_decide (err = None)), s'. split; [by exists err|].
    unfold bind at 1 2 3, tell at 1, move_issue. cbn [r_sink r_done r_deferred]. rewrite E. cbn.
    destruct (bool_decide _); cbn; destruct (String.eqb _ ""); unfold unless, tell, ret; cbn; by rewrite <-!app_assoc.
Qed.

(** ** The whole run *)

Definition effects (s : S) : list WorkerEffect := fst (runWorker redact cfg ws injected env ln s).
Definition final_sink (s : S) : S := snd (runWorker redact cfg ws injected env ln s).

Inductive Ended (s : S) : Prop :=
  | EndedEarly l1 l2 l3 ex rev
      (Hp : phases l1 l2 l3) (Hx : exit_early ex) (Hr : Forall is_revoke rev)
      (He : effects s = (l1 ++ l2 ++ l3) ++ [DeliverExit ex] ++ rev)
  | EndedWell l1 l2 l3 st url openedURL openedBranch ok s1 rev
      (Hp : phases l1 l2 l3) (Hc : concluding (st, (url, openedURL, openedBranch)) l2)
      (Ha : accepted st s1 (final_sink s) ok) (Hr : Forall is_revoke rev)
      (He : effects s = (l1 ++ l2 ++ l3) ++ completion_effects st ok
                        ++ [MarkExiting (issue_ID (ts_issue st)); DeliverExit (success_exit st url)]
                        ++ pr_effects st url openedURL openedBranch ++ rev).

Lemma worker_body_eq r :
  worker_body redact cfg ws injected env ln r =
  match work redact cfg ws injected env ln r with
  | (Some (st, (url, openedURL, openedBranch)), r) => conclude cfg env ln st url openedURL openedBranch r
  | (None, r) => (None, r)
  end.
Proof. unfold worker_body, bind at 1. by destruct (work _ _ _ _ _ _ r) as [[[? [[? ?] ?]]|] ?]. Qed.

Lemma run_ends s : Ended s /\ forall t a, IssueToken t a ∈ effects s -> RevokeToken t ∈ effects s.
Proof.
  pose proof (work_runs (MkRun s [] [])) as H.
  assert (sound (MkRun s [] [])) as H0 by (split; [constructor|]; intros t a Ht; by apply elem_of_nil in Ht).
  specialize (H H0). clear H0. pose proof (EndedEarly s) as HE. pose proof (EndedWell s) as HW.
  unfold effects, final_sink, runWorker in HE, HW |- *. rewrite worker_body_eq in HE, HW |- *.
  destruct (work redact cfg ws injected env ln (MkRun s [] [])) as [[w|] r].
  - destruct w as [st [[url openedURL] openedBranch]].
    destruct H as ([Hd Ht] & l & Hl & l1 & l2 & l3 & -> & Hp & Hc). cbn in Hl.
    destruct (conclude_spec st url openedURL openedBranch r) as (ok & s' & Ha & E). rewrite E in HE, HW |- *. cbn in HE, HW |- *.
    rewrite Hl in HE, HW, Ht |- *. split.
    + apply (HW l1 l2 l3 st url openedURL openedBranch ok (r_sink r) (r_deferred r) Hp Hc Ha Hd). by rewrite <-!app_assoc.
    + intros t a Hin. rewrite !elem_of_app in Hin.
      assert (Hno : IssueToken t a ∉ completion_effects st ok ++ MarkExiting (issue_ID (ts_issue st)) ::
        DeliverExit (success_exit st url) :: pr_effects st url openedURL openedBranch).
      { unfold completion_effects, pr_effects. destruct completes, ok, (String.eqb _ ""); cbn; set_solver. }
      assert (IssueToken t a ∉ r_deferred r) by (intros Hx; by eapply Forall_forall in Hd; [|exact Hx]).
      rewrite elem_of_app in Hno.
      assert (Hx : IssueToken t a ∈ l1 ++ l2 ++ l3) by (rewrite !elem_of_app; tauto).
      apply Ht in Hx. rewrite elem_of_app in Hx. rewrite !(elem_of_app _ (r_deferred r)), elem_of_app. tauto.
  - destruct H as ([Hd Ht] & l & ex & Hl & (l1 & l2 & l3 & -> & Hp) & Hx). cbn in Hl. rewrite Hl in HE, HW, Ht |- *.
    cbn in *. split.
    + apply (HE l1 l2 l3 ex (r_deferred r) Hp Hx Hd). by rewrite <-!app_assoc.
    + intros t a [Hin|Hin]%elem_of_app; [by apply (Ht t a)|]. by eapply Forall_forall in Hd; [|exact Hin].
Qed.

Lemma phases_elem l1 l2 l3 e :
  phases l1 l2 l3 -> e ∈ l1 ++ l2 ++ l3 -> setup_effect e \/ turn_effect e \/ finish_effect e.
Proof.
  intros (H1 & H2 & H3 & _). rewrite Forall_forall in H1, H2, H3. rewrite !elem_of_app.
  intros [?|[?|?]]; auto.
Qed.

Lemma revokes_elem rev e : Forall is_revoke rev -> e ∈ rev -> exists t, e = RevokeToken t.
Proof. intros Hr He. eapply Forall_forall in Hr; [|exact He]. destruct e; try done. by eexists. Qed.

(** The effects of the move. *)
Lemma completion_elem st ok e :
  e ∈ completion_effects st ok -> completes = true /\
  match e with
  | MarkExiting _ | RecordStatus _ _ _ _ => True
  | MoveIssue i target from ok' =>
      i = issue_ID (ts_issue st) /\ target = completionState cfg /\ from = issue_State (ts_issue st) /\ ok' = ok
  | PauseMark n => n = issue_Identifier (ts_issue st) /\ ok = false
  | _ => False
  end.
Proof.
  unfold completion_effects. destruct completes; [|by intros ?%elem_of_nil]. intros He. split; [done|].
  rewrite !elem_of_cons in He. destruct He as [-> | [-> | [-> | []%elem_of_nil]]]; [done..|]. by destruct ok.
Qed.

Lemma pr_elem st url openedURL openedBranch e :
  e ∈ pr_effects st url openedURL openedBranch -> exists u b, e = PROpened u b.
Proof.
  unfold pr_effects. destruct (String.eqb _ ""); [by intros ?%elem_of_nil|]. intros ->%list_elem_of_singleton. by eexists _, _.
Qed.

Lemma agent_turns_elem l t s p c : AgentTurn t s p c ∈ l -> t ∈ agent_turns l.
Proof. intros H. apply list_elem_of_omap. by eexists (AgentTurn t s p c). Qed.


(** The agent's turns are those of the middle phase. *)
Lemma agent_turns_none l : (forall t s p c, AgentTurn t s p c ∉ l) -> agent_turns l = [].
Proof.
  intros H. destruct (agent_turns l) as [|t us] eqn:E; [done|]. exfalso.
  assert (Hin : t ∈ agent_turns l) by (rewrite E; by left). apply list_elem_of_omap in Hin as ([] & He & Hm); try done.
  inversion Hm; subst. by eapply H.
Qed.

Lemma turns_of_effects s :
  forall l1 l2 l3 rest, phases l1 l2 l3 -> effects s = (l1 ++ l2 ++ l3) ++ rest ->
  (forall t s p c, AgentTurn t s p c ∉ rest) -> agent_turns (effects s) = agent_turns l2.
Proof.
  intros l1 l2 l3 rest (H1 & _ & H3 & _) -> Hrest. rewrite !agent_turns_app.
  rewrite (agent_turns_none l1), (agent_turns_none l3), (agent_turns_none rest); [by rewrite !app_nil_r|done|..].
  all: intros t s' p c Hin; (eapply Forall_forall in H1; [|exact Hin]) || (eapply Forall_forall in H3; [|exact Hin]); done.
Qed.

Lemma end_no_turns st ok url openedURL openedBranch rev t s p c :
  Forall is_revoke rev ->
  AgentTurn t s p c ∉ completion_effects st ok ++ [MarkExiting (issue_ID (ts_issue st)); DeliverExit (success_exit st url)]
                      ++ pr_effects st url openedURL openedBranch ++ rev.
Proof.
  intros Hr. rewrite !elem_of_app, !elem_of_cons. intros [Hin|[[?|[?|?%elem_of_nil]]|[Hin|Hin]]]; [|done..| |].
  - by apply completion_elem in Hin as [_ ?].
  - by destruct (pr_elem _ _ _ _ _ Hin) as (u & b & ?).
  - by destruct (revokes_elem _ _ Hr Hin).
Qed.

Context {ready : S -> Prop} {moved posted : S -> string -> string -> Prop} `{!WriteSinkLaws S ready moved posted}.


(** Writes to the tracker, and to the branch and its pull request. *)
Definition issue_write (e : WorkerEffect) : bool :=
  match e with
  | SetWorkingState _ _ _ | Comment _ _ _ | MoveIssue _ _ _ _ | RecordStatus _ _ _ _ | PauseMark _ => true
  | _ => false
  end.
Definition pr_write (e : WorkerEffect) : bool :=
  match e with RetargetPR _ _ | AddFooter _ | CommentPR _ _ | Push _ => true | _ => false end.
Definition branch_write (e : WorkerEffect) : bool := match e with CommitHandoff | Push _ => true | _ => false end.

Lemma effects_elem s e :
  e ∈ effects s ->
  setup_effect e \/ turn_effect e \/ finish_effect e \/ is_revoke e \/
  match e with
  | DeliverExit _ | PROpened _ _ | MarkExiting _ => True
  | MoveIssue i _ _ _ => automationRun ln = false /\ i = the_issue
  | RecordStatus _ _ _ _ | PauseMark _ => automationRun ln = false
  | _ => False
  end.
Proof.
  intros Hin. destruct (run_ends s) as [[|] _]; rewrite He in Hin.
  - apply elem_of_app in Hin as [Hin|[->|Hin]%elem_of_cons].
    + destruct (phases_elem _ _ _ _ Hp Hin) as [H|[H|H]]; auto.
    + by do 4 right.
    + destruct (revokes_elem _ _ Hr Hin) as [t ->]. do 3 right. by left.
  - apply elem_of_app in Hin as [Hin|[Hin|[Hin|[Hin|Hin]%elem_of_app]%elem_of_app]%elem_of_app].
    + destruct (phases_elem _ _ _ _ Hp Hin) as [H|[H|H]]; auto.
    + do 4 right. apply completion_elem in Hin as [Hc' Hm]. unfold completes in Hc'. facts.
      destruct Hc as (_ & _ & Hi & _). destruct e; try done. by destruct Hm as (-> & _).
    + do 4 right. rewrite !elem_of_cons in Hin. by destruct Hin as [-> | [-> | ?%elem_of_nil]].
    + do 4 right. by destruct (pr_elem _ _ _ _ _ Hin) as (u & b & ->).
    + destruct (revokes_elem _ _ Hr Hin) as [t ->]. do 3 right. by left.
Qed.

(** C31: an automation's own run writes nothing to the tracker but the branch
    the agent works on, and nothing to a pull request; a reviewer never commits
    or pushes; every write to the tracker is to the run's issue. *)
Theorem worker_writes s e :
  e ∈ effects s ->
  (automationRun ln = true -> issue_write e = false /\ pr_write e = false) /\
  (readOnlyReviewer cfg injected ln = true -> branch_write e = false) /\
  match e with
  | SetWorkingState i _ _ | Comment i _ _ | MoveIssue i _ _ _ | TrackBranch i _ => i = the_issue
  | _ => True
  end.
Proof.
  intros Hin. destruct (effects_elem s e Hin) as [H|[H|[H|[H|H]]]]; destruct e; cbn in H |- *; try done.
  all: repeat match goal with H : _ /\ _ |- _ => destruct H end; split; [|split]; (done || congruence || (intros ->; done) || idtac).
  all: intros E; rewrite E in *; done.
Qed.

(** The agent gets turns numbered from one without a gap, at most as many
    as are configured; the first continues the session the run was resumed with.
    A run that answers the agent's question has at most one turn, in the session
    that asked, and its prompt is the reply alone. *)
Theorem worker_turns s :
  let us := agent_turns (effects s) in
  us = seqZ 1 (Z.of_nat (length us)) /\ Z.of_nat (length us) <= Z.max 0 (effectiveMaxTurns ws ln) /\
  (forall t session p c, AgentTurn t session p c ∈ effects s ->
     p = prompt_of cfg injected ln /\ (t = 1 -> session = resumed_session)) /\
  (forall rx, ln_Resume ln = Some rx -> inputRequiredResume ln = true ->
     (length us <= 1)%nat /\
     (forall t session p c, AgentTurn t session p c ∈ effects s ->
        session = Some (rx_SessionID rx) /\ p = Reply (rx_UserMessage rx))).
Proof.
  assert (Hus : consecutive 1 (Z.to_nat (effectiveMaxTurns ws ln)) (agent_turns (effects s))).
  { destruct (run_ends s) as [[|] _]; pose proof Hp as (_ & _ & _ & Hn).
    - rewrite (turns_of_effects s _ _ _ _ Hp He); [done|]. intros t s' p c [?|Hin]%elem_of_cons; [done|].
      by destruct (revokes_elem _ _ Hr Hin).
    - rewrite (turns_of_effects s _ _ _ _ Hp He); [done|]. intros. by apply end_no_turns. }
  assert (Hprompt : forall t session p c, AgentTurn t session p c ∈ effects s ->
    p = prompt_of cfg injected ln /\ (t = 1 -> session = resumed_session)).
  { intros t session p c Hin. by destruct (effects_elem s _ Hin) as [|[|[|[|]]]]. }
  destruct Hus as [Hseq Hlen]. split; [done|]. split; [lia|]. split; [done|].
  intros rx Hrx Hir. assert (Hone : (length (agent_turns (effects s)) <= 1)%nat).
  { unfold effectiveMaxTurns in Hlen. by rewrite Hir in Hlen. }
  split; [done|]. intros t session p c Hin. destruct (Hprompt t session p c Hin) as [-> Hs].
  assert (t = 1) as ->.
  { apply agent_turns_elem in Hin. rewrite Hseq in Hin. apply elem_of_seqZ in Hin. lia. }
  rewrite Hs by done. unfold inputRequiredResume, hasResumeSession, hasResumeMessage in Hir. rewrite Hrx in Hir. facts.
  unfold resumed_session, first_turns, prompt_of, inputRequiredResume, hasResumeSession, hasResumeMessage. cbn. rewrite Hrx.
  by repeat match goal with H : String.eqb _ _ = false |- _ => rewrite H; clear H end.
Qed.

End Facts.

(** ** A run to evaluate the properties on

    The issue ENG-1 with a profile that requires evidence of its tests: the
    agent answers in one turn, its evidence file is stamped with the commit that
    is checked out, and the issue moves to review.  The sink is the direct one on
    a tracker that does what it is told. *)

Module Demo.

Definition issue : Issue := zero_Issue <| issue_ID := "1" |> <| issue_Identifier := "ENG-1" |> <| issue_State := "Todo" |>.
Definition cfg : Config :=
  empty_config <| cfg_Tracker := cfg_Tracker empty_config <| tracker_CompletionState := "In Review" |>
                                   <| tracker_ActiveStates := ["Todo"; "In Progress"] |> |>.
Definition settings : WorkerSettings :=
  MkWorkerSettings 3 true "In Progress" true true (fun _ => ["comment"]) (fun _ => "") (fun _ => ["tests"]) "http://daemon".

Definition answer : TurnResult :=
  zero_TurnResult <| tr_SessionID := "sess" |> <| tr_InputTokens := 10 |> <| tr_OutputTokens := 20 |>
    <| tr_AllTextBlocks := ["All done."] |> <| tr_ResultText := "All done." |>.
Definition turn : TurnEnv :=
  MkTurnEnv (Fetched issue) None None answer None None "itervox/eng-1" true false 0
    (inr [issue <| issue_State := "In Progress" |>]).
(** The second turn repeats the first one's answer. *)
Definition head : string := "0123456789abcdef0123456789abcdef01234567".
Definition evidence : EvidenceEnv :=
  MkEvidenceEnv (fun _ => Parsed (MkEvidenceFile head [MkEvidenceCheck "Tests" "go test" "ok" true]))
    (Some head) (fun _ => None) (fun _ _ => false) (fun _ _ => None) (Some "") (fun _ => inl "no gh").
Definition env : WorkerEnv :=
  MkWorkerEnv None (Some (inr (MkWorkspaceInfo "/w/ENG-1" true ""))) "" false None None true true (Some "token") "run-1"
    "/shim:/bin" (fun _ => turn) "https://example.org/pr/1" [] (fun _ => "verdict") None None (fun _ => false) evidence 0.
Definition launch : Launch := MkLaunch 0 issue 0 "" "claude" "claude" "coder" false None None None.
Definition reply : Launch :=
  MkLaunch 0 issue 0 "" "claude" "claude" "coder" false (Some (MkResumeContext "sess" "use port 80" "which port?")) None None.

Abbreviation Board := (gmap string string).
#[export] Instance sink : WriteSink (directWriteSink (T := Board)) :=
  direct_sink (fun _ i st t => (None, <[i := st]> t)) (fun _ _ _ t => (None, t)) None
    (fun _ => MkSinkCtx (fun _ => None) (fun _ => None)).
Definition start : directWriteSink (T := Board) := MkDirect ∅ 0 [].

#[export] Instance laws :
  WriteSinkLaws (directWriteSink (T := Board)) (fun _ => True) (direct_moved (fun t i st => t !! i = Some st))
    (direct_posted (fun _ _ _ => True)).
Proof.
  refine (direct_laws _ _ _ _ (fun (t : Board) i st => t !! i = Some st) (fun _ _ _ => True) _ _ _); [|done..].
  intros n i st t t' [= <-]. apply lookup_insert_eq.
Qed.

Abbreviation ran ln := (@effects _ sink (fun s => s) cfg settings false env ln start).

Lemma kept ln : ln_Issue ln = issue -> issue_kept env ln.
Proof.
  intros Hl. unfold the_issue. split; unfold the_issue; rewrite Hl.
  - intros t i [= <-]. done.
  - intros t l i [= <-] ->%list_elem_of_singleton. done.
Qed.

(** Where the move is in the run. *)
Lemma moves : MoveIssue "1" "In Review" "In Progress" true ∈ ran launch.
Proof. apply (list_elem_of_lookup_2 _ 16). vm_compute. reflexivity. Qed.

Lemma opens : PROpened "https://example.org/pr/1" "itervox/eng-1" ∈ ran launch.
Proof. apply (list_elem_of_lookup_2 _ 20). vm_compute. reflexivity. Qed.

Lemma commits : CommitHandoff ∈ ran launch.
Proof. apply (list_elem_of_lookup_2 _ 13). vm_compute. reflexivity. Qed.

End Demo.



Lemma worker_writes_witness : CommitHandoff ∈ Demo.ran Demo.launch /\ readOnlyReviewer Demo.cfg false Demo.launch <> true.
Proof.
  split; [exact Demo.commits|]. intros Hro.
  destruct (@worker_writes _ Demo.sink (fun s => s) Demo.cfg Demo.settings false Demo.env Demo.launch
              (Demo.kept Demo.launch eq_refl) Demo.start _ Demo.commits) as (_ & Hr & _).
  discriminate (Hr Hro).
Defined.

Lemma worker_turns_witness :
  agent_turns (Demo.ran Demo.launch) = [1; 2] /\ (length (agent_turns (Demo.ran Demo.reply)) <= 1)%nat.
Proof.
  split; [vm_compute; reflexivity|].
  destruct (@worker_turns _ Demo.sink (fun s => s) Demo.cfg Demo.settings false Demo.env Demo.reply
              (Demo.kept Demo.reply eq_refl) Demo.start) as (_ & _ & _ & H).
  exact (proj1 (H (MkResumeContext "sess" "use port 80" "which port?") eq_refl eq_refl)).
Defined.
