(* ===== verification/Reconcile.v ===== *)
(** * Reconcile: stopping runs that stalled or whose issue moved
    (internal/orchestrator/reconcile.go, event_loop.go 521-596)

    The reconciler cancels a worker, drops its run and sends the loop an exit.
    The exit may be lost under load; the state is already right by then. *)

From stdpp Require Import base gmap list strings.
From S2P Require Import Prelude Domain State Config Retry Dispatch Resolve BackendHealth BackendGate.
From S2P Require Import AutomationQueue Orchestrator Automation Triggers World.
From S2P Require Import RateLimited Reviews Replies Workers.

Local Open Scope Z_scope.

(** ** Stalls *)

Definition since_last_event (now : Time) (r : RunEntry) : Duration :=
  time_sub now (default (run_StartedAt r) (run_LastEventAt r)).

(** The run as the exit reports it. *)
Definition stalled_entry (r : RunEntry) : RunEntry :=
  zero_RunEntry <| run_Issue := run_Issue r |> <| run_StartedAt := run_StartedAt r |>
    <| run_TurnCount := run_TurnCount r |> <| run_TotalTokens := run_TotalTokens r |>
    <| run_InputTokens := run_InputTokens r |> <| run_OutputTokens := run_OutputTokens r |>
    <| run_SessionID := run_SessionID r |> <| run_WorkerHost := run_WorkerHost r |>
    <| run_Backend := run_Backend r |> <| run_ProfileName := run_ProfileName r |>
    <| run_TerminalReason := TerminalStalled |>.

(** Cancelling a worker and dropping its run and claim. *)
Definition stop_run (id identifier : string) (w : World) : World :=
  on_state (fun s => s <| Running := base.delete id (Running s) |> <| Claimed := Claimed s ∖ {[id]} |>)
    (on_orch (fun o => cancelAndCleanupWorker o identifier) w).

Definition schedule_after_stall (cfg : Config) (now : Time) (id identifier : string) (state : State) : State :=
  let prevAttempt := match RetryAttempts state !! id with Some re => retry_Attempt re | None => 0 end in
  ScheduleRetry state id (add64 prevAttempt 1) identifier "stall_timeout" now
    (BackoffMs (add64 prevAttempt 1) (agent_MaxRetryBackoffMs (cfg_Agent cfg))).

Definition reconcile_stall (env : Env) (stallDur : Duration) (w : World) (kv : string * RunEntry) : World :=
  let '(id, r) := kv in
  let now := env_now env in
  let i := issue_Identifier (run_Issue r) in
  if stallDur <? since_last_event now r then
    emit (SendExit id (Some (stalled_entry r)))
      (on_state (schedule_after_stall (o_cfg (w_orch w)) now id i) (stop_run id i w))
  else w.

Definition ReconcileStalls (env : Env) (w : World) : World :=
  let ms := agent_StallTimeoutMs (cfg_Agent (o_cfg (w_orch w))) in
  if ms <=? 0 then w
  else foldl (reconcile_stall env (mul64 ms Millisecond)) w (map_to_list (Running (w_state w))).

(** ** Tracker states *)

Definition isReviewState (s : string) (state : State) : bool :=
  negb (String.eqb (CompletionState state) "") && equal_fold s (CompletionState state).

Definition exit_marked (o : Orchestrator) (kv : string * RunEntry) : bool :=
  match o_exitsSent o !! kv.1 with
  | Some at_ => negb (time_before at_ (run_StartedAt kv.2))
  | None => false
  end.

Definition pendingExits (o : Orchestrator) (state : State) : gset string :=
  dom (filter (fun kv => exit_marked o kv = true) (Running state)).

Definition states_by_id (issues : list Issue) : gmap string string :=
  foldl (fun m i => <[issue_ID i := issue_State i]> m) ∅ issues.

Definition refresh_run_state (now : Time) (id refreshed : string) (state : State) : State :=
  state <| Running :=
    alter (fun r => r <| run_Issue := run_Issue r <| issue_State := refreshed |> |>
                      <| run_LastEventAt := Some now |>) id (Running state) |>.

(** The exit the reconciler sends for a run whose issue is done. *)
Definition reconciled_entry (r : RunEntry) : RunEntry :=
  zero_RunEntry <| run_Issue := run_Issue r |> <| run_Kind := run_Kind r |>
    <| run_ProfileName := run_ProfileName r |> <| run_BranchName := run_BranchName r |>
    <| run_TerminalReason := TerminalCanceledByReconciliation |>.

Definition reconcile_run (env : Env) (byID : gmap string string) (w : World) (kv : string * RunEntry) : World :=
  let '(id, r) := kv in
  let i := issue_Identifier (run_Issue r) in
  let state := w_state w in
  let keep refreshed := on_state (refresh_run_state (env_now env) id refreshed) w in
  if bool_decide (id ∈ ExitPending state) then w
  else
    match byID !! id with
    | None => emit (SendExit id None) (stop_run id i w)
    | Some refreshed =>
        if String.eqb (run_Kind r) "automation" then keep refreshed
        else if String.eqb (run_Kind r) "reviewer" && isReviewState refreshed state then keep refreshed
        else if isTerminalState refreshed state
        then emit (SendExit id (Some (reconciled_entry r))) (stop_run id i w)
        else if isActiveState refreshed state then keep refreshed
        else emit (SendExit id None) (stop_run id i w)
    end.

Definition reconcileTrackerStates (env : Env) (w : World) : World :=
  let running := map_to_list (Running (w_state w)) in
  match running with
  | [] => w
  | _ =>
      match env_by_ids env (map fst running) with
      | None => w
      | Some refreshed =>
          let w := on_state (fun s => s <| ExitPending := pendingExits (w_orch w) s |>) w in
          foldl (reconcile_run env (states_by_id refreshed)) w running
      end
  end.

(** ** Retries that are due (530-596) *)

Definition held_again (env : Env) (id : string) (e : RetryEntry) (state : State) : State :=
  match BackendLimitedHolds state !! retry_Identifier e with
  | Some hold =>
      if bool_decide (is_Some (Running state !! id)) then state
      else ScheduleRetry state id (retry_Attempt e) (retry_Identifier e) (held_error hold) (env_now env)
             (holdRetryDelay state hold (env_now env))
  | None => state
  end.

Definition fire_retry (env : Env) (w : World) (id : string) : World :=
  let now := env_now env in
  let state := w_state w in
  match RetryAttempts state !! id with
  | None => w
  | Some e =>
      let i := retry_Identifier e in
      if bool_decide (is_Some (PausedIdentifiers state !! i)) then on_state (fun s => CancelRetry s id) w
      else if bool_decide (is_Some (Running state !! id)) then w
      else if time_before now (retry_DueAt e) then w
      else
        match env_by_ids env [id] with
        | None =>
            let next := add64 (retry_Attempt e) 1 in
            on_state (fun s => ScheduleRetry s id next i "retry poll failed" now
                                 (BackoffMs next (agent_MaxRetryBackoffMs (cfg_Agent (o_cfg (w_orch w)))))) w
        | Some [] => on_state (fun s => CancelRetry s id) w
        | Some (issue :: _) =>
            if negb (isActiveState (issue_State issue) state) then on_state (fun s => CancelRetry s id) w
            else
              let w := auditFetchedIssueDependenciesAndDispatch env issue w in
              if AvailableSlots (w_state w) <=? 0 then
                on_state (fun s => ScheduleRetry s id (retry_Attempt e) i
                                     "no available orchestrator slots" now 1000) w
              else
                let w := on_state (fun s => s <| RetryAttempts := base.delete id (RetryAttempts s) |>) w in
                on_state (held_again env id e) (dispatch env issue (retry_Attempt e) w)
        end
  end.

Definition fireRetries (env : Env) (w : World) : World :=
  foldl (fire_retry env) w (map fst (map_to_list (RetryAttempts (w_state w)))).
