(* ===== verification/Events.v ===== *)
(** * Events: the event handler (internal/orchestrator/event_loop.go 1549-2215,
    2504-2512, deps_override.go 44-79, inferred_deps.go 47-59 and 130-137,
    backend_health_ops.go 41-54)

    One event at a time changes the world; some of them give the automation
    queue a pass afterwards.  Saving to disk and notifying the dashboard are
    left out. *)

From stdpp Require Import base gmap list strings.
From S2P Require Import Prelude Domain State Config Retry Dispatch Resolve BackendHealth BackendGate.
From S2P Require Import AutomationQueue StatusHistory DependencyAudit Tracker Orchestrator LimitText Failures.
From S2P Require Import Automation Triggers RefreshWorker World DependencyRefresh.
From S2P Require Import RateLimited Reviews Replies Workers Exits.

Local Open Scope Z_scope.

(** ** Events *)

Inductive Event :=
  | EventWorkerUpdate (issueID : string) (update : RunEntry) (limit : option LimitSignal)
  | EventWorkerExited (exit : Exit)
  | EventForceReanalyze (identifier : string)
  | EventResumeIssue (identifier : string)
  | EventTerminatePaused (issueID identifier : string)
  | EventTerminateRunning (identifier : string)
  | EventCancelRetry (issueID identifier : string)
  | EventProvideInput (identifier message : string)
  | EventDismissInput (identifier : string)
  | EventInputQuestionFallback (identifier : string) (entry : option InputRequiredEntry) (failed : bool)
  | EventAckFailures (identifier : string) (upTo : Time)
  | EventDiscardComplete (identifier : string) (gen : Z) (error : option PollError)
  | EventDispatchReviewer (identifier profile : string)
  | EventDispatchAutomation (issue : Issue) (automation : AutomationDispatch)
  | EventIssueStatusChanged (change : IssueStatusChange)
  | EventDependencyAuditRefreshed (result : DependencyRefreshResult)
  | EventSetDepsOverride (identifier : string) (enabled : bool)
  | EventDrain
  | EventFailureRecorded (failure : FailureRecord)
  | EventClearBackendBreaker (key : string).

Definition shouldDrainAutomationQueueAfterEvent (ev : Event) : bool :=
  match ev with
  | EventWorkerExited _ | EventResumeIssue _ | EventProvideInput _ _ | EventDismissInput _
  | EventDiscardComplete _ _ _ | EventClearBackendBreaker _ => true
  | _ => false
  end.

(** ** Progress of a run (1557-1606) *)

Definition updated_run (now : Time) (u r : RunEntry) : RunEntry :=
  let r := r <| run_LastEventAt := Some now |> in
  let r := if 0 <? run_TurnCount u then r <| run_TurnCount := run_TurnCount u |> else r in
  let r := if 0 <? run_TotalTokens u
           then r <| run_TotalTokens := run_TotalTokens u |> <| run_InputTokens := run_InputTokens u |>
                  <| run_OutputTokens := run_OutputTokens u |> else r in
  let r := if String.eqb (run_LastMessage u) "" then r else r <| run_LastMessage := run_LastMessage u |> in
  let r := if String.eqb (run_SessionID u) "" then r else r <| run_SessionID := run_SessionID u |> in
  if String.eqb (run_AgentSessionID u) "" then r else r <| run_AgentSessionID := run_AgentSessionID u |>.

Definition shows_progress (u : RunEntry) : bool :=
  (0 <? run_TurnCount u) || (0 <? run_TotalTokens u) || negb (String.eqb (run_LastMessage u) "").

Definition worker_update (env : Env) (id : string) (u : RunEntry) (limit : option LimitSignal)
    (state : State) : State :=
  match Running state !! id with
  | None => state
  | Some r =>
      let now := env_now env in
      let r := updated_run now u r in
      let answered := run_PendingInputResume r && shows_progress u in
      let r := if answered then r <| run_PendingInputResume := false |> else r in
      let i := issue_Identifier (run_Issue r) in
      let state := if answered then drop_resume i state else state in
      let state := state <| Running := <[id := r]> (Running state) |> in
      match limit with
      | None => state
      | Some _ => snd (recordBackendThrottle state (run_Backend r) (run_WorkerHost r) i limit now)
      end
  end.

(** ** Pauses (1608-1664) *)

Definition unpause (identifier : string) (state : State) : State :=
  clearPauseReason (state <| PausedIdentifiers := base.delete identifier (PausedIdentifiers state) |>)
    identifier.

Definition drop_session (identifier : string) (state : State) : State :=
  state <| PausedSessions := base.delete identifier (PausedSessions state) |>.

Definition is_paused (identifier : string) (state : State) : bool :=
  bool_decide (is_Some (PausedIdentifiers state !! identifier)).

Definition force_reanalyze (identifier : string) (state : State) : State :=
  if is_paused identifier state
  then drop_session identifier (unpause identifier state)
         <| ForceReanalyze := {[identifier]} ∪ ForceReanalyze state |>
  else state.

Definition resume_paused (identifier : string) (state : State) : State :=
  if is_paused identifier state then unpause identifier state else state.

Definition terminate_paused (env : Env) (id identifier : string) (w : World) : World :=
  if is_paused identifier (w_state w) then
    when (negb (String.eqb id "")) (asyncDiscardAndTransition env id identifier)
      (on_state (fun s => drop_session identifier (unpause identifier s)) w)
  else w.

(** The first run of the identifier that has a cancel function. *)
Definition stoppable (identifier : string) (state : State) : option nat :=
  match List.find (fun kv => String.eqb (issue_Identifier (run_Issue kv.2)) identifier
                             && bool_decide (is_Some (run_WorkerCancel kv.2)))
          (map_to_list (Running state)) with
  | Some kv => run_WorkerCancel kv.2
  | None => None
  end.

Definition terminate_running (identifier : string) (w : World) : World :=
  match stoppable identifier (w_state w) with
  | Some worker =>
      on_orch (fun o => cancel_worker
                 (o <| o_userTerminatedIDs := {[identifier]} ∪ o_userTerminatedIDs o |>) worker) w
  | None => w
  end.

(** ** Input (1712-1770) *)

Definition provide_input (env : Env) (identifier message : string) (w : World) : World :=
  match InputRequiredIssues (w_state w) !! identifier with
  | None => w
  | Some e =>
      let w := on_state (queue_resume (env_now env) identifier e message) w in
      let '(_, w) := postInputRequiredComment env (ir_IssueID e) identifier (newInputRequiredCommentKey env)
                       (MarkManagedComment message) w in
      processPendingInputResumes env w
  end.

Definition dismiss_input (identifier : string) (state : State) : State :=
  match InputRequiredIssues state !! identifier with
  | None => state
  | Some e =>
      pause identifier (ir_IssueID e) PauseReasonUserDismissedInput
        (state <| InputRequiredIssues := base.delete identifier (InputRequiredIssues state) |>)
  end.

(** ** A reviewer asked for by hand (1800-1846) *)

Definition running_as (identifier : string) (state : State) : bool :=
  existsb (fun kv => String.eqb (issue_Identifier (run_Issue kv.2)) identifier)
    (map_to_list (Running state)).

Definition reviewer_states (cfg : Config) : list string :=
  let t := cfg_Tracker cfg in
  tracker_ActiveStates t ++ tracker_TerminalStates t
  ++ (if String.eqb (tracker_CompletionState t) "" then [] else [tracker_CompletionState t]).

Definition dispatch_reviewer (env : Env) (identifier profile : string) (w : World) : World :=
  if String.eqb profile "" then w
  else if running_as identifier (w_state w) then w
  else
    match env_by_states env (reviewer_states (o_cfg (w_orch w))) with
    | None => w
    | Some issues =>
        let w := foldl (fun w i => auditFetchedIssueDependenciesAndDispatch env i w) w issues in
        match List.find (fun i => String.eqb (issue_Identifier i) identifier) issues with
        | None => w
        | Some found => dispatchReviewerForIssue env found profile w
        end
    end.

(** ** Overrides *)

Definition inferredGatingFor (e : InferredDepEntry) (enabled : bool) : bool :=
  enabled && negb (ide_BelowThreshold e) && negb (ide_Stale e) && negb (ide_Overridden e)
  && ide_SourceKnown e && negb (ide_SourceTerminal e).

Definition override_entry (gating enabled : bool) (e : InferredDepEntry) : InferredDepEntry :=
  let e := e <| ide_Overridden := enabled |> in e <| ide_Gating := inferredGatingFor e gating |>.

Definition applyDepsOverrideEvent (cfg : Config) (identifier : string) (enabled : bool) (now : Time)
    (state : State) : State :=
  state <| DepsOverrides := (if enabled then <[identifier := now]> (DepsOverrides state)
                             else base.delete identifier (DepsOverrides state)) |>
        <| InferredDeps := alter (map (override_entry (deps_InferredGating (cfg_Dependencies cfg)) enabled))
                             identifier (InferredDeps state) |>.

Definition applyClearBackendBreaker (key : string) (state : State) : State :=
  state <| BackendHealth := base.delete key (BackendHealth state) |>
        <| BackendLimitedHolds := filter (fun kv => hold_Key kv.2 <> key) (BackendLimitedHolds state) |>.

(** ** The handler *)

Section redaction.
Context (redact : string -> string).

Definition discard_complete (env : Env) (identifier : string) (gen : Z) (error : option PollError)
    (state : State) : State :=
  let now := env_now env in
  let state :=
    match DiscardingIdentifiers state !! identifier with
    | Some marker =>
        if discard_Gen marker =? gen
        then state <| DiscardingIdentifiers := base.delete identifier (DiscardingIdentifiers state) |>
        else state
    | None => state
    end in
  let state := recordTrackerWriteFailure state TrackerErrorOpUpdateState error now in
  match error with
  | None => state
  | Some e =>
      appendRecentFailure redact state
        (MkFailureRecord FailureKindTrackerWrite identifier TrackerErrorOpUpdateState (pe_Message e)
           zero_time zero_time 0) now
  end.

Definition event_body (env : Env) (ev : Event) (w : World) : World :=
  let now := env_now env in
  match ev with
  | EventWorkerUpdate id update limit => on_state (worker_update env id update limit) w
  | EventWorkerExited exit => handleExit redact env exit w
  | EventForceReanalyze i => on_state (force_reanalyze i) w
  | EventResumeIssue i => on_state (resume_paused i) w
  | EventTerminatePaused id i => terminate_paused env id i w
  | EventTerminateRunning i => terminate_running i w
  | EventCancelRetry id i =>
      on_state (fun s => pause i id PauseReasonUserCancelled (CancelRetry s id)) w
  | EventProvideInput i message => provide_input env i message w
  | EventDismissInput i => on_state (dismiss_input i) w
  | EventInputQuestionFallback i entry failed =>
      on_state (fun s => handleInputQuestionFallback s i entry failed) w
  | EventAckFailures i upTo => on_state (fun s => applyFailureAck s i upTo) w
  | EventDiscardComplete i gen error => on_state (discard_complete env i gen error) w
  | EventDispatchReviewer i profile => dispatch_reviewer env i profile w
  | EventDispatchAutomation issue automation => snd (run_dispatchOrQueue issue automation now w)
  | EventIssueStatusChanged change => on_state (fun s => appendIssueStatusChange s change now) w
  | EventDependencyAuditRefreshed result => applyDependencyRefreshResult env result w
  | EventSetDepsOverride i enabled =>
      on_state (applyDepsOverrideEvent (o_cfg (w_orch w)) i enabled now) w
  | EventDrain => on_state applyDrain w
  | EventFailureRecorded f => on_state (fun s => appendRecentFailure redact s f now) w
  | EventClearBackendBreaker key => on_state (applyClearBackendBreaker key) w
  end.

Definition handleEvent (env : Env) (ev : Event) (w : World) : World :=
  when (shouldDrainAutomationQueueAfterEvent ev) (drainAutomationQueue env) (event_body env ev w).

End redaction.
