(* ===== verification/TickViews.v ===== *)
(** * TickViews: what a tick derives from its candidates
    (internal/orchestrator/inferred_deps.go, dependency_attention.go,
    dispatch_pressure.go 70-152, candidate_seen.go 25-43, read_shedding.go 22-89,
    stacked_base.go 121-144, backend_health_ops.go 93-143)

    All of it is recomputed every tick; nothing here asks the tracker. *)

From stdpp Require Import base gmap list strings.
From Stdlib Require Import SpecFloat.
From S2P Require Import Prelude Domain State Config Dispatch TickGraph BackendHealth BackendGate Events.

Local Open Scope Z_scope.

(** ** Inferred dependencies (inferred_deps.go) *)

Record InferredEdge := MkInferredEdge {
  iedge_Source : string;
  iedge_Target : string;
  iedge_Evidence : string;
  iedge_InferredAt : Time;
  iedge_Confidence : spec_float;
}.

Definition float_one : spec_float := S754_finite false 4503599627370496 (-52).
Definition float_zero : spec_float := S754_zero false.

(** The clamped threshold and window. *)
Definition resolved_threshold (d : DependenciesConfig) : spec_float :=
  let t := deps_ConfidenceThreshold d in
  if SFltb t float_zero || SFltb float_one t then DefaultDependenciesConfidenceThreshold else t.

Definition resolved_staleness (d : DependenciesConfig) : Duration :=
  let h := deps_StalenessHours d in
  mul64 (if h <=? 0 then DefaultDependenciesStalenessHours else h) Hour.

(** A later candidate of the same identifier wins. *)
Definition candidate_states (candidates : list Issue) : gmap string string :=
  foldl (fun m c => if String.eqb (issue_Identifier c) "" then m
                    else <[issue_Identifier c := issue_State c]> m) ∅ candidates.

Definition inferred_entry (d : DependenciesConfig) (states : gmap string string)
    (overrides : gmap string Time) (state : State) (now : Time) (e : InferredEdge) : InferredDepEntry :=
  let found := states !! iedge_Source e in
  let entry := MkInferredDepEntry (iedge_Source e) (iedge_Evidence e) (iedge_Confidence e)
    (iedge_InferredAt e) (resolved_staleness d <? time_sub now (iedge_InferredAt e))
    (SFltb (iedge_Confidence e) (resolved_threshold d)) (bool_decide (is_Some found))
    (match found with Some s => isTerminalState s state | None => false end)
    (bool_decide (is_Some (overrides !! iedge_Target e))) false in
  entry <| ide_Gating := inferredGatingFor entry (deps_InferredGating d) |>.

Definition ReconcileInferredDeps (edges : list InferredEdge) (candidates : list Issue)
    (overrides : gmap string Time) (cfg : Config) (state : State) (now : Time) :
    gmap string (list InferredDepEntry) :=
  let d := cfg_Dependencies cfg in
  let entry := inferred_entry d (candidate_states candidates) overrides state now in
  foldl (fun m e => if String.eqb (iedge_Target e) "" then m
                    else <[iedge_Target e := default [] (m !! iedge_Target e) ++ [entry e]]> m) ∅ edges.

(** ** Attention (dependency_attention.go) *)

Definition audit_by_identifier (state : State) : gmap string DependencyAuditEntry :=
  foldl (fun m kv => <[(if String.eqb (da_Identifier kv.2) "" then kv.1 else da_Identifier kv.2) := kv.2]> m)
    ∅ (map_to_list (DependencyAudit state)).

Definition cycle_entries (cycles : list DependencyCycle) : gmap string DependencyAttentionEntry :=
  foldl (fun m c =>
           foldl (fun m member =>
                    <[member := MkDependencyAttentionEntry member (filter (.≠ member) (dc_Members c))
                                  (dc_DetectedAt c) "cycle"]> m) m (dc_Members c)) ∅ cycles.

(** The unresolved blockers of the audit row that have an identifier. *)
Definition tracker_blockers (row : option DependencyAuditEntry) : list string :=
  match row with
  | None => []
  | Some r => filter (.≠ "") (omap br_Identifier (da_UnresolvedBlockers r))
  end.

Definition gating_entries (state : State) (id : string) : list InferredDepEntry :=
  filter (fun e => ide_Gating e = true) (default [] (InferredDeps state !! id)).

(** The first of the earliest times; zero when there is none. *)
Definition earliest (l : list Time) : Time :=
  match l with
  | [] => zero_time
  | t :: rest => foldl (fun acc t => if time_before t acc then t else acc) t rest
  end.

Definition blocked_since (row : option DependencyAuditEntry) (gating : list InferredDepEntry) : Time :=
  let trackerSince := match row, tracker_blockers row with
                      | Some r, _ :: _ => da_FirstBlockedAt r
                      | _, _ => zero_time
                      end in
  let inferredSince := earliest (map ide_InferredAt gating) in
  if time_is_zero trackerSince then inferredSince
  else if time_is_zero inferredSince then trackerSince
  else if time_before trackerSince inferredSince then trackerSince else inferredSince.

Definition stale_entry (state : State) (audit : gmap string DependencyAuditEntry) (window : Duration)
    (now : Time) (id : string) : option DependencyAttentionEntry :=
  let row := audit !! id in
  let gating := gating_entries state id in
  let blockers : gset string :=
    list_to_set (tracker_blockers row ++ filter (.≠ "") (map ide_Source gating)) in
  let since := blocked_since row gating in
  if decide (size blockers = 0%nat) then None
  else if time_is_zero since then None
  else if time_sub now since <=? window then None
  else Some (MkDependencyAttentionEntry id (sort_strings (elements blockers)) since "stale_blocker").

Definition attention_less (a b : DependencyAttentionEntry) : bool :=
  string_less (att_Identifier a) (att_Identifier b).

Definition DeriveDependencyAttention (g : TickGraph) (cycles : list DependencyCycle) (state : State)
    (cfg : Config) (now : Time) : list DependencyAttentionEntry :=
  let windowHours := deps_EscalateBlockedAfterHours (cfg_Dependencies cfg) in
  let inCycle := cycle_entries cycles in
  let audit := audit_by_identifier state in
  let stale :=
    if 0 <? windowHours
    then omap (stale_entry state audit (mul64 windowHours Hour) now)
           (filter (fun id => inCycle !! id = None) (elements (Nodes g)))
    else [] in
  sort_stable attention_less (map snd (map_to_list inCycle) ++ stale).

(** ** Dispatch pressure (dispatch_pressure.go) *)

Definition UtilizationPercent (d : DispatchPressure) : Z :=
  if dp_SlotsCapacityTotal d <=? 0 then 0
  else Z.quot (mul64 (dp_SlotsOccupiedTotal d) 100) (dp_SlotsCapacityTotal d).

(** The reason with the slot gate neutralised. *)
Definition probe_reason (state : State) (cfg : Config) (candidates : list Issue) (issue : Issue) : string :=
  IneligibleReason issue
    (state <| MaxConcurrentAgents := running_count state + Z.of_nat (length candidates) + 1 |>) cfg.

Definition waits_for_slot (reason : string) : bool := String.eqb reason "".
Definition waits_for_blocker (reason : string) : bool :=
  has_prefix reason IneligibleBlockedByPrefix || has_prefix reason IneligibleInferredBlockedByPrefix.

Definition observeDispatchPressure (prev : DispatchPressure) (state : State) (candidates : list Issue)
    (cfg : Config) : DispatchPressure :=
  let idle := filter (fun i => Running state !! issue_ID i = None) candidates in
  let reasons := map (probe_reason state cfg candidates) idle in
  let waiting := Z.of_nat (length (filter (fun r => waits_for_slot r = true) reasons)) in
  let blocked := Z.of_nat (length (filter (fun r => waits_for_blocker r = true) reasons)) in
  let out := prev
    <| dp_TicksObserved := add64 (dp_TicksObserved prev) 1 |>
    <| dp_SlotsOccupiedTotal := add64 (dp_SlotsOccupiedTotal prev) (running_count state) |>
    <| dp_SlotsCapacityTotal := add64 (dp_SlotsCapacityTotal prev) (MaxConcurrentAgents state) |>
    <| dp_BlockedByDependency := blocked |> <| dp_EligibleWaiting := waiting |> in
  if (AvailableSlots state <=? 0) && (0 <? waiting)
  then out <| dp_TicksSlotBound := add64 (dp_TicksSlotBound out) 1 |>
  else if (0 <? AvailableSlots state) && (0 <? blocked)
  then out <| dp_TicksDependencyBound := add64 (dp_TicksDependencyBound out) 1 |>
  else out.

(** ** Candidate rows (candidate_seen.go) *)

Definition candidate_row (issue : Issue) : CandidateSeenRow :=
  MkCandidateSeenRow (issue_Identifier issue) (default zero_time (issue_UpdatedAt issue)).

Definition candidateSeenRows (issues : list Issue) : list CandidateSeenRow :=
  sort_stable (fun a b => string_less (cs_Identifier a) (cs_Identifier b))
    (map candidate_row (filter (fun i => issue_Identifier i <> "") issues)).

(** ** Read shedding (read_shedding.go)

    The tracker's rate-limit snapshot: the limit and the requests left. *)

Definition DefaultRateLimitReservePercent : Z := 10.

Definition rateLimitReservePercent (cfg : Config) : Z :=
  let pct := cfg_RateLimitReservePercent cfg in
  if (pct <? 0) || (100 <=? pct) then DefaultRateLimitReservePercent else pct.

Definition shouldShedPollingReads (snapshot : option (Z * Z)) (reservePercent : Z) : bool :=
  match snapshot with
  | None => false
  | Some (limit, remaining) =>
      if (reservePercent <=? 0) || (limit <=? 0) then false
      else remaining <? Z.quot (mul64 limit reservePercent) 100
  end.

(** ** Upkeep *)

(** stacked_base.go 121-144 *)
Definition pruneStackUnavailable (state : State) (candidates : list Issue) : State :=
  let current : gmap string string :=
    foldl (fun m i => <[issue_Identifier i := reviewStackKey i state]> m) ∅ candidates in
  state <| StackUnavailable :=
    filter (fun kv => default "" (current !! kv.1) = kv.2) (StackUnavailable state) |>.

(** backend_health_ops.go 93-143 *)
Definition configured_backends (cfg : Config) : list string :=
  let a := cfg_Agent cfg in
  let runs p := ProfileRunsBackend p (agent_Command a) in
  runs (MkAgentProfile (agent_Command a) (agent_Backend a) None)
  :: map runs (filter (fun p => ProfileEnabled p = true) (map snd (map_to_list (agent_Profiles a)))).

Definition breaker_orphaned (cfg : Config) (e : BackendHealthEntry) : bool :=
  let backends := configured_backends cfg in
  let used := filter (.≠ "") backends
              ++ (if fb_Enabled (fallback cfg) then fb_Chain (fallback cfg) else []) in
  let hostGone := negb (String.eqb (bh_Host e) "")
                  && negb (bool_decide (bh_Host e ∈ agent_SSHHosts (cfg_Agent cfg))) in
  let unused := negb (bool_decide ("" ∈ backends)) && negb (bool_decide (bh_Backend e ∈ used))
                && negb (String.eqb (bh_Status e) BackendStatusLimited) in
  hostGone || unused.

Definition pruneOrphanBreakers (cfg : Config) (state : State) : bool * State :=
  let kept := filter (fun kv => breaker_orphaned cfg kv.2 = false) (BackendHealth state) in
  (negb (bool_decide (size kept = size (BackendHealth state))),
   state <| BackendHealth := kept |>).
