(* ===== verification/Tick.v ===== *)
(** * Tick: one tick of the event loop (internal/orchestrator/event_loop.go
    138-528)

    The steps run in the order of the code.  Log-ring eviction and session-cost
    pruning are left out; saving to disk is, too. *)

From stdpp Require Import base gmap list strings.
From S2P Require Import Prelude Domain State Config Retry Dispatch Order TickGraph GraphAnalysis.
From S2P Require Import Outbox Flusher Resolve BackendHealth BackendGate AutomationQueue StatusHistory.
From S2P Require Import DependencyAudit Janitor Orchestrator LimitText Failures Automation Triggers.
From S2P Require Import World DependencyRefresh RateLimited Reviews Replies Workers Exits Reconcile.
From S2P Require Import Events TickViews.

Local Open Scope Z_scope.

(** What a tick reads besides [Env]: the candidates or the error of fetching
    them, the tracker's rate-limit snapshot, the analyzer's edges, and whether
    a write to the outbox's file succeeds. *)
Record TickEnv := MkTickEnv {
  t_env : Env;
  t_candidates : PollError + list Issue;
  t_rate : option (Z * Z);
  t_edges : list InferredEdge;
  t_io : string -> bool;
}.

(** ** Before the fetch (139-184) *)

Definition snapshot_config (cfg : Config) (state : State) : State :=
  state <| MaxConcurrentAgents := agent_MaxConcurrentAgents (cfg_Agent cfg) |>
        <| ActiveStates := tracker_ActiveStates (cfg_Tracker cfg) |>
        <| TerminalStates := tracker_TerminalStates (cfg_Tracker cfg) |>
        <| CompletionState := tracker_CompletionState (cfg_Tracker cfg) |>
        <| StackOnReviewState := stackOnReviewState cfg |>.

Definition revert_switches (cfg : Config) (now : Time) (state : State) : State :=
  let state := reclaimStuckDependencyRefresh cfg (snapshot_config cfg state) now in
  let state := snd (revertExpiredAutoSwitchesForTick cfg state now) in
  let state := snd (advanceBackendHealth state now) in
  let state := snd (pruneOrphanBreakers cfg state) in
  snd (revertBackendFallbackSwitches cfg state now).

Definition before_fetch (env : Env) (w : World) : World :=
  let w := on_state (revert_switches (o_cfg (w_orch w)) (env_now env)) w in
  reconcileTrackerStates env (ReconcileStalls env (fireRetries env w)).

(** ** The views of the candidates (229-285) *)

Definition derive_views (cfg : Config) (edges : list InferredEdge) (issues : list Issue) (now : Time)
    (state : State) : GraphMetrics * State :=
  let state := pruneStackUnavailable state issues in
  let state := state <| InferredDeps := ReconcileInferredDeps edges issues (DepsOverrides state) cfg state now |>
                     <| CandidateSeen := candidateSeenRows issues |> in
  let g := BuildTickGraph issues (InferredDeps state) state in
  let '(metrics, cycles) := ComputeTickGraphAnalysis g (DependencyCycles state) now in
  let state := state <| DependencyCycles := cycles |> in
  (metrics, state <| DependencyAttention := DeriveDependencyAttention g cycles state cfg now |>).

(** The candidates by id and by identifier (297-306). *)
Definition candidate_index (issues : list Issue) : gmap string Issue :=
  foldl (fun m i =>
           let m := if String.eqb (issue_ID i) "" then m else <[issue_ID i := i]> m in
           if String.eqb (issue_Identifier i) "" then m else <[issue_Identifier i := i]> m) ∅ issues.

(** An issue that comes back to an active state is un-paused (318-353). *)
Definition auto_resume (state : State) (issue : Issue) : State :=
  let i := issue_Identifier issue in
  if bool_decide (is_Some (PausedIdentifiers state !! i)) && negb (bool_decide (i ∈ PrevActiveIdentifiers state))
  then unpause i state else state.

Definition identifiers (issues : list Issue) : gset string := list_to_set (map issue_Identifier issues).

(** ** Dispatching (378-452) *)

Definition dispatch_sort (cfg : Config) (metrics : GraphMetrics) (issues : list Issue) : list Issue :=
  let ordering := deps_Ordering (cfg_Dependencies cfg) in
  if String.eqb ordering DependenciesOrderingSimple then SortForDispatch issues
  else if String.eqb ordering DependenciesOrderingCriticalPathStrict
  then SortForDispatchCriticalPathStrict issues metrics
  else SortForDispatchCriticalPath issues metrics.

Definition dispatch_candidate (env : Env) (w : World) (issue : Issue) : World :=
  let i := issue_Identifier issue in
  let w := on_state (fun s => clearBackendHold s i) w in
  if negb (IsEligible issue (w_state w) (o_cfg (w_orch w))) then w
  else
    match recoverInputRequired env issue with
    | Some entry =>
        input_required_automations env issue (Some entry) None (on_state (fun s => set_input s i entry) w)
    | None => dispatch env issue 0 w
    end.

Fixpoint dispatch_loop (env : Env) (issues : list Issue) (w : World) : World :=
  match issues with
  | [] => w
  | issue :: rest =>
      if AvailableSlots (w_state w) <=? 0 then w
      else dispatch_loop env rest (dispatch_candidate env w issue)
  end.

(** ** The janitor's pass (454-520) *)

Definition buildTerminalIdentifierSet (state : State) : gset string :=
  list_to_set (map fst (filter (fun kv => kv.2 <> "" /\ isTerminalState kv.2 state = true)
                          (map_to_list (PrevIssueStates state)))).

Definition janitor_pass (cfg : Config) (injected currentActive prevActive : gset string) (now : Time)
    (state : State) : State :=
  let state := snd (pruneRateLimitedMaps cfg state now) in
  let state := snd (pruneIssueStatusHistory state currentActive now issueStatusHistoryRetention) in
  let state := snd (pruneTerminalDependencyAudit state) in
  let terminal := buildTerminalIdentifierSet state in
  let state := snd (pruneTerminalRuntimeLedgers state terminal now) in
  let state := snd (pruneAbsentTrackerIssues state currentActive prevActive now) in
  let state := snd (expireDiscardMarkers state now) in
  let state := pruneFailureAcks state in
  snd (pruneReviewLedgers state (untrackedIdentifierPredicate terminal currentActive prevActive)
         (reviewMidChainPredicate state injected)).

Definition observe_pressure (cfg : Config) (issues : list Issue) (state : State) : State :=
  if Draining state then state
  else state <| Pressure := observeDispatchPressure (Pressure state) state issues cfg |>.

(** ** The tick *)

Section redaction.
Context (redact : string -> string).

(** The tick after a successful fetch; [issues] carry the outbox's overlay. *)
Definition after_fetch (t : TickEnv) (issues : list Issue) (syncing : gset string) (w : World) : World :=
  let env := t_env t in
  let now := env_now env in
  let cfg := o_cfg (w_orch w) in
  let w := on_state (fun s => s <| OutboxSyncing := syncing |>) w in
  let '(metrics, state) := derive_views cfg (t_edges t) issues now (w_state w) in
  let w := w <| w_state := state |> in
  let w := foldl (fun w i => auditFetchedIssueDependenciesAndDispatch env i w) w issues in
  let w := reconcileDependencyRefresh env w in
  let currentActive := identifiers issues in
  let w := on_state (fun s => foldl auto_resume s issues) w in
  let prevActive := PrevActiveIdentifiers (w_state w) in
  let w := on_state (fun s => s <| PrevActiveIdentifiers := currentActive |>) w in
  let w := checkTrackerReplies env w in
  let w := processPendingInputResumes env w in
  let w := resumePendingReviews env w in
  let w := drain_with_candidates (candidate_index issues) env w in
  let w := dispatch_loop env (dispatch_sort cfg metrics issues) w in
  let w := on_state (observe_pressure cfg issues) w in
  on_state (janitor_pass cfg (o_reviewerInjectedProfiles (w_orch w)) currentActive prevActive now) w.

Definition onTick (t : TickEnv) (w : World) (outbox : option Outbox) : World * option Outbox :=
  let env := t_env t in
  let now := env_now env in
  let cfg := o_cfg (w_orch w) in
  let w := before_fetch env w in
  if shouldShedPollingReads (t_rate t) (rateLimitReservePercent cfg)
  then (processPendingInputResumes env w, outbox)
  else
    match t_candidates t with
    | inl err => (on_state (fun s => recordPollFailure redact s err now) w, outbox)
    | inr issues =>
        let w := on_state (fun s => recordPollSuccess s now) w in
        let '(issues, outbox, syncing) := reconcileAndOverlayOutbox (t_io t) issues outbox in
        (after_fetch t issues syncing w, outbox)
    end.

End redaction.
