(* ===== verification/Lifecycle.v ===== *)
(** * Lifecycle: an abstract machine of claims, retries and workers

    What the event loop promises about an issue is told by few things: whether
    it has a run, a claim or a retry, which workers were started for it, which
    of them are cancelled, and whether the daemon drains.  [Life] is that view
    of a [World]; [move] is what may happen to it.  [evolves] relates two worlds
    when the second is reached by moves, and is what the handlers are shown to
    satisfy.

    The development uses the machine twice.  With [strict] false a start has
    the one guard that the daemon is not draining.  With [strict] true a worker
    is started only for an idle issue, and the handlers are held to that under
    the naming of issues ([Names]). *)

From stdpp Require Import base gmap list strings relations.
From S2P Require Import Prelude Domain State Config Orchestrator Automation World.

(** ** The view *)

Record Life := MkLife {
  lf_runs : gset string;
  lf_claimed : gset string;
  lf_retries : gset string;
  lf_cancels : gmap string nat;  (** identifier to registered worker *)
  lf_cancelled : gset nat;
  lf_next : nat;
  lf_draining : bool;
  lf_requested : bool;
  lf_started : list (nat * string);  (** worker and issue id, oldest first *)
}.

#[export] Instance eta_Life : Settable Life := {|
  eta_record l := MkLife (lf_runs l) (lf_claimed l) (lf_retries l) (lf_cancels l) (lf_cancelled l)
    (lf_next l) (lf_draining l) (lf_requested l) (lf_started l) |}.

Definition started_by (e : Effect) : option (nat * string) :=
  match e with Spawn l => Some (ln_Worker l, issue_ID (ln_Issue l)) | _ => None end.

Definition life (w : World) : Life :=
  MkLife (dom (Running (w_state w))) (Claimed (w_state w)) (dom (RetryAttempts (w_state w)))
    (o_workerCancels (w_orch w)) (o_cancelled (w_orch w)) (o_nextWorker (w_orch w))
    (Draining (w_state w)) (o_drainRequested (w_orch w)) (omap started_by (w_effects w)).

(** A worker that was started for the issue and is not cancelled. *)
Definition live (l : Life) (id : string) (n : nat) : Prop :=
  (n, id) ∈ lf_started l /\ (n ∉ lf_cancelled l).

Definition idle (l : Life) (id : string) : Prop :=
  (id ∉ lf_runs l) /\ (id ∉ lf_retries l) /\ forall n, ~ live l id n.

(** ** The moves *)

(** The run is filed under [id], the cancel function under [identifier], and the
    worker is given the issue [issue]. *)
Definition start (id identifier issue : string) (l : Life) : Life :=
  l <| lf_runs := {[id]} ∪ lf_runs l |> <| lf_claimed := {[id]} ∪ lf_claimed l |>
    <| lf_cancels := <[identifier := lf_next l]> (lf_cancels l) |> <| lf_next := S (lf_next l) |>
    <| lf_started := lf_started l ++ [(lf_next l, issue)] |>.

Definition cancel (identifier : string) (l : Life) : Life :=
  match lf_cancels l !! identifier with
  | None => l
  | Some n => l <| lf_cancels := base.delete identifier (lf_cancels l) |>
                <| lf_cancelled := {[n]} ∪ lf_cancelled l |>
  end.

Section Machine.
Context (strict : Prop) (N : string -> string).

Inductive move : Life -> Life -> Prop :=
  | move_drain l : lf_requested l = true -> move l (l <| lf_draining := true |>)
  | move_start l id identifier issue :
      lf_draining l = false -> (strict -> identifier = N id /\ issue = id /\ idle l id) ->
      move l (start id identifier issue l)
  | move_claim l id : move l (l <| lf_claimed := {[id]} ∪ lf_claimed l |>)
  | move_release l id : (strict -> idle l id) -> move l (l <| lf_claimed := lf_claimed l ∖ {[id]} |>)
  | move_retry l id : (strict -> (id ∉ lf_runs l) /\ forall n, ~ live l id n) ->
      move l (l <| lf_retries := {[id]} ∪ lf_retries l |> <| lf_claimed := {[id]} ∪ lf_claimed l |>)
  | move_forget l R : R ⊆ lf_retries l -> move l (l <| lf_retries := R |>)
  | move_cancel l identifier : move l (cancel identifier l)
  | move_signal l n : move l (l <| lf_cancelled := {[n]} ∪ lf_cancelled l |>)
  | move_drop l id : move l (l <| lf_runs := lf_runs l ∖ {[id]} |>).

Definition moves : Life -> Life -> Prop := rtc move.

(** ** The invariant

    Runs and retries are claimed and exclude each other; a live worker holds
    the cancel function registered under its issue's identifier, and its issue
    is claimed and waits for no retry. *)
Record Inv (l : Life) : Prop := {
  inv_runs : lf_runs l ⊆ lf_claimed l;
  inv_retries : lf_retries l ⊆ lf_claimed l;
  inv_apart : lf_runs l ## lf_retries l;
  inv_live : forall id n, live l id n ->
    lf_cancels l !! N id = Some n /\ (id ∈ lf_claimed l) /\ (id ∉ lf_retries l);
}.

Lemma fresh_idle l id : Inv l -> (id ∉ lf_claimed l) -> idle l id.
Proof.
  intros [Hr Ht _ Hl] Hid. split_and!; [set_solver|set_solver|].
  intros n Hn%Hl. tauto.
Qed.

Lemma retry_idle l id : Inv l -> (id ∈ lf_retries l) -> (id ∉ lf_runs l) /\ forall n, ~ live l id n.
Proof. intros [_ _ Ha Hl] Hid. split; [set_solver|]. intros n Hn%Hl. tauto. Qed.

Lemma inv_one l id n m : Inv l -> live l id n -> live l id m -> n = m.
Proof. intros HI [Hn _]%(inv_live l HI) [Hm _]%(inv_live l HI). congruence. Qed.

Lemma live_start l id identifier issue id' n :
  live (start id identifier issue l) id' n -> live l id' n \/ (n = lf_next l /\ id' = issue).
Proof.
  intros [Hin Hc]. cbn in Hin, Hc. rewrite elem_of_app, list_elem_of_singleton in Hin.
  destruct Hin as [Hin|[= -> ->]]; [left; by split|by right].
Qed.

Lemma live_cancel l identifier id n :
  live (cancel identifier l) id n ->
  live l id n /\ lf_cancels l !! identifier <> Some n.
Proof.
  unfold cancel, live. destruct (lf_cancels l !! identifier) as [m|]; [|by intros [? ?]].
  cbn. intros [Hin Hc]. split; [set_solver|]. intros [= ->]. set_solver.
Qed.

Lemma cancel_frame identifier l :
  lf_runs (cancel identifier l) = lf_runs l /\ lf_claimed (cancel identifier l) = lf_claimed l /\
  lf_retries (cancel identifier l) = lf_retries l /\
  (forall i, i <> identifier -> lf_cancels (cancel identifier l) !! i = lf_cancels l !! i).
Proof.
  unfold cancel. destruct (lf_cancels l !! identifier); cbn; split_and!; try done.
  intros i Hi. by rewrite lookup_delete_ne.
Qed.

(** After its identifier is cancelled an issue has no live worker. *)
Lemma cancelled_none l id : Inv l -> forall n, ~ live (cancel (N id) l) id n.
Proof. intros HI n [Hn Hne]%live_cancel. by apply (inv_live l HI) in Hn as [? _]. Qed.

Context (Ninj : forall a b, N a = N b -> a = b).

Lemma start_inv l id : Inv l -> idle l id -> Inv (start id (N id) id l).
Proof.
  intros [Hr Ht Ha Hl] (Hi1 & Hi2 & Hi3). constructor; cbn; [set_solver..|].
  intros id' n [Hn|[-> ->]]%live_start.
  - destruct (decide (id' = id)) as [->|Hne]; [by apply Hi3 in Hn|].
    destruct (Hl _ _ Hn) as (? & ? & ?). split_and!; [|set_solver|done].
    rewrite lookup_insert_ne; [done|]. intros E. by apply Hne, Ninj.
  - rewrite lookup_insert_eq. split_and!; [done|set_solver|done].
Qed.

Lemma move_inv l l' : strict -> move l l' -> Inv l -> Inv l'.
Proof.
  intros Hs Hm HI. pose proof HI as [Hr Ht Ha Hl].
  destruct Hm as [l _|l id i x _ Hg|l id|l id Hg|l id Hg|l R HR|l i|l n|l id].
  - constructor; [exact Hr|exact Ht|exact Ha|exact Hl].
  - destruct (Hg Hs) as (-> & -> & ?). by apply start_inv.
  - constructor; cbn; [set_solver..|]. intros id' n Hn.
    destruct (Hl id' n Hn) as (? & ? & ?). split_and!; [done|set_solver|done].
  - destruct (Hg Hs) as (Hi1 & Hi2 & Hi3). constructor; cbn; [set_solver..|]. intros id' n Hn.
    destruct (Hl id' n Hn) as (? & ? & ?). split_and!; [done| |done].
    destruct (decide (id' = id)) as [->|]; [by apply Hi3 in Hn|set_solver].
  - destruct (Hg Hs) as (Hi1 & Hi3). constructor; cbn; [set_solver..|]. intros id' n Hn.
    destruct (Hl id' n Hn) as (? & ? & ?). split_and!; [done|set_solver|].
    destruct (decide (id' = id)) as [->|]; [by apply Hi3 in Hn|set_solver].
  - constructor; cbn; [set_solver..|]. intros id' n Hn.
    destruct (Hl id' n Hn) as (? & ? & ?). split_and!; [done|done|set_solver].
  - destruct (cancel_frame i l) as (Er & Ec & Et & Eo).
    constructor; rewrite ?Er, ?Ec, ?Et; [done..|]. intros id' n [Hn Hne]%live_cancel.
    destruct (Hl id' n Hn) as (Hc & ? & ?). split_and!; [|done|done].
    rewrite Eo; [done|]. intros E. by rewrite <- E in Hne.
  - constructor; cbn; [done..|]. intros id' n' [Hin Hc]. apply Hl. split; [done|]. cbn in Hc. set_solver.
  - constructor; cbn; [set_solver..|]. exact Hl.
Qed.

Lemma moves_inv l l' : strict -> moves l l' -> Inv l -> Inv l'.
Proof. intros Hs. induction 1; [done|]. intros. eauto using move_inv. Qed.

End Machine.

(** While the daemon drains no move starts a worker. *)
Lemma move_draining strict N l l' :
  move strict N l l' -> lf_draining l = true ->
  lf_draining l' = true /\ lf_started l' = lf_started l /\ lf_runs l' ⊆ lf_runs l.
Proof.
  intros Hm H. destruct Hm as [l _|l id i x Hd _|l id|l id _|l id _|l R HR|l i|l n|l id]; cbn.
  1, 3-6, 8-9: split_and!; [done|done|set_solver].
  - congruence.
  - destruct (cancel_frame i l) as (-> & _). unfold cancel. by case_match.
Qed.

Lemma moves_draining strict N l l' :
  moves strict N l l' -> lf_draining l = true ->
  lf_draining l' = true /\ lf_started l' = lf_started l /\ lf_runs l' ⊆ lf_runs l.
Proof.
  induction 1 as [|l1 l2 l3 Hm _ IH]; intros Hd; [done|].
  destruct (move_draining _ _ _ _ Hm Hd) as (Hd2 & Hs & Hr).
  destruct (IH Hd2) as (? & ? & ?). split_and!; [done|congruence|set_solver].
Qed.

Lemma moves_requested strict N l l' : moves strict N l l' -> lf_requested l' = lf_requested l.
Proof.
  induction 1 as [|l1 l2 l3 Hm _ IH]; [done|]. rewrite IH. destruct Hm; try done.
  unfold cancel. by case_match.
Qed.

(** Only a requested drain starts. *)
Lemma moves_open strict N l l' :
  moves strict N l l' -> lf_requested l = false -> lf_draining l = false -> lf_draining l' = false.
Proof.
  induction 1 as [|l1 l2 l3 Hm _ IH]; [done|]. intros Hr Hd.
  apply IH; destruct Hm; cbn; try done; try congruence; unfold cancel; by case_match.
Qed.

(** ** Worlds *)

Section Worlds.
Context (strict : Prop) (N : string -> string) (Ninj : forall a b, N a = N b -> a = b).

(** An issue carries the identifier of its id. *)
Definition named (i : Issue) : Prop := issue_Identifier i = N (issue_ID i).

Record Names (s : State) : Prop := {
  nm_runs : forall id r, Running s !! id = Some r -> named (run_Issue r) /\ issue_ID (run_Issue r) = id;
  nm_queue : forall k e, AutomationQueue s !! k = Some e -> named (aq_Issue e);
  nm_input : forall i e, InputRequiredIssues s !! i = Some e -> i = N (ir_IssueID e);
  nm_resume : forall i e, PendingInputResumes s !! i = Some e -> i = N (pir_IssueID e);
}.

Definition Good (w : World) : Prop := Names (w_state w) /\ Inv N (life w).

Record evolves (w w' : World) : Prop := {
  ev_moves : moves strict N (life w) (life w');
  ev_names : strict -> Good w -> Names (w_state w');
}.

Lemma evolves_good w w' : evolves w w' -> strict -> Good w -> Good w'.
Proof.
  intros [Hm Hn] Hs HG. split; [by apply Hn|]. destruct HG as [_ HI].
  exact (moves_inv strict N Ninj _ _ Hs Hm HI).
Qed.

Lemma evolves_refl w : evolves w w.
Proof. split; [apply rtc_refl|by intros _ []]. Qed.

Lemma evolves_trans w1 w2 w3 : evolves w1 w2 -> evolves w2 w3 -> evolves w1 w3.
Proof.
  intros H1 H2. split; [etransitivity; [apply H1|apply H2]|].
  intros Hs HG. apply H2; [done|]. by eapply evolves_good.
Qed.

(** Two steps, the second under what the first has kept. *)
Lemma evolves_bind w1 w2 w3 :
  (strict -> Good w1) -> evolves w1 w2 -> ((strict -> Good w2) -> evolves w2 w3) -> evolves w1 w3.
Proof.
  intros HG H1 H2. eapply evolves_trans; [exact H1|]. apply H2. intros Hs.
  by eapply evolves_good; eauto.
Qed.

Lemma evolves_foldl {A} (f : World -> A -> World) (P : A -> Prop) l w :
  (forall w a, P a -> (strict -> Good w) -> evolves w (f w a)) ->
  (forall a, a ∈ l -> P a) -> (strict -> Good w) -> evolves w (foldl f w l).
Proof.
  intros Hf. revert w. induction l as [|a l IH]; intros w Hl HG; cbn [foldl]; [apply evolves_refl|].
  eapply evolves_bind; [exact HG|apply Hf; [apply Hl; constructor|exact HG]|].
  intros HG'. apply IH; [|exact HG']. intros b Hb. apply Hl. by constructor.
Qed.

Lemma evolves_when b f w : evolves w (f w) -> evolves w (when b f w).
Proof. destruct b; [done|]. intros _. apply evolves_refl. Qed.

Lemma evolves_move w w' :
  move strict N (life w) (life w') -> (strict -> Good w -> Names (w_state w')) -> evolves w w'.
Proof. intros Hm Hn. split; [by apply rtc_once|done]. Qed.

(** The part of the state the view and the names read. *)
Definition core (s : State) :=
  (Running s, Claimed s, RetryAttempts s, AutomationQueue s, InputRequiredIssues s,
   PendingInputResumes s, Draining s).

Definition orch_core (o : Orchestrator) :=
  (o_workerCancels o, o_cancelled o, o_nextWorker o, o_drainRequested o).

Lemma names_maps s s' :
  Running s' = Running s -> AutomationQueue s' = AutomationQueue s ->
  InputRequiredIssues s' = InputRequiredIssues s -> PendingInputResumes s' = PendingInputResumes s ->
  Names s -> Names s'.
Proof.
  intros Hr Hq Hi Hp [? ? ? ?]. constructor; rewrite ?Hr, ?Hq, ?Hi, ?Hp; assumption.
Qed.

Lemma names_core s s' : core s' = core s -> Names s -> Names s'.
Proof. unfold core. intros [= Hr Hc Ht Hq Hi Hp Hd]. by apply names_maps. Qed.

Lemma evolves_same w w' :
  core (w_state w') = core (w_state w) -> orch_core (w_orch w') = orch_core (w_orch w) ->
  omap started_by (w_effects w') = omap started_by (w_effects w) -> evolves w w'.
Proof.
  intros Hs Ho He. split; [|intros _ [? _]; by eapply names_core].
  replace (life w') with (life w); [apply rtc_refl|].
  unfold core, orch_core in *. injection Hs as Hr Hc Ht Hq Hi Hp Hd. injection Ho as H1 H2 H3 H4.
  unfold life. congruence.
Qed.

Lemma evolves_state f w : core (f (w_state w)) = core (w_state w) -> evolves w (on_state f w).
Proof. intros H. by apply evolves_same. Qed.

Lemma evolves_orch f w : orch_core (f (w_orch w)) = orch_core (w_orch w) -> evolves w (on_orch f w).
Proof. intros H. by apply evolves_same. Qed.

Lemma evolves_emit e w : started_by e = None -> evolves w (emit e w).
Proof. intros H. apply evolves_same; [done|done|]. cbn. rewrite omap_app. cbn. by rewrite H, app_nil_r. Qed.

End Worlds.

#[export] Hint Resolve evolves_refl : core.
