(* ===== verification/Frames.v ===== *)
(** * Frames: helpers that leave runs, claims, retries, queue and questions alone

    The rewrite database [frames] holds, for each such function, that the part of
    the state the lifecycle view reads ([core]) is what it was. *)

From stdpp Require Import base gmap list strings.
From S2P Require Import Prelude Domain State Config Retry Dispatch Resolve BackendHealth BackendGate.
From S2P Require Import AutomationQueue StatusHistory DependencyAudit Janitor Tracker Orchestrator LimitText.
From S2P Require Import Failures Automation Triggers World DependencyRefresh RateLimited Reviews Replies.
From S2P Require Import Workers Exits Reconcile Events TickViews Tick Lifecycle.

Local Open Scope Z_scope.

Create Rewrite HintDb frames.

Ltac framed := repeat (case_match; try done); done.

Lemma gate_only_core s s' : gate_only s s' -> core s' = core s.
Proof. by intros (bh & holds & ->). Qed.

(** ** Backends *)

Lemma core_gate cfg s req now : core (snd (gateDispatch cfg s req now)) = core s.
Proof. apply gate_only_core, gate_dispatch_only. Qed.

Lemma core_admit s key i now : core (snd (admitBackendKey s key i now)) = core s.
Proof. apply gate_only_core, gate_only_admit_key. Qed.

Lemma core_clear_hold s i : core (clearBackendHold s i) = core s.
Proof. apply gate_only_core, gate_only_clear. Qed.

Lemma core_set_hold s i h : core (setBackendHold s i h) = core s.
Proof. apply gate_only_core, gate_only_hold. Qed.

Lemma core_settle s live i reason : core (snd (settleBackendProbe s live i reason)) = core s.
Proof. unfold settleBackendProbe. framed. Qed.

Lemma core_limit cfg s b h i limit now : core (snd (recordBackendLimit cfg s b h i limit now)) = core s.
Proof. unfold recordBackendLimit. framed. Qed.

Lemma core_throttle s b h i limit now : core (snd (recordBackendThrottle s b h i limit now)) = core s.
Proof. unfold recordBackendThrottle. framed. Qed.

Lemma core_advance s now : core (snd (advanceBackendHealth s now)) = core s.
Proof. unfold advanceBackendHealth. framed. Qed.

Lemma core_orphans cfg s : core (snd (pruneOrphanBreakers cfg s)) = core s.
Proof. unfold pruneOrphanBreakers. framed. Qed.

Lemma core_clear_breaker key s : core (applyClearBackendBreaker key s) = core s.
Proof. reflexivity. Qed.

(** ** Switches *)

Lemma core_allow cfg s id now : core (snd (allowRateLimitSwitch cfg s id now)) = core s.
Proof. unfold allowRateLimitSwitch. framed. Qed.

Lemma core_claim_cap cfg s id now : core (snd (claimRateLimitCapComment cfg s id now)) = core s.
Proof. unfold claimRateLimitCapComment. framed. Qed.

Lemma core_record_switch s id now : core (recordRateLimitSwitch s id now) = core s.
Proof. reflexivity. Qed.

Lemma core_cooldown s key until : core (setRateLimitCooldown s key until) = core s.
Proof. reflexivity. Qed.

Lemma core_auto_switch cfg issue now run rule s : core (record_auto_switch cfg issue now run rule s) = core s.
Proof. reflexivity. Qed.

Lemma core_clear_switch s i : core (clearAutoSwitch s i) = core s.
Proof. reflexivity. Qed.

Lemma core_clear_switches l s : core (foldl clearAutoSwitch s l) = core s.
Proof. revert s. induction l as [|i l IH]; intros s; [done|]. cbn. by rewrite IH. Qed.

Lemma core_switch_success cfg i now s : core (clear_switch_on_success cfg i now s) = core s.
Proof. unfold clear_switch_on_success. framed. Qed.

Lemma core_revert_expired cfg s now : core (snd (revertExpiredAutoSwitchesForTick cfg s now)) = core s.
Proof.
  unfold revertExpiredAutoSwitchesForTick, RevertExpiredAutoSwitches.
  repeat (case_match; try done). cbn. apply core_clear_switches.
Qed.

Lemma core_prune_switches cfg s now : core (snd (pruneRateLimitedMaps cfg s now)) = core s.
Proof. unfold pruneRateLimitedMaps. framed. Qed.

(** ** Reviews, pauses, history, failures *)

Lemma core_pending_review s issue profile now : core (recordPendingReview s issue profile now) = core s.
Proof. unfold recordPendingReview. framed. Qed.

Lemma core_clear_review s i : core (clearPendingReview s i) = core s.
Proof. reflexivity. Qed.

Lemma core_advance_chain s i p v chain q now : core (snd (AdvanceReviewChain s i p v chain q now)) = core s.
Proof. unfold AdvanceReviewChain. framed. Qed.

Lemma core_reset_chain s i : core (ResetReviewChain s i) = core s.
Proof. reflexivity. Qed.

Lemma core_pause i id reason s : core (pause i id reason s) = core s.
Proof. unfold pause, setPauseReason. framed. Qed.

Lemma core_unpause i s : core (unpause i s) = core s.
Proof. reflexivity. Qed.

Lemma core_drop_session i s : core (drop_session i s) = core s.
Proof. reflexivity. Qed.

Lemma core_reanalyze i s : core (force_reanalyze i s) = core s.
Proof. unfold force_reanalyze. framed. Qed.

Lemma core_resume_paused i s : core (resume_paused i s) = core s.
Proof. unfold resume_paused. framed. Qed.

Lemma core_keep_session cfg issue live s : core (keep_session cfg issue live s) = core s.
Proof. unfold keep_session. framed. Qed.

Lemma core_auto_resume s issue : core (auto_resume s issue) = core s.
Proof. unfold auto_resume. framed. Qed.

Lemma core_auto_resumes l s : core (foldl auto_resume s l) = core s.
Proof. revert s. induction l as [|i l IH]; intros s; [done|]. cbn. by rewrite IH, core_auto_resume. Qed.

Lemma core_status_change s c now : core (appendIssueStatusChange s c now) = core s.
Proof. unfold appendIssueStatusChange. framed. Qed.

Lemma core_observed s issue now wall : core (recordObservedIssueState s issue now wall) = core s.
Proof. unfold recordObservedIssueState. repeat (case_match; try done); apply core_status_change. Qed.

Lemma core_failure redact s f now : core (appendRecentFailure redact s f now) = core s.
Proof. reflexivity. Qed.

Lemma core_worker_failure redact cfg s entry err attempt now :
  core (recordWorkerFailure redact cfg s entry err attempt now) = core s.
Proof. unfold recordWorkerFailure. framed. Qed.

Lemma core_ack s i upTo : core (applyFailureAck s i upTo) = core s.
Proof. unfold applyFailureAck. framed. Qed.

Lemma core_transport cfg msg s : core (count_transport cfg msg s) = core s.
Proof. unfold count_transport. framed. Qed.

Lemma core_poll_failure redact s err now : core (recordPollFailure redact s err now) = core s.
Proof. unfold recordPollFailure. framed. Qed.

Lemma core_poll_success s now : core (recordPollSuccess s now) = core s.
Proof. unfold recordPollSuccess. framed. Qed.

Lemma core_write_failure s op err now : core (recordTrackerWriteFailure s op err now) = core s.
Proof. unfold recordTrackerWriteFailure. framed. Qed.

Lemma core_discard_complete redact env i gen err s : core (discard_complete redact env i gen err s) = core s.
Proof. unfold discard_complete. repeat case_match; cbn; rewrite ?core_failure, ?core_write_failure; done. Qed.

Lemma core_discarding s i now : core (snd (markDiscarding s i now)) = core s.
Proof. reflexivity. Qed.

Lemma core_override cfg i b now s : core (applyDepsOverrideEvent cfg i b now s) = core s.
Proof. reflexivity. Qed.

(** ** The dependency refresh, the views and the sweeps *)

Lemma core_reclaim cfg s now : core (reclaimStuckDependencyRefresh cfg s now) = core s.
Proof. unfold reclaimStuckDependencyRefresh. framed. Qed.

Lemma core_select s now interval n : core (snd (selectDependencyRefreshBatch s now interval n)) = core s.
Proof. unfold selectDependencyRefreshBatch. framed. Qed.

Lemma core_landed result s : core (landed result s) = core s.
Proof. unfold landed. cbn zeta. case_match; reflexivity. Qed.

Lemma core_set_audit f s : core (set_audit f s) = core s.
Proof. reflexivity. Qed.

Lemma core_views cfg edges issues now s : core (snd (derive_views cfg edges issues now s)) = core s.
Proof. unfold derive_views. cbn zeta. case_match. reflexivity. Qed.

Lemma core_pressure cfg issues s : core (observe_pressure cfg issues s) = core s.
Proof. unfold observe_pressure. framed. Qed.

Lemma core_prune_history s active now r : core (snd (pruneIssueStatusHistory s active now r)) = core s.
Proof. unfold pruneIssueStatusHistory. framed. Qed.

Lemma core_prune_audit s : core (snd (pruneTerminalDependencyAudit s)) = core s.
Proof. reflexivity. Qed.

Lemma core_expire s now : core (snd (expireDiscardMarkers s now)) = core s.
Proof. reflexivity. Qed.

Lemma core_prune_acks s : core (pruneFailureAcks s) = core s.
Proof. reflexivity. Qed.

Lemma core_prune_reviews s u m : core (snd (pruneReviewLedgers s u m)) = core s.
Proof. reflexivity. Qed.

Lemma core_snapshot cfg s : core (snapshot_config cfg s) = core s.
Proof. reflexivity. Qed.

Lemma revert_step_core cfg now acc r : core (snd (revert_step cfg now acc r)) = core (snd acc).
Proof. unfold revert_step. destruct acc. framed. Qed.

Lemma core_revert_fallback cfg s now : core (snd (revertBackendFallbackSwitches cfg s now)) = core s.
Proof.
  unfold revertBackendFallbackSwitches. repeat (case_match; try done).
  match goal with |- core (snd (foldl _ ?a ?l)) = _ =>
    enough (forall acc, core (snd (foldl (revert_step cfg now) acc l)) = core (snd acc)) as Hl by (by rewrite Hl);
    induction l as [|r l' IH]; intros acc; [done|]; cbn [foldl]; by rewrite IH, revert_step_core end.
Qed.

Lemma core_revert_switches cfg now s : core (revert_switches cfg now s) = core s.
Proof.
  unfold revert_switches. cbn zeta.
  by rewrite core_revert_fallback, core_orphans, core_advance, core_revert_expired, core_reclaim.
Qed.

Lemma core_audit_row s issue now : core (snd (auditIssueDependencies s issue now)) = core s.
Proof. unfold auditIssueDependencies. cbn zeta. case_match; reflexivity. Qed.

(** ** Dispatching *)

Lemma core_dispatch_gate o s issue p profile host now :
  core (snd (dispatch_gate o s issue p profile host now)) = core s.
Proof.
  unfold dispatch_gate. pose proof (core_allow (o_cfg o) s (issue_ID issue) now) as H.
  destruct (allowRateLimitSwitch _ _ _ _) as [allowed pruned]. cbn [snd] in H. cbn zeta.
  rewrite core_gate. by destruct (_ && _).
Qed.

Lemma core_unpause_recovered s issue d : core (unpause_recovered s issue d) = core s.
Proof. unfold unpause_recovered. framed. Qed.

Lemma core_claim_pr s issue d : core (snd (claimPROpenedDedup s issue d)) = core s.
Proof. unfold claimPROpenedDedup. framed. Qed.

Lemma core_backpressure s : core (refreshAutomationQueueBackpressure s) = core s.
Proof. unfold refreshAutomationQueueBackpressure. framed. Qed.

Lemma core_rejected s d issue reason now : core (recordAutomationQueueRejected s d issue reason now) = core s.
Proof. unfold recordAutomationQueueRejected. cbn zeta. repeat (case_match; try done); apply core_backpressure. Qed.

#[export] Hint Rewrite core_gate core_admit core_clear_hold core_set_hold core_settle core_limit
  core_throttle core_advance core_orphans core_clear_breaker core_allow core_claim_cap core_record_switch
  core_cooldown core_auto_switch core_clear_switch core_switch_success core_revert_expired
  core_prune_switches core_pending_review core_clear_review core_advance_chain core_reset_chain
  core_pause core_unpause core_drop_session core_reanalyze core_resume_paused core_keep_session
  core_auto_resumes core_status_change core_observed core_failure core_worker_failure core_ack
  core_transport core_poll_failure core_poll_success core_write_failure core_discard_complete
  core_discarding core_override core_reclaim core_select core_landed core_set_audit core_views
  core_pressure core_prune_history core_prune_audit core_expire core_prune_acks core_prune_reviews
  core_snapshot core_revert_fallback core_revert_switches core_audit_row core_dispatch_gate
  core_unpause_recovered core_claim_pr core_backpressure core_rejected : frames.

(** [core (f s) = core s] by the database. *)
Ltac same_core := autorewrite with frames; reflexivity.

(** ** Changes of the queue

    [requeued P s s']: only the queue may differ, and an entry of the new queue
    is for an issue of the old one or for one that satisfies [P]. *)
Definition rest (s : State) :=
  (Running s, Claimed s, RetryAttempts s, InputRequiredIssues s, PendingInputResumes s, Draining s).

Definition known (P : Issue -> Prop) (s : State) (i : Issue) : Prop :=
  P i \/ exists k e, AutomationQueue s !! k = Some e /\ aq_Issue e = i.

Definition requeued (P : Issue -> Prop) (s s' : State) : Prop :=
  rest s' = rest s /\ forall k e, AutomationQueue s' !! k = Some e -> known P s (aq_Issue e).

Section Requeued.
Context (P : Issue -> Prop).

Lemma known_here s k e : AutomationQueue s !! k = Some e -> known P s (aq_Issue e).
Proof. right. eauto. Qed.

Lemma requeued_core s s' : core s' = core s -> requeued P s s'.
Proof.
  unfold core, requeued, rest. intros [= E1 E2 E3 E4 E5 E6 E7]. split; [congruence|].
  rewrite E4. intros k e He. right. eauto.
Qed.

Lemma requeued_refl s : requeued P s s.
Proof. by apply requeued_core. Qed.

Lemma known_trans s1 s2 i : requeued P s1 s2 -> known P s2 i -> known P s1 i.
Proof. intros [_ Hq] [Hi|(k & e & He & <-)]; [by left|eauto]. Qed.

Lemma requeued_trans s1 s2 s3 : requeued P s1 s2 -> requeued P s2 s3 -> requeued P s1 s3.
Proof.
  intros H1 [E2 H2]. split; [rewrite E2; apply H1|].
  intros k e He. eapply known_trans; [exact H1|eauto].
Qed.

(** A change of the queue map alone. *)
Lemma requeued_queue s s' :
  rest s' = rest s ->
  (forall k e, AutomationQueue s' !! k = Some e -> known P s (aq_Issue e)) -> requeued P s s'.
Proof. done. Qed.

Lemma requeued_update s id e : known P s (aq_Issue e) -> requeued P s (update_entry s id e).
Proof. intros H. split; [done|]. intros k e'. unfold update_entry. cbn.
  intros [[<- <-]|[_ ?]]%lookup_insert_Some; [done|by eapply known_here].
Qed.

Lemma requeued_remove s id : requeued P s (removeAutomationQueueEntry s id).
Proof. split; [done|]. intros k e. cbn. intros [_ ?]%lookup_delete_Some. by eapply known_here. Qed.

Lemma requeued_enqueue s issue d reason now :
  P issue -> requeued P s (snd (enqueueAutomation s issue d reason now)).
Proof.
  intros HP. destruct (enqueueAutomation s issue d reason now) as [ok s'] eqn:E. cbn [snd].
  split.
  - unfold enqueueAutomation in E. cbn zeta in E. repeat case_match; injection E as _ <-; reflexivity.
  - intros k e He. apply enqueue_cases in E as
      (_ & [(e0 & e' & _ & _ & Eq & _ & _ & _ & _ & _ & Ei)|[(e' & _ & _ & _ & Eq & _ & _ & _ & _ & Ei)|(_ & _ & _ & [Eq _] & _)]]);
      rewrite Eq in He; try (apply lookup_insert_Some in He as [[_ <-]|[_ He]]).
    all: try by eapply known_here. all: left; by rewrite Ei.
Qed.

Lemma refresh_queued_issue issue audit now e :
  aq_Issue (refresh_queued issue audit now e) = aq_Issue e \/ aq_Issue (refresh_queued issue audit now e) = issue.
Proof. unfold refresh_queued. repeat case_match; auto. Qed.

Lemma requeued_audit s issue now wall :
  P issue -> requeued P s (snd (auditFetchedIssueDependencies s issue now wall)).
Proof.
  intros HP. unfold auditFetchedIssueDependencies. cbn zeta.
  pose proof (core_audit_row (recordObservedIssueState s issue now wall) issue now) as Hc.
  destruct (auditIssueDependencies _ _ _) as [row s1]. cbn [snd] in *. rewrite core_observed in Hc.
  apply (requeued_trans _ s1); [by apply requeued_core|]. split; [done|].
  intros k e. cbn. rewrite lookup_fmap_Some. intros (e0 & <- & He0).
  destruct (refresh_queued_issue issue row now e0) as [-> | ->]; [by eapply known_here|by left].
Qed.

Lemma refresh_requeued env s id e out s' :
  AutomationQueue s !! id = Some e ->
  (forall fetch key i, de_tracker env = Some fetch -> fetch key = Fetched i -> P i) ->
  refreshQueuedAutomationIssue env s id e = (out, s') ->
  requeued P s s' /\ forall i, out = Some i -> known P s i.
Proof.
  intros He HP. pose proof (known_here _ _ _ He) as Hk. unfold refreshQueuedAutomationIssue.
  destruct (de_tracker env) as [fetch|] eqn:Ef; [|intros [= <- <-]; split; [apply requeued_refl|by intros i [= <-]]].
  destruct (if negb _ then _ else _) as [key|];
    [|intros [= <- <-]; split; [apply requeued_refl|by intros i [= <-]]].
  destruct (fetch key) as [i|msg|msg|] eqn:Ek; intros [<- <-]%pair_equal_spec; (split; [|intros i' [=]]).
  - apply requeued_update. left. eauto.
  - subst i'. left. eauto.
  - eapply requeued_trans; [|apply requeued_remove]. by apply requeued_update.
  - by apply requeued_update.
  - by apply requeued_update.
Qed.

Lemma resolve_requeued env s id e interval budget out budget' s' :
  AutomationQueue s !! id = Some e ->
  (forall fetch key i, de_tracker env = Some fetch -> fetch key = Fetched i -> P i) ->
  (forall k i, de_candidates env !! k = Some i -> P i) ->
  resolveQueuedAutomationIssue env s id e interval budget = (out, budget', s') ->
  requeued P s s' /\ forall i b, out = Some (i, b) -> known P s i.
Proof.
  intros He HP HC. pose proof (known_here _ _ _ He) as Hk. unfold resolveQueuedAutomationIssue.
  destruct (lookupCandidate _ _) as [hint|] eqn:Eh.
  { intros [= <- <- <-]. assert (P hint) as Hh.
    { unfold lookupCandidate in Eh. repeat case_match; simplify_eq; eauto. }
    split; [apply requeued_update; by left|]. intros i b [= <- <-]. by left. }
  destruct (_ && _); [intros [= <- <- <-]; split; [apply requeued_refl|by intros i b [= <- <-]]|].
  destruct (budget <=? 0); [intros [= <- <- <-]; split; [apply requeued_refl|by intros i b [= <- <-]]|].
  destruct (refreshQueuedAutomationIssue env s id e) as [[i|] s1] eqn:E; intros [= <- <- <-];
    (eapply refresh_requeued in E as [? Hi]; [|done|done]); (split; [done|]); [|done].
  intros i' b [= <- <-]. eauto.
Qed.
End Requeued.
