(* ===== verification/Handlers.v ===== *)
(** * Handlers: every handler of the loop moves the lifecycle machine

    One lemma per operation: from a world it leads to one it [evolves] into.
    Hypotheses under [strict] say that the issues an operation is given carry
    the identifier of their id. *)

From stdpp Require Import base gmap list strings relations.
From S2P Require Import Prelude Domain State Config Retry Dispatch Resolve BackendHealth BackendGate.
From S2P Require Import AutomationQueue StatusHistory DependencyAudit Janitor Tracker Orchestrator LimitText.
From S2P Require Import Failures Automation Triggers RefreshWorker World DependencyRefresh RateLimited Reviews.
From S2P Require Import Replies Workers Exits Reconcile Events TickViews Tick Lifecycle Frames.

Local Open Scope Z_scope.

Section Handlers.
Context (strict : Prop) (N : string -> string) (Ninj : forall a b, N a = N b -> a = b).

Local Abbreviation Good := (Good N).
Local Abbreviation evolves := (evolves strict N).
Local Abbreviation named := (named N).

(** ** Starting a worker *)

Lemma evolves_started w w' id identifier issue :
  life w' = start id identifier issue (life w) -> Draining (w_state w) = false ->
  (strict -> identifier = N id /\ issue = id /\ idle (life w) id /\ Names N (w_state w')) -> evolves w w'.
Proof.
  intros El Hd H. apply evolves_move; [|intros Hs _; by apply H].
  rewrite El. apply move_start; [done|]. intros Hs. destruct (H Hs) as (? & ? & ? & _). done.
Qed.

(** An issue without a claim is idle. *)
Lemma unclaimed_idle w id :
  Good w -> (id ∉ Claimed (w_state w)) -> idle (life w) id.
Proof. intros [_ HI] H. by eapply fresh_idle. Qed.

Lemma names_run s id r :
  Names N s -> named (run_Issue r) -> issue_ID (run_Issue r) = id ->
  Names N (s <| Claimed := {[id]} ∪ Claimed s |> <| Running := <[id := r]> (Running s) |>).
Proof.
  intros [Hr ? ? ?] Hn Hid. constructor; cbn; [|assumption..].
  intros id' r' [[<- <-]|[? ?]]%lookup_insert_Some; [done|eauto].
Qed.

Lemma select_host_core o hosts strategy s h o' :
  selectWorkerHost o hosts strategy s = (h, o') -> orch_core o' = orch_core o.
Proof. unfold selectWorkerHost. repeat case_match; by intros [= <- <-]. Qed.

Lemma evolves_claim id w : evolves w (on_state (fun s => s <| Claimed := {[id]} ∪ Claimed s |>) w).
Proof.
  apply evolves_move; [apply (move_claim strict N (life w))|].
  intros _ [H _]. by apply (names_maps N (w_state w)).
Qed.

(** A sync that leaves slots did nothing. *)
Lemma sync_open o s :
  (AvailableSlots (syncDrainRequest o s) <=? 0) = false -> syncDrainRequest o s = s /\ Draining s = false.
Proof.
  intros H. apply available_open in H as (Hd & Hq & _). split; [|done].
  rewrite sync_spec, Hd, Hq. clear Hq. destruct s as [dr]. cbn in Hd |- *. rewrite Hd. reflexivity.
Qed.

Lemma evolves_sync w : evolves w (on_state (syncDrainRequest (w_orch w)) w).
Proof.
  unfold on_state. rewrite sync_spec.
  destruct (Draining (w_state w) || o_drainRequested (w_orch w)) eqn:E.
  - destruct (Draining (w_state w)) eqn:Hd.
    + apply evolves_same; [|done..]. unfold core. cbn. by rewrite Hd.
    + apply evolves_move; [|intros _ [H _]; by apply (names_maps N (w_state w))].
      by apply (move_drain strict N (life w)).
  - apply orb_false_iff in E as [E _]. apply evolves_same; [|done..].
    unfold core. cbn. by rewrite E.
Qed.

(** ** Automations *)

Definition launches (out : StartOutcome) : list Launch :=
  match out with Started l => from_option_launch l | _ => [] end.

Lemma spawn_none w o s :
  core s = core (w_state w) -> orch_core o = orch_core (w_orch w) ->
  evolves w (spawn_all [] (MkWorld o s (w_effects w))).
Proof. intros Hs Ho. apply evolves_same; [done|done|]. cbn. by rewrite app_nil_r. Qed.

Lemma spawn_one w o s id identifier (l : Launch) :
  core s = core (w_state w) -> orch_core o = orch_core (w_orch w) -> Draining s = false ->
  ln_Worker l = o_nextWorker o ->
  (strict -> identifier = N id /\ issue_ID (ln_Issue l) = id /\ idle (life w) id) ->
  forall r, (strict -> Good w) -> (strict -> named (run_Issue r) /\ issue_ID (run_Issue r) = id) ->
  evolves w
    (spawn_all [l]
       (MkWorld (snd (registerWorker o identifier))
          (s <| Claimed := {[id]} ∪ Claimed s |> <| Running := <[id := r]> (Running s) |>) (w_effects w))).
Proof.
  intros Hs Ho Hd Hl Hg r HG Hr. unfold core, orch_core in *.
  injection Hs as E1 E2 E3 E4 E5 E6 E7. injection Ho as F1 F2 F3 F4.
  apply (evolves_started _ _ id identifier (issue_ID (ln_Issue l))).
  - unfold life, start. cbn. rewrite omap_app. cbn. rewrite Hl, E1, E2, E3, E7, F1, F2, F3, F4, dom_insert_L. done.
  - congruence.
  - intros HS. destruct (Hg HS) as (? & ? & ?), (Hr HS) as [? ?]. split_and!; [done..|].
    cbn. apply names_run; [|done|done]. destruct (HG HS) as [? _].
    apply (names_maps N (w_state w)); done.
Qed.

Lemma start_auto_evolves w issue now d out o s :
  startAutomationRunOrHold (w_orch w) (w_state w) issue now d = (out, o, s) ->
  (strict -> Good w) -> (strict -> named issue) ->
  evolves w (spawn_all (launches out) (MkWorld o s (w_effects w))).
Proof.
  unfold startAutomationRunOrHold. intros E HG Hn.
  destruct (String.eqb _ ""); [injection E as <- <- <-; by apply spawn_none|].
  destruct (bool_decide (is_Some _)); [injection E as <- <- <-; by apply spawn_none|].
  destruct (bool_decide (_ ∈ _)) eqn:Hc; [injection E as <- <- <-; by apply spawn_none|].
  apply bool_decide_eq_false in Hc. cbn zeta in E.
  destruct (AvailableSlots _ <=? 0) eqn:Hslots.
  { injection E as <- <- <-. eapply evolves_trans; [exact Ninj|apply evolves_sync|].
    by apply (spawn_none (on_state (syncDrainRequest (w_orch w)) w)). }
  apply sync_open in Hslots as [Es Hd]. rewrite Es in E.
  destruct (agent_Profiles _ !! _) as [profile|]; [|injection E as <- <- <-; by apply spawn_none].
  destruct (negb (ProfileEnabled profile)); [injection E as <- <- <-; by apply spawn_none|].
  destruct (selectWorkerHost _ _ _ _) as [h o1] eqn:Hh.
  apply select_host_core in Hh as Ho.
  match type of E with context [gateDispatch ?c ?s ?r ?n] =>
    pose proof (core_gate c s r n) as Hs2; destruct (gateDispatch c s r n) as [gate s2] end.
  cbn [snd] in Hs2. destruct (gr_held gate); [injection E as <- <- <-; by apply spawn_none|].
  cbn zeta in E. destruct (o_DryRun o1).
  { injection E as <- <- <-. eapply evolves_trans; [exact Ninj|by apply (spawn_none w o1 s2)|].
    apply (evolves_claim (issue_ID issue) (spawn_all [] (MkWorld o1 s2 (w_effects w)))). }
  injection E as <- <- <-. apply spawn_one; try done.
  - injection Hs2 as E1 E2 E3 E4 E5 E6 E7. congruence.
  - intros HS. split; [by apply Hn|]. split; [done|]. by apply unclaimed_idle; [apply HG|].
  - intros HS. split; [by apply Hn|done].
Qed.

Lemma spawn_requeued P w o s :
  requeued P (w_state w) s -> orch_core o = orch_core (w_orch w) ->
  (strict -> forall i, P i -> named i) -> evolves w (spawn_all [] (MkWorld o s (w_effects w))).
Proof.
  intros [Hr Hq] Ho HP. unfold rest, orch_core in *. injection Hr as E1 E2 E3 E4 E5 E6.
  injection Ho as F1 F2 F3 F4. split.
  - match goal with |- moves _ _ _ ?l => replace l with (life w); [apply rtc_refl|] end.
    unfold life. cbn. rewrite app_nil_r. congruence.
  - intros HS [[Hr' Hq' Hi Hp] _]. cbn. constructor; rewrite ?E1, ?E4, ?E5; try done.
    intros k e He. destruct (Hq k e He) as [HPi|(k0 & e0 & He0 & <-)]; [by apply HP|by eapply Hq'].
Qed.

Lemma evolves_requeued P w s :
  requeued P (w_state w) s -> (strict -> forall i, P i -> named i) -> evolves w (w <| w_state := s |>).
Proof.
  intros Hr HP. pose proof (spawn_requeued P w (w_orch w) s Hr eq_refl HP) as H.
  unfold spawn_all in H. cbn in H. rewrite app_nil_r in H. exact H.
Qed.

Lemma dispatch_or_queue_evolves w issue d now out o s :
  dispatchOrQueueAutomation (w_orch w) (w_state w) issue d now = (out, o, s) ->
  (strict -> Good w) -> (strict -> named issue) ->
  evolves w (spawn_all (from_option_launch (do_launch out)) (MkWorld o s (w_effects w))).
Proof.
  unfold dispatchOrQueueAutomation, enqueue_outcome. intros E HG Hn.
  pose proof (core_claim_pr (w_state w) issue d) as Hc.
  destruct (claimPROpenedDedup (w_state w) issue d) as [fresh s1]. cbn [snd] in Hc.
  assert (Hq : forall reason, requeued (eq issue) (w_state w) (snd (enqueueAutomation s1 issue d reason now))).
  { intros reason. eapply requeued_trans; [by apply requeued_core|by apply requeued_enqueue]. }
  assert (HP : strict -> forall i, issue = i -> named i) by (intros HS i <-; auto).
  destruct (negb fresh); [injection E as <- <- <-; by apply spawn_none|].
  destruct (negb (String.eqb _ "")); [injection E as <- <- <-; by apply spawn_none|].
  destruct (_ && _).
  { injection E as <- <- <-. by apply (spawn_requeued (eq issue)). }
  assert (Hu : core (unpause_recovered s1 issue d) = core (w_state w)) by (by rewrite core_unpause_recovered).
  set (s2 := unpause_recovered s1 issue d) in *. clearbody s2.
  assert (Hq2 : forall reason, requeued (eq issue) (w_state w) (snd (enqueueAutomation s2 issue d reason now))).
  { intros reason. eapply requeued_trans; [by apply requeued_core|by apply requeued_enqueue]. }
  destruct (negb (String.eqb _ "")).
  { destruct (IsQueueableAutomationReason _); injection E as <- <- <-;
      [by apply (spawn_requeued (eq issue))|by apply spawn_none]. }
  destruct (startAutomationRunOrHold (w_orch w) s2 issue now d) as [[outcome o1] s3] eqn:Est.
  assert (H2 : evolves w (MkWorld (w_orch w) s2 (w_effects w))) by (by apply evolves_same).
  assert (H3 : evolves (MkWorld (w_orch w) s2 (w_effects w)) (spawn_all (launches outcome) (MkWorld o1 s3 (w_effects w)))).
  { refine (start_auto_evolves (MkWorld (w_orch w) s2 (w_effects w)) issue now d outcome o1 s3 Est _ Hn).
    intros HS. exact (evolves_good _ _ Ninj _ _ H2 HS (HG HS)). }
  destruct outcome as [| |l]; injection E as <- <- <-;
    (eapply evolves_trans; [exact Ninj|exact H2|]); [exact H3| |exact H3].
  eapply evolves_trans; [exact Ninj|exact H3|]. cbn [launches from_option_launch].
  set (w3 := spawn_all [] (MkWorld o1 s3 (w_effects w))).
  assert (H4 : evolves w3 (spawn_all [] (MkWorld o1 (snd (enqueueAutomation s3 issue d
    AutomationQueueReasonBackendLimited now)) (w_effects w3)))).
  { apply (spawn_requeued (eq issue) w3); [by apply requeued_enqueue|done|done]. }
  unfold w3, spawn_all in H4 |- *. cbn in H4 |- *. rewrite !app_nil_r in *. exact H4.
Qed.

Lemma run_dispatch_evolves issue d now w :
  (strict -> Good w) -> (strict -> named issue) -> evolves w (snd (run_dispatchOrQueue issue d now w)).
Proof.
  intros HG Hn. unfold run_dispatchOrQueue.
  destruct (dispatchOrQueueAutomation _ _ _ _ _) as [[out o] s] eqn:E. by eapply dispatch_or_queue_evolves.
Qed.

(** ** The queue drain *)

Definition pass_world (effects : list Effect) (p : Pass) : World :=
  spawn_all (pass_launches p) (MkWorld (pass_orch p) (pass_state p) effects).

(** What the drain reads names issues properly. *)
Definition drain_named (env : DrainEnv) : Prop :=
  (forall fetch key i, de_tracker env = Some fetch -> fetch key = Fetched i -> named i) /\
  (forall k i, de_candidates env !! k = Some i -> named i).

Lemma pass_requeued P effects p s budget :
  requeued P (pass_state p) s -> (strict -> forall i, P i -> named i) ->
  evolves (pass_world effects p) (pass_world effects (MkPass (pass_orch p) s budget (pass_launches p))).
Proof. intros Hr HP. by apply (evolves_requeued P (pass_world effects p) s). Qed.

Lemma pass_started effects p o s budget out :
  evolves (pass_world effects p)
    (spawn_all (launches out) (MkWorld o s (w_effects (pass_world effects p)))) ->
  evolves (pass_world effects p)
    (pass_world effects (MkPass o s budget (pass_launches p ++ launches out))).
Proof.
  intros H. unfold pass_world, spawn_all in *. cbn in *. rewrite map_app, app_assoc. exact H.
Qed.

Lemma drain_eligible_evolves effects env p id issue d stop p' :
  drain_eligible env p id issue d = (stop, p') ->
  (strict -> Good (pass_world effects p)) -> (strict -> named issue) ->
  evolves (pass_world effects p) (pass_world effects p').
Proof.
  unfold drain_eligible. cbn zeta. intros E HG Hn.
  set (P := fun i : Issue => False). assert (HP : strict -> forall i, P i -> named i) by done.
  destruct (AutomationQueue (pass_state p) !! id) as [e|] eqn:He;
    [|injection E as <- <-; apply evolves_refl].
  pose proof (known_here P _ _ _ He) as Hk.
  destruct (negb (String.eqb _ "")).
  { destruct (updateAutomationQueueEntryReason e _ _) as [e'|] eqn:Eu; injection E as <- <-.
    - apply (pass_requeued P); [|done]. apply requeued_update.
      unfold updateAutomationQueueEntryReason in Eu. destruct (automationQueueableReason _) as [[q detail]|]; [|done].
      by injection Eu as <-.
    - apply (pass_requeued P); [apply requeued_remove|done]. }
  match type of E with context [update_entry _ id ?x] => set (e2 := x) in E end.
  assert (Hk2 : known P (pass_state p) (aq_Issue e2)) by exact Hk.
  destruct (startAutomationRunOrHold _ _ _ _ _) as [[outcome o] s] eqn:Est.
  set (p2 := MkPass (pass_orch p) (update_entry (pass_state p) id e2) (pass_budget p) (pass_launches p)).
  assert (H2 : evolves (pass_world effects p) (pass_world effects p2)).
  { apply (pass_requeued P); [by apply requeued_update|done]. }
  assert (H3 : evolves (pass_world effects p2)
    (pass_world effects (MkPass o s (pass_budget p) (pass_launches p ++ launches outcome)))).
  { apply (pass_started effects p2 o s (pass_budget p) outcome). refine (start_auto_evolves (pass_world effects p2) issue (de_now env) d outcome o s Est _ Hn).
    intros HS. exact (evolves_good _ _ Ninj _ _ H2 HS (HG HS)). }
  eapply evolves_trans; [exact Ninj|exact H2|]. eapply evolves_trans; [exact Ninj|exact H3|].
  assert (He2 : known P s (aq_Issue e2)).
  { apply start_spec in Est as [(_ & _ & _ & [Eq _] & _) _]. apply (known_here P s id).
    rewrite Eq. unfold update_entry. cbn. apply lookup_insert_eq. }
  set (p3 := MkPass o s (pass_budget p) (pass_launches p ++ launches outcome)).
  assert (Hup : forall e3, aq_Issue e3 = aq_Issue e2 -> evolves (pass_world effects p3)
    (pass_world effects (MkPass o (update_entry s id e3) (pass_budget p) (pass_launches p ++ launches outcome)))).
  { intros e3 E3. apply (pass_requeued P effects p3); [|done]. apply requeued_update. by rewrite E3. }
  assert (Hrm : forall i, evolves (pass_world effects p3)
    (pass_world effects (MkPass o (removeAutomationQueueEntry s i) (pass_budget p) (pass_launches p ++ launches outcome)))).
  { intros i. apply (pass_requeued P effects p3); [apply requeued_remove|done]. }
  destruct outcome as [| |l].
  - destruct (AvailableSlots s <=? 0); injection E as <- <-; [by apply Hup|apply Hrm].
  - injection E as <- <-. by apply Hup.
  - injection E as <- <-. apply Hrm.
Qed.

Lemma drain_entry_evolves effects env interval p id stop p' :
  drain_entry env interval p id = (stop, p') ->
  (strict -> Good (pass_world effects p)) -> (strict -> drain_named env) ->
  evolves (pass_world effects p) (pass_world effects p').
Proof.
  unfold drain_entry. cbn zeta. intros E HG Hn.
  destruct (_ <=? 0); [injection E as <- <-; apply evolves_refl|].
  destruct (AutomationQueue (pass_state p) !! id) as [e|] eqn:He; [|injection E as <- <-; apply evolves_refl].
  destruct (negb (String.eqb _ "")).
  { injection E as <- <-. apply (pass_requeued (fun _ => False)); [apply requeued_remove|done]. }
  set (P := fun i => exists fetch key k, (de_tracker env = Some fetch /\ fetch key = Fetched i) \/ de_candidates env !! k = Some i).
  assert (HP : strict -> forall i, P i -> named i).
  { intros HS i (fetch & key & k & [[? ?]|?]); destruct (Hn HS) as [H1 H2]; eauto. }
  destruct (resolveQueuedAutomationIssue _ _ _ _ _ _) as [[out budget] s] eqn:Er.
  eapply (resolve_requeued P) in Er as [Hr Hk]; [|exact He|..].
  2: { intros fetch key i Hf Hi. exists fetch, key, "". by left. }
  2: { intros k i Hi. exists (fun _ => FetchNil), (ByID ""), k. by right. }
  pose proof (pass_requeued P effects p s budget Hr HP) as H1.
  destruct out as [[issue refreshed]|]; [|injection E as <- <-; exact H1].
  specialize (Hk issue refreshed eq_refl).
  assert (Hni : strict -> named issue).
  { intros HS. destruct Hk as [Hi|(k & e0 & He0 & <-)]; [by apply HP|].
    destruct (HG HS) as [Hnm _]. by apply (nm_queue N _ Hnm k). }
  eapply evolves_trans; [exact Ninj|exact H1|].
  match type of E with drain_eligible _ (MkPass _ ?x _ _) _ _ _ = _ => set (s2 := x) in E end.
  set (p1 := MkPass (pass_orch p) s budget (pass_launches p)).
  assert (H2 : evolves (pass_world effects p1) (pass_world effects (MkPass (pass_orch p) s2 budget (pass_launches p)))).
  { unfold s2. destruct refreshed; [|apply evolves_refl].
    apply (pass_requeued (eq issue) effects p1); [by apply requeued_audit|by intros HS i <-; auto]. }
  eapply evolves_trans; [exact Ninj|exact H2|].
  eapply drain_eligible_evolves; [exact E| |exact Hni].
  intros HS. eapply evolves_good; [exact Ninj|exact H2|exact HS|].
  eapply evolves_good; [exact Ninj|exact H1|exact HS|]. by apply HG.
Qed.

Lemma drain_loop_evolves effects env interval ids p :
  (strict -> Good (pass_world effects p)) -> (strict -> drain_named env) ->
  evolves (pass_world effects p) (pass_world effects (drain_loop env interval p ids)).
Proof.
  revert p. induction ids as [|id ids IH]; intros p HG Hn; cbn [drain_loop]; [apply evolves_refl|].
  destruct (drain_entry env interval p id) as [stop p'] eqn:E.
  eapply (drain_entry_evolves effects) in E as H; [|exact HG|exact Hn].
  destruct stop; [exact H|]. eapply evolves_trans; [exact Ninj|exact H|]. apply IH; [|exact Hn].
  intros HS. exact (evolves_good _ _ Ninj _ _ H HS (HG HS)).
Qed.

Lemma drain_evolves candidates env w :
  (strict -> Good w) -> (strict -> drain_named (env_drain env <| de_candidates := candidates |>)) ->
  evolves w (drain_with_candidates candidates env w).
Proof.
  intros HG Hn. unfold drain_with_candidates, drainAutomationQueueWithCandidates. cbn zeta.
  set (p := MkPass _ _ _ _).
  assert (H1 : evolves w (pass_world (w_effects w) p)) by (by apply spawn_none).
  eapply evolves_trans; [exact Ninj|exact H1|]. apply (drain_loop_evolves (w_effects w)); [|exact Hn].
  intros HS. exact (evolves_good _ _ Ninj _ _ H1 HS (HG HS)).
Qed.

(** ** Dispatchers and audits *)

Lemma dispatch_all_evolves issue now ds w :
  (strict -> Good w) -> (strict -> named issue) ->
  evolves w (after_dispatches w (dispatch_all issue now ds (w_orch w) (w_state w))).
Proof.
  intros HG Hn. unfold dispatch_all.
  set (F := fun '(outs, o, state) d => _).
  enough (forall ds outs o s,
    evolves w (after_dispatches w (outs, o, s)) ->
    evolves w (after_dispatches w (foldl F (outs, o, s) ds))) as H.
  { apply H. unfold after_dispatches. cbn. by apply spawn_none. }
  clear ds. intros ds. induction ds as [|d ds IH]; intros outs o s H; [exact H|]. cbn [foldl].
  unfold F at 2. destruct (dispatchOrQueueAutomation o s issue d now) as [[out o1] s1] eqn:E.
  apply IH. eapply evolves_trans; [exact Ninj|exact H|].
  assert (H2 : evolves (after_dispatches w (outs, o, s)) (spawn_all (from_option_launch (do_launch out))
    (MkWorld o1 s1 (w_effects (after_dispatches w (outs, o, s)))))).
  { refine (dispatch_or_queue_evolves (after_dispatches w (outs, o, s)) issue d now out o1 s1 E _ Hn).
    intros HS. exact (evolves_good _ _ Ninj _ _ H HS (HG HS)). }
  unfold after_dispatches, spawn_all in H2 |- *. cbn in H2 |- *.
  rewrite map_app, concat_app, map_app. cbn. rewrite app_nil_r, app_assoc. exact H2.
Qed.

Lemma no_dispatch w : evolves w (after_dispatches w ([], w_orch w, w_state w)).
Proof. by apply spawn_none. Qed.

Lemma run_failed_evolves env issue msg attempt w :
  (strict -> Good w) -> (strict -> named issue) -> evolves w (run_failed_automations env issue msg attempt w).
Proof. intros HG Hn. by apply dispatch_all_evolves. Qed.

Lemma blockers_resolved_evolves env issue audit w :
  (strict -> Good w) -> (strict -> named issue) -> evolves w (blockers_resolved_automations env issue audit w).
Proof.
  intros HG Hn. unfold blockers_resolved_automations, dispatchMatchingBlockersResolvedAutomations.
  case_match; [apply no_dispatch|by apply dispatch_all_evolves].
Qed.

Lemma input_required_evolves env issue entry prev w :
  (strict -> Good w) -> (strict -> named issue) -> evolves w (input_required_automations env issue entry prev w).
Proof.
  intros HG Hn. unfold input_required_automations, dispatchMatchingInputRequiredAutomations.
  destruct entry as [e|]; [|apply no_dispatch].
  destruct (self_reentry prev); [by apply spawn_none|by apply dispatch_all_evolves].
Qed.

(** A change the view does not see. *)
Lemma evolves_unseen f w :
  let s := w_state w in
  dom (Running (f s)) = dom (Running s) -> Claimed (f s) = Claimed s ->
  dom (RetryAttempts (f s)) = dom (RetryAttempts s) -> Draining (f s) = Draining s ->
  (strict -> Names N s -> Names N (f s)) -> evolves w (on_state f w).
Proof.
  cbn zeta. intros Hr Hc Ht Hd Hn. split; [|intros HS [Hnm _]; by apply Hn].
  match goal with |- moves _ _ _ ?l => replace l with (life w); [apply rtc_refl|] end.
  unfold life. cbn. congruence.
Qed.

Lemma names_input s i e :
  i = N (ir_IssueID e) -> Names N s -> Names N (set_input s i e).
Proof.
  intros Hi [? ? Hin ?]. constructor; cbn; try assumption.
  intros i' e' [[<- <-]|[_ ?]]%lookup_insert_Some; [done|by apply Hin].
Qed.

Lemma set_input_evolves i e w :
  (strict -> i = N (ir_IssueID e)) -> evolves w (on_state (fun s => set_input s i e) w).
Proof. intros Hi. apply evolves_unseen; try done. intros HS. by apply names_input, Hi. Qed.

Lemma mark_conflict_unseen env s issue :
  let s' := markRestackConflict env s issue in
  Running s' = Running s /\ Claimed s' = Claimed s /\ RetryAttempts s' = RetryAttempts s /\
  Draining s' = Draining s /\ (named issue -> Names N s -> Names N s').
Proof.
  unfold markRestackConflict. destruct (InputRequiredIssues s !! _); [done|]. cbn zeta.
  split_and!; [done..|]. intros Hn. by apply (names_input s).
Qed.

Lemma restack_evolves env issue f w :
  (strict -> named issue) -> core (f (w_state w)) = core (w_state w) ->
  evolves w (on_state (fun s => restack env issue (f s)) w).
Proof.
  intros Hn Hc. unfold restack, restackUnblockedIssue.
  assert (Hsame : forall g, core (g (w_state w)) = core (w_state w) -> evolves w (on_state g w))
    by (intros g Hg; by apply evolves_state).
  unfold on_state. destruct (env_restack env) as [[base conflicts]|]; [|by apply (Hsame f)].
  destruct (_ && _); [by apply (Hsame (fun s => _))|].
  destruct (negb _); [by apply (Hsame f)|]. destruct (conflicts issue); [|by apply (Hsame f)].
  unfold core in Hc. injection Hc as E1 E2 E3 E4 E5 E6 E7.
  destruct (mark_conflict_unseen env (f (w_state w)) issue) as (F1 & F2 & F3 & F4 & F5).
  apply (evolves_unseen (fun s => markRestackConflict env (f s) issue)); cbn zeta; try congruence.
  intros HS Hnm. apply F5; [by apply Hn|]. by apply (names_maps N (w_state w)).
Qed.

Lemma audit_evolves env issue w :
  (strict -> Good w) -> (strict -> named issue) ->
  evolves w (auditFetchedIssueDependenciesAndDispatch env issue w).
Proof.
  intros HG Hn. unfold auditFetchedIssueDependenciesAndDispatch. cbn zeta.
  pose proof (requeued_audit (eq issue) (w_state w) issue (env_now env) (env_now env) eq_refl) as Hr.
  destruct (auditFetchedIssueDependencies _ _ _ _) as [row s]. cbn [snd] in Hr.
  eapply evolves_bind; [exact Ninj|exact HG|apply (evolves_requeued (eq issue)); [exact Hr|]|].
  { by intros HS i <-; auto. }
  clear HG Hr. intros HG. set (w1 := w <| w_state := s |>) in *.
  destruct (_ && _).
  - eapply evolves_bind; [exact Ninj|exact HG|apply (restack_evolves env issue (fun s => s)); [exact Hn|done]|].
    intros HG2. by apply blockers_resolved_evolves.
  - case_match; [|apply evolves_refl]. case_match; [by apply evolves_state|].
    case_match; [|apply evolves_refl]. by apply restack_evolves.
Qed.

Lemma audits_evolve env issues w :
  (strict -> Good w) -> (strict -> forall i, i ∈ issues -> named i) ->
  evolves w (foldl (fun w i => auditFetchedIssueDependenciesAndDispatch env i w) w issues).
Proof.
  intros HG Hn. apply (evolves_foldl strict N Ninj _ (fun i => strict -> named i)); [|auto|exact HG].
  intros w' i Hi HG'. by apply audit_evolves.
Qed.

(** ** Steps the view does not see at all *)

Definition seen (w : World) := (core (w_state w), orch_core (w_orch w), omap started_by (w_effects w)).

Lemma seen_evolves w w' : seen w' = seen w -> evolves w w'.
Proof. unfold seen. intros [= H1 H2 H3]. by apply evolves_same; unfold core, orch_core; congruence. Qed.

Lemma seen_life w w' : seen w' = seen w -> life w' = life w.
Proof. unfold seen, core, orch_core, life. intros [=]. congruence. Qed.

Lemma seen_draining w w' : seen w' = seen w -> Draining (w_state w') = Draining (w_state w).
Proof. unfold seen, core. by intros [=]. Qed.

Lemma seen_good w w' : seen w' = seen w -> (strict -> Good w) -> strict -> Good w'.
Proof. intros H HG HS. exact (evolves_good _ _ Ninj _ _ (seen_evolves _ _ H) HS (HG HS)). Qed.

Lemma seen_state f w : core (f (w_state w)) = core (w_state w) -> seen (on_state f w) = seen w.
Proof. unfold seen, on_state. cbn. by intros ->. Qed.

Lemma seen_set s w : core s = core (w_state w) -> seen (w <| w_state := s |>) = seen w.
Proof. unfold seen. cbn. by intros ->. Qed.

Lemma seen_orch o w : orch_core o = orch_core (w_orch w) -> seen (w <| w_orch := o |>) = seen w.
Proof. unfold seen. cbn. by intros ->. Qed.

Lemma seen_emit e w : started_by e = None -> seen (emit e w) = seen w.
Proof. intros H. unfold seen. cbn. rewrite omap_app. cbn. by rewrite H, app_nil_r. Qed.

Lemma seen_when b f w : seen (f w) = seen w -> seen (when b f w) = seen w.
Proof. by destruct b. Qed.

Lemma seen_sync w :
  Draining (w_state (on_state (syncDrainRequest (w_orch w)) w)) = false ->
  seen (on_state (syncDrainRequest (w_orch w)) w) = seen w /\ Draining (w_state w) = false.
Proof.
  unfold on_state. cbn. rewrite sync_spec. cbn. intros [H1 H2]%orb_false_iff.
  split; [|done]. unfold seen, core. cbn. by rewrite H1, H2.
Qed.

Lemma seen_fallback issue gate now w : seen (recordFallbackSwitch issue gate now w) = seen w.
Proof. unfold recordFallbackSwitch. rewrite seen_emit by done. by apply seen_set. Qed.

Lemma seen_reroute issue gate now w : seen (note_reroute issue gate now w) = seen w.
Proof. unfold note_reroute. case_match; [done|apply seen_fallback]. Qed.

Lemma seen_history live issue now status w : seen (recordHistory live issue now status w) = seen w.
Proof. unfold recordHistory. by rewrite seen_emit. Qed.

Lemma seen_discard env b id i target from w : seen (discard env b id i target from w) = seen w.
Proof.
  unfold discard. case_match; [done|]. pose proof (core_discarding (w_state w) i (env_now env)) as Hc.
  destruct (markDiscarding _ _ _) as [gen s]. rewrite seen_emit by done. by apply seen_set.
Qed.

Lemma seen_clear env entry w : seen (scheduleWorkspaceClear env entry w) = seen w.
Proof. unfold scheduleWorkspaceClear. cbn zeta. apply seen_when. by rewrite seen_emit. Qed.

(** ** Dispatching *)

Lemma start_worker_evolves issue entry launch w :
  Draining (w_state w) = false ->
  (forall n, run_Issue (entry n) = issue) ->
  (forall n s, ln_Worker (launch n s) = n /\ ln_Issue (launch n s) = issue) ->
  (strict -> Good w) -> (strict -> named issue /\ idle (life w) (issue_ID issue)) ->
  evolves w (start_worker issue entry launch w).
Proof.
  intros Hd He Hl HG Hn. unfold start_worker. cbn.
  match goal with |- context [launch ?n ?s] => destruct (Hl n s) as [El1 El2]; set (l := launch n s) in * end.
  refine (spawn_one w (w_orch w) (w_state w) (issue_ID issue) (issue_Identifier issue) l eq_refl eq_refl Hd
    El1 _ (entry (o_nextWorker (w_orch w))) HG _).
  - intros HS. destruct (Hn HS) as [? ?]. by rewrite El2.
  - intros HS. destruct (Hn HS) as [? ?]. by rewrite He.
Qed.

Lemma dispatch_evolves env issue attempt w :
  (strict -> Good w) -> (strict -> named issue /\ idle (life w) (issue_ID issue)) ->
  evolves w (dispatch env issue attempt w).
Proof.
  intros HG Hn. unfold dispatch. cbn zeta.
  destruct (Draining (w_state (on_state _ w))) eqn:Hd; [apply evolves_sync|].
  apply seen_sync in Hd as [Hs Hd]. set (w1 := on_state (syncDrainRequest _) w) in *. clearbody w1.
  set (w2 := on_state (fun s => s <| ForceReanalyze := _ |>) w1).
  assert (Hs2 : seen w2 = seen w) by (rewrite <- Hs; by apply seen_state). clearbody w2.
  destruct (selectWorkerHost _ _ _ _) as [host o] eqn:Eh. apply select_host_core in Eh.
  destruct (usable_profile _ _) as [name profile].
  set (w3 := w2 <| w_orch := o |>). assert (Hs3 : seen w3 = seen w) by (rewrite <- Hs2; by apply seen_orch).
  match goal with |- context [dispatch_gate ?a ?b ?c ?d ?e ?f ?g] =>
    pose proof (core_dispatch_gate a b c d e f g) as Hg; destruct (dispatch_gate a b c d e f g) as [gate s] end.
  cbn [snd] in Hg. set (w4 := w3 <| w_state := s |>).
  assert (Hs4 : seen w4 = seen w) by (rewrite <- Hs3; by apply seen_set).
  clearbody w4.
  destruct (gr_held gate); [by apply seen_evolves|].
  set (w5 := when _ _ w4). assert (Hs5 : seen w5 = seen w) by (rewrite <- Hs4; apply seen_when, seen_reroute).
  clearbody w5.
  destruct (o_DryRun o).
  { eapply evolves_trans; [exact Ninj|by apply seen_evolves|apply evolves_claim]. }
  set (w6 := on_state (fun s => s <| PausedSessions := _ |>) w5).
  assert (Hs6 : seen w6 = seen w) by (rewrite <- Hs5; by apply seen_state). clearbody w6.
  eapply evolves_trans; [exact Ninj|by apply seen_evolves|].
  apply start_worker_evolves; [by rewrite (seen_draining _ _ Hs6)|done|done|by apply (seen_good w)|].
  by rewrite (seen_life _ _ Hs6).
Qed.

(** ** Retries and claims *)

Lemma schedule_evolves (f : State -> State) id attempt identifier msg now delay w :
  f (w_state w) = ScheduleRetry (w_state w) id attempt identifier msg now delay ->
  (strict -> (id ∉ lf_runs (life w)) /\ forall n, ~ live (life w) id n) -> evolves w (on_state f w).
Proof.
  intros E H. unfold on_state. rewrite E.
  apply evolves_move; [|intros _ [Hn _]; by apply (names_maps N (w_state w))].
  match goal with |- move _ _ _ ?l => replace l with
    (life w <| lf_retries := {[id]} ∪ lf_retries (life w) |> <| lf_claimed := {[id]} ∪ lf_claimed (life w) |>) end;
    [by apply move_retry|].
  unfold life. cbn. by rewrite dom_insert_L.
Qed.

Lemma release_evolves id w :
  (strict -> idle (life w) id) -> evolves w (on_state (release id) w).
Proof.
  intros H. apply evolves_move; [|intros _ [Hn _]; by apply (names_maps N (w_state w))].
  by apply (move_release strict N (life w) id).
Qed.

Lemma forget_evolves R w :
  R ⊆ RetryAttempts (w_state w) -> evolves w (on_state (fun s => s <| RetryAttempts := R |>) w).
Proof.
  intros H. apply evolves_move; [|intros _ [Hn _]; by apply (names_maps N (w_state w))].
  apply (move_forget strict N (life w) (dom R)). cbn. by apply subseteq_dom.
Qed.

Lemma cancel_retry_evolves id w :
  (strict -> Good w) -> (strict -> is_Some (RetryAttempts (w_state w) !! id)) ->
  evolves w (on_state (fun s => CancelRetry s id) w).
Proof.
  intros HG H. set (w1 := on_state (fun s => s <| RetryAttempts := base.delete id (RetryAttempts (w_state w)) |>) w).
  assert (H1 : evolves w w1) by (apply forget_evolves, delete_subseteq).
  eapply evolves_trans; [exact Ninj|exact H1|]. apply (release_evolves id w1). intros HS.
  destruct (HG HS) as [_ HI]. destruct (retry_idle N _ id HI) as [Hr Hl].
  { cbn. apply elem_of_dom. by apply H. }
  split_and!; [exact Hr| |exact Hl]. cbn. rewrite dom_delete_L. set_solver.
Qed.

(** ** Reviewers *)

Lemma reviewer_evolves env issue profile w :
  (strict -> Good w) -> (strict -> named issue /\ idle (life w) (issue_ID issue)) ->
  evolves w (dispatchReviewerForIssue env issue profile w).
Proof.
  intros HG Hn. unfold dispatchReviewerForIssue. cbn zeta.
  destruct (Draining (w_state (on_state _ w))) eqn:Hd.
  { eapply evolves_trans; [exact Ninj|apply evolves_sync|apply seen_evolves, seen_state; same_core]. }
  apply seen_sync in Hd as [Hs Hd]. set (w1 := on_state (syncDrainRequest _) w) in *. clearbody w1.
  destruct (agent_Profiles _ !! profile) as [p|]; [|by apply seen_evolves].
  destruct (negb (ProfileEnabled p)); [by apply seen_evolves|].
  destruct (selectWorkerHost _ _ _ _) as [host o] eqn:Eh. apply select_host_core in Eh.
  set (w2 := w1 <| w_orch := o |>). assert (Hs2 : seen w2 = seen w) by (rewrite <- Hs; by apply seen_orch).
  match goal with |- context [gateDispatch ?a ?b ?c ?d] =>
    pose proof (core_gate a b c d) as Hg; destruct (gateDispatch a b c d) as [gate s] end.
  cbn [snd] in Hg. set (w3 := w2 <| w_state := s |>).
  assert (Hs3 : seen w3 = seen w) by (rewrite <- Hs2; by apply seen_set). clearbody w3.
  destruct (gr_held gate).
  { set (w4 := on_orch (inject_reviewer _ _) w3). assert (Hs4 : seen w4 = seen w) by (rewrite <- Hs3; by apply seen_orch).
    eapply evolves_trans; [exact Ninj|by apply (seen_evolves w w4)|].
    eapply schedule_evolves; [reflexivity|]. rewrite (seen_life _ _ Hs4). intros HS.
    destruct (Hn HS) as (_ & ? & _ & ?). done. }
  destruct (o_DryRun o); [by apply seen_evolves|].
  eapply evolves_trans; [exact Ninj|by apply seen_evolves|].
  match goal with |- context [start_worker ?i ?e ?l ?x] =>
    eapply (evolves_trans strict N Ninj _ (start_worker i e l x)); [apply start_worker_evolves; [|done|done|by apply (seen_good w)|]|] end.
  - by rewrite (seen_draining _ _ Hs3).
  - by rewrite (seen_life _ _ Hs3).
  - by apply seen_evolves.
Qed.

Lemma advance_chain_evolves env issue profile w :
  (strict -> Good w) -> (strict -> named issue /\ idle (life w) (issue_ID issue)) ->
  evolves w (advanceReviewChainForIssue env issue profile w).
Proof.
  intros HG Hn. unfold advanceReviewChainForIssue. cbn zeta.
  case_match; [apply evolves_refl|]. case_match; [apply evolves_refl|].
  match goal with |- context [AdvanceReviewChain ?a ?b ?c ?d ?e ?f ?g] =>
    pose proof (core_advance_chain a b c d e f g) as Hc; destruct (AdvanceReviewChain a b c d e f g) as [next s] end.
  cbn [snd] in Hc. set (w1 := w <| w_state := s |>). assert (Hs : seen w1 = seen w) by (by apply seen_set).
  eapply evolves_trans; [exact Ninj|by apply (seen_evolves w w1)|]. destruct next as [next|].
  - apply reviewer_evolves; [by apply (seen_good w)|]. by rewrite (seen_life _ _ Hs).
  - by apply seen_evolves, seen_emit.
Qed.

(** A fetched detail is the issue that was asked for. *)
Definition detail_named (env : Env) : Prop :=
  forall id i, env_detail env id = Fetched i -> named i /\ issue_ID i = id.

Lemma resume_review_evolves env id w :
  (strict -> Good w) -> (strict -> detail_named env) -> evolves w (resume_review env id w).
Proof.
  intros HG Hn. unfold resume_review. destruct (PendingReviews (w_state w) !! id) as [pr|]; [|apply evolves_refl].
  cbn zeta. assert (Hclear : forall w, evolves w (on_state (fun s => clearPendingReview s id) w))
    by (intros w'; apply seen_evolves, seen_state; same_core).
  case_bool_decide as Hr; [apply evolves_refl|]. case_bool_decide as Hc; [apply evolves_refl|].
  destruct (env_detail env (pr_IssueID pr)) as [issue|m|m|] eqn:Ed; [|apply Hclear|apply evolves_refl|apply Hclear].
  case_match; [apply Hclear|].
  set (w1 := when _ _ w). assert (Hs : seen w1 = seen w) by (apply seen_when, seen_state; same_core). clearbody w1.
  assert (H1 : forall p, evolves w (dispatchReviewerForIssue env issue p w1)).
  { intros p. eapply evolves_trans; [exact Ninj|by apply (seen_evolves w w1)|].
    apply reviewer_evolves; [by apply (seen_good w)|]. rewrite (seen_life _ _ Hs). intros HS.
    destruct (Hn HS _ _ Ed) as [? ->]. split; [done|]. by apply unclaimed_idle; [apply HG|]. }
  match goal with |- context [dispatchReviewerForIssue env issue ?p w1] =>
    specialize (H1 p); set (w2 := dispatchReviewerForIssue env issue p w1) in * end.
  destruct (negb _ && negb _); [|exact H1]. eapply evolves_trans; [exact Ninj|exact H1|apply Hclear].
Qed.

Lemma resume_reviews_evolves env ids w :
  (strict -> Good w) -> (strict -> detail_named env) -> evolves w (resume_reviews env ids w).
Proof.
  revert w. induction ids as [|id ids IH]; intros w HG Hn; cbn [resume_reviews]; [apply evolves_refl|].
  case_match; [apply evolves_refl|].
  eapply evolves_bind; [exact Ninj|exact HG|by apply resume_review_evolves|]. intros HG'. by apply IH.
Qed.

Lemma pending_reviews_evolve env w :
  (strict -> Good w) -> (strict -> detail_named env) -> evolves w (resumePendingReviews env w).
Proof.
  intros HG Hn. unfold resumePendingReviews. case_match; [apply evolves_refl|].
  eapply evolves_bind; [exact Ninj|exact HG|apply evolves_sync|]. intros HG'. by apply resume_reviews_evolves.
Qed.

(** ** Audits of an issue that waits

    An automation never starts for an issue that is claimed or whose answer
    waits to be resumed, so the audit of such an issue starts no worker. *)

Definition waiting (s : State) (issue : Issue) : Prop :=
  is_Some (PendingInputResumes s !! issue_Identifier issue) \/ (issue_ID issue ∈ Claimed s).

Lemma waiting_ineligible s issue cfg :
  waiting s issue -> String.eqb (IneligibleReasonForAutomation issue s cfg) "" = false.
Proof.
  intros Hw. unfold IneligibleReasonForAutomation, ineligibleReasonShared.
  destruct (missing_fields issue); [done|]. destruct (isTerminalState _ _); [done|].
  case_bool_decide; [done|]. case_bool_decide; [done|]. destruct (_ && _); [done|].
  case_bool_decide as Hp; [done|]. case_bool_decide; [done|].
  rewrite bool_decide_eq_true_2; [done|]. by destruct Hw.
Qed.

Definition hush (w : World) :=
  (Running (w_state w), Claimed (w_state w), RetryAttempts (w_state w), PendingInputResumes (w_state w),
   Draining (w_state w), orch_core (w_orch w), omap started_by (w_effects w)).

Lemma hush_life w w' : hush w' = hush w -> life w' = life w.
Proof. unfold hush, orch_core, life. intros [=]. congruence. Qed.

Lemma hush_waiting w w' issue : hush w' = hush w -> waiting (w_state w) issue -> waiting (w_state w') issue.
Proof. unfold hush, waiting. intros [= _ -> _ -> _ _ _]. done. Qed.

Lemma hush_seen w w' : seen w' = seen w -> hush w' = hush w.
Proof. unfold seen, hush, core. intros [=]. unfold orch_core in *. congruence. Qed.

Lemma hush_requeued P w s : requeued P (w_state w) s -> hush (w <| w_state := s |>) = hush w.
Proof. intros [Hr _]. unfold rest in Hr. injection Hr as E1 E2 E3 E4 E5 E6. unfold hush. cbn. congruence. Qed.

Lemma dispatch_waiting o s issue d now out o' s' :
  dispatchOrQueueAutomation o s issue d now = (out, o', s') -> waiting s issue ->
  do_launch out = None /\ o' = o /\ rest s' = rest s.
Proof.
  unfold dispatchOrQueueAutomation, enqueue_outcome. intros E Hw.
  pose proof (core_claim_pr s issue d) as Hc.
  destruct (claimPROpenedDedup s issue d) as [fresh s1]. cbn [snd] in Hc.
  assert (Hr : forall s2, core s2 = core s -> rest s2 = rest s) by (unfold core, rest; intros s2 [=]; congruence).
  assert (Hq : forall s2 reason, core s2 = core s -> rest (snd (enqueueAutomation s2 issue d reason now)) = rest s).
  { intros s2 reason H2. destruct (requeued_enqueue (eq issue) s2 issue d reason now eq_refl) as [-> _]. auto. }
  destruct (negb fresh); [injection E as <- <- <-; auto|].
  destruct (negb (String.eqb _ "")); [injection E as <- <- <-; auto|].
  destruct (_ && _); [injection E as <- <- <-; auto|].
  pose proof (core_unpause_recovered s1 issue d) as Hu. rewrite Hc in Hu.
  set (s2 := unpause_recovered s1 issue d) in *. clearbody s2.
  rewrite waiting_ineligible in E; [cbn [negb] in E|].
  - destruct (IsQueueableAutomationReason _); injection E as <- <- <-; auto.
  - unfold core, waiting in *. injection Hu as E1 E2 E3 E4 E5 E6 E7. by rewrite E2, E6.
Qed.

Lemma dispatch_all_waiting issue now ds w :
  waiting (w_state w) issue ->
  hush (after_dispatches w (dispatch_all issue now ds (w_orch w) (w_state w))) = hush w.
Proof.
  intros Hw. unfold dispatch_all. set (F := fun '(outs, o, state) d => _).
  enough (forall ds outs s,
    rest s = rest (w_state w) -> concat (map (fun out => from_option_launch (do_launch out)) outs) = [] ->
    hush (after_dispatches w (foldl F (outs, w_orch w, s) ds)) = hush w) as H by (by apply H).
  clear ds. intros ds. induction ds as [|d ds IH]; intros outs s Hr Ho; cbn [foldl].
  - unfold after_dispatches, spawn_all, hush. cbn. rewrite Ho. cbn. rewrite app_nil_r.
    unfold rest in Hr. injection Hr as E1 E2 E3 E4 E5 E6. congruence.
  - unfold F at 2. destruct (dispatchOrQueueAutomation _ s issue d now) as [[out o1] s1] eqn:E.
    apply dispatch_waiting in E as (El & -> & Er).
    + apply IH; [congruence|]. rewrite map_app, concat_app, Ho. cbn. by rewrite El.
    + unfold rest, waiting in *. injection Hr as E1 E2 E3 E4 E5 E6. by rewrite E2, E5.
Qed.

Lemma hush_restack env issue f w :
  core (f (w_state w)) = core (w_state w) -> hush (on_state (fun s => restack env issue (f s)) w) = hush w.
Proof.
  intros Hc. unfold restack, restackUnblockedIssue.
  assert (Hsame : forall g, core (g (w_state w)) = core (w_state w) -> hush (on_state g w) = hush w)
    by (intros g Hg; by apply hush_seen, seen_state).
  unfold on_state. destruct (env_restack env) as [[base conflicts]|]; [|by apply (Hsame f)].
  destruct (_ && _); [by apply (Hsame (fun s => _))|].
  destruct (negb _); [by apply (Hsame f)|]. destruct (conflicts issue); [|by apply (Hsame f)].
  unfold core in Hc. injection Hc as E1 E2 E3 E4 E5 E6 E7.
  unfold markRestackConflict. case_match; unfold hush; cbn; congruence.
Qed.

Lemma audit_waiting env issue w :
  waiting (w_state w) issue -> hush (auditFetchedIssueDependenciesAndDispatch env issue w) = hush w.
Proof.
  intros Hw. unfold auditFetchedIssueDependenciesAndDispatch. cbn zeta.
  pose proof (requeued_audit (eq issue) (w_state w) issue (env_now env) (env_now env) eq_refl) as Hr.
  destruct (auditFetchedIssueDependencies _ _ _ _) as [row s]. cbn [snd] in Hr.
  apply hush_requeued in Hr as H1. set (w1 := w <| w_state := s |>) in *.
  destruct (_ && _).
  - pose proof (hush_restack env issue (fun s => s) w1 eq_refl) as H2.
    change (on_state (fun s => restack env issue s) w1) with (on_state (restack env issue) w1) in H2.
    set (w2 := on_state (restack env issue) w1) in *.
    rewrite H1 in H2. rewrite <- H2. unfold blockers_resolved_automations, dispatchMatchingBlockersResolvedAutomations.
    case_match.
    + unfold after_dispatches, spawn_all, hush. cbn. by rewrite app_nil_r.
    + apply dispatch_all_waiting. by eapply hush_waiting.
  - case_match; [|exact H1]. case_match; [rewrite <- H1; by apply hush_seen, seen_state|].
    case_match; [|exact H1]. rewrite <- H1. by apply hush_restack.
Qed.

(** ** Resumes *)

Lemma drop_resume_evolves i w : evolves w (on_state (drop_resume i) w).
Proof.
  apply evolves_unseen; try done. intros _ [? ? ? Hp]. constructor; cbn; try assumption.
  intros i' e [_ ?]%lookup_delete_Some. by apply Hp.
Qed.

Lemma names_resume s i e :
  i = N (pir_IssueID e) -> Names N s ->
  Names N (s <| PendingInputResumes := <[i := e]> (PendingInputResumes s) |>).
Proof.
  intros Hi [? ? ? Hp]. constructor; cbn; try assumption.
  intros i' e' [[<- <-]|[_ ?]]%lookup_insert_Some; [done|by apply Hp].
Qed.

Definition open (w : World) : Prop := lf_draining (life w) = false /\ lf_requested (life w) = false.

Lemma open_evolves w w' : evolves w w' -> open w -> open w'.
Proof.
  intros [Hm _] [Hd Hr]. split; [by eapply moves_open|]. by rewrite (moves_requested _ _ _ _ Hm).
Qed.

Lemma resume_start_evolves env identifier e detailed w :
  open w -> (strict -> Good w) ->
  (strict -> identifier = N (pir_IssueID e) /\ named detailed /\ issue_ID detailed = pir_IssueID e /\
             idle (life w) (pir_IssueID e)) ->
  evolves w (resume_start env identifier e detailed w).
Proof.
  intros [Hd _] HG Hn. unfold resume_start. cbn zeta.
  destruct (isTerminalState _ _); [apply drop_resume_evolves|].
  destruct (negb (isActiveState _ _)); [apply drop_resume_evolves|].
  match goal with |- context [admitBackendKey ?a ?b ?c ?d] =>
    pose proof (core_admit a b c d) as Hc; destruct (admitBackendKey a b c d) as [ok s] end.
  cbn [snd] in Hc. destruct (negb ok); [by apply seen_evolves, seen_set|].
  assert (Hi : issue_ID (resume_issue detailed e) = issue_ID detailed /\
    issue_Identifier (resume_issue detailed e) = issue_Identifier detailed).
  { unfold resume_issue. repeat case_match; done. }
  destruct Hi as [Hi1 Hi2]. cbn.
  match goal with |- context [MkLaunch ?a1 ?a2 ?a3 ?a4 ?a5 ?a6 ?a7 ?a8 ?a9 ?b1 ?b2] =>
    set (l := MkLaunch a1 a2 a3 a4 a5 a6 a7 a8 a9 b1 b2) end.
  refine (spawn_one w (w_orch w) (clearBackendHold s identifier) (pir_IssueID e) identifier l _ eq_refl _
    eq_refl _ (resume_run (resume_issue detailed e) e (env_now env) (o_nextWorker (w_orch w))) HG _).
  - by rewrite core_clear_hold.
  - unfold core in Hc. injection Hc as E1 E2 E3 E4 E5 E6 E7. cbn. by rewrite E7.
  - intros HS. destruct (Hn HS) as (? & ? & Hid & ?). cbn. by rewrite Hi1.
  - intros HS. destruct (Hn HS) as (_ & Hnm & Hid & _). cbn. split; [|by rewrite Hi1].
    unfold Lifecycle.named in *. by rewrite Hi1, Hi2.
Qed.

(** A prefetch answers a request with the issue that was asked for. *)
Definition prefetch_named (env : Env) : Prop :=
  forall ids id i, env_prefetch env ids !! id = Some i -> named i /\ issue_ID i = id.

Lemma resume_one_evolves env allowed ids identifier w :
  open w -> (strict -> Good w) -> (strict -> detail_named env /\ prefetch_named env) ->
  evolves w (resume_one env allowed (env_prefetch env ids) identifier w).
Proof.
  intros Ho HG Hn. unfold resume_one. cbn zeta.
  destruct (PendingInputResumes (w_state w) !! identifier) as [e|] eqn:He; [|apply evolves_refl].
  case_bool_decide as Hr; [apply evolves_refl|]. case_bool_decide as Hc; [apply evolves_refl|].
  case_bool_decide; [apply drop_resume_evolves|]. case_bool_decide; [apply drop_resume_evolves|].
  destruct (negb (bool_decide _)); [apply evolves_refl|].
  destruct (backendKeyBlocked _ _ _ _) as [b until]. destruct b; [apply seen_evolves, seen_state; same_core|].
  set (e2 := e <| pir_LastResumeAttemptAt := env_now env |>).
  set (w1 := on_state (fun s => s <| PendingInputResumes := _ |>) w).
  assert (Hkey : strict -> identifier = N (pir_IssueID e2)).
  { intros HS. destruct (HG HS) as [Hnm _]. by apply (nm_resume N _ Hnm) in He. }
  assert (H1 : evolves w w1).
  { apply evolves_unseen; try done. intros HS. by apply names_resume, Hkey. }
  eapply evolves_trans; [exact Ninj|exact H1|].
  assert (HG1 : strict -> Good w1) by (intros HS; exact (evolves_good _ _ Ninj _ _ H1 HS (HG HS))).
  destruct (match env_prefetch env ids !! pir_IssueID e2 with Some i => Fetched i | None => _ end) as [issue|m|m|] eqn:Ef;
    try apply evolves_refl.
  assert (Hi : strict -> named issue /\ issue_ID issue = pir_IssueID e2).
  { intros HS. destruct (Hn HS) as [Hd Hp]. destruct (env_prefetch env ids !! _) as [i|] eqn:Ep; [|by apply Hd].
    injection Ef as <-. by eapply Hp. }
  assert (H2 : evolves w1 (auditFetchedIssueDependenciesAndDispatch env issue w1)).
  { apply audit_evolves; [exact HG1|]. intros HS. by apply Hi. }
  eapply evolves_trans; [exact Ninj|exact H2|].
  apply resume_start_evolves.
  - eapply open_evolves; [exact H2|]. by eapply open_evolves; [exact H1|].
  - intros HS. exact (evolves_good _ _ Ninj _ _ H2 HS (HG1 HS)).
  - intros HS. destruct (Hi HS) as [Hnm Hid]. split_and!; [by apply Hkey|done|done|].
    rewrite (hush_life w1).
    + apply (unclaimed_idle w); [by apply HG|exact Hc].
    + apply audit_waiting. left. exists e2. unfold w1. cbn. rewrite Hnm, Hid.
      rewrite <- (Hkey HS). apply lookup_insert_eq.
Qed.

Lemma resume_loop_evolves env allowed ids identifiers w :
  (strict -> Good w) -> (strict -> detail_named env /\ prefetch_named env) ->
  evolves w (resume_loop env allowed (env_prefetch env ids) identifiers w).
Proof.
  revert w. induction identifiers as [|i rest IH]; intros w HG Hn; cbn [resume_loop]; [apply evolves_refl|].
  cbn zeta. destruct (AvailableSlots _ <=? 0) eqn:Hs; [apply evolves_sync|].
  apply available_open in Hs as (Hd & Hq & _).
  eapply evolves_bind; [exact Ninj|exact HG|apply evolves_sync|]. intros HG1.
  eapply evolves_bind; [exact Ninj|exact HG1|apply resume_one_evolves; [|exact HG1|exact Hn]|].
  { split; [|exact Hq]. cbn. rewrite sync_spec. cbn. by rewrite Hd, Hq. }
  intros HG2. by apply IH.
Qed.

Lemma resumes_evolve env w :
  (strict -> Good w) -> (strict -> detail_named env /\ prefetch_named env) ->
  evolves w (processPendingInputResumes env w).
Proof.
  intros HG Hn. unfold processPendingInputResumes. cbn zeta.
  destruct (_ || _); [apply evolves_refl|]. by apply resume_loop_evolves.
Qed.

Lemma queue_resume_evolves now i e answer w :
  (strict -> i = N (ir_IssueID e)) -> evolves w (on_state (queue_resume now i e answer) w).
Proof.
  intros Hi. apply evolves_unseen; try done. intros HS [? ? Hin Hp]. constructor; cbn; try assumption.
  - intros i' e' [_ ?]%lookup_delete_Some. by apply Hin.
  - intros i' e' [[<- <-]|[_ ?]]%lookup_insert_Some; [by apply Hi|by apply Hp].
Qed.

Lemma check_reply_evolves env ids w i :
  (strict -> Good w) -> (strict -> detail_named env /\ prefetch_named env) ->
  evolves w (check_reply env (env_prefetch env ids) w i).
Proof.
  intros HG Hn. unfold check_reply. destruct (InputRequiredIssues (w_state w) !! i) as [e|] eqn:He; [|apply evolves_refl].
  cbn zeta. set (e2 := warnIfQuestionStuck _ _).
  assert (Hid : ir_IssueID e2 = ir_IssueID e) by (unfold e2, warnIfQuestionStuck; repeat case_match; done).
  clearbody e2. assert (Hkey : strict -> i = N (ir_IssueID e2)).
  { intros HS. rewrite Hid. destruct (HG HS) as [Hnm _]. by apply (nm_input N _ Hnm). }
  eapply evolves_bind; [exact Ninj|exact HG|by apply set_input_evolves|]. intros HG1.
  destruct (match env_prefetch env ids !! ir_IssueID e2 with Some i => Fetched i | None => _ end) as [issue|m|m|] eqn:Ef;
    try apply evolves_refl.
  assert (Hi : strict -> named issue).
  { intros HS. destruct (Hn HS) as [Hd Hp]. destruct (env_prefetch env ids !! _) as [x|] eqn:Ep.
    - injection Ef as <-. by eapply Hp.
    - by eapply Hd. }
  set (w1 := on_state _ w) in *.
  eapply (evolves_trans strict N Ninj _ (auditFetchedIssueDependenciesAndDispatch env issue w1)); [by apply audit_evolves|].
  destruct (answer_of _ _); [by apply queue_resume_evolves|apply evolves_refl].
Qed.

Lemma replies_evolve env w :
  (strict -> Good w) -> (strict -> detail_named env /\ prefetch_named env) ->
  evolves w (checkTrackerReplies env w).
Proof.
  intros HG Hn. unfold checkTrackerReplies. case_match; [apply evolves_refl|].
  apply (evolves_foldl strict N Ninj _ (fun _ => True)); [|done|exact HG].
  intros w' i _ HG'. by apply check_reply_evolves.
Qed.

End Handlers.
