(* ===== verification/ExitHandlers.v ===== *)
(** * ExitHandlers: the exit of a worker moves the lifecycle machine

    The worker's run is dropped and its context cancelled before anything else,
    so the issue is settled when the outcome is handled.  [exit_ok] names what
    an outcome relies on beyond that. *)

From stdpp Require Import base gmap list strings relations.
From S2P Require Import Prelude Domain State Config Retry Dispatch Resolve BackendHealth BackendGate.
From S2P Require Import AutomationQueue StatusHistory DependencyAudit Janitor Tracker Orchestrator LimitText.
From S2P Require Import Failures Outbox Flusher Automation Triggers RefreshWorker World DependencyRefresh.
From S2P Require Import RateLimited Reviews Replies Workers Exits Reconcile Events TickViews Tick.
From S2P Require Import Lifecycle Frames Handlers.

Local Open Scope Z_scope.

Section ExitHandlers.
Context (strict : Prop) (N : string -> string) (Ninj : forall a b, N a = N b -> a = b).

Local Abbreviation Good := (Good N).
Local Abbreviation evolves := (evolves strict N).
Local Abbreviation named := (named N).

(** [a] then [b], the world in between given. *)
Local Ltac via x := eapply (evolves_trans strict N Ninj _ x).

(** ** What a failed switch leaves *)

(** What tells whether an issue is settled: without a run and a live worker. *)
Definition settled (w : World) (id : string) : Prop :=
  (id ∉ lf_runs (life w)) /\ forall n, ~ live (life w) id n.

Definition workers (w : World) :=
  (Running (w_state w), RetryAttempts (w_state w), orch_core (w_orch w), omap started_by (w_effects w)).

Lemma workers_settled w w' id : workers w' = workers w -> settled w id -> settled w' id.
Proof.
  unfold workers, orch_core, settled, live, life. cbn. intros [= E1 E2 E3 E4 E5 E6 E7].
  by rewrite E1, E4, E7.
Qed.

Lemma workers_pending w w' id :
  workers w' = workers w -> retryPending id (w_state w') = retryPending id (w_state w).
Proof. unfold workers, retryPending. by intros [= _ -> _]. Qed.

Lemma settled_idle w id : settled w id -> retryPending id (w_state w) = false -> idle (life w) id.
Proof.
  intros [Hr Hl] Hp%bool_decide_eq_false. split_and!; [done| |done]. cbn. by rewrite elem_of_dom.
Qed.

Lemma hush_workers w w' : hush w' = hush w -> workers w' = workers w.
Proof. unfold hush, workers, orch_core. intros [=]. congruence. Qed.

Lemma seen_workers w w' : seen w' = seen w -> workers w' = workers w.
Proof. intros H. by apply hush_workers, hush_seen. Qed.

Lemma start_refused o s issue now d out o' s' :
  startAutomationRunOrHold o s issue now d = (out, o', s') -> (forall l, out <> Started l) ->
  orch_core o' = orch_core o /\ Running s' = Running s /\ RetryAttempts s' = RetryAttempts s.
Proof.
  unfold startAutomationRunOrHold. intros E Ho.
  destruct (String.eqb _ ""); [by injection E as <- <- <-|].
  destruct (bool_decide (is_Some _)); [by injection E as <- <- <-|].
  destruct (bool_decide (_ ∈ _)); [by injection E as <- <- <-|]. cbn zeta in E.
  assert (Hr : Running (syncDrainRequest o s) = Running s /\
    RetryAttempts (syncDrainRequest o s) = RetryAttempts s) by (by rewrite sync_spec).
  destruct Hr as [Hr Ht].
  set (s1 := syncDrainRequest o s) in *. clearbody s1.
  destruct (AvailableSlots _ <=? 0); [by injection E as <- <- <-|].
  destruct (agent_Profiles _ !! _) as [profile|]; [|by injection E as <- <- <-].
  destruct (negb (ProfileEnabled profile)); [by injection E as <- <- <-|].
  destruct (selectWorkerHost _ _ _ _) as [h o1] eqn:Hh. apply select_host_core in Hh.
  match type of E with context [gateDispatch ?c ?s ?r ?n] =>
    pose proof (core_gate c s r n) as Hs2; destruct (gateDispatch c s r n) as [gate s2] end.
  cbn [snd] in Hs2. unfold core in Hs2. injection Hs2 as E1 _ E2 _ _ _ _.
  destruct (gr_held gate); [injection E as <- <- <-; split_and!; congruence|]. cbn zeta in E.
  destruct (o_DryRun o1); injection E as <- <- <-; by destruct (Ho _ eq_refl).
Qed.

Lemma enqueued_running s issue d reason now :
  let s' := snd (enqueueAutomation s issue d reason now) in
  Running s' = Running s /\ RetryAttempts s' = RetryAttempts s.
Proof.
  destruct (requeued_enqueue (eq issue) s issue d reason now eq_refl) as [H _].
  unfold rest in H. by injection H.
Qed.

Lemma refused_dispatch o s issue d now out o' s' :
  dispatchOrQueueAutomation o s issue d now = (out, o', s') -> do_accepted out = false ->
  do_launch out = None /\ orch_core o' = orch_core o /\ Running s' = Running s /\
  RetryAttempts s' = RetryAttempts s.
Proof.
  unfold dispatchOrQueueAutomation, enqueue_outcome. intros E Ha.
  pose proof (core_claim_pr s issue d) as Hc.
  destruct (claimPROpenedDedup s issue d) as [fresh s1]. cbn [snd] in Hc.
  unfold core in Hc. injection Hc as Hc1 _ Hc2 _ _ _ _.
  assert (Hq : forall s2 reason, Running s2 = Running s /\ RetryAttempts s2 = RetryAttempts s ->
    Running (snd (enqueueAutomation s2 issue d reason now)) = Running s /\
    RetryAttempts (snd (enqueueAutomation s2 issue d reason now)) = RetryAttempts s).
  { intros s2 reason [<- <-]. apply enqueued_running. }
  destruct (negb fresh); [by injection E as <- <- <-|].
  destruct (negb (String.eqb _ "")); [by injection E as <- <- <-|].
  destruct (_ && _); [injection E as <- <- <-; by split; [|split; [|apply Hq]]|].
  pose proof (core_unpause_recovered s1 issue d) as Hu. unfold core in Hu. injection Hu as Hu1 _ Hu2 _ _ _ _.
  set (s2 := unpause_recovered s1 issue d) in *. clearbody s2.
  assert (H2 : Running s2 = Running s /\ RetryAttempts s2 = RetryAttempts s) by (split; congruence).
  destruct (negb (String.eqb _ "")).
  { destruct (IsQueueableAutomationReason _); injection E as <- <- <-; (split; [done|split; [done|]]); auto. }
  destruct (startAutomationRunOrHold o s2 issue now d) as [[outcome o1] s3] eqn:Est.
  destruct outcome as [| |l]; injection E as <- <- <-; [| |done];
    (apply start_refused in Est as (Ho & H3); [|done]); destruct H2 as [<- <-], H3 as [<- <-];
    (split; [done|split; [done|]]); [done|apply enqueued_running].
Qed.

Lemma refused_workers w issue d now :
  fst (run_dispatchOrQueue issue d now w) = false ->
  workers (snd (run_dispatchOrQueue issue d now w)) = workers w.
Proof.
  unfold run_dispatchOrQueue. destruct (dispatchOrQueueAutomation _ _ _ _ _) as [[out o] s] eqn:E.
  cbn. intros Ha. apply refused_dispatch in E as (El & Eo & Er & Et); [|done].
  unfold spawn_all, workers. cbn. rewrite El. cbn. by rewrite app_nil_r, Eo, Er, Et.
Qed.

(** ** The rate-limited rules *)

Definition fallback_ok (issue : Issue) (w : World) (acc : Evaluation) : Prop :=
  let '(queued, _, w') := acc in
  0 <= queued /\ evolves w w' /\ (queued = 0 -> workers w' = workers w).

Lemma fallback_extend issue w w1 w2 queued note :
  fallback_ok issue w (queued, note, w1) -> evolves w1 w2 -> (queued = 0 -> workers w2 = workers w1) ->
  fallback_ok issue w (queued, note, w2).
Proof.
  intros (Hq & He & Hw) H1 H2. split_and!; [done| |].
  - via w1; done.
  - intros H0. rewrite H2, Hw; done.
Qed.

Lemma rate_limited_rule_ok env issue run w acc rule :
  (strict -> Good w) -> (strict -> named issue) ->
  fallback_ok issue w acc -> fallback_ok issue w (rate_limited_rule env issue run acc rule).
Proof.
  intros HG Hn. destruct acc as [[queued note] w1]. intros Hok.
  assert (HG1 : strict -> Good w1).
  { intros HS. destruct Hok as (_ & He & _). exact (evolves_good _ _ Ninj _ _ He HS (HG HS)). }
  unfold rate_limited_rule. case_match; [done|]. case_match; [done|].
  pose proof (core_allow (o_cfg (w_orch w1)) (w_state w1) (issue_ID issue) (env_now env)) as Hc.
  destruct (allowRateLimitSwitch _ _ _ _) as [allowed s]. cbn [snd] in Hc.
  set (w2 := w1 <| w_state := s |>). assert (Hs : seen w2 = seen w1) by (by apply seen_set).
  assert (Hok2 : fallback_ok issue w (queued, note, w2)).
  { eapply fallback_extend; [exact Hok|by apply seen_evolves|intros _; by apply seen_workers]. }
  destruct (negb allowed).
  { pose proof (core_claim_cap (o_cfg (w_orch w1)) s (issue_ID issue) (env_now env)) as Hc2.
    destruct (claimRateLimitCapComment _ _ _ _) as [claimed s2]. cbn [snd] in Hc2.
    match goal with |- fallback_ok _ _ (_, _, ?x) => set (w3 := x) end.
    assert (Hs3 : seen w3 = seen w2).
    { transitivity (seen (w2 <| w_state := s2 |>)); [|by apply seen_set].
      unfold w3. apply seen_when. by apply seen_emit. }
    eapply fallback_extend; [exact Hok2|by apply seen_evolves|intros _; by apply seen_workers]. }
  destruct (muted _ _ _); [exact Hok2|].
  pose proof (run_dispatch_evolves strict N Ninj issue (rate_limited_dispatch issue (env_now env) run rule)
    (env_now env) w2 (seen_good _ _ Ninj _ _ Hs HG1) Hn) as He.
  pose proof (refused_workers w2 issue (rate_limited_dispatch issue (env_now env) run rule) (env_now env)) as Hr.
  destruct (run_dispatchOrQueue issue _ _ w2) as [accepted w3]. cbn [fst snd] in He, Hr.
  destruct accepted; cbn [negb].
  - set (w4 := on_state _ w3).
    set (w5 := when _ _ w4).
    assert (Hs5 : seen w5 = seen w3).
    { unfold w5. rewrite seen_when; [|apply seen_state; same_core]. unfold w4. apply seen_state; same_core. }
    destruct Hok2 as (Hq & He2 & _).
    assert (He5 : evolves w w5) by (via w2; [done|]; via w3; [done|]; by apply seen_evolves).
    destruct (switches rule); (split_and!; [lia| |lia]); [|done].
    via w5; [done|]. apply seen_evolves. rewrite seen_emit by done. apply seen_state; same_core.
  - eapply fallback_extend; [exact Hok2|done|auto].
Qed.

Lemma fallback_evolves env issue live errMsg attempt note w :
  (strict -> Good w) -> (strict -> named issue) ->
  fallback_ok issue w (dispatchRateLimitedFallback env issue live errMsg attempt note w).
Proof.
  intros HG Hn. unfold dispatchRateLimitedFallback, dispatchMatchingRateLimitedAutomationsNote. cbn zeta.
  match goal with |- context [rate_limited_rule env issue ?r] => set (run := r) end. clearbody run.
  enough (forall rules acc, fallback_ok issue w acc ->
    fallback_ok issue w (foldl (rate_limited_rule env issue run) acc rules)) as H.
  { apply H. split_and!; [done|apply evolves_refl|done]. }
  induction rules as [|r rules IH]; intros acc Hok; cbn [foldl]; [done|].
  apply IH. by apply rate_limited_rule_ok.
Qed.

(** ** Exits *)

Lemma drop_run_evolves id w :
  evolves w (on_state (fun s => s <| Running := base.delete id (Running s) |>) w).
Proof.
  apply evolves_move.
  - match goal with |- move _ _ _ ?l => replace l with (life w <| lf_runs := lf_runs (life w) ∖ {[id]} |>) end;
      [apply move_drop|]. unfold life. cbn. by rewrite dom_delete_L.
  - intros _ [[Hr ? ? ?] _]. constructor; cbn; try assumption.
    intros id' r [_ ?]%lookup_delete_Some. by apply Hr.
Qed.

Lemma life_cancel i w : life (on_orch (fun o => cancelAndCleanupWorker o i) w) = cancel i (life w).
Proof. unfold on_orch, cancelAndCleanupWorker, cancel, life. cbn. by case_match. Qed.

Lemma cancel_evolves i w : evolves w (on_orch (fun o => cancelAndCleanupWorker o i) w).
Proof.
  apply evolves_move; [rewrite life_cancel; apply move_cancel|by intros _ [? _]].
Qed.

Lemma settled_life w w' id : life w' = life w -> settled w id -> settled w' id.
Proof. unfold settled. by intros ->. Qed.

Lemma seen_abandon live i w : seen (abandonReviewerRun live i w) = seen w.
Proof.
  unfold abandonReviewerRun. case_match; [done|].
  assert (Ho : seen (on_orch (forget_injected i) w) = seen w).
  { apply (seen_orch (forget_injected i (w_orch w))). unfold forget_injected. by case_match. }
  rewrite <- Ho. by apply seen_state.
Qed.

Lemma seen_comment issue body w : seen (commentMaxRetriesExhausted issue body w) = seen w.
Proof. by apply seen_emit. Qed.

Lemma seen_park env id entry recovering w : seen (park_exhausted env id entry recovering w) = seen w.
Proof.
  unfold park_exhausted. cbn zeta. case_match; [done|]. case_match.
  - transitivity (seen (asyncDiscardAndTransitionTo env id (issue_Identifier (run_Issue entry))
      (tracker_FailedState (cfg_Tracker (o_cfg (w_orch w)))) (issue_State (run_Issue entry)) w));
      [apply seen_when, seen_clear|apply seen_discard].
  - apply seen_state. same_core.
Qed.

Lemma answer_used_evolves live i w : evolves w (on_state (answer_used live i) w).
Proof.
  unfold answer_used. destruct live as [r|]; [|by apply evolves_state].
  destruct (run_PendingInputResume r); [apply drop_resume_evolves|by apply evolves_state].
Qed.

Lemma settled_answer live i w id : settled w id -> settled (on_state (answer_used live i) w) id.
Proof. apply settled_life. unfold on_state, answer_used. destruct live; [|done]. by case_match. Qed.

Lemma pending_answer live i s id : retryPending id (answer_used live i s) = retryPending id s.
Proof. unfold answer_used. destruct live; [|done]. by case_match. Qed.

Definition free (w : World) (id : string) : Prop := settled w id /\ retryPending id (w_state w) = false.

Lemma free_idle w id : free w id -> idle (life w) id.
Proof. intros [? ?]. by apply settled_idle. Qed.

Lemma free_workers w w' id : workers w' = workers w -> free w id -> free w' id.
Proof.
  intros H [Hs Hp]. split; [by eapply workers_settled|]. by rewrite (workers_pending _ _ _ H).
Qed.

Lemma workers_state f w :
  Running (f (w_state w)) = Running (w_state w) -> RetryAttempts (f (w_state w)) = RetryAttempts (w_state w) ->
  workers (on_state f w) = workers w.
Proof. unfold workers, on_state. cbn. by intros -> ->. Qed.

Lemma workers_answer live i w : workers (on_state (answer_used live i) w) = workers w.
Proof. apply workers_state; unfold answer_used; destruct live; try done; by case_match. Qed.

(** A release, with the claim of the issue read off what is free. *)
Lemma released_evolves id f w :
  (strict -> free w id) -> core (f (w_state w)) = core (w_state w) ->
  evolves w (on_state (fun s => release id (f s)) w).
Proof.
  intros Hf Hc. via (on_state f w); [by apply evolves_state|].
  apply (release_evolves strict N id (on_state f w)). intros HS.
  apply free_idle. apply (free_workers w); [|by apply Hf]. by apply seen_workers, seen_state.
Qed.

Lemma exit_cancelled_evolves env id issue live w :
  (strict -> free w id) -> evolves w (exit_cancelled env id issue live w).
Proof.
  intros Hf. unfold exit_cancelled. cbn zeta. destruct (StatusHistory.take _ _) as [failed marks].
  match goal with |- evolves _ (recordHistory _ _ _ _ ?x) => via x; [|by apply seen_evolves, seen_history] end.
  set (w1 := on_orch _ w). assert (Hs : seen w1 = seen w) by (by apply (seen_orch (w_orch w1))).
  via w1; [by apply seen_evolves|].
  apply (released_evolves id (fun s => keep_session _ issue live (pause _ _ _ s)) w1); [|same_core].
  intros HS. by apply (free_workers w); [apply seen_workers|apply Hf].
Qed.

Lemma exit_terminated_evolves env id issue live w :
  (strict -> free w id) -> evolves w (exit_terminated env id issue live w).
Proof.
  intros Hf. unfold exit_terminated, asyncDiscardAndTransition. cbn zeta.
  match goal with |- evolves _ (discard _ _ _ _ _ _ ?x) => via x; [|by apply seen_evolves, seen_discard] end.
  match goal with |- evolves _ (abandonReviewerRun _ _ ?x) => via x; [|by apply seen_evolves, seen_abandon] end.
  match goal with |- evolves _ (recordHistory _ _ _ _ ?x) => via x; [|by apply seen_evolves, seen_history] end.
  set (w1 := on_state (answer_used live (issue_Identifier issue)) w).
  via w1; [apply answer_used_evolves|]. apply (release_evolves strict N id w1). intros HS.
  apply free_idle. apply (free_workers w); [apply workers_answer|by apply Hf].
Qed.

Lemma failed_run_evolves env ex entry live errMsg attempt nextAttempt tried w :
  (strict -> Good w) -> (strict -> named (run_Issue entry)) -> (strict -> free w (ex_IssueID ex)) ->
  forall redact, evolves w (exit_exhausted redact env ex entry live errMsg attempt nextAttempt tried w).
Proof.
  intros HG Hn Hf redact. unfold exit_exhausted. cbn zeta.
  set (w1 := on_state _ w).
  assert (H1 : evolves w w1).
  { via (on_state (release (ex_IssueID ex)) w); [apply (released_evolves (ex_IssueID ex) (fun s => s) w Hf); done|].
    apply (evolves_state strict N (count_transport (o_cfg (w_orch w)) errMsg) (on_state (release _) w)). same_core. }
  assert (HG1 : strict -> Good w1) by (intros HS; exact (evolves_good _ _ Ninj _ _ H1 HS (HG HS))).
  clearbody w1. set (body := maxRetriesExhaustedBody _ _ _). clearbody body.
  match goal with |- context [if ?b then dispatchRateLimitedFallback ?a1 ?a2 ?a3 ?a4 ?a5 ?a6 ?a7 else ?y] =>
    set (r := if b then dispatchRateLimitedFallback a1 a2 a3 a4 a5 a6 a7 else y) end.
  assert (H2 : evolves w1 (snd r)).
  { unfold r. case_match; [|apply evolves_refl].
    pose proof (fallback_evolves env (run_Issue entry) live errMsg nextAttempt (Some body) w1 HG1 Hn) as Hok.
    destruct (dispatchRateLimitedFallback _ _ _ _ _ _ _) as [[queued note] w2]. apply Hok. }
  clearbody r. destruct r as [[queued note] w2].
  cbn [snd] in H2. via w1; [exact H1|]. via w2; [exact H2|].
  set (w3 := match note with Some _ => _ | None => w2 end).
  assert (Hs3 : seen w3 = seen w2) by (unfold w3; case_match; [apply seen_comment|done]).
  via w3; [by apply seen_evolves|].
  via (run_failed_automations env (run_Issue entry) errMsg nextAttempt w3).
  { apply run_failed_evolves; [exact Ninj| |exact Hn]. apply (seen_good strict N Ninj w2); [exact Hs3|].
    intros HS. exact (evolves_good _ _ Ninj _ _ H2 HS (HG1 HS)). }
  apply seen_evolves. by rewrite seen_history, seen_abandon, seen_park.
Qed.

Lemma exit_retry_evolves env ex entry live errMsg nextAttempt w :
  (strict -> settled w (ex_IssueID ex)) -> evolves w (exit_retry env ex entry live errMsg nextAttempt w).
Proof.
  intros Hf. unfold exit_retry. cbn zeta.
  match goal with |- evolves _ (recordHistory _ _ _ _ ?x) => via x; [|by apply seen_evolves, seen_history] end.
  eapply schedule_evolves; [reflexivity|exact Hf].
Qed.

Lemma exit_failed_evolves redact env ex entry live errMsg attempt tried w :
  (strict -> Good w) -> (strict -> named (run_Issue entry)) -> (strict -> free w (ex_IssueID ex)) ->
  evolves w (exit_failed redact env ex entry live errMsg attempt tried w).
Proof.
  intros HG Hn Hf. unfold exit_failed. cbn zeta. case_match.
  - by apply failed_run_evolves.
  - apply exit_retry_evolves. intros HS. by apply Hf.
Qed.

Lemma exit_rate_limited_evolves redact env ex entry live errMsg attempt w :
  (strict -> Good w) -> (strict -> named (run_Issue entry) /\ issue_ID (run_Issue entry) = ex_IssueID ex) ->
  (strict -> free w (ex_IssueID ex)) ->
  evolves w (exit_rate_limited redact env ex entry live errMsg attempt w).
Proof.
  intros HG Hn Hf. unfold exit_rate_limited. cbn zeta.
  set (w1 := match live with Some r => _ | None => w end).
  assert (Hs : seen w1 = seen w).
  { unfold w1. destruct live; [apply seen_state; same_core|done]. }
  assert (HG1 := seen_good strict N Ninj w w1 Hs HG).
  assert (Hf1 : strict -> free w1 (ex_IssueID ex)).
  { intros HS. apply (free_workers w); [by apply seen_workers|by apply Hf]. }
  via w1; [by apply seen_evolves|]. clearbody w1. clear Hs Hf HG.
  set (w2 := on_state (release (ex_IssueID ex)) w1).
  assert (H2 : evolves w1 w2) by (apply (released_evolves (ex_IssueID ex) (fun s => s) w1 Hf1); done).
  assert (HG2 : strict -> Good w2) by (intros HS; exact (evolves_good _ _ Ninj _ _ H2 HS (HG1 HS))).
  assert (Hf2 : strict -> free w2 (ex_IssueID ex)).
  { intros HS. apply (free_workers w1); [by apply workers_state|by apply Hf1]. }
  assert (Hn' : strict -> named (run_Issue entry)) by (intros HS; by apply Hn).
  destruct (match live with Some r => backendFallbackCovers _ _ _ _ _ | None => false end).
  { match goal with |- evolves _ (recordHistory _ _ _ _ ?x) => via x; [|by apply seen_evolves, seen_history] end.
    via w2; [exact H2|]. apply dispatch_evolves; [exact Ninj|exact HG2|]. intros HS.
    destruct (Hn HS) as [? ->]. split; [done|]. by apply free_idle, Hf2. }
  destruct (exitedRunIsReviewer _ _ _); [by apply exit_failed_evolves|].
  pose proof (fallback_evolves env (run_Issue entry) live errMsg (add64 attempt 1) None w2 HG2 Hn') as Hok.
  destruct (dispatchRateLimitedFallback _ _ _ _ _ _ _) as [[queued note] w3].
  destruct Hok as (Hq & H3 & Hw). destruct (0 <? queued) eqn:Eq.
  { via w2; [exact H2|]. via w3; [exact H3|]. by apply seen_evolves, seen_history. }
  via w2; [exact H2|]. via w3; [exact H3|]. apply exit_failed_evolves; [|exact Hn'|].
  - intros HS. exact (evolves_good _ _ Ninj _ _ H3 HS (HG2 HS)).
  - intros HS. apply (free_workers w2); [apply Hw; lia|by apply Hf2].
Qed.

(** A success that closes a reviewer's run starts no second review. *)
Definition one_review (w : World) (live : option RunEntry) (identifier : string) : Prop :=
  fst (finished_as (w_orch w) live identifier) = "reviewer" ->
  reviewer_will_run (o_cfg (w_orch w)) live = false.

Lemma auto_review_evolves env issue w :
  (strict -> Good w) -> (strict -> named issue /\ idle (life w) (issue_ID issue)) ->
  evolves w (start_auto_review env issue w).
Proof.
  intros HG Hn. unfold start_auto_review.
  assert (Hs : seen (on_state (fun s => ResetReviewChain s (issue_Identifier issue)) w) = seen w)
    by (apply seen_state; same_core).
  destruct (ReviewerProfileChain _) as [|first [|? ?]]; [by apply reviewer_evolves..|].
  set (w1 := on_state _ w) in *. via w1; [by apply seen_evolves|].
  apply reviewer_evolves; [exact Ninj|by apply (seen_good strict N Ninj w)|]. by rewrite (seen_life _ _ Hs).
Qed.

Lemma seen_switch_success cfg i now w :
  seen (on_state (clear_switch_on_success cfg i now)
         (on_orch (fun o => o <| o_issueBackends := base.delete i (o_issueBackends o) |>) w)) = seen w.
Proof.
  transitivity (seen (on_orch (fun o => o <| o_issueBackends := base.delete i (o_issueBackends o) |>) w));
    [apply seen_state; same_core|by apply (seen_orch (w_orch w <| o_issueBackends := _ |>))].
Qed.

Lemma exit_succeeded_evolves env id entry live w :
  (strict -> Good w) -> (strict -> named (run_Issue entry) /\ issue_ID (run_Issue entry) = id) ->
  (strict -> free w id) -> (strict -> one_review w live (issue_Identifier (run_Issue entry))) ->
  evolves w (exit_succeeded env id entry live w).
Proof.
  intros HG Hn Hf Ho. unfold exit_succeeded. cbn zeta.
  set (issue := run_Issue entry) in *. set (i := issue_Identifier issue) in *.
  set (w1 := on_state (fun s => release id _) w).
  assert (H1 : evolves w w1).
  { via (on_state (answer_used live i) w); [apply answer_used_evolves|].
    apply (release_evolves strict N id (on_state (answer_used live i) w)). intros HS.
    apply free_idle, (free_workers w); [apply workers_answer|by apply Hf]. }
  assert (Hf1 : strict -> named issue /\ free w1 (issue_ID issue)).
  { intros HS. destruct (Hn HS) as [? ->]. split; [done|]. apply (free_workers w); [|by apply Hf].
    apply (workers_answer live i w). }
  assert (HG1 : strict -> Good w1) by (intros HS; exact (evolves_good _ _ Ninj _ _ H1 HS (HG HS))).
  change (w_orch w1) with (w_orch w). unfold one_review in Ho.
  destruct (finished_as (w_orch w) live i) as [kind profile]. cbn [fst] in Ho.
  set (cfg := o_cfg (w_orch w)) in *. clearbody w1. via w1; [exact H1|].
  match goal with |- context [when (String.eqb kind "reviewer") ?f w1] => set (w2 := when _ f w1) end.
  set (w5 := recordHistory _ _ _ _ _).
  assert (Hs5 : seen w5 = seen w2) by (unfold w5; rewrite seen_history; apply seen_switch_success).
  set (w6 := when _ (scheduleWorkspaceClear env entry) w5).
  assert (Hs6 : seen w6 = seen w2) by (rewrite <- Hs5; apply seen_when, seen_clear).
  clearbody w5. clearbody w6.
  destruct (String.eqb_spec kind "reviewer") as [Hk|Hk]; cbn [when] in w2.
  - assert (H2 : evolves w1 w2).
    { unfold w2. set (wf := on_orch (forget_injected i) w1).
      assert (Hsf : seen wf = seen w1).
      { apply (seen_orch (forget_injected i (w_orch w1))). unfold forget_injected. by case_match. }
      via wf; [by apply seen_evolves|]. apply advance_chain_evolves; [exact Ninj|by apply (seen_good strict N Ninj w1)|].
      rewrite (seen_life _ _ Hsf). intros HS. destruct (Hf1 HS). split; [done|]. by apply free_idle. }
    clearbody w2. via w2; [exact H2|]. via w6; [by apply seen_evolves|].
    destruct (reviewer_will_run cfg live) eqn:Er; [|apply evolves_refl]. cbn [when].
    apply auto_review_evolves; intros HS; by specialize (Ho HS Hk).
  - subst w2. via w6; [by apply seen_evolves|]. apply evolves_when.
    apply auto_review_evolves; [by apply (seen_good strict N Ninj w1)|]. rewrite (seen_life _ _ Hs6).
    intros HS. destruct (Hf1 HS). split; [done|]. by apply free_idle.
Qed.

Lemma seen_post env id i key body w : seen (snd (postInputRequiredComment env id i key body w)) = seen w.
Proof. unfold postInputRequiredComment. case_match; [by apply seen_emit|done]. Qed.

Lemma ask_human_evolves env id entry live q w :
  (strict -> Good w) -> (strict -> named (run_Issue entry)) ->
  (strict -> issue_Identifier (run_Issue entry) = N (ir_IssueID q)) ->
  evolves w (ask_human env id entry live q w).
Proof.
  intros HG Hn Hq. unfold ask_human. cbn zeta.
  match goal with |- context [postInputRequiredComment ?a ?b ?c ?d ?e ?f] =>
    pose proof (seen_post a b c d e f) as Hs; destruct (postInputRequiredComment a b c d e f) as [refused w1] end.
  cbn [snd] in Hs. set (w2 := when refused _ w1).
  assert (Hs2 : seen w2 = seen w) by (rewrite <- Hs; apply seen_when; by apply seen_emit).
  clearbody w2. via w2; [by apply seen_evolves|].
  match goal with |- evolves _ (recordHistory _ _ _ _ ?x) => via x; [|by apply seen_evolves, seen_history] end.
  set (q' := q <| ir_QuestionCommentKey := _ |>).
  eapply (evolves_bind strict N Ninj _ (on_state (fun s => set_input s (issue_Identifier (run_Issue entry)) q') w2));
    [by apply (seen_good strict N Ninj w)|by apply set_input_evolves|].
  intros HG3. by apply input_required_evolves.
Qed.

Lemma exit_input_evolves env id entry live question w :
  (strict -> Good w) -> (strict -> named (run_Issue entry) /\ issue_ID (run_Issue entry) = id) ->
  (strict -> free w id) -> (strict -> forall q, question = Some q -> ir_IssueID q = id) ->
  evolves w (exit_input_required env id entry live question w).
Proof.
  intros HG Hn Hf Hq. unfold exit_input_required. cbn zeta.
  set (w1 := on_state _ w).
  assert (H1 : evolves w w1).
  { via (on_state (release id) w); [apply (released_evolves id (fun s => s) w Hf); done|].
    apply (answer_used_evolves live _ (on_state (release id) w)). }
  via w1; [exact H1|]. destruct question as [q|]; [|apply evolves_refl].
  apply ask_human_evolves.
  - intros HS. exact (evolves_good _ _ Ninj _ _ H1 HS (HG HS)).
  - intros HS. by apply Hn.
  - intros HS. destruct (Hn HS) as [Hnm Hid]. rewrite (Hq HS q eq_refl), <- Hid. exact Hnm.
Qed.

Lemma exit_stack_evolves id issue w :
  (strict -> free w id) -> evolves w (on_state (exit_stack_unavailable id issue) w).
Proof.
  intros Hf. via (on_state (release id) w); [apply (released_evolves id (fun s => s) w Hf); done|].
  apply seen_evolves. unfold seen, exit_stack_unavailable, on_state. cbn. by case_match.
Qed.

Lemma exit_context_evolves env id issue live w :
  (strict -> settled w id) -> evolves w (exit_context_cancelled env id issue live w).
Proof.
  intros Hf. unfold exit_context_cancelled. match goal with |- context [when _ _ ?x] => set (w1 := x) end.
  via w1; [|apply seen_evolves, seen_when, seen_history]. unfold w1.
  destruct (retryPending id (w_state w)) eqn:Hp; [apply evolves_refl|].
  via (on_state (release id) w); [|apply seen_evolves, seen_abandon].
  apply (released_evolves id (fun s => s)); [|done]. intros HS. split; [by apply Hf|done].
Qed.

Lemma seen_worker_failure redact cfg entry err attempt now w :
  seen (on_state (fun s => recordWorkerFailure redact cfg s entry err attempt now) w) = seen w.
Proof. apply seen_state. same_core. Qed.

Lemma exit_stalled_evolves redact env ex entry live w : evolves w (exit_stalled redact env ex entry live w).
Proof.
  apply seen_evolves. unfold exit_stalled. cbn zeta.
  case_match; rewrite ?seen_abandon, seen_worker_failure; apply seen_history.
Qed.

(** Whether the outcome of the exit leaves a pending retry alone. *)
Definition keeps_retry (ex : Exit) (entry : RunEntry) : bool :=
  match run_TerminalReason entry with
  | TerminalStalled => true
  | TerminalCanceledByReconciliation | TerminalSucceeded | TerminalInputRequired
  | TerminalStackUnavailable => false
  | _ => match ex_Error ex with Some e => ee_Canceled e | None => false end
  end.

Lemma failed_exit_evolves redact env ex entry live w :
  (strict -> Good w) -> (strict -> named (run_Issue entry) /\ issue_ID (run_Issue entry) = ex_IssueID ex) ->
  (strict -> settled w (ex_IssueID ex)) ->
  (strict -> match ex_Error ex with Some e => ee_Canceled e | None => false end = false ->
             retryPending (ex_IssueID ex) (w_state w) = false) ->
  evolves w (handleFailedExit redact env ex entry live w).
Proof.
  intros HG Hn Hs Hp. unfold handleFailedExit. cbn zeta.
  destruct (match ex_Error ex with Some e => ee_Canceled e | None => false end);
    [by apply exit_context_evolves|].
  set (w1 := on_state _ w).
  assert (Hw : seen w1 = seen w) by apply seen_worker_failure.
  assert (HG1 := seen_good strict N Ninj w w1 Hw HG).
  assert (Hf1 : strict -> free w1 (ex_IssueID ex)).
  { intros HS. apply (free_workers w); [by apply seen_workers|]. split; [by apply Hs|by apply Hp]. }
  via w1; [by apply seen_evolves|]. clearbody w1.
  destruct (run_TerminalReason entry); try (apply exit_failed_evolves; [done|intros HS; by apply Hn|done]).
  by apply exit_rate_limited_evolves.
Qed.

Lemma exit_outcome_evolves redact env ex entry live w :
  (strict -> Good w) -> (strict -> named (run_Issue entry) /\ issue_ID (run_Issue entry) = ex_IssueID ex) ->
  (strict -> forall q, ex_InputRequired ex = Some q -> ir_IssueID q = ex_IssueID ex) ->
  (strict -> settled w (ex_IssueID ex)) ->
  (strict -> keeps_retry ex entry = false -> retryPending (ex_IssueID ex) (w_state w) = false) ->
  (strict -> one_review w live (issue_Identifier (run_Issue entry))) ->
  evolves w (exit_outcome redact env ex entry live w).
Proof.
  intros HG Hn Hq Hs Hp Ho. unfold exit_outcome, keeps_retry in *. cbn zeta.
  assert (Hf : run_TerminalReason entry ∈ [TerminalCanceledByReconciliation; TerminalSucceeded;
    TerminalInputRequired; TerminalStackUnavailable] -> strict -> free w (ex_IssueID ex)).
  { intros Hr HS. split; [by apply Hs|]. apply Hp; [done|].
    rewrite !elem_of_cons in Hr. by destruct Hr as [-> | [-> | [-> | [-> |?%not_elem_of_nil]]]]. }
  destruct (run_TerminalReason entry); try by apply failed_exit_evolves.
  - apply exit_succeeded_evolves; try done. apply Hf. set_solver.
  - apply (released_evolves (ex_IssueID ex) (fun s => s)); [|done]. apply Hf. set_solver.
  - apply exit_stalled_evolves.
  - apply exit_input_evolves; try done. apply Hf. set_solver.
  - apply exit_stack_evolves. apply Hf. set_solver.
Qed.

(** What the exit of a worker says, and what it finds: its issue is the one it
    is filed under, a retry is pending only where the outcome leaves it alone,
    and a success that counts as a review starts no second one. *)
Record exit_ok (w : World) (ex : Exit) (entry : RunEntry) : Prop := {
  eo_issue : named (run_Issue entry) /\ issue_ID (run_Issue entry) = ex_IssueID ex;
  eo_question : forall q, ex_InputRequired ex = Some q -> ir_IssueID q = ex_IssueID ex;
  eo_retry : retryPending (ex_IssueID ex) (w_state w) = true ->
    keeps_retry ex entry = true /\
    (issue_Identifier (run_Issue entry) ∉ o_userCancelledIDs (w_orch w) ∪ o_userTerminatedIDs (w_orch w));
  eo_review : one_review w (Running (w_state w) !! ex_IssueID ex) (issue_Identifier (run_Issue entry));
}.

Definition kept (o : Orchestrator) :=
  (o_cfg o, o_reviewerInjectedProfiles o, o_issueProfiles o, o_userCancelledIDs o, o_userTerminatedIDs o).

Lemma kept_cancel o i : kept (cancelAndCleanupWorker o i) = kept o.
Proof. unfold cancelAndCleanupWorker. by case_match. Qed.

Lemma exit_branches_evolve redact env ex entry live w (cancelled terminated : bool) :
  (strict -> Good w) -> (strict -> named (run_Issue entry) /\ issue_ID (run_Issue entry) = ex_IssueID ex) ->
  (strict -> forall q, ex_InputRequired ex = Some q -> ir_IssueID q = ex_IssueID ex) ->
  (strict -> settled w (ex_IssueID ex)) ->
  (strict -> retryPending (ex_IssueID ex) (w_state w) = true ->
    keeps_retry ex entry = true /\ cancelled = false /\ terminated = false) ->
  (strict -> one_review w live (issue_Identifier (run_Issue entry))) ->
  evolves w (if cancelled then exit_cancelled env (ex_IssueID ex) (run_Issue entry) live w
             else if terminated then exit_terminated env (ex_IssueID ex) (run_Issue entry) live w
             else exit_outcome redact env ex entry live w).
Proof.
  intros HG Hn Hq Hs Hp Ho.
  assert (Hf : (keeps_retry ex entry = true -> cancelled = true \/ terminated = true) ->
    strict -> free w (ex_IssueID ex)).
  { intros Hb HS. split; [by apply Hs|]. apply not_true_is_false. intros Ht.
    destruct (Hp HS Ht) as (Hk & -> & ->). by destruct (Hb Hk). }
  destruct cancelled; [apply exit_cancelled_evolves; auto|].
  destruct terminated; [apply exit_terminated_evolves; auto|].
  apply exit_outcome_evolves; try done. intros HS Hk. apply Hf; [congruence|done].
Qed.

(** The run is dropped first. *)
Definition exit_dropped (id : string) (w : World) : World :=
  on_state (fun s => s <| Running := base.delete id (Running s) |>)
    (on_orch (fun o => o <| o_exitsSent := base.delete id (o_exitsSent o) |>) w).

Lemma exit_dropped_evolves id w : evolves w (exit_dropped id w).
Proof.
  set (w0 := on_orch (fun o => o <| o_exitsSent := base.delete id (o_exitsSent o) |>) w).
  via w0; [by apply seen_evolves, (seen_orch (w_orch w0))|apply drop_run_evolves].
Qed.

(** Then the worker of the identifier is cancelled. *)
Lemma exit_settled id i w :
  Good w -> i = N id -> settled (on_orch (fun o => cancelAndCleanupWorker o i) (exit_dropped id w)) id.
Proof.
  intros [_ HI0] ->. assert (HI : Inv N (life (exit_dropped id w))).
  { apply (moves_inv True N Ninj (life w)); [done| |exact HI0]. apply rtc_once.
    match goal with |- move _ _ _ ?l => replace l with (life w <| lf_runs := lf_runs (life w) ∖ {[id]} |>) end;
      [apply move_drop|]. unfold life. cbn. by rewrite dom_delete_L. }
  split; rewrite life_cancel.
  - destruct (cancel_frame (N id) (life (exit_dropped id w))) as (-> & _). cbn. rewrite dom_delete_L. set_solver.
  - by apply cancelled_none.
Qed.

Lemma exit_rest_evolves redact env ex w :
  (strict -> Good w) -> (strict -> forall entry, ex_RunEntry ex = Some entry -> exit_ok w ex entry) ->
  evolves (exit_dropped (ex_IssueID ex) w) (handleExit redact env ex w).
Proof.
  intros HG Hok. unfold handleExit. cbn zeta. set (id := ex_IssueID ex) in *.
  pose proof (exit_dropped_evolves id w) as H1. change (on_state _ (on_orch _ w)) with (exit_dropped id w).
  set (w1 := exit_dropped id w) in *.
  destruct (ex_RunEntry ex) as [entry|]; [|apply evolves_refl].
  set (i := issue_Identifier (run_Issue entry)) in *.
  set (w2 := on_orch (fun o => cancelAndCleanupWorker o i) w1).
  set (w3 := on_state _ w2). assert (Hs3 : seen w3 = seen w2) by (apply seen_state; same_core).
  set (w4 := on_orch _ w3).
  assert (Hs4 : seen w4 = seen w2) by (rewrite <- Hs3; by apply (seen_orch (w_orch w4))).
  assert (H2 : evolves w1 w2) by apply cancel_evolves.
  assert (H12 : evolves w w2) by (via w1; [exact H1|exact H2]).
  assert (Horch : kept (w_orch w3) = kept (w_orch w)) by exact (kept_cancel (w_orch w1) i).
  assert (Hv4 : kept (w_orch w4) = (o_cfg (w_orch w), o_reviewerInjectedProfiles (w_orch w),
    o_issueProfiles (w_orch w), o_userCancelledIDs (w_orch w4), o_userTerminatedIDs (w_orch w4))).
  { unfold kept in *. injection Horch as <- <- <- _ _. done. }
  assert (Hmarks : o_userCancelledIDs (w_orch w3) = o_userCancelledIDs (w_orch w) /\
    o_userTerminatedIDs (w_orch w3) = o_userTerminatedIDs (w_orch w)) by (by injection Horch).
  destruct Hmarks as [-> ->]. via w4; [via w2; [exact H2|by apply seen_evolves]|].
  apply (exit_branches_evolve redact env ex entry (Running (w_state w) !! id) w4);
    try (intros HS; destruct (Hok HS entry eq_refl) as [He Hq Hr Hv]); [|done|done|..].
  - apply (seen_good strict N Ninj w2 w4 Hs4); [|exact HS]. intros _. exact (evolves_good _ _ Ninj _ _ H12 HS (HG HS)).
  - apply (settled_life w2); [by apply seen_life|]. apply exit_settled; [by apply HG|].
    unfold i. destruct He as [Hn Hid]. rewrite Hn. fold id in Hid. by rewrite Hid.
  - intros Ht. rewrite (workers_pending w2 w4) in Ht by (by apply seen_workers). destruct (Hr Ht) as [Hk Hm]. split; [exact Hk|].
    rewrite !bool_decide_eq_false. set_solver.
  - unfold one_review, finished_as, isReviewerInjected in *.
    set (o4 := w_orch w4) in *. clearbody o4. unfold kept in Hv4. injection Hv4 as -> -> ->. exact Hv.
Qed.

Lemma exit_evolves redact env ex w :
  (strict -> Good w) -> (strict -> forall entry, ex_RunEntry ex = Some entry -> exit_ok w ex entry) ->
  evolves w (handleExit redact env ex w).
Proof. intros HG Hok. via (exit_dropped (ex_IssueID ex) w); [apply exit_dropped_evolves|by apply exit_rest_evolves]. Qed.

End ExitHandlers.
