(* ===== verification/LoopHandlers.v ===== *)
(** * LoopHandlers: the reconciler, the dependency refresh, events and ticks

    Whole events and whole ticks move the lifecycle machine. *)

From stdpp Require Import base gmap list strings relations.
From S2P Require Import Prelude Domain State Config Retry Dispatch Order Resolve BackendHealth BackendGate.
From S2P Require Import AutomationQueue StatusHistory DependencyAudit Janitor Tracker Orchestrator LimitText.
From S2P Require Import Failures Outbox Flusher Automation Triggers RefreshWorker World DependencyRefresh.
From S2P Require Import RateLimited Reviews Replies Workers Exits Reconcile Events TickViews Tick.
From S2P Require Import Lifecycle Frames Handlers ExitHandlers.

Local Open Scope Z_scope.

Section LoopHandlers.
Context (strict : Prop) (N : string -> string) (Ninj : forall a b, N a = N b -> a = b).

Local Abbreviation Good := (Good N).
Local Abbreviation evolves := (evolves strict N).
Local Abbreviation named := (named N).

Local Ltac via x := eapply (evolves_trans strict N Ninj _ x).

(** ** The reconciler *)

(** A run is stopped: its worker is cancelled, then its run and claim go. *)
Lemma stopped_free id i w :
  (strict -> Good w) -> (strict -> i = N id) -> (strict -> is_Some (Running (w_state w) !! id)) ->
  let w' := stop_run id i w in
  evolves w w' /\ (strict -> free w' id).
Proof.
  intros HG Hi Hr w'.
  set (w1 := on_orch (fun o => cancelAndCleanupWorker o i) w).
  set (w2 := on_state (fun s => s <| Running := base.delete id (Running s) |>) w1).
  assert (H1 : evolves w w1) by apply cancel_evolves.
  assert (H2 : evolves w w2) by (via w1; [exact H1|apply drop_run_evolves]).
  assert (Hf : strict -> free w2 id).
  { intros HS. assert (HI : Inv N (life w)) by apply HG, HS. split; [split|].
    - cbn. rewrite dom_delete_L. set_solver.
    - change (forall n, ~ live (life w1) id n). unfold w1. rewrite life_cancel, (Hi HS).
      by apply cancelled_none.
    - apply bool_decide_eq_false. cbn. rewrite <- elem_of_dom. intros Ht.
      destruct (retry_idle N _ id HI Ht) as [Hn _]. apply Hn. cbn. apply elem_of_dom. by apply Hr. }
  split.
  - via w2; [exact H2|]. apply (release_evolves strict N id w2). intros HS. by apply free_idle, Hf.
  - intros HS. by apply (free_workers w2), Hf.
Qed.

(** A step on one run leaves the other runs in place. *)
Definition spares (w w' : World) (id : string) : Prop :=
  forall k, k <> id -> is_Some (Running (w_state w) !! k) -> is_Some (Running (w_state w') !! k).

Definition run_ok (w : World) (kv : string * RunEntry) : Prop :=
  issue_Identifier (run_Issue kv.2) = N kv.1 /\ is_Some (Running (w_state w) !! kv.1).

Lemma runs_foldl (f : World -> string * RunEntry -> World) l w :
  (forall w kv, (strict -> Good w) -> (strict -> run_ok w kv) ->
    evolves w (f w kv) /\ spares w (f w kv) kv.1) ->
  NoDup (map fst l) -> (strict -> Good w) -> (strict -> forall kv, kv ∈ l -> run_ok w kv) ->
  evolves w (foldl f w l).
Proof.
  intros Hf. revert w. induction l as [|kv l IH]; intros w Hnd HG Hl; cbn [foldl]; [apply evolves_refl|].
  cbn in Hnd. apply NoDup_cons in Hnd as [Hk Hnd].
  destruct (Hf w kv HG) as [He Hsp]; [intros HS; apply Hl; [done|constructor]|].
  via (f w kv); [exact He|]. apply IH; [exact Hnd| |].
  - intros HS. exact (evolves_good _ _ Ninj _ _ He HS (HG HS)).
  - intros HS kv' Hin. destruct (Hl HS kv') as [Hi Hr]; [by constructor|]. split; [done|].
    apply Hsp; [|done]. intros E. apply Hk. rewrite <- E. by apply list_elem_of_fmap_2.
Qed.

(** The runs a reconciler starts from. *)
Lemma runs_ok w : Good w -> forall kv, kv ∈ map_to_list (Running (w_state w)) -> run_ok w kv.
Proof.
  intros [Hn _] [id r] Hin%elem_of_map_to_list. destruct (nm_runs N _ Hn _ _ Hin) as [Hm <-].
  split; [exact Hm|by exists r].
Qed.

Lemma runs_nodup w : NoDup (map fst (map_to_list (Running (w_state w)))).
Proof. apply NoDup_fst_map_to_list. Qed.

Lemma stop_spares id i w : spares w (stop_run id i w) id.
Proof. intros k Hk [r Hr]. exists r. cbn. by rewrite lookup_delete_ne by done. Qed.

Lemma stop_emit_evolves e id r w :
  started_by e = None -> (strict -> Good w) -> (strict -> run_ok w (id, r)) ->
  evolves w (emit e (stop_run id (issue_Identifier (run_Issue r)) w)) /\
  spares w (emit e (stop_run id (issue_Identifier (run_Issue r)) w)) id.
Proof.
  intros He HG Hr. destruct (stopped_free id (issue_Identifier (run_Issue r)) w HG) as [H1 _].
  { intros HS. apply (Hr HS). }
  { intros HS. apply (Hr HS). }
  split; [|apply stop_spares]. via (stop_run id (issue_Identifier (run_Issue r)) w); [exact H1|].
  by apply evolves_emit.
Qed.

Lemma reconcile_stall_evolves env dur w kv :
  (strict -> Good w) -> (strict -> run_ok w kv) ->
  evolves w (reconcile_stall env dur w kv) /\ spares w (reconcile_stall env dur w kv) kv.1.
Proof.
  destruct kv as [id r]. intros HG Hr. unfold reconcile_stall. cbn zeta.
  destruct (_ <? _); [|split; [apply evolves_refl|by intros ? _ ?]].
  destruct (stopped_free id (issue_Identifier (run_Issue r)) w HG) as [H1 Hf].
  { intros HS. apply (Hr HS). }
  { intros HS. apply (Hr HS). }
  set (w1 := stop_run _ _ w) in *. split.
  - set (w2 := on_state _ w1). via w2; [|by apply evolves_emit]. via w1; [exact H1|].
    eapply schedule_evolves; [reflexivity|]. intros HS. by apply Hf.
  - apply stop_spares.
Qed.

Lemma stalls_evolve env w : (strict -> Good w) -> evolves w (ReconcileStalls env w).
Proof.
  intros HG. unfold ReconcileStalls. case_match; [apply evolves_refl|].
  apply runs_foldl; [|apply runs_nodup|exact HG|intros HS; by apply runs_ok, HG].
  intros. by apply reconcile_stall_evolves.
Qed.

Lemma refresh_run_evolves now id refreshed w :
  evolves w (on_state (refresh_run_state now id refreshed) w) /\
  spares w (on_state (refresh_run_state now id refreshed) w) id.
Proof.
  split.
  - apply evolves_unseen; try done; [apply dom_alter_L|].
    intros HS [Hr ? ? ?]. constructor; cbn; try assumption.
    intros id' r' H. apply lookup_alter_Some in H as [(<- & r & Hr' & ->)|[_ H]]; [|by apply Hr].
    by apply Hr in Hr'.
  - intros k Hk [r Hr]. exists r. cbn. by rewrite lookup_alter_ne by done.
Qed.

Lemma reconcile_run_evolves env byID w kv :
  (strict -> Good w) -> (strict -> run_ok w kv) ->
  evolves w (reconcile_run env byID w kv) /\ spares w (reconcile_run env byID w kv) kv.1.
Proof.
  destruct kv as [id r]. intros HG Hr. unfold reconcile_run. cbn zeta.
  case_bool_decide; [split; [apply evolves_refl|by intros ? _ ?]|].
  destruct (byID !! id) as [refreshed|]; [|by apply stop_emit_evolves].
  repeat (case_match; [apply refresh_run_evolves || by apply stop_emit_evolves|]).
  by apply stop_emit_evolves.
Qed.

Lemma tracker_states_evolve env w : (strict -> Good w) -> evolves w (reconcileTrackerStates env w).
Proof.
  intros HG. unfold reconcileTrackerStates. cbn zeta.
  pose proof (runs_nodup w) as Hnd.
  assert (Hok : strict -> forall kv, kv ∈ map_to_list (Running (w_state w)) -> run_ok w kv)
    by (intros HS; by apply runs_ok, HG).
  destruct (map_to_list (Running (w_state w))) as [|kv0 l] eqn:El; [apply evolves_refl|].
  destruct (env_by_ids env _) as [refreshed|]; [|apply evolves_refl].
  set (w1 := on_state _ w). assert (Hs : seen w1 = seen w) by (by apply seen_state).
  via w1; [by apply seen_evolves|]. apply runs_foldl; [|done|by apply (seen_good strict N Ninj w)|exact Hok].
  intros. by apply reconcile_run_evolves.
Qed.

(** ** Retries that are due *)

Lemma workers_sync w : workers (on_state (syncDrainRequest (w_orch w)) w) = workers w.
Proof. apply workers_state; by rewrite sync_spec. Qed.

(** A dispatch that files no run has started none. *)
Lemma dispatch_unfiled env issue attempt w :
  is_Some (Running (w_state (dispatch env issue attempt w)) !! issue_ID issue) \/
  workers (dispatch env issue attempt w) = workers w.
Proof.
  unfold dispatch. cbn zeta. pose proof (workers_sync w) as Hw.
  set (w1 := on_state (syncDrainRequest _) w) in *. clearbody w1.
  destruct (Draining (w_state w1)); [by right|].
  set (w2 := on_state (fun s => s <| ForceReanalyze := _ |>) w1).
  assert (Hw2 : workers w2 = workers w) by exact Hw. clearbody w2.
  destruct (selectWorkerHost _ _ _ _) as [host o] eqn:Eh. apply select_host_core in Eh.
  destruct (usable_profile _ _) as [name profile].
  match goal with |- context [dispatch_gate ?a ?b ?c ?d ?e ?f ?g] =>
    pose proof (core_dispatch_gate a b c d e f g) as Hg; destruct (dispatch_gate a b c d e f g) as [gate s] end.
  cbn [snd] in Hg. set (w3 := w2 <| w_orch := o |> <| w_state := s |>).
  assert (Hw3 : workers w3 = workers w).
  { rewrite <- Hw2. apply seen_workers. unfold seen. cbn in Hg |- *. by rewrite Hg, Eh. }
  change (w2 <| w_orch := o |> <| w_state := s |>) with w3. clearbody w3.
  destruct (gr_held gate); [by right|].
  set (w4 := when _ _ w3).
  assert (Hw4 : workers w4 = workers w) by (rewrite <- Hw3; apply seen_workers, seen_when, seen_reroute).
  clearbody w4. destruct (o_DryRun o); [right; exact Hw4|].
  left. unfold start_worker. cbn. rewrite lookup_insert_eq. eauto.
Qed.

(** The tracker answers with the issues asked for. *)
Definition by_ids_named (env : Env) : Prop :=
  forall ids l i, env_by_ids env ids = Some l -> i ∈ l -> named i /\ (issue_ID i ∈ ids).

Lemma fire_retry_evolves env id w :
  (strict -> Good w) -> (strict -> by_ids_named env) -> evolves w (fire_retry env w id).
Proof.
  intros HG Hn. unfold fire_retry. cbn zeta.
  destruct (RetryAttempts (w_state w) !! id) as [e|] eqn:He; [|apply evolves_refl].
  assert (Hcancel : evolves w (on_state (fun s => CancelRetry s id) w)).
  { apply cancel_retry_evolves; [exact Ninj|exact HG|]. intros _. by eexists. }
  case_bool_decide; [exact Hcancel|]. case_bool_decide; [apply evolves_refl|].
  destruct (time_before _ _); [apply evolves_refl|].
  assert (Hin : id ∈ lf_retries (life w)) by (cbn; apply elem_of_dom; by eexists).
  assert (Hset : strict -> settled w id).
  { intros HS. by apply (retry_idle N); [apply HG|]. }
  destruct (env_by_ids env [id]) as [[|issue l]|] eqn:Eb; [exact Hcancel| |eapply schedule_evolves; [reflexivity|exact Hset]].
  destruct (negb (isActiveState _ _)); [exact Hcancel|].
  assert (Hi : strict -> named issue /\ issue_ID issue = id).
  { intros HS. destruct (Hn HS [id] _ issue Eb) as [? Hid]; [constructor|].
    by apply list_elem_of_singleton in Hid. }
  set (w1 := auditFetchedIssueDependenciesAndDispatch env issue w).
  assert (H1 : evolves w w1).
  { apply audit_evolves; [exact Ninj|exact HG|]. intros HS. by apply Hi. }
  assert (Hh : strict -> hush w1 = hush w).
  { intros HS. apply audit_waiting. right. destruct (Hi HS) as [_ ->].
    pose proof (inv_retries N _ (proj2 (HG HS))) as Hsub. by apply Hsub. }
  assert (Hset1 : strict -> settled w1 id).
  { intros HS. apply (workers_settled w); [by apply hush_workers, Hh|by apply Hset]. }
  clearbody w1. via w1; [exact H1|].
  destruct (_ <=? 0); [eapply schedule_evolves; [reflexivity|exact Hset1]|].
  set (w2 := on_state (fun s => s <| RetryAttempts := base.delete id (RetryAttempts s) |>) w1).
  assert (H2 : evolves w1 w2).
  { apply (forget_evolves strict N (base.delete id (RetryAttempts (w_state w1)))), delete_subseteq. }
  assert (Hf2 : strict -> free w2 id).
  { intros HS. split; [exact (Hset1 HS)|]. unfold retryPending. cbn. rewrite lookup_delete_eq.
    apply bool_decide_eq_false. by intros [? ?]. }
  assert (HG2 : strict -> Good w2).
  { intros HS. apply (evolves_good _ _ Ninj w1 w2 H2 HS). exact (evolves_good _ _ Ninj _ _ H1 HS (HG HS)). }
  via w2; [exact H2|]. set (w3 := dispatch env issue (retry_Attempt e) w2).
  assert (H3 : evolves w2 w3).
  { apply dispatch_evolves; [exact Ninj|exact HG2|]. intros HS. destruct (Hi HS) as [? ->].
    split; [done|]. by apply free_idle, Hf2. }
  via w3; [exact H3|]. unfold held_again, on_state.
  destruct (BackendLimitedHolds (w_state w3) !! _) as [hold|] eqn:Eh; [|apply (evolves_state strict N (fun s => s)); done].
  case_bool_decide as Hr; [apply (evolves_state strict N (fun s => s)); done|].
  apply (schedule_evolves strict N (fun s => ScheduleRetry s id (retry_Attempt e) (retry_Identifier e)
    (held_error hold) (env_now env) (holdRetryDelay s hold (env_now env))) id _ _ _ _ _ w3 eq_refl).
  intros HS. destruct (Hi HS) as [_ Hid].
  destruct (dispatch_unfiled env issue (retry_Attempt e) w2) as [H'|Hw]; [by rewrite Hid in H'|].
  apply (workers_settled w2); [exact Hw|by apply Hf2].
Qed.

Lemma retries_evolve env w :
  (strict -> Good w) -> (strict -> by_ids_named env) -> evolves w (fireRetries env w).
Proof.
  intros HG Hn. unfold fireRetries.
  apply (evolves_foldl strict N Ninj _ (fun _ => True)); [|done|exact HG].
  intros w' id _ HG'. by apply fire_retry_evolves.
Qed.

(** ** The janitor's pass *)

(** Nothing the view and the names read grows. *)
Definition shrunk (s s' : State) : Prop :=
  Running s' = Running s /\ Claimed s' = Claimed s /\ RetryAttempts s' ⊆ RetryAttempts s /\
  AutomationQueue s' ⊆ AutomationQueue s /\ InputRequiredIssues s' ⊆ InputRequiredIssues s /\
  PendingInputResumes s' = PendingInputResumes s /\ Draining s' = Draining s.

Lemma shrunk_core s s' : core s' = core s -> shrunk s s'.
Proof. unfold core, shrunk. intros [= -> -> -> -> -> -> ->]. by split_and!. Qed.

Lemma shrunk_trans s1 s2 s3 : shrunk s1 s2 -> shrunk s2 s3 -> shrunk s1 s3.
Proof.
  intros (A1 & A2 & A3 & A4 & A5 & A6 & A7) (B1 & B2 & B3 & B4 & B5 & B6 & B7).
  split_and!; first [congruence|by etransitivity].
Qed.

Lemma shrunk_evolves f w : shrunk (w_state w) (f (w_state w)) -> evolves w (on_state f w).
Proof.
  intros (H1 & H2 & H3 & H4 & H5 & H6 & H7). apply evolves_move.
  - match goal with |- move _ _ _ ?l =>
      replace l with (life w <| lf_retries := dom (RetryAttempts (f (w_state w))) |>) end.
    + apply (move_forget strict N). cbn. by apply subseteq_dom.
    + unfold life. cbn. by rewrite H1, H2, H7.
  - intros _ [[Hr Hq Hi Hp] _]. constructor; cbn.
    + by rewrite H1.
    + intros k e He. eapply Hq, lookup_weaken; [exact He|exact H4].
    + intros k e He. eapply Hi, lookup_weaken; [exact He|exact H5].
    + by rewrite H6.
Qed.

Lemma core_janitor_row reason now s i : core (janitor_row reason now s i) = core s.
Proof. apply core_status_change. Qed.

Lemma core_janitor_rows reason now l s : core (foldl (janitor_row reason now) s l) = core s.
Proof. revert s. induction l as [|i l IH]; intros s; cbn [foldl]; [done|]. by rewrite IH, core_janitor_row. Qed.

Lemma shrunk_queue keep s : shrunk s (snd (pruneAutomationQueue keep s)).
Proof.
  unfold pruneAutomationQueue. case_match; [by apply shrunk_core|]. cbn zeta. cbn [snd].
  eapply shrunk_trans; [|apply shrunk_core, core_backpressure].
  split_and!; try done. apply map_filter_subseteq.
Qed.

Lemma shrunk_ledgers keep s counts r s' : pruneIssueLedgers keep s = (counts, r, s') -> shrunk s s'.
Proof.
  unfold pruneIssueLedgers, pausedCleanup, pruneMap. cbn zeta beta iota.
  set (s1 := s <| InputRequiredIssues := _ |> <| RetryAttempts := _ |>).
  assert (H1 : shrunk s s1) by (split_and!; try done; apply map_filter_subseteq). clearbody s1.
  pose proof (shrunk_queue keep s1) as H2. destruct (pruneAutomationQueue keep s1) as [n s2].
  intros E. injection E as <- <- <-. eapply shrunk_trans; [exact H1|].
  eapply shrunk_trans; [exact H2|by apply shrunk_core].
Qed.

Lemma shrunk_terminal s terminal now : shrunk s (snd (pruneTerminalRuntimeLedgers s terminal now)).
Proof.
  unfold pruneTerminalRuntimeLedgers. case_match; [by apply shrunk_core|]. cbn zeta.
  destruct (pruneIssueLedgers _ _) as [[counts r] s1] eqn:E. apply shrunk_ledgers in E.
  eapply (shrunk_trans _ s1).
  - eapply shrunk_trans; [|exact E]. by apply shrunk_core.
  - case_match; apply shrunk_core; [by rewrite <- (core_janitor_rows JanitorReasonIssueTerminal now (elements terminal) s1)|done].
Qed.

Lemma shrunk_absent s current prev now : shrunk s (snd (pruneAbsentTrackerIssues s current prev now)).
Proof.
  unfold pruneAbsentTrackerIssues. case_match; [by apply shrunk_core|]. cbn zeta.
  destruct (pruneIssueLedgers _ _) as [[counts r] s1] eqn:E. apply shrunk_ledgers in E.
  eapply (shrunk_trans _ s1); [exact E|]. unfold pruneMap. cbn zeta beta iota.
  apply shrunk_core. cbn [snd]. by rewrite core_janitor_rows.
Qed.

Lemma janitor_evolves cfg injected current prev now w :
  evolves w (on_state (janitor_pass cfg injected current prev now) w).
Proof.
  apply shrunk_evolves. unfold janitor_pass. cbn zeta.
  eapply shrunk_trans; [|apply shrunk_core, core_prune_reviews].
  eapply shrunk_trans; [|apply shrunk_core, core_prune_acks].
  eapply shrunk_trans; [|apply shrunk_core, core_expire].
  eapply shrunk_trans; [|apply shrunk_absent].
  eapply shrunk_trans; [|apply shrunk_terminal].
  apply shrunk_core. by rewrite core_prune_audit, core_prune_history, core_prune_switches.
Qed.

(** ** The dependency refresh *)

Definition result_named (r : DependencyRefreshResult) : Prop :=
  (forall d, d ∈ dr_Issues r -> named (dri_Issue d)) /\ (forall i, i ∈ dr_BlockersResolvedIssues r -> named i).

Lemma apply_refreshed_evolves env started w d :
  (strict -> Good w) -> (strict -> named (dri_Issue d)) -> evolves w (apply_refreshed env started w d).
Proof.
  intros HG Hn. unfold apply_refreshed. cbn zeta.
  destruct (DependencyAudit _ !! _) as [e|]; [|apply evolves_refl]. case_match; [apply evolves_refl|].
  destruct (match DependencyAudit _ !! _ with Some _ => _ | None => false end); [apply evolves_refl|].
  set (w1 := auditFetchedIssueDependenciesAndDispatch _ _ _). set (w2 := when _ _ w1).
  assert (Hs : seen w2 = seen w1) by (apply seen_when, seen_state; same_core).
  via w1; [by apply audit_evolves|]. via w2; [by apply seen_evolves|]. apply evolves_state. same_core.
Qed.

Lemma apply_scanned_evolves env started w i :
  (strict -> Good w) -> (strict -> named i) -> evolves w (apply_scanned env started w i).
Proof.
  intros HG Hn. unfold apply_scanned. case_match; [case_match; [apply evolves_refl|]|]; by apply audit_evolves.
Qed.

Lemma refresh_result_evolves env result w :
  (strict -> Good w) -> (strict -> result_named result) -> evolves w (applyDependencyRefreshResult env result w).
Proof.
  intros HG Hn. unfold applyDependencyRefreshResult. case_match; [apply evolves_refl|]. cbn zeta.
  set (w1 := on_state _ w). assert (Hs : seen w1 = seen w) by (apply seen_state; same_core).
  assert (HG1 := seen_good strict N Ninj w w1 Hs HG).
  via w1; [by apply seen_evolves|]. clearbody w1.
  set (w2 := foldl (apply_refreshed _ _) w1 _).
  assert (H2 : evolves w1 w2).
  { apply (evolves_foldl strict N Ninj _ (fun d => strict -> named (dri_Issue d))); [|intros d Hd HS|exact HG1].
    - intros. by apply apply_refreshed_evolves.
    - by apply (proj1 (Hn HS)). }
  assert (HG2 : strict -> Good w2) by (intros HS; exact (evolves_good _ _ Ninj _ _ H2 HS (HG1 HS))).
  via w2; [exact H2|]. clearbody w2. case_match; [|apply evolves_refl].
  set (w3 := foldl (apply_scanned _ _) w2 _).
  assert (H3 : evolves w2 w3).
  { apply (evolves_foldl strict N Ninj _ (fun i => strict -> named i)); [|intros i Hi HS|exact HG2].
    - intros. by apply apply_scanned_evolves.
    - by apply (proj2 (Hn HS)). }
  via w3; [exact H3|]. by apply evolves_state.
Qed.

Lemma reconcile_refresh_seen env w : seen (reconcileDependencyRefresh env w) = seen w.
Proof.
  unfold reconcileDependencyRefresh. cbn zeta.
  pose proof (core_reclaim (o_cfg (w_orch w)) (w_state w) (env_now env)) as H1.
  set (s1 := reclaimStuckDependencyRefresh _ _ _) in *. clearbody s1.
  case_match; [by apply seen_set|].
  match goal with |- context [selectDependencyRefreshBatch ?a ?b ?c ?d] =>
    pose proof (core_select a b c d) as H2; destruct (selectDependencyRefreshBatch a b c d) as [targets s2] end.
  cbn [snd] in H2. rewrite H1 in H2.
  repeat case_match; rewrite ?seen_emit by done; by apply seen_set.
Qed.

(** ** Events *)

Lemma worker_update_evolves env id u limit w : evolves w (on_state (worker_update env id u limit) w).
Proof.
  assert (Hrun : forall r, run_Issue (updated_run (env_now env) u r) = run_Issue r).
  { intros r. unfold updated_run. by repeat case_match. }
  unfold worker_update, on_state.
  destruct (Running (w_state w) !! id) as [r|] eqn:Hr; [|by apply (evolves_state strict N (fun s => s))].
  cbn zeta. set (r1 := updated_run _ _ _) in *. set (answered := _ && _).
  set (r2 := if answered then r1 <| run_PendingInputResume := false |> else r1).
  assert (Hr2 : run_Issue r2 = run_Issue r) by (rewrite <- (Hrun r); unfold r2; by case_match).
  set (s1 := if answered then _ else w_state w).
  assert (H1 : evolves w (on_state (fun _ => s1) w)).
  { unfold s1. destruct answered; [apply drop_resume_evolves|by apply (evolves_state strict N (fun s => s))]. }
  assert (E1 : Running s1 = Running (w_state w)) by (unfold s1; by case_match).
  clearbody s1 r2. set (s2 := s1 <| Running := _ |>).
  assert (H2 : evolves (on_state (fun _ => s1) w) (on_state (fun _ => s2) w)).
  { apply (evolves_unseen strict N (fun s => s <| Running := <[id := r2]> (Running s) |>)
      (on_state (fun _ => s1) w)); try done; cbn.
    - rewrite dom_insert_L, E1. apply elem_of_dom_2 in Hr. set_solver.
    - intros HS [Hrn ? ? ?]. constructor; cbn; try assumption.
      intros id' r' [[<- <-]|[_ ?]]%lookup_insert_Some; [|by apply Hrn].
      rewrite Hr2. apply Hrn. by rewrite E1. }
  via (on_state (fun _ => s1) w); [exact H1|]. destruct limit as [l|]; [|exact H2].
  via (on_state (fun _ => s2) w); [exact H2|].
  apply (evolves_state strict N (fun s => snd (recordBackendThrottle s (run_Backend r2) (run_WorkerHost r2)
    (issue_Identifier (run_Issue r2)) (Some l) (env_now env))) (on_state (fun _ => s2) w)). same_core.
Qed.

Lemma signal_evolves n f w :
  orch_core (f (w_orch w)) = orch_core (w_orch w) ->
  evolves w (on_orch (fun o => cancel_worker (f o) n) w).
Proof.
  intros H. apply evolves_move; [|by intros _ [? _]].
  match goal with |- move _ _ _ ?l =>
    replace l with (life w <| lf_cancelled := {[n]} ∪ lf_cancelled (life w) |>); [apply move_signal|] end.
  unfold orch_core in H. injection H as E1 E2 E3 E4. unfold life. cbn. by rewrite E1, E2, E3, E4.
Qed.

Lemma terminate_running_evolves i w : evolves w (terminate_running i w).
Proof.
  unfold terminate_running. destruct (stoppable i (w_state w)) as [n|]; [|apply evolves_refl].
  by apply (signal_evolves n (fun o => o <| o_userTerminatedIDs := {[i]} ∪ o_userTerminatedIDs o |>)).
Qed.

Lemma terminate_paused_seen env id i w : seen (terminate_paused env id i w) = seen w.
Proof.
  unfold terminate_paused. case_match; [|done]. set (w1 := on_state _ w).
  transitivity (seen w1); [|apply seen_state; same_core]. apply seen_when, seen_discard.
Qed.

Lemma provide_input_evolves env i message w :
  (strict -> Good w) -> (strict -> detail_named N env /\ prefetch_named N env) ->
  evolves w (provide_input env i message w).
Proof.
  intros HG Hn. unfold provide_input. destruct (InputRequiredIssues (w_state w) !! i) as [e|] eqn:He; [|apply evolves_refl].
  cbn zeta. set (w1 := on_state _ w).
  assert (H1 : evolves w w1).
  { apply queue_resume_evolves. intros HS. destruct (HG HS) as [Hnm _]. by apply (nm_input N _ Hnm). }
  match goal with |- context [postInputRequiredComment ?a ?b ?c ?d ?e ?f] =>
    pose proof (seen_post a b c d e f) as Hs; destruct (postInputRequiredComment a b c d e f) as [refused w2] end.
  cbn [snd] in Hs. via w1; [exact H1|]. via w2; [by apply seen_evolves|].
  apply resumes_evolve; [exact Ninj| |exact Hn]. apply (seen_good strict N Ninj w1); [exact Hs|].
  intros HS. exact (evolves_good _ _ Ninj _ _ H1 HS (HG HS)).
Qed.

Lemma dismiss_input_evolves i w : evolves w (on_state (dismiss_input i) w).
Proof.
  apply shrunk_evolves. unfold dismiss_input. case_match; [|by apply shrunk_core].
  eapply shrunk_trans; [|apply shrunk_core, core_pause]. split_and!; try done. apply delete_subseteq.
Qed.

Lemma question_fallback_evolves i res failed w :
  evolves w (on_state (fun s => handleInputQuestionFallback s i res failed) w).
Proof.
  assert (Hid : evolves w (on_state (fun s => s) w)) by (by apply evolves_state).
  unfold handleInputQuestionFallback, on_state in *. destruct res as [res|]; [|exact Hid].
  destruct (InputRequiredIssues (w_state w) !! i) as [e|] eqn:He; [|exact Hid].
  destruct (_ || _); [exact Hid|]. destruct failed; [exact Hid|].
  match goal with |- context [set_input _ _ ?e'] => apply (evolves_unseen strict N (fun s => set_input s i e')); try done end.
  intros HS Hnm. apply names_input; [|done]. by apply (nm_input N _ Hnm _ e).
Qed.

(** What the tracker and the fetches of the queue answer. *)
Record env_ok (env : Env) : Prop := {
  env_ok_detail : detail_named N env;
  env_ok_prefetch : prefetch_named N env;
  env_ok_ids : by_ids_named env;
  env_ok_states : forall states l i, env_by_states env states = Some l -> i ∈ l -> named i;
  env_ok_fetch : forall fetch key i,
    de_tracker (env_drain env) = Some fetch -> fetch key = Fetched i -> named i;
}.

Definition audits (env : Env) (issues : list Issue) (w : World) : World :=
  foldl (fun w i => auditFetchedIssueDependenciesAndDispatch env i w) w issues.

(** What an event brings with it.  A retry is cancelled while it is pending; a
    reviewer asked for by hand finds the issue idle. *)
Definition event_ok (env : Env) (w : World) (ev : Event) : Prop :=
  match ev with
  | EventWorkerExited ex => forall entry, ex_RunEntry ex = Some entry -> exit_ok N w ex entry
  | EventCancelRetry id _ => is_Some (RetryAttempts (w_state w) !! id)
  | EventDispatchReviewer i _ => forall issues found,
      env_by_states env (reviewer_states (o_cfg (w_orch w))) = Some issues ->
      List.find (fun issue => String.eqb (issue_Identifier issue) i) issues = Some found ->
      idle (life (audits env issues w)) (issue_ID found)
  | EventDispatchAutomation issue _ => named issue
  | EventDependencyAuditRefreshed result => result_named result
  | _ => True
  end.

Lemma dispatch_reviewer_evolves env i profile w :
  (strict -> Good w) -> (strict -> env_ok env) -> (strict -> event_ok env w (EventDispatchReviewer i profile)) ->
  evolves w (dispatch_reviewer env i profile w).
Proof.
  intros HG Hn Hok. unfold dispatch_reviewer. case_match; [apply evolves_refl|]. case_match; [apply evolves_refl|].
  cbn [event_ok] in Hok.
  destruct (env_by_states env _) as [issues|] eqn:Es; [|apply evolves_refl].
  assert (Hni : strict -> forall i, i ∈ issues -> named i) by (intros HS j Hj; by eapply (env_ok_states _ (Hn HS))).
  cbn zeta. fold (audits env issues w) in *.
  assert (H1 : evolves w (audits env issues w)) by (by apply audits_evolve).
  destruct (List.find _ issues) as [found|] eqn:Ef; [|exact H1].
  via (audits env issues w); [exact H1|]. apply reviewer_evolves; [exact Ninj| |].
  - intros HS. exact (evolves_good _ _ Ninj _ _ H1 HS (HG HS)).
  - intros HS. split; [|by apply (Hok HS issues)].
    apply (Hni HS). apply find_some in Ef as [Hin _]. by apply list_elem_of_In.
Qed.

Lemma cancel_event_evolves id i w :
  (strict -> Good w) -> (strict -> is_Some (RetryAttempts (w_state w) !! id)) ->
  evolves w (on_state (fun s => pause i id PauseReasonUserCancelled (CancelRetry s id)) w).
Proof.
  intros HG H. via (on_state (fun s => CancelRetry s id) w); [by apply cancel_retry_evolves|].
  apply (evolves_state strict N (pause i id PauseReasonUserCancelled) (on_state (fun s => CancelRetry s id) w)).
  same_core.
Qed.

(** The drain event says what its sender has announced. *)
Definition drain_announced (w : World) (ev : Event) : Prop :=
  ev = EventDrain -> Draining (w_state w) = true \/ o_drainRequested (w_orch w) = true.

Lemma apply_drain_evolves w :
  drain_announced w EventDrain -> evolves w (on_state applyDrain w).
Proof.
  intros Hd. unfold applyDrain, on_state. destruct (Draining (w_state w)) eqn:E.
  - by apply (evolves_state strict N (fun s => s)).
  - destruct (Hd eq_refl) as [?|Hr]; [congruence|]. apply evolves_move.
    + by apply (move_drain strict N (life w)).
    + intros _ [Hn _]. by apply (names_maps N (w_state w)).
Qed.

Lemma event_body_evolves redact env ev w :
  (strict -> Good w) -> (strict -> env_ok env) -> (strict -> event_ok env w ev) -> drain_announced w ev ->
  evolves w (event_body redact env ev w).
Proof.
  intros HG Hn Hok Hd.
  assert (Hr : strict -> detail_named N env /\ prefetch_named N env)
    by (intros HS; split; [apply (env_ok_detail _ (Hn HS))|apply (env_ok_prefetch _ (Hn HS))]).
  destruct ev; cbn [event_body].
  - apply worker_update_evolves.
  - by apply exit_evolves.
  - apply evolves_state. same_core.
  - apply evolves_state. same_core.
  - apply seen_evolves, terminate_paused_seen.
  - apply terminate_running_evolves.
  - by apply cancel_event_evolves.
  - by apply provide_input_evolves.
  - apply dismiss_input_evolves.
  - apply question_fallback_evolves.
  - apply evolves_state. same_core.
  - apply evolves_state. same_core.
  - by apply dispatch_reviewer_evolves.
  - by apply run_dispatch_evolves.
  - apply evolves_state. same_core.
  - by apply refresh_result_evolves.
  - apply evolves_state. same_core.
  - by apply apply_drain_evolves.
  - apply evolves_state. same_core.
  - apply evolves_state. same_core.
Qed.

Lemma event_evolves redact env ev w :
  (strict -> Good w) -> (strict -> env_ok env) -> (strict -> event_ok env w ev) -> drain_announced w ev ->
  evolves w (handleEvent redact env ev w).
Proof.
  intros HG Hn Hok Hd. unfold handleEvent.
  eapply evolves_bind; [exact Ninj|exact HG|by apply event_body_evolves|]. intros HG1.
  apply evolves_when. apply drain_evolves; [exact Ninj|exact HG1|]. intros HS.
  split; cbn; [exact (env_ok_fetch _ (Hn HS))|]. intros k i. by rewrite lookup_empty.
Qed.

(** ** The tick *)

Lemma before_fetch_evolves env w :
  (strict -> Good w) -> (strict -> env_ok env) -> evolves w (before_fetch env w).
Proof.
  intros HG Hn. unfold before_fetch. cbn zeta. set (w1 := on_state _ w).
  assert (Hs : seen w1 = seen w) by (apply seen_state; same_core).
  via w1; [by apply seen_evolves|]. clearbody w1. assert (HG1 := seen_good strict N Ninj w w1 Hs HG). clear HG. rename HG1 into HG.
  eapply evolves_bind; [exact Ninj|exact HG|apply retries_evolve; [exact HG|intros HS; apply (env_ok_ids _ (Hn HS))]|].
  intros HG2. eapply evolves_bind; [exact Ninj|exact HG2|by apply stalls_evolve|].
  intros HG3. by apply tracker_states_evolve.
Qed.

Lemma candidate_evolves env w issue :
  (strict -> Good w) -> (strict -> named issue) -> evolves w (dispatch_candidate env w issue).
Proof.
  intros HG Hn. unfold dispatch_candidate. cbn zeta. set (w1 := on_state _ w).
  assert (Hs : seen w1 = seen w) by (apply seen_state; same_core).
  via w1; [by apply seen_evolves|]. clearbody w1. assert (HG1 := seen_good strict N Ninj w w1 Hs HG). clear HG. rename HG1 into HG.
  destruct (IsEligible issue (w_state w1) _) eqn:He; cbn [negb]; [|apply evolves_refl].
  destruct (recoverInputRequired env issue) as [e|] eqn:Er.
  - eapply (evolves_bind strict N Ninj _ (on_state (fun s => set_input s (issue_Identifier issue) e) w1));
      [exact HG|apply set_input_evolves|].
    + intros HS. unfold recoverInputRequired in Er. repeat case_match; simplify_eq; by apply Hn.
    + intros HG2. by apply input_required_evolves.
  - apply dispatch_evolves; [exact Ninj|exact HG|]. intros HS. split; [by apply Hn|].
    apply unclaimed_idle with (N := N); [by apply HG|].
    unfold IsEligible, IneligibleReason, ineligibleReasonShared in He.
    repeat (case_match; try done); by eapply bool_decide_eq_false.
Qed.

Lemma dispatch_loop_evolves env issues w :
  (strict -> Good w) -> (strict -> forall i, i ∈ issues -> named i) -> evolves w (dispatch_loop env issues w).
Proof.
  revert w. induction issues as [|i issues IH]; intros w HG Hn; cbn [dispatch_loop]; [apply evolves_refl|].
  case_match; [apply evolves_refl|].
  eapply evolves_bind; [exact Ninj|exact HG|apply candidate_evolves; [exact HG|]|].
  - intros HS. apply (Hn HS). constructor.
  - intros HG2. apply IH; [exact HG2|]. intros HS j Hj. apply (Hn HS). by constructor.
Qed.

Definition tick_ok (t : TickEnv) : Prop :=
  env_ok (t_env t) /\ forall issues i, t_candidates t = inr issues -> i ∈ issues -> named i.

Lemma overlay_named io issues o syncing :
  (forall i, i ∈ issues -> named i) -> forall i, i ∈ fst (fst (overlay_loop io issues o syncing)) -> named i.
Proof.
  revert o syncing. induction issues as [|j issues IH]; intros o syncing Hn i; cbn [overlay_loop].
  { by intros ?%not_elem_of_nil. }
  match goal with |- context [match ?x with pair _ _ => _ end] => destruct x as [[j' o'] syncing'] eqn:E end.
  specialize (IH o' syncing'). destruct (overlay_loop io issues o' syncing') as [[rest o''] syncing''].
  cbn [fst]. intros [-> |Hi]%elem_of_cons.
  - assert (Hj : named j) by (apply Hn; constructor).
    repeat case_match; simplify_eq; exact Hj.
  - apply IH; [|exact Hi]. intros k Hk. apply Hn. by constructor.
Qed.

Lemma index_named issues :
  (forall i, i ∈ issues -> named i) -> forall k i, candidate_index issues !! k = Some i -> named i.
Proof.
  intros Hn. unfold candidate_index.
  match goal with |- context [foldl ?f] => set (F := f) end.
  enough (forall l m, (forall i, i ∈ l -> named i) -> (forall k i, m !! k = Some i -> named i) ->
    forall k i, foldl F m l !! k = Some i -> named i) as H.
  { apply H; [exact Hn|]. intros k i. by rewrite lookup_empty. }
  induction l as [|j l IH]; intros m Hl Hm; cbn [foldl]; [exact Hm|].
  apply IH; [intros i Hi; apply Hl; by constructor|].
  assert (Hj : named j) by (apply Hl; constructor).
  assert (Hins : forall (key : string) (m' : gmap string Issue), (forall k i, m' !! k = Some i -> named i) ->
    forall k i, <[key := j]> m' !! k = Some i -> named i).
  { intros key m' Hm' k i [[<- <-]|[_ ?]]%lookup_insert_Some; eauto. }
  unfold F. cbn zeta. repeat case_match; eauto.
Qed.

Lemma views_evolve cfg edges issues now w :
  evolves w (w <| w_state := snd (derive_views cfg edges issues now (w_state w)) |>).
Proof. apply seen_evolves, seen_set, core_views. Qed.

(** The steps of a tick from the audits to the review replays. *)
Lemma middle_evolves env issues w :
  (strict -> Good w) -> (strict -> env_ok env) -> (strict -> forall i, i ∈ issues -> named i) ->
  evolves w
    (let w := audits env issues w in
     let w := reconcileDependencyRefresh env w in
     let currentActive := identifiers issues in
     let w := on_state (fun s => foldl auto_resume s issues) w in
     let w := on_state (fun s => s <| PrevActiveIdentifiers := currentActive |>) w in
     let w := checkTrackerReplies env w in
     let w := processPendingInputResumes env w in
     resumePendingReviews env w).
Proof.
  intros HG Hn Hi. cbn zeta.
  assert (Hr : strict -> detail_named N env /\ prefetch_named N env)
    by (intros HS; split; [apply (env_ok_detail _ (Hn HS))|apply (env_ok_prefetch _ (Hn HS))]).
  eapply (evolves_bind strict N Ninj _ (audits env issues w)); [exact HG|by apply audits_evolve|]. intros HG1.
  set (w1 := audits env issues w) in *. clearbody w1.
  match goal with |- context [checkTrackerReplies env ?x] => set (w2 := x) end.
  assert (Hs : seen w2 = seen w1).
  { rewrite <- (reconcile_refresh_seen env w1). unfold w2.
    transitivity (seen (on_state (fun s => foldl auto_resume s issues) (reconcileDependencyRefresh env w1))).
    - by apply (seen_state (fun s => s <| PrevActiveIdentifiers := identifiers issues |>)).
    - apply seen_state. same_core. }
  via w2; [by apply seen_evolves|]. assert (HG2 := seen_good strict N Ninj w1 w2 Hs HG1). clearbody w2.
  eapply evolves_bind; [exact Ninj|exact HG2|by apply replies_evolve|]. intros HG3.
  eapply evolves_bind; [exact Ninj|exact HG3|by apply resumes_evolve|]. intros HG4.
  apply pending_reviews_evolve; [exact Ninj|exact HG4|]. intros HS. apply (env_ok_detail _ (Hn HS)).
Qed.

Lemma dispatch_sort_subset cfg metrics issues i : i ∈ dispatch_sort cfg metrics issues -> i ∈ issues.
Proof.
  unfold dispatch_sort, SortForDispatch, SortForDispatchCriticalPath, SortForDispatchCriticalPathStrict,
    sortForDispatchBy.
  repeat case_match; by rewrite sort_stable_perm.
Qed.

Lemma after_fetch_evolves t issues syncing w :
  (strict -> Good w) -> (strict -> env_ok (t_env t)) -> (strict -> forall i, i ∈ issues -> named i) ->
  evolves w (after_fetch t issues syncing w).
Proof.
  intros HG Hn Hi. unfold after_fetch. cbn zeta. set (env := t_env t) in *.
  set (cfg := o_cfg (w_orch w)). set (w0 := on_state _ w).
  assert (Hs0 : seen w0 = seen w) by (by apply seen_state).
  pose proof (views_evolve cfg (t_edges t) issues (env_now env) w0) as H1.
  destruct (derive_views _ _ _ _ _) as [metrics s]. cbn [snd] in H1.
  set (w1 := w0 <| w_state := s |>) in *.
  assert (H01 : evolves w w1) by (via w0; [by apply seen_evolves|exact H1]).
  assert (HG1 : strict -> Good w1) by (intros HS; exact (evolves_good _ _ Ninj _ _ H01 HS (HG HS))).
  via w1; [exact H01|]. clearbody w1.
  pose proof (middle_evolves env issues w1 HG1 Hn Hi) as H2. cbn zeta in H2. unfold audits in H2.
  match type of H2 with Lifecycle.evolves _ _ _ ?x => set (w2 := x) in * end.
  assert (HG2 : strict -> Good w2) by (intros HS; exact (evolves_good _ _ Ninj _ _ H2 HS (HG1 HS))).
  match goal with |- context [PrevActiveIdentifiers (w_state ?x)] => set (prevActive := PrevActiveIdentifiers (w_state x)) end.
  via w2; [exact H2|]. clearbody w2 prevActive.
  set (w3 := drain_with_candidates _ env w2).
  assert (H3 : evolves w2 w3).
  { apply drain_evolves; [exact Ninj|exact HG2|]. intros HS.
    split; cbn; [exact (env_ok_fetch _ (Hn HS))|]. intros k i. by apply index_named, Hi. }
  assert (HG3 : strict -> Good w3) by (intros HS; exact (evolves_good _ _ Ninj _ _ H3 HS (HG2 HS))).
  via w3; [exact H3|]. clearbody w3. set (w4 := dispatch_loop env _ w3).
  assert (H4 : evolves w3 w4).
  { apply dispatch_loop_evolves; [exact HG3|].
    intros HS i Hin. apply (Hi HS). by apply (dispatch_sort_subset cfg metrics). }
  via w4; [exact H4|]. clearbody w4. set (w5 := on_state (observe_pressure cfg issues) w4).
  via w5; [apply evolves_state; same_core|]. apply janitor_evolves.
Qed.

Lemma tick_evolves redact t w outbox :
  (strict -> Good w) -> (strict -> tick_ok t) -> evolves w (fst (onTick redact t w outbox)).
Proof.
  intros HG Hn. unfold onTick. cbn zeta.
  assert (He : strict -> env_ok (t_env t)) by (intros HS; apply (Hn HS)).
  eapply evolves_bind; [exact Ninj|exact HG|by apply before_fetch_evolves|]. intros HG1.
  set (w1 := before_fetch (t_env t) w) in *. clearbody w1.
  case_match.
  { apply resumes_evolve; [exact Ninj|exact HG1|]. intros HS.
    split; [apply (env_ok_detail _ (He HS))|apply (env_ok_prefetch _ (He HS))]. }
  destruct (t_candidates t) as [err|issues] eqn:Et; [apply evolves_state; same_core|].
  set (w2 := on_state _ w1). assert (Hs : seen w2 = seen w1) by (apply seen_state; same_core).
  assert (HG2 := seen_good strict N Ninj w1 w2 Hs HG1). via w2; [by apply seen_evolves|]. clearbody w2.
  assert (Hi : strict -> forall i, i ∈ fst (fst (reconcileAndOverlayOutbox (t_io t) issues outbox)) -> named i).
  { intros HS. unfold reconcileAndOverlayOutbox. destruct outbox as [o|]; [|cbn; intros i; apply (Hn HS); done].
    pose proof (overlay_named (t_io t) issues o ∅ (fun i => proj2 (Hn HS) issues i Et)) as H'.
    by destruct (overlay_loop _ _ _ _) as [[? ?] ?]. }
  destruct (reconcileAndOverlayOutbox _ _ _) as [[issues' o'] syncing]. by apply after_fetch_evolves.
Qed.

End LoopHandlers.
