(* ===== verification/Loop.v ===== *)
(** * Loop: the event loop's iterations and the steps between them
    (internal/orchestrator/event_loop.go 24-111, drain.go, drain_collect.go,
    state.go 706-753)

    An iteration applies an announced drain, handles one tick or one event and
    looks whether the drain is over.  Between iterations other goroutines
    change the orchestrator's shared fields; [outside] bounds what they may do.
    The theorems speak of every sequence of such steps. *)

From stdpp Require Import base gmap list strings relations.
From S2P Require Import Prelude Domain State Config Retry Dispatch BackendHealth Outbox AutomationQueue Tracker.
From S2P Require Import Orchestrator Automation Triggers World DependencyRefresh Workers Exits Reconcile.
From S2P Require Import Events TickViews Tick Lifecycle Frames Handlers ExitHandlers LoopHandlers.

Local Open Scope Z_scope.

(** ** The loop *)

Definition NewState (cfg : Config) : State :=
  empty_State
    <| PollIntervalMs := cfg_PollingIntervalMs cfg |>
    <| MaxConcurrentAgents := agent_MaxConcurrentAgents (cfg_Agent cfg) |>
    <| ActiveStates := tracker_ActiveStates (cfg_Tracker cfg) |>
    <| CompletionState := tracker_CompletionState (cfg_Tracker cfg) |>
    <| TerminalStates := tracker_TerminalStates (cfg_Tracker cfg) |>
    <| PauseDispatchWhenAnyInState :=
         normalizePauseStates (agent_PauseDispatchWhenAnyInState (cfg_Agent cfg)) |>
    <| QueueBackpressure :=
         MkAutomationQueueBackpressure 0 (agent_MaxAutomationQueueLength (cfg_Agent cfg)) false false 0
           zero_time "" "" "" "" |>
    <| StackOnReviewState := stackOnReviewState cfg |>.

(** The loop with the outbox it shares and the [Drained] signal. *)
Record Daemon := MkDaemon {
  d_world : World;
  d_outbox : option Outbox;
  d_drained : bool;
}.

Definition boot (cfg : Config) : Daemon :=
  MkDaemon (MkWorld (new_orchestrator cfg) (NewState cfg) []) None false.

(** What the select of an iteration picks. *)
Inductive Input :=
  | Ticked (t : TickEnv)
  | Received (env : Env) (ev : Event).

Definition AdmissionClosed (w : World) : bool := Draining (w_state w) || o_drainRequested (w_orch w).

Definition RequestDrain (o : Orchestrator) : Orchestrator := o <| o_drainRequested := true |>.

Section redaction.
Context (redact : string -> string).

Definition synced (w : World) : World := on_state (syncDrainRequest (w_orch w)) w.

Definition handle (i : Input) (w : World) (outbox : option Outbox) : World * option Outbox :=
  match i with
  | Ticked t => onTick redact t w outbox
  | Received env ev => (handleEvent redact env ev w, outbox)
  end.

Definition iteration (i : Input) (d : Daemon) : Daemon :=
  let '(w, outbox) := handle i (synced (d_world d)) (d_outbox d) in
  MkDaemon w outbox (d_drained d || observeDrained (w_state w)).

(** The exits of cancelled workers after the loop has ended (drain_collect.go);
    the end of the list is the deadline. *)
Fixpoint collect (exits : list (Env * Exit)) (w : World) : World :=
  match exits with
  | [] => w
  | (env, ex) :: rest =>
      if decide (size (Running (w_state w)) = 0%nat) then w
      else collect rest (handleEvent redact env (EventWorkerExited ex) w)
  end.

Definition collectExitsAfterCancel (exits : list (Env * Exit)) (w : World) : World :=
  if decide (size (Running (w_state w)) = 0%nat) then w
  else
    let w := on_state (fun s => s <| Draining := true |>) w in
    let w := on_orch (fun o => o <| o_stoppingAfterCancel := true |>) w in
    on_orch (fun o => o <| o_stoppingAfterCancel := false |>) (collect exits w).

(** ** Steps *)

(** Other goroutines cancel workers and announce a drain; only the loop
    registers workers. *)
Definition outside (o o' : Orchestrator) : Prop :=
  o_workerCancels o' = o_workerCancels o /\ o_nextWorker o' = o_nextWorker o /\
  o_cancelled o ⊆ o_cancelled o' /\ (o_drainRequested o = true -> o_drainRequested o' = true).

Inductive step (ok : World -> Input -> Prop) (d : Daemon) : Daemon -> Prop :=
  | step_loop i : ok (synced (d_world d)) i -> step ok d (iteration i d)
  | step_outside o : outside (w_orch (d_world d)) o ->
      step ok d (MkDaemon (d_world d <| w_orch := o |>) (d_outbox d) (d_drained d)).

(** The workers started so far. *)
Definition started (d : Daemon) : list (nat * string) := lf_started (life (d_world d)).

(** What the iterations are held to for the lifecycle theorems. *)
Definition input_ok (N : string -> string) (w : World) (i : Input) : Prop :=
  match i with
  | Ticked t => tick_ok N t
  | Received env ev => env_ok N env /\ event_ok N env w ev /\ drain_announced w ev
  end.

(** A daemon that starts: it has no run and no retry, and what it has read from
    its ledgers names issues properly. *)
Record booted (N : string -> string) (w : World) : Prop := {
  bo_runs : Running (w_state w) = ∅;
  bo_retries : RetryAttempts (w_state w) = ∅;
  bo_started : omap started_by (w_effects w) = [];
  bo_names : Names N (w_state w);
}.

(** ** Lemmas *)

Lemma synced_closed w : AdmissionClosed w = true -> Draining (w_state (synced w)) = true.
Proof. unfold AdmissionClosed, synced, on_state. cbn. by rewrite sync_spec. Qed.

Lemma synced_runs w : lf_runs (life (synced w)) = lf_runs (life w).
Proof. unfold synced, on_state. cbn. by rewrite sync_spec. Qed.

Lemma handle_evolves (strict : Prop) N (Ninj : forall a b, N a = N b -> a = b) i w outbox :
  (strict -> Good N w /\ input_ok N w i) -> (forall env ev, i = Received env ev -> drain_announced w ev) ->
  evolves strict N w (fst (handle i w outbox)).
Proof.
  intros H Hd. destruct i as [t|env ev]; cbn [handle fst].
  - apply tick_evolves; [exact Ninj|..]; intros HS; by apply H.
  - apply event_evolves; [exact Ninj|..]; try (intros HS; by apply H). by apply (Hd env).
Qed.

Lemma iteration_world i d :
  d_world (iteration i d) = fst (handle i (synced (d_world d)) (d_outbox d)).
Proof. unfold iteration. by destruct (handle _ _ _). Qed.

Lemma id_inj (a b : string) : (fun s : string => s) a = (fun s : string => s) b -> a = b.
Proof. done. Qed.

(** A handler of a draining loop. *)
Lemma draining_handle i w outbox :
  Draining (w_state w) = true ->
  let w' := fst (handle i w outbox) in
  Draining (w_state w') = true /\ lf_started (life w') = lf_started (life w) /\
  lf_runs (life w') ⊆ lf_runs (life w).
Proof.
  intros Hd w'.
  assert (He : evolves False (fun s => s) w w').
  { apply (handle_evolves False _ id_inj); [done|]. intros env ev _ _. by left. }
  exact (moves_draining False (fun s => s) _ _ (ev_moves _ _ _ _ He) Hd).
Qed.

Lemma closed_step ok d d' :
  step ok d d' -> AdmissionClosed (d_world d) = true ->
  AdmissionClosed (d_world d') = true /\ started d' = started d /\
  lf_runs (life (d_world d')) ⊆ lf_runs (life (d_world d)) /\
  (d_drained d = true -> d_drained d' = true).
Proof.
  intros Hs Hc. destruct Hs as [i _|o (_ & _ & _ & Ho)].
  - unfold started. rewrite iteration_world.
    destruct (draining_handle i (synced (d_world d)) (d_outbox d) (synced_closed _ Hc)) as (Hd & Hst & Hr).
    rewrite synced_runs in Hr.
    split_and!; [|exact Hst|exact Hr|].
    + unfold AdmissionClosed. by rewrite Hd.
    + intros Hdr. unfold iteration. destruct (handle _ _ _). cbn. by rewrite Hdr.
  - split_and!; [|done..]. unfold AdmissionClosed in *. cbn.
    destruct (Draining _); [done|]. by apply Ho.
Qed.

Lemma closed_steps ok d d' :
  rtc (step ok) d d' -> AdmissionClosed (d_world d) = true ->
  AdmissionClosed (d_world d') = true /\ started d' = started d /\
  lf_runs (life (d_world d')) ⊆ lf_runs (life (d_world d)) /\
  (d_drained d = true -> d_drained d' = true).
Proof.
  induction 1 as [d|d1 d2 d3 Hs _ IH]; intros Hc; [done|].
  destruct (closed_step ok _ _ Hs Hc) as (Hc2 & H1 & H2 & H3).
  destruct (IH Hc2) as (Hc3 & H4 & H5 & H6). split_and!; [done|congruence|set_solver|auto].
Qed.

Lemma booted_good N w : booted N w -> Good N w.
Proof.
  intros [Hr Ht Hst Hn]. split; [exact Hn|].
  assert (Hlive : forall id n, ~ live (life w) id n).
  { intros id n [Hin _]. unfold life in Hin. cbn in Hin. rewrite Hst in Hin. by apply not_elem_of_nil in Hin. }
  constructor; cbn; rewrite ?Hr, ?Ht, ?dom_empty_L; [set_solver..|].
  intros id n H. by apply Hlive in H.
Qed.

Lemma outside_good N w o : outside (w_orch w) o -> Good N w -> Good N (w <| w_orch := o |>).
Proof.
  intros (Hc & Hn & Hk & _) [Hnm [H1 H2 H3 Hl]]. split; [exact Hnm|]. constructor; try assumption.
  intros id n [Hin Hnc]. cbn in Hin, Hnc. cbn. rewrite Hc. apply Hl. split; [done|]. cbn. set_solver.
Qed.

Lemma synced_evolves strict N w : evolves strict N w (synced w).
Proof. apply evolves_sync. Qed.

Lemma iteration_evolves N (Ninj : forall a b, N a = N b -> a = b) i d :
  Good N (d_world d) -> input_ok N (synced (d_world d)) i ->
  evolves True N (d_world d) (d_world (iteration i d)).
Proof.
  intros HG Hi. rewrite iteration_world.
  eapply (evolves_trans True N Ninj _ (synced (d_world d))); [apply synced_evolves|].
  apply handle_evolves; [exact Ninj| |].
  - intros _. split; [|exact Hi]. by apply (evolves_good True N Ninj _ _ (synced_evolves True N (d_world d)) I HG).
  - intros env ev ->. apply Hi.
Qed.

Lemma step_good N (Ninj : forall a b, N a = N b -> a = b) d d' :
  step (input_ok N) d d' -> Good N (d_world d) -> Good N (d_world d').
Proof.
  intros [i Hi|o Ho] HG.
  - exact (evolves_good True N Ninj _ _ (iteration_evolves N Ninj i d HG Hi) I HG).
  - by apply outside_good.
Qed.

Lemma steps_good N (Ninj : forall a b, N a = N b -> a = b) d d' :
  rtc (step (input_ok N)) d d' -> Good N (d_world d) -> Good N (d_world d').
Proof. induction 1; [done|]. intros. eauto using step_good. Qed.

End redaction.

(** ** Collecting the exits of a forced stop *)

Lemma draining_exit redact env ex w :
  Draining (w_state w) = true ->
  let w' := handleEvent redact env (EventWorkerExited ex) w in
  Draining (w_state w') = true /\ lf_started (life w') = lf_started (life w) /\
  lf_runs (life w') ⊆ lf_runs (life w) ∖ {[ex_IssueID ex]}.
Proof.
  intros Hd w'. set (w1 := exit_dropped (ex_IssueID ex) w).
  assert (He : evolves False (fun s => s) w1 w').
  { apply (evolves_trans False _ id_inj _ (handleExit redact env ex w)).
    - by apply (exit_rest_evolves False (fun s => s) id_inj).
    - by apply drain_evolves. }
  replace (lf_runs (life w) ∖ {[ex_IssueID ex]}) with (lf_runs (life w1))
    by (unfold w1, life; cbn; by rewrite dom_delete_L).
  exact (moves_draining False (fun s => s) _ _ (ev_moves _ _ _ _ He) Hd).
Qed.

Lemma collect_draining redact exits w :
  Draining (w_state w) = true ->
  lf_started (life (collect redact exits w)) = lf_started (life w) /\
  lf_runs (life (collect redact exits w)) ⊆ lf_runs (life w) ∖ list_to_set (map (fun x => ex_IssueID x.2) exits).
Proof.
  revert w. induction exits as [|[env ex] exits IH]; intros w Hd; cbn [collect].
  { split; [done|]. cbn. set_solver. }
  destruct (decide (size (Running (w_state w)) = 0%nat)) as [H0|H0].
  { split; [done|]. apply map_size_empty_iff in H0. unfold life. cbn. rewrite H0, dom_empty_L. set_solver. }
  destruct (draining_exit redact env ex w Hd) as (Hd' & Hs & Hr).
  destruct (IH _ Hd') as [Hs' Hr']. split; [congruence|]. cbn [map list_to_set snd]. set_solver.
Qed.

Lemma runs_empty w : lf_runs (life w) ⊆ ∅ -> Running (w_state w) = ∅.
Proof. unfold life. cbn. intros H. apply dom_empty_inv_L. set_solver. Qed.

(** ** What the lifecycle development shows *)

(** C2: once a drain has been announced or applied, no sequence of ticks, events
    and outside changes starts a worker, and no run is added: the set of runs
    only shrinks. *)
Theorem drain_starts_nothing redact d d' :
  AdmissionClosed (d_world d) = true -> rtc (step redact (fun _ _ => True)) d d' ->
  AdmissionClosed (d_world d') = true /\ started d' = started d /\
  dom (Running (w_state (d_world d'))) ⊆ dom (Running (w_state (d_world d))).
Proof. intros Hc Hs. destruct (closed_steps redact _ _ _ Hs Hc) as (H1 & H2 & H3 & _). done. Qed.

Lemma drained_closed redact d d' :
  rtc (step redact (fun _ _ => True)) d d' ->
  (d_drained d = true -> AdmissionClosed (d_world d) = true /\ Running (w_state (d_world d)) = ∅) ->
  d_drained d' = true -> AdmissionClosed (d_world d') = true /\ Running (w_state (d_world d')) = ∅.
Proof.
  induction 1 as [d|d1 d2 d3 Hs _ IH]; intros Hok; [done|]. apply IH.
  destruct (d_drained d1) eqn:E1.
  - intros _. destruct (Hok eq_refl) as [Hc Hr].
    destruct (closed_step redact _ _ _ Hs Hc) as (Hc2 & _ & Hsub & _). split; [done|].
    apply runs_empty. unfold life in Hsub at 2. cbn in Hsub. by rewrite Hr, dom_empty_L in Hsub.
  - destruct Hs as [i _|o _]; [|cbn; congruence]. unfold iteration.
    destruct (handle redact i _ _) as [w outbox]. cbn. rewrite E1. cbn.
    unfold observeDrained, AdmissionClosed. intros [Hd H0]%andb_true_iff. rewrite Hd. split; [done|].
    by apply map_size_empty_iff, (bool_decide_eq_true_1 _ H0).
Qed.

(** C14: the drained signal is true to its word: when it closes no run is left,
    and from then on there is never a run or a new worker again. *)
Theorem drained_means_done redact d d1 d2 :
  d_drained d = false -> rtc (step redact (fun _ _ => True)) d d1 -> d_drained d1 = true ->
  rtc (step redact (fun _ _ => True)) d1 d2 ->
  d_drained d2 = true /\ Running (w_state (d_world d2)) = ∅ /\ started d2 = started d1.
Proof.
  intros Hd H1 Hd1 H2.
  destruct (drained_closed redact _ _ H1 ltac:(congruence) Hd1) as [Hc Hr].
  destruct (closed_steps redact _ _ _ H2 Hc) as (_ & Hs & Hsub & Hdr). split_and!; [auto| |exact Hs].
  apply runs_empty. unfold life in Hsub at 2. cbn in Hsub. by rewrite Hr, dom_empty_L in Hsub.
Qed.

(** C15: a forced stop admits nothing while it collects the exits of the
    cancelled workers; an exit whose run is live takes the run away, so
    nothing runs once every run's exit has come. *)
Theorem forced_stop_settles redact exits w :
  let w' := collectExitsAfterCancel redact exits w in
  lf_started (life w') = lf_started (life w) /\
  (forall id, is_Some (Running (w_state w') !! id) ->
     is_Some (Running (w_state w) !! id) /\ (id ∉ map (fun x => ex_IssueID x.2) exits)) /\
  ((forall id, is_Some (Running (w_state w) !! id) -> id ∈ map (fun x => ex_IssueID x.2) exits) ->
   Running (w_state w') = ∅).
Proof.
  cbn zeta. unfold collectExitsAfterCancel.
  destruct (decide (size (Running (w_state w)) = 0%nat)) as [H0|_].
  { apply map_size_empty_iff in H0. split_and!; [done| |done]. rewrite H0. intros id [r Hr].
    by rewrite lookup_empty in Hr. }
  cbn zeta. set (w1 := on_orch _ (on_state _ w)).
  destruct (collect_draining redact exits w1 eq_refl) as [Hs Hr]. set (w2 := collect redact exits w1) in *.
  assert (Hrun : forall id, is_Some (Running (w_state w2) !! id) ->
    is_Some (Running (w_state w) !! id) /\ (id ∉ map (fun x => ex_IssueID x.2) exits)).
  { intros id Hid%elem_of_dom. assert (Hin : id ∈ lf_runs (life w1) ∖ list_to_set (map (fun x => ex_IssueID x.2) exits))
      by (by apply Hr). apply elem_of_difference in Hin as [Hin Hn]. split.
    - by apply elem_of_dom.
    - intros Hl. apply Hn. by apply elem_of_list_to_set. }
  split_and!; [exact Hs|exact Hrun|]. intros Hall. apply map_empty. intros id.
  destruct (Running (w_state w2) !! id) as [r|] eqn:E; [|exact E].
  destruct (Hrun id) as [Hi Hn]; [by eexists|]. by destruct (Hn (Hall id Hi)).
Qed.



(** ** Examples *)

(** A tracker that knows one open issue and answers nothing else. *)
Definition still_env : Env :=
  MkEnv 1000 (fun _ => Some []) (fun _ => Some []) (fun _ => FetchNil) (fun _ => ∅)
    (MkDrainEnv None ∅ 1000 1000) [] [] [] [] None (fun _ _ => inr "no verdict") None true None false.

Definition one_todo : TickEnv := MkTickEnv still_env (inr [todo "1"]) None [] (fun _ => true).

Definition open_config : Config :=
  empty_config <| cfg_Tracker := cfg_Tracker empty_config <| tracker_ActiveStates := ["Todo"] |>
                                  <| tracker_TerminalStates := ["Done"] |> |>.

Definition self (s : string) : string := s.

Lemma self_inj a b : self a = self b -> a = b.
Proof. done. Qed.

Lemma boot_booted N cfg : booted N (d_world (boot cfg)).
Proof. by do 2 constructor. Qed.

Lemma still_env_ok : env_ok self still_env.
Proof.
  constructor; unfold detail_named, prefetch_named, by_ids_named; cbn; try done.
  - intros ids l i [= <-] H. by apply not_elem_of_nil in H.
  - intros ids l i [= <-] H. by apply not_elem_of_nil in H.
Qed.

Lemma one_todo_ok : tick_ok self one_todo.
Proof.
  split; [exact still_env_ok|]. cbn. intros issues i [= <-] ->%list_elem_of_singleton. done.
Qed.

Definition redact_nothing (s : string) : string := s.

Definition dispatched : Daemon := iteration redact_nothing (Ticked one_todo) (boot open_config).

Definition asked : Daemon :=
  MkDaemon (d_world (boot open_config) <| w_orch := RequestDrain (new_orchestrator open_config) |>) None false.

(** A daemon asked to drain starts nothing on the tick that would have
    dispatched the issue. *)
Example drain_starts_nothing_witness :
  started dispatched = [(0%nat, "1")] /\
  started (iteration redact_nothing (Ticked one_todo) asked) = [].
Proof.
  split; [vm_compute; reflexivity|].
  apply (drain_starts_nothing redact_nothing asked); [reflexivity|].
  apply rtc_once. by apply step_loop.
Defined.

Example drained_means_done_witness :
  exists d1 d2, d_drained d1 = true /\ Running (w_state (d_world d2)) = ∅ /\ started d2 = [].
Proof.
  set (d1 := iteration redact_nothing (Received still_env EventDrain) asked).
  set (d2 := iteration redact_nothing (Ticked one_todo) d1). exists d1, d2.
  split; [vm_compute; reflexivity|].
  apply (drained_means_done redact_nothing asked d1 d2); [reflexivity| |vm_compute; reflexivity|];
    apply rtc_once; by apply step_loop.
Defined.

Lemma boot_todo_ok : input_ok self (synced (d_world (boot open_config))) (Ticked one_todo).
Proof. exact one_todo_ok. Qed.


Lemma dispatched_live : live (life (d_world dispatched)) "1" 0.
Proof. split; apply (bool_decide_eq_true_1 _); vm_compute; reflexivity. Qed.


(** ** A retried reviewer starts two reviews *)

Definition reviewing : Config :=
  open_config <| cfg_Agent := cfg_Agent open_config
    <| agent_AutoReview := true |> <| agent_ReviewerProfile := "first" |>
    <| agent_ReviewerProfiles := ["first"; "second"] |> <| agent_StallTimeoutMs := 1000 |>
    <| agent_Profiles := {["first" := MkAgentProfile "" "" None; "second" := MkAgentProfile "" "" None]} |> |>.

Definition at_ms (ms : Z) : Env :=
  MkEnv (ms * Millisecond) (fun _ => Some [todo "1"]) (fun _ => Some []) (fun _ => FetchNil) (fun _ => ∅)
    (MkDrainEnv None ∅ (ms * Millisecond) (ms * Millisecond)) [] [] [] [] None
    (fun _ _ => inl (MkReviewVerdict "" "approve" [] [] 0)) None true None false.

Definition tick_at (ms : Z) : Input := Ticked (MkTickEnv (at_ms ms) (inr [todo "1"]) None [] (fun _ => true)).

(** A worker of the issue that ends well, as it reports itself. *)
Definition succeeds_at (ms : Z) (profile : string) : Input :=
  Received (at_ms ms)
    (EventWorkerExited (MkExit "1" (Some (zero_RunEntry <| run_Issue := todo "1" |>
       <| run_ProfileName := profile |> <| run_TerminalReason := TerminalSucceeded |>)) None None None)).

(** Dispatched, reviewed by the first reviewer, which stalls, is retried and
    succeeds. *)
Definition review_story : list Input :=
  [tick_at 1; succeeds_at 2 ""; tick_at 1500; tick_at 600000; succeeds_at 600001 "first"].

Definition after_review : Daemon :=
  foldl (fun d i => iteration redact_nothing i d) (boot reviewing) review_story.

Lemma story_steps l d :
  rtc (step redact_nothing (fun _ _ => True)) d (foldl (fun d i => iteration redact_nothing i d) d l).
Proof.
  revert d. induction l as [|i l IH]; intros d; cbn [foldl]; [apply rtc_refl|].
  eapply rtc_l; [by apply step_loop|apply IH].
Qed.

(** The retry of a reviewer's run is filed without its kind, so its success both
    moves the chain on and counts as a worker's, which starts a fresh review:
    two reviewers of the issue are live at once. *)
Theorem retried_reviewer_doubles :
  rtc (step redact_nothing (fun _ _ => True)) (boot reviewing) after_review /\
  live (life (d_world after_review)) "1" 3 /\ live (life (d_world after_review)) "1" 4.
Proof.
  split; [apply story_steps|].
  split; split; apply (bool_decide_eq_true_1 _); vm_compute; reflexivity.
Qed.

(** ** Stalls, and runs that cannot be stopped *)

(** A run has no retry pending, so the retry of a stalled run is its first,
    whatever attempt the run was: stalls alone never spend the retries. *)
Theorem stalls_never_exhaust N env dur w id r :
  Good N w -> Running (w_state w) !! id = Some r -> dur < since_last_event (env_now env) r ->
  exists e, RetryAttempts (w_state (reconcile_stall env dur w (id, r))) !! id = Some e /\ retry_Attempt e = 1.
Proof.
  intros [_ HI] Hr Hd. unfold reconcile_stall. apply Z.ltb_lt in Hd. rewrite Hd.
  assert (Ht : RetryAttempts (w_state w) !! id = None).
  { apply not_elem_of_dom. pose proof (inv_apart N _ HI) as Ha. apply elem_of_dom_2 in Hr.
    intros Hin. exact (Ha id Hr Hin). }
  cbn. rewrite Ht. eexists. by rewrite lookup_insert_eq.
Qed.

(** A run that was started with a user's answer carries no cancel function of
    its own, so the event that terminates a running issue passes it by. *)
Theorem resumed_run_unstoppable env i e detailed w :
  (forall id r, Running (w_state w) !! id = Some r -> issue_Identifier (run_Issue r) <> i) ->
  terminate_running i (resume_start env i e detailed w) = resume_start env i e detailed w.
Proof.
  intros Hno. unfold terminate_running. set (w' := resume_start env i e detailed w).
  enough (Hs : stoppable i (w_state w') = None) by (by rewrite Hs).
  assert (Hall : forall id r, Running (w_state w') !! id = Some r ->
    issue_Identifier (run_Issue r) <> i \/ run_WorkerCancel r = None).
  { assert (Hkeep : forall id r, Running (w_state w) !! id = Some r ->
      issue_Identifier (run_Issue r) <> i \/ run_WorkerCancel r = None) by (left; eauto).
    unfold w', resume_start. cbn zeta. case_match; [exact Hkeep|]. case_match; [exact Hkeep|].
    match goal with |- context [admitBackendKey ?a ?b ?c ?d] =>
      pose proof (core_admit a b c d) as Hc; destruct (admitBackendKey a b c d) as [ok s] end.
    cbn [snd] in Hc. unfold core in Hc. injection Hc as Hc _ _ _ _ _ _.
    destruct ok; cbn [negb]; [|cbn; by rewrite Hc].
    cbn. intros id r [[<- <-]|[_ Hr]]%lookup_insert_Some; [by right|]. apply (Hkeep id). by rewrite <- Hc. }
  unfold stoppable. destruct (List.find _ _) as [[id r]|] eqn:Ef; [|done].
  apply find_some in Ef as [Hin [Hi Hb]%andb_true_iff]. apply list_elem_of_In, elem_of_map_to_list in Hin.
  apply String.eqb_eq in Hi. apply (bool_decide_eq_true_1 _) in Hb as [n Hn].
  cbn in Hi, Hn. destruct (Hall _ _ Hin) as [?|?]; congruence.
Qed.
