(* ===== verification/Control.v ===== *)
(** * Control: the requests of the dashboard and the command line
    (internal/orchestrator/issue_control.go, reviewer.go, deps_override.go
    26-37, backend_health_ops.go 22-37, failure_ack.go 27-50, drain.go 61-75,
    95-104, snapshot.go 40-74, 1174-1183)

    Other goroutines never touch the loop's state.  They read the last
    published copy of it, leave marks in the orchestrator's own fields, and
    put events into a channel of 64 places.  A [Service] is the daemon with
    that copy and that channel.  Every request is one step here; the locks
    [CancelIssue] takes and gives back are taken apart at the end of the
    file.  Logging, the counter of dropped events and the change callback are
    left out. *)

From stdpp Require Import base gmap list strings relations.
From S2P Require Import Prelude Domain State Config Retry Dispatch BackendHealth Outbox AutomationQueue StatusHistory Tracker.
From S2P Require Import Orchestrator Failures Automation Triggers World Reviews Replies Workers Exits Events TickViews Tick Lifecycle.
From S2P Require Import Frames Handlers ExitHandlers LoopHandlers Loop.

Local Open Scope Z_scope.

Inductive ControlError := ErrBusy | ErrNotFound | ErrDraining | ErrNoWorkerFailure | ErrNoReviewer.

#[export] Instance ControlError_eq_dec : EqDecision ControlError.
Proof. solve_decision. Defined.

(** A request's answer; [None] is a nil error. *)
Abbreviation Reply := (option ControlError).

Definition eventCapacity : nat := 64.

Record Service := MkService {
  sv_daemon : Daemon;
  sv_lastSnap : State;
  sv_events : list Event;
}.

#[export] Instance eta_Service : Settable Service := {|
  eta_record s := MkService (sv_daemon s) (sv_lastSnap s) (sv_events s) |}.

Definition sv_state (s : Service) : State := w_state (d_world (sv_daemon s)).
Definition sv_orch (s : Service) : Orchestrator := w_orch (d_world (sv_daemon s)).

Definition set_orch (f : Orchestrator -> Orchestrator) (s : Service) : Service :=
  s <| sv_daemon := MkDaemon (on_orch f (d_world (sv_daemon s))) (d_outbox (sv_daemon s))
                      (d_drained (sv_daemon s)) |>.

(** The copy never carries a cancel function. *)
Definition Clone (s : State) : State :=
  s <| Running := fmap (fun r => r <| run_WorkerCancel := None |>) (Running s) |>.

Definition storeSnap (s : Service) : Service := s <| sv_lastSnap := Clone (sv_state s) |>.

(** The operator's choices are laid over the copy's; an empty one removes. *)
Definition overlaid (over base_map : gmap string string) : gmap string string :=
  map_fold (fun k v merged => if String.eqb v "" then base.delete k merged else <[k := v]> merged) base_map over.

(** The count of failed ledger writes is left out. *)
Definition Snapshot (s : Service) : State :=
  let snap := sv_lastSnap s in
  snap <| IssueProfiles := overlaid (o_issueProfiles (sv_orch s)) (IssueProfiles snap) |>
       <| IssueBackends := overlaid (o_issueBackends (sv_orch s)) (IssueBackends snap) |>.

(** A send that does not wait. *)
Definition try_send (ev : Event) (s : Service) : option Service :=
  if (length (sv_events s) <? eventCapacity)%nat
  then Some (s <| sv_events := sv_events s ++ [ev] |>) else None.

Definition send_or_busy (ev : Event) (s : Service) : Reply * Service :=
  match try_send ev s with Some s => (None, s) | None => (Some ErrBusy, s) end.

Definition isDraining (s : Service) : bool := Draining (sv_state s).

Definition is_paused_in (snap : State) (identifier : string) : bool :=
  bool_decide (is_Some (PausedIdentifiers snap !! identifier)).

(** ** The requests *)

Definition mark_cancelled (identifier : string) (o : Orchestrator) : Orchestrator :=
  o <| o_userCancelledIDs := {[identifier]} ∪ o_userCancelledIDs o |>.
Definition unmark_cancelled (identifier : string) (o : Orchestrator) : Orchestrator :=
  o <| o_userCancelledIDs := o_userCancelledIDs o ∖ {[identifier]} |>.

(** The first retry of the identifier, in the map's order. *)
Definition retry_of (snap : State) (identifier : string) : string :=
  match List.find (fun kv => String.eqb (retry_Identifier kv.2) identifier)
          (map_to_list (RetryAttempts snap)) with
  | Some (id, _) => id
  | None => ""
  end.

Definition CancelIssue (identifier : string) (s : Service) : Reply * Service :=
  let s := set_orch (mark_cancelled identifier) s in
  let '(cancelled, o) := cancelRunningWorker (sv_orch s) identifier (unmark_cancelled identifier) in
  let s := set_orch (fun _ => o) s in
  if cancelled then (None, s)
  else
    let retryIssueID := retry_of (sv_lastSnap s) identifier in
    if String.eqb retryIssueID "" then (Some ErrNotFound, s)
    else send_or_busy (EventCancelRetry retryIssueID identifier) s.

Definition ResumeIssue (identifier : string) (s : Service) : Reply * Service :=
  if isDraining s then (Some ErrDraining, s)
  else if negb (is_paused_in (sv_lastSnap s) identifier) then (Some ErrNotFound, s)
  else send_or_busy (EventResumeIssue identifier) s.

Definition TerminateIssue (identifier : string) (s : Service) : Reply * Service :=
  let s := set_orch (fun o => o <| o_issueBackends := base.delete identifier (o_issueBackends o) |>) s in
  match PausedIdentifiers (sv_lastSnap s) !! identifier with
  | Some issueID => send_or_busy (EventTerminatePaused issueID identifier) s
  | None =>
      if negb (running_as identifier (sv_lastSnap s)) then (Some ErrNotFound, s)
      else send_or_busy (EventTerminateRunning identifier) s
  end.

Definition ReanalyzeIssue (identifier : string) (s : Service) : Reply * Service :=
  if isDraining s then (Some ErrDraining, s)
  else if negb (is_paused_in (sv_lastSnap s) identifier) then (Some ErrNotFound, s)
  else send_or_busy (EventForceReanalyze identifier) s.

Definition SetIssueProfile (identifier profileName : string) (s : Service) : Service :=
  set_orch (fun o =>
    o <| o_issueProfiles := (if String.eqb profileName "" then base.delete identifier (o_issueProfiles o)
                             else <[identifier := profileName]> (o_issueProfiles o)) |>
      <| o_reviewerInjectedProfiles := o_reviewerInjectedProfiles o ∖ {[identifier]} |>) s.

Definition SetIssueBackend (identifier backend : string) (s : Service) : Service :=
  set_orch (fun o =>
    o <| o_issueBackends := (if String.eqb backend "" then base.delete identifier (o_issueBackends o)
                             else <[identifier := backend]> (o_issueBackends o)) |>) s.

Definition GetRunningIssue (identifier : string) (s : Service) : option Issue :=
  (fun kv => run_Issue kv.2) <$>
    List.find (fun kv => String.eqb (issue_Identifier (run_Issue kv.2)) identifier)
      (map_to_list (Running (sv_lastSnap s))).

Definition ProvideInput (identifier message : string) (s : Service) : Reply * Service :=
  if isDraining s then (Some ErrDraining, s)
  else send_or_busy (EventProvideInput identifier message) s.

Definition DismissInput (identifier : string) (s : Service) : Reply * Service :=
  send_or_busy (EventDismissInput identifier) s.

(** The two errors without a sentinel: no reviewer profile, and a full
    channel. *)
Definition DispatchReviewer (identifier : string) (s : Service) : Reply * Service :=
  if isDraining s then (Some ErrDraining, s)
  else
    let profile := agent_ReviewerProfile (cfg_Agent (o_cfg (sv_orch s))) in
    if String.eqb profile "" then (Some ErrNoReviewer, s)
    else send_or_busy (EventDispatchReviewer identifier profile) s.

(** These two answer whether the event was sent. *)
Definition ClearBackendBreaker (backend host : string) (s : Service) : Reply * Service :=
  send_or_busy (EventClearBackendBreaker (BackendHealthKey backend host)) s.

Definition SetDepsOverride (identifier : string) (enabled : bool) (s : Service) : Reply * Service :=
  send_or_busy (EventSetDepsOverride identifier enabled) s.

Definition AckFailures (identifier : string) (upTo : Time) (s : Service) : Reply * Service :=
  if existsb (fun f => String.eqb (fr_Identifier f) identifier && isAckableFailure f)
       (RecentFailures (Snapshot s))
  then send_or_busy (EventAckFailures identifier upTo) s
  else (Some ErrNoWorkerFailure, s).

(** The announcement; the event follows once the channel has room. *)
Definition announceDrain (s : Service) : Service := set_orch RequestDrain s.

(** ** The service's steps *)

Inductive Call :=
  | CallCancel (identifier : string)
  | CallResume (identifier : string)
  | CallTerminate (identifier : string)
  | CallReanalyze (identifier : string)
  | CallSetProfile (identifier profileName : string)
  | CallSetBackend (identifier backend : string)
  | CallProvideInput (identifier message : string)
  | CallDismissInput (identifier : string)
  | CallDispatchReviewer (identifier : string)
  | CallClearBreaker (backend host : string)
  | CallSetDepsOverride (identifier : string) (enabled : bool)
  | CallAckFailures (identifier : string) (upTo : Time).

Definition call (c : Call) (s : Service) : Reply * Service :=
  match c with
  | CallCancel i => CancelIssue i s
  | CallResume i => ResumeIssue i s
  | CallTerminate i => TerminateIssue i s
  | CallReanalyze i => ReanalyzeIssue i s
  | CallSetProfile i p => (None, SetIssueProfile i p s)
  | CallSetBackend i b => (None, SetIssueBackend i b s)
  | CallProvideInput i m => ProvideInput i m s
  | CallDismissInput i => DismissInput i s
  | CallDispatchReviewer i => DispatchReviewer i s
  | CallClearBreaker b h => ClearBackendBreaker b h s
  | CallSetDepsOverride i e => SetDepsOverride i e s
  | CallAckFailures i t => AckFailures i t s
  end.

(** The requests that would start work. *)
Definition starts_work (c : Call) : bool :=
  match c with
  | CallResume _ | CallReanalyze _ | CallProvideInput _ _ | CallDispatchReviewer _ => true
  | _ => false
  end.

Section redaction.
Context (redact : string -> string).

Definition turn (i : Input) (s : Service) : Service :=
  storeSnap (s <| sv_daemon := iteration redact i (sv_daemon s) |>).

(** The loop ticks or takes the first event; a request is answered; a drain is
    announced; another goroutine of the daemon sends an event. *)
Inductive serve (s : Service) : Service -> Prop :=
  | serve_tick t : serve s (turn (Ticked t) s)
  | serve_event env ev rest : sv_events s = ev :: rest ->
      serve s (turn (Received env ev) (s <| sv_events := rest |>))
  | serve_call c : serve s (snd (call c s))
  | serve_announce : serve s (announceDrain s)
  | serve_sent ev s' : (ev = EventDrain -> AdmissionClosed (d_world (sv_daemon s)) = true) ->
      try_send ev s = Some s' -> serve s s'.

(** A drain event in the channel has been announced, and the channel keeps to
    its places. *)
Record channel_ok (s : Service) : Prop := {
  ch_room : (length (sv_events s) <= eventCapacity)%nat;
  ch_drain : EventDrain ∈ sv_events s -> AdmissionClosed (d_world (sv_daemon s)) = true;
}.

(** What the calls do to the fields they may touch. *)
Definition touched (o o' : Orchestrator) : Prop :=
  outside o o' /\ o_cfg o' = o_cfg o /\ o_drainRequested o' = o_drainRequested o /\
  o_userTerminatedIDs o' = o_userTerminatedIDs o.

Record called (ev : option Event) (s s' : Service) : Prop := {
  cd_orch : touched (sv_orch s) (sv_orch s');
  cd_daemon : sv_daemon s' = MkDaemon (d_world (sv_daemon s) <| w_orch := sv_orch s' |>)
                (d_outbox (sv_daemon s)) (d_drained (sv_daemon s));
  cd_snap : sv_lastSnap s' = sv_lastSnap s;
  cd_events : sv_events s' = sv_events s ++ option_list ev;
  cd_room : is_Some ev -> (length (sv_events s) < eventCapacity)%nat;
}.

Lemma touched_refl o : touched o o.
Proof. unfold touched, outside. done. Qed.

Lemma called_refl s : called None s s.
Proof.
  constructor; [apply touched_refl| |done| |intros [? ?]; discriminate].
  - unfold sv_orch. destruct s as [[[? ? ?] ? ?] ? ?]. reflexivity.
  - cbn. by rewrite app_nil_r.
Qed.

(** A request leaves the service called, with an event only if it was accepted,
    and never the drain event. *)
Definition answered (s : Service) (rs : Reply * Service) : Prop :=
  exists ev, called ev s (snd rs) /\ (is_Some (fst rs) -> ev = None) /\ ev <> Some EventDrain.

Lemma answered_now r s0 s : called None s0 s -> answered s0 (r, s).
Proof. by exists None. Qed.

Lemma answered_send ev s s0 : ev <> EventDrain -> called None s0 s -> answered s0 (send_or_busy ev s).
Proof.
  intros Hne [Ho Hd Hs He Hr]. unfold send_or_busy, try_send. cbn in He. rewrite app_nil_r in He.
  destruct (Nat.ltb_spec (length (sv_events s)) eventCapacity) as [Hlt|_].
  - exists (Some ev). split; [|split; [intros [? ?]; discriminate|congruence]]. constructor; cbn; try done.
    + by rewrite He.
    + by rewrite He in Hlt.
  - apply answered_now. constructor; try done. cbn. by rewrite app_nil_r.
Qed.

Lemma called_set f s : touched (sv_orch s) (f (sv_orch s)) -> called None s (set_orch f s).
Proof.
  intros H. constructor; [exact H| |done| |intros [? ?]; discriminate].
  - unfold sv_orch, set_orch, on_orch. destruct s as [[[? ? ?] ? ?] ? ?]. reflexivity.
  - cbn. by rewrite app_nil_r.
Qed.

Lemma called_trans s1 s2 s3 : called None s1 s2 -> called None s2 s3 -> called None s1 s3.
Proof.
  intros [(O1 & C1 & D1 & T1) Hd1 Hs1 He1 Hr1] [(O2 & C2 & D2 & T2) Hd2 Hs2 He2 Hr2].
  cbn in *. rewrite app_nil_r in *. constructor; cbn; [| | |by rewrite app_nil_r, He2|done].
  - split_and!; try congruence. destruct O1 as (? & ? & ? & ?), O2 as (? & ? & ? & ?).
    unfold outside. split_and!; [congruence|congruence|set_solver|auto].
  - rewrite Hd2, Hd1. reflexivity.
  - congruence.
Qed.

Lemma cancel_answered i s : answered s (CancelIssue i s).
Proof.
  unfold CancelIssue. cbn zeta. unfold cancelRunningWorker.
  assert (Hm : called None s (set_orch (mark_cancelled i) s)) by (by apply called_set).
  destruct (o_workerCancels _ !! i) as [n|]; set (s1 := set_orch _ (set_orch _ s)).
  all: assert (H1 : called None s s1)
    by (eapply called_trans; [exact Hm|apply called_set; unfold touched, outside; split_and!; try done; cbn; set_solver]).
  - by apply answered_now.
  - case_match; [by apply answered_now|by apply answered_send].
Qed.

Lemma terminate_answered i s : answered s (TerminateIssue i s).
Proof.
  unfold TerminateIssue. cbn zeta. set (s1 := set_orch _ s).
  assert (H1 : called None s s1) by (by apply called_set).
  repeat case_match; solve [by apply answered_now|by apply answered_send].
Qed.

Lemma call_answered c s : answered s (call c s).
Proof.
  pose proof (called_refl s) as Hs.
  destruct c; cbn [call]; try apply cancel_answered; try apply terminate_answered;
    unfold ResumeIssue, ReanalyzeIssue, ProvideInput, DismissInput, DispatchReviewer,
    ClearBackendBreaker, SetDepsOverride, AckFailures, SetIssueProfile, SetIssueBackend; cbn zeta;
    repeat case_match; try (by apply answered_now); try (by apply answered_send);
    by apply answered_now, called_set.
Qed.

(** What an input of the loop is held to here: a drain event has been
    announced. *)
Definition announced (w : World) (i : Input) : Prop :=
  match i with Ticked _ => True | Received _ ev => drain_announced w ev end.

Lemma turn_step i s :
  announced (synced (d_world (sv_daemon s))) i -> step redact announced (sv_daemon s) (sv_daemon (turn i s)).
Proof. by apply step_loop. Qed.

Lemma closed_drain_announced env ev w :
  (ev = EventDrain -> AdmissionClosed w = true) -> announced (synced w) (Received env ev).
Proof. intros H Hev. left. by apply synced_closed, H. Qed.

Lemma closed_kept d d' : step redact announced d d' ->
  AdmissionClosed (d_world d) = true -> AdmissionClosed (d_world d') = true.
Proof. intros Hs Hc. by destruct (closed_step redact _ _ _ Hs Hc). Qed.

Lemma touched_closed w o : touched (w_orch w) o -> AdmissionClosed (w <| w_orch := o |>) = AdmissionClosed w.
Proof. intros (_ & _ & H & _). unfold AdmissionClosed. cbn. by rewrite H. Qed.

Lemma serve_step s s' : serve s s' -> channel_ok s ->
  channel_ok s' /\ rtc (step redact announced) (sv_daemon s) (sv_daemon s').
Proof.
  intros Hs [Hroom Hdr]. destruct Hs as [t|env ev rest He|c| |ev s' Ha Hsend].
  - assert (H : step redact announced (sv_daemon s) (sv_daemon (turn (Ticked t) s))) by (by apply turn_step).
    split; [|by apply rtc_once]. constructor; [exact Hroom|]. intros Hin. eapply closed_kept; [exact H|by apply Hdr].
  - set (s1 := s <| sv_events := rest |>).
    assert (H : step redact announced (sv_daemon s1) (sv_daemon (turn (Received env ev) s1))).
    { apply turn_step, closed_drain_announced. intros ->. apply Hdr. rewrite He. by left. }
    split; [|by apply rtc_once]. rewrite He in Hroom, Hdr. constructor; [cbn in Hroom |- *; lia|].
    intros Hin. eapply closed_kept; [exact H|]. apply Hdr. by right.
  - destruct (call_answered c s) as (ev & [Ho Hd Hsn He Hr] & _ & Hne).
    set (s' := snd (call c s)) in *. split; [constructor|].
    + rewrite He, length_app. destruct ev; cbn; [specialize (Hr ltac:(by eexists)); lia|lia].
    + rewrite He, Hd. cbn. rewrite touched_closed by exact Ho. intros [Hin|Hin]%elem_of_app; [by apply Hdr|].
      destruct ev as [ev|]; cbn in Hin; [apply list_elem_of_singleton in Hin; congruence|by apply not_elem_of_nil in Hin].
    + rewrite Hd. apply rtc_once, step_outside, Ho.
  - split; [constructor|].
    + exact Hroom.
    + intros _. unfold AdmissionClosed. cbn. apply orb_true_r.
    + apply rtc_once. apply (step_outside redact announced (sv_daemon s) (RequestDrain (sv_orch s))).
      unfold outside. cbn. done.
  - unfold try_send in Hsend. destruct (Nat.ltb_spec (length (sv_events s)) eventCapacity); [|done].
    injection Hsend as <-. split; [|apply rtc_refl]. constructor; cbn; [rewrite length_app; cbn; lia|].
    intros [Hin|Hin%list_elem_of_singleton]%elem_of_app; [by apply Hdr|by apply Ha].
Qed.

Lemma serve_steps s s' : rtc serve s s' -> channel_ok s ->
  channel_ok s' /\ rtc (step redact announced) (sv_daemon s) (sv_daemon s').
Proof.
  induction 1 as [s|s1 s2 s3 Hs _ IH]; intros Hok; [split; [done|apply rtc_refl]|].
  destruct (serve_step _ _ Hs Hok) as [Hok2 H1]. destruct (IH Hok2) as [Hok3 H2].
  split; [done|by etrans].
Qed.

(** C10: refinement: a daemon that answers requests is the daemon of [Loop]: every
    sequence of ticks, events, requests and sends is a sequence of its steps
    and changes from outside; the channel keeps to its places and carries a
    drain event only after the announcement; and from the announcement on no
    request, accepted or not, leads to a new worker. *)
Theorem requests_refine s s' :
  channel_ok s -> rtc serve s s' ->
  channel_ok s' /\ rtc (step redact announced) (sv_daemon s) (sv_daemon s') /\
  (AdmissionClosed (d_world (sv_daemon s)) = true -> started (sv_daemon s') = started (sv_daemon s)).
Proof.
  intros Hok Hs. destruct (serve_steps _ _ Hs Hok) as [Hok' Hd]. split_and!; [done|done|].
  intros Hc. by destruct (closed_steps redact _ _ _ Hd Hc) as (_ & H & _).
Qed.

End redaction.

(** ** What an accepted request leads to

    The published copy may be behind the loop.  Whatever the loop's world [w]
    is when it takes the event, [w'] is after it. *)

Definition promised (snap : State) (c : Call) (w w' : World) : Prop :=
  let s := w_state w in
  let s' := w_state w' in
  match c with
  | CallCancel i => exists id e, RetryAttempts snap !! id = Some e /\ retry_Identifier e = i /\
      RetryAttempts s' !! id = None /\ PausedIdentifiers s' !! i = Some id
  | CallResume i => PausedIdentifiers s' !! i = None
  | CallReanalyze i => PausedIdentifiers s' !! i = None /\
      (is_paused i s = true -> (i ∈ ForceReanalyze s') /\ PausedSessions s' !! i = None)
  | CallTerminate i =>
      if bool_decide (is_Some (PausedIdentifiers snap !! i))
      then PausedIdentifiers s' !! i = None /\ (is_paused i s = true -> PausedSessions s' !! i = None)
      else forall n, stoppable i s = Some n ->
        (n ∈ o_cancelled (w_orch w')) /\ (i ∈ o_userTerminatedIDs (w_orch w'))
  | CallProvideInput i m => AvailableSlots s <= 0 -> is_Some (InputRequiredIssues s !! i) ->
      InputRequiredIssues s' !! i = None /\
      exists e, PendingInputResumes s' !! i = Some e /\ pir_UserMessage e = m
  | CallDismissInput i => InputRequiredIssues s' !! i = None /\
      forall e, InputRequiredIssues s !! i = Some e -> PausedIdentifiers s' !! i = Some (ir_IssueID e)
  | CallClearBreaker b h => BackendHealth s' !! BackendHealthKey b h = None /\
      forall i hold, BackendLimitedHolds s' !! i = Some hold -> hold_Key hold <> BackendHealthKey b h
  | CallSetDepsOverride i e => is_Some (DepsOverrides s' !! i) <-> e = true
  | CallAckFailures i t => forall f, f ∈ RecentFailures s -> fr_Identifier f = i -> isAckableFailure f = true ->
      time_is_zero t = false -> exists t', FailureAcks s' !! i = Some t' /\ t <= t'
  | CallDispatchReviewer _ | CallSetProfile _ _ | CallSetBackend _ _ => True
  end.

Lemma retry_of_spec snap i : retry_of snap i <> "" ->
  exists e, RetryAttempts snap !! retry_of snap i = Some e /\ retry_Identifier e = i.
Proof.
  unfold retry_of. destruct (List.find _ _) as [[id e]|] eqn:Ef; [|done]. intros _.
  apply find_some in Ef as [Hin Hi%String.eqb_eq]. apply list_elem_of_In, elem_of_map_to_list in Hin. eauto.
Qed.

Lemma sent_event ev ev' s : sv_events (snd (send_or_busy ev s)) = sv_events s ++ [ev'] -> ev' = ev.
Proof.
  unfold send_or_busy, try_send. destruct (_ <? _)%nat; cbn.
  - by intros [= ->]%app_inv_head.
  - intros H. apply (f_equal length) in H. rewrite length_app in H. cbn in H. lia.
Qed.

Lemma no_event ev s : sv_events s = sv_events s ++ [ev] -> False.
Proof. intros H. apply (f_equal length) in H. rewrite length_app in H. cbn in H. lia. Qed.

Lemma is_paused_None i s : is_paused i s = false -> PausedIdentifiers s !! i = None.
Proof. unfold is_paused. intros H%bool_decide_eq_false. by apply eq_None_not_Some. Qed.

Lemma unpause_None i s : PausedIdentifiers (unpause i s) !! i = None.
Proof. unfold unpause, clearPauseReason. cbn. apply lookup_delete_eq. Qed.

Lemma pause_spec i id r s :
  PausedIdentifiers (pause i id r s) = <[i := id]> (PausedIdentifiers s) /\
  RetryAttempts (pause i id r s) = RetryAttempts s /\
  InputRequiredIssues (pause i id r s) = InputRequiredIssues s.
Proof. unfold pause, setPauseReason. by case_match. Qed.

Lemma terminate_paused_kept env id i w :
  PausedIdentifiers (w_state (terminate_paused env id i w)) !! i = None /\
  (is_paused i (w_state w) = true -> PausedSessions (w_state (terminate_paused env id i w)) !! i = None).
Proof.
  unfold terminate_paused. destruct (is_paused i (w_state w)) eqn:E; [|split; [by apply is_paused_None|done]].
  set (w1 := on_state _ w).
  assert (H1 : PausedIdentifiers (w_state w1) !! i = None /\ PausedSessions (w_state w1) !! i = None).
  { split; [apply (unpause_None i (w_state w))|apply lookup_delete_eq]. }
  unfold when, asyncDiscardAndTransition, discard. destruct H1 as [H1 H2].
  destruct (negb _); [|done]. by destruct (_ || _).
Qed.

Lemma ack_kept f i t s :
  f ∈ RecentFailures s -> fr_Identifier f = i -> isAckableFailure f = true -> time_is_zero t = false ->
  exists t', FailureAcks (applyFailureAck s i t) !! i = Some t' /\ t <= t'.
Proof.
  intros Hf Hi Ha Ht. unfold applyFailureAck. rewrite Ht.
  assert (Hne : String.eqb i "" = false).
  { unfold isAckableFailure in Ha. rewrite Hi in Ha. apply andb_true_iff in Ha as [Ha _]. by destruct (String.eqb i ""). }
  rewrite Hne. cbn [orb]. cbn zeta. unfold pruneFailureAcks. cbn zeta.
  match goal with |- context [FailureAcks (if ?b then ?x else s)] => set (s1 := if b then x else s) end.
  assert (H1 : RecentFailures s1 = RecentFailures s /\ exists t', FailureAcks s1 !! i = Some t' /\ t <= t').
  { unfold s1. destruct (FailureAcks s !! i) as [prev|] eqn:Ep.
    - unfold time_after. destruct (prev <? t) eqn:Hlt; (split; [done|]).
      + exists t. split; [apply lookup_insert_eq|lia].
      + exists prev. split; [done|]. lia.
    - split; [done|]. exists t. split; [apply lookup_insert_eq|lia]. }
  destruct H1 as [Hr (t' & Hl & Hle)]. exists t'. split; [|done]. cbn. rewrite map_lookup_filter_Some. split; [done|].
  cbn. rewrite Hr, elem_of_list_to_set, list_elem_of_fmap. exists f. rewrite list_elem_of_filter. done.
Qed.

Lemma input_provided env i m w :
  AvailableSlots (w_state w) <= 0 -> is_Some (InputRequiredIssues (w_state w) !! i) ->
  let s' := w_state (provide_input env i m w) in
  InputRequiredIssues s' !! i = None /\ exists e, PendingInputResumes s' !! i = Some e /\ pir_UserMessage e = m.
Proof.
  intros Hs [e He]. cbn zeta. unfold provide_input. rewrite He. cbn zeta.
  set (w1 := on_state _ w). unfold postInputRequiredComment.
  assert (Hw : forall x, AvailableSlots (w_state x) = AvailableSlots (w_state w) -> processPendingInputResumes env x = x).
  { intros x Hx. unfold processPendingInputResumes. cbn zeta. rewrite Hx.
    destruct (Z.leb_spec (AvailableSlots (w_state w)) 0); [|lia]. by rewrite orb_true_r. }
  assert (Hf : InputRequiredIssues (w_state w1) !! i = None /\
    exists e, PendingInputResumes (w_state w1) !! i = Some e /\ pir_UserMessage e = m).
  { cbn. split; [apply lookup_delete_eq|]. eexists. by rewrite lookup_insert_eq. }
  destruct (env_enqueue_ok env); (rewrite Hw; [exact Hf|reflexivity]).
Qed.

Lemma cancelled_retry i s ev redact env w :
  sv_events (snd (CancelIssue i s)) = sv_events s ++ [ev] ->
  promised (sv_lastSnap s) (CallCancel i) w (event_body redact env ev w).
Proof.
  unfold CancelIssue. cbn zeta. destruct (cancelRunningWorker _ _ _) as [b o].
  set (s1 := set_orch _ _). change (sv_events s) with (sv_events s1). change (sv_lastSnap s) with (sv_lastSnap s1).
  destruct b; [by intros ?%no_event|]. destruct (String.eqb_spec (retry_of (sv_lastSnap s1) i) ""); [by intros ?%no_event|].
  intros ->%sent_event. destruct (retry_of_spec _ _ n) as (e & He & Hi). clear n.
  set (id := retry_of (sv_lastSnap s1) i) in *. clearbody id. exists id, e.
  destruct (pause_spec i id PauseReasonUserCancelled (CancelRetry (w_state w) id)) as (Hp & Hr & _).
  change (w_state (event_body redact env (EventCancelRetry id i) w))
    with (pause i id PauseReasonUserCancelled (CancelRetry (w_state w) id)).
  split_and!; [done|done|rewrite Hr|rewrite Hp]; [apply lookup_delete_eq|apply lookup_insert_eq].
Qed.

Lemma terminated i s ev redact env w :
  sv_events (snd (TerminateIssue i s)) = sv_events s ++ [ev] ->
  promised (sv_lastSnap s) (CallTerminate i) w (event_body redact env ev w).
Proof.
  unfold TerminateIssue. cbn zeta. set (s1 := set_orch _ s).
  change (sv_events s) with (sv_events s1). change (sv_lastSnap s) with (sv_lastSnap s1). unfold promised. cbn zeta.
  destruct (PausedIdentifiers (sv_lastSnap s1) !! i) as [id|] eqn:Ep.
  - intros ->%sent_event. rewrite bool_decide_eq_true_2 by eauto. apply terminate_paused_kept.
  - rewrite bool_decide_eq_false_2 by (intros [? ?]; discriminate).
    destruct (negb _); [by intros ?%no_event|]. intros ->%sent_event n Hn. cbn [event_body]. unfold terminate_running.
    rewrite Hn. cbn. set_solver.
Qed.


(** ** A cancel against the worker's exit, lock by lock

    [CancelIssue] takes the lock of the marks, then that of the cancel
    functions, then again that of the marks.  The loop takes an exit apart
    alike: it first drops the cancel function, then reads and clears the
    mark.  Between exits it starts workers of issues that are not paused and
    drops cancel functions on its own (a stall, a reconciliation). *)

Inductive CancelAt :=
  | AtMark
  | AtLookup
  | AtCancel (worker : nat)
  | AtUnmark
  | AtAnswer (found : option nat).

Record Race := MkRace {
  rc_orch : Orchestrator;
  rc_paused : gset string;
  rc_exit : option string;
  rc_calls : list (string * CancelAt);
}.

Definition call_moves (k : nat) (i : string) (at' : CancelAt) (o : Orchestrator) (r : Race) : Race :=
  MkRace o (rc_paused r) (rc_exit r) (<[k := (i, at')]> (rc_calls r)).

Definition loop_moves (o : Orchestrator) (paused : gset string) (ex : option string) (r : Race) : Race :=
  MkRace o paused ex (rc_calls r).

Definition takes_mark (i : string) (r : Race) : Race :=
  if decide (i ∈ o_userCancelledIDs (rc_orch r))
  then loop_moves (unmark_cancelled i (rc_orch r)) ({[i]} ∪ rc_paused r) None r
  else loop_moves (rc_orch r) (rc_paused r) None r.

Inductive race (r : Race) : Race -> Prop :=
  | race_mark k i : rc_calls r !! k = Some (i, AtMark) ->
      race r (call_moves k i AtLookup (mark_cancelled i (rc_orch r)) r)
  | race_found k i n : rc_calls r !! k = Some (i, AtLookup) -> o_workerCancels (rc_orch r) !! i = Some n ->
      race r (call_moves k i (AtCancel n) (rc_orch r) r)
  | race_missed k i : rc_calls r !! k = Some (i, AtLookup) -> o_workerCancels (rc_orch r) !! i = None ->
      race r (call_moves k i AtUnmark (rc_orch r) r)
  | race_cancel k i n : rc_calls r !! k = Some (i, AtCancel n) ->
      race r (call_moves k i (AtAnswer (Some n)) (cancel_worker (rc_orch r) n) r)
  | race_unmark k i : rc_calls r !! k = Some (i, AtUnmark) ->
      race r (call_moves k i (AtAnswer None) (unmark_cancelled i (rc_orch r)) r)
  | race_exit i : rc_exit r = None ->
      race r (loop_moves (cancelAndCleanupWorker (rc_orch r) i) (rc_paused r) (Some i) r)
  | race_take i : rc_exit r = Some i -> race r (takes_mark i r)
  | race_start i : rc_exit r = None -> (i ∉ rc_paused r) ->
      race r (loop_moves (snd (registerWorker (rc_orch r) i)) (rc_paused r) None r)
  | race_drop i : rc_exit r = None ->
      race r (loop_moves (cancelAndCleanupWorker (rc_orch r) i) (rc_paused r) None r).

(** The call stands behind its mark. *)
Definition stands (c : CancelAt) : Prop :=
  match c with AtLookup | AtCancel _ | AtAnswer (Some _) => True | _ => False end.

Definition marked (r : Race) : gset string := o_userCancelledIDs (rc_orch r) ∪ rc_paused r.

(** A cancelled worker's issue is marked or paused, whoever is behind the
    mark, unless a call for the same issue has missed. *)
Record kept_marks (r : Race) : Prop := {
  km_mark : forall k i c, rc_calls r !! k = Some (i, c) -> stands c -> i ∈ marked r;
  km_stop : forall k i n, rc_calls r !! k = Some (i, AtAnswer (Some n)) -> n ∈ o_cancelled (rc_orch r);
  km_once : NoDup (map fst (rc_calls r));
}.

Lemma cleanup_marks o i : o_userCancelledIDs (cancelAndCleanupWorker o i) = o_userCancelledIDs o.
Proof. unfold cancelAndCleanupWorker. by case_match. Qed.

Lemma cleanup_cancelled o i : o_cancelled o ⊆ o_cancelled (cancelAndCleanupWorker o i).
Proof. unfold cancelAndCleanupWorker. case_match; [|done]. cbn. set_solver. Qed.

Lemma calls_ids k i at' at0 (l : list (string * CancelAt)) :
  l !! k = Some (i, at0) -> map fst (<[k := (i, at')]> l) = map fst l.
Proof.
  intros H. change (fst <$> <[k := (i, at')]> l = fst <$> l). rewrite list_fmap_insert. apply list_insert_id.
  by rewrite list_lookup_fmap, H.
Qed.

Lemma other_call r k k' i c c' :
  kept_marks r -> rc_calls r !! k = Some (i, c) -> rc_calls r !! k' = Some (i, c') -> k = k'.
Proof.
  intros Hk H1 H2. eapply (NoDup_lookup (fst <$> rc_calls r) k k' i); [apply (km_once r Hk)|..];
    rewrite list_lookup_fmap; [by rewrite H1|by rewrite H2].
Qed.

(** A call moves on and keeps the mark of every issue but, unmarking, its own. *)
Lemma call_keeps r k i c c' o :
  kept_marks r -> rc_calls r !! k = Some (i, c) ->
  (forall j, j ∈ o_userCancelledIDs (rc_orch r) -> j <> i \/ stands c' -> j ∈ o_userCancelledIDs o) ->
  (stands c' -> stands c \/ (i ∈ o_userCancelledIDs o)) ->
  o_cancelled (rc_orch r) ⊆ o_cancelled o ->
  (forall n, c' = AtAnswer (Some n) -> n ∈ o_cancelled o) ->
  kept_marks (call_moves k i c' o r).
Proof.
  intros Hk Hc Hm Hst Hcn Hnew. constructor; cbn.
  - intros k' j d. destruct (decide (k' = k)) as [->|Hne].
    + rewrite list_lookup_insert_eq by (by eapply lookup_lt_Some). intros [= <- <-] Hd. unfold marked. cbn.
      destruct (Hst Hd) as [Hs|Hs]; [|set_solver].
      pose proof (km_mark r Hk _ _ _ Hc Hs) as [Hin|Hin]%elem_of_union; [|set_solver].
      apply elem_of_union_l, Hm; auto.
    + rewrite list_lookup_insert_ne by done. intros Hl Hd. unfold marked. cbn.
      pose proof (km_mark r Hk _ _ _ Hl Hd) as [Hin|Hin]%elem_of_union; [|set_solver].
      apply elem_of_union_l, Hm; [done|]. left. intros ->. by apply Hne, (other_call r k' k i d c).
  - intros k' j n. destruct (decide (k' = k)) as [->|Hne].
    + rewrite list_lookup_insert_eq by (by eapply lookup_lt_Some). intros [= <- ->]. by apply Hnew.
    + rewrite list_lookup_insert_ne by done. intros Hl. apply Hcn. by eapply (km_stop r Hk).
  - rewrite (calls_ids _ _ _ _ _ Hc). apply (km_once r Hk).
Qed.

Lemma loop_keeps r o paused ex :
  kept_marks r -> marked r ⊆ o_userCancelledIDs o ∪ paused -> o_cancelled (rc_orch r) ⊆ o_cancelled o ->
  kept_marks (loop_moves o paused ex r).
Proof.
  intros Hk Hm Hc. constructor; cbn.
  - intros k i c Hl Hs. apply Hm. by eapply (km_mark r Hk).
  - intros k i n Hl. apply Hc. by eapply (km_stop r Hk).
  - apply (km_once r Hk).
Qed.

Lemma takes_keeps r i : kept_marks r -> kept_marks (takes_mark i r).
Proof.
  intros Hk. unfold takes_mark. case_decide; apply loop_keeps; try done. unfold marked. cbn.
  intros j [Hj|Hj]%elem_of_union; [|set_solver]. destruct (decide (j = i)) as [->|]; set_solver.
Qed.

Lemma race_keeps r r' : race r r' -> kept_marks r -> kept_marks r'.
Proof.
  intros Hs Hk. destruct Hs as [k i Hc|k i n Hc Hn|k i Hc Hn|k i n Hc|k i Hc|i He|i He|i He Hp|i He].
  - apply (call_keeps r k i AtMark); try done; cbn; set_solver.
  - by apply (call_keeps r k i AtLookup); try done; cbn; auto.
  - by apply (call_keeps r k i AtLookup).
  - apply (call_keeps r k i (AtCancel n)); try done; cbn; [auto|set_solver|]. intros m [= ->]. set_solver.
  - apply (call_keeps r k i AtUnmark); try done. cbn. intros j Hj [Hne|[]]. set_solver.
  - apply loop_keeps; [done| |apply cleanup_cancelled]. unfold marked. by rewrite cleanup_marks.
  - by apply takes_keeps.
  - by apply loop_keeps.
  - apply loop_keeps; [done| |apply cleanup_cancelled]. unfold marked. by rewrite cleanup_marks.
Qed.

(** C11: a cancel that found the worker is not lost: when calls for different issues
    run against the loop in any interleaving of their locks, an answered call
    has told the worker to stop, and the issue is marked, so that the exit
    pauses it, or already paused. *)
Theorem cancel_not_lost r r' k i n :
  NoDup (map fst (rc_calls r)) -> (forall k i c, rc_calls r !! k = Some (i, c) -> c = AtMark) ->
  rtc race r r' -> rc_calls r' !! k = Some (i, AtAnswer (Some n)) ->
  (n ∈ o_cancelled (rc_orch r')) /\ (i ∈ marked r') /\
  (forall r2, rc_exit r' = Some i -> race r' r2 -> rc_exit r2 = None -> i ∈ rc_paused r2).
Proof.
  intros Hnd H0 Hs Ha.
  assert (Hk : kept_marks r').
  { assert (Hk : kept_marks r).
    { constructor; [|intros; by eapply H0 in H|done]. intros k' i' c Hl Hc. by rewrite (H0 _ _ _ Hl) in Hc. }
    clear Ha H0 Hnd. induction Hs; [done|]. eauto using race_keeps. }
  pose proof (km_mark r' Hk _ _ _ Ha I) as Hm.
  split_and!; [by eapply (km_stop r' Hk)|done|]. intros r2 He H2 Hn.
  destruct H2 as [k' j H|k' j m H ?|k' j H ?|k' j m H|k' j H|j H|j H|j H ?|j H]; cbn in Hn; try congruence.
  rewrite He in H. injection H as <-. unfold takes_mark in *. unfold marked in Hm.
  case_decide; cbn; set_solver.
Qed.

(** ** Examples *)

Definition serving (d : Daemon) : Service := storeSnap (MkService d empty_State []).

Definition quiet : Service := serving (boot open_config).

Lemma quiet_ok : channel_ok quiet.
Proof. constructor; [cbn; unfold eventCapacity; lia|]. intros H. by apply not_elem_of_nil in H. Qed.

(** A daemon asked to drain ticks over an open issue while the dashboard asks
    for it. *)
Definition drained_story : Service :=
  snd (call (CallProvideInput "1" "go on") (turn redact_nothing (Ticked one_todo) (announceDrain quiet))).

Example requests_refine_witness :
  AdmissionClosed (d_world (sv_daemon (announceDrain quiet))) = true /\
  started (sv_daemon drained_story) = [].
Proof.
  split; [reflexivity|].
  assert (Hc : channel_ok (announceDrain quiet)).
  { constructor; [cbn; unfold eventCapacity; lia|]. intros H. by apply not_elem_of_nil in H. }
  change (@nil (nat * string)) with (started (sv_daemon (announceDrain quiet))).
  apply (requests_refine redact_nothing (announceDrain quiet) drained_story Hc); [|reflexivity].
  eapply rtc_l; [apply (serve_tick _ _ one_todo)|]. apply rtc_once. apply serve_call.
Defined.

(** A paused issue, and its resume. *)
Definition paused_one : Service :=
  serving (MkDaemon (on_state (pause "A" "1" PauseReasonUserCancelled) (d_world (boot open_config))) None false).


(** One live worker of "A", and calls that have not begun. *)
Definition one_worker (calls : list string) : Race :=
  MkRace (snd (registerWorker (new_orchestrator open_config) "A")) ∅ None (map (fun i => (i, AtMark)) calls).

Lemma one_worker_fresh calls k i c : rc_calls (one_worker calls) !! k = Some (i, c) -> c = AtMark.
Proof. cbn. rewrite list_lookup_fmap. destruct (calls !! k); cbn; [by intros [= _ <-]|done]. Qed.

(** The exit comes between the call's locks. *)
Definition mid_cancel : Race :=
  let r1 := call_moves 0 "A" AtLookup (mark_cancelled "A" (rc_orch (one_worker ["A"; "B"]))) (one_worker ["A"; "B"]) in
  let r2 := call_moves 0 "A" (AtCancel 0) (rc_orch r1) r1 in
  let r3 := loop_moves (cancelAndCleanupWorker (rc_orch r2) "A") (rc_paused r2) (Some "A") r2 in
  call_moves 0 "A" (AtAnswer (Some 0%nat)) (cancel_worker (rc_orch r3) 0) r3.

Lemma mid_cancel_runs : rtc race (one_worker ["A"; "B"]) mid_cancel.
Proof.
  eapply rtc_l; [by apply (race_mark _ 0 "A")|].
  eapply rtc_l; [by apply (race_found _ 0 "A" 0)|].
  eapply rtc_l; [by apply (race_exit _ "A")|].
  apply rtc_once. by apply (race_cancel _ 0 "A" 0).
Qed.

Example cancel_not_lost_witness :
  (0%nat ∈ o_cancelled (rc_orch mid_cancel)) /\ ("A" ∈ rc_paused (takes_mark "A" mid_cancel)).
Proof.
  destruct (cancel_not_lost (one_worker ["A"; "B"]) mid_cancel 0 "A" 0) as (H1 & _ & H3).
  - apply (bool_decide_eq_true_1 _). reflexivity.
  - exact (one_worker_fresh _).
  - exact mid_cancel_runs.
  - reflexivity.
  - split; [exact H1|]. apply H3; [reflexivity|by apply race_take|]. unfold takes_mark. by case_decide.
Defined.

(** ** Two cancels of one issue

    The second call misses the worker that the first has stopped, and clears
    the mark both of them stand behind: the first was answered without an
    error, yet the exit finds no mark and nothing is paused. *)
Definition two_cancels : Race :=
  let r0 := one_worker ["A"; "A"] in
  let r1 := call_moves 0 "A" AtLookup (mark_cancelled "A" (rc_orch r0)) r0 in
  let r2 := call_moves 0 "A" (AtCancel 0) (rc_orch r1) r1 in
  let r3 := call_moves 0 "A" (AtAnswer (Some 0%nat)) (cancel_worker (rc_orch r2) 0) r2 in
  let r4 := loop_moves (cancelAndCleanupWorker (rc_orch r3) "A") (rc_paused r3) (Some "A") r3 in
  let r5 := call_moves 1 "A" AtLookup (mark_cancelled "A" (rc_orch r4)) r4 in
  let r6 := call_moves 1 "A" AtUnmark (rc_orch r5) r5 in
  let r7 := call_moves 1 "A" (AtAnswer None) (unmark_cancelled "A" (rc_orch r6)) r6 in
  takes_mark "A" r7.

Theorem two_cancels_lose_one :
  rtc race (one_worker ["A"; "A"]) two_cancels /\
  rc_calls two_cancels = [("A", AtAnswer (Some 0%nat)); ("A", AtAnswer None)] /\
  rc_exit two_cancels = None /\ ("A" ∉ marked two_cancels).
Proof.
  split.
  - eapply rtc_l; [by apply (race_mark _ 0 "A")|].
    eapply rtc_l; [by apply (race_found _ 0 "A" 0)|].
    eapply rtc_l; [by apply (race_cancel _ 0 "A" 0)|].
    eapply rtc_l; [by apply (race_exit _ "A")|].
    eapply rtc_l; [by apply (race_mark _ 1 "A")|].
    eapply rtc_l; [by apply (race_missed _ 1 "A")|].
    eapply rtc_l; [by apply (race_unmark _ 1 "A")|].
    apply rtc_once. by apply (race_take _ "A").
  - split_and!; [reflexivity|reflexivity|]. apply (bool_decide_eq_true_1 _). vm_compute. reflexivity.
Qed.

(** ** A cancel of a retry that has just fired

    The published copy still shows the retry, so the call succeeds; by the time
    its event is handled a worker of the issue runs, and it is neither told to
    stop nor marked: the issue is paused and no longer claimed while its agent
    works on. *)
Definition stalling : Config :=
  open_config <| cfg_Agent := cfg_Agent open_config <| agent_StallTimeoutMs := 1000 |> |>.

Definition stall_tick (ms : Z) : TickEnv := MkTickEnv (at_ms ms) (inr [todo "1"]) None [] (fun _ => true).

Definition dispatched_once : Service := turn redact_nothing (Ticked (stall_tick 1)) (serving (boot stalling)).
Definition retry_waits : Service := turn redact_nothing (Ticked (stall_tick 1500)) dispatched_once.
Definition cancel_asked : Service := snd (call (CallCancel "1") retry_waits).
Definition retry_fired : Service := turn redact_nothing (Ticked (stall_tick 600000)) cancel_asked.
Definition cancel_late : Service :=
  turn redact_nothing (Received (at_ms 600001) (EventCancelRetry "1" "1")) (retry_fired <| sv_events := [] |>).

Theorem late_cancel_pauses_a_live_run :
  rtc (serve redact_nothing) (serving (boot stalling)) cancel_late /\
  fst (CancelIssue "1" retry_waits) = None /\
  live (life (d_world (sv_daemon cancel_late))) "1" 1 /\
  PausedIdentifiers (sv_state cancel_late) !! "1" = Some "1" /\
  is_Some (Running (sv_state cancel_late) !! "1") /\ ("1" ∉ Claimed (sv_state cancel_late)).
Proof.
  split.
  { apply (rtc_l _ _ dispatched_once); [exact (serve_tick _ _ _)|].
    apply (rtc_l _ _ retry_waits); [exact (serve_tick _ _ _)|].
    apply (rtc_l _ _ cancel_asked); [exact (serve_call _ _ _)|].
    apply (rtc_l _ _ retry_fired); [exact (serve_tick _ _ _)|].
    apply rtc_once. refine (serve_event _ _ (at_ms 600001) (EventCancelRetry "1" "1") [] _).
    vm_compute. reflexivity. }
  split; [vm_compute; reflexivity|].
  split; [split; apply (bool_decide_eq_true_1 _); vm_compute; reflexivity|].
  split; [vm_compute; reflexivity|]. split; [by eexists; vm_compute|].
  apply (bool_decide_eq_true_1 _). vm_compute. reflexivity.
Qed.
