(* ===== verification/Restart.v ===== *)
(** * Restart: what the loop writes down, and what the next loop makes of it
    (internal/orchestrator/snapshot.go 206-644, 714-727, 843-1163,
    backend_health_persist.go, deps_override.go 85-136, pending_review.go
    68-128, queue_persistence_envelope.go, event_loop.go 25-48,
    automation.go 517-564)

    A ledger is a JSON file.  It is modelled as the value its text encodes, with
    one constructor for each shape its loader tells apart; [None] stands for a
    file that is missing, cannot be read or is not JSON of these shapes.  How
    the bytes reach the disk is the subject of [Ledger].  Times in the ledgers
    keep their nanoseconds but for those of the input-required file, which are
    printed to the second.  Every ledger has its path.  The copies kept of
    quarantined files and the run history are not modelled.

    The theorems: a restart restores what was saved; whatever the files hold,
    the loop starts in good order; and from there the loop's own theorems go
    on. *)

From stdpp Require Import base gmap list strings relations.
From S2P Require Import Prelude Domain State Config Retry Dispatch BackendHealth Outbox AutomationQueue Tracker Rfc3339.
From S2P Require Import StatusHistory Orchestrator Failures Automation Triggers World RateLimited Reviews Replies.
From S2P Require Import Workers Exits Events Tick Lifecycle Frames Handlers LoopHandlers Loop.

Local Open Scope Z_scope.

Definition mark_active (ids : gset string) (s : State) : State :=
  s <| PrevActiveIdentifiers := ids ∪ PrevActiveIdentifiers s |>.

(** ** Paused issues *)

Inductive PausedFile :=
  | PausedByID (paused : gmap string string)
  | PausedLegacy (identifiers : list string).

Definition savePausedToDisk (paused : gmap string string) : option PausedFile := Some (PausedByID paused).

Definition loadPausedFromDisk (file : option PausedFile) (s : State) : State :=
  match file with
  | None => s
  | Some (PausedByID paused) =>
      mark_active (dom paused) (s <| PausedIdentifiers := paused ∪ PausedIdentifiers s |>)
  | Some (PausedLegacy ids) =>
      mark_active (list_to_set ids)
        (s <| PausedIdentifiers := foldl (fun m id => <[id := ""]> m) (PausedIdentifiers s) ids |>)
  end.

(** Nothing is written while there is nothing to say, unless an older version
    was submitted or is there. *)
Definition savePauseReasonsToDisk (hasSubmitted : bool) (old : option (gmap string string))
    (reasons : gmap string string) : option (gmap string string) :=
  if bool_decide (reasons = ∅) && negb hasSubmitted && negb (bool_decide (is_Some old)) then old else Some reasons.

Definition loadPauseReasonsFromDisk (file : option (gmap string string)) (s : State) : State :=
  match file with
  | None => s
  | Some reasons =>
      s <| PauseReasons :=
             filter (fun kv => is_Some (PausedIdentifiers s !! kv.1)) reasons ∪ PauseReasons s |>
  end.

(** ** Questions and answers *)

Record inputRequiredDisk := MkInputRequiredDisk {
  ird_IssueID : string;
  ird_Identifier : string;
  ird_SessionID : string;
  ird_Context : string;
  ird_BranchName : string;
  ird_Backend : string;
  ird_Command : string;
  ird_WorkerHost : string;
  ird_ProfileName : string;
  ird_QuestionCommentKey : string;
  ird_QuestionCommentID : string;
  ird_QuestionAuthorID : string;
  ird_QuestionAuthorName : string;
  ird_QueuedAt : string;
  ird_LastReplyCheckAt : string;
}.

Record pendingInputResumeDisk := MkPendingInputResumeDisk {
  pird_IssueID : string;
  pird_Identifier : string;
  pird_SessionID : string;
  pird_Context : string;
  pird_UserMessage : string;
  pird_BranchName : string;
  pird_Backend : string;
  pird_Command : string;
  pird_WorkerHost : string;
  pird_ProfileName : string;
  pird_QuestionCommentKey : string;
  pird_QuestionCommentID : string;
  pird_QuestionAuthorID : string;
  pird_QuestionAuthorName : string;
  pird_QueuedAt : string;
}.

Inductive InputRequiredFile :=
  | InputRequiredState (awaiting : gmap string inputRequiredDisk) (pending : gmap string pendingInputResumeDisk)
  | InputRequiredLegacy (awaiting : gmap string inputRequiredDisk).

Definition formatOptionalTime (t : Time) : string := if time_is_zero t then "" else FormatRFC3339 t.

Definition parseOptionalTime (s : string) : Time :=
  if String.eqb s "" then zero_time else default zero_time (ParseRFC3339 s).

Definition input_to_disk (v : InputRequiredEntry) : inputRequiredDisk :=
  MkInputRequiredDisk (ir_IssueID v) (ir_Identifier v) (ir_SessionID v) (ir_Context v) (ir_BranchName v)
    (ir_Backend v) (ir_Command v) (ir_WorkerHost v) (ir_ProfileName v) (ir_QuestionCommentKey v)
    (ir_QuestionCommentID v) (ir_QuestionAuthorID v) (ir_QuestionAuthorName v)
    (FormatRFC3339 (ir_QueuedAt v)) (formatOptionalTime (ir_LastReplyCheckAt v)).

Definition input_from_disk (v : inputRequiredDisk) : InputRequiredEntry :=
  MkInputRequiredEntry (ird_IssueID v) (ird_Identifier v) (ird_SessionID v) (ird_Context v) (ird_BranchName v)
    (ird_Backend v) (ird_Command v) (ird_WorkerHost v) (ird_ProfileName v) (ird_QuestionCommentKey v)
    (ird_QuestionCommentID v) (ird_QuestionAuthorID v) (ird_QuestionAuthorName v)
    (default zero_time (ParseRFC3339 (ird_QueuedAt v))) (parseOptionalTime (ird_LastReplyCheckAt v)) false.

Definition resume_to_disk (v : PendingInputResumeEntry) : pendingInputResumeDisk :=
  MkPendingInputResumeDisk (pir_IssueID v) (pir_Identifier v) (pir_SessionID v) (pir_Context v) (pir_UserMessage v)
    (pir_BranchName v) (pir_Backend v) (pir_Command v) (pir_WorkerHost v) (pir_ProfileName v)
    (pir_QuestionCommentKey v) (pir_QuestionCommentID v) (pir_QuestionAuthorID v) (pir_QuestionAuthorName v)
    (FormatRFC3339 (pir_QueuedAt v)).

Definition resume_from_disk (v : pendingInputResumeDisk) : PendingInputResumeEntry :=
  MkPendingInputResumeEntry (pird_IssueID v) (pird_Identifier v) (pird_SessionID v) (pird_Context v)
    (pird_UserMessage v) (pird_BranchName v) (pird_Backend v) (pird_Command v) (pird_WorkerHost v)
    (pird_ProfileName v) (pird_QuestionCommentKey v) (pird_QuestionCommentID v) (pird_QuestionAuthorID v)
    (pird_QuestionAuthorName v) (default zero_time (ParseRFC3339 (pird_QueuedAt v))) zero_time.

Definition saveInputRequiredToDisk (entries : gmap string InputRequiredEntry)
    (pending : gmap string PendingInputResumeEntry) : option InputRequiredFile :=
  Some (InputRequiredState (input_to_disk <$> entries) (resume_to_disk <$> pending)).

Definition inputRequiredPreloadIdent (identifier key : string) : string :=
  if String.eqb identifier "" then key else identifier.

Definition preload_idents {A} (ident : A -> string) (m : gmap string A) : gset string :=
  list_to_set (map (fun kv => inputRequiredPreloadIdent (ident kv.2) kv.1) (map_to_list m)).

Definition loadInputRequiredFromDisk (file : option InputRequiredFile) (s : State) : State :=
  let restored (awaiting : gmap string inputRequiredDisk) (pending : gmap string pendingInputResumeDisk) :=
    mark_active (preload_idents ird_Identifier awaiting ∪ preload_idents pird_Identifier pending)
      (s <| InputRequiredIssues := (input_from_disk <$> awaiting) ∪ InputRequiredIssues s |>
         <| PendingInputResumes := (resume_from_disk <$> pending) ∪ PendingInputResumes s |>) in
  match file with
  | None => s
  | Some (InputRequiredState awaiting pending) => restored awaiting pending
  | Some (InputRequiredLegacy awaiting) => restored awaiting ∅
  end.

(** ** The automation queue *)

(** A null entry is [None]. *)
Record automationQueueStateDisk := MkAutomationQueueStateDisk {
  aqd_Entries : gmap string (option AutomationQueueEntry);
  aqd_Order : list string;
  aqd_Backpressure : AutomationQueueBackpressure;
  aqd_DependencyAudit : gmap string DependencyAuditEntry;
  aqd_DependencyTransitionSeq : Z;
}.

Definition empty_disk : automationQueueStateDisk :=
  MkAutomationQueueStateDisk ∅ [] (QueueBackpressure empty_State) ∅ 0.

(** [env_Payload] is [None] when the payload is JSON of another shape. *)
Record QueuePersistenceEnvelope := MkQueuePersistenceEnvelope {
  qe_SchemaVersion : Z;
  qe_DaemonInstanceID : string;
  qe_Payload : option automationQueueStateDisk;
  qe_PayloadSHA256 : string;
}.

(** A file has the envelope's shape when its schema_version is positive; it is
    [Enveloped None] when its other fields are not the envelope's. *)
Inductive QueueFile :=
  | Enveloped (envelope : option QueuePersistenceEnvelope)
  | RawPayload (disk : automationQueueStateDisk).

Definition QueuePersistenceSchemaVersion : Z := 2.

Inductive EnvelopeError := EnvelopeUnparsed | EnvelopeQuarantined (reason : string).

Section ledgers.
(** The SHA-256 of a payload's text. *)
Context (digest : option automationQueueStateDisk -> string).

Definition EncodeQueueEnvelope (payload : automationQueueStateDisk) (instance : string) : QueuePersistenceEnvelope :=
  MkQueuePersistenceEnvelope QueuePersistenceSchemaVersion instance (Some payload) (digest (Some payload)).

(** The payload and the warning. *)
Definition DecodeQueueEnvelope (data : option QueuePersistenceEnvelope) (expected : string) :
    EnvelopeError + option automationQueueStateDisk * string :=
  match data with
  | None => inl EnvelopeUnparsed
  | Some env =>
      if negb (qe_SchemaVersion env =? QueuePersistenceSchemaVersion) then inl (EnvelopeQuarantined "schema_version_mismatch")
      else if negb (String.eqb (digest (qe_Payload env)) (qe_PayloadSHA256 env)) then inl (EnvelopeQuarantined "checksum_mismatch")
      else if negb (String.eqb expected "") && negb (String.eqb (qe_DaemonInstanceID env) "")
              && negb (String.eqb (qe_DaemonInstanceID env) expected)
      then inr (qe_Payload env, "daemon_instance_mismatch")
      else inr (qe_Payload env, "")
  end.

Definition saveAutomationQueueToDisk (instance : string) (s : State) : option QueueFile :=
  Some (Enveloped (Some (EncodeQueueEnvelope
    (MkAutomationQueueStateDisk (Some <$> AutomationQueue s) (AutomationQueueOrder s) (QueueBackpressure s)
       (DependencyAudit s) (DependencyTransitionSeq s)) instance))).

(** An entry without an id takes its key; one that lacks a required field is
    dropped. *)
Definition restored_entry (kv : string * option AutomationQueueEntry) : option (string * AutomationQueueEntry) :=
  let '(key, entry) := kv in
  e ← entry;
  let e := if String.eqb (aq_ID e) "" then e <| aq_ID := key |> else e in
  if String.eqb (aq_ID e) "" || String.eqb (aq_AutomationID e) "" || String.eqb (aq_TriggerType e) "" then None
  else Some (aq_ID e, e).

Definition restored_entries (entries : gmap string (option AutomationQueueEntry)) :
    list (string * AutomationQueueEntry) := omap restored_entry (map_to_list entries).

(** The listed ids that are in the queue, each once, after those already seen. *)
Definition list_order (queue : gmap string AutomationQueueEntry) (seen order : list string) : list string :=
  foldl (fun seen id =>
    if negb (bool_decide (is_Some (queue !! id))) || bool_decide (id ∈ seen) then seen else seen ++ [id]) seen order.

Definition listed_order (queue : gmap string AutomationQueueEntry) (order : list string) : list string :=
  list_order queue [] order.

Definition restored_order (queue : gmap string AutomationQueueEntry) (order : list string) : list string :=
  let listed := listed_order queue order in
  listed ++ sort_strings (List.filter (fun id => negb (bool_decide (id ∈ listed))) (map fst (map_to_list queue))).

(** A refresh that was under way is not. *)
Definition copyDependencyAuditMapForRestore (m : gmap string DependencyAuditEntry) : gmap string DependencyAuditEntry :=
  (fun e => e <| da_InFlight := false |>) <$> m.

Definition restore_entries (disk : automationQueueStateDisk) (s : State) : State :=
  let s := ensureAutomationQueueState s in
  let entries := restored_entries (aqd_Entries disk) in
  let queue := foldl (fun m kv => <[kv.1 := kv.2]> m) ∅ entries in
  let s := mark_active (list_to_set (List.filter (fun i => negb (String.eqb i ""))
                          (map (fun kv => issue_Identifier (aq_Issue kv.2)) entries))) s in
  let s := s <| AutomationQueue := queue |> <| AutomationQueueOrder := restored_order queue (aqd_Order disk) |> in
  let currentMaxLength := bp_MaxLength (QueueBackpressure s) in
  refreshAutomationQueueBackpressure
    (s <| QueueBackpressure := aqd_Backpressure disk <| bp_MaxLength := currentMaxLength |> |>).

(** With rows to look at, the next refresh has something to do. *)
Definition restore_audit (disk : automationQueueStateDisk) (s : State) : State :=
  let audit := if bool_decide (aqd_DependencyAudit disk = ∅) then DependencyAudit s
               else copyDependencyAuditMapForRestore (aqd_DependencyAudit disk) in
  let seq := aqd_DependencyTransitionSeq disk in
  s <| DependencyAudit := audit |>
    <| DependencyTransitionSeq := seq |>
    <| LastBlockersResolvedAuditSeq :=
         if bool_decide (audit = ∅) then LastBlockersResolvedAuditSeq s else add64 seq (-1) |>.

Definition restore_queue (disk : automationQueueStateDisk) (s : State) : State := restore_audit disk (restore_entries disk s).

(** The state, and whether the file was put into quarantine.  An envelope that
    does not parse is read as a payload, none of whose keys it has. *)
Definition loadAutomationQueueFromDisk (instance : string) (file : option QueueFile) (s : State) : bool * State :=
  match file with
  | None => (false, s)
  | Some (RawPayload disk) => (false, restore_queue disk s)
  | Some (Enveloped data) =>
      match DecodeQueueEnvelope data instance with
      | inl EnvelopeUnparsed => (false, restore_queue empty_disk s)
      | inl (EnvelopeQuarantined _) => (true, s)
      | inr (None, _) => (false, s)
      | inr (Some disk, _) => (false, restore_queue disk s)
      end
  end.

(** ** Switches *)

Record autoSwitchedRecord := MkAutoSwitchedRecord {
  as_Profile : string;
  as_Backend : string;
  as_SwitchedAt : option Time;
  as_Source : string;
  as_FromBackend : string;
  as_FromProfile : string;
  as_Reason : string;
  as_FromKey : string;
}.

Record autoSwitchedEnvelope := MkAutoSwitchedEnvelope {
  ase_Version : Z;
  ase_Overrides : gmap string autoSwitchedRecord;
  ase_History : gmap string (list Time);
  ase_Cooldowns : gmap string Time;
  ase_CapCommentUntil : gmap string Time;
}.

Definition autoSwitchedFileVersion : Z := 2.

(** A file that is there but is neither an envelope nor the flat map of
    version 1 is [AutoSwitchedGarbage]. *)
Inductive AutoSwitchedFile :=
  | AutoSwitchedV2 (env : autoSwitchedEnvelope)
  | AutoSwitchedLegacy (overrides : gmap string autoSwitchedRecord)
  | AutoSwitchedGarbage.

Definition decodeAutoSwitchedFile (file : AutoSwitchedFile) : option autoSwitchedEnvelope :=
  match file with
  | AutoSwitchedV2 env => if ase_Version env =? autoSwitchedFileVersion then Some env else None
  | AutoSwitchedLegacy overrides => Some (MkAutoSwitchedEnvelope 1 overrides ∅ ∅ ∅)
  | AutoSwitchedGarbage => None
  end.

Definition switch_record (s : State) (id : string) : autoSwitchedRecord :=
  let info := AutoSwitchInfo s !! id in
  let from (f : AutoSwitchRecord -> string) := match info with Some i => f i | None => "" end in
  MkAutoSwitchedRecord (default "" (IssueProfiles s !! id)) (default "" (IssueBackends s !! id))
    (t ← AutoSwitchedAt s !! id; if time_is_zero t then None else Some t)
    (from asr_Source) (from asr_FromBackend) (from asr_FromProfile) (from asr_Reason) (from asr_FromKey).

Definition saveAutoSwitchedToDisk (s : State) : option AutoSwitchedFile :=
  Some (AutoSwitchedV2 (MkAutoSwitchedEnvelope autoSwitchedFileVersion
    (set_to_map (fun id => (id, switch_record s id)) (AutoSwitchedIdentifiers s))
    (SwitchHistory s) (RateLimitCooldowns s) (RateLimitCapCommentUntil s))).

Definition switched_at (rec : autoSwitchedRecord) : option Time :=
  t ← as_SwitchedAt rec; if time_is_zero t then None else Some t.

Definition switch_info (rec : autoSwitchedRecord) : option AutoSwitchRecord :=
  if String.eqb (as_Source rec) "" then None
  else Some (MkAutoSwitchRecord (as_Source rec) (as_FromBackend rec) (as_FromProfile rec) (as_Backend rec)
               (as_Profile rec) (as_Reason rec) (as_FromKey rec) (default zero_time (as_SwitchedAt rec))).

Definition applyAutoSwitchedEnvelope (cfg : Config) (now : Time) (env : autoSwitchedEnvelope) (s : State) : State :=
  let overrides := ase_Overrides env in
  let live (m : gmap string Time) := filter (fun kv => time_after kv.2 now = true) m in
  s <| IssueProfiles := (as_Profile <$> overrides) ∪ IssueProfiles s |>
    <| IssueBackends := omap (fun r => if String.eqb (as_Backend r) "" then None else Some (as_Backend r)) overrides
                          ∪ IssueBackends s |>
    <| AutoSwitchedIdentifiers := dom overrides ∪ AutoSwitchedIdentifiers s |>
    <| AutoSwitchedAt := omap switched_at overrides ∪ AutoSwitchedAt s |>
    <| AutoSwitchInfo := omap switch_info overrides ∪ AutoSwitchInfo s |>
    <| SwitchHistory := omap (fun l => match recent_stamps cfg now l with [] => None | kept => Some kept end)
                          (ase_History env) ∪ SwitchHistory s |>
    <| RateLimitCooldowns := live (ase_Cooldowns env) ∪ RateLimitCooldowns s |>
    <| RateLimitCapCommentUntil := live (ase_CapCommentUntil env) ∪ RateLimitCapCommentUntil s |>.

Definition loadAutoSwitchedFromDisk (cfg : Config) (now : Time) (file : option AutoSwitchedFile) (s : State) :
    bool * State :=
  match file with
  | None => (false, s)
  | Some f =>
      match decodeAutoSwitchedFile f with
      | None => (true, s)
      | Some env => (false, applyAutoSwitchedEnvelope cfg now env s)
      end
  end.

(** ** Backend breakers *)

Record backendHealthRecord := MkBackendHealthRecord {
  bhr_Backend : string;
  bhr_Host : string;
  bhr_Status : string;
  bhr_Kind : string;
  bhr_LimitType : string;
  bhr_Source : string;
  bhr_LimitedUntil : Time;
  bhr_ResetKnown : bool;
  bhr_Since : Time;
  bhr_Hits : Z;
  bhr_LastIssue : string;
}.

Inductive BackendHealthFile :=
  | BackendHealthEnvelope (version : Z) (backends : gmap string backendHealthRecord)
  | BackendHealthGarbage.

Definition backendHealthFileVersion : Z := 1.

Definition open_status (status : string) : bool :=
  String.eqb status BackendStatusLimited || String.eqb status BackendStatusProbing.

Definition breaker_to_disk (e : BackendHealthEntry) : option backendHealthRecord :=
  if open_status (bh_Status e) then
    Some (MkBackendHealthRecord (bh_Backend e) (bh_Host e) (bh_Status e) (bh_Kind e) (bh_LimitType e) (bh_Source e)
            (bh_LimitedUntil e) (bh_ResetKnown e) (bh_Since e) (bh_Hits e) (bh_LastIssue e))
  else None.

Definition breaker_from_disk (now : Time) (r : backendHealthRecord) : option BackendHealthEntry :=
  if open_status (bhr_Status r) then
    Some (MkBackendHealthEntry (bhr_Backend r) (bhr_Host r) (bhr_Status r) (bhr_Kind r) (bhr_LimitType r)
            (bhr_Source r) (clampLimitedUntil (bhr_LimitedUntil r) now (bhr_Kind r) (bhr_Source r) (bhr_LimitType r))
            (bhr_ResetKnown r) (bhr_Since r) (bhr_Hits r) (bhr_LastIssue r) "" 0 zero_time)
  else None.

Definition saveBackendHealthToDisk (s : State) : option BackendHealthFile :=
  Some (BackendHealthEnvelope backendHealthFileVersion (omap breaker_to_disk (BackendHealth s))).

Definition loadBackendHealthFromDisk (now : Time) (file : option BackendHealthFile) (s : State) : bool * State :=
  match file with
  | None => (false, s)
  | Some BackendHealthGarbage => (true, s)
  | Some (BackendHealthEnvelope version backends) =>
      if negb (version =? backendHealthFileVersion) then (true, s)
      else (false, s <| BackendHealth := omap (breaker_from_disk now) backends ∪ BackendHealth s |>)
  end.

(** ** Overrides and reviews *)

Definition saveDepsOverridesToDisk (overrides : gmap string Time) : option (gmap string Time) := Some overrides.

Definition loadDepsOverridesFromDisk (file : option (gmap string Time)) (s : State) : State :=
  match file with
  | None => s
  | Some disk => s <| DepsOverrides := disk ∪ DepsOverrides s |>
  end.

Definition savePendingReviews (s : State) : option (gmap string PendingReview) := Some (PendingReviews s).

Definition restored_review (id : string) (r : PendingReview) : option PendingReview :=
  if String.eqb id "" || String.eqb (pr_IssueID r) "" || String.eqb (pr_Profile r) "" then None
  else Some (MkPendingReview (pr_IssueID r) id (pr_Profile r) (pr_QueuedAt r) (pr_IssueState r)).

Definition loadPendingReviewsFromDisk (file : option (gmap string PendingReview)) (s : State) : State :=
  match file with
  | None => s
  | Some disk => s <| PendingReviews := map_imap restored_review disk ∪ PendingReviews s |>
  end.

(** [LoadPendingReviewIdentifiers]: every row, the dropped ones too. *)
Definition LoadPendingReviewIdentifiers (file : option (gmap string PendingReview)) : gset string :=
  match file with None => ∅ | Some disk => dom disk end.

(** ** The start of the loop *)

Record Ledgers := MkLedgers {
  lg_paused : option PausedFile;
  lg_reasons : option (gmap string string);
  lg_switches : option AutoSwitchedFile;
  lg_health : option BackendHealthFile;
  lg_input : option InputRequiredFile;
  lg_queue : option QueueFile;
  lg_overrides : option (gmap string Time);
  lg_reviews : option (gmap string PendingReview);
}.

(** Every ledger as its save function writes it from one state: storeSnap saves
    the pauses, their reasons, the questions and the queue, and the handlers
    that change the switches, the breakers, the overrides or the reviews save
    those.  [old] is what was there before. *)
Definition saved (instance : string) (hasSubmitted : bool) (old : Ledgers) (s : State) : Ledgers :=
  MkLedgers (savePausedToDisk (PausedIdentifiers s))
    (savePauseReasonsToDisk hasSubmitted (lg_reasons old) (PauseReasons s))
    (saveAutoSwitchedToDisk s) (saveBackendHealthToDisk s)
    (saveInputRequiredToDisk (InputRequiredIssues s) (PendingInputResumes s))
    (saveAutomationQueueToDisk instance s) (saveDepsOverridesToDisk (DepsOverrides s)) (savePendingReviews s).

(** The failures a reload carries over in memory, and their acknowledgements. *)
Record Seed := MkSeed { seedFailures : list FailureRecord; seedFailureAcks : gmap string Time }.

Definition restored (cfg : Config) (instance : string) (now : Time) (seed : Seed) (files : Ledgers) : State :=
  let s := NewState cfg <| RecentFailures := seedFailures seed |> <| FailureAcks := seedFailureAcks seed |> in
  let s := pruneFailureAcks s in
  let s := loadPausedFromDisk (lg_paused files) s in
  let s := loadPauseReasonsFromDisk (lg_reasons files) s in
  let s := snd (loadAutoSwitchedFromDisk cfg now (lg_switches files) s) in
  let s := snd (loadBackendHealthFromDisk now (lg_health files) s) in
  let s := loadInputRequiredFromDisk (lg_input files) s in
  let s := snd (loadAutomationQueueFromDisk instance (lg_queue files) s) in
  let s := loadDepsOverridesFromDisk (lg_overrides files) s in
  loadPendingReviewsFromDisk (lg_reviews files) s.

(** [by_identifier] is the tracker's FetchIssueByIdentifier. *)
Definition fetchInputRequiredIssue (env : Env) (by_identifier : string -> FetchOutcome) (e : InputRequiredEntry) :
    option Issue :=
  let fetched (r : FetchOutcome) := match r with Fetched i => Some i | _ => None end in
  if negb (String.eqb (ir_IssueID e) "") then fetched (env_detail env (ir_IssueID e))
  else if String.eqb (ir_Identifier e) "" then None
  else fetched (by_identifier (ir_Identifier e)).

Definition replay_one (env : Env) (by_identifier : string -> FetchOutcome) (w : World) (identifier : string) : World :=
  match InputRequiredIssues (w_state w) !! identifier with
  | None => w
  | Some e =>
      match fetchInputRequiredIssue env by_identifier e with
      | None => w
      | Some issue => input_required_automations env issue (Some e) None w
      end
  end.

Definition replayPersistedInputRequiredAutomations (env : Env) (by_identifier : string -> FetchOutcome) (w : World) :
    World :=
  foldl (replay_one env by_identifier) w
    (sort_strings (map fst (map_to_list (InputRequiredIssues (w_state w))))).

Definition start (cfg : Config) (instance : string) (env : Env) (by_identifier : string -> FetchOutcome) (seed : Seed)
    (files : Ledgers) (outbox : option Outbox) : Daemon :=
  MkDaemon (replayPersistedInputRequiredAutomations env by_identifier
              (MkWorld (new_orchestrator cfg) (restored cfg instance (env_now env) seed files) []))
    outbox false.

(** ** Printed times *)

Definition whole_second (t : Time) : Time := t - t mod Second.

Lemma whole_second_div t : whole_second t = Second * (t / Second).
Proof. unfold whole_second. pose proof (Z.div_mod t Second ltac:(done)). lia. Qed.

Lemma printed_second t : 0 <= t < year_10000 -> ParseRFC3339 (FormatRFC3339 t) = Some (whole_second t).
Proof.
  intros Ht. assert (Hf : FormatRFC3339 t = FormatRFC3339 (whole_second t)).
  { unfold FormatRFC3339. rewrite whole_second_div, Z.mul_comm, Z.div_mul by done. reflexivity. }
  rewrite Hf. apply rfc3339_roundtrip. rewrite whole_second_div. unfold whole_seconds. split.
  - pose proof (Z.mul_div_le t Second ltac:(done)). split; [|lia]. apply Z.mul_nonneg_nonneg; [done|].
    apply Z.div_pos; [lia|done].
  - rewrite Z.mul_comm. by apply Z.mod_mul.
Qed.

Lemma optional_second t : 0 <= t < year_10000 -> parseOptionalTime (formatOptionalTime t) = whole_second t.
Proof.
  intros Ht. unfold parseOptionalTime, formatOptionalTime. destruct (Z.eqb_spec t 0) as [->|Hne]; [done|].
  unfold time_is_zero. apply Z.eqb_neq in Hne. rewrite Hne.
  pose proof (printed_second t Ht) as Hp. destruct (String.eqb_spec (FormatRFC3339 t) "") as [E|]; [|by rewrite Hp].
  rewrite E in Hp. discriminate Hp.
Qed.

(** ** The queue's order *)

Lemma list_order_spec queue order seen :
  NoDup seen -> (forall id, id ∈ seen -> is_Some (queue !! id)) ->
  NoDup (list_order queue seen order) /\ forall id, id ∈ list_order queue seen order <-> id ∈ seen \/ id ∈ order /\ is_Some (queue !! id).
Proof.
  revert seen. induction order as [|x order IH]; intros seen Hn Hs; cbn [list_order foldl].
  { split; [done|]. intros id. split; [by left|]. by intros [?|[?%not_elem_of_nil _]]. }
  fold (list_order queue). case_bool_decide as Hx; case_bool_decide as Hin; cbn [negb orb].
  - destruct (IH seen Hn Hs) as [H1 H2]. split; [exact H1|]. intros id. rewrite H2, elem_of_cons. naive_solver.
  - destruct (IH (seen ++ [x])) as [H1 H2].
    + apply NoDup_app. split; [done|]. split; [by intros y Hy ->%list_elem_of_singleton|apply NoDup_singleton].
    + intros id [H| ->%list_elem_of_singleton]%elem_of_app; auto.
    + split; [exact H1|]. intros id. rewrite H2, elem_of_app, list_elem_of_singleton, elem_of_cons. naive_solver.
  - destruct (IH seen Hn Hs) as [H1 H2]. split; [exact H1|]. intros id. rewrite H2, elem_of_cons. naive_solver.
  - destruct (IH seen Hn Hs) as [H1 H2]. split; [exact H1|]. intros id. rewrite H2, elem_of_cons. naive_solver.
Qed.

Lemma listed_order_spec queue order :
  NoDup (listed_order queue order) /\ forall id, id ∈ listed_order queue order <-> id ∈ order /\ is_Some (queue !! id).
Proof.
  destruct (list_order_spec queue order [] (NoDup_nil_2)) as [H1 H2]; [by intros id ?%not_elem_of_nil|].
  split; [exact H1|]. intros id. etrans; [apply H2|]. rewrite elem_of_nil. naive_solver.
Qed.

Lemma elem_of_sort_strings x l : x ∈ sort_strings l <-> x ∈ l.
Proof. unfold sort_strings. by rewrite sort_stable_perm. Qed.

Lemma elem_of_bool_filter {A} (f : A -> bool) x l : x ∈ List.filter f l <-> x ∈ l /\ f x = true.
Proof. by rewrite !list_elem_of_In, filter_In. Qed.

Lemma elem_of_keys {A} (m : gmap string A) k : k ∈ map fst (map_to_list m) <-> is_Some (m !! k).
Proof.
  change (k ∈ (map_to_list m).*1 <-> is_Some (m !! k)). rewrite list_elem_of_fmap. split.
  - intros ([k' v] & -> & H%elem_of_map_to_list). by exists v.
  - intros [v H]. exists (k, v). split; [done|by apply elem_of_map_to_list].
Qed.

Lemma restored_order_spec queue order :
  NoDup (restored_order queue order) /\ forall id, id ∈ restored_order queue order <-> is_Some (queue !! id).
Proof.
  destruct (listed_order_spec queue order) as [Hn Hl]. unfold restored_order. cbn zeta. split.
  - apply NoDup_app. split; [done|]. split.
    + intros x Hx Hs. apply elem_of_sort_strings, elem_of_bool_filter in Hs as [_ Hs].
      by rewrite bool_decide_eq_true_2 in Hs.
    + unfold sort_strings. rewrite sort_stable_perm. apply NoDup_ListNoDup, List.NoDup_filter, NoDup_ListNoDup.
      apply (NoDup_fst_map_to_list queue).
  - intros id. rewrite elem_of_app, elem_of_sort_strings, elem_of_bool_filter, elem_of_keys.
    specialize (Hl id). case_bool_decide; naive_solver.
Qed.

(** ** What each loader does *)

Definition entry_ok (id : string) (e : AutomationQueueEntry) : Prop :=
  aq_ID e = id /\ id <> "" /\ aq_AutomationID e <> "" /\ aq_TriggerType e <> "".

Lemma restored_entry_ok kv id e : restored_entry kv = Some (id, e) ->
  entry_ok id e /\ exists e0, kv.2 = Some e0 /\ aq_Issue e = aq_Issue e0.
Proof.
  destruct kv as [key [e0|]]; cbn; [|done].
  set (e1 := if String.eqb (aq_ID e0) "" then _ else _).
  assert (Hi : aq_Issue e1 = aq_Issue e0) by (unfold e1; by case_match).
  unfold entry_ok.
  destruct (String.eqb_spec (aq_ID e1) ""), (String.eqb_spec (aq_AutomationID e1) ""), (String.eqb_spec (aq_TriggerType e1) "");
    cbn; try done. intros [= <- <-]. split; [done|]. by exists e0.
Qed.

Lemma inserted_entries l (m : gmap string AutomationQueueEntry) id e :
  foldl (fun m (kv : string * AutomationQueueEntry) => <[kv.1 := kv.2]> m) m l !! id = Some e ->
  (id, e) ∈ l \/ m !! id = Some e.
Proof.
  revert m. induction l as [|[k v] l IH]; intros m; cbn [foldl]; [by right|].
  intros [H|H]%IH; [left; by right|]. cbn in H. destruct (decide (id = k)) as [->|Hne].
  - rewrite lookup_insert_eq in H. injection H as ->. left. by left.
  - rewrite lookup_insert_ne in H by done. by right.
Qed.

Definition queue_of (disk : automationQueueStateDisk) : gmap string AutomationQueueEntry :=
  foldl (fun m kv => <[kv.1 := kv.2]> m) ∅ (restored_entries (aqd_Entries disk)).

Lemma queue_of_ok disk id e : queue_of disk !! id = Some e ->
  entry_ok id e /\ exists k e0, aqd_Entries disk !! k = Some (Some e0) /\ aq_Issue e = aq_Issue e0.
Proof.
  intros [H|H]%inserted_entries; [|done]. unfold restored_entries in H.
  apply list_elem_of_omap in H as ([k o] & Hin%elem_of_map_to_list & Hr).
  apply restored_entry_ok in Hr as [He (e0 & Ho & Hi)]. cbn in Ho. subst o. eauto 6.
Qed.

(** A queue in order that was saved is read back. *)
Lemma queue_of_saved queue order bp audit seq :
  (forall id e, queue !! id = Some e -> entry_ok id e) ->
  queue_of (MkAutomationQueueStateDisk (Some <$> queue) order bp audit seq) = queue.
Proof.
  intros Hok. unfold queue_of, restored_entries. cbn [aqd_Entries].
  assert (Hl : omap restored_entry (map_to_list (Some <$> queue)) = map_to_list queue).
  { rewrite map_to_list_fmap. assert (H : Forall (fun kv => entry_ok kv.1 kv.2) (map_to_list queue)).
    { apply Forall_forall. intros [k e] H%elem_of_map_to_list. by apply Hok. }
    induction H as [|[k e] l (Hid & H1 & H2 & H3) _ IH]; [done|]. cbn in Hid, H1, H2, H3.
    cbn [fmap list_fmap omap list_omap prod_map restored_entry]. cbn. rewrite Hid.
    apply String.eqb_neq in H1, H2, H3. rewrite H1. cbn. rewrite Hid, H1, H2, H3. cbn. f_equal. exact IH. }
  rewrite Hl. rewrite <- (list_to_map_to_list queue) at 2.
  assert (Hn : NoDup (map_to_list queue).*1) by apply NoDup_fst_map_to_list.
  revert Hn. generalize (map_to_list queue). clear. intros l Hn.
  assert (H : forall m : gmap string AutomationQueueEntry, (forall k, k ∈ l.*1 -> m !! k = None) ->
    foldl (fun m (kv : string * AutomationQueueEntry) => <[kv.1 := kv.2]> m) m l = list_to_map l ∪ m).
  { induction l as [|[k v] l IH]; intros m Hm; cbn [foldl]; [symmetry; apply (left_id_L ∅ (∪))|].
    apply NoDup_cons in Hn as [Hk Hn]. rewrite IH; [|done|].
    - cbn [fst snd list_to_map foldr uncurry]. rewrite <- insert_union_l. rewrite insert_union_r; [done|].
      by apply not_elem_of_list_to_map.
    - intros k' Hk'. cbn. rewrite lookup_insert_ne by (intros ->; done). apply Hm. by right. }
  rewrite H by (intros; apply lookup_empty). apply (right_id_L ∅ (∪)).
Qed.

Lemma list_order_all queue acc l :
  NoDup (acc ++ l) -> (forall id, id ∈ l -> is_Some (queue !! id)) -> list_order queue acc l = acc ++ l.
Proof.
  unfold list_order. revert acc. induction l as [|x l IH]; intros acc Hn Hin; cbn [foldl]; [by rewrite app_nil_r|].
  rewrite bool_decide_eq_true_2 by (apply Hin; by left). cbn [negb orb].
  pose proof (proj1 (NoDup_app _ _) Hn) as (_ & Hx & _).
  rewrite bool_decide_eq_false_2 by (intros Hin'; apply (Hx x Hin'); by left).
  rewrite IH; [by rewrite <- app_assoc|by rewrite <- app_assoc|]. intros id Hid. apply Hin. by right.
Qed.

Lemma order_of_saved s : queue_wf s -> restored_order (AutomationQueue s) (AutomationQueueOrder s) = AutomationQueueOrder s.
Proof.
  intros [Hn Ho _]. unfold restored_order. cbn zeta.
  assert (Hl : listed_order (AutomationQueue s) (AutomationQueueOrder s) = AutomationQueueOrder s).
  { apply (list_order_all _ [] _ Hn). intros id. apply Ho. }
  rewrite Hl. match goal with |- _ ++ sort_strings ?l = _ => assert (Hx : l = []) end.
  { apply elem_of_nil_inv. intros id [Hid%elem_of_keys Hf]%elem_of_bool_filter.
    rewrite bool_decide_eq_true_2 in Hf by (by apply Ho). discriminate Hf. }
  rewrite Hx. apply app_nil_r.
Qed.

(** ** A state in order *)

Record in_order (now : Time) (s : State) : Prop := {
  io_idle : Running s = ∅ /\ Claimed s = ∅ /\ RetryAttempts s = ∅ /\ Draining s = false;
  io_queue : queue_wf s;
  io_entries : forall id e, AutomationQueue s !! id = Some e -> entry_ok id e;
  io_audit : forall k e, DependencyAudit s !! k = Some e -> da_InFlight e = false;
  io_watermark : DependencyAudit s <> ∅ -> LastBlockersResolvedAuditSeq s <> DependencyTransitionSeq s;
  io_reasons : dom (PauseReasons s) ⊆ dom (PausedIdentifiers s);
  io_paused : dom (PausedIdentifiers s) ⊆ PrevActiveIdentifiers s;
  io_input : forall i e, InputRequiredIssues s !! i = Some e ->
    inputRequiredPreloadIdent (ir_Identifier e) i ∈ PrevActiveIdentifiers s;
  io_resume : forall i e, PendingInputResumes s !! i = Some e ->
    inputRequiredPreloadIdent (pir_Identifier e) i ∈ PrevActiveIdentifiers s;
  io_queued : forall id e, AutomationQueue s !! id = Some e -> issue_Identifier (aq_Issue e) <> "" ->
    issue_Identifier (aq_Issue e) ∈ PrevActiveIdentifiers s;
  io_switches : AutoSwitchedIdentifiers s = dom (IssueProfiles s);
  io_cooldowns : forall k t, RateLimitCooldowns s !! k = Some t -> now < t;
  io_breakers : forall k e, BackendHealth s !! k = Some e -> open_status (bh_Status e) = true /\ bh_ProbeIssue e = "" /\
    bh_LimitedUntil e <= time_add now (backendLimitCap (bh_Kind e) (bh_Source e) (bh_LimitType e));
  io_reviews : forall id r, PendingReviews s !! id = Some r ->
    pr_Identifier r = id /\ id <> "" /\ pr_IssueID r <> "" /\ pr_Profile r <> "";
}.

(** What a loader leaves alone stays in order, and so does what it only adds
    known identifiers to. *)
Ltac rest_in_order H :=
  constructor; cbn;
  try solve [apply H|match type of H with in_order _ ?s => apply (queue_wf_same s); [split; reflexivity|apply H] end
            |intros; apply elem_of_union_r;
             first [by eapply (io_input _ _ H)|by eapply (io_resume _ _ H)|by eapply (io_queued _ _ H)]].

Lemma paused_in_order now f s : in_order now s -> in_order now (loadPausedFromDisk f s).
Proof.
  intros H. pose proof (io_reasons now s H) as Hr. pose proof (io_paused now s H) as Hp.
  destruct f as [[paused|ids]|]; [| |done]; rest_in_order H.
  - rewrite dom_union_L. set_solver.
  - rewrite dom_union_L. set_solver.
  - clear H Hp. revert Hr. generalize (PausedIdentifiers s) as m. induction ids as [|x ids IH]; intros m Hr; [done|].
    apply IH. rewrite dom_insert_L. set_solver.
  - clear H Hr. revert Hp. generalize (PausedIdentifiers s) as m. generalize (PrevActiveIdentifiers s) as a.
    induction ids as [|x ids IH]; intros a m Hp; cbn [foldl list_to_set]; [set_solver|].
    rewrite (union_comm_L {[x]}), <- (assoc_L (∪)). apply IH. rewrite dom_insert_L. set_solver.
Qed.

Lemma reasons_in_order now f s : in_order now s -> in_order now (loadPauseReasonsFromDisk f s).
Proof.
  intros H. destruct f as [reasons|]; [|done]; rest_in_order H.
  intros i. rewrite dom_union_L, elem_of_union. intros [[r [_ Hr]%map_lookup_filter_Some]%elem_of_dom|Hi].
  - by apply elem_of_dom.
  - by apply (io_reasons now s H).
Qed.

Lemma switches_in_order cfg now f s : in_order now s -> in_order now (snd (loadAutoSwitchedFromDisk cfg now f s)).
Proof.
  intros H. unfold loadAutoSwitchedFromDisk. destruct f as [f|]; [|done].
  destruct (decodeAutoSwitchedFile f) as [env|]; [|done]. cbn [snd]. unfold applyAutoSwitchedEnvelope. cbn zeta.
  rest_in_order H.
  - rewrite (io_switches now s H), dom_union_L, dom_fmap_L. done.
  - intros k t [[_ Ht]%map_lookup_filter_Some|[_ Ht]]%lookup_union_Some_raw; [|by eapply (io_cooldowns _ _ H)].
    unfold time_after in Ht. cbn in Ht. lia.
Qed.

Lemma clamp_bound until now kind source limitType :
  clampLimitedUntil until now kind source limitType <= time_add now (backendLimitCap kind source limitType).
Proof. unfold clampLimitedUntil, time_after. destruct (Z.ltb_spec (time_add now (backendLimitCap kind source limitType)) until); lia. Qed.

Lemma health_in_order now f s : in_order now s -> in_order now (snd (loadBackendHealthFromDisk now f s)).
Proof.
  intros H. unfold loadBackendHealthFromDisk. destruct f as [[version backends|]|]; [|done..].
  destruct (negb _); [done|]. cbn [snd]. rest_in_order H.
  intros k e [He|[_ He]]%lookup_union_Some_raw; [|by eapply (io_breakers _ _ H)].
  rewrite lookup_omap in He. destruct (backends !! k) as [r|]; [|done]. cbn in He. unfold breaker_from_disk in He.
  destruct (open_status (bhr_Status r)) eqn:Ho; [|done]. injection He as <-. cbn. split; [done|]. split; [done|].
  apply clamp_bound.
Qed.

Lemma elem_of_preload {A} (ident : A -> string) (m : gmap string A) i v :
  m !! i = Some v -> inputRequiredPreloadIdent (ident v) i ∈ preload_idents ident m.
Proof.
  intros Hm. unfold preload_idents. rewrite elem_of_list_to_set. apply list_elem_of_In, in_map_iff.
  exists (i, v). split; [done|]. by apply list_elem_of_In, elem_of_map_to_list.
Qed.

Lemma input_in_order now f s : in_order now s -> in_order now (loadInputRequiredFromDisk f s).
Proof.
  assert (Hw : forall awaiting pending, in_order now s ->
    in_order now (loadInputRequiredFromDisk (Some (InputRequiredState awaiting pending)) s)).
  { intros awaiting pending H. unfold loadInputRequiredFromDisk. rest_in_order H.
    - pose proof (io_paused now s H). set_solver.
    - intros i e [He|[_ He]]%lookup_union_Some_raw; [|apply elem_of_union_r; by eapply (io_input _ _ H)].
      rewrite lookup_fmap in He. destruct (awaiting !! i) as [v|] eqn:Hv; [|done]. injection He as <-.
      apply elem_of_union_l, elem_of_union_l. by apply (elem_of_preload ird_Identifier).
    - intros i e [He|[_ He]]%lookup_union_Some_raw; [|apply elem_of_union_r; by eapply (io_resume _ _ H)].
      rewrite lookup_fmap in He. destruct (pending !! i) as [v|] eqn:Hv; [|done]. injection He as <-.
      apply elem_of_union_l, elem_of_union_r. by apply (elem_of_preload pird_Identifier). }
  intros H. destruct f as [[awaiting pending|awaiting]|]; [by apply Hw|exact (Hw awaiting ∅ H)|done].
Qed.

Lemma overrides_in_order now f s : in_order now s -> in_order now (loadDepsOverridesFromDisk f s).
Proof. intros H. destruct f as [disk|]; [|done]. rest_in_order H. Qed.

Lemma reviews_in_order now f s : in_order now s -> in_order now (loadPendingReviewsFromDisk f s).
Proof.
  intros H. destruct f as [disk|]; [|done]. rest_in_order H.
  intros id r [Hr|[_ Hr]]%lookup_union_Some_raw; [|by eapply (io_reviews _ _ H)].
  rewrite map_lookup_imap in Hr. destruct (disk !! id) as [r0|]; [|done]. cbn in Hr. unfold restored_review in Hr.
  destruct (String.eqb_spec id ""), (String.eqb_spec (pr_IssueID r0) ""), (String.eqb_spec (pr_Profile r0) ""); try done.
  by injection Hr as <-.
Qed.

Lemma predecessor_differs z : add64 z (-1) <> z.
Proof.
  unfold add64. destruct (decide (is_int64 (z + -1))) as [H|H]; [rewrite wrap64_id by done; lia|].
  intros E. assert (Hz : is_int64 z).
  { rewrite <- E. unfold wrap64, is_int64, int64_min, int64_max. pose proof (Z.mod_pos_bound (z + -1 + 2 ^ 63) (2 ^ 64)). lia. }
  unfold is_int64, int64_min, int64_max in *. assert (z = - 2 ^ 63) as -> by lia. vm_compute in E. discriminate E.
Qed.

Lemma entries_known disk id e a :
  queue_of disk !! id = Some e -> issue_Identifier (aq_Issue e) <> "" ->
  issue_Identifier (aq_Issue e) ∈
    (list_to_set (List.filter (fun i => negb (String.eqb i ""))
       (map (fun kv : string * AutomationQueueEntry => issue_Identifier (aq_Issue kv.2)) (restored_entries (aqd_Entries disk))))
     ∪ a : gset string).
Proof.
  intros [H|H]%inserted_entries Hne; [|done]. apply elem_of_union_l, elem_of_list_to_set, elem_of_bool_filter.
  apply String.eqb_neq in Hne. rewrite Hne. split; [|done]. apply list_elem_of_In, in_map_iff. exists (id, e).
  split; [done|]. by apply list_elem_of_In.
Qed.

Lemma restored_queue_wf disk s' :
  AutomationQueue s' = queue_of disk -> AutomationQueueOrder s' = restored_order (queue_of disk) (aqd_Order disk) ->
  queue_wf s'.
Proof.
  intros Hq Ho. destruct (restored_order_spec (queue_of disk) (aqd_Order disk)) as [H1 H2].
  constructor; rewrite ?Hq, ?Ho; [done|done|]. intros id e He. by apply queue_of_ok in He as [[? _] _].
Qed.

Lemma restore_queue_in_order now disk s : in_order now s -> in_order now (restore_queue disk s).
Proof.
  intros H. unfold restore_queue, restore_audit, restore_entries. cbn zeta. fold (queue_of disk).
  constructor; cbn -[queue_of restored_order]; try solve [apply H].
  - by apply (restored_queue_wf disk).
  - intros id e He. by apply queue_of_ok in He as [? _].
  - intros k e. case_bool_decide; [by apply (io_audit _ _ H)|]. unfold copyDependencyAuditMapForRestore.
    rewrite lookup_fmap. destruct (_ !! k); [by intros [= <-]|done].
  - case_bool_decide as Ha.
    + intros Hd. rewrite bool_decide_eq_false_2 by done. apply predecessor_differs.
    + intros Hd. rewrite bool_decide_eq_false_2 by done. apply predecessor_differs.
  - pose proof (io_paused now s H). set_solver.
  - intros i e Hi. apply elem_of_union_r. by apply (io_input now s H).
  - intros i e Hi. apply elem_of_union_r. by apply (io_resume now s H).
  - intros id e He Hne. by apply (entries_known disk id).
Qed.

Lemma queue_in_order instance now f s : in_order now s -> in_order now (snd (loadAutomationQueueFromDisk instance f s)).
Proof.
  intros H. unfold loadAutomationQueueFromDisk. destruct f as [[env|disk]|]; cbn [snd];
    try (by apply restore_queue_in_order); [|done].
  destruct (DecodeQueueEnvelope env instance) as [[|]|[[disk|] ?]]; cbn [snd]; try done; by apply restore_queue_in_order.
Qed.

Lemma fresh_in_order now cfg seed :
  in_order now (pruneFailureAcks (NewState cfg <| RecentFailures := seedFailures seed |> <| FailureAcks := seedFailureAcks seed |>)).
Proof. constructor; cbn; try done. constructor; cbn; [constructor| |done]. intros id. rewrite elem_of_nil, lookup_empty. split; [done|by intros []]. Qed.

Lemma restored_ok cfg instance now seed files : in_order now (restored cfg instance now seed files).
Proof.
  unfold restored. cbn zeta.
  by apply reviews_in_order, overrides_in_order, queue_in_order, input_in_order, health_in_order, switches_in_order,
    reasons_in_order, paused_in_order, fresh_in_order.
Qed.

(** C21: whatever the ledgers hold, old formats, foreign versions, half-written
    queues or nothing at all, the loop starts in order: nothing runs, the
    queue's order and its map agree, reasons belong to pauses, no refresh is
    under way and the one that notices missed transitions is due, breakers end
    and hold no reservation, cooldowns are still running, and whatever was
    waiting counts as known, so that nothing is dropped or resumed for being
    new. *)
Theorem restored_in_order cfg instance now seed files : in_order now (restored cfg instance now seed files).
Proof. apply restored_ok. Qed.

(** ** What a restart restores *)

#[local] Arguments FormatRFC3339 : simpl never.
#[local] Arguments ParseRFC3339 : simpl never.
#[local] Arguments parseOptionalTime : simpl never.
#[local] Arguments formatOptionalTime : simpl never.

(** What the operations keep true of the state that is saved. *)
Record savable (s : State) : Prop := {
  sa_queue : queue_wf s;
  sa_entries : forall id e, AutomationQueue s !! id = Some e -> entry_ok id e;
  sa_input : forall i e, InputRequiredIssues s !! i = Some e ->
    0 <= ir_QueuedAt e < year_10000 /\ 0 <= ir_LastReplyCheckAt e < year_10000;
  sa_resume : forall i e, PendingInputResumes s !! i = Some e -> 0 <= pir_QueuedAt e < year_10000;
  sa_reviews : forall id r, PendingReviews s !! id = Some r ->
    pr_Identifier r = id /\ id <> "" /\ pr_IssueID r <> "" /\ pr_Profile r <> "";
}.

(** A question and an answer keep everything but the fraction of a second, the
    warning and the last attempt. *)
Definition kept_input (e : InputRequiredEntry) : InputRequiredEntry :=
  e <| ir_QueuedAt := whole_second (ir_QueuedAt e) |>
    <| ir_LastReplyCheckAt := whole_second (ir_LastReplyCheckAt e) |>
    <| ir_QuestionStuckWarned := false |>.

Definition kept_resume (e : PendingInputResumeEntry) : PendingInputResumeEntry :=
  e <| pir_QueuedAt := whole_second (pir_QueuedAt e) |> <| pir_LastResumeAttemptAt := zero_time |>.

(** An open breaker keeps its limit, at most the cap from now, and loses its
    probe and its throttle count. *)
Definition kept_breaker (now : Time) (e : BackendHealthEntry) : option BackendHealthEntry :=
  if open_status (bh_Status e) then
    Some (e <| bh_LimitedUntil := clampLimitedUntil (bh_LimitedUntil e) now (bh_Kind e) (bh_Source e) (bh_LimitType e) |>
            <| bh_ProbeIssue := "" |> <| bh_ThrottleCount := 0 |> <| bh_ThrottleWindowStart := zero_time |>)
  else None.

Lemma kept_inputs s : savable s -> input_from_disk <$> (input_to_disk <$> InputRequiredIssues s) = kept_input <$> InputRequiredIssues s.
Proof.
  intros Hs. apply map_eq. intros i. rewrite !lookup_fmap.
  destruct (InputRequiredIssues s !! i) as [e|] eqn:He; [|done]. destruct (sa_input s Hs i e He) as [H1 H2].
  cbn. unfold input_from_disk, input_to_disk, kept_input. cbn. rewrite printed_second, optional_second by done. by destruct e.
Qed.

Lemma kept_resumes s : savable s ->
  resume_from_disk <$> (resume_to_disk <$> PendingInputResumes s) = kept_resume <$> PendingInputResumes s.
Proof.
  intros Hs. apply map_eq. intros i. rewrite !lookup_fmap.
  destruct (PendingInputResumes s !! i) as [e|] eqn:He; [|done]. pose proof (sa_resume s Hs i e He) as H1.
  cbn. unfold resume_from_disk, resume_to_disk, kept_resume. cbn. rewrite printed_second by done. by destruct e.
Qed.

Lemma kept_breakers now m : omap (breaker_from_disk now) (omap breaker_to_disk m) = omap (kept_breaker now) m :> gmap string _.
Proof.
  apply map_eq. intros k. rewrite !lookup_omap. destruct (m !! k) as [e|]; [|done]. cbn.
  unfold breaker_to_disk, kept_breaker. destruct (open_status (bh_Status e)) eqn:Ho; [|done]. cbn.
  unfold breaker_from_disk. cbn. rewrite Ho. by destruct e.
Qed.

Lemma kept_reviews s : savable s -> map_imap restored_review (PendingReviews s) = PendingReviews s.
Proof.
  intros Hs. apply map_eq. intros i. rewrite map_lookup_imap. destruct (PendingReviews s !! i) as [r|] eqn:Hr; [|done].
  destruct (sa_reviews s Hs i r Hr) as (H1 & H2 & H3 & H4). cbn. unfold restored_review.
  apply String.eqb_neq in H2, H3, H4. rewrite H2, H3, H4. cbn. rewrite <- H1. by destruct r.
Qed.

Lemma kept_reasons sub old (reasons : gmap string string) s : PauseReasons s = ∅ ->
  PauseReasons (loadPauseReasonsFromDisk (savePauseReasonsToDisk sub old reasons) s) =
    filter (fun kv => is_Some (PausedIdentifiers s !! kv.1)) reasons.
Proof.
  intros H0. unfold savePauseReasonsToDisk. destruct (_ && _) eqn:E.
  - apply andb_true_iff in E as [[E _]%andb_true_iff Hold%negb_true_iff]. apply bool_decide_eq_true_1 in E as ->.
    destruct old; [by rewrite bool_decide_eq_true_2 in Hold|]. cbn. by rewrite H0, map_filter_empty.
  - cbn. rewrite H0. apply (right_id_L ∅ (∪)).
Qed.

Lemma decode_encoded disk instance expected :
  exists warning, DecodeQueueEnvelope (Some (EncodeQueueEnvelope disk instance)) expected = inr (Some disk, warning).
Proof.
  unfold DecodeQueueEnvelope, EncodeQueueEnvelope. cbn. rewrite String.eqb_refl. cbn. case_match; by eexists.
Qed.

Lemma load_saved_queue instance expected s s0 :
  loadAutomationQueueFromDisk expected (saveAutomationQueueToDisk instance s) s0 =
    (false, restore_queue (MkAutomationQueueStateDisk (Some <$> AutomationQueue s) (AutomationQueueOrder s)
              (QueueBackpressure s) (DependencyAudit s) (DependencyTransitionSeq s)) s0).
Proof.
  unfold loadAutomationQueueFromDisk, saveAutomationQueueToDisk.
  destruct (decode_encoded (MkAutomationQueueStateDisk (Some <$> AutomationQueue s) (AutomationQueueOrder s)
    (QueueBackpressure s) (DependencyAudit s) (DependencyTransitionSeq s)) instance expected) as [w ->]. done.
Qed.

(** The switches of [s] that a file keeps at [now]. *)
Definition kept_switches (cfg : Config) (now : Time) (s s' : State) : Prop :=
  AutoSwitchedIdentifiers s' = AutoSwitchedIdentifiers s /\
  (forall id, id ∈ AutoSwitchedIdentifiers s ->
     IssueProfiles s' !! id = Some (default "" (IssueProfiles s !! id)) /\
     default "" (IssueBackends s' !! id) = default "" (IssueBackends s !! id) /\
     default zero_time (AutoSwitchedAt s' !! id) = default zero_time (AutoSwitchedAt s !! id)) /\
  (forall i, SwitchHistory s' !! i = (l ← SwitchHistory s !! i;
     match recent_stamps cfg now l with [] => None | kept => Some kept end)) /\
  RateLimitCooldowns s' = filter (fun kv => time_after kv.2 now = true) (RateLimitCooldowns s) /\
  RateLimitCapCommentUntil s' = filter (fun kv => time_after kv.2 now = true) (RateLimitCapCommentUntil s).

Lemma lookup_switch s id : id ∈ AutoSwitchedIdentifiers s ->
  (set_to_map (fun id => (id, switch_record s id)) (AutoSwitchedIdentifiers s) : gmap string autoSwitchedRecord) !! id =
    Some (switch_record s id).
Proof. intros H. apply lookup_set_to_map; [cbn; by intros x y _ _ ->|]. by exists id. Qed.

Lemma dom_switches s :
  dom (set_to_map (fun id => (id, switch_record s id)) (AutoSwitchedIdentifiers s) : gmap string autoSwitchedRecord) =
    AutoSwitchedIdentifiers s.
Proof.
  apply set_eq. intros id. rewrite elem_of_dom. split; [|intros H; by rewrite lookup_switch].
  intros [r Hr]. apply lookup_set_to_map in Hr as (x & Hx & [= -> _]); [done|cbn; by intros y z _ _ ->].
Qed.

Lemma load_saved_switches cfg now s s0 :
  IssueProfiles s0 = ∅ -> IssueBackends s0 = ∅ -> AutoSwitchedIdentifiers s0 = ∅ -> AutoSwitchedAt s0 = ∅ ->
  SwitchHistory s0 = ∅ -> RateLimitCooldowns s0 = ∅ -> RateLimitCapCommentUntil s0 = ∅ ->
  kept_switches cfg now s (snd (loadAutoSwitchedFromDisk cfg now (saveAutoSwitchedToDisk s) s0)).
Proof.
  intros H1 H2 H3 H4 H5 H6 H7. unfold kept_switches. cbn. rewrite H1, H2, H3, H4, H5, H6, H7, dom_switches.
  split_and!; [apply (right_id_L ∅ (∪))| |intros i; by rewrite (right_id_L ∅ (∪)), lookup_omap
    |apply (right_id_L ∅ (∪))|apply (right_id_L ∅ (∪))].
  intros id Hid. rewrite !(right_id_L ∅ (∪)), lookup_fmap, !lookup_omap, (lookup_switch s id Hid). cbn. split_and!; [done|..].
  - destruct (String.eqb_spec (default "" (IssueBackends s !! id)) "") as [->|]; done.
  - unfold switched_at. cbn. destruct (AutoSwitchedAt s !! id) as [t|]; [|done]. cbn.
    destruct (Z.eqb_spec t 0) as [->|Hne]; [done|]. unfold time_is_zero. apply Z.eqb_neq in Hne. rewrite Hne. cbn.
    unfold time_is_zero. by rewrite Hne.
Qed.

Lemma reasons_only f (s : State) :
  loadPauseReasonsFromDisk f s = s <| PauseReasons := PauseReasons (loadPauseReasonsFromDisk f s) |>.
Proof. destruct f; [done|]. by destruct s. Qed.

(** The state after the reasons are read, and the whole. *)
Lemma restored_saved cfg instance expected now seed sub old s :
  exists r s2,
    r = filter (fun kv => is_Some (PausedIdentifiers s !! kv.1)) (PauseReasons s) /\
    s2 = snd (loadAutoSwitchedFromDisk cfg now (saveAutoSwitchedToDisk s)
           (loadPausedFromDisk (savePausedToDisk (PausedIdentifiers s)) (pruneFailureAcks
              (NewState cfg <| RecentFailures := seedFailures seed |> <| FailureAcks := seedFailureAcks seed |>))
            <| PauseReasons := r |>)) /\
    kept_switches cfg now s s2 /\
    restored cfg expected now seed (saved instance sub old s) =
      loadPendingReviewsFromDisk (savePendingReviews s) (loadDepsOverridesFromDisk (saveDepsOverridesToDisk (DepsOverrides s))
        (restore_queue (MkAutomationQueueStateDisk (Some <$> AutomationQueue s) (AutomationQueueOrder s)
              (QueueBackpressure s) (DependencyAudit s) (DependencyTransitionSeq s))
           (loadInputRequiredFromDisk (saveInputRequiredToDisk (InputRequiredIssues s) (PendingInputResumes s))
              (snd (loadBackendHealthFromDisk now (saveBackendHealthToDisk s) s2))))).
Proof.
  do 2 eexists. split; [reflexivity|]. split; [reflexivity|]. split.
  - by apply load_saved_switches.
  - unfold restored, saved. cbn zeta. cbn [lg_paused lg_reasons lg_switches lg_health lg_input lg_queue lg_overrides lg_reviews].
    rewrite load_saved_queue. cbn [snd]. rewrite reasons_only.
    match goal with |- context [loadPausedFromDisk ?f ?x] => set (s1 := loadPausedFromDisk f x) end.
    rewrite kept_reasons by reflexivity.
    assert (Hp : PausedIdentifiers s1 = PausedIdentifiers s) by apply (right_id_L ∅ (∪)).
    rewrite Hp. reflexivity.
Qed.

(** C13: round trip: a loop that starts from what another one saved has its
    pauses with their reasons, its questions and answers to the second, its
    queue in order, its audit rows and their version, its open breakers, its
    switches with the stamps and cooldowns that still count, its overrides and
    its pending reviews, whichever daemon wrote them; and nothing runs. *)
Theorem restart_restores cfg instance expected now seed sub old s :
  savable s ->
  let s' := restored cfg expected now seed (saved instance sub old s) in
  PausedIdentifiers s' = PausedIdentifiers s /\
  PauseReasons s' = filter (fun kv => is_Some (PausedIdentifiers s !! kv.1)) (PauseReasons s) /\
  InputRequiredIssues s' = kept_input <$> InputRequiredIssues s /\
  PendingInputResumes s' = kept_resume <$> PendingInputResumes s /\
  AutomationQueue s' = AutomationQueue s /\ AutomationQueueOrder s' = AutomationQueueOrder s /\
  DependencyAudit s' = (fun e => e <| da_InFlight := false |>) <$> DependencyAudit s /\
  DependencyTransitionSeq s' = DependencyTransitionSeq s /\
  BackendHealth s' = omap (kept_breaker now) (BackendHealth s) /\ kept_switches cfg now s s' /\
  DepsOverrides s' = DepsOverrides s /\ PendingReviews s' = PendingReviews s /\
  Running s' = ∅ /\ Claimed s' = ∅ /\ RetryAttempts s' = ∅.
Proof.
  intros Hs s'. destruct (restored_saved cfg instance expected now seed sub old s) as (r & s2 & Hr & Hs2 & Hsw & Hs').
  fold s' in Hs'. rewrite Hs'.
  assert (Hf : PausedIdentifiers s2 = PausedIdentifiers s /\ PauseReasons s2 = r).
  { rewrite Hs2. split; [apply (right_id_L ∅ (∪))|reflexivity]. }
  assert (H0 : InputRequiredIssues s2 = ∅ /\ PendingInputResumes s2 = ∅ /\ DependencyAudit s2 = ∅ /\ BackendHealth s2 = ∅ /\
    DepsOverrides s2 = ∅ /\ PendingReviews s2 = ∅ /\ Running s2 = ∅ /\ Claimed s2 = ∅ /\ RetryAttempts s2 = ∅)
    by (rewrite Hs2; split_and!; reflexivity).
  destruct Hf as [Hf1 Hf2], H0 as (E1 & E2 & E3 & E4 & E5 & E6 & E7 & E8 & E9).
  pose proof (queue_of_saved _ (AutomationQueueOrder s) (QueueBackpressure s) (DependencyAudit s)
    (DependencyTransitionSeq s) (sa_entries s Hs)) as Hq.
  cbn -[kept_switches restored_order]. unfold queue_of in Hq. cbn [aqd_Entries] in Hq.
  rewrite Hf1, Hf2, E1, E2, E3, E4, E5, E6, E7, E8, E9, Hq, !(right_id_L ∅ (∪)), kept_inputs, kept_resumes, kept_breakers,
    kept_reviews, order_of_saved by (done || apply Hs).
  split_and!; try done. case_bool_decide as Ha; [|done]. by rewrite Ha, fmap_empty.
Qed.

(** ** Pauses outlive the restart *)

Lemma auto_resume_known s issue i :
  i ∈ PrevActiveIdentifiers s -> PausedIdentifiers (auto_resume s issue) !! i = PausedIdentifiers s !! i /\
  PrevActiveIdentifiers (auto_resume s issue) = PrevActiveIdentifiers s.
Proof.
  intros Hi. unfold auto_resume. destruct (_ && _) eqn:E; [|done]. split; [|done].
  apply andb_true_iff in E as [_ E%negb_true_iff%bool_decide_eq_false_1].
  unfold unpause, clearPauseReason. cbn. apply lookup_delete_ne. intros E2. apply E. by rewrite E2.
Qed.

Lemma auto_resumes_known issues s i :
  i ∈ PrevActiveIdentifiers s -> PausedIdentifiers (foldl auto_resume s issues) !! i = PausedIdentifiers s !! i.
Proof.
  revert s. induction issues as [|issue issues IH]; intros s Hi; [done|]. cbn [foldl].
  destruct (auto_resume_known s issue i Hi) as [H1 H2]. rewrite IH by (by rewrite H2). exact H1.
Qed.

(** What the loaders after the first leave alone. *)
Lemma switches_same cfg now f s : PausedIdentifiers (snd (loadAutoSwitchedFromDisk cfg now f s)) = PausedIdentifiers s.
Proof. unfold loadAutoSwitchedFromDisk. destruct f as [f|]; [|done]. by destruct (decodeAutoSwitchedFile f). Qed.

Lemma health_same now f s : PausedIdentifiers (snd (loadBackendHealthFromDisk now f s)) = PausedIdentifiers s.
Proof. destruct f as [[version ?|]|]; [|done..]. unfold loadBackendHealthFromDisk. by destruct (negb _). Qed.

Lemma queue_same instance f s : PausedIdentifiers (snd (loadAutomationQueueFromDisk instance f s)) = PausedIdentifiers s.
Proof.
  unfold loadAutomationQueueFromDisk. destruct f as [[env|disk]|]; try done.
  by destruct (DecodeQueueEnvelope env instance) as [[|]|[[disk|] ?]].
Qed.

Lemma reasons_same f s : PausedIdentifiers (loadPauseReasonsFromDisk f s) = PausedIdentifiers s.
Proof. by destruct f. Qed.

Lemma input_same f s : PausedIdentifiers (loadInputRequiredFromDisk f s) = PausedIdentifiers s.
Proof. by destruct f as [[|]|]. Qed.

Lemma overrides_same f s : PausedIdentifiers (loadDepsOverridesFromDisk f s) = PausedIdentifiers s.
Proof. by destruct f. Qed.

Lemma reviews_same f s : PausedIdentifiers (loadPendingReviewsFromDisk f s) = PausedIdentifiers s.
Proof. by destruct f. Qed.

Lemma restored_paused cfg instance now seed files paused :
  lg_paused files = savePausedToDisk paused -> PausedIdentifiers (restored cfg instance now seed files) = paused.
Proof.
  intros Hf. unfold restored. cbn zeta.
  rewrite reviews_same, overrides_same, queue_same, input_same, health_same, switches_same, reasons_same, Hf.
  apply (right_id_L ∅ (∪)).
Qed.

(** C22: an issue that was paused when the daemon stopped is still paused when
    the first tick looks for issues that came back, whatever the tracker lists
    and whatever the other files hold, and until it is resumed it is not
    eligible. *)
Theorem pause_survives_restart cfg instance now seed files s issues i id :
  lg_paused files = savePausedToDisk (PausedIdentifiers s) -> PausedIdentifiers s !! i = Some id ->
  let s' := foldl auto_resume (restored cfg instance now seed files) issues in
  PausedIdentifiers s' !! i = Some id /\
  (forall issue, issue_Identifier issue = i -> IsEligible issue s' cfg = false).
Proof.
  intros Hf Hi s'.
  assert (Hr : PausedIdentifiers (restored cfg instance now seed files) !! i = Some id).
  { by rewrite (restored_paused _ _ _ _ _ _ Hf). }
  assert (Hp : PausedIdentifiers s' !! i = Some id).
  { unfold s'. rewrite auto_resumes_known; [exact Hr|].
    apply (io_paused now _ (restored_ok cfg instance now seed files)), elem_of_dom. by eexists. }
  split; [exact Hp|]. intros issue Hid. unfold IsEligible, IneligibleReason, ineligibleReasonShared. rewrite Hid.
  rewrite (bool_decide_eq_true_2 (is_Some (PausedIdentifiers s' !! i))) by (by eexists).
  by repeat case_match.
Qed.

(** ** Names outlive the restart *)

Lemma names_paused N f s : Names N s -> Names N (loadPausedFromDisk f s).
Proof. destruct f as [[|]|]; by apply names_maps. Qed.

Lemma names_reasons N f s : Names N s -> Names N (loadPauseReasonsFromDisk f s).
Proof. destruct f; by apply names_maps. Qed.

Lemma names_switches N cfg now f s : Names N s -> Names N (snd (loadAutoSwitchedFromDisk cfg now f s)).
Proof.
  unfold loadAutoSwitchedFromDisk. destruct f as [f|]; [|done]. destruct (decodeAutoSwitchedFile f); by apply names_maps.
Qed.

Lemma names_health N now f s : Names N s -> Names N (snd (loadBackendHealthFromDisk now f s)).
Proof.
  unfold loadBackendHealthFromDisk. destruct f as [[version ?|]|]; [|done..]. destruct (negb _); by apply names_maps.
Qed.

Lemma names_overrides N f s : Names N s -> Names N (loadDepsOverridesFromDisk f s).
Proof. destruct f; by apply names_maps. Qed.

Lemma names_reviews N f s : Names N s -> Names N (loadPendingReviewsFromDisk f s).
Proof. destruct f; by apply names_maps. Qed.

Lemma restored_queue_names N instance expected s s0 :
  Names N s -> Names N s0 -> Names N (snd (loadAutomationQueueFromDisk expected (saveAutomationQueueToDisk instance s) s0)).
Proof.
  intros Hn H0. rewrite load_saved_queue. cbn [snd]. constructor; cbn -[queue_of]; try apply H0.
  intros k e He.
  apply (queue_of_ok (MkAutomationQueueStateDisk (Some <$> AutomationQueue s) (AutomationQueueOrder s)
    (QueueBackpressure s) (DependencyAudit s) (DependencyTransitionSeq s)) k e) in He as (_ & k0 & e0 & Hl & Hi).
  cbn in Hl. rewrite lookup_fmap in Hl. destruct (AutomationQueue s !! k0) as [e1|] eqn:E; [|done]. injection Hl as ->.
  unfold named. rewrite Hi. by apply (nm_queue N s Hn k0).
Qed.

Lemma restored_input_names N s s0 :
  Names N s -> Names N s0 ->
  Names N (loadInputRequiredFromDisk (saveInputRequiredToDisk (InputRequiredIssues s) (PendingInputResumes s)) s0).
Proof.
  intros Hn H0. constructor; cbn; try apply H0; intros i e; (intros [He|[_ He]]%lookup_union_Some_raw; [|by eapply H0]).
  - rewrite !lookup_fmap in He. destruct (InputRequiredIssues s !! i) as [e0|] eqn:E; [|done]. injection He as <-.
    cbn. by apply (nm_input N s Hn i).
  - rewrite !lookup_fmap in He. destruct (PendingInputResumes s !! i) as [e0|] eqn:E; [|done]. injection He as <-.
    cbn. by apply (nm_resume N s Hn i).
Qed.

(** What an earlier loop can have left in a file: a version it saved, or
    nothing. *)
Definition left_by {A} (written : State -> Prop) (save : State -> option A) (file : option A) : Prop :=
  file = None \/ exists s, written s /\ file = save s.

Lemma restored_names N cfg instance expected now seed files :
  left_by (Names N) (saveAutomationQueueToDisk instance) (lg_queue files) ->
  left_by (Names N) (fun s => saveInputRequiredToDisk (InputRequiredIssues s) (PendingInputResumes s)) (lg_input files) ->
  Names N (restored cfg expected now seed files).
Proof.
  intros Hq Hi. unfold restored. cbn zeta. apply names_reviews, names_overrides.
  match goal with |- Names N (snd (loadAutomationQueueFromDisk _ _ ?s)) => assert (H0 : Names N s) end.
  2: { destruct Hq as [->|(s & Hs & ->)]; [exact H0|by apply restored_queue_names]. }
  match goal with |- Names N (loadInputRequiredFromDisk _ ?s) => assert (H0 : Names N s) end.
  2: { destruct Hi as [->|(s & Hs & ->)]; [exact H0|by apply restored_input_names]. }
  apply names_health, names_switches, names_reasons, names_paused. by constructor.
Qed.

Definition by_identifier_named (N : string -> string) (by_identifier : string -> FetchOutcome) : Prop :=
  forall ident i, by_identifier ident = Fetched i -> named N i.

Lemma replay_evolves N (Ninj : forall a b, N a = N b -> a = b) env by_identifier w :
  detail_named N env -> by_identifier_named N by_identifier -> Good N w ->
  evolves True N w (replayPersistedInputRequiredAutomations env by_identifier w).
Proof.
  intros Hd Hb HG. unfold replayPersistedInputRequiredAutomations.
  apply (evolves_foldl True N Ninj _ (fun _ => True)); [|done|done]. intros w1 i _ HG1. unfold replay_one.
  destruct (InputRequiredIssues (w_state w1) !! i) as [e|]; [|apply evolves_refl].
  destruct (fetchInputRequiredIssue env by_identifier e) as [issue|] eqn:Hf; [|apply evolves_refl].
  apply input_required_evolves; [exact Ninj|exact HG1|]. intros _.
  unfold fetchInputRequiredIssue in Hf. destruct (negb _).
  - destruct (env_detail env (ir_IssueID e)) eqn:E; try done. injection Hf as <-. by apply Hd in E as [? _].
  - destruct (String.eqb (ir_Identifier e) ""); [done|]. destruct (by_identifier (ir_Identifier e)) eqn:E; try done.
    injection Hf as <-. by eapply Hb.
Qed.

Lemma start_good N (Ninj : forall a b, N a = N b -> a = b) cfg instance expected env by_identifier seed files outbox :
  left_by (Names N) (saveAutomationQueueToDisk instance) (lg_queue files) ->
  left_by (Names N) (fun s => saveInputRequiredToDisk (InputRequiredIssues s) (PendingInputResumes s)) (lg_input files) ->
  detail_named N env -> by_identifier_named N by_identifier ->
  Good N (d_world (start cfg expected env by_identifier seed files outbox)).
Proof.
  intros Hq Hi Hd Hb. cbn [start d_world].
  set (w := MkWorld _ _ _).
  assert (HG : Good N w).
  { apply booted_good. destruct (io_idle _ _ (restored_ok cfg expected (env_now env) seed files)) as (H1 & _ & H3 & _).
    constructor; [exact H1|exact H3|done|]. by apply (restored_names N cfg instance). }
  exact (evolves_good True N Ninj _ _ (replay_evolves N Ninj env by_identifier w Hd Hb HG) I HG).
Qed.

(** The daemons of a host: the first one, what its loop does, and one that
    starts from the files an earlier one left, stopped in order or not: each
    of the two files the loop's invariant reads is missing or holds what some
    earlier state saved, and the two need not be from the same state. *)
Inductive lineage (redact : string -> string) (N : string -> string) : Daemon -> Prop :=
  | first_start d : booted N (d_world d) -> lineage redact N d
  | lineage_step d d' : lineage redact N d -> step redact (input_ok N) d d' -> lineage redact N d'
  | restarted cfg instance expected env by_identifier seed files outbox d1 d2 :
      lineage redact N d1 -> lineage redact N d2 ->
      lg_queue files = None \/ lg_queue files = saveAutomationQueueToDisk instance (w_state (d_world d1)) ->
      lg_input files = None \/ lg_input files = saveInputRequiredToDisk (InputRequiredIssues (w_state (d_world d2)))
                                                 (PendingInputResumes (w_state (d_world d2))) ->
      detail_named N env -> by_identifier_named N by_identifier ->
      lineage redact N (start cfg expected env by_identifier seed files outbox).

Lemma lineage_good redact N d : (forall a b, N a = N b -> a = b) -> lineage redact N d -> Good N (d_world d).
Proof.
  intros Ninj. induction 1 as [d Hb|d d' _ IH Hs|cfg instance expected env by_id seed files outbox d1 d2 _ IH1 _ IH2 Hq Hi Hd Hb].
  - by apply booted_good.
  - apply (steps_good redact N Ninj d d'); [by apply rtc_once|exact IH].
  - apply (start_good N Ninj cfg instance); [| |exact Hd|exact Hb].
    + destruct Hq as [->| ->]; [by left|]. right. exists (w_state (d_world d1)). split; [apply IH1|done].
    + destruct Hi as [->| ->]; [by left|]. right. exists (w_state (d_world d2)). split; [apply IH2|done].
Qed.


End ledgers.

(** ** Examples *)

Module Demo.

Definition digest (_ : option automationQueueStateDisk) : string := "sum".

Definition no_files : Ledgers := MkLedgers None None None None None None None None.
Definition no_seed : Seed := MkSeed [] ∅.

Definition queued : AutomationQueueEntry :=
  MkAutomationQueueEntry "q1" "nightly" "cron" (todo "2") "coder" "" zero_AutomationTriggerContext false "" false
    AutomationQueueQueued "no_slots" "" 1 1 1 zero_time 0 "".

Definition question : InputRequiredEntry :=
  MkInputRequiredEntry "3" "3" "sess" "Which branch?" "" "claude" "claude" "" "coder" "" "" "" ""
    (7 * Second + 5) zero_time true.

(** A loop that stops with a pause, a question and a queued automation. *)
Definition stopped : State :=
  empty_State <| PausedIdentifiers := {["9" := "9"]} |> <| PauseReasons := {["9" := PauseReasonUserCancelled]} |>
    <| InputRequiredIssues := {["3" := question]} |>
    <| AutomationQueue := {["q1" := queued]} |> <| AutomationQueueOrder := ["q1"] |>.

Lemma stopped_savable : savable stopped.
Proof.
  constructor; cbn [stopped].
  - constructor; cbn; [apply NoDup_singleton| |].
    + intros id. rewrite list_elem_of_singleton. split; [intros ->; rewrite lookup_singleton_eq; by eexists|].
      intros [e [<- _]%lookup_singleton_Some]. done.
    + by intros id e [<- <-]%lookup_singleton_Some.
  - intros id e H. change (({["q1" := queued]} : gmap string AutomationQueueEntry) !! id = Some e) in H.
    apply lookup_singleton_Some in H as [<- <-]. done.
  - intros i e H. change (({["3" := question]} : gmap string InputRequiredEntry) !! i = Some e) in H.
    apply lookup_singleton_Some in H as [<- <-]. split; (split; [vm_compute; discriminate|vm_compute; reflexivity]).
  - intros i e H. change ((∅ : gmap string PendingInputResumeEntry) !! i = Some e) in H. by apply lookup_empty_Some in H.
  - intros i e H. change ((∅ : gmap string PendingReview) !! i = Some e) in H. by apply lookup_empty_Some in H.
Qed.

Definition files : Ledgers := saved digest "daemon-1" false no_files stopped.

Definition again : State := restored digest open_config "daemon-2" (100 * Second) no_seed files.

Definition daemon : Daemon := MkDaemon (MkWorld (new_orchestrator open_config) stopped []) None false.

Definition next : Daemon := start digest open_config "daemon-2" still_env (fun _ => FetchNil) no_seed files None.

Lemma daemon_booted : booted self (d_world daemon).
Proof.
  constructor; try done. constructor; cbn.
  - by intros id r H%lookup_empty_Some.
  - by intros k e [<- <-]%lookup_singleton_Some.
  - by intros i e [<- <-]%lookup_singleton_Some.
  - by intros i e H%lookup_empty_Some.
Qed.

(** It ticks over an open issue. *)
Definition running : Daemon := iteration redact_nothing (Ticked one_todo) next.

End Demo.

Example restart_restores_witness :
  PausedIdentifiers Demo.again !! "9" = Some "9" /\
  (ir_QueuedAt <$> InputRequiredIssues Demo.again !! "3") = Some (7 * Second).
Proof.
  destruct (restart_restores Demo.digest open_config "daemon-1" "daemon-2" (100 * Second) Demo.no_seed false Demo.no_files
    Demo.stopped Demo.stopped_savable) as (H1 & _ & H3 & _).
  split; [exact (f_equal (fun m => m !! "9") H1)|].
  etrans; [exact (f_equal (fun m => ir_QueuedAt <$> m !! "3") H3)|]. vm_compute. reflexivity.
Defined.

Example pause_survives_restart_witness :
  IsEligible (todo "9") (foldl auto_resume Demo.again [todo "9"]) open_config = false.
Proof.
  apply (pause_survives_restart Demo.digest open_config "daemon-2" (100 * Second) Demo.no_seed Demo.files Demo.stopped
    [todo "9"] "9" "9"); reflexivity.
Defined.

Lemma next_lineage : lineage Demo.digest redact_nothing self Demo.next.
Proof.
  apply (restarted _ _ _ _ "daemon-1" _ _ _ _ Demo.files _ Demo.daemon Demo.daemon).
  1,2: exact (first_start _ _ _ _ Demo.daemon_booted).
  - right. reflexivity.
  - right. reflexivity.
  - exact (env_ok_detail _ _ still_env_ok).
  - intros ident i H. discriminate H.
Qed.


(** ** What a restart gets wrong *)

(** An envelope whose version reads but whose other fields do not parse is taken
    for a payload without entries: the queue starts empty and the file is not
    put into quarantine, so the next save replaces it. *)
Theorem broken_envelope_empties_queue digest instance s :
  let r := loadAutomationQueueFromDisk digest instance (Some (Enveloped None)) s in
  fst r = false /\ AutomationQueue (snd r) = ∅ /\ AutomationQueueOrder (snd r) = [].
Proof. split_and!; reflexivity. Qed.

Lemma reviews_pressure f s : QueueBackpressure (loadPendingReviewsFromDisk f s) = QueueBackpressure s.
Proof. by destruct f. Qed.

Lemma overrides_pressure f s : QueueBackpressure (loadDepsOverridesFromDisk f s) = QueueBackpressure s.
Proof. by destruct f. Qed.

Lemma refresh_rejections s :
  bp_RejectedSinceBoot (QueueBackpressure (refreshAutomationQueueBackpressure s)) = bp_RejectedSinceBoot (QueueBackpressure s).
Proof. unfold refreshAutomationQueueBackpressure. cbn -[queue_length]. by repeat case_match. Qed.

Lemma audit_pressure disk s : QueueBackpressure (restore_audit disk s) = QueueBackpressure s.
Proof. done. Qed.

Lemma restore_rejections disk s :
  bp_RejectedSinceBoot (QueueBackpressure (restore_queue disk s)) = bp_RejectedSinceBoot (aqd_Backpressure disk).
Proof.
  unfold restore_queue. rewrite audit_pressure. unfold restore_entries. cbn zeta. by rewrite refresh_rejections.
Qed.

(** The count of rejections since boot goes on from the file. *)
Theorem rejections_survive digest cfg instance expected now seed sub old s :
  bp_RejectedSinceBoot (QueueBackpressure (restored digest cfg expected now seed (saved digest instance sub old s))) =
    bp_RejectedSinceBoot (QueueBackpressure s).
Proof.
  destruct (restored_saved digest cfg instance expected now seed sub old s) as (r & s2 & _ & _ & _ & H).
  rewrite H, reviews_pressure, overrides_pressure. apply restore_rejections.
Qed.
