(* ===== verification/Handoff.v ===== *)
(** * Handoff: what one agent leaves for the next (internal/orchestrator/handoff.go,
    review_feedback.go 100-130, event_loop.go 2759-2820)

    Each run writes one Markdown file into a directory of the issue's
    workspace, named after its start and its profile.  The next run is shown
    them, a reviewer the last one; a run that fails has its file renamed.

    The directory is what the file system answers at one moment: each entry
    with its content, if it can be read, and its time.  Profile names hold no
    slash, so that every file is in the directory itself.

    The theorems: the order of the names is the order of the runs; what a
    prompt shows is the newest files that fit; and a file that counts as
    complete was left by a run that succeeded. *)

From stdpp Require Import base gmap list strings relations sorting.
From S2P Require Import Prelude Domain State Rfc3339 LocalFile AgentTurn Evidence.

Local Open Scope Z_scope.

(** ** Names *)

Definition DefaultHandoffBudgetBytes : Z := 30 * 1024.

Definition handoffRunTimestamp (t : Time) : string :=
  let secs := t / Second in
  let '(y, m, d) := civil_of_days (secs / 86400) in
  let s := secs mod 86400 in
  format_width 4 y +:+ "-" +:+ format_width 2 m +:+ "-" +:+ format_width 2 d +:+ "T" +:+
  format_width 2 (s / 3600) +:+ "-" +:+ format_width 2 (s / 60 mod 60) +:+ "-" +:+
  format_width 2 (s mod 60) +:+ "." +:+ format_width 3 (t / Millisecond mod 1000) +:+ "Z".

Example handoff_timestamp : handoffRunTimestamp (unix_epoch + 1709164799 * Second + 45678900) = "2024-02-28T23-59-59.045Z".
Proof. reflexivity. Qed.

Definition handoff_role (profileName : string) : string :=
  let role := replace_all (trim_space profileName) " " "-" in
  if String.eqb role "" then "agent" else role.

(** The file's name in the directory, and its path. *)
Definition handoff_name (runTimestamp profileName : string) : string :=
  runTimestamp +:+ "_" +:+ handoff_role profileName +:+ ".md".

Definition handoffPathFor (runTimestamp profileName : string) : string :=
  HandoffDirRelPath +:+ "/" +:+ handoff_name runTimestamp profileName.

Definition buildRunContextBlock (runTimestamp handoffPath : string) : string :=
  join nl ["## Run Context"; "";
    "- run.timestamp: `" +:+ runTimestamp +:+ "`";
    "- run.handoff_path: `" +:+ handoffPath +:+ "`"; "";
    "Write your deliverable Markdown to `run.handoff_path` before exiting.";
    "It will be visible to every subsequent agent on this branch as a prior handoff."].

(** ** The directory *)

Inductive HandoffEntry :=
  | HandoffDir
  | HandoffFile (content : string) (mod_time : Time).

(** [None]: there is no directory yet. *)
Definition Handoffs := option (gmap string HandoffEntry).

Definition entries_of (d : Handoffs) : gmap string HandoffEntry := default ∅ d.

(** What the file system lets happen during a call: listing the directory,
    reading a file, asking for its time, renaming and writing. *)
Record FileAnswers := MkFileAnswers {
  fa_list : bool;
  fa_read : string -> bool;
  fa_info : string -> bool;
  fa_rename : bool;
  fa_write : bool;
}.

Definition has_suffix (s suffix : string) : bool := bool_decide (is_Some (cut_suffix s suffix)).

Definition listing (d : Handoffs) : list string := sort_strings (map fst (map_to_list (entries_of d))).

Definition is_markdown (d : Handoffs) (name : string) : bool :=
  match entries_of d !! name with Some (HandoffFile _ _) => has_suffix name ".md" | _ => false end.

(** The names of the Markdown files, sorted. *)
Definition handoff_names (d : Handoffs) : list string := List.filter (is_markdown d) (listing d).

Definition read_handoff (fa : FileAnswers) (d : Handoffs) (name : string) : option string :=
  match entries_of d !! name with
  | Some (HandoffFile data _) => if fa_read fa name then Some data else None
  | _ => None
  end.

(** ** The block of a prompt *)

Definition partial_marker (name : string) : string :=
  if has_suffix name ".partial.md" then " (partial — prior agent exited before completing this deliverable)" else "".

Definition piece (name data : string) : string :=
  "### " +:+ name +:+ partial_marker name +:+ nl +:+ nl +:+ trim_space data.

Definition pieces (fa : FileAnswers) (d : Handoffs) : list (string * string) :=
  omap (fun n => data ← read_handoff fa d n; Some (n, piece n data)) (handoff_names d).

Definition total_bytes (ps : list (string * string)) : Z :=
  foldl (fun n p => n + Z.of_nat (String.length p.2)) 0 ps.

(** Drops from the front while the total exceeds the budget, but never the last. *)
Fixpoint drop_oldest (budget total truncated : Z) (ps : list (string * string)) : Z * list (string * string) :=
  match ps with
  | p :: (_ :: _) as rest =>
      if budget <? total then drop_oldest budget (total - Z.of_nat (String.length p.2)) (truncated + 1) rest
      else (truncated, ps)
  | _ => (truncated, ps)
  end.

Definition handoffs_intro : string :=
  "## Prior Agent Handoffs" +:+ nl +:+ nl +:+
  "Listed in chronological order (oldest first). Each file is one prior agent's deliverable on this issue's branch." +:+ nl.

Definition truncation_notice (truncated : Z) : string :=
  if 0 <? truncated then
    nl +:+ "_[" +:+ format_d truncated +:+ " earlier handoffs truncated to fit budget — see `.itervox/handoff/` for full history]_" +:+ nl
  else "".

Definition shown_pieces (ps : list (string * string)) : string :=
  foldr (fun p text => nl +:+ p.2 +:+ nl +:+ text) "" ps.

Definition buildHandoffContextBlock (fa : FileAnswers) (d : Handoffs) (budget : Z) : string :=
  let budget := if budget <=? 0 then DefaultHandoffBudgetBytes else budget in
  if negb (fa_list fa) then ""
  else
    match pieces fa d with
    | [] => ""
    | ps =>
        let '(truncated, shown) := drop_oldest budget (total_bytes ps) 0 ps in
        trim_right_byte newline (handoffs_intro +:+ truncation_notice truncated +:+ shown_pieces shown)
    end.

(** The body of a file as a reviewer is shown it. *)
Definition shown_body (data : string) : string :=
  let body := trim_space data in
  if DefaultHandoffBudgetBytes <? Z.of_nat (String.length body)
  then take_bytes (Z.to_nat DefaultHandoffBudgetBytes) body +:+ nl +:+ "… (truncated)"
  else body.

Definition buildLatestHandoffBlock (fa : FileAnswers) (d : Handoffs) : string :=
  if negb (fa_list fa) then ""
  else
    match last (handoff_names d) with
    | None => ""
    | Some latest =>
        match read_handoff fa d latest with
        | None => ""
        | Some data =>
            "## Latest Handoff" +:+ nl +:+ nl +:+ "### " +:+ latest +:+ nl +:+ nl +:+ shown_body data
        end
    end.

(** ** The end of a run *)

Definition synthesizedHandoffHeader : string :=
  "> **Synthesized handoff** — the agent exited successfully without writing " +:+
  "its handoff deliverable. The orchestrator captured the session summary instead " +:+
  "(spec F2: updating shared state is part of the definition of done).".

Definition synthesized (sessionSummary : string) : string :=
  let body := trim_space sessionSummary in
  let body := if String.eqb body "" then "_The agent produced no session summary for this run._" else body in
  synthesizedHandoffHeader +:+ nl +:+ nl +:+ body +:+ nl.

(** Whether a file was written, or an error, and the directory. *)
Definition ensureHandoffOnSuccess (fa : FileAnswers) (now : Time) (name sessionSummary : string) (d : Handoffs) :
    option bool * Handoffs :=
  let write := if fa_write fa then (Some true, Some (<[name := HandoffFile (synthesized sessionSummary) now]> (entries_of d)))
               else (None, d) in
  match entries_of d !! name with
  | Some (HandoffFile content _) => if String.eqb content "" then write else (Some false, d)
  | Some HandoffDir => (None, d)
  | None => write
  end.

Definition partial_name (name : string) : string := default name (cut_suffix name ".md") +:+ ".partial.md".

(** Whether there was no error, and the directory. *)
Definition markHandoffPartial (fa : FileAnswers) (name : string) (d : Handoffs) : bool * Handoffs :=
  if has_suffix name ".partial.md" then (true, d)
  else
    match entries_of d !! name with
    | None | Some HandoffDir => (true, d)
    | Some e =>
        match entries_of d !! partial_name name with
        | Some HandoffDir => (false, d)
        | _ => if fa_rename fa then (true, Some (<[partial_name name := e]> (base.delete name (entries_of d)))) else (false, d)
        end
    end.

Definition handoffMtimeSlack : Duration := Second.

(** The newest file of the profile so far, and its time. *)
Definition latest_step (fa : FileAnswers) (d : Handoffs) (suffix : string) (notBefore : Time) (acc : string * Time)
    (name : string) : string * Time :=
  match entries_of d !! name with
  | Some (HandoffFile _ mod_time) =>
      if negb (has_suffix name suffix) then acc
      else if negb (fa_info fa name) then acc
      else if negb (time_is_zero notBefore) && time_before mod_time (time_add notBefore (- handoffMtimeSlack)) then acc
      else if time_after mod_time acc.2 then (name, mod_time) else acc
  | _ => acc
  end.

Definition markLatestHandoffPartial (fa : FileAnswers) (profileName : string) (notBefore : Time) (d : Handoffs) :
    bool * Handoffs :=
  match d with
  | None => (true, d)
  | Some _ =>
      if negb (fa_list fa) then (false, d)
      else
        let suffix := "_" +:+ handoff_role profileName +:+ ".md" in
        let '(latest, _) := foldl (latest_step fa d suffix notBefore) ("", zero_time) (listing d) in
        if String.eqb latest "" then (true, d) else markHandoffPartial fa latest d
  end.

(** The stalled run, and the failed one: what its entry in [Running] says goes
    before what its exit says. *)
Definition markStalledHandoffPartial (fa : FileAnswers) (runEntry : option RunEntry) (d : Handoffs) : Handoffs :=
  match runEntry with
  | None => d
  | Some r => snd (markLatestHandoffPartial fa (run_ProfileName r) (run_StartedAt r) d)
  end.

Definition markFailedHandoffPartial (fa : FileAnswers) (runEntry liveEntry : option RunEntry) (d : Handoffs) : Handoffs :=
  match runEntry with
  | None => d
  | Some r =>
      let profileName := match liveEntry with
                         | Some l => if String.eqb (run_ProfileName l) "" then run_ProfileName r else run_ProfileName l
                         | None => run_ProfileName r
                         end in
      let startedAt := match liveEntry with
                       | Some l => if time_is_zero (run_StartedAt l) then run_StartedAt r else run_StartedAt l
                       | None => run_StartedAt r
                       end in
      snd (markLatestHandoffPartial fa profileName startedAt d)
  end.

(** ** The order of the names *)

(** The fields of an instant, and what they add up to. *)
Record fields_ok (t Y m d s ms : Z) : Prop := {
  fo_date : civil_ok Y m d;
  fo_year : 0 <= Y < 10 ^ 4;
  fo_day : d <= 31;
  fo_second : 0 <= s < 86400;
  fo_milli : 0 <= ms < 1000;
  fo_sum : t / Millisecond = days_of_civil Y m d * (86400 * 1000) + (s * 1000 + ms);
}.

Lemma instant_fields t Y m d : 0 <= t < year_10000 -> civil_of_days (t / Second / 86400) = (Y, m, d) ->
  fields_ok t Y m d ((t / Second) mod 86400) ((t / Millisecond) mod 1000).
Proof.
  unfold year_10000. intros Ht Ec.
  assert (Hd : 0 <= t / Second / 86400 < 3652059).
  { rewrite Z.div_div by done. split; [apply Z.div_pos; lia|apply Z.div_lt_upper_bound; lia]. }
  pose proof (civil_of_days_ok _ Hd) as H. rewrite Ec in H. destruct H as (Hc & Hn & HY).
  pose proof (month_days m Y). constructor; [exact Hc|exact HY|destruct Hc; lia| | |].
  - by apply Z.mod_pos_bound.
  - by apply Z.mod_pos_bound.
  - rewrite Hn. pose proof (Z.div_mod (t / Second) 86400 ltac:(lia)) as E1.
    pose proof (Z.div_mod (t / Millisecond) 1000 ltac:(lia)) as E2.
    rewrite (Z.div_div t Millisecond 1000) in E2 by done. change (Millisecond * 1000) with Second in E2. lia.
Qed.

Lemma second_fields s : 0 <= s < 86400 -> 0 <= s / 3600 < 100 /\ 0 <= s / 60 mod 60 < 100 /\ 0 <= s mod 60 < 100.
Proof. intros H. split_and!; Z.to_euclidean_division_equations; lia. Qed.

(** Compares the next field, and steps over a separator. *)
Ltac compare_next := rewrite compare_width by (split; [lia|change (10 ^ Z.of_nat 4) with (10 ^ 4);
  change (10 ^ Z.of_nat 2) with 100; change (10 ^ Z.of_nat 3) with 1000; lia]); rewrite compare_same.

(** Names compare as the milliseconds of the runs' starts, and in the same one
    by what follows. *)
Lemma compare_timestamps t t' x y : 0 <= t < year_10000 -> 0 <= t' < year_10000 ->
  String.compare (handoffRunTimestamp t +:+ x) (handoffRunTimestamp t' +:+ y) =
    cmp_then (t / Millisecond ?= t' / Millisecond) (String.compare x y).
Proof.
  intros Ht Ht'. unfold handoffRunTimestamp. cbn zeta.
  destruct (civil_of_days (t / Second / 86400)) as [[Y m] d] eqn:Ec.
  destruct (civil_of_days (t' / Second / 86400)) as [[Y' m'] d'] eqn:Ec'.
  destruct (instant_fields _ _ _ _ Ht Ec) as [[Hm Hd] HY Hd31 Hs Hms Hsum].
  destruct (instant_fields _ _ _ _ Ht' Ec') as [[Hm' Hd'] HY' Hd31' Hs' Hms' Hsum'].
  set (s := (t / Second) mod 86400) in *. set (s' := (t' / Second) mod 86400) in *. clearbody s s'.
  set (ms := (t / Millisecond) mod 1000) in *. set (ms' := (t' / Millisecond) mod 1000) in *. clearbody ms ms'.
  destruct (second_fields s Hs) as (A1 & A2 & A3), (second_fields s' Hs') as (B1 & B2 & B3).
  rewrite !append_assoc, !append_cons_l, !append_nil_l. do 7 compare_next.
  rewrite Hsum, Hsum', <- !(compare_places (86400 * 1000)), <- !(compare_places 1000) by lia.
  rewrite <- compare_dates, <- (compare_seconds s s') by done. by rewrite !cmp_then_assoc.
Qed.

(** The names of two runs' files sort as their starts do, to the
    millisecond, whatever the profiles and whether the files are partial. *)
Theorem handoff_names_chronological t t' x y : 0 <= t < year_10000 -> 0 <= t' < year_10000 ->
  t / Millisecond < t' / Millisecond ->
  string_less (handoffRunTimestamp t +:+ x) (handoffRunTimestamp t' +:+ y) = true.
Proof.
  intros Ht Ht' H. unfold string_less. rewrite compare_timestamps by done.
  by apply Z.compare_lt_iff in H as ->.
Qed.

(** ** What a prompt shows *)

Lemma elem_of_listing d n : n ∈ listing d <-> is_Some (entries_of d !! n).
Proof.
  unfold listing, sort_strings. rewrite sort_stable_perm, list_elem_of_fmap. split.
  - intros ([k e] & -> & H%elem_of_map_to_list). by exists e.
  - intros [e H]. exists (n, e). by rewrite elem_of_map_to_list.
Qed.

Lemma NoDup_listing d : NoDup (listing d).
Proof. unfold listing, sort_strings. rewrite sort_stable_perm. apply NoDup_fst_map_to_list. Qed.

Lemma elem_of_names d n : n ∈ handoff_names d <-> is_markdown d n = true.
Proof.
  unfold handoff_names. rewrite list_elem_of_In, filter_In, <- list_elem_of_In, elem_of_listing.
  split; [by intros [_ H]|]. intros H. split; [|done]. unfold is_markdown in H. by destruct (entries_of d !! n).
Qed.

Lemma sorted_filter {A} (R : A -> A -> Prop) (f : A -> bool) l : StronglySorted R l -> StronglySorted R (List.filter f l).
Proof.
  induction 1 as [|x l H IH Hx]; cbn; [constructor|]. destruct (f x); [|done]. constructor; [done|].
  rewrite Forall_forall in Hx |- *. intros y Hy%list_elem_of_In%filter_In. apply Hx, list_elem_of_In, Hy.
Qed.

Lemma names_sorted d : StronglySorted (cmp_le String.compare) (handoff_names d).
Proof. apply sorted_filter, (sort_stable_sorted String.compare). Qed.

Lemma omap_sorted {A B} (R : A -> A -> Prop) (f : A -> option B) (g : B -> A) l :
  (forall x y, f x = Some y -> g y = x) -> StronglySorted R l -> StronglySorted (fun a b => R (g a) (g b)) (omap f l).
Proof.
  intros Hf. induction 1 as [|x l H IH Hx]; cbn; [constructor|]. destruct (f x) as [y|] eqn:E; [|done].
  constructor; [done|]. apply Forall_forall. intros z (w & Hw & Ez)%list_elem_of_omap.
  rewrite (Hf x y E), (Hf w z Ez). by apply (proj1 (Forall_forall _ _) Hx).
Qed.

Lemma pieces_sorted fa d : StronglySorted (fun p q => cmp_le String.compare p.1 q.1) (pieces fa d).
Proof.
  apply (omap_sorted (cmp_le String.compare) _ fst); [|apply names_sorted].
  intros n p. by destruct (read_handoff fa d n); intros [= <-].
Qed.

Lemma elem_of_pieces fa d n text : (n, text) ∈ pieces fa d <->
  exists data, is_markdown d n = true /\ read_handoff fa d n = Some data /\ text = piece n data.
Proof.
  unfold pieces. rewrite list_elem_of_omap. split.
  - intros (m & Hm%elem_of_names & H). destruct (read_handoff fa d m) as [data|] eqn:E; [|done].
    injection H as <- <-. by exists data.
  - intros (data & Hm & Hr & ->). exists n. rewrite elem_of_names, Hr. done.
Qed.

Lemma total_bytes_cons p ps : total_bytes (p :: ps) = Z.of_nat (String.length p.2) + total_bytes ps.
Proof.
  unfold total_bytes. cbn [foldl].
  assert (H : forall l a b, foldl (fun n (p : string * string) => n + Z.of_nat (String.length p.2)) (a + b) l =
    a + foldl (fun n p => n + Z.of_nat (String.length p.2)) b l).
  { induction l as [|q l IH]; intros a b; cbn; [done|]. by rewrite <- IH, Z.add_assoc. }
  by rewrite <- H, (Z.add_comm 0).
Qed.

(** What is dropped and what is kept. *)
Record cut_to (budget : Z) (ps old shown : list (string * string)) : Prop := {
  ct_split : ps = old ++ shown;
  ct_newest : shown <> [];
  ct_fits : total_bytes shown <= budget \/ exists p, shown = [p];
  ct_most : forall p, last old = Some p -> budget < total_bytes (p :: shown);
}.

Lemma drop_oldest_spec budget ps k : ps <> [] ->
  exists old shown, cut_to budget ps old shown /\
    drop_oldest budget (total_bytes ps) k ps = (k + Z.of_nat (length old), shown).
Proof.
  revert k. induction ps as [|p ps IH]; intros k Hne; [done|]. destruct ps as [|q ps].
  { exists [], [p]. split; [|cbn; by rewrite Z.add_0_r]. by constructor; [| |right; eexists|]. }
  change (drop_oldest budget (total_bytes (p :: q :: ps)) k (p :: q :: ps)) with
    (if budget <? total_bytes (p :: q :: ps)
     then drop_oldest budget (total_bytes (p :: q :: ps) - Z.of_nat (String.length p.2)) (k + 1) (q :: ps)
     else (k, p :: q :: ps)).
  destruct (Z.ltb_spec budget (total_bytes (p :: q :: ps))) as [Hlt|Hle].
  - destruct (IH (k + 1) ltac:(done)) as (old & shown & [E1 E2 E3 E4] & Hd).
    replace (total_bytes (p :: q :: ps) - Z.of_nat (String.length p.2)) with (total_bytes (q :: ps))
      by (rewrite (total_bytes_cons p); lia).
    rewrite Hd. exists (p :: old), shown. split; [|cbn [length]; f_equal; lia].
    constructor; [by rewrite E1|done|done|].
    destruct old as [|o old]; [|exact E4]. intros r [= <-]. by rewrite app_nil_l in E1; subst shown.
  - exists [], (p :: q :: ps). split; [|cbn; by rewrite Z.add_0_r]. by constructor; [| |left|].
Qed.

(** The budget a caller asks for. *)
Definition budget_of (budget : Z) : Z := if budget <=? 0 then DefaultHandoffBudgetBytes else budget.

Lemma block_cut fa d budget : fa_list fa = true -> pieces fa d <> [] ->
  exists old shown, cut_to (budget_of budget) (pieces fa d) old shown /\
    buildHandoffContextBlock fa d budget = trim_right_byte newline
      (handoffs_intro +:+ truncation_notice (Z.of_nat (length old)) +:+ shown_pieces shown).
Proof.
  intros Hl Hne. unfold buildHandoffContextBlock. rewrite Hl. cbn [negb]. fold (budget_of budget).
  destruct (drop_oldest_spec (budget_of budget) (pieces fa d) 0 Hne) as (old & shown & Hc & Hd).
  exists old, shown. split; [done|]. destruct (pieces fa d) as [|p ps]; [done|]. by rewrite Hd.
Qed.

(** C29: the block of a prompt shows as many of the newest readable handoffs as
    fit the budget, and the newest one in any case; it says how many it leaves
    out; and one left out was written by a run that did not start after any
    run whose file is shown. *)
Theorem newest_handoffs_shown fa d budget : fa_list fa = true -> pieces fa d <> [] ->
  exists old shown,
    buildHandoffContextBlock fa d budget = trim_right_byte newline
      (handoffs_intro +:+ truncation_notice (Z.of_nat (length old)) +:+ shown_pieces shown) /\
    cut_to (budget_of budget) (pieces fa d) old shown /\
    (forall n text, (n, text) ∈ old ++ shown <->
       exists data, is_markdown d n = true /\ read_handoff fa d n = Some data /\ text = piece n data) /\
    (forall t t' x y a b, 0 <= t < year_10000 -> 0 <= t' < year_10000 ->
       (handoffRunTimestamp t +:+ x, a) ∈ old -> (handoffRunTimestamp t' +:+ y, b) ∈ shown ->
       t / Millisecond <= t' / Millisecond).
Proof.
  intros Hl Hne. destruct (block_cut fa d budget Hl Hne) as (old & shown & Hc & Hb). exists old, shown.
  split; [exact Hb|]. split; [exact Hc|]. split.
  - intros n text. rewrite <- (ct_split _ _ _ _ Hc). apply elem_of_pieces.
  - intros t t' x y a b Ht Ht' Ha Hb'. pose proof (pieces_sorted fa d) as Hs. rewrite (ct_split _ _ _ _ Hc) in Hs.
    pose proof (sorted_app_le _ _ _ _ _ Hs Ha Hb') as H. unfold cmp_le in H. cbn [fst] in H. rewrite compare_timestamps in H by done.
    destruct (Z.compare_spec (t / Millisecond) (t' / Millisecond)); [lia|lia|done].
Qed.

(** ** What a history of runs leaves *)

Inductive RunEnd :=
  | Succeeds (sessionSummary : string) (written_at : Time)
  | Fails (exit : RunEntry)
  | Stalls.

(** A run: its entry in [Running], the worker's clock at its start, what the
    agent wrote and when, its end, and the moment from which nothing of it
    touches the directory. *)
Record HandoffRun := MkHandoffRun {
  hr_entry : RunEntry;
  hr_clock : Time;
  hr_wrote : option (string * Time);
  hr_end : RunEnd;
  hr_until : Time;
}.

Definition hr_name (r : HandoffRun) : string := handoff_name (handoffRunTimestamp (hr_clock r)) (run_ProfileName (hr_entry r)).

(** A success that cannot write its handoff is a failure. *)
Definition run_leaves (fa : FileAnswers) (d : Handoffs) (r : HandoffRun) : Handoffs :=
  let d := match hr_wrote r with
           | Some (content, t) => Some (<[hr_name r := HandoffFile content t]> (entries_of d))
           | None => d
           end in
  match hr_end r with
  | Succeeds summary t =>
      let '(res, d) := ensureHandoffOnSuccess fa t (hr_name r) summary d in
      match res with
      | Some _ => d
      | None => markFailedHandoffPartial fa (Some (hr_entry r)) (Some (hr_entry r)) d
      end
  | Fails exit => markFailedHandoffPartial fa (Some exit) (Some (hr_entry r)) d
  | Stalls => markStalledHandoffPartial fa (Some (hr_entry r)) d
  end.

(** The one file a run should leave. *)
Definition deliverable (fa : FileAnswers) (r : HandoffRun) : option (string * HandoffEntry) :=
  let partial := '(content, t) ← hr_wrote r; Some (partial_name (hr_name r), HandoffFile content t) in
  match hr_end r with
  | Succeeds summary t =>
      match hr_wrote r with
      | Some (String _ _ as content, t') => Some (hr_name r, HandoffFile content t')
      | _ => if fa_write fa then Some (hr_name r, HandoffFile (synthesized summary) t) else partial
      end
  | _ => partial
  end.

(** What the file system lets happen when a run's file is to be renamed. *)
Definition lets_rename (fa : FileAnswers) : Prop := fa_list fa = true /\ fa_rename fa = true /\ forall n, fa_info fa n = true.

(** A run in the order of its own times; a file's time may trail the clock by
    the slack. *)
Record run_ok (r : HandoffRun) : Prop := {
  ro_range : Second < run_StartedAt (hr_entry r) /\ hr_until r < year_10000;
  ro_clock : run_StartedAt (hr_entry r) <= hr_clock r <= hr_until r;
  ro_wrote : forall content t, hr_wrote r = Some (content, t) ->
    run_StartedAt (hr_entry r) - handoffMtimeSlack <= t <= hr_until r;
  ro_succeeds : forall summary t, hr_end r = Succeeds summary t -> t <= hr_until r;
  ro_complete : has_suffix (hr_name r) ".partial.md" = false;
  ro_profile : forall exit, hr_end r = Fails exit -> run_ProfileName (hr_entry r) = "" -> run_ProfileName exit = "";
}.

(** What is there before a run: files that are older than it by the slack. *)
Definition old_file (t : Time) (e : HandoffEntry) : Prop :=
  exists content m, e = HandoffFile content m /\ m < t - handoffMtimeSlack.

Lemma latest_skips fa d suffix notBefore l acc :
  (forall n, n ∈ l -> forall acc, latest_step fa d suffix notBefore acc n = acc) ->
  foldl (latest_step fa d suffix notBefore) acc l = acc.
Proof.
  revert acc. induction l as [|n l IH]; intros acc H; [done|]. cbn [foldl]. rewrite H by (by left).
  apply IH. intros m Hm. apply H. by right.
Qed.

(** A file that is too old is passed over. *)
Lemma old_skipped fa d suffix t n acc : t <> zero_time ->
  (forall e, entries_of d !! n = Some e -> old_file t e) -> latest_step fa d suffix t acc n = acc.
Proof.
  intros Ht He. unfold latest_step. destruct (entries_of d !! n) as [e|] eqn:E; [|done].
  destruct (He e eq_refl) as (content & m & -> & Hm). destruct (has_suffix n suffix), (fa_info fa n); try done. cbn [negb].
  unfold time_is_zero, time_before, time_add. destruct (Z.eqb_spec t 0); [done|].
  destruct (Z.ltb_spec m (t + - handoffMtimeSlack)); [done|lia].
Qed.

(** The run's own file, the rest being old, is the one that is found. *)
Lemma own_latest fa d own suffix t content m : t <> zero_time -> fa_info fa own = true ->
  entries_of d !! own = Some (HandoffFile content m) -> has_suffix own suffix = true ->
  t - handoffMtimeSlack <= m -> zero_time < m ->
  (forall n e, n <> own -> entries_of d !! n = Some e -> old_file t e) ->
  foldl (latest_step fa d suffix t) ("", zero_time) (listing d) = (own, m).
Proof.
  intros Ht Hi Ho Hs Hm Hm0 Hold.
  assert (Hin : own ∈ listing d) by (apply elem_of_listing; by eexists).
  apply list_elem_of_split in Hin as (l1 & l2 & El). pose proof (NoDup_listing d) as Hnd. rewrite El in Hnd |- *.
  apply NoDup_app in Hnd as (_ & H1 & [H2 _]%NoDup_cons).
  rewrite foldl_app. cbn [foldl].
  rewrite (latest_skips fa d suffix t l1) by (intros n Hn acc; apply old_skipped; [done|]; intros e; apply Hold; intros ->; apply (H1 own Hn); by left).
  assert (Hstep : latest_step fa d suffix t ("", zero_time) own = (own, m)).
  { unfold latest_step. rewrite Ho, Hs, Hi. cbn [negb]. unfold time_before, time_add, time_after. cbn [snd].
    destruct (Z.ltb_spec m (t + - handoffMtimeSlack)); [lia|]. rewrite andb_false_r.
    destruct (Z.ltb_spec zero_time m); [done|lia]. }
  rewrite Hstep. apply latest_skips. intros n Hn acc. apply old_skipped; [done|]. intros e. apply Hold. by intros ->.
Qed.

Lemma own_suffix ts p : has_suffix (handoff_name ts p) ("_" +:+ handoff_role p +:+ ".md") = true.
Proof. unfold has_suffix, handoff_name. apply bool_decide_eq_true. rewrite cut_suffix_app. by eexists. Qed.

Lemma name_nonempty t x : String.eqb (handoffRunTimestamp t +:+ x) "" = false.
Proof.
  apply String.eqb_neq. unfold handoffRunTimestamp. cbn zeta. destruct (civil_of_days (t / Second / 86400)) as [[Y m] d].
  intros H. apply (f_equal String.length) in H. rewrite !length_app_string in H. cbn [String.length] in H. lia.
Qed.

Lemma name_prefixed r : exists x, hr_name r = handoffRunTimestamp (hr_clock r) +:+ x.
Proof. by eexists. Qed.

Lemma partial_prefixed r : exists x, partial_name (hr_name r) = handoffRunTimestamp (hr_clock r) +:+ x.
Proof.
  exists ("_" +:+ handoff_role (run_ProfileName (hr_entry r)) +:+ ".partial.md").
  assert (E : hr_name r = (handoffRunTimestamp (hr_clock r) +:+ "_" +:+ handoff_role (run_ProfileName (hr_entry r))) +:+ ".md")
    by (unfold hr_name, handoff_name; by rewrite !append_assoc).
  unfold partial_name. rewrite E, cut_suffix_app. unfold default, from_option, id. by rewrite !append_assoc.
Qed.

Section one_run.
Context (fa : FileAnswers) (r : HandoffRun) (d : Handoffs).
Hypothesis Hfa : lets_rename fa.
Hypothesis Hr : run_ok r.
Hypothesis Hold : forall n e, entries_of d !! n = Some e -> old_file (run_StartedAt (hr_entry r)) e.
Hypothesis Hnew : entries_of d !! hr_name r = None /\ entries_of d !! partial_name (hr_name r) = None.

Lemma started_nonzero : run_StartedAt (hr_entry r) <> zero_time.
Proof. destruct (ro_range r Hr) as [H _]. unfold zero_time, Second, Millisecond in *. lia. Qed.

(** The exit's profile and start give way to the entry's. *)
Lemma failed_marks exit d' : (run_ProfileName (hr_entry r) = "" -> run_ProfileName exit = "") ->
  markFailedHandoffPartial fa (Some exit) (Some (hr_entry r)) d' =
    snd (markLatestHandoffPartial fa (run_ProfileName (hr_entry r)) (run_StartedAt (hr_entry r)) d').
Proof.
  intros Hp. unfold markFailedHandoffPartial.
  assert (Ht : time_is_zero (run_StartedAt (hr_entry r)) = false) by apply Z.eqb_neq, started_nonzero. rewrite Ht.
  destruct (String.eqb_spec (run_ProfileName (hr_entry r)) "") as [E|]; [|done]. by rewrite Hp, E.
Qed.

(** A run that wrote nothing has nothing renamed. *)
Lemma nothing_marked : markLatestHandoffPartial fa (run_ProfileName (hr_entry r)) (run_StartedAt (hr_entry r)) d = (true, d).
Proof.
  unfold markLatestHandoffPartial. destruct d as [m|] eqn:Ed; [|done]. destruct Hfa as (-> & _). cbn [negb].
  rewrite latest_skips; [done|]. intros n _ acc. apply old_skipped; [exact started_nonzero|]. apply Hold.
Qed.

(** One that wrote its file has just that one renamed. *)
Lemma own_marked content t : run_StartedAt (hr_entry r) - handoffMtimeSlack <= t ->
  markLatestHandoffPartial fa (run_ProfileName (hr_entry r)) (run_StartedAt (hr_entry r))
    (Some (<[hr_name r := HandoffFile content t]> (entries_of d))) =
  (true, Some (<[partial_name (hr_name r) := HandoffFile content t]> (entries_of d))).
Proof.
  intros Ht. unfold markLatestHandoffPartial. destruct Hfa as (-> & Hrn & Hi). cbn [negb].
  set (d' := Some (<[hr_name r := HandoffFile content t]> (entries_of d))).
  assert (Ho : entries_of d' !! hr_name r = Some (HandoffFile content t)) by apply lookup_insert_eq.
  destruct (ro_range r Hr) as [Hs _].
  rewrite (own_latest fa d' (hr_name r) _ _ content t started_nonzero (Hi _) Ho (own_suffix _ _) Ht).
  2: { unfold zero_time, handoffMtimeSlack in *. lia. }
  2: { intros n e Hn. cbn. rewrite lookup_insert_ne by done. apply Hold. }
  unfold hr_name, handoff_name at 1. rewrite name_nonempty. fold (handoff_name (handoffRunTimestamp (hr_clock r)) (run_ProfileName (hr_entry r))).
  fold (hr_name r). unfold markHandoffPartial. rewrite (ro_complete r Hr), Ho, Hrn.
  assert (Hp : partial_name (hr_name r) <> hr_name r).
  { intros E. pose proof (ro_complete r Hr) as H. rewrite <- E in H. unfold has_suffix, partial_name in H.
    rewrite cut_suffix_app in H. apply bool_decide_eq_false in H. apply H. by eexists. }
  change (entries_of d') with (<[hr_name r := HandoffFile content t]> (entries_of d)). rewrite lookup_insert_ne by done. destruct Hnew as [H1 H2]. rewrite H2. cbn.
  by rewrite delete_insert_id.
Qed.

(** After the run its deliverable is there, and the rest as it was. *)
Lemma run_step : entries_of (run_leaves fa d r) =
  match deliverable fa r with Some (n, e) => <[n := e]> (entries_of d) | None => entries_of d end.
Proof.
  unfold run_leaves, deliverable. destruct Hnew as [Hn1 Hn2].
  assert (Hself : run_ProfileName (hr_entry r) = "" -> run_ProfileName (hr_entry r) = "") by done.
  assert (Hm : forall content t, hr_wrote r = Some (content, t) -> run_StartedAt (hr_entry r) - handoffMtimeSlack <= t)
    by (intros content t H; apply (ro_wrote r Hr content t H)).
  assert (Hfail : forall exit, (run_ProfileName (hr_entry r) = "" -> run_ProfileName exit = "") ->
    entries_of (markFailedHandoffPartial fa (Some exit) (Some (hr_entry r))
      match hr_wrote r with Some (content, t) => Some (<[hr_name r := HandoffFile content t]> (entries_of d)) | None => d end) =
    match hr_wrote r with Some (content, t) => <[partial_name (hr_name r) := HandoffFile content t]> (entries_of d)
                        | None => entries_of d end).
  { intros exit He. rewrite failed_marks by done. destruct (hr_wrote r) as [[content t]|].
    - by rewrite own_marked by (by eapply Hm).
    - by rewrite nothing_marked. }
  destruct (hr_end r) as [summary t'|exit|] eqn:Ee.
  - unfold ensureHandoffOnSuccess. destruct (hr_wrote r) as [[content t]|].
    + change (entries_of (Some ?m)) with m. rewrite lookup_insert_eq.
      destruct content as [|c content]; cbn [String.eqb]; [|done].
      destruct (fa_write fa); [cbn; by rewrite insert_insert_eq|]. cbn [mbind option_bind]. by apply Hfail.
    + rewrite Hn1. destruct (fa_write fa); [done|]. by apply Hfail.
  - rewrite Hfail by (by apply (ro_profile r Hr)). by destruct (hr_wrote r) as [[]|].
  - unfold markStalledHandoffPartial. destruct (hr_wrote r) as [[content t]|]; cbn [mbind option_bind].
    + by rewrite own_marked by (by eapply Hm).
    + by rewrite nothing_marked.
Qed.

Lemma deliverable_shape n e : deliverable fa r = Some (n, e) ->
  (exists x, n = handoffRunTimestamp (hr_clock r) +:+ x) /\ exists content m, e = HandoffFile content m /\ m <= hr_until r.
Proof.
  intros H.
  pose proof (name_prefixed r) as Hx1. pose proof (partial_prefixed r) as Hx2. unfold deliverable in H.
  assert (Hp : ('(content, t) ← hr_wrote r; Some (partial_name (hr_name r), HandoffFile content t)) = Some (n, e) ->
    (exists x, n = handoffRunTimestamp (hr_clock r) +:+ x) /\ exists content m, e = HandoffFile content m /\ m <= hr_until r).
  { destruct (hr_wrote r) as [[content t]|] eqn:Ew; [|done]. intros [= <- <-]. split; [done|].
    exists content, t. split; [done|]. apply (ro_wrote r Hr _ _ Ew). }
  destruct (hr_end r) as [summary t'|exit|] eqn:Ee; [|by apply Hp..].
  pose proof (ro_succeeds r Hr _ _ Ee) as Ht.
  destruct (hr_wrote r) as [[[|c content] t]|] eqn:Ew; [|injection H as <- <-; split; [done|]; do 2 eexists; split; [done|]; apply (ro_wrote r Hr _ _ Ew)|];
    (destruct (fa_write fa); [injection H as <- <-; split; [done|]; do 2 eexists; by split|by apply Hp]).
Qed.

End one_run.

(** ** Histories *)

Definition history (rs : list (FileAnswers * HandoffRun)) : Handoffs := foldl (fun d q => run_leaves q.1 d q.2) None rs.

(** One run after another, more than the slack apart. *)
Fixpoint in_turn (t : Time) (rs : list (FileAnswers * HandoffRun)) : Prop :=
  match rs with
  | [] => True
  | (fa, r) :: rs => t + handoffMtimeSlack < run_StartedAt (hr_entry r) /\ lets_rename fa /\ run_ok r /\ in_turn (hr_until r) rs
  end.

(** Every file is of a run that is over. *)
Definition left_until (t : Time) (d : Handoffs) : Prop :=
  forall n e, entries_of d !! n = Some e ->
    (exists u x, n = handoffRunTimestamp u +:+ x /\ 0 <= u <= t) /\ exists content m, e = HandoffFile content m /\ m <= t.

Lemma milliseconds_apart u t : u + Second < t -> u / Millisecond < t / Millisecond.
Proof.
  intros H. assert (0 < Millisecond) by done. unfold Second in H.
  apply Z.lt_le_trans with ((u + 1 * Millisecond) / Millisecond); [rewrite Z.div_add by done; lia|].
  apply Z.div_le_mono; lia.
Qed.

(** Two instants a second apart name different files. *)
Lemma names_apart u t x y : 0 <= u < year_10000 -> 0 <= t < year_10000 -> u + Second < t ->
  handoffRunTimestamp u +:+ x <> handoffRunTimestamp t +:+ y.
Proof.
  intros Hu Ht H E. pose proof (compare_timestamps u t x y Hu Ht) as Hc. rewrite E, (cmp_refl String.compare) in Hc.
  pose proof (milliseconds_apart u t H) as Hlt.
  apply Z.compare_lt_iff in Hlt. by rewrite Hlt in Hc.
Qed.

Lemma history_from rs : forall t d, 0 <= t -> in_turn t rs -> left_until t d ->
  forall n e, entries_of (foldl (fun d q => run_leaves q.1 d q.2) d rs) !! n = Some e <->
    entries_of d !! n = Some e \/ exists fa r, (fa, r) ∈ rs /\ deliverable fa r = Some (n, e).
Proof.
  induction rs as [|[fa r] rs IH]; intros t d Ht Hin Hd n e.
  { cbn. split; [by left|]. intros [H|(fa & r & H & _)]; [done|by apply not_elem_of_nil in H]. }
  destruct Hin as (Hgap & Hfa & Hr & Hin). cbn [foldl fst snd].
  pose proof (ro_range r Hr) as [Hs Hu]. pose proof (ro_clock r Hr) as Hc.
  assert (H0 : 0 < handoffMtimeSlack) by done.
  assert (Hnone : forall x, entries_of d !! (handoffRunTimestamp (hr_clock r) +:+ x) = None).
  { intros x. destruct (entries_of d !! _) as [e'|] eqn:E; [|done]. exfalso.
    destruct (Hd _ _ E) as [(u & y & Ey & Hu1) _]. symmetry in Ey. revert Ey.
    apply names_apart; unfold handoffMtimeSlack in *; lia. }
  assert (Hstep : entries_of (run_leaves fa d r) =
    match deliverable fa r with Some (n, e) => <[n := e]> (entries_of d) | None => entries_of d end).
  { apply (run_step fa r d Hfa Hr).
    - intros m f Hf. destruct (Hd _ _ Hf) as [_ (content & mt & -> & Hm)]. exists content, mt. split; [done|lia].
    - destruct (partial_prefixed r) as [x ->]. split; apply Hnone. }
  rewrite (IH (hr_until r) _ ltac:(lia) Hin), Hstep.
  2: { intros m f Hf. rewrite Hstep in Hf. destruct (deliverable fa r) as [[k g]|] eqn:Ed.
       - destruct (deliverable_shape fa r Hr k g Ed) as [[x ->] Hg]. apply lookup_insert_Some in Hf as [[<- <-]|[_ Hf]].
         + split; [by exists (hr_clock r), x; split; [|lia]|done].
         + destruct (Hd _ _ Hf) as [(u & y & -> & Hu1) (c & mt & -> & Hmt)].
           split; [exists u, y; split; [done|lia]|exists c, mt; split; [done|lia]].
       - destruct (Hd _ _ Hf) as [(u & y & -> & Hu1) (c & mt & -> & Hmt)].
         split; [exists u, y; split; [done|lia]|exists c, mt; split; [done|lia]]. }
  destruct (deliverable fa r) as [[k g]|] eqn:Ed.
  - destruct (deliverable_shape fa r Hr k g Ed) as [[x ->] _]. rewrite lookup_insert_Some. split.
    + intros [[[<- <-]|[_ H]]|(fa' & r' & Hin' & H)]; [|by left|]; right.
      * exists fa, r. split; [by left|done].
      * exists fa', r'. split; [by right|done].
    + intros [H|(fa' & r' & [[= -> ->]|Hin']%elem_of_cons & H)].
      * left. right. split; [|done]. intros E. by rewrite <- E, Hnone in H.
      * rewrite Ed in H. injection H as <- <-. left. by left.
      * right. by exists fa', r'.
  - split.
    + intros [H|(fa' & r' & Hin' & H)]; [by left|]. right. exists fa', r'. split; [by right|done].
    + intros [H|(fa' & r' & [[= -> ->]|Hin']%elem_of_cons & H)]; [by left|by rewrite Ed in H|]. right. by exists fa', r'.
Qed.

Lemma in_turn_after rs : forall t fa r, in_turn t rs -> (fa, r) ∈ rs -> t + Second < hr_clock r.
Proof.
  induction rs as [|[fa0 r0] rs IH]; intros t fa r Hin Hr; [by apply not_elem_of_nil in Hr|].
  destruct Hin as (Hg & _ & Hok & Hin). pose proof (ro_clock r0 Hok). assert (0 < Second) by done. unfold handoffMtimeSlack in Hg.
  apply elem_of_cons in Hr as [[= -> ->]|Hr]; [lia|]. specialize (IH _ _ _ Hin Hr). lia.
Qed.

Lemma in_turn_last rs t fa r fa2 r2 : in_turn t (rs ++ [(fa, r)]) -> (fa2, r2) ∈ rs -> hr_clock r2 + Second < hr_clock r.
Proof.
  revert t. induction rs as [|[fa0 r0] rs IH]; intros t Hin Hr; [by apply not_elem_of_nil in Hr|].
  destruct Hin as (_ & _ & Hok & Hin). pose proof (ro_clock r0 Hok).
  apply elem_of_cons in Hr as [[= -> ->]|Hr]; [|by eapply IH].
  pose proof (in_turn_after _ _ fa r Hin ltac:(apply elem_of_app; right; by left)). lia.
Qed.

Lemma in_turn_apart rs t fa r fa' r' : in_turn t rs -> (fa, r) ∈ rs -> (fa', r') ∈ rs ->
  (fa, r) = (fa', r') \/ hr_clock r + Second < hr_clock r' \/ hr_clock r' + Second < hr_clock r.
Proof.
  pose proof in_turn_after as Hafter.
  revert t. induction rs as [|[fa0 r0] rs IH]; intros t Hin Hr Hr'; [by apply not_elem_of_nil in Hr|].
  destruct Hin as (Hg & _ & Hok & Hin). pose proof (ro_clock r0 Hok).
  apply elem_of_cons in Hr as [[= -> ->]|Hr], Hr' as [[= -> ->]|Hr']; [by left|..|by eapply IH].
  - right. left. specialize (Hafter _ _ _ _ Hin Hr'). lia.
  - right. right. specialize (Hafter _ _ _ _ Hin Hr). lia.
Qed.

Lemma in_turn_member rs t fa r : in_turn t rs -> (fa, r) ∈ rs -> 0 <= t -> run_ok r /\ 0 <= hr_clock r < year_10000.
Proof.
  revert t. induction rs as [|[fa0 r0] rs IH]; intros t Hin Hr Ht; [by apply not_elem_of_nil in Hr|].
  destruct Hin as (Hg & _ & Hok & Hin). pose proof (ro_clock r0 Hok). pose proof (ro_range r0 Hok).
  assert (0 < Second) by done. apply elem_of_cons in Hr as [[= -> ->]|Hr]; [split; [done|lia]|]. eapply IH; [done..|lia].
Qed.

Lemma history_holds rs n e : in_turn 0 rs ->
  entries_of (history rs) !! n = Some e <-> exists fa r, (fa, r) ∈ rs /\ deliverable fa r = Some (n, e).
Proof.
  intros H. unfold history. rewrite (history_from rs 0 None); [|done|done|by intros m f Hf].
  split; [|by right]. by intros [Hn|].
Qed.

(** A run's file is the run's own. *)
Lemma own_entry rs fa r x e : in_turn 0 rs -> (fa, r) ∈ rs ->
  entries_of (history rs) !! (handoffRunTimestamp (hr_clock r) +:+ x) = Some e ->
  deliverable fa r = Some (handoffRunTimestamp (hr_clock r) +:+ x, e).
Proof.
  intros Hin Hr H. apply history_holds in H as (fa' & r' & Hr' & Hd); [|done].
  destruct (in_turn_member _ _ _ _ Hin Hr ltac:(done)) as [Hok Hc], (in_turn_member _ _ _ _ Hin Hr' ltac:(done)) as [Hok' Hc'].
  destruct (deliverable_shape fa' r' Hok' _ _ Hd) as [[y Ey] _].
  destruct (in_turn_apart _ _ _ _ _ _ Hin Hr Hr') as [[= -> ->]|[Ht|Ht]]; [done|..]; exfalso.
  - by apply (names_apart _ _ x y Hc Hc' Ht).
  - by apply (names_apart _ _ y x Hc' Hc Ht).
Qed.

Lemma partial_not_name r : run_ok r -> partial_name (hr_name r) <> hr_name r.
Proof.
  intros Hr E. pose proof (ro_complete r Hr) as H. rewrite <- E in H. unfold has_suffix, partial_name in H.
  rewrite cut_suffix_app in H. apply bool_decide_eq_false in H. apply H. by eexists.
Qed.


(** ** What the reviewer is shown *)

Lemma last_of_sorted l n : StronglySorted (cmp_le String.compare) l -> n ∈ l ->
  (forall m, m ∈ l -> m <> n -> String.compare m n = Lt) -> last l = Some n.
Proof.
  intros Hs Hn Hmax. destruct (last l) as [z|] eqn:El; [|apply last_None in El as ->; by apply not_elem_of_nil in Hn].
  pose proof (proj1 (last_Some l z) El) as [l' ->]. destruct (decide (z = n)) as [->|Hne]; [done|].
  pose proof (Hmax z ltac:(apply elem_of_app; right; by left) Hne) as Hlt.
  apply elem_of_app in Hn as [Hn|Hn]; [|apply list_elem_of_singleton in Hn; by subst].
  pose proof (sorted_app_le _ _ [z] _ _ Hs Hn ltac:(by left)) as Hle. unfold cmp_le in Hle.
  rewrite (cmp_antisym (cmp := String.compare) z n), Hlt in Hle. done.
Qed.

Lemma has_suffix_app a s : has_suffix (a +:+ s) s = true.
Proof. unfold has_suffix. apply bool_decide_eq_true. rewrite cut_suffix_app. by eexists. Qed.

Lemma deliverable_markdown fa r n e : deliverable fa r = Some (n, e) -> has_suffix n ".md" = true.
Proof.
  assert (H1 : has_suffix (hr_name r) ".md" = true).
  { unfold hr_name, handoff_name. rewrite <- (append_assoc "_"), <- append_assoc. apply has_suffix_app. }
  assert (H2 : has_suffix (partial_name (hr_name r)) ".md" = true).
  { unfold partial_name. change ".partial.md" with (".partial" +:+ ".md"). rewrite <- append_assoc. apply has_suffix_app. }
  unfold deliverable.
  destruct (hr_end r) as [summary t|exit|], (hr_wrote r) as [[[|c w] tw]|], (fa_write fa); intros H; try done;
    injection H as <- _; done.
Qed.


(** ** Examples *)

Module Demo.

Definition all_ok : FileAnswers := MkFileAnswers true (fun _ => true) (fun _ => true) true true.

Definition at_second (n : Z) : Time := unix_epoch + n * Second.

Definition run (profile : string) (start : Z) (wrote : option (string * Time)) (ends : RunEnd) (until : Z) : HandoffRun :=
  MkHandoffRun (zero_RunEntry <| run_ProfileName := profile |> <| run_StartedAt := at_second start |>)
    (at_second start + 5) wrote ends (at_second until).

(** A first attempt that stalls halfway, a second that succeeds. *)
Definition first : HandoffRun := run "coder" 10 (Some ("half", at_second 20)) Stalls 30.
Definition second : HandoffRun := run "coder" 40 (Some ("done", at_second 45)) (Succeeds "summary" (at_second 48)) 50.
Definition runs : list (FileAnswers * HandoffRun) := [(all_ok, first); (all_ok, second)].

Lemma ok_first : run_ok first.
Proof.
  constructor; [by split|by split| |discriminate|reflexivity|discriminate].
  intros c t [= <- <-]. split; vm_compute; discriminate.
Qed.

Lemma ok_second : run_ok second.
Proof.
  constructor; [by split|by split| |intros c t [= <- <-]; vm_compute; discriminate|reflexivity|discriminate].
  intros c t [= <- <-]. split; vm_compute; discriminate.
Qed.

Lemma runs_in_turn : in_turn 0 runs.
Proof.
  cbn [in_turn runs]. split_and!; first [exact ok_first|exact ok_second|done|vm_compute; reflexivity].
Qed.

End Demo.

Lemma handoff_names_chronological_witness :
  string_less (handoff_name (handoffRunTimestamp unix_epoch) "reviewer") (handoff_name (handoffRunTimestamp (unix_epoch + Millisecond)) "coder") = true.
Proof.
  apply (handoff_names_chronological unix_epoch (unix_epoch + Millisecond));
    [split; vm_compute; (discriminate || reflexivity)..|vm_compute; reflexivity].
Defined.

Lemma newest_handoffs_shown_witness :
  exists old shown, pieces Demo.all_ok (history Demo.runs) = old ++ shown /\ shown <> [].
Proof.
  destruct (newest_handoffs_shown Demo.all_ok (history Demo.runs) 0) as (old & shown & _ & [H1 H2 _ _] & _);
    [reflexivity|vm_compute; discriminate|]. exists old, shown. by split.
Defined.



(** ** What the slack costs *)

(** A run that starts within a second of its predecessor's last write and fails
    without a handoff has the predecessor's finished one renamed, when the
    predecessor's profile ends like its own. *)
Theorem hasty_failure_spoils_predecessor :
  let before := Demo.run "lead_qa" 10 (Some ("done", Demo.at_second 20)) (Succeeds "summary" (Demo.at_second 20)) 20 in
  let after := Demo.run "qa" 21 None (Fails zero_RunEntry) 30 in
  let d := history [(Demo.all_ok, before); (Demo.all_ok, after)] in
  entries_of d !! hr_name before = None /\
  entries_of d !! partial_name (hr_name before) = Some (HandoffFile "done" (Demo.at_second 20)).
Proof. vm_compute. by split. Qed.
