(* ===== verification/Producers.v ===== *)
(** * Producers: what makes automations fire (cmd/itervox/automations.go,
    automations_input_required.go, tracker/prefetch.go, config/automations.go
    34-102, orchestrator/automation.go 260-313 and 346-430,
    automation_body_filter.go)

    A goroutine of its own compiles the configured rules every 15 seconds,
    hands them to the event loop, and watches what the loop cannot see: the
    clock, the states and comments of issues, and rules that are added while a
    question waits.  What it finds it sends to the loop as events.

    A time zone is the offset it has at an instant; the zone database and
    regular expressions are arguments, and so is what the tracker, the
    published state and the loop answer during one tick.  The requests to the
    tracker and the events are recorded in order.

    The theorems: a cron rule runs at the first tick of each minute it names
    and at no other; a comment fires a rule once; a rule replays a question at
    most once.  The last section shows what the watch misses. *)

From stdpp Require Import base gmap list strings sorting.
From Stdlib Require Import Ascii.
From S2P Require Import Prelude Domain State Config Dispatch Rfc3339 LocalFile Cron Tracker AutomationQueue Orchestrator Automation Triggers.

Local Open Scope Z_scope.

(** ** Configured rules *)

Definition AutomationTriggerCron : string := "cron".
Definition AutomationTriggerPRMerged : string := "pr_merged".
Definition TestAutomationTriggerType : string := "test".

Record AutomationTriggerConfig := MkAutomationTriggerConfig {
  atc_Type : string;
  atc_Cron : string;
  atc_Timezone : string;
  atc_State : string;
}.

Record AutomationFilterConfig := MkAutomationFilterConfig {
  afc_MatchMode : string;
  afc_States : list string;
  afc_LabelsAny : list string;
  afc_IdentifierRegex : string;
  afc_Limit : Z;
  afc_InputContextRegex : string;
  afc_MaxAgeMinutes : Z;
  afc_BodyContains : list string;
  afc_BodyRegex : string;
}.

Record AutomationPolicyConfig := MkAutomationPolicyConfig {
  apc_AutoResume : bool;
  apc_SwitchToProfile : string;
  apc_SwitchToBackend : string;
  apc_CooldownMinutes : Z;
  apc_MoveToState : string;
}.

Record AutomationConfig := MkAutomationConfig {
  ac_ID : string;
  ac_Enabled : bool;
  ac_Profile : string;
  ac_Instructions : string;
  ac_Trigger : AutomationTriggerConfig;
  ac_Filter : AutomationFilterConfig;
  ac_Policy : AutomationPolicyConfig;
}.

(** ** Compiled rules *)

(** Seconds east of UTC at an instant. *)
Definition Location : Type := Time -> Z.

Definition PROpenedAutomation : Type := Rule.
Definition PRMergedAutomation : Type := Rule.

Record TrackerCommentAutomation := MkTrackerCommentAutomation {
  tca_rule : Rule;
  tca_BodyContainsAny : list string;
  tca_BodyRegex : option Regexp;
}.

(** [ca_expr] and [ca_location] are those of a cron rule. *)
Record compiledAutomation := MkCompiledAutomation {
  ca_cfg : AutomationConfig;
  ca_expr : option Expression;
  ca_location : Location;
  ca_identifierRe : option Regexp;
  ca_inputContextRe : option Regexp;
}.

Record compiledAutomationSet := MkCompiledAutomationSet {
  cs_cron : list compiledAutomation;
  cs_polledEvents : list compiledAutomation;
  cs_inputRequired : list InputRequiredAutomation;
  cs_runFailed : list RunFailedAutomation;
  cs_prOpened : list PROpenedAutomation;
  cs_prMerged : list PRMergedAutomation;
  cs_trackerComments : list TrackerCommentAutomation;
  cs_rateLimited : list RateLimitedAutomation;
  cs_blockersResolved : list BlockersResolvedAutomation;
}.

#[export] Instance eta_compiledAutomationSet : Settable compiledAutomationSet := {|
  eta_record c := MkCompiledAutomationSet (cs_cron c) (cs_polledEvents c) (cs_inputRequired c) (cs_runFailed c)
    (cs_prOpened c) (cs_prMerged c) (cs_trackerComments c) (cs_rateLimited c) (cs_blockersResolved c) |}.

Definition no_rules : compiledAutomationSet := MkCompiledAutomationSet [] [] [] [] [] [] [] [] [].

Section compile.
Context (LoadLocation : string -> option Location) (Local : Location) (Compile : string -> option Regexp).

(** A regular expression that is configured must compile; [None] when it does not. *)
Definition compile_regex (s : string) : option (option Regexp) :=
  if String.eqb s "" then Some None else Some <$> Compile s.

Definition inputContextReFor (entry : AutomationConfig) : option Regexp :=
  let s := afc_InputContextRegex (ac_Filter entry) in
  if String.eqb s "" then None else Compile s.

Definition rule_of (entry : AutomationConfig) (identifierRe : option Regexp) : Rule :=
  let f := ac_Filter entry in
  MkRule (ac_ID entry) (ac_Profile entry) (ac_Instructions entry) (afc_MatchMode f) (afc_States f) (afc_LabelsAny f) identifierRe.

Definition compile_cron (entry : AutomationConfig) (identifierRe : option Regexp) (c : compiledAutomationSet) :
    compiledAutomationSet :=
  match Parse (atc_Cron (ac_Trigger entry)) with
  | inl _ => c
  | inr expr =>
      let tz := atc_Timezone (ac_Trigger entry) in
      match (if String.eqb tz "" then Some Local else LoadLocation tz) with
      | None => c
      | Some location =>
          c <| cs_cron := cs_cron c ++ [MkCompiledAutomation entry (Some expr) location identifierRe None] |>
      end
  end.

Definition compile_input_required (entry : AutomationConfig) (identifierRe : option Regexp) (c : compiledAutomationSet) :
    compiledAutomationSet :=
  match compile_regex (afc_InputContextRegex (ac_Filter entry)) with
  | None => c
  | Some inputContextRe =>
      c <| cs_inputRequired := cs_inputRequired c ++
             [MkInputRequiredAutomation (rule_of entry identifierRe) inputContextRe (apc_AutoResume (ac_Policy entry))
                (mul64 (afc_MaxAgeMinutes (ac_Filter entry)) Minute)] |>
  end.

(** A rule on comments is also registered for its body filter, without the
    expression when that does not compile. *)
Definition compile_polled (entry : AutomationConfig) (identifierRe : option Regexp) (c : compiledAutomationSet) :
    compiledAutomationSet :=
  let c := c <| cs_polledEvents := cs_polledEvents c ++
                  [MkCompiledAutomation entry None Local identifierRe (inputContextReFor entry)] |> in
  if String.eqb (atc_Type (ac_Trigger entry)) AutomationTriggerTrackerComment then
    c <| cs_trackerComments := cs_trackerComments c ++
           [MkTrackerCommentAutomation (rule_of entry identifierRe) (afc_BodyContains (ac_Filter entry))
              (default None (compile_regex (afc_BodyRegex (ac_Filter entry))))] |>
  else c.

Definition compile_rate_limited (profiles : gmap string AgentProfile) (entry : AutomationConfig)
    (identifierRe : option Regexp) (c : compiledAutomationSet) : compiledAutomationSet :=
  let p := ac_Policy entry in
  match profiles !! apc_SwitchToProfile p with
  | None => c
  | Some switchProfile =>
      if negb (ProfileEnabled switchProfile) then c
      else
        let cooldown := mul64 (apc_CooldownMinutes p) Minute in
        let cooldown := if cooldown =? 0 then 30 * Minute else cooldown in
        c <| cs_rateLimited := cs_rateLimited c ++
               [MkRateLimitedAutomation (rule_of entry identifierRe) (apc_AutoResume p) (apc_SwitchToProfile p)
                  (apc_SwitchToBackend p) cooldown] |>
  end.

Definition compile_entry (profiles : gmap string AgentProfile) (c : compiledAutomationSet) (entry : AutomationConfig) :
    compiledAutomationSet :=
  if negb (ac_Enabled entry) then c
  else
    match profiles !! ac_Profile entry with
    | None => c
    | Some profile =>
        if negb (ProfileEnabled profile) then c
        else
          match compile_regex (afc_IdentifierRegex (ac_Filter entry)) with
          | None => c
          | Some re =>
              let type := atc_Type (ac_Trigger entry) in
              let r := rule_of entry re in
              if String.eqb type AutomationTriggerCron then compile_cron entry re c
              else if String.eqb type AutomationTriggerInputRequired then compile_input_required entry re c
              else if String.eqb type AutomationTriggerTrackerComment || String.eqb type AutomationTriggerIssueEnteredState
                      || String.eqb type AutomationTriggerIssueMovedBacklog then compile_polled entry re c
              else if String.eqb type AutomationTriggerRunFailed then c <| cs_runFailed := cs_runFailed c ++ [r] |>
              else if String.eqb type AutomationTriggerPROpened then c <| cs_prOpened := cs_prOpened c ++ [r] |>
              else if String.eqb type AutomationTriggerPRMerged then c <| cs_prMerged := cs_prMerged c ++ [r] |>
              else if String.eqb type AutomationTriggerRateLimited then compile_rate_limited profiles entry re c
              else if String.eqb type AutomationTriggerBlockersResolved then
                c <| cs_blockersResolved := cs_blockersResolved c ++
                       [MkBlockersResolvedAutomation r (apc_MoveToState (ac_Policy entry))] |>
              else c
          end
    end.

Definition compileAutomations (profiles : gmap string AgentProfile) (automations : list AutomationConfig) :
    compiledAutomationSet := foldl (compile_entry profiles) no_rules automations.

(** The counts of the summary: registered and dropped. *)
Definition logAutomationCompileSummary (total : Z) (c : compiledAutomationSet) : Z * Z :=
  let registered := Z.of_nat (length (cs_cron c) + length (cs_polledEvents c) + length (cs_inputRequired c)
    + length (cs_runFailed c) + length (cs_prOpened c) + length (cs_rateLimited c) + length (cs_blockersResolved c)) in
  (registered, total - registered).

End compile.

(** ** One tick of the watch *)

Inductive SnapPoint := AtCronGate (id : string) | AtCron (id : string) | AtPollGate | AtPoll | AtReplay.

(** What a tick reads: the clock, the settings, the published state at each
    point that looks at it, the tracker ([None] is an error), and whether the
    loop takes an event before the tick's time is up. *)
Record ProducerEnv := MkProducerEnv {
  pe_now : Time;
  pe_cfg : Config;
  pe_profiles : gmap string AgentProfile;
  pe_automations : list AutomationConfig;
  pe_states : list string * list string * string;
  pe_snap : SnapPoint -> State;
  pe_by_states : string -> list string -> option (list Issue);
  pe_detail : string -> FetchOutcome;
  pe_by_identifier : string -> FetchOutcome;
  pe_batch : option (list string -> option (list Issue));
  pe_accepts : Issue -> AutomationDispatch -> bool;
}.

Inductive ProducerEffect :=
  | FetchedStates (states : list string)
  | FetchedDetail (id : string)
  | FetchedIdentifier (identifier : string)
  | FetchedBatch (ids : list string)
  | Sent (issue : Issue) (d : AutomationDispatch)
  | NotSent (issue : Issue) (d : AutomationDispatch).

(** The event is taken, or the time runs out. *)
Definition DispatchAutomation (env : ProducerEnv) (issue : Issue) (d : AutomationDispatch) : bool * ProducerEffect :=
  if pe_accepts env issue d then (true, Sent issue d) else (false, NotSent issue d).

Definition automationProducersPaused (snap : State) : bool := bp_PausedProducers (QueueBackpressure snap).

Definition automationEntryMatches (issue : Issue) (entry : compiledAutomation) (inputContext : string) : bool :=
  let f := ac_Filter (ca_cfg entry) in
  MatchesAutomationFilter issue (afc_MatchMode f) (afc_States f) (afc_LabelsAny f)
    (ca_identifierRe entry) (ca_inputContextRe entry) inputContext.

Definition shouldSkipAutomatedIssue (state : State) (cfg : Config) (issue : Issue) : bool :=
  let reason := IneligibleReasonForAutomation issue state cfg in
  negb (String.eqb reason "") && negb (IsQueueableAutomationReason reason).

(** The strings that are new, in order; [key] says which are the same. *)
Fixpoint unique_by (key : string -> string) (seen : gset string) (l : list string) : list string :=
  match l with
  | [] => []
  | s :: l => if bool_decide (key s ∈ seen) then unique_by key seen l else s :: unique_by key ({[key s]} ∪ seen) l
  end.

Definition deduplicateStates (backlog active terminal : list string) (completion : string) : list string :=
  unique_by id ∅ (backlog ++ active ++ terminal ++ (if String.eqb completion "" then [] else [completion])).

Definition uniqueIssueIDs (ids : list string) : list string := unique_by id ∅ ids.

Definition limited {A} (limit : Z) (matches : list A) : list A :=
  if (0 <? limit) && (limit <? Z.of_nat (length matches)) then firstn (Z.to_nat limit) matches else matches.

Definition by_identifier : list Issue -> list Issue :=
  sort_stable (fun a b => string_less (issue_Identifier a) (issue_Identifier b)).

Definition entry_dispatch (entry : compiledAutomation) (trigger : AutomationTriggerContext) : AutomationDispatch :=
  let c := ca_cfg entry in
  MkAutomationDispatch (ac_ID c) (ac_Profile c) (ac_Instructions c) trigger (apc_AutoResume (ac_Policy c)) "" false.

(** *** Cron rules *)

Definition local_time (loc : Location) (t : Time) : Time := t + loc t * Second.

(** [localNow.Format("2006-01-02T15:04")]. *)
Definition minute_key (loc : Location) (now : Time) : string :=
  let secs := local_time loc now / Second in
  let '(y, m, d) := civil_of_days (secs / 86400) in
  let s := secs mod 86400 in
  format_width 4 y +:+ "-" +:+ format_width 2 m +:+ "-" +:+ format_width 2 d +:+ "T" +:+
  format_width 2 (s / 3600) +:+ ":" +:+ format_width 2 (s / 60 mod 60).

(** The first of January of year 1 was a Monday. *)
Definition civil_time (loc : Location) (now : Time) : CivilTime :=
  let secs := local_time loc now / Second in
  let '(_, m, d) := civil_of_days (secs / 86400) in
  let s := secs mod 86400 in
  MkCivilTime (s / 60 mod 60) (s / 3600) d m ((secs / 86400 + 1) mod 7).

Example thursday : civil_time (fun _ => 3600) unix_epoch = MkCivilTime 0 1 1 1 4.
Proof. reflexivity. Qed.

Definition cronAutomationFetchStates (cfg : Config) (entry : compiledAutomation) (activeStates : list string) : list string :=
  let f := ac_Filter (ca_cfg entry) in
  match afc_States f with
  | _ :: _ => if negb (String.eqb (afc_MatchMode f) AutomationFilterMatchAny) then afc_States f
              else deduplicateStates (tracker_BacklogStates (cfg_Tracker cfg)) activeStates (afc_States f) ""
  | [] => deduplicateStates (tracker_BacklogStates (cfg_Tracker cfg)) activeStates (afc_States f) ""
  end.

Definition cron_trigger (entry : compiledAutomation) (now : Time) (issue : Issue) : AutomationTriggerContext :=
  let c := ca_cfg entry in
  zero_AutomationTriggerContext <| trig_Type := AutomationTriggerCron |> <| trig_FiredAt := now |>
    <| trig_AutomationID := ac_ID c |> <| trig_Cron := atc_Cron (ac_Trigger c) |>
    <| trig_Timezone := atc_Timezone (ac_Trigger c) |> <| trig_CurrentState := issue_State issue |>.

Definition runCronAutomation (env : ProducerEnv) (entry : compiledAutomation) (activeStates : list string) :
    list ProducerEffect :=
  let id := ac_ID (ca_cfg entry) in
  if automationProducersPaused (pe_snap env (AtCronGate id)) then []
  else
    let snap := pe_snap env (AtCron id) in
    let states := cronAutomationFetchStates (pe_cfg env) entry activeStates in
    FetchedStates states ::
    match pe_by_states env id states with
    | None => []
    | Some issues =>
        let matches := List.filter (fun i => negb (shouldSkipAutomatedIssue snap (pe_cfg env) i)
                                             && automationEntryMatches i entry "") issues in
        let matches := limited (afc_Limit (ac_Filter (ca_cfg entry))) (by_identifier matches) in
        map (fun i => snd (DispatchAutomation env i (entry_dispatch entry (cron_trigger entry (pe_now env) i)))) matches
    end.

Definition cron_due (entry : compiledAutomation) (now : Time) (lastFired : gmap string string) : bool :=
  ac_Enabled (ca_cfg entry)
  && negb (String.eqb (default "" (lastFired !! ac_ID (ca_cfg entry))) (minute_key (ca_location entry) now))
  && match ca_expr entry with Some e => Matches e (civil_time (ca_location entry) now) | None => false end.

Definition cron_step (env : ProducerEnv) (activeStates : list string) (acc : gmap string string * list ProducerEffect)
    (entry : compiledAutomation) : gmap string string * list ProducerEffect :=
  let '(lastFired, effects) := acc in
  if cron_due entry (pe_now env) lastFired then
    (<[ac_ID (ca_cfg entry) := minute_key (ca_location entry) (pe_now env)]> lastFired,
     effects ++ runCronAutomation env entry activeStates)
  else acc.

(** Rules that are gone are forgotten. *)
Definition forget_absent (cron : list compiledAutomation) (lastFired : gmap string string) : gmap string string :=
  filter (fun kv => kv.1 ∈ map (fun e => ac_ID (ca_cfg e)) cron) lastFired.

Definition run_cron (env : ProducerEnv) (cron : list compiledAutomation) (lastFired : gmap string string) :
    gmap string string * list ProducerEffect :=
  foldl (cron_step env (pe_states env).1.1) (forget_absent cron lastFired, []) cron.

(** *** Polled events *)

Record observedAutomationIssue := MkObservedAutomationIssue {
  oi_State : string;
  oi_InBacklog : bool;
}.

Record observedAutomationComment := MkObservedAutomationComment {
  oc_LatestCommentID : string;
  oc_CommentCreatedAt : string;
}.

Record automationPollState := MkAutomationPollState {
  ap_issues : gmap string observedAutomationIssue;
  ap_trackerComments : gmap string (gmap string observedAutomationComment);
}.

Definition no_polls : automationPollState := MkAutomationPollState ∅ ∅.

Definition automationPollStates (cfg : Config) (entries : list compiledAutomation)
    (activeStates terminalStates : list string) (completionState : string) : list string :=
  let states := deduplicateStates (tracker_BacklogStates (cfg_Tracker cfg)) activeStates terminalStates completionState in
  let more := flat_map (fun e => afc_States (ac_Filter (ca_cfg e)) ++
                 (if String.eqb (atc_State (ac_Trigger (ca_cfg e))) "" then [] else [atc_State (ac_Trigger (ca_cfg e))])) entries in
  unique_by to_lower ∅ (List.filter (fun s => negb (String.eqb s "")) (states ++ more)).

Definition latestAutomationComment (comments : list Comment) : option Comment := last comments.

Definition comment_created (c : Comment) : string :=
  match comment_CreatedAt c with Some t => FormatRFC3339 t | None => "" end.

Definition observedAutomationCommentFromComment (c : Comment) : observedAutomationComment :=
  MkObservedAutomationComment (comment_ID c) (comment_created c).

Definition no_comment : observedAutomationComment := MkObservedAutomationComment "" "".

Definition nothing_observed (c : observedAutomationComment) : bool :=
  String.eqb (oc_LatestCommentID c) "" && String.eqb (oc_CommentCreatedAt c) "".

Definition hasNewAutomationComment (prev current : observedAutomationComment) : bool :=
  if nothing_observed current then false
  else if nothing_observed prev then true
  else if negb (String.eqb (oc_LatestCommentID current) "")
       then negb (equal_fold (oc_LatestCommentID prev) (oc_LatestCommentID current))
  else negb (String.eqb (oc_CommentCreatedAt current) (oc_CommentCreatedAt prev)).

Definition isAutomationManagedComment (c : Comment) : bool :=
  IsManagedComment c || has_prefix (comment_Body c) "🤖 **Agent needs your input**"
  || equal_fold (trim_space (comment_AuthorName c)) "Itervox".

Definition commentBodyMatchesFilter (body : string) (containsAny : list string) (bodyRegex : option Regexp) : bool :=
  match containsAny with
  | [] => true
  | _ => existsb (fun needle => contains (to_lower body) (to_lower needle)) containsAny
  end
  && match bodyRegex with Some r => r body | None => true end.

Definition FilterTrackerCommentAutomationsByBody (rules : list TrackerCommentAutomation) (body : string) :
    list TrackerCommentAutomation :=
  List.filter (fun r => commentBodyMatchesFilter body (tca_BodyContainsAny r) (tca_BodyRegex r)) rules.

(** A rule with a body filter asks the registered rules of its id. *)
Definition body_admits (rules : list TrackerCommentAutomation) (entry : compiledAutomation) (body : string) : bool :=
  let f := ac_Filter (ca_cfg entry) in
  match afc_BodyContains f with [] => String.eqb (afc_BodyRegex f) "" | _ => false end
  || existsb (fun r => String.eqb (rule_ID (tca_rule r)) (ac_ID (ca_cfg entry))) (FilterTrackerCommentAutomationsByBody rules body).

(** A pass of one rule over the issues: the details fetched in this tick, the
    comments seen, the matches and the requests. *)
Record EntryPass := MkEntryPass {
  ep_cache : gmap string (option Issue);
  ep_comments : gmap string observedAutomationComment;
  ep_matches : list (Issue * AutomationTriggerContext);
  ep_effects : list ProducerEffect;
}.

#[export] Instance eta_EntryPass : Settable EntryPass := {|
  eta_record p := MkEntryPass (ep_cache p) (ep_comments p) (ep_matches p) (ep_effects p) |}.

Definition add_match (issue : Issue) (t : AutomationTriggerContext) (p : EntryPass) : EntryPass :=
  p <| ep_matches := ep_matches p ++ [(issue, t)] |>.

Definition getDetail (env : ProducerEnv) (issue : Issue) (p : EntryPass) : option Issue * EntryPass :=
  match ep_cache p !! issue_ID issue with
  | Some detailed => (detailed, p)
  | None =>
      let detailed := match pe_detail env (issue_ID issue) with Fetched i => Some i | _ => None end in
      (detailed, p <| ep_cache := <[issue_ID issue := detailed]> (ep_cache p) |>
                   <| ep_effects := ep_effects p ++ [FetchedDetail (issue_ID issue)] |>)
  end.

Definition in_backlog (cfg : Config) (state : string) : bool :=
  existsb (fun s => equal_fold s state) (tracker_BacklogStates (cfg_Tracker cfg)).

Definition poll_trigger (entry : compiledAutomation) (now : Time) (type : string) (issue : Issue) : AutomationTriggerContext :=
  zero_AutomationTriggerContext <| trig_Type := type |> <| trig_FiredAt := now |>
    <| trig_AutomationID := ac_ID (ca_cfg entry) |> <| trig_CurrentState := issue_State issue |>.

Definition comment_trigger (entry : compiledAutomation) (now : Time) (issue : Issue) (c : Comment) : AutomationTriggerContext :=
  poll_trigger entry now AutomationTriggerTrackerComment issue
    <| trig_CommentID := comment_ID c |> <| trig_CommentBody := comment_Body c |>
    <| trig_CommentAuthorID := comment_AuthorID c |> <| trig_CommentAuthorName := comment_AuthorName c |>
    <| trig_CommentCreatedAt := comment_created c |>.

Definition poll_comment (env : ProducerEnv) (rules : list TrackerCommentAutomation) (entry : compiledAutomation)
    (prevComments : gmap string observedAutomationComment) (issue : Issue) (p : EntryPass) : EntryPass :=
  if negb (automationEntryMatches issue entry "") then p
  else
    let '(detailed, p) := getDetail env issue p in
    match detailed with
    | None => p
    | Some detailed =>
        let latest := latestAutomationComment (issue_Comments detailed) in
        let snapshot := match latest with Some c => observedAutomationCommentFromComment c | None => no_comment end in
        let p := p <| ep_comments := <[issue_ID issue := snapshot]> (ep_comments p) |> in
        match prevComments !! issue_ID issue, latest with
        | Some prevComment, Some c =>
            if hasNewAutomationComment prevComment snapshot && negb (isAutomationManagedComment c)
               && body_admits rules entry (comment_Body c)
            then add_match issue (comment_trigger entry (pe_now env) issue c) p else p
        | _, _ => p
        end
    end.

Definition poll_issue (env : ProducerEnv) (rules : list TrackerCommentAutomation) (prev : automationPollState)
    (entry : compiledAutomation) (p : EntryPass) (issue : Issue) : EntryPass :=
  let c := ca_cfg entry in
  let type := atc_Type (ac_Trigger c) in
  if shouldSkipAutomatedIssue (pe_snap env AtPoll) (pe_cfg env) issue then p
  else
    match ap_issues prev !! issue_ID issue with
    | None => p
    | Some prevIssue =>
        if String.eqb type AutomationTriggerIssueEnteredState then
          if equal_fold (oi_State prevIssue) (issue_State issue)
             || negb (equal_fold (issue_State issue) (atc_State (ac_Trigger c))) then p
          else if negb (automationEntryMatches issue entry "") then p
          else add_match issue (poll_trigger entry (pe_now env) type issue
                 <| trig_TriggerState := atc_State (ac_Trigger c) |> <| trig_PreviousState := oi_State prevIssue |>) p
        else if String.eqb type AutomationTriggerIssueMovedBacklog then
          if oi_InBacklog prevIssue || negb (in_backlog (pe_cfg env) (issue_State issue)) then p
          else if negb (automationEntryMatches issue entry "") then p
          else add_match issue (poll_trigger entry (pe_now env) type issue <| trig_PreviousState := oi_State prevIssue |>) p
        else if String.eqb type AutomationTriggerTrackerComment then
          poll_comment env rules entry (default ∅ (ap_trackerComments prev !! ac_ID c)) issue p
        else p
    end.

(** The state after the rules so far, the details and the effects. *)
Record PollPass := MkPollPass {
  pp_cache : gmap string (option Issue);
  pp_comments : gmap string (gmap string observedAutomationComment);
  pp_effects : list ProducerEffect;
}.

Definition poll_entry (env : ProducerEnv) (rules : list TrackerCommentAutomation) (prev : automationPollState)
    (issues : list Issue) (acc : PollPass) (entry : compiledAutomation) : PollPass :=
  let p := foldl (poll_issue env rules prev entry) (MkEntryPass (pp_cache acc) ∅ [] []) issues in
  let matches := limited (afc_Limit (ac_Filter (ca_cfg entry))) (ep_matches p) in
  MkPollPass (ep_cache p)
    (if String.eqb (atc_Type (ac_Trigger (ca_cfg entry))) AutomationTriggerTrackerComment
     then <[ac_ID (ca_cfg entry) := ep_comments p]> (pp_comments acc) else pp_comments acc)
    (pp_effects acc ++ ep_effects p ++
     map (fun m => snd (DispatchAutomation env m.1 (entry_dispatch entry m.2))) matches).

Definition observed_issues (cfg : Config) (issues : list Issue) : gmap string observedAutomationIssue :=
  foldl (fun m i => <[issue_ID i := MkObservedAutomationIssue (issue_State i) (in_backlog cfg (issue_State i))]> m) ∅ issues.

Definition pollAutomationEvents (env : ProducerEnv) (rules : list TrackerCommentAutomation)
    (entries : list compiledAutomation) (prev : automationPollState) : automationPollState * list ProducerEffect :=
  if automationProducersPaused (pe_snap env AtPollGate) then (prev, [])
  else
    let '(activeStates, terminalStates, completionState) := pe_states env in
    let states := automationPollStates (pe_cfg env) entries activeStates terminalStates completionState in
    match states with
    | [] => (prev, [])
    | _ =>
        match pe_by_states env "" states with
        | None => (prev, [FetchedStates states])
        | Some issues =>
            let issues := by_identifier issues in
            let acc := foldl (poll_entry env rules prev issues) (MkPollPass ∅ ∅ [FetchedStates states]) entries in
            (MkAutomationPollState (observed_issues (pe_cfg env) issues) (pp_comments acc), pp_effects acc)
        end
    end.

(** *** Rules added while a question waits *)

Definition inputRequiredDetailTTL : Duration := 60 * Second.

Record inputRequiredDetailCacheEntry := MkInputRequiredDetailCacheEntry {
  dc_issue : option Issue;
  dc_blockedKey : string;
  dc_fetchedAt : Time;
}.

Record inputRequiredReplayIssueState := MkInputRequiredReplayIssueState {
  ri_blockedKey : string;
  ri_fired : gset string;
}.

Record inputRequiredReplayState := MkInputRequiredReplayState {
  rr_initialized : bool;
  rr_issues : gmap string inputRequiredReplayIssueState;
  rr_details : gmap string inputRequiredDetailCacheEntry;
}.

#[export] Instance eta_inputRequiredReplayState : Settable inputRequiredReplayState := {|
  eta_record r := MkInputRequiredReplayState (rr_initialized r) (rr_issues r) (rr_details r) |}.

(** [time.RFC3339Nano]: the fraction without its trailing zeros. *)
Definition FormatRFC3339Nano (t : Time) : string :=
  let nanos := t mod Second in
  default "" (cut_suffix (FormatRFC3339 t) "Z")
  +:+ (if nanos =? 0 then "" else "." +:+ trim_right_byte "0"%char (last_digits 9 nanos)) +:+ "Z".

Definition inputRequiredReplayKey (e : InputRequiredEntry) : string :=
  if negb (String.eqb (ir_QuestionCommentKey e) "") then "comment-key:" +:+ ir_QuestionCommentKey e
  else if negb (String.eqb (ir_QuestionCommentID e) "") then "comment:" +:+ ir_QuestionCommentID e
  else if negb (time_is_zero (ir_QueuedAt e)) then "queued:" +:+ FormatRFC3339Nano (ir_QueuedAt e)
  else "context:" +:+ ir_IssueID e +:+ ":" +:+ ir_Context e.

(** [tracker.PrefetchDetails]: one id is not a batch. *)
Definition PrefetchDetails (env : ProducerEnv) (ids : list string) : gmap string Issue * list ProducerEffect :=
  if (length ids <? 2)%nat then (∅, [])
  else
    match pe_batch env with
    | None => (∅, [])
    | Some batch =>
        (match batch ids with
         | Some issues => foldl (fun m i => <[issue_ID i := i]> m) ∅ issues
         | None => ∅
         end, [FetchedBatch ids])
    end.

Definition replayDetailCached (prev next : gmap string inputRequiredDetailCacheEntry) (issueID blockedKey : string)
    (now : Time) : option (option Issue) :=
  match next !! issueID with
  | Some cached => Some (dc_issue cached)
  | None =>
      match prev !! issueID with
      | Some cached =>
          if bool_decide (is_Some (dc_issue cached)) && String.eqb (dc_blockedKey cached) blockedKey
             && (time_sub now (dc_fetchedAt cached) <? inputRequiredDetailTTL)
          then Some (dc_issue cached) else None
      | None => None
      end
  end.

(** The issue, the cache of this tick and the requests. *)
Definition replayInputRequiredIssueDetail (env : ProducerEnv) (prev next : gmap string inputRequiredDetailCacheEntry)
    (e : InputRequiredEntry) (blockedKey : string) :
    option Issue * gmap string inputRequiredDetailCacheEntry * list ProducerEffect :=
  let now := pe_now env in
  if negb (String.eqb (ir_IssueID e) "") then
    match replayDetailCached prev next (ir_IssueID e) blockedKey now with
    | Some cached =>
        (cached, match next !! ir_IssueID e, prev !! ir_IssueID e with
                 | None, Some entry => <[ir_IssueID e := entry]> next
                 | _, _ => next
                 end, [])
    | None =>
        let issue := match pe_detail env (ir_IssueID e) with Fetched i => Some i | _ => None end in
        (issue, <[ir_IssueID e := MkInputRequiredDetailCacheEntry issue blockedKey now]> next, [FetchedDetail (ir_IssueID e)])
    end
  else if String.eqb (ir_Identifier e) "" then (None, next, [])
  else (match pe_by_identifier env (ir_Identifier e) with Fetched i => Some i | _ => None end, next,
        [FetchedIdentifier (ir_Identifier e)]).

Definition hasPendingReplayAutomation (automations : list InputRequiredAutomation) (fired : gset string) : bool :=
  existsb (fun a => negb (bool_decide (rule_ID (ira_rule a) ∈ fired))) automations.

Definition replayInputRequiredDispatch (e : InputRequiredEntry) (a : InputRequiredAutomation) (now : Time) : AutomationDispatch :=
  let r := ira_rule a in
  MkAutomationDispatch (rule_ID r) (rule_ProfileName r) (rule_Instructions r)
    (zero_AutomationTriggerContext <| trig_Type := AutomationTriggerInputRequired |> <| trig_FiredAt := now |>
       <| trig_AutomationID := rule_ID r |> <| trig_InputContext := ir_Context e |>
       <| trig_BlockedProfile := ir_ProfileName e |> <| trig_BlockedBackend := ir_Backend e |>) (ira_AutoResume a) "" false.

(** One rule on one question. *)
Definition replay_rule (env : ProducerEnv) (e : InputRequiredEntry) (issue : Issue)
    (acc : gset string * list ProducerEffect) (a : InputRequiredAutomation) : gset string * list ProducerEffect :=
  let '(fired, effects) := acc in
  let id := rule_ID (ira_rule a) in
  if bool_decide (id ∈ fired) then acc
  else if negb (matches_rule issue (ira_rule a) (ira_InputContextRegex a) (ir_Context e)) then acc
  else
    let '(ok, effect) := DispatchAutomation env issue (replayInputRequiredDispatch e a (pe_now env)) in
    (if ok then {[id]} ∪ fired else fired, effects ++ [effect]).

(** One question: what has fired for it is known from the last tick if it is
    the same question; a new one was the loop's to answer. *)
Definition replay_entry (env : ProducerEnv) (automations : list InputRequiredAutomation) (active : gset string)
    (prev : inputRequiredReplayState) (acc : inputRequiredReplayState * list ProducerEffect)
    (kv : string * InputRequiredEntry) : inputRequiredReplayState * list ProducerEffect :=
  let '(next, effects) := acc in
  let '(identifier, e) := kv in
  let key := inputRequiredReplayKey e in
  let store fired details := next <| rr_issues := <[identifier := MkInputRequiredReplayIssueState key fired]> (rr_issues next) |>
                                  <| rr_details := details |> in
  let known := match rr_issues prev !! identifier with
               | Some i => if String.eqb (ri_blockedKey i) key then Some (ri_fired i ∩ active) else None
               | None => None
               end in
  match known, rr_initialized prev with
  | None, true => (store active (rr_details next), effects)
  | _, _ =>
      let fired := default ∅ known in
      if negb (hasPendingReplayAutomation automations fired) then (store fired (rr_details next), effects)
      else
        let '(issue, details, requests) := replayInputRequiredIssueDetail env (rr_details prev) (rr_details next) e key in
        match issue with
        | None => (store fired details, effects ++ requests)
        | Some issue =>
            let '(fired, sent) := foldl (replay_rule env e issue) (fired, []) automations in
            (store fired details, effects ++ requests ++ sent)
        end
  end.

Definition sorted_entries (m : gmap string InputRequiredEntry) : list (string * InputRequiredEntry) :=
  omap (fun i => e ← m !! i; Some (i, e)) (sort_strings (map fst (map_to_list m))).

(** The batch asks for what no cache answers. *)
Definition replay_prefetch (env : ProducerEnv) (prev : inputRequiredReplayState) (entries : list (string * InputRequiredEntry)) :
    gmap string inputRequiredDetailCacheEntry * list ProducerEffect :=
  let ids := omap (fun kv : string * InputRequiredEntry =>
    let e := kv.2 in
    if String.eqb (ir_IssueID e) "" then None
    else match replayDetailCached (rr_details prev) ∅ (ir_IssueID e) (inputRequiredReplayKey e) (pe_now env) with
         | Some _ => None
         | None => Some (ir_IssueID e)
         end) entries in
  let '(prefetched, requests) := PrefetchDetails env (uniqueIssueIDs ids) in
  (foldl (fun next (kv : string * InputRequiredEntry) =>
     let e := kv.2 in
     if String.eqb (ir_IssueID e) "" then next
     else match prefetched !! ir_IssueID e with
          | Some issue => <[ir_IssueID e := MkInputRequiredDetailCacheEntry (Some issue) (inputRequiredReplayKey e) (pe_now env)]> next
          | None => next
          end) ∅ entries, requests).

Definition replayInputRequiredAutomations (env : ProducerEnv) (automations : list InputRequiredAutomation)
    (prev : inputRequiredReplayState) : inputRequiredReplayState * list ProducerEffect :=
  let snap := pe_snap env AtReplay in
  if automationProducersPaused snap then (prev, [])
  else
    let entries := sorted_entries (InputRequiredIssues snap) in
    let active : gset string := list_to_set (map (fun a => rule_ID (ira_rule a)) automations) in
    let '(details, requests) := match automations with [] => (∅, []) | _ => replay_prefetch env prev entries end in
    foldl (replay_entry env automations active prev) (MkInputRequiredReplayState true ∅ details, requests) entries.

(** ** The watch *)

Record Watch := MkWatch {
  wt_lastFired : gmap string string;
  wt_poll : automationPollState;
  wt_replay : inputRequiredReplayState;
}.

Definition startAutomations : Watch := MkWatch ∅ no_polls (MkInputRequiredReplayState true ∅ ∅).

Section watch.
Context (LoadLocation : string -> option Location) (Local : Location) (Compile : string -> option Regexp).

(** One tick: the rules the loop gets, what the watch remembers, and what it
    did: replays, then cron rules, then the poll if there is a rule for it. *)
Definition runOnce (env : ProducerEnv) (w : Watch) : compiledAutomationSet * Watch * list ProducerEffect :=
  let compiled := compileAutomations LoadLocation Local Compile (pe_profiles env) (pe_automations env) in
  let '(replay, e1) := replayInputRequiredAutomations env (cs_inputRequired compiled) (wt_replay w) in
  let '(lastFired, e2) := run_cron env (cs_cron compiled) (wt_lastFired w) in
  let '(poll, e3) := match cs_polledEvents compiled with
                     | [] => (wt_poll w, [])
                     | entries => pollAutomationEvents env (cs_trackerComments compiled) entries (wt_poll w)
                     end in
  (compiled, MkWatch lastFired poll replay, e1 ++ e2 ++ e3).

End watch.

(** ** Other senders *)

(** The rules on a pull request that was opened (from the worker) or merged
    (from the dashboard's merge): the first event that is not taken in time ends
    the loop. *)
Fixpoint dispatch_pr_rules (accepts : Issue -> AutomationDispatch -> bool) (issue : Issue)
    (trigger : Rule -> AutomationTriggerContext) (rules : list Rule) : list ProducerEffect :=
  match rules with
  | [] => []
  | r :: rules =>
      if negb (matches_rule issue r None "") then dispatch_pr_rules accepts issue trigger rules
      else
        let d := MkAutomationDispatch (rule_ID r) (rule_ProfileName r) (rule_Instructions r) (trigger r) false "" false in
        if accepts issue d then Sent issue d :: dispatch_pr_rules accepts issue trigger rules else [NotSent issue d]
  end.

Definition DispatchPROpenedAutomations (accepts : Issue -> AutomationDispatch -> bool) (rules : list PROpenedAutomation)
    (issue : Issue) (prURL prBranch baseBranch : string) (now : Time) : list ProducerEffect :=
  dispatch_pr_rules accepts issue (fun r =>
    fired AutomationTriggerPROpened issue r now <| trig_PRURL := prURL |> <| trig_PRBranch := prBranch |>
      <| trig_PRBaseBranch := baseBranch |>) rules.

Record PRMergedEvent := MkPRMergedEvent {
  pm_PRURL : string;
  pm_PRNumber : Z;
  pm_Branch : string;
  pm_BaseRef : string;
  pm_MergedSHA : string;
  pm_MergedAt : Time;
}.

Definition DispatchPRMergedAutomations (accepts : Issue -> AutomationDispatch -> bool) (rules : list PRMergedAutomation)
    (issue : Issue) (event : PRMergedEvent) (now : Time) : list ProducerEffect :=
  dispatch_pr_rules accepts issue (fun r =>
    fired AutomationTriggerPRMerged issue r now <| trig_PRURL := pm_PRURL event |> <| trig_PRNumber := pm_PRNumber event |>
      <| trig_PRBranch := pm_Branch event |> <| trig_PRBaseBranch := pm_BaseRef event |>
      <| trig_MergedSHA := pm_MergedSHA event |> <| trig_MergedAt := pm_MergedAt event |>) rules.

Inductive TestError := InvalidTestAutomation | AutomationNotFound | AutomationQueueFull.

(** A rule tried by hand; [candidates] is [None] when the tracker cannot be
    asked. *)
Definition TestAutomation (accepts : Issue -> AutomationDispatch -> bool) (automations : list AutomationConfig)
    (candidates : option (list Issue)) (now : Time) (automationID identifier : string) :
    option TestError * list ProducerEffect :=
  if String.eqb automationID "" || String.eqb identifier "" then (Some InvalidTestAutomation, [])
  else
    match find (fun a => String.eqb (ac_ID a) automationID) automations with
    | None => (Some AutomationNotFound, [])
    | Some rule =>
        let bare := zero_Issue <| issue_ID := identifier |> <| issue_Identifier := identifier |> in
        let issue := default bare (find (fun i => String.eqb (issue_Identifier i) identifier) (default [] candidates)) in
        let d := MkAutomationDispatch (ac_ID rule) (ac_Profile rule) (ac_Instructions rule)
                   (zero_AutomationTriggerContext <| trig_Type := TestAutomationTriggerType |> <| trig_FiredAt := now |>
                      <| trig_AutomationID := ac_ID rule |>) false "" false in
        if accepts issue d then (None, [Sent issue d]) else (Some AutomationQueueFull, [NotSent issue d])
    end.

(** ** Cron: once a minute *)

Definition minute_of (loc : Location) (now : Time) : Z := local_time loc now / Minute.

Lemma minute_parts loc now : let secs := local_time loc now / Second in
  secs / 60 = minute_of loc now /\ secs / 86400 = minute_of loc now / 1440 /\
  (secs mod 86400) / 3600 = minute_of loc now mod 1440 / 60 /\ (secs mod 86400) / 60 mod 60 = minute_of loc now mod 60.
Proof.
  intros secs.
  assert (E : secs / 60 = minute_of loc now) by (unfold minute_of, secs; rewrite Z.div_div by done; done).
  split; [done|]. rewrite <- E. clearbody secs. clear. split_and!; Z.to_euclidean_division_equations; lia.
Qed.

(** What a rule matches, and the key of the minute, are a matter of the minute. *)
Lemma civil_by_minute loc loc' now now' : minute_of loc now = minute_of loc' now' -> civil_time loc now = civil_time loc' now'.
Proof.
  intros E. destruct (minute_parts loc now) as (_ & H2 & H3 & H4), (minute_parts loc' now') as (_ & H2' & H3' & H4').
  unfold civil_time. cbn zeta in *. rewrite H2, H3, H4, H2', H3', H4', E. done.
Qed.

Lemma key_by_minute loc loc' now now' : minute_of loc now = minute_of loc' now' -> minute_key loc now = minute_key loc' now'.
Proof.
  intros E. destruct (minute_parts loc now) as (_ & H2 & H3 & H4), (minute_parts loc' now') as (_ & H2' & H3' & H4').
  unfold minute_key. cbn zeta in *. rewrite H2, H3, H4, H2', H3', H4', E. done.
Qed.

Lemma cmp_then_eq a b : cmp_then a b = Eq <-> a = Eq /\ b = Eq.
Proof. destruct a; cbn; naive_solver. Qed.

(** The local time is in the years that have four digits. *)
Definition local_ok (loc : Location) (now : Time) : Prop := 0 <= local_time loc now < year_10000.

Lemma key_is_minute loc now now' : local_ok loc now -> local_ok loc now' ->
  minute_key loc now = minute_key loc now' -> minute_of loc now = minute_of loc now'.
Proof.
  intros Ht Ht' Ek. destruct (minute_parts loc now) as (_ & H2 & H3 & H4), (minute_parts loc now') as (_ & H2' & H3' & H4').
  unfold minute_key in Ek. cbn zeta in *. rewrite H2, H3, H4, H2', H3', H4' in Ek.
  set (m := minute_of loc now) in *. set (m' := minute_of loc now') in *.
  assert (Hm : forall u, local_ok loc u -> 0 <= minute_of loc u / 1440 < 3652059).
  { unfold local_ok, year_10000, minute_of. intros u Hu. rewrite Z.div_div by done.
    change (Minute * 1440) with (86400 * Second). assert (0 < Second) by done.
    split; [apply Z.div_pos; lia|apply Z.div_lt_upper_bound; lia]. }
  pose proof (civil_of_days_ok _ (Hm _ Ht)) as Hc. pose proof (civil_of_days_ok _ (Hm _ Ht')) as Hc'. fold m in Hc. fold m' in Hc'.
  destruct (civil_of_days (m / 1440)) as [[Y mo] d], (civil_of_days (m' / 1440)) as [[Y' mo'] d'].
  destruct Hc as ([H1 Hd] & Hn & HY), Hc' as ([H1' Hd'] & Hn' & HY').
  pose proof (month_days mo Y). pose proof (month_days mo' Y'). clearbody m m'.
  assert (Hb : 0 <= m mod 1440 / 60 < 100 /\ 0 <= m mod 60 < 100) by (Z.to_euclidean_division_equations; lia).
  assert (Hb' : 0 <= m' mod 1440 / 60 < 100 /\ 0 <= m' mod 60 < 100) by (Z.to_euclidean_division_equations; lia).
  assert (E : forall a b : string, a = b -> String.compare a b = Eq) by (intros a b ->; apply (cmp_refl String.compare)).
  apply E in Ek. rewrite <- (append_nil_r (format_width 2 (m mod 60))), <- (append_nil_r (format_width 2 (m' mod 60))) in Ek.
  rewrite !append_cons_l, !append_nil_l in Ek.
  assert (Hw : 10 ^ Z.of_nat 2 = 100) by done.
  rewrite compare_width, compare_same in Ek by done. do 3 rewrite compare_width, compare_same in Ek by lia.
  rewrite compare_width in Ek by lia.
  apply cmp_then_eq in Ek as [E1%Z.compare_eq Ek]. apply cmp_then_eq in Ek as [E2%Z.compare_eq Ek].
  apply cmp_then_eq in Ek as [E3%Z.compare_eq Ek]. apply cmp_then_eq in Ek as [E4%Z.compare_eq Ek].
  apply cmp_then_eq in Ek as [E5%Z.compare_eq _].
  assert (E6 : m / 1440 = m' / 1440) by (rewrite <- Hn, <- Hn'; by subst).
  clear -E4 E5 E6. Z.to_euclidean_division_equations. lia.
Qed.

(** Whether a rule names the minute of [now]. *)
Definition names_minute (e : compiledAutomation) (now : Time) : bool :=
  ac_Enabled (ca_cfg e) && match ca_expr e with Some x => Matches x (civil_time (ca_location e) now) | None => false end.

Definition same_minute (e : compiledAutomation) (t now : Time) : bool := minute_of (ca_location e) t =? minute_of (ca_location e) now.

Definition rule_id (e : compiledAutomation) : string := ac_ID (ca_cfg e).

(** One tick of the cron rules, as a whole. *)
Lemma cron_steps env active cron lastFired effects : NoDup (map rule_id cron) ->
  let r := foldl (cron_step env active) (lastFired, effects) cron in
  snd r = effects ++ flat_map (fun e => if cron_due e (pe_now env) lastFired then runCronAutomation env e active else []) cron /\
  (forall e, e ∈ cron -> fst r !! rule_id e =
     if cron_due e (pe_now env) lastFired then Some (minute_key (ca_location e) (pe_now env)) else lastFired !! rule_id e) /\
  (forall id, id ∉ map rule_id cron -> fst r !! id = lastFired !! id).
Proof.
  revert lastFired effects. induction cron as [|e cron IH]; intros lastFired effects Hnd; cbn [foldl map flat_map].
  { split_and!; [by rewrite app_nil_r|by intros e ?%not_elem_of_nil|done]. }
  apply NoDup_cons in Hnd as [Hn Hnd]. cbn [cron_step].
  set (lf := if cron_due e (pe_now env) lastFired then <[rule_id e := minute_key (ca_location e) (pe_now env)]> lastFired else lastFired).
  assert (Hlf : forall id, id <> rule_id e -> lf !! id = lastFired !! id).
  { intros id Hid. subst lf. destruct (cron_due e _ _); [by rewrite lookup_insert_ne|done]. }
  assert (Hdue : forall e', e' ∈ cron -> cron_due e' (pe_now env) lf = cron_due e' (pe_now env) lastFired).
  { intros e' He'. unfold cron_due. change (ac_ID (ca_cfg e')) with (rule_id e'). rewrite Hlf; [done|].
    intros E. apply Hn. rewrite <- E. by apply elem_of_map_intro. }
  assert (Hs : cron_step env active (lastFired, effects) e =
    (lf, effects ++ if cron_due e (pe_now env) lastFired then runCronAutomation env e active else [])).
  { subst lf. unfold cron_step. destruct (cron_due e _ _); [done|by rewrite app_nil_r]. }
  unfold cron_step in Hs. rewrite Hs.
  destruct (IH lf (effects ++ if cron_due e (pe_now env) lastFired then runCronAutomation env e active else []) Hnd) as (H1 & H2 & H3).
  split_and!.
  - rewrite H1, <- app_assoc. do 2 f_equal. clear -Hdue. induction cron as [|e' l IHl]; [done|]. cbn.
    rewrite Hdue by (by left). rewrite IHl; [done|]. intros x Hx. apply Hdue. by right.
  - intros e' [->|He']%elem_of_cons.
    + rewrite H3 by done. subst lf. destruct (cron_due e _ _); [by rewrite lookup_insert_eq|done].
    + rewrite H2, Hdue by done. destruct (cron_due e' _ _); [done|]. apply Hlf. intros E. apply Hn. rewrite <- E.
      by apply elem_of_map_intro.
  - intros id [Hid Hc]%not_elem_of_cons. rewrite H3 by done. by apply Hlf.
Qed.

Definition cron_after (cron : list compiledAutomation) (envs : list ProducerEnv) : gmap string string :=
  foldl (fun lastFired env => fst (run_cron env cron lastFired)) ∅ envs.

(** The clock of each rule's zone does not go back, and shows four-digit years. *)
Definition clocks_ok (cron : list compiledAutomation) (envs : list ProducerEnv) : Prop :=
  forall e, e ∈ cron ->
    StronglySorted (fun a b => minute_of (ca_location e) (pe_now a) <= minute_of (ca_location e) (pe_now b)) envs /\
    (forall v, v ∈ envs -> local_ok (ca_location e) (pe_now v)).

(** What is remembered of a rule: the last minute it named. *)
Definition remembered (e : compiledAutomation) (envs : list ProducerEnv) (key : option string) : Prop :=
  match key with
  | None => forall v, v ∈ envs -> names_minute e (pe_now v) = false
  | Some k => exists v, v ∈ envs /\ names_minute e (pe_now v) = true /\ k = minute_key (ca_location e) (pe_now v) /\
      forall u, u ∈ envs -> names_minute e (pe_now u) = true ->
        minute_of (ca_location e) (pe_now u) <= minute_of (ca_location e) (pe_now v)
  end.

Lemma forget_present cron lastFired e : e ∈ cron -> forget_absent cron lastFired !! rule_id e = lastFired !! rule_id e.
Proof.
  intros He. unfold forget_absent. destruct (lastFired !! rule_id e) as [k|] eqn:E.
  - apply map_lookup_filter_Some. split; [done|]. cbn. by apply (elem_of_map_intro rule_id).
  - by apply map_lookup_filter_None; left.
Qed.

Lemma key_nonempty loc now : minute_key loc now <> "".
Proof.
  unfold minute_key. cbn zeta. destruct (civil_of_days _) as [[y m] d]. intros H. apply (f_equal String.length) in H.
  rewrite !length_app_string in H. cbn [String.length] in H. lia.
Qed.

(** A rule is due exactly in a minute it names and has not been seen in. *)
Lemma due_first e envs env lastFired :
  clocks_ok [e] (envs ++ [env]) -> remembered e envs (lastFired !! rule_id e) ->
  cron_due e (pe_now env) lastFired = names_minute e (pe_now env) && negb (existsb (fun v => same_minute e (pe_now v) (pe_now env)) envs).
Proof.
  intros Hc Hr. destruct (Hc e ltac:(by left)) as [Hs Hok]. unfold cron_due. fold (rule_id e).
  destruct (names_minute e (pe_now env)) eqn:En; [|unfold names_minute in En; by destruct (ac_Enabled _), (negb _)].
  assert (Hd : ac_Enabled (ca_cfg e) = true /\ match ca_expr e with Some x => Matches x (civil_time (ca_location e) (pe_now env)) | None => false end = true)
    by (apply andb_true_iff, En).
  destruct Hd as [-> ->]. cbn [andb]. rewrite andb_true_r. f_equal. unfold remembered in Hr.
  apply eq_true_iff_eq. rewrite String.eqb_eq, existsb_exists. setoid_rewrite <- list_elem_of_In. unfold same_minute. setoid_rewrite Z.eqb_eq.
  destruct (lastFired !! rule_id e) as [k|]; cbn [default from_option id].
  - destruct Hr as (v & Hv & Hnv & -> & Hmax). split.
    + intros Ek. exists v. split; [done|]. apply key_is_minute; [apply Hok, elem_of_app; by left|apply Hok, elem_of_app; right; by left|done].
    + intros (u & Hu & Eu). apply key_by_minute.
      assert (Hnu : names_minute e (pe_now u) = true)
        by (unfold names_minute in *; by rewrite (civil_by_minute _ (ca_location e) _ (pe_now env) Eu)).
      pose proof (Hmax u Hu Hnu) as H1.
      assert (H2 : minute_of (ca_location e) (pe_now v) <= minute_of (ca_location e) (pe_now env))
        by (apply (sorted_app_le _ envs [env] v env Hs Hv); by left).
      lia.
  - split; [intros Ek; by destruct (key_nonempty (ca_location e) (pe_now env))|].
    intros (u & Hu & Eu). pose proof (Hr u Hu) as Hnu. unfold names_minute in *.
    by rewrite (civil_by_minute _ (ca_location e) _ (pe_now env) Eu), En in Hnu.
Qed.

Lemma run_cron_spec env cron lastFired : NoDup (map rule_id cron) ->
  snd (run_cron env cron lastFired) =
    flat_map (fun e => if cron_due e (pe_now env) lastFired then runCronAutomation env e (pe_states env).1.1 else []) cron /\
  (forall e, e ∈ cron -> fst (run_cron env cron lastFired) !! rule_id e =
     if cron_due e (pe_now env) lastFired then Some (minute_key (ca_location e) (pe_now env)) else lastFired !! rule_id e).
Proof.
  intros Hnd. unfold run_cron.
  destruct (cron_steps env (pe_states env).1.1 cron (forget_absent cron lastFired) [] Hnd) as (H1 & H2 & _).
  assert (Hdue : forall e, e ∈ cron -> cron_due e (pe_now env) (forget_absent cron lastFired) = cron_due e (pe_now env) lastFired).
  { intros e He. unfold cron_due. fold (rule_id e). by rewrite forget_present. }
  split.
  - rewrite H1. cbn [app]. clear -Hdue. revert Hdue. generalize (forget_absent cron lastFired). intros lf. induction cron as [|e l IHl]; intros Hdue; [done|].
    cbn. rewrite Hdue by (by left). rewrite IHl; [done|]. intros x Hx. apply Hdue. by right.
  - intros e He. rewrite H2, Hdue, forget_present by done. done.
Qed.

Lemma remembered_after cron envs : NoDup (map rule_id cron) -> clocks_ok cron envs ->
  forall e, e ∈ cron -> remembered e envs (cron_after cron envs !! rule_id e).
Proof.
  intros Hnd. induction envs as [|env envs IH] using rev_ind; intros Hc e He.
  { unfold cron_after. cbn. rewrite lookup_empty. by intros v ?%not_elem_of_nil. }
  assert (Hc' : clocks_ok cron envs).
  { intros x Hx. destruct (Hc x Hx) as [H1 H2]. split; [by apply StronglySorted_app_1_l in H1|].
    intros v Hv. apply H2, elem_of_app. by left. }
  specialize (IH Hc' e He). unfold cron_after in *. rewrite foldl_app. cbn [foldl].
  set (lf := foldl _ ∅ envs) in *.
  destruct (run_cron_spec env cron lf Hnd) as [_ Hl]. rewrite Hl by done.
  assert (Hce : clocks_ok [e] (envs ++ [env])) by (intros x ->%list_elem_of_singleton; by apply Hc).
  rewrite (due_first e envs env lf Hce IH).
  destruct (Hc e He) as [Hs _].
  destruct (names_minute e (pe_now env)) eqn:En; cbn [andb].
  2: { destruct (lf !! rule_id e) as [k|]; cbn in *.
       - destruct IH as (v & Hv & Hnv & Ek & Hmax). exists v. split_and!; try done; [apply elem_of_app; by left|].
         intros u [Hu| ->%list_elem_of_singleton]%elem_of_app Hnu; [by apply Hmax|by rewrite En in Hnu].
       - intros v [Hv| ->%list_elem_of_singleton]%elem_of_app; [by apply IH|done]. }
  destruct (existsb _ envs) eqn:Ex; cbn [negb].
  - apply existsb_exists in Ex as (u & Hu & Eu). apply list_elem_of_In in Hu. unfold same_minute in Eu. apply Z.eqb_eq in Eu.
    assert (Hnu : names_minute e (pe_now u) = true)
      by (unfold names_minute in *; by rewrite (civil_by_minute _ (ca_location e) _ (pe_now env) Eu)).
    destruct (lf !! rule_id e) as [k|]; cbn in *; [|by rewrite (IH u Hu) in Hnu].
    destruct IH as (v & Hv & Hnv & Ek & Hmax). exists v. split_and!; try done; [apply elem_of_app; by left|].
    intros w [Hw| ->%list_elem_of_singleton]%elem_of_app Hnw; [by apply Hmax|]. rewrite <- Eu. by apply Hmax.
  - cbn. exists env. split_and!; [apply elem_of_app; right; by left|done|done|].
    intros u [Hu| ->%list_elem_of_singleton]%elem_of_app _; [|done]. apply (sorted_app_le _ envs [env] u env Hs Hu). by left.
Qed.


(** ** Comments: each fires once *)

Definition detail_answer (env : ProducerEnv) (id : string) : option Issue :=
  match pe_detail env id with Fetched i => Some i | _ => None end.

Definition cache_ok (env : ProducerEnv) (cache : gmap string (option Issue)) : Prop :=
  forall id v, cache !! id = Some v -> v = detail_answer env id.

Definition is_request (x : ProducerEffect) : Prop := match x with Sent _ _ | NotSent _ _ => False | _ => True end.

Definition comment_snapshot (detailed : Issue) : observedAutomationComment :=
  match last (issue_Comments detailed) with Some c => observedAutomationCommentFromComment c | None => no_comment end.

(** A new comment of [issue] that may fire the rule. *)
Definition fresh_comment (env : ProducerEnv) (prevComments : gmap string observedAutomationComment) (id : string) (c : Comment) : Prop :=
  exists detailed prevComment, detail_answer env id = Some detailed /\ last (issue_Comments detailed) = Some c /\
    prevComments !! id = Some prevComment /\ hasNewAutomationComment prevComment (comment_snapshot detailed) = true /\
    isAutomationManagedComment c = false.

(** What one issue adds to a pass. *)
Record pass_step (env : ProducerEnv) (prev : automationPollState) (entry : compiledAutomation) (issue : Issue)
    (p p' : EntryPass) : Prop := {
  ps_cache : cache_ok env (ep_cache p) -> cache_ok env (ep_cache p');
  ps_requests : exists reqs, ep_effects p' = ep_effects p ++ reqs /\ Forall is_request reqs;
  ps_other : forall i, i <> issue_ID issue -> ep_comments p' !! i = ep_comments p !! i;
  ps_matches : exists ms, ep_matches p' = ep_matches p ++ ms /\ (forall m, m ∈ ms -> m.1 = issue) /\
    (atc_Type (ac_Trigger (ca_cfg entry)) = AutomationTriggerTrackerComment -> cache_ok env (ep_cache p) ->
       (ms = [] /\ ep_comments p' !! issue_ID issue = ep_comments p !! issue_ID issue) \/
       exists detailed, detail_answer env (issue_ID issue) = Some detailed /\
         ep_comments p' !! issue_ID issue = Some (comment_snapshot detailed) /\
         (ms = [] \/ exists c, ms = [(issue, comment_trigger entry (pe_now env) issue c)] /\
            last (issue_Comments detailed) = Some c /\
            fresh_comment env (default ∅ (ap_trackerComments prev !! rule_id entry)) (issue_ID issue) c));
}.

Lemma pass_same env prev entry issue p : pass_step env prev entry issue p p.
Proof.
  constructor; [done|exists []; split; [by rewrite app_nil_r|constructor]|done|].
  exists []. split; [by rewrite app_nil_r|]. split; [by intros m ?%not_elem_of_nil|]. intros _ _. by left.
Qed.

Lemma pass_match env prev entry issue p t :
  atc_Type (ac_Trigger (ca_cfg entry)) <> AutomationTriggerTrackerComment -> pass_step env prev entry issue p (add_match issue t p).
Proof.
  intros Ht. constructor; cbn; [done|exists []; split; [by rewrite app_nil_r|constructor]|done|].
  exists [(issue, t)]. split; [done|]. split; [by intros m ->%list_elem_of_singleton|]. intros H. by destruct Ht.
Qed.

Lemma getDetail_spec env issue p : cache_ok env (ep_cache p) ->
  exists cache reqs, getDetail env issue p =
    (detail_answer env (issue_ID issue), p <| ep_cache := cache |> <| ep_effects := ep_effects p ++ reqs |>) /\
    cache_ok env cache /\ Forall is_request reqs.
Proof.
  intros Hc. unfold getDetail. destruct (ep_cache p !! issue_ID issue) as [v|] eqn:E.
  - exists (ep_cache p), []. rewrite (Hc _ _ E). split_and!; [|done|constructor]. f_equal. destruct p. cbn. by rewrite app_nil_r.
  - do 2 eexists. split; [reflexivity|]. split; [|by repeat constructor].
    intros id v. rewrite lookup_insert_Some. intros [[<- <-]|[_ H]]; [done|by apply Hc].
Qed.

Lemma poll_comment_step env rules prev entry issue p : cache_ok env (ep_cache p) ->
  pass_step env prev entry issue p
    (poll_comment env rules entry (default ∅ (ap_trackerComments prev !! rule_id entry)) issue p).
Proof.
  intros Hc. unfold poll_comment. destruct (automationEntryMatches issue entry ""); [|apply pass_same]. cbn [negb].
  destruct (getDetail_spec env issue p Hc) as (cache & reqs & -> & Hc' & Hr).
  destruct (detail_answer env (issue_ID issue)) as [detailed|] eqn:Ea.
  2: { constructor; cbn; [done|by exists reqs|done|]. exists []. split; [by rewrite app_nil_r|].
       split; [by intros m ?%not_elem_of_nil|]. intros _ _. by left. }
  unfold latestAutomationComment.
  change (match last (issue_Comments detailed) with Some c => observedAutomationCommentFromComment c | None => no_comment end)
    with (comment_snapshot detailed).
  set (p1 := _ <| ep_comments := _ |>).
  assert (Hp1 : forall q, ep_cache q = ep_cache p1 -> ep_effects q = ep_effects p1 -> ep_comments q = ep_comments p1 ->
    (exists ms, ep_matches q = ep_matches p ++ ms /\ (forall m, m ∈ ms -> m.1 = issue) /\
      (ms = [] \/ exists c, ms = [(issue, comment_trigger entry (pe_now env) issue c)] /\
            last (issue_Comments detailed) = Some c /\
            fresh_comment env (default ∅ (ap_trackerComments prev !! rule_id entry)) (issue_ID issue) c)) ->
    pass_step env prev entry issue p q).
  { intros q E1 E2 E3 (ms & Em & Hms & Hd). constructor.
    - rewrite E1. done.
    - rewrite E2. by exists reqs.
    - intros i Hi. rewrite E3. cbn. by rewrite lookup_insert_ne.
    - exists ms. split; [done|]. split; [done|]. intros _ _. right. exists detailed. split; [done|]. split; [|done].
      rewrite E3. cbn. by rewrite lookup_insert_eq. }
  assert (Hsame : pass_step env prev entry issue p p1).
  { apply Hp1; [done..|]. exists []. split; [by rewrite app_nil_r|]. split; [by intros m ?%not_elem_of_nil|by left]. }
  destruct (default ∅ (ap_trackerComments prev !! rule_id entry) !! issue_ID issue) as [pc|] eqn:Ep; [|exact Hsame].
  destruct (last (issue_Comments detailed)) as [c|] eqn:El; [|exact Hsame].
  destruct (hasNewAutomationComment pc (comment_snapshot detailed)) eqn:Eh; [|exact Hsame].
  destruct (isAutomationManagedComment c) eqn:Em; [exact Hsame|]. destruct (body_admits rules entry (comment_Body c)); [|exact Hsame].
  apply Hp1; [done..|]. exists [(issue, comment_trigger entry (pe_now env) issue c)]. cbn. split; [done|].
  split; [by intros m ->%list_elem_of_singleton|]. right. exists c. split; [done|]. split; [done|]. exists detailed, pc. by split_and!.
Qed.

Lemma poll_issue_step env rules prev entry p issue : cache_ok env (ep_cache p) ->
  pass_step env prev entry issue p (poll_issue env rules prev entry p issue).
Proof.
  intros Hc. unfold poll_issue. cbn zeta. destruct (shouldSkipAutomatedIssue _ _ _); [apply pass_same|].
  destruct (ap_issues prev !! issue_ID issue) as [pi|]; [|apply pass_same].
  destruct (String.eqb_spec (atc_Type (ac_Trigger (ca_cfg entry))) AutomationTriggerIssueEnteredState) as [E|_].
  { repeat case_match; try apply pass_same. apply pass_match. by rewrite E. }
  destruct (String.eqb_spec (atc_Type (ac_Trigger (ca_cfg entry))) AutomationTriggerIssueMovedBacklog) as [E|_].
  { repeat case_match; try apply pass_same. apply pass_match. by rewrite E. }
  destruct (String.eqb _ _); [by apply poll_comment_step|apply pass_same].
Qed.

Definition matches_of (i : string) (ms : list (Issue * AutomationTriggerContext)) : list (Issue * AutomationTriggerContext) :=
  List.filter (fun m => String.eqb (issue_ID m.1) i) ms.

Lemma matches_of_other i issue ms : (forall m, m ∈ ms -> m.1 = issue) -> issue_ID issue <> i -> matches_of i ms = [].
Proof.
  intros H Hi. induction ms as [|m ms IH]; [done|]. cbn. rewrite (H m) by (by left). apply String.eqb_neq in Hi. rewrite Hi.
  apply IH. intros x Hx. apply H. by right.
Qed.

(** What a pass comes to for one issue id. *)
Definition comment_outcome (env : ProducerEnv) (prev : automationPollState) (entry : compiledAutomation) (i : string)
    (before after : option observedAutomationComment) (ms : list (Issue * AutomationTriggerContext)) : Prop :=
  (ms = [] /\ after = before) \/
  exists detailed, detail_answer env i = Some detailed /\ after = Some (comment_snapshot detailed) /\
    (ms = [] \/ exists issue c, ms = [(issue, comment_trigger entry (pe_now env) issue c)] /\
       last (issue_Comments detailed) = Some c /\
       fresh_comment env (default ∅ (ap_trackerComments prev !! rule_id entry)) i c).

Record pass_all (env : ProducerEnv) (prev : automationPollState) (entry : compiledAutomation) (ids : list string)
    (p p' : EntryPass) : Prop := {
  pa_cache : cache_ok env (ep_cache p');
  pa_requests : exists reqs, ep_effects p' = ep_effects p ++ reqs /\ Forall is_request reqs;
  pa_matches : exists ms, ep_matches p' = ep_matches p ++ ms /\
    forall i, (i ∉ ids -> ep_comments p' !! i = ep_comments p !! i /\ matches_of i ms = []) /\
      (atc_Type (ac_Trigger (ca_cfg entry)) = AutomationTriggerTrackerComment ->
         comment_outcome env prev entry i (ep_comments p !! i) (ep_comments p' !! i) (matches_of i ms));
}.

Lemma poll_issues_all env rules prev entry issues p : NoDup (map issue_ID issues) -> cache_ok env (ep_cache p) ->
  pass_all env prev entry (map issue_ID issues) p (foldl (poll_issue env rules prev entry) p issues).
Proof.
  revert p. induction issues as [|x issues IH]; intros p Hnd Hc.
  { constructor; [done|exists []; split; [by rewrite app_nil_r|constructor]|]. exists []. split; [by rewrite app_nil_r|].
    intros i. split; [done|]. intros _. by left. }
  apply NoDup_cons in Hnd as [Hx Hnd]. cbn [foldl map].
  destruct (poll_issue_step env rules prev entry p x Hc) as [H1 (reqs & H2 & Hr) H3 (ms & H4 & Hm & H5)].
  set (p1 := poll_issue env rules prev entry p x) in *.
  destruct (IH p1 Hnd (H1 Hc)) as [K1 (reqs' & K2 & Kr) (ms' & K4 & K5)].
  constructor; [done|exists (reqs ++ reqs'); split; [by rewrite K2, H2, app_assoc|by apply Forall_app]|].
  exists (ms ++ ms'). split; [by rewrite K4, H4, app_assoc|]. intros i. unfold matches_of. rewrite List.filter_app.
  fold (matches_of i ms) (matches_of i ms'). destruct (K5 i) as [Ka Kb]. split.
  - intros [Hi Hn]%not_elem_of_cons. destruct (Ka Hn) as [-> ->]. rewrite H3 by done. split; [done|].
    by rewrite (matches_of_other i x ms Hm) by done.
  - intros Ht. destruct (decide (i = issue_ID x)) as [->|Hi].
    + destruct (Ka Hx) as [Kc ->]. rewrite app_nil_r, Kc.
      destruct (H5 Ht Hc) as [[-> ->]|(detailed & Ha & Hs & Hd)]; [by left|]. right. exists detailed. split; [done|]. split; [done|].
      destruct Hd as [->|(c & -> & Hd)]; [by left|]. right. exists x, c. cbn. by rewrite String.eqb_refl.
    + rewrite (matches_of_other i x ms Hm) by done. cbn [app]. rewrite <- (H3 i Hi). by apply Kb.
Qed.

(** The comments of issue [i] sent for rule [r]. *)
Definition comments_sent (r i : string) (effects : list ProducerEffect) : list string :=
  omap (fun x => match x with
                 | Sent issue d | NotSent issue d =>
                     if String.eqb (ad_AutomationID d) r && String.eqb (issue_ID issue) i
                     then Some (trig_CommentID (ad_Trigger d)) else None
                 | _ => None
                 end) effects.

Lemma comments_sent_app r i a b : comments_sent r i (a ++ b) = comments_sent r i a ++ comments_sent r i b.
Proof. apply omap_app. Qed.

Lemma no_comments_in_requests r i reqs : Forall is_request reqs -> comments_sent r i reqs = [].
Proof. induction 1 as [|x l Hx _ IH]; [done|]. unfold comments_sent. cbn. by destruct x. Qed.

Lemma sends_of env entry r i ms :
  comments_sent r i (map (fun m : Issue * AutomationTriggerContext => snd (DispatchAutomation env m.1 (entry_dispatch entry m.2))) ms) =
    if String.eqb (rule_id entry) r then map (fun m => trig_CommentID m.2) (matches_of i ms) else [].
Proof.
  induction ms as [|m ms IH]; [by destruct (String.eqb _ _)|]. cbn [map].
  match goal with |- comments_sent r i (?x :: ?l) = _ => change (x :: l) with ([x] ++ l) end.
  rewrite comments_sent_app, IH. unfold DispatchAutomation.
  assert (H : comments_sent r i [snd (if pe_accepts env m.1 (entry_dispatch entry m.2) then (true, Sent m.1 (entry_dispatch entry m.2))
      else (false, NotSent m.1 (entry_dispatch entry m.2)))] =
    if String.eqb (rule_id entry) r && String.eqb (issue_ID m.1) i then [trig_CommentID m.2] else []).
  { destruct (pe_accepts env m.1 _); unfold comments_sent; cbn; fold (rule_id entry); by destruct (_ && _). }
  rewrite H. unfold matches_of. cbn. destruct (String.eqb (rule_id entry) r), (String.eqb (issue_ID m.1) i); done.
Qed.

Lemma matches_of_prefix i limit ms : matches_of i (limited limit ms) `prefix_of` matches_of i ms.
Proof.
  unfold limited. case_match; [|done]. rewrite <- (firstn_skipn (Z.to_nat limit) ms) at 2. unfold matches_of. rewrite List.filter_app.
  by eexists.
Qed.

(** One rule's turn in a poll. *)
Lemma poll_entry_step env rules prev issues acc entry r i : NoDup (map issue_ID issues) -> cache_ok env (pp_cache acc) ->
  let acc' := poll_entry env rules prev issues acc entry in
  cache_ok env (pp_cache acc') /\
  (rule_id entry <> r ->
     comments_sent r i (pp_effects acc') = comments_sent r i (pp_effects acc) /\ pp_comments acc' !! r = pp_comments acc !! r) /\
  (rule_id entry = r -> atc_Type (ac_Trigger (ca_cfg entry)) = AutomationTriggerTrackerComment ->
     exists comments sent, pp_comments acc' !! r = Some comments /\
       comments_sent r i (pp_effects acc') = comments_sent r i (pp_effects acc) ++ sent /\
       ((comments !! i = None /\ sent = []) \/
        exists detailed, detail_answer env i = Some detailed /\ comments !! i = Some (comment_snapshot detailed) /\
          (sent = [] \/ exists c, sent = [comment_ID c] /\ last (issue_Comments detailed) = Some c /\
             fresh_comment env (default ∅ (ap_trackerComments prev !! r)) i c))).
Proof.
  intros Hnd Hc acc'. unfold acc', poll_entry.
  destruct (poll_issues_all env rules prev entry issues (MkEntryPass (pp_cache acc) ∅ [] []) Hnd Hc) as [K1 (reqs & K2 & Kr) (ms & K4 & K5)].
  set (p := foldl _ _ issues) in *. cbn [ep_cache ep_comments ep_matches ep_effects app] in K2, K4, K5. cbn zeta.
  split; [done|]. cbn [pp_effects pp_comments]. rewrite K2, K4, !comments_sent_app, (no_comments_in_requests r i reqs Kr), sends_of.
  fold (rule_id entry). split.
  - intros Hr. apply String.eqb_neq in Hr as Hr'. rewrite Hr', !app_nil_r. split; [done|].
    destruct (String.eqb _ AutomationTriggerTrackerComment); [by rewrite lookup_insert_ne|done].
  - intros <- Ht. rewrite Ht. rewrite !String.eqb_refl, lookup_insert_eq. do 2 eexists. split; [done|].
    split; [reflexivity|]. cbn [app]. destruct (K5 i) as [_ Kb]. specialize (Kb Ht). rewrite lookup_empty in Kb.
    pose proof (matches_of_prefix i (afc_Limit (ac_Filter (ca_cfg entry))) ms) as Hp.
    destruct Kb as [[Em Ec]|(detailed & Ha & Es & Hd)].
    + left. split; [done|]. rewrite Em in Hp. by apply prefix_nil_inv in Hp as ->.
    + right. exists detailed. split; [done|]. split; [done|]. destruct Hd as [Em|(issue & c & Em & Hd)]; rewrite Em in Hp.
      * left. by apply prefix_nil_inv in Hp as ->.
      * destruct (matches_of i (limited _ ms)) as [|m l]; [by left|]. right. exists c. split; [|done].
        apply prefix_cons_inv_1 in Hp as Hm. apply prefix_cons_inv_2, prefix_nil_inv in Hp as ->. by rewrite Hm.
Qed.

(** What a poll comes to for rule [r] and issue [i]. *)
Definition poll_outcome (env : ProducerEnv) (before after : option observedAutomationComment) (sent : list string) (i : string) : Prop :=
  (sent = [] /\ (after = before \/ after = None)) \/
  exists detailed, detail_answer env i = Some detailed /\ after = Some (comment_snapshot detailed) /\
    (sent = [] \/ exists c prevComment, sent = [comment_ID c] /\ last (issue_Comments detailed) = Some c /\
       before = Some prevComment /\ hasNewAutomationComment prevComment (comment_snapshot detailed) = true /\
       isAutomationManagedComment c = false).

Definition baseline (r i : string) (s : automationPollState) : option observedAutomationComment :=
  comments ← ap_trackerComments s !! r; comments !! i.

Lemma poll_entries_all env rules prev issues entries acc r i :
  NoDup (map issue_ID issues) -> NoDup (map rule_id entries) -> cache_ok env (pp_cache acc) ->
  (forall e, e ∈ entries -> rule_id e = r -> atc_Type (ac_Trigger (ca_cfg e)) = AutomationTriggerTrackerComment) ->
  pp_comments acc !! r = None ->
  let acc' := foldl (poll_entry env rules prev issues) acc entries in
  exists sent, comments_sent r i (pp_effects acc') = comments_sent r i (pp_effects acc) ++ sent /\
    poll_outcome env (baseline r i prev) (pp_comments acc' !! r ≫= (fun comments => comments !! i)) sent i.
Proof.
  intros Hi. revert acc. induction entries as [|e entries IH]; intros acc Hnd Hc Ht H0.
  { exists []. cbn. rewrite app_nil_r. split; [done|]. left. split; [done|]. right. by rewrite H0. }
  apply NoDup_cons in Hnd as [He Hnd]. cbn [foldl].
  destruct (poll_entry_step env rules prev issues acc e r i Hi Hc) as (K1 & K2 & K3).
  destruct (decide (rule_id e = r)) as [Er|Er].
  - destruct (K3 Er (Ht e ltac:(by left) Er)) as (comments & sent & Kc & Ks & Kd). clear K2 K3 IH.
    assert (Hrest : forall l a, cache_ok env (pp_cache a) -> r ∉ map rule_id l ->
      comments_sent r i (pp_effects (foldl (poll_entry env rules prev issues) a l)) = comments_sent r i (pp_effects a) /\
      pp_comments (foldl (poll_entry env rules prev issues) a l) !! r = pp_comments a !! r).
    { induction l as [|x l IHl]; intros a Ha Hl0; [done|]. apply not_elem_of_cons in Hl0 as [Hx Hl]. cbn [foldl].
      destruct (poll_entry_step env rules prev issues a x r i Hi Ha) as (L1 & L2 & _). destruct (L2 (not_eq_sym Hx)) as [<- <-]. by apply IHl. }
    rewrite Er in He. destruct (Hrest entries _ K1 He) as [-> ->]. exists sent. split; [done|].
    rewrite Kc. cbn [mbind option_bind]. destruct Kd as [[-> ->]|(detailed & Ha & Hs & Hd)]; [left; split; [done|by right]|].
    right. exists detailed. split; [done|]. split; [done|]. destruct Hd as [->|(c & -> & Hl & d' & pc & Ha' & Hl' & Hp & Hh & Hm)]; [by left|].
    right. exists c, pc. rewrite Ha in Ha'. injection Ha' as <-. split_and!; try done. unfold baseline.
    destruct (ap_trackerComments prev !! r); [done|].
    change ((∅ : gmap string observedAutomationComment) !! i = Some pc) in Hp. by rewrite lookup_empty in Hp.
  - destruct (K2 Er) as [E1 E2]. destruct (IH (poll_entry env rules prev issues acc e) Hnd K1) as (sent & Hs & Ho).
    + intros x Hx. apply Ht. by right.
    + by rewrite E2.
    + exists sent. by rewrite Hs, E1.
Qed.

Lemma by_identifier_ids issues : NoDup (map issue_ID issues) -> NoDup (map issue_ID (by_identifier issues)).
Proof. intros H. unfold by_identifier. by rewrite (sort_stable_perm _ issues). Qed.

(** A poll: its environment, the registered body filters and the rules. *)
Definition Poll : Type := ProducerEnv * list TrackerCommentAutomation * list compiledAutomation.

(** Ids are unique among the rules and in a listing, and [r] is a rule on comments. *)
Definition poll_ok (r : string) (q : Poll) : Prop :=
  let '(env, _, entries) := q in
  NoDup (map rule_id entries) /\
  (forall e, e ∈ entries -> rule_id e = r -> atc_Type (ac_Trigger (ca_cfg e)) = AutomationTriggerTrackerComment) /\
  (forall states issues, pe_by_states env "" states = Some issues -> NoDup (map issue_ID issues)).

Lemma poll_spec env rules entries prev r i : poll_ok r (env, rules, entries) ->
  poll_outcome env (baseline r i prev) (baseline r i (fst (pollAutomationEvents env rules entries prev)))
    (comments_sent r i (snd (pollAutomationEvents env rules entries prev))) i.
Proof.
  intros (Hnd & Ht & Hi). unfold pollAutomationEvents.
  destruct (automationProducersPaused _); [left; split; [done|by left]|].
  destruct (pe_states env) as [[activeStates terminalStates] completionState].
  destruct (automationPollStates (pe_cfg env) entries activeStates terminalStates completionState) as [|st sts]; [left; split; [done|by left]|].
  destruct (pe_by_states env "" (st :: sts)) as [issues|] eqn:Eb; [|left; split; [done|by left]].
  destruct (poll_entries_all env rules prev (by_identifier issues) entries (MkPollPass ∅ ∅ [FetchedStates (st :: sts)]) r i)
    as (sent & Hs & Ho); [by eapply by_identifier_ids, Hi|done|by intros id v H; apply (lookup_empty_Some id v) in H|done|done|].
  cbn [fst snd]. rewrite Hs. exact Ho.
Qed.

Fixpoint poll_history (prev : automationPollState) (polls : list Poll) : list ProducerEffect :=
  match polls with
  | [] => []
  | (env, rules, entries) :: polls =>
      let r := pollAutomationEvents env rules entries prev in snd r ++ poll_history (fst r) polls
  end.

(** At each poll the tracker, if it answers, gives the comments of [log] up to
    some point that never moves back. *)
Fixpoint reads_log (log : list Comment) (n : nat) (i : string) (polls : list Poll) : Prop :=
  match polls with
  | [] => True
  | (env, _, _) :: polls => exists n', (n <= n' <= length log)%nat /\
      (forall detailed, detail_answer env i = Some detailed -> issue_Comments detailed = firstn n' log) /\ reads_log log n' i polls
  end.

Definition seen_up_to (log : list Comment) (n : nat) : observedAutomationComment :=
  match last (firstn n log) with Some c => observedAutomationCommentFromComment c | None => no_comment end.

Lemma not_new_again s : hasNewAutomationComment s s = false.
Proof.
  unfold hasNewAutomationComment. destruct (nothing_observed s); [done|]. rewrite equal_fold_refl, String.eqb_refl. by destruct (String.eqb _ _).
Qed.

Lemma last_firstn (log : list Comment) k c : (k <= length log)%nat -> last (firstn k log) = Some c ->
  exists j, k = S j /\ log !! j = Some c.
Proof.
  intros Hk Hl. destruct k as [|j]; [done|]. exists j. split; [done|].
  rewrite last_lookup, length_firstn, Nat.min_l, lookup_take in Hl by lia. cbn in Hl. by rewrite decide_True in Hl by lia.
Qed.

Lemma comments_from r i log polls : NoDup (map comment_ID log) -> forall prev n seen,
  (seen <= n)%nat -> baseline r i prev = None \/ baseline r i prev = Some (seen_up_to log seen) ->
  reads_log log n i polls -> Forall (poll_ok r) polls ->
  NoDup (comments_sent r i (poll_history prev polls)) /\
  forall id, id ∈ comments_sent r i (poll_history prev polls) -> exists k c, (seen <= k)%nat /\ log !! k = Some c /\ id = comment_ID c /\
    isAutomationManagedComment c = false.
Proof.
  intros Hnd. induction polls as [|[[env rules] entries] polls IH]; intros prev n seen Hsn Hb Hr Hok.
  { split; [constructor|]. by intros id ?%not_elem_of_nil. }
  destruct Hr as (n' & Hn & Ha & Hr). apply Forall_cons in Hok as [Hp Hok]. cbn [poll_history]. rewrite comments_sent_app.
  pose proof (poll_spec env rules entries prev r i Hp) as Ho. set (next := fst (pollAutomationEvents env rules entries prev)) in *.
  destruct Ho as [[-> Hb']|(detailed & Hd & Hb' & Hs)].
  - cbn [app]. apply (IH next n' seen ltac:(lia)); [|done|done]. destruct Hb' as [->| ->]; [done|by left].
  - assert (Es : comment_snapshot detailed = seen_up_to log n') by (unfold comment_snapshot, seen_up_to; by rewrite (Ha _ Hd)).
    rewrite Es in Hb'. destruct (IH next n' n' ltac:(lia) (or_intror Hb') Hr Hok) as [IH1 IH2].
    destruct Hs as [->|(c & pc & -> & Hl & Hpc & Hh & Hm)].
    + split; [done|]. intros id Hid. destruct (IH2 id Hid) as (k & c & Hk & H). exists k, c. split; [lia|done].
    + rewrite (Ha _ Hd) in Hl. destruct (last_firstn log n' c ltac:(lia) Hl) as (j & -> & Hj).
      assert (Hlt : (seen < S j)%nat).
      { destruct Hb as [Hb|Hb]; [by rewrite Hb in Hpc|]. rewrite Hb in Hpc. injection Hpc as <-. rewrite Es in Hh.
        destruct (decide (seen = S j)) as [->|]; [by rewrite not_new_again in Hh|].
        destruct (decide (S j <= seen)%nat); [lia|lia]. }
      split.
      * apply NoDup_cons. split; [|done]. intros Hid. destruct (IH2 _ Hid) as (k & c' & Hk & Hc' & Ec & _).
        assert (k = j); [|lia]. apply (NoDup_lookup (map comment_ID log) k j (comment_ID c) Hnd); rewrite list_lookup_fmap.
        -- by rewrite Hc', Ec.
        -- by rewrite Hj.
      * intros id [->|Hid]%elem_of_cons; [exists j, c; split; [lia|done]|].
        destruct (IH2 id Hid) as (k & c' & Hk & H). exists k, c'. split; [lia|done].
Qed.

(** C25: while comments are only added to an issue, each fires a rule on
    comments at most once, over any history of polls that fail, are paused,
    lose the issue or meet other rules; what Itervox itself wrote never does. *)
Theorem comment_fires_once r i log polls :
  NoDup (map comment_ID log) -> reads_log log 0 i polls -> Forall (poll_ok r) polls ->
  NoDup (comments_sent r i (poll_history no_polls polls)) /\
  forall id, id ∈ comments_sent r i (poll_history no_polls polls) ->
    exists c, c ∈ log /\ id = comment_ID c /\ isAutomationManagedComment c = false.
Proof.
  intros Hnd Hr Hok. destruct (comments_from r i log polls Hnd no_polls 0 0 ltac:(done) (or_introl eq_refl) Hr Hok) as [H1 H2].
  split; [done|]. intros id Hid. destruct (H2 id Hid) as (k & c & _ & Hk & H). exists c. split; [by eapply list_elem_of_lookup_2|done].
Qed.

(** ** Replays: at most one per rule and question *)

(** How often rule [a] was sent for the question of issue [i]. *)
Definition replays (i a : string) (effects : list ProducerEffect) : nat :=
  length (List.filter (fun x => match x with
                                | Sent issue d => String.eqb (issue_Identifier issue) i && String.eqb (ad_AutomationID d) a
                                | _ => false
                                end) effects).

Lemma replays_app i a x y : replays i a (x ++ y) = (replays i a x + replays i a y)%nat.
Proof. unfold replays. by rewrite List.filter_app, length_app. Qed.

Lemma no_replays_in_requests i a reqs : Forall is_request reqs -> replays i a reqs = 0%nat.
Proof. induction 1 as [|x l Hx _ IH]; [done|]. unfold replays in *. cbn. by destruct x. Qed.

(** What one question's rules come to. *)
Record rules_run (issue : Issue) (a : string) (fired fired' : gset string) (sent : list ProducerEffect) : Prop := {
  rn_grow : fired ⊆ fired';
  rn_other : forall i b, i <> issue_Identifier issue -> replays i b sent = 0%nat;
  rn_fired : a ∈ fired -> replays (issue_Identifier issue) a sent = 0%nat;
  rn_once : (replays (issue_Identifier issue) a sent <= 1)%nat;
  rn_kept : replays (issue_Identifier issue) a sent = 1%nat -> a ∈ fired';
}.

Lemma replay_rules env e issue a automations fired effects :
  exists fired' sent, foldl (replay_rule env e issue) (fired, effects) automations = (fired', effects ++ sent) /\
    rules_run issue a fired fired' sent.
Proof.
  revert fired effects. induction automations as [|x l IH]; intros fired effects.
  { exists fired, []. cbn. rewrite app_nil_r. split; [done|]. constructor; cbn; done || lia. }
  assert (Hskip : exists fired' sent, foldl (replay_rule env e issue) (fired, effects) l = (fired', effects ++ sent) /\
    rules_run issue a fired fired' sent) by apply IH.
  cbn [foldl replay_rule]. destruct (bool_decide (rule_ID (ira_rule x) ∈ fired)) eqn:Ef; [exact Hskip|].
  apply bool_decide_eq_false in Ef. destruct (negb _); [exact Hskip|]. unfold DispatchAutomation.
  set (d := replayInputRequiredDispatch e x (pe_now env)). destruct (pe_accepts env issue d).
  - destruct (IH ({[rule_ID (ira_rule x)]} ∪ fired) (effects ++ [Sent issue d])) as (fired' & sent & Hf & [R1 R2 R3 R4 R5]).
    exists fired', ([Sent issue d] ++ sent). rewrite app_assoc. split; [exact Hf|].
    assert (H1 : forall i b, replays i b [Sent issue d] = if String.eqb (issue_Identifier issue) i && String.eqb (rule_ID (ira_rule x)) b then 1%nat else 0%nat)
      by (intros i b; unfold replays; cbn; by destruct (_ && _)).
    constructor; [set_solver|..].
    + intros i b Hi. rewrite replays_app, H1, R2 by done. apply not_eq_sym, String.eqb_neq in Hi. by rewrite Hi.
    + intros Ha. rewrite replays_app, H1, String.eqb_refl. destruct (String.eqb_spec (rule_ID (ira_rule x)) a) as [E|]; [by rewrite E in Ef|].
      cbn. apply R3. set_solver.
    + rewrite replays_app, H1, String.eqb_refl. destruct (String.eqb_spec (rule_ID (ira_rule x)) a) as [E|]; [|done].
      subst a. rewrite R3 by set_solver. done.
    + rewrite replays_app, H1, String.eqb_refl. destruct (String.eqb_spec (rule_ID (ira_rule x)) a) as [E|]; [|by cbn].
      intros _. subst a. apply R1. set_solver.
  - destruct (IH fired (effects ++ [NotSent issue d])) as (fired' & sent & Hf & [R1 R2 R3 R4 R5]).
    exists fired', ([NotSent issue d] ++ sent). rewrite app_assoc. split; [exact Hf|].
    constructor; [done|intros i b Hi|intros Ha| |intros Ha]; rewrite replays_app in *; cbn in *; auto.
Qed.

Section named.
(** The tracker knows issue [id] as [N id]. *)
Context (N : string -> string).

Record replay_env_ok (env : ProducerEnv) : Prop := {
  re_detail : forall id x, pe_detail env id = Fetched x -> issue_Identifier x = N id;
  re_identifier : forall ident x, pe_by_identifier env ident = Fetched x -> issue_Identifier x = ident;
  re_batch : forall batch ids issues x, pe_batch env = Some batch -> batch ids = Some issues -> x ∈ issues ->
    issue_Identifier x = N (issue_ID x);
  re_entries : forall i e, InputRequiredIssues (pe_snap env AtReplay) !! i = Some e ->
    (ir_IssueID e <> "" -> N (ir_IssueID e) = i) /\ (ir_IssueID e = "" -> ir_Identifier e = i);
}.

Definition details_named (details : gmap string inputRequiredDetailCacheEntry) : Prop :=
  forall id c x, details !! id = Some c -> dc_issue c = Some x -> issue_Identifier x = N id.

Lemma detail_named_spec env prev next e key i : replay_env_ok env -> details_named prev -> details_named next ->
  InputRequiredIssues (pe_snap env AtReplay) !! i = Some e ->
  exists issue details reqs, replayInputRequiredIssueDetail env prev next e key = (issue, details, reqs) /\
    details_named details /\ Forall is_request reqs /\ (forall x, issue = Some x -> issue_Identifier x = i).
Proof.
  intros Henv Hp Hn He. destruct (re_entries env Henv i e He) as [H1 H2]. unfold replayInputRequiredIssueDetail.
  destruct (String.eqb_spec (ir_IssueID e) "") as [E|E]; cbn [negb].
  - destruct (String.eqb (ir_Identifier e) "") eqn:Ei; [do 3 eexists; split_and!; [done|done|constructor|done]|].
    do 3 eexists. split_and!; [done|done|by repeat constructor|]. intros x Hx.
    destruct (pe_by_identifier env (ir_Identifier e)) as [y| | |] eqn:Ey; try done. injection Hx as <-.
    rewrite (re_identifier env Henv _ _ Ey). by apply H2.
  - specialize (H1 E). unfold replayDetailCached. destruct (next !! ir_IssueID e) as [c|] eqn:En.
    { do 3 eexists. split_and!; [done|done|constructor|]. intros x Hx. rewrite <- H1. by eapply Hn. }
    destruct (prev !! ir_IssueID e) as [c|] eqn:Ep.
    + destruct (_ && _).
      * do 3 eexists. split_and!; [done| |constructor|intros x Hx; rewrite <- H1; by eapply Hp].
        intros id c' x. rewrite lookup_insert_Some. intros [[<- <-]|[_ H]]; [by apply Hp|by apply Hn].
      * do 3 eexists. split_and!; [done| |by repeat constructor|].
        -- intros id c' x. rewrite lookup_insert_Some. intros [[<- <-]|[_ H]]; [|by apply Hn]. cbn.
           destruct (pe_detail env (ir_IssueID e)) eqn:Ed; try done. intros [= <-]. by apply (re_detail env Henv).
        -- intros x Hx. destruct (pe_detail env (ir_IssueID e)) eqn:Ed; try done. injection Hx as <-. rewrite <- H1.
           by apply (re_detail env Henv).
    + do 3 eexists. split_and!; [done| |by repeat constructor|].
      -- intros id c' x. rewrite lookup_insert_Some. intros [[<- <-]|[_ H]]; [|by apply Hn]. cbn.
         destruct (pe_detail env (ir_IssueID e)) eqn:Ed; try done. intros [= <-]. by apply (re_detail env Henv).
      -- intros x Hx. destruct (pe_detail env (ir_IssueID e)) eqn:Ed; try done. injection Hx as <-. rewrite <- H1.
         by apply (re_detail env Henv).
Qed.

(** What has fired for a question, if the last tick knew it. *)
Definition known_fired (prev : inputRequiredReplayState) (active : gset string) (i key : string) : option (gset string) :=
  match rr_issues prev !! i with
  | Some s => if String.eqb (ri_blockedKey s) key then Some (ri_fired s ∩ active) else None
  | None => None
  end.

(** What a tick does for rule [a] on one question. *)
Definition rule_outcome (a : string) (known : option (gset string)) (active fired : gset string) (n : nat) : Prop :=
  match known with
  | None => n = 0%nat /\ (a ∈ active -> a ∈ fired)
  | Some f => (n <= 1)%nat /\ (n = 1%nat -> a ∈ fired) /\ (a ∈ f -> n = 0%nat /\ a ∈ fired)
  end.

Lemma replay_entry_step env automations active prev next effects i e a :
  replay_env_ok env -> rr_initialized prev = true -> details_named (rr_details prev) -> details_named (rr_details next) ->
  InputRequiredIssues (pe_snap env AtReplay) !! i = Some e ->
  exists fired details sent, let key := inputRequiredReplayKey e in
    replay_entry env automations active prev (next, effects) (i, e) =
      (next <| rr_issues := <[i := MkInputRequiredReplayIssueState key fired]> (rr_issues next) |> <| rr_details := details |>,
       effects ++ sent) /\
    details_named details /\ (forall j b, j <> i -> replays j b sent = 0%nat) /\
    rule_outcome a (known_fired prev active i key) active fired (replays i a sent).
Proof.
  intros Henv Hini Hp Hn He. cbn zeta. unfold replay_entry. fold (known_fired prev active i (inputRequiredReplayKey e)). rewrite Hini.
  set (key := inputRequiredReplayKey e). destruct (known_fired prev active i key) as [f|] eqn:Ek.
  2: { exists active, (rr_details next), []. rewrite app_nil_r. split_and!; done. }
  cbn [default from_option id]. destruct (negb _) eqn:Ep.
  { exists f, (rr_details next), []. rewrite app_nil_r. split_and!; try done. cbn. split; [lia|]. split; [lia|done]. }
  destruct (detail_named_spec env (rr_details prev) (rr_details next) e key i Henv Hp Hn He) as (issue & details & reqs & -> & Hd & Hr & Hi).
  destruct issue as [issue|].
  2: { exists f, details, reqs. split_and!; [done|done|intros j b _; by apply no_replays_in_requests|].
       cbn. rewrite no_replays_in_requests by done. split; [lia|]. split; [lia|done]. }
  destruct (replay_rules env e issue a automations f []) as (f' & sent & Hf & [R1 R2 R3 R4 R5]). cbn [app] in Hf. rewrite Hf.
  rewrite (Hi issue eq_refl) in *. exists f', details, (reqs ++ sent). split_and!; [done|done| |].
  - intros j b Hj. rewrite replays_app, no_replays_in_requests by done. by apply R2.
  - cbn. rewrite replays_app, no_replays_in_requests by done. cbn. split; [done|]. split; [done|].
    intros Ha. split; [by apply R3|by apply R1].
Qed.

(** A tick's questions, one after the other. *)
Lemma replay_entries env automations active prev next effects l i e a :
  replay_env_ok env -> rr_initialized prev = true -> details_named (rr_details prev) -> details_named (rr_details next) ->
  NoDup (map fst l) -> (forall j x, (j, x) ∈ l -> InputRequiredIssues (pe_snap env AtReplay) !! j = Some x) ->
  exists next' sent, foldl (replay_entry env automations active prev) (next, effects) l = (next', effects ++ sent) /\
    rr_initialized next' = rr_initialized next /\ details_named (rr_details next') /\
    (i ∉ map fst l -> rr_issues next' !! i = rr_issues next !! i /\ replays i a sent = 0%nat) /\
    ((i, e) ∈ l -> exists fired, rr_issues next' !! i = Some (MkInputRequiredReplayIssueState (inputRequiredReplayKey e) fired) /\
       rule_outcome a (known_fired prev active i (inputRequiredReplayKey e)) active fired (replays i a sent)).
Proof.
  intros Henv Hini Hp. revert next effects. induction l as [|[j x] l IH]; intros next effects Hn Hnd Hl.
  { exists next, []. cbn. rewrite app_nil_r. split_and!; [done|done|done|done|]. by intros ?%not_elem_of_nil. }
  apply NoDup_cons in Hnd as [Hj Hnd]. cbn [foldl].
  destruct (replay_entry_step env automations active prev next effects j x a Henv Hini Hp Hn (Hl j x ltac:(by left)))
    as (fired & details & sent & -> & Hd & Ho & Hr).
  destruct (IH (next <| rr_issues := <[j := MkInputRequiredReplayIssueState (inputRequiredReplayKey x) fired]> (rr_issues next) |>
                  <| rr_details := details |>) (effects ++ sent)) as (next' & sent' & -> & I1 & I2 & I3 & I4);
    [done|done|intros k y Hk; apply Hl; by right|].
  exists next', (sent ++ sent'). split; [by rewrite app_assoc|]. split; [done|]. split; [done|]. cbn [map fst]. split.
  - intros [Hi Hi']%not_elem_of_cons. destruct (I3 Hi') as [E1 E2]. rewrite E1, replays_app, E2, Ho by done.
    cbn. by rewrite lookup_insert_ne.
  - intros [[= -> ->]|Hin]%elem_of_cons.
    + destruct (I3 Hj) as [E1 E2]. exists fired. rewrite E1, replays_app, E2, Nat.add_0_r. cbn. by rewrite lookup_insert_eq.
    + destruct (I4 Hin) as (f & E & H). exists f. split; [done|]. rewrite replays_app, Ho; [done|].
      intros ->. apply Hj. apply (elem_of_map_intro fst) in Hin. exact Hin.
Qed.

Lemma elem_of_sorted_entries m i e : (i, e) ∈ sorted_entries m <-> m !! i = Some e.
Proof.
  unfold sorted_entries. rewrite list_elem_of_omap. split.
  - intros (j & _ & H). destruct (m !! j) eqn:E; [|done]. injection H as <- <-. done.
  - intros H. exists i. split; [|by rewrite H]. unfold sort_strings. rewrite sort_stable_perm, elem_of_map.
    exists (i, e). by rewrite elem_of_map_to_list.
Qed.

Lemma NoDup_sorted_entries m : NoDup (map fst (sorted_entries m)).
Proof.
  unfold sorted_entries. assert (H : NoDup (sort_strings (map fst (map_to_list m))))
    by (unfold sort_strings; rewrite sort_stable_perm; apply NoDup_fst_map_to_list).
  revert H. generalize (sort_strings (map fst (map_to_list m))). induction l as [|j l IH]; intros Hnd; [constructor|].
  apply NoDup_cons in Hnd as [Hj Hnd]. cbn. destruct (m !! j) as [e|]; cbn; [|by apply IH]. apply NoDup_cons. split; [|by apply IH].
  intros ([k x] & E & (u & Hu & Eu)%list_elem_of_omap)%elem_of_map. cbn in E. subst k. destruct (m !! u); [|done].
  injection Eu as -> _. done.
Qed.

Lemma prefetch_named env prev entries : replay_env_ok env ->
  details_named (replay_prefetch env prev entries).1 /\ Forall is_request (replay_prefetch env prev entries).2.
Proof.
  intros Henv. unfold replay_prefetch. set (ids := omap _ entries). unfold PrefetchDetails.
  assert (Hf : forall (m : gmap string Issue) details,
    (forall id x, m !! id = Some x -> issue_Identifier x = N id) -> details_named details ->
    details_named (foldl (fun next (kv : string * InputRequiredEntry) =>
     let e := kv.2 in
     if String.eqb (ir_IssueID e) "" then next
     else match m !! ir_IssueID e with
          | Some issue => <[ir_IssueID e := MkInputRequiredDetailCacheEntry (Some issue) (inputRequiredReplayKey e) (pe_now env)]> next
          | None => next
          end) details entries)).
  { intros m details Hm. revert details. induction entries as [|[j e] l IH]; intros details Hd; [done|]. cbn [foldl]. apply IH.
    cbn. destruct (String.eqb _ _); [done|]. destruct (m !! ir_IssueID e) as [y|] eqn:Ey; [|done].
    intros id c x. rewrite lookup_insert_Some. intros [[<- <-]|[_ H]]; [|by apply Hd]. cbn. intros [= <-]. by apply Hm. }
  assert (He : details_named ∅) by (intros id c x; by rewrite lookup_empty).
  destruct (length _ <? 2)%nat; [cbn; split; [by apply Hf|constructor]|].
  destruct (pe_batch env) as [batch|] eqn:Eb; [|cbn; split; [by apply Hf|constructor]].
  cbn. split; [|by repeat constructor]. apply Hf; [|done].
  destruct (batch _) as [issues|] eqn:Ei; [|intros id x; by rewrite lookup_empty].
  pose proof (fun x => re_batch env Henv batch _ issues x Eb Ei) as Hx.
  assert (Hg : forall (m : gmap string Issue), (forall id x, m !! id = Some x -> issue_Identifier x = N id) ->
    forall id x, foldl (fun m i => <[issue_ID i := i]> m) m issues !! id = Some x -> issue_Identifier x = N id).
  { clear -Hx. induction issues as [|y l IH]; intros m Hm; [done|]. cbn [foldl]. apply IH; [intros z Hz; apply Hx; by right|].
    intros id x. rewrite lookup_insert_Some. intros [[<- <-]|[_ H]]; [apply Hx; by left|by apply Hm]. }
  apply Hg. intros id x. by rewrite lookup_empty.
Qed.

Definition rule_ids (automations : list InputRequiredAutomation) : gset string :=
  list_to_set (map (fun a => rule_ID (ira_rule a)) automations).

(** One tick, for one question and one rule. *)
Lemma replay_tick env automations prev i e a :
  replay_env_ok env -> rr_initialized prev = true -> details_named (rr_details prev) ->
  automationProducersPaused (pe_snap env AtReplay) = false -> InputRequiredIssues (pe_snap env AtReplay) !! i = Some e ->
  exists next sent fired, replayInputRequiredAutomations env automations prev = (next, sent) /\
    rr_initialized next = true /\ details_named (rr_details next) /\
    rr_issues next !! i = Some (MkInputRequiredReplayIssueState (inputRequiredReplayKey e) fired) /\
    rule_outcome a (known_fired prev (rule_ids automations) i (inputRequiredReplayKey e)) (rule_ids automations) fired (replays i a sent).
Proof.
  intros Henv Hini Hp Hq He. unfold replayInputRequiredAutomations. rewrite Hq. fold (rule_ids automations).
  set (entries := sorted_entries _).
  destruct (match automations with [] => _ | _ => _ end) as [details reqs] eqn:Ed.
  assert (Hd : details_named details /\ Forall is_request reqs).
  { destruct automations; [injection Ed as <- <-; split; [intros id c x; by rewrite lookup_empty|constructor]|].
    pose proof (prefetch_named env prev entries Henv) as H. by rewrite Ed in H. }
  destruct Hd as [Hd Hr].
  destruct (replay_entries env automations (rule_ids automations) prev (MkInputRequiredReplayState true ∅ details) reqs entries i e a)
    as (next & sent & -> & H1 & H2 & _ & H4); [done|done|done|done|apply NoDup_sorted_entries|
    intros j x Hj; by apply elem_of_sorted_entries in Hj|].
  destruct (H4 ltac:(by apply elem_of_sorted_entries)) as (fired & E & Ho).
  exists next, (reqs ++ sent), fired. split_and!; try done. by rewrite replays_app, no_replays_in_requests by done.
Qed.

(** A tick while issue [i] waits with the question [key], and rule [a] is there. *)
Definition waits (i key a : string) (tick : ProducerEnv * list InputRequiredAutomation) : Prop :=
  replay_env_ok tick.1 /\
  (automationProducersPaused (pe_snap tick.1 AtReplay) = true \/
   (a ∈ rule_ids tick.2 /\
    exists e, InputRequiredIssues (pe_snap tick.1 AtReplay) !! i = Some e /\ inputRequiredReplayKey e = key)).

(** The effects of the ticks, from a state of the replays on. *)
Fixpoint replay_history (prev : inputRequiredReplayState) (ticks : list (ProducerEnv * list InputRequiredAutomation)) :
    list ProducerEffect :=
  match ticks with
  | [] => []
  | t :: ticks =>
      let '(next, sent) := replayInputRequiredAutomations t.1 t.2 prev in
      sent ++ replay_history next ticks
  end.

Lemma paused_tick env automations prev : automationProducersPaused (pe_snap env AtReplay) = true ->
  replayInputRequiredAutomations env automations prev = (prev, []).
Proof. intros H. unfold replayInputRequiredAutomations. by rewrite H. Qed.

(** Once it has fired for a question it stays so. *)
Lemma replayed_stays i key a ticks : Forall (waits i key a) ticks -> forall prev f, rr_initialized prev = true ->
  details_named (rr_details prev) -> rr_issues prev !! i = Some (MkInputRequiredReplayIssueState key f) ->
  (replays i a (replay_history prev ticks) <= 1)%nat /\ (a ∈ f -> replays i a (replay_history prev ticks) = 0%nat).
Proof.
  induction 1 as [|[env automations] ticks [Henv Hw] _ IH]; intros prev f Hini Hp Hf; [cbn; split; [lia|done]|].
  cbn [fst snd] in *. cbn [replay_history fst snd]. destruct Hw as [Hq|(Ha & e & He & <-)].
  { rewrite paused_tick by done. by eapply IH. }
  destruct (automationProducersPaused (pe_snap env AtReplay)) eqn:Hq; [rewrite paused_tick by done; by eapply IH|].
  destruct (replay_tick env automations prev i e a Henv Hini Hp Hq He) as (next & sent & fired & -> & H1 & H2 & H3 & Ho).
  rewrite replays_app. destruct (IH next fired H1 H2 H3) as [I1 I2].
  unfold known_fired in Ho. rewrite Hf in Ho. cbn [ri_blockedKey ri_fired] in Ho. rewrite String.eqb_refl in Ho. cbn in Ho.
  destruct Ho as (O1 & O2 & O3). split.
  - destruct (decide (replays i a sent = 1%nat)) as [E|E]; [rewrite I2 by (by apply O2); lia|lia].
  - intros Hin. destruct O3 as [-> Hx]; [set_solver|]. by apply I2.
Qed.


End named.

(** ** On examples *)

Module Demo.

Definition at_minute (n : Z) : Time := unix_epoch + n * Minute.

Definition env (now : Time) (issues : list Issue) (detail : string -> FetchOutcome) (snap : State) : ProducerEnv :=
  MkProducerEnv now empty_config ∅ [] (["Todo"], ["Done"], "") (fun _ => snap)
    (fun _ _ => Some issues) detail (fun _ => FetchFailed "none") (Some (fun ids => Some (List.filter (fun i => bool_decide (issue_ID i ∈ ids)) issues)))
    (fun _ _ => true).

Definition issue (id : string) : Issue :=
  MkIssue id id "title" None None "Todo" None None [] [] [] None None.

Definition says (id body author : string) : Comment := MkComment id body None "u" author.

Definition rule (id type cron : string) : AutomationConfig :=
  MkAutomationConfig id true "p" "" (MkAutomationTriggerConfig type cron "" "") (MkAutomationFilterConfig "" [] [] "" 0 "" 0 [] "")
    (MkAutomationPolicyConfig false "" "" 0 "").

(** Every ten minutes, an hour east of UTC. *)
Definition every_ten : compiledAutomation :=
  MkCompiledAutomation (rule "ten" AutomationTriggerCron "*/10 * * * *")
    (match Parse "*/10 * * * *" with inr e => Some e | inl _ => None end) (fun _ => 3600) None None.

Definition quiet (now : Time) : ProducerEnv := env now [issue "1"] (fun _ => FetchNil) empty_State.

(** A rule on comments, and a tick that finds the first comments of an issue. *)
Definition on_comment : compiledAutomation :=
  MkCompiledAutomation (rule "c" AutomationTriggerTrackerComment "") None (fun _ => 0) None None.

Definition with_comments (comments : list Comment) : string -> FetchOutcome :=
  fun id => Fetched (issue id <| issue_Comments := comments |>).

Definition poll_of (detail : string -> FetchOutcome) : Poll := (env unix_epoch [issue "1"] detail empty_State, [], [on_comment]).

Definition talk : list Comment := [says "c1" "hello" "ann"; says "c2" "please look" "bob"].

(** Two questions that wait. *)
Definition question (id : string) (asked : Time) : InputRequiredEntry :=
  MkInputRequiredEntry id id "" "" "" "" "" "" "" "" "" "" "" asked zero_time false.

Definition asking (asked : Time) : State :=
  empty_State <| InputRequiredIssues := {["1" := question "1" asked; "2" := question "2" asked]} |>.

Definition answer_rule (id : string) (max_age : Duration) : InputRequiredAutomation :=
  MkInputRequiredAutomation (MkRule id "p" "" "" [] [] None) None false max_age.

(** Ticks every 15 seconds. *)
Definition replay_env (n : Z) : ProducerEnv :=
  env (unix_epoch + n * 15 * Second) [issue "1"; issue "2"] (fun id => Fetched (issue id)) (asking unix_epoch).

Definition replay_start : inputRequiredReplayState := wt_replay startAutomations.

Fixpoint replay_ticks (prev : inputRequiredReplayState) (ticks : list (ProducerEnv * list InputRequiredAutomation)) :
    list (list ProducerEffect) :=
  match ticks with
  | [] => []
  | t :: ticks => let '(next, sent) := replayInputRequiredAutomations t.1 t.2 prev in sent :: replay_ticks next ticks
  end.

Lemma replay_env_fine n : replay_env_ok (fun id => id) (replay_env n).
Proof.
  constructor.
  - by intros id x [= <-].
  - done.
  - intros batch ids issues x Hb Hi H. injection Hb as <-. injection Hi as <-.
    repeat case_bool_decide; repeat (apply elem_of_cons in H as [->|H]; [done|]); by apply not_elem_of_nil in H.
  - intros i e. cbn [replay_env env pe_snap asking]. intros H.
    change (({["1" := question "1" unix_epoch; "2" := question "2" unix_epoch]} : gmap string InputRequiredEntry) !! i = Some e) in H.
    apply lookup_insert_Some in H as [[<- <-]|[_ H]]; [by split|]. apply lookup_singleton_Some in H as [<- <-]. by split.
Qed.

End Demo.


(** The first comment is the baseline, the second fires, once. *)
Lemma comment_fires_once_witness :
  comments_sent "c" "1" (poll_history no_polls (map (fun n => Demo.poll_of (Demo.with_comments (firstn n Demo.talk))) [1; 1; 2; 2]%nat)) = ["c2"] /\
  NoDup (comments_sent "c" "1" (poll_history no_polls (map (fun n => Demo.poll_of (Demo.with_comments (firstn n Demo.talk))) [1; 1; 2; 2]%nat))).
Proof.
  split; [vm_compute; reflexivity|].
  apply (comment_fires_once "c" "1" Demo.talk (map (fun n => Demo.poll_of (Demo.with_comments (firstn n Demo.talk))) [1; 1; 2; 2]%nat)).
  - vm_compute. repeat (constructor; [set_solver|]). constructor.
  - cbn [map reads_log Demo.poll_of].
    exists 1%nat; split; [cbn; lia|]; split; [by intros ? [= <-]|]. exists 1%nat; split; [cbn; lia|]; split; [by intros ? [= <-]|].
    exists 2%nat; split; [cbn; lia|]; split; [by intros ? [= <-]|]. exists 2%nat; split; [cbn; lia|]; split; [by intros ? [= <-]|]. done.
  - apply Forall_map, Forall_forall. intros n _. split; [apply NoDup_singleton|]. split; [by intros e ->%list_elem_of_singleton|].
    intros states issues [= <-]. apply NoDup_singleton.
Defined.

(** A rule added while a question waits. *)
Definition after_first_tick : inputRequiredReplayState :=
  fst (replayInputRequiredAutomations (Demo.replay_env 0) [] Demo.replay_start).

Definition ticks_with_rule : list (ProducerEnv * list InputRequiredAutomation) :=
  map (fun n => (Demo.replay_env n, [Demo.answer_rule "late" 0])) [1; 2; 3].


(** ** What the watch misses *)

Definition requests_of (effects : list ProducerEffect) : nat :=
  length (List.filter (fun x => match x with FetchedBatch _ | FetchedDetail _ => true | _ => false end) effects).

(** Two questions whose one rule has long fired cost a batch request at every
    second tick: what the batch fetched is forgotten at the next one, which
    skips both questions before it looks at the cache. *)
Theorem steady_state_spends_requests :
  map requests_of (Demo.replay_ticks Demo.replay_start (map (fun n => (Demo.replay_env n, [Demo.answer_rule "a" 0])) [0; 1; 2; 3; 4])) =
    [1; 0; 1; 0; 1]%nat.
Proof. vm_compute. reflexivity. Qed.

(** A rule for questions of at most five minutes is replayed for one that has
    waited a day. *)
Theorem replay_ignores_max_age :
  let old := Demo.env (unix_epoch + 24 * 60 * Minute) [] (fun id => Fetched (Demo.issue id)) (Demo.asking unix_epoch) in
  replays "1" "late" (replay_history Demo.replay_start [(old, []); (old, [Demo.answer_rule "late" (5 * Minute)])]) = 1%nat.
Proof. vm_compute. reflexivity. Qed.

(** A comment that arrives around one failed request never fires. *)
Theorem failed_detail_loses_comment :
  comments_sent "c" "1" (poll_history no_polls (map Demo.poll_of
    [Demo.with_comments (firstn 1 Demo.talk); Demo.with_comments (firstn 1 Demo.talk); (fun _ => FetchFailed "timeout");
     Demo.with_comments Demo.talk; Demo.with_comments Demo.talk])) = [].
Proof. vm_compute. reflexivity. Qed.

(** When the latest comment is deleted the one before it fires again. *)
Theorem deleted_comment_refires :
  let c3 := Demo.says "c3" "never mind" "bob" in
  comments_sent "c" "1" (poll_history no_polls (map (fun l => Demo.poll_of (Demo.with_comments l))
    [firstn 1 Demo.talk; firstn 1 Demo.talk; Demo.talk; Demo.talk ++ [c3]; Demo.talk])) = ["c2"; "c3"; "c2"].
Proof. vm_compute. reflexivity. Qed.

(** Of the comments between two polls only the last is looked at: one that
    Itervox itself writes after it hides a user's. *)
Theorem own_comment_hides_users :
  let own := Demo.says "c3" "done" "Itervox" in
  comments_sent "c" "1" (poll_history no_polls (map (fun l => Demo.poll_of (Demo.with_comments l))
    [firstn 1 Demo.talk; firstn 1 Demo.talk; Demo.talk ++ [own]; Demo.talk ++ [own]])) = [].
Proof. vm_compute. reflexivity. Qed.

(** A rule on merged pull requests is registered, and counted as dropped. *)
Theorem merged_rules_counted_dropped :
  let profiles : gmap string AgentProfile := {["p" := MkAgentProfile "" "" None]} in
  let compiled := compileAutomations (fun _ => None) (fun _ => 0) (fun _ => None) profiles [Demo.rule "m" AutomationTriggerPRMerged ""] in
  length (cs_prMerged compiled) = 1%nat /\ logAutomationCompileSummary 1 compiled = (0, 1).
Proof. vm_compute. by split. Qed.
