(* ===== verification/CommentCommands.v ===== *)
(** * CommentCommands: driving Itervox from an issue's comments
    (cmd/itervox/comment_commands.go, config/comment_commands.go,
    tracker/github/comment_commands.go 20-31)

    A maintainer writes a comment that begins with /itervox.  A goroutine of
    its own lists the repository's new comments every 30 seconds, asks who
    wrote each command, records it on disk and then acts on it: a command is a
    request to the orchestrator ([Call] of Control) or a move of the issue.

    What the poll asks and does is recorded in order, each successful write of
    the ledger included, so that a crash is a prefix of that record.  A poll
    reads the clock once.  What GitHub and the orchestrator answer, and whether
    a write of the file succeeds, is an argument.  A ledger that cannot be read
    is a missing one.

    The theorems: whatever crashes, each command is acted on at most once; who
    may command; what a command may touch; no command is lost to an outage. *)

From stdpp Require Import base gmap list strings.
From S2P Require Import Prelude Domain Config State Tracker Control.

Local Open Scope Z_scope.

Definition commentCommandOverlap : Duration := 2 * Minute.
Definition commentCommandPermTTL : Duration := 10 * Minute.
Definition commentCommandMaxCheckFailures : Z := 10.

Record CommentCommandsConfig := MkCommentCommandsConfig {
  cc_Allow : list string;
  cc_AllowTokenUser : bool;
  cc_ReplyToUnauthorized : bool;
}.

Record RepoComment := MkRepoComment {
  rp_ID : string;
  rp_IssueNumber : string;
  rp_Body : string;
  rp_Login : string;
  rp_UserType : string;
  rp_CreatedAt : Time;
  rp_OnPullRequest : bool;
}.

Record itervoxCommand := MkItervoxCommand {
  cmd_Verb : string;
  cmd_Profile : string;
}.

(** The first line that is not blank. *)
Fixpoint first_line (lines : list string) : option string :=
  match lines with
  | [] => None
  | line :: lines => if String.eqb (trim_space line) "" then first_line lines else Some (trim_space line)
  end.

Definition parseItervoxCommand (body : string) : option itervoxCommand :=
  match fields <$> first_line (split_at newline body) with
  | Some (head :: rest) =>
      if negb (String.eqb head "/itervox") then None
      else
        match rest with
        | [] => Some (MkItervoxCommand "help" "")
        | verb :: rest =>
            let verb := to_lower verb in
            Some (MkItervoxCommand verb (if String.eqb verb "run" then hd "" rest else ""))
        end
  | _ => None
  end.

(** ** The ledger and the handler *)

Record commentCommandLedger := MkLedger {
  cl_Cursor : Time;
  cl_Handled : gmap string Time;
  cl_Floor : Time;
}.

#[export] Instance eta_commentCommandLedger : Settable commentCommandLedger := {|
  eta_record l := MkLedger (cl_Cursor l) (cl_Handled l) (cl_Floor l) |}.

Record cachedPermission := MkCachedPermission {
  cp_perm : string;
  cp_at : Time;
}.

Record commentCommandHandler := MkHandler {
  ch_cfg : CommentCommandsConfig;
  ch_ledger : commentCommandLedger;
  ch_tokenLogin : string;
  ch_perms : gmap string cachedPermission;
  ch_failures : gmap string Z;
  ch_floor : Time;
}.

#[export] Instance eta_commentCommandHandler : Settable commentCommandHandler := {|
  eta_record h := MkHandler (ch_cfg h) (ch_ledger h) (ch_tokenLogin h) (ch_perms h) (ch_failures h) (ch_floor h) |}.

(** The ledger to start from, and the floor. *)
Definition loadLedger (disk : option commentCommandLedger) (now : Time) : commentCommandLedger * Time :=
  match disk with
  | None => (MkLedger now ∅ now, now)
  | Some l => (l, cl_Floor l)
  end.

Definition newCommentCommandHandler (cfg : CommentCommandsConfig) (disk : option commentCommandLedger) (now : Time) :
    commentCommandHandler :=
  let '(ledger, floor) := loadLedger disk now in MkHandler cfg ledger "" ∅ ∅ floor.

Definition laterTime (a b : Time) : Time := if time_after b a then b else a.

Definition windowStart (h : commentCommandHandler) : Time :=
  laterTime (time_add (cl_Cursor (ch_ledger h)) (- commentCommandOverlap)) (ch_floor h).

(** ** What a poll asks and does *)

Record CommandEnv := MkCommandEnv {
  ce_now : Time;
  ce_login : option string;
  ce_list : Time -> option (list RepoComment);
  ce_permission : string -> string + string;
  ce_write : nat -> bool;
  ce_profiles : gmap string AgentProfile;
  ce_snap : State;
  ce_call : Call -> option string;
  ce_states : list string * list string;
  ce_issue : string -> string + list Issue;
  ce_update : string -> string -> option string;
}.

Inductive CommandEffect :=
  | AskedLogin
  | Listed (since : Time)
  | AskedPermission (login : string) (answer : string + string) (at_ : Time)
  | Wrote (l : commentCommandLedger)
  | NotWritten
  | Acting (c : RepoComment) (cmd : itervoxCommand) (at_ : Time)
  | Called (request : Call) (err : option string)
  | AskedState (number : string)
  | Moved (number state : string) (err : option string)
  | Refreshed
  | Reacted (id content : string)
  | Replied (number body : string).

(** A poll under way: the handler, the writes so far, what was done so far. *)
Record Run := MkRun {
  ru_h : commentCommandHandler;
  ru_writes : nat;
  ru_effects : list CommandEffect;
}.

#[export] Instance eta_Run : Settable Run := {| eta_record r := MkRun (ru_h r) (ru_writes r) (ru_effects r) |}.

Definition tell (es : list CommandEffect) (r : Run) : Run := r <| ru_effects := ru_effects r ++ es |>.

Definition on_h (f : commentCommandHandler -> commentCommandHandler) (r : Run) : Run := r <| ru_h := f (ru_h r) |>.

Definition on_ledger (f : commentCommandLedger -> commentCommandLedger) (h : commentCommandHandler) : commentCommandHandler :=
  h <| ch_ledger := f (ch_ledger h) |>.

(** The records of comments created before the window go. *)
Definition in_window (h : commentCommandHandler) : gmap string Time :=
  filter (fun kv => negb (time_before kv.2 (windowStart h)) = true) (cl_Handled (ch_ledger h)).

(** They go, then the ledger is written. *)
Definition saveLedger (env : CommandEnv) (r : Run) : bool * Run :=
  let h := ru_h r in
  let h := on_ledger (fun l => l <| cl_Handled := in_window h |>) h in
  let ok := ce_write env (ru_writes r) in
  (ok, MkRun h (S (ru_writes r)) (ru_effects r ++ [if ok then Wrote (ch_ledger h) else NotWritten])).

Inductive Refusal := TokenUser | IsBot | CheckFailed (err : string) | NotPermitted (perm : string) | Unreadable.

Definition ask_permission (env : CommandEnv) (login : string) (r : Run) : (string + string) * Run :=
  let answer := ce_permission env login in
  let r := tell [AskedPermission login answer (ce_now env)] r in
  (answer, match answer with
           | inl _ => r
           | inr perm => on_h (fun h => h <| ch_perms := <[to_lower login := MkCachedPermission perm (ce_now env)]> (ch_perms h) |>) r
           end).

(** An answer serves for ten minutes. *)
Definition permission (env : CommandEnv) (login : string) (r : Run) : (string + string) * Run :=
  match ch_perms (ru_h r) !! to_lower login with
  | Some p => if time_sub (ce_now env) (cp_at p) <? commentCommandPermTTL then (inr (cp_perm p), r) else ask_permission env login r
  | None => ask_permission env login r
  end.

(** [None]: the author may run commands. *)
Definition authorized (env : CommandEnv) (c : RepoComment) (r : Run) : option Refusal * Run :=
  let h := ru_h r in
  if negb (String.eqb (ch_tokenLogin h) "") && equal_fold (rp_Login c) (ch_tokenLogin h) then (Some TokenUser, r)
  else if existsb (fun a => equal_fold a (rp_Login c)) (cc_Allow (ch_cfg h)) then (None, r)
  else if equal_fold (rp_UserType c) "Bot" then (Some IsBot, r)
  else
    match permission env (rp_Login c) r with
    | (inl err, r) => (Some (CheckFailed err), r)
    | (inr perm, r) => (if String.eqb perm "admin" || String.eqb perm "write" then None else Some (NotPermitted perm), r)
    end.

(** *** The commands: the error to report, and what was done *)

Definition some_profile (env : CommandEnv) (profile : string) : bool :=
  match ce_profiles env !! profile with Some p => ProfileEnabled p | None => false end.

Definition set_profile (env : CommandEnv) (identifier profile : string) : list CommandEffect :=
  if String.eqb profile "" then []
  else [Called (CallSetProfile identifier profile) (ce_call env (CallSetProfile identifier profile))].

Definition state_in (states : list string) (state : string) : bool := existsb (fun s => equal_fold s state) states.

Definition run (env : CommandEnv) (number identifier profile : string) : option string * list CommandEffect :=
  if negb (String.eqb profile "") && negb (some_profile env profile) then (Some ("no enabled profile " +:+ go_quote profile), [])
  else
    let snap := ce_snap env in
    if bool_decide (is_Some (Running snap !! number)) then (Some "already running", [])
    else if bool_decide (is_Some (PausedIdentifiers snap !! identifier)) then
      let resume := CallResume identifier in
      let err := ce_call env resume in
      (err, set_profile env identifier profile ++ [Called resume err] ++ match err with None => [Refreshed] | Some _ => [] end)
    else
      let '(active, terminal) := ce_states env in
      let unread why := (Some ("cannot read the issue's state (" +:+ why +:+ ")"), [AskedState number]) in
      match ce_issue env number with
      | inl err => unread err
      | inr [] => unread "<nil>"
      | inr (issue :: _) =>
          let state := issue_State issue in
          if state_in terminal state then (Some ("the issue is closed (" +:+ state +:+ ")"), [AskedState number])
          else
            let said := AskedState number :: set_profile env identifier profile in
            if state_in active state then (None, said ++ [Refreshed])
            else
              match active with
              | [] => (Some "no active state is configured", said)
              | first :: _ =>
                  match ce_update env number first with
                  | Some err => (Some ("cannot move the issue to " +:+ go_quote first +:+ " (" +:+ err +:+ ")"), said ++ [Moved number first (Some err)])
                  | None => (None, said ++ [Moved number first None; Refreshed])
                  end
              end
      end.

Definition act (env : CommandEnv) (number : string) (cmd : itervoxCommand) : option string * list CommandEffect :=
  let identifier := "#" +:+ number in
  let ask request := let err := ce_call env request in (err, [Called request err]) in
  if String.eqb (cmd_Verb cmd) "run" then run env number identifier (cmd_Profile cmd)
  else if String.eqb (cmd_Verb cmd) "stop" then
    let '(err, said) := ask (CallCancel identifier) in ((fun e => "nothing to stop (" +:+ e +:+ ")") <$> err, said)
  else if String.eqb (cmd_Verb cmd) "review" then ask (CallDispatchReviewer identifier)
  else (Some "unknown command; use `/itervox run [profile]`, `/itervox stop` or `/itervox review`", []).

Definition reply (c : RepoComment) (body : string) : CommandEffect := Replied (rp_IssueNumber c) (MarkManagedComment body).

(** The command is recorded, then acted on. *)
Definition act_on (env : CommandEnv) (c : RepoComment) (cmd : itervoxCommand) (r : Run) : Run :=
  let '(err, said) := act env (rp_IssueNumber c) cmd in
  tell (Acting c cmd (ce_now env) :: said ++
        match err with
        | Some e => [Reacted (rp_ID c) "confused";
                     reply c ("@" +:+ rp_Login c +:+ " `/itervox " +:+ cmd_Verb cmd +:+ "`: " +:+ e)]
        | None => [Reacted (rp_ID c) "+1"]
        end) r.

Definition refuse (c : RepoComment) (why : Refusal) (r : Run) : Run :=
  if cc_ReplyToUnauthorized (ch_cfg (ru_h r)) && match why with TokenUser | IsBot | Unreadable => false | _ => true end
  then tell [reply c ("@" +:+ rp_Login c +:+ " only maintainers with write access can run `/itervox` commands here.")] r
  else r.

(** Records the comment, and acts on it or refuses it; [true] when nothing was
    recorded and the next poll must look again. *)
Definition record_and_act (env : CommandEnv) (c : RepoComment) (cmd : itervoxCommand) (why : option Refusal) (r : Run) : bool * Run :=
  let r := on_h (fun h => on_ledger (fun l => l <| cl_Handled := <[rp_ID c := rp_CreatedAt c]> (cl_Handled l) |>)
                            (h <| ch_failures := base.delete (rp_ID c) (ch_failures h) |>)) r in
  match saveLedger env r with
  | (false, r) => (true, on_h (on_ledger (fun l => l <| cl_Handled := base.delete (rp_ID c) (cl_Handled l) |>)) r)
  | (true, r) => (false, match why with Some w => refuse c w r | None => act_on env c cmd r end)
  end.

Definition handle (env : CommandEnv) (c : RepoComment) (cmd : itervoxCommand) (r : Run) : bool * Run :=
  match authorized env c r with
  | (Some (CheckFailed err), r) =>
      let n := default 0 (ch_failures (ru_h r) !! rp_ID c) + 1 in
      let r := on_h (fun h => h <| ch_failures := <[rp_ID c := n]> (ch_failures h) |>) r in
      if n <? commentCommandMaxCheckFailures then (true, r) else record_and_act env c cmd (Some Unreadable) r
  | (why, r) => record_and_act env c cmd why r
  end.

(** ** A poll *)

(** What a comment asks for, if it is a command for an issue. *)
Definition command_of (c : RepoComment) : option itervoxCommand :=
  if contains (rp_Body c) ManagedCommentMarker then None
  else if rp_OnPullRequest c then None
  else parseItervoxCommand (rp_Body c).

Record PollAcc := MkPollAcc {
  pa_run : Run;
  pa_latest : Time;
  pa_retryFrom : Time;
}.

Definition poll_comment (env : CommandEnv) (start : Time) (acc : PollAcc) (c : RepoComment) : PollAcc :=
  let r := pa_run acc in
  let latest := if time_after (rp_CreatedAt c) (pa_latest acc) then rp_CreatedAt c else pa_latest acc in
  let same := MkPollAcc r latest (pa_retryFrom acc) in
  if bool_decide (is_Some (cl_Handled (ch_ledger (ru_h r)) !! rp_ID c)) then same
  else if time_before (rp_CreatedAt c) start then same
  else
    match command_of c with
    | None => same
    | Some cmd =>
        let '(retry, r) := handle env c cmd r in
        MkPollAcc r latest
          (if retry && (time_is_zero (pa_retryFrom acc) || time_before (rp_CreatedAt c) (pa_retryFrom acc))
           then rp_CreatedAt c else pa_retryFrom acc)
    end.

(** The cursor after the poll: it never moves back, and stays where a command
    that must be looked at again is in the window. *)
Definition next_cursor (cursor latest retryFrom : Time) : Time :=
  if negb (time_is_zero retryFrom) && time_before retryFrom latest then laterTime cursor retryFrom else latest.

(** The token's own login is asked for once, unless it may command. *)
Definition know_login (env : CommandEnv) (h : commentCommandHandler) : option commentCommandHandler * list CommandEffect :=
  if String.eqb (ch_tokenLogin h) "" && negb (cc_AllowTokenUser (ch_cfg h)) then
    ((fun login => h <| ch_tokenLogin := login |>) <$> ce_login env, [AskedLogin])
  else (Some h, []).

Definition poll (env : CommandEnv) (h : commentCommandHandler) : commentCommandHandler * list CommandEffect :=
  match know_login env h with
  | (None, asked) => (h, asked)
  | (Some h, asked) =>
      let start := windowStart h in
      match ce_list env start with
      | None => (h, asked ++ [Listed start])
      | Some comments =>
          let acc := foldl (poll_comment env start) (MkPollAcc (MkRun h 0 (asked ++ [Listed start])) (cl_Cursor (ch_ledger h)) zero_time) comments in
          let r := on_h (on_ledger (fun l => l <| cl_Cursor := next_cursor (cl_Cursor l) (pa_latest acc) (pa_retryFrom acc) |>)) (pa_run acc) in
          let '(_, r) := saveLedger env r in
          (ru_h r, ru_effects r)
      end
  end.

(** ** At most once *)

Definition disk_step (disk : option commentCommandLedger) (e : CommandEffect) : option commentCommandLedger :=
  match e with Wrote l => Some l | _ => disk end.

Definition acted_by (e : CommandEffect) : option string :=
  match e with Acting c _ _ => Some (rp_ID c) | _ => None end.

Definition disk_after (disk : option commentCommandLedger) (es : list CommandEffect) : option commentCommandLedger :=
  foldl disk_step disk es.

(** The comments acted on, in order. *)
Definition acted (es : list CommandEffect) : list string := omap acted_by es.

(** A quiet effect neither writes the ledger nor begins an action. *)
Definition quiet_effect (e : CommandEffect) : Prop := match e with Wrote _ | Acting _ _ _ => False | _ => True end.

Lemma acted_app a b : acted (a ++ b) = acted a ++ acted b.
Proof. apply omap_app. Qed.

Lemma quiet_acted es : Forall quiet_effect es -> acted es = [] /\ forall d, disk_after d es = d.
Proof. induction 1 as [|e es He _ [IH1 IH2]]; [done|]. destruct e; try done; (split; [exact IH1|intros d; apply IH2]). Qed.

Section once.
(** When each comment was created. *)
Context (B : string -> Time).

Definition window_of (l : commentCommandLedger) : Time := laterTime (time_add (cl_Cursor l) (- commentCommandOverlap)) (cl_Floor l).

(** Every comment of [ids] is on record or before the window. *)
Record covers (l : commentCommandLedger) (ids : list string) : Prop := {
  cv_records : forall id t, cl_Handled l !! id = Some t -> t = B id;
  cv_ids : forall id, id ∈ ids -> is_Some (cl_Handled l !! id) \/ B id < window_of l;
}.

Definition disk_covers (d : option commentCommandLedger) (ids : list string) : Prop :=
  match d with Some l => covers l ids | None => True end.

(** The file covers what was acted on at every moment. *)
Fixpoint kept (d : option commentCommandLedger) (ids : list string) (es : list CommandEffect) : Prop :=
  disk_covers d ids /\
  match es with
  | [] => True
  | e :: es => kept (disk_step d e) (ids ++ acted [e]) es
  end.

Lemma kept_now d ids es : kept d ids es -> disk_covers d ids.
Proof. destruct es; by intros [H _]. Qed.

Lemma kept_app d ids a b : kept d ids (a ++ b) <-> kept d ids a /\ kept (disk_after d a) (ids ++ acted a) b.
Proof.
  revert d ids. induction a as [|e a IH]; intros d ids.
  { change (kept d ids b <-> (disk_covers d ids /\ True) /\ kept d (ids ++ []) b). rewrite app_nil_r. split.
    - intros H. split; [split; [by eapply kept_now|done]|done].
    - by intros [_ H]. }
  cbn [app kept]. rewrite IH. change (disk_after d (e :: a)) with (disk_after (disk_step d e) a).
  rewrite <- app_assoc, <- (acted_app [e] a). tauto.
Qed.

Lemma kept_quiet d ids es : disk_covers d ids -> Forall quiet_effect es -> kept d ids es.
Proof.
  intros Hd. induction 1 as [|e es He _ IH]; [done|]. split; [done|].
  destruct e; try done; cbn [disk_step acted omap list_omap acted_by]; by rewrite app_nil_r.
Qed.

Lemma kept_firstn d ids es k : kept d ids es -> disk_covers (disk_after d (firstn k es)) (ids ++ acted (firstn k es)).
Proof.
  rewrite <- (firstn_skipn k es) at 1. rewrite kept_app. intros [_ H]. by eapply kept_now.
Qed.

(** A poll under way, from a file [d] and with [ids] acted on before. *)
Record sound (d : option commentCommandLedger) (ids : list string) (cursor floor : Time) (r : Run) : Prop := {
  so_cursor : cl_Cursor (ch_ledger (ru_h r)) = cursor;
  so_floor : cl_Floor (ch_ledger (ru_h r)) = floor /\ ch_floor (ru_h r) = floor;
  so_memory : covers (ch_ledger (ru_h r)) (ids ++ acted (ru_effects r));
  so_kept : kept d ids (ru_effects r);
  so_once : NoDup (ids ++ acted (ru_effects r));
}.

Lemma tell_spec es r : ru_h (tell es r) = ru_h r /\ ru_effects (tell es r) = ru_effects r ++ es /\ ru_writes (tell es r) = ru_writes r.
Proof. done. Qed.

Lemma on_h_spec f r : ru_h (on_h f r) = f (ru_h r) /\ ru_effects (on_h f r) = ru_effects r /\ ru_writes (on_h f r) = ru_writes r.
Proof. done. Qed.

Lemma sound_tell d ids cursor floor es r : Forall quiet_effect es -> sound d ids cursor floor r -> sound d ids cursor floor (tell es r).
Proof.
  intros Hes [H1 H2 H3 H4 H5]. destruct (quiet_acted es Hes) as [Ha Hd].
  destruct (tell_spec es r) as (E1 & E2 & _).
  constructor; rewrite ?E1, ?E2, ?acted_app, ?Ha, ?app_nil_r; try done.
  apply kept_app. split; [done|]. apply kept_quiet; [|done].
  rewrite <- (app_nil_r (ru_effects r)) in H4. apply kept_app in H4 as [_ H4]. by eapply kept_now.
Qed.

(** Changes of the handler besides its ledger. *)
Lemma sound_on d ids cursor floor f r : (forall h, ch_ledger (f h) = ch_ledger h /\ ch_floor (f h) = ch_floor h) ->
  sound d ids cursor floor r -> sound d ids cursor floor (on_h f r).
Proof.
  intros Hf [H1 H2 H3 H4 H5]. destruct (Hf (ru_h r)) as [E1 E2], (on_h_spec f r) as (F1 & F2 & _).
  constructor; rewrite ?F1, ?F2, ?E1, ?E2; done.
Qed.

Definition with_handled (m : gmap string Time) (h : commentCommandHandler) : commentCommandHandler :=
  on_ledger (fun l => l <| cl_Handled := m |>) h.

(** A change of the records that still covers. *)
Lemma sound_handled d ids cursor floor m r : (forall id t, m !! id = Some t -> t = B id) ->
  (forall id, id ∈ ids ++ acted (ru_effects r) -> is_Some (cl_Handled (ch_ledger (ru_h r)) !! id) -> is_Some (m !! id) \/ B id < window_of (ch_ledger (ru_h r))) ->
  sound d ids cursor floor r -> sound d ids cursor floor (on_h (with_handled m) r).
Proof.
  intros Hm Hi [H1 H2 [H3 H3'] H4 H5]. constructor; try done.
  constructor; [done|]. intros id Hid. change (window_of _) with (window_of (ch_ledger (ru_h r))).
  destruct (H3' id Hid) as [H|H]; [by apply Hi|by right].
Qed.

Lemma window_start h floor : cl_Floor (ch_ledger h) = floor /\ ch_floor h = floor -> windowStart h = window_of (ch_ledger h).
Proof. intros [E1 E2]. unfold windowStart, window_of. by rewrite E1, E2. Qed.

(** The write of the ledger: the records left are those inside the window. *)
Lemma save_sound env d ids cursor floor r ok r' : saveLedger env r = (ok, r') -> sound d ids cursor floor r ->
  sound d ids cursor floor r' /\ acted (ru_effects r') = acted (ru_effects r) /\
  (ok = true -> disk_after d (ru_effects r') = Some (ch_ledger (ru_h r'))) /\
  (forall id, cl_Handled (ch_ledger (ru_h r')) !! id =
     t ← cl_Handled (ch_ledger (ru_h r)) !! id; if time_before t (windowStart (ru_h r)) then None else Some t) /\
  ch_cfg (ru_h r') = ch_cfg (ru_h r) /\ ru_writes r' = S (ru_writes r) /\ ok = ce_write env (ru_writes r) /\
  (exists e, ru_effects r' = ru_effects r ++ [e] /\ (e = NotWritten \/ e = Wrote (ch_ledger (ru_h r')))).
Proof.
  intros E Hs. pose proof (window_start _ _ (so_floor _ _ _ _ _ Hs)) as Hw. unfold saveLedger in E.
  set (m := in_window (ru_h r)) in E.
  assert (Hm : forall id, m !! id = t ← cl_Handled (ch_ledger (ru_h r)) !! id; if time_before t (windowStart (ru_h r)) then None else Some t).
  { intros id. subst m. unfold in_window. rewrite map_lookup_filter. destruct (cl_Handled _ !! id) as [t|]; [|done]. cbn.
    destruct (time_before t _) eqn:Et; cbn.
    - by rewrite option_guard_False.
    - by rewrite option_guard_True. }
  assert (Hp : sound d ids cursor floor (on_h (with_handled m) r)).
  { destruct Hs as [H1 H2 [H3 H3'] H4 H5]. apply sound_handled; [| |by constructor].
    - intros id t. rewrite Hm. destruct (cl_Handled _ !! id) as [u|] eqn:Eu; [|done]. cbn. destruct (time_before _ _); [done|].
      intros [= <-]. by apply H3.
    - intros id Hid [u Eu]. rewrite Hm, Eu. cbn. unfold time_before. rewrite Hw. rewrite (H3 id u Eu).
      destruct (Z.ltb_spec (B id) (window_of (ch_ledger (ru_h r)))); [by right|left; by eexists]. }
  assert (Er : ru_effects r' = ru_effects r ++ [if ok then Wrote (ch_ledger (ru_h r')) else NotWritten] /\ ru_h r' = with_handled m (ru_h r) /\
    ru_writes r' = S (ru_writes r) /\ ok = ce_write env (ru_writes r)) by (cbn zeta in E; injection E as Eok <-; rewrite <- Eok; by split_and!).
  destruct Er as (Er & Eh & Ew & Eok).
  assert (Ha : acted (ru_effects r') = acted (ru_effects r)) by (rewrite Er, acted_app; destruct ok; by rewrite app_nil_r).
  split_and!; [|done| | |by rewrite Eh|done|done|].
  - destruct Hp as [H1 H2 H3 H4 H5]. change (ru_effects (on_h (with_handled m) r)) with (ru_effects r) in *.
    change (ru_h (on_h (with_handled m) r)) with (with_handled m (ru_h r)) in *. rewrite <- Eh in *.
    constructor; rewrite ?Ha; try done. rewrite Er. apply kept_app. split; [done|].
    rewrite <- (app_nil_r (ru_effects r)) in H4. apply kept_app in H4 as [_ H4]. apply kept_now in H4.
    split; [done|]. destruct ok; cbn [acted omap list_omap disk_step acted_by kept]; rewrite app_nil_r; split; done.
  - intros ->. rewrite Er. unfold disk_after. by rewrite foldl_app.
  - intros id. rewrite Eh. apply Hm.
  - rewrite Er. eexists. split; [done|]. destruct ok; [by right|by left].
Qed.

Lemma set_profile_quiet env i p : Forall quiet_effect (set_profile env i p).
Proof. unfold set_profile. destruct (String.eqb _ _); by repeat constructor. Qed.

Lemma act_quiet env number cmd : Forall quiet_effect (act env number cmd).2.
Proof.
  unfold act. destruct (String.eqb _ "run"); [|destruct (String.eqb _ "stop"); [by repeat constructor|destruct (String.eqb _ _); by repeat constructor]].
  unfold run. destruct (_ && _); [constructor|]. case_bool_decide; [constructor|].
  pose proof (set_profile_quiet env ("#" +:+ number) (cmd_Profile cmd)) as Hq.
  case_bool_decide.
  { cbn [snd]. apply Forall_app. split; [done|]. constructor; [done|]. destruct (ce_call _ _); by repeat constructor. }
  destruct (ce_states env) as [active terminal].
  destruct (ce_issue env number) as [err|[|i l]]; [by repeat constructor..|].
  destruct (state_in terminal _); [by repeat constructor|].
  destruct (state_in active _); [|destruct active as [|first active]; [|destruct (ce_update env number first)]]; cbn [snd];
    rewrite ?app_nil_r; repeat (apply Forall_app; split || constructor || done); exact Hq || by repeat constructor.
Qed.

Lemma sound_acting d ids cursor floor r c cmd t es : sound d ids cursor floor r ->
  disk_after d (ru_effects r) = Some (ch_ledger (ru_h r)) -> is_Some (cl_Handled (ch_ledger (ru_h r)) !! rp_ID c) ->
  rp_ID c ∉ ids ++ acted (ru_effects r) -> Forall quiet_effect es ->
  sound d ids cursor floor (tell (Acting c cmd t :: es) r).
Proof.
  intros [H1 H2 [H3 H3'] H4 H5] Hd Hr Hn Hes. destruct (quiet_acted es Hes) as [Ha _].
  destruct (tell_spec (Acting c cmd t :: es) r) as (E1 & E2 & _).
  assert (Ea : acted (ru_effects r ++ Acting c cmd t :: es) = acted (ru_effects r) ++ [rp_ID c])
    by (rewrite acted_app; f_equal; change (rp_ID c :: acted es = [rp_ID c]); by rewrite Ha).
  assert (Hc : covers (ch_ledger (ru_h r)) (ids ++ acted (ru_effects r) ++ [rp_ID c])).
  { constructor; [done|]. intros id. rewrite app_assoc. intros [Hid|Hid]%elem_of_app; [by apply H3'|].
    apply list_elem_of_singleton in Hid as ->. by left. }
  constructor; rewrite ?E1, ?E2, ?Ea; try done.
  - apply kept_app. split; [done|]. rewrite Hd. split; [by constructor|].
    apply kept_quiet; [|done]. cbn [disk_step]. rewrite <- app_assoc. exact Hc.
  - rewrite app_assoc. apply NoDup_app. split_and!; [done| |apply NoDup_singleton].
    intros x Hx ->%list_elem_of_singleton. done.
Qed.

(** A comment to be looked at: new, in the window, created when [B] says. *)
Definition fresh (h : commentCommandHandler) (c : RepoComment) : Prop :=
  cl_Handled (ch_ledger h) !! rp_ID c = None /\ windowStart h <= rp_CreatedAt c /\ rp_CreatedAt c = B (rp_ID c).

Lemma fresh_unacted d ids cursor floor r c : sound d ids cursor floor r -> fresh (ru_h r) c -> rp_ID c ∉ ids ++ acted (ru_effects r).
Proof.
  intros Hs (Hn & Hw & Hb) Hid. rewrite (window_start _ _ (so_floor _ _ _ _ _ Hs)) in Hw.
  destruct (cv_ids _ _ (so_memory _ _ _ _ _ Hs) _ Hid) as [[t Ht]|Hlt]; [by rewrite Hn in Ht|lia].
Qed.

Lemma record_sound env d ids cursor floor c cmd why r retry r' : record_and_act env c cmd why r = (retry, r') ->
  sound d ids cursor floor r -> fresh (ru_h r) c -> sound d ids cursor floor r'.
Proof.
  intros E Hs Hf. pose proof (fresh_unacted _ _ _ _ _ _ Hs Hf) as Hn. destruct Hf as (Hh & Hw & Hb).
  unfold record_and_act in E.
  set (m := <[rp_ID c := rp_CreatedAt c]> (cl_Handled (ch_ledger (ru_h r)))).
  set (r0 := on_h _ r) in E.
  assert (H0 : sound d ids cursor floor r0).
  { change r0 with (on_h (with_handled m) (on_h (fun h => h <| ch_failures := base.delete (rp_ID c) (ch_failures h) |>) r)).
    assert (Hs1 : sound d ids cursor floor (on_h (fun h => h <| ch_failures := base.delete (rp_ID c) (ch_failures h) |>) r)) by (apply sound_on; [intros h; split; reflexivity|exact Hs]).
    apply sound_handled; [| |done].
    - intros id t. subst m. rewrite lookup_insert_Some. intros [[<- <-]|[_ Ht]]; [done|]. by apply (cv_records _ _ (so_memory _ _ _ _ _ Hs)).
    - intros id _ Hid. left. subst m. apply lookup_insert_is_Some. destruct (decide (rp_ID c = id)); [by left|by right]. }
  destruct (saveLedger env r0) as [ok r1] eqn:Es.
  destruct (save_sound env d ids cursor floor r0 ok r1 Es H0) as (Hs1 & Ha & Hd & Hl & _).
  change (ru_effects r0) with (ru_effects r) in Ha.
  destruct ok; injection E as <- <-.
  - destruct why as [w|].
    + unfold refuse. destruct (_ && _); [|done]. apply sound_tell; [by repeat constructor|done].
    + unfold act_on. destruct (act env (rp_IssueNumber c) cmd) as [err said] eqn:Eact.
      pose proof (act_quiet env (rp_IssueNumber c) cmd) as Hq. rewrite Eact in Hq.
      apply sound_acting; [done|by apply Hd| |by rewrite Ha|].
      * assert (Hb' : time_before (rp_CreatedAt c) (windowStart (ru_h r0)) = false) by (by apply Z.ltb_ge).
        rewrite Hl. change (cl_Handled (ch_ledger (ru_h r0))) with m. subst m. rewrite lookup_insert_eq.
        cbn [mbind option_bind]. rewrite Hb'. by eexists.
      * apply Forall_app. split; [done|]. destruct err; by repeat constructor.
  - apply (sound_handled d ids cursor floor (base.delete (rp_ID c) (cl_Handled (ch_ledger (ru_h r1)))) r1); [| |done].
    + intros id t Ht. apply lookup_delete_Some in Ht as [_ Ht]. by apply (cv_records _ _ (so_memory _ _ _ _ _ Hs1)).
    + intros id Hid Hsome. left. rewrite lookup_delete_ne; [done|]. intros <-. by rewrite Ha in Hid.
Qed.

(** Asking changes the cache and says what was asked. *)
Definition with_perms (perms : gmap string cachedPermission) (h : commentCommandHandler) : commentCommandHandler := h <| ch_perms := perms |>.

Lemma same_perms r : r = tell [] (on_h (with_perms (ch_perms (ru_h r))) r).
Proof. destruct r as [h n es]. unfold tell, on_h, with_perms. cbn. rewrite app_nil_r. by destruct h. Qed.

Lemma permission_on env login r answer r' : permission env login r = (answer, r') ->
  exists es perms, Forall quiet_effect es /\ r' = tell es (on_h (with_perms perms) r).
Proof.
  intros E. unfold permission in E.
  assert (Hask : ask_permission env login r = (answer, r') -> exists es perms, Forall quiet_effect es /\ r' = tell es (on_h (with_perms perms) r)).
  { unfold ask_permission. intros [= <- <-]. exists [AskedPermission login (ce_permission env login) (ce_now env)].
    destruct (ce_permission env login) as [err|perm]; [exists (ch_perms (ru_h r))|exists (<[to_lower login := MkCachedPermission perm (ce_now env)]> (ch_perms (ru_h r)))];
      (split; [by repeat constructor|]); [|reflexivity]. rewrite (same_perms r) at 1. destruct r as [h n es]. unfold tell, on_h. cbn. by rewrite app_nil_r. }
  destruct (ch_perms (ru_h r) !! to_lower login); [|by apply Hask].
  destruct (_ <? _); [|by apply Hask]. injection E as <- <-. exists [], (ch_perms (ru_h r)). split; [constructor|apply same_perms].
Qed.

Lemma authorized_on env c r why r' : authorized env c r = (why, r') ->
  exists es perms, Forall quiet_effect es /\ r' = tell es (on_h (with_perms perms) r).
Proof.
  intros E. unfold authorized in E.
  assert (Hsame : r' = r -> exists es perms, Forall quiet_effect es /\ r' = tell es (on_h (with_perms perms) r))
    by (intros ->; exists [], (ch_perms (ru_h r)); split; [constructor|apply same_perms]).
  destruct (_ && _); [injection E as <- <-; by apply Hsame|]. destruct (existsb _ _); [injection E as <- <-; by apply Hsame|].
  destruct (equal_fold _ _); [injection E as <- <-; by apply Hsame|].
  destruct (permission env (rp_Login c) r) as [answer r1] eqn:Ep. destruct (permission_on _ _ _ _ _ Ep) as (es & perms & H).
  exists es, perms. destruct answer; injection E as <- <-; exact H.
Qed.

Lemma sound_asked d ids cursor floor r es perms : Forall quiet_effect es -> sound d ids cursor floor r ->
  sound d ids cursor floor (tell es (on_h (with_perms perms) r)).
Proof. intros Hes Hs. apply sound_tell; [done|]. apply sound_on; [intros h; by split|done]. Qed.

Lemma handle_sound env d ids cursor floor c cmd r retry r' : handle env c cmd r = (retry, r') ->
  sound d ids cursor floor r -> fresh (ru_h r) c -> sound d ids cursor floor r'.
Proof.
  intros E Hs Hf. unfold handle in E. destruct (authorized env c r) as [why r1] eqn:Ea.
  destruct (authorized_on _ _ _ _ _ Ea) as (es & perms & Hes & ->).
  set (r1 := tell es (on_h (with_perms perms) r)) in *.
  assert (Hs1 : sound d ids cursor floor r1) by by apply sound_asked.
  assert (Hf1 : fresh (ru_h r1) c) by exact Hf.
  destruct why as [[| |err|perm|]|]; try by eapply record_sound.
  set (n := default 0 _ + 1) in E. set (r2 := on_h _ r1) in E.
  assert (Hs2 : sound d ids cursor floor r2) by (apply sound_on; [intros h; by split|done]).
  destruct (n <? _); [by injection E as <- <-|]. by eapply record_sound.
Qed.

(** The comments of a poll, one after the other. *)
Definition acc_sound (d : option commentCommandLedger) (ids : list string) (cursor floor : Time) (acc : PollAcc) : Prop :=
  sound d ids cursor floor (pa_run acc) /\ cursor <= pa_latest acc.

Lemma comment_sound env d ids cursor floor start acc c : rp_CreatedAt c = B (rp_ID c) ->
  (forall h, cl_Cursor (ch_ledger h) = cursor -> ch_floor h = floor -> windowStart h = start) ->
  acc_sound d ids cursor floor acc -> acc_sound d ids cursor floor (poll_comment env start acc c).
Proof.
  intros Hb Hst [Hs Hl]. unfold poll_comment.
  set (latest := if time_after (rp_CreatedAt c) (pa_latest acc) then rp_CreatedAt c else pa_latest acc).
  assert (Hl' : cursor <= latest).
  { subst latest. unfold time_after. destruct (Z.ltb_spec (pa_latest acc) (rp_CreatedAt c)); lia. }
  case_bool_decide as Hh; [by split|]. destruct (time_before (rp_CreatedAt c) start) eqn:Ht; [by split|].
  destruct (command_of c) as [cmd|]; [|by split]. destruct (handle env c cmd (pa_run acc)) as [retry r'] eqn:Eh.
  split; [|done]. eapply handle_sound; [done|done|]. split_and!; [by apply eq_None_not_Some| |done].
  rewrite (Hst (ru_h (pa_run acc))); [by apply Z.ltb_ge|by destruct Hs as [-> _ _ _ _]|by destruct Hs as [_ [_ ->] _ _ _]].
Qed.

Lemma comments_sound env d ids cursor floor start comments : (forall c, c ∈ comments -> rp_CreatedAt c = B (rp_ID c)) ->
  (forall h, cl_Cursor (ch_ledger h) = cursor -> ch_floor h = floor -> windowStart h = start) -> forall acc,
  acc_sound d ids cursor floor acc -> acc_sound d ids cursor floor (foldl (poll_comment env start) acc comments).
Proof.
  induction comments as [|c comments IH]; intros Hb Hst acc Hs; [done|]. cbn [foldl].
  apply IH; [intros x Hx; apply Hb; by right|done|]. apply comment_sound; [apply Hb; by left|done|done].
Qed.

Lemma next_cursor_later cursor latest retryFrom : cursor <= latest -> cursor <= next_cursor cursor latest retryFrom.
Proof.
  intros H. unfold next_cursor, laterTime, time_after. destruct (_ && _); [|done].
  destruct (Z.ltb_spec cursor retryFrom); lia.
Qed.

(** The window only ever moves forward. *)
Lemma window_of_mono l l' : cl_Cursor l <= cl_Cursor l' -> cl_Floor l = cl_Floor l' -> window_of l <= window_of l'.
Proof.
  intros H E. unfold window_of, laterTime, time_after, time_add. rewrite E.
  set (o := - commentCommandOverlap). destruct (Z.ltb_spec (cl_Cursor l + o) (cl_Floor l')), (Z.ltb_spec (cl_Cursor l' + o) (cl_Floor l')); lia.
Qed.

Lemma covers_later l l' ids : covers l ids -> cl_Handled l' = cl_Handled l -> window_of l <= window_of l' -> covers l' ids.
Proof.
  intros [H1 H2] E Hw. constructor; rewrite E; [done|]. intros id Hid. destruct (H2 id Hid) as [H|H]; [by left|right; lia].
Qed.

(** The tracker tells of every comment when it was created. *)
Definition dates_ok (env : CommandEnv) : Prop := forall since comments c, ce_list env since = Some comments -> c ∈ comments -> rp_CreatedAt c = B (rp_ID c).

(** Between polls: what the handler's ledger covers. *)
Record rested (ids : list string) (h : commentCommandHandler) : Prop := {
  re_floor : ch_floor h = cl_Floor (ch_ledger h);
  re_covers : covers (ch_ledger h) ids;
}.

Lemma know_login_spec env h o asked : know_login env h = (o, asked) -> Forall quiet_effect asked /\
  forall h', o = Some h' -> ch_ledger h' = ch_ledger h /\ ch_floor h' = ch_floor h /\ ch_cfg h' = ch_cfg h /\ ch_perms h' = ch_perms h /\
    (ch_tokenLogin h' = ch_tokenLogin h \/ ce_login env = Some (ch_tokenLogin h')) /\
    (cc_AllowTokenUser (ch_cfg h) = true \/ ch_tokenLogin h <> "" \/ ce_login env = Some (ch_tokenLogin h')).
Proof.
  unfold know_login. destruct (String.eqb_spec (ch_tokenLogin h) "") as [E|E]; [destruct (cc_AllowTokenUser (ch_cfg h)) eqn:Ea|]; cbn [andb negb].
  - intros [= <- <-]. split; [constructor|]. intros h' [= <-]. split_and!; try done; by left.
  - intros [= <- <-]. split; [by repeat constructor|]. intros h' Hh. destruct (ce_login env) as [login|]; [|done]. injection Hh as <-.
    split_and!; try done; [by right|right; by right].
  - intros [= <- <-]. split; [constructor|]. intros h' [= <-]. split_and!; try done; [by left|right; by left].
Qed.

Lemma poll_sound env h d ids : dates_ok env -> rested ids h -> disk_covers d ids -> NoDup ids ->
  rested (ids ++ acted (poll env h).2) (poll env h).1 /\ kept d ids (poll env h).2 /\ NoDup (ids ++ acted (poll env h).2).
Proof.
  intros Hb [Hf Hc] Hd Hnd. unfold poll. destruct (know_login env h) as [o asked] eqn:Ek.
  destruct (know_login_spec env h o asked Ek) as [Hq Ho].
  assert (Hrest : forall h' es, ch_ledger h' = ch_ledger h -> ch_floor h' = ch_floor h -> Forall quiet_effect es ->
    rested (ids ++ acted es) h' /\ kept d ids es /\ NoDup (ids ++ acted es)).
  { intros h' es E1 E2 Hes. destruct (quiet_acted es Hes) as [-> _]. rewrite app_nil_r.
    split_and!; [constructor; by rewrite E1, ?E2|by apply kept_quiet|done]. }
  destruct o as [h1|]; [|by apply Hrest]. destruct (Ho h1 eq_refl) as (E1 & E2 & _).
  assert (Hq' : Forall quiet_effect (asked ++ [Listed (windowStart h1)])) by (apply Forall_app; split; [done|by repeat constructor]).
  destruct (ce_list env (windowStart h1)) as [comments|] eqn:El; [|by apply Hrest].
  set (cursor := cl_Cursor (ch_ledger h1)). set (floor := ch_floor h1).
  set (r0 := MkRun h1 0 _).
  assert (Hs0 : sound d ids cursor floor r0).
  { destruct (Hrest h1 _ E1 E2 Hq') as ([Hf1 Hc1] & Hk & Hn). constructor; try done. }
  assert (Hst : forall x, cl_Cursor (ch_ledger x) = cursor -> ch_floor x = floor -> windowStart x = windowStart h1)
    by (intros x X1 X2; unfold windowStart; by rewrite X1, X2).
  pose proof (comments_sound env d ids cursor floor _ comments (fun c => Hb _ _ c El) Hst (MkPollAcc r0 cursor zero_time) (conj Hs0 (Z.le_refl _))) as [Hs Hl].
  set (acc := foldl _ _ comments) in *. set (r1 := on_h _ (pa_run acc)).
  set (cursor' := next_cursor cursor (pa_latest acc) (pa_retryFrom acc)).
  assert (Hs1 : sound d ids cursor' floor r1).
  { destruct Hs as [S1 [S2 S2'] S3 S4 S5]. constructor; try done; [by subst cursor'; rewrite <- S1|].
    apply (covers_later (ch_ledger (ru_h (pa_run acc)))); [done|done|]. apply window_of_mono; [|done].
    change (cl_Cursor (ch_ledger (ru_h r1))) with (next_cursor (cl_Cursor (ch_ledger (ru_h (pa_run acc)))) (pa_latest acc) (pa_retryFrom acc)).
    rewrite S1. by apply next_cursor_later. }
  destruct (saveLedger env r1) as [ok r2] eqn:Es. destruct (save_sound env d ids cursor' floor r1 ok r2 Es Hs1) as ([S1 [S2 S2'] S3 S4 S5] & _).
  split_and!; [constructor; [cbn; by rewrite S2, S2'|done]|done|done].
Qed.

(** ** Histories *)

(** A poll, or one that dies after [k] things were asked and done, with the
    start that follows it; the file may be [lost] in between. *)
Inductive CommandStep :=
  | Polls (env : CommandEnv)
  | Restarts (env : CommandEnv) (k : nat) (now : Time) (lost : bool).

Record Site := MkSite {
  st_h : commentCommandHandler;
  st_disk : option commentCommandLedger;
  st_log : list CommandEffect;
}.

Definition site_step (s : Site) (step : CommandStep) : Site :=
  match step with
  | Polls env => let '(h, es) := poll env (st_h s) in MkSite h (disk_after (st_disk s) es) (st_log s ++ es)
  | Restarts env k now lost =>
      let es := firstn k (poll env (st_h s)).2 in
      let d := if lost then None else disk_after (st_disk s) es in
      MkSite (newCommentCommandHandler (ch_cfg (st_h s)) d now) d (st_log s ++ es)
  end.

(** Commands are enabled at [now]. *)
Definition enabled (cfg : CommentCommandsConfig) (now : Time) : Site := MkSite (newCommentCommandHandler cfg None now) None [].

Definition step_env (step : CommandStep) : CommandEnv := match step with Polls env | Restarts env _ _ _ => env end.

(** A start without a file comes after the creation of what was acted on. *)
Fixpoint clocks_agree (s : Site) (steps : list CommandStep) : Prop :=
  match steps with
  | [] => True
  | step :: steps =>
      let s' := site_step s step in
      match step with
      | Polls _ => True
      | Restarts _ _ now _ => st_disk s' = None -> forall id, id ∈ acted (st_log s') -> B id < now
      end /\ clocks_agree s' steps
  end.

Record site_ok (s : Site) : Prop := {
  sk_rested : rested (acted (st_log s)) (st_h s);
  sk_disk : disk_covers (st_disk s) (acted (st_log s));
  sk_once : NoDup (acted (st_log s));
}.

Lemma start_rested cfg d now ids : disk_covers d ids -> (d = None -> forall id, id ∈ ids -> B id < now) ->
  rested ids (newCommentCommandHandler cfg d now).
Proof.
  intros Hd Hn. unfold newCommentCommandHandler. destruct d as [l|]; [by constructor|].
  constructor; [done|]. constructor; [intros id t Ht; by apply (lookup_empty_Some id t) in Ht|].
  intros id Hid. right. apply (Z.lt_le_trans _ now); [by apply Hn|].
  unfold window_of, laterTime, time_after, time_add. cbn [cl_Cursor cl_Floor ch_ledger loadLedger].
  destruct (Z.ltb_spec (now + - commentCommandOverlap) now); lia.
Qed.

Lemma step_site_ok s step : dates_ok (step_env step) -> site_ok s ->
  (match step with Polls _ => True | Restarts _ _ now _ => st_disk (site_step s step) = None -> forall id, id ∈ acted (st_log (site_step s step)) -> B id < now end) ->
  site_ok (site_step s step).
Proof.
  intros Hb [Hr Hd Hn] Hc. destruct (poll_sound (step_env step) (st_h s) (st_disk s) (acted (st_log s)) Hb Hr Hd Hn) as (H1 & H2 & H3).
  destruct step as [env|env k now lost]; cbn [step_env site_step] in *.
  - destruct (poll env (st_h s)) as [h es]. cbn [fst snd] in *. rewrite <- acted_app in H1, H3. constructor; try done.
    cbn [st_log]. rewrite acted_app. rewrite <- (app_nil_r es) in H2. apply kept_app in H2 as [_ H2]. by eapply kept_now.
  - set (es := (poll env (st_h s)).2) in *. pose proof (kept_firstn _ _ _ k H2) as Hk. rewrite <- acted_app in Hk.
    assert (Hd' : disk_covers (if lost then None else disk_after (st_disk s) (firstn k es)) (acted (st_log s ++ firstn k es)))
      by (by destruct lost).
    constructor; [by apply start_rested|done|]. cbn [st_log]. rewrite acted_app.
    rewrite <- (firstn_skipn k es), acted_app, app_assoc in H3. by apply NoDup_app in H3 as [H3 _].
Qed.

Lemma site_run_ok steps : forall s, site_ok s -> Forall (fun step => dates_ok (step_env step)) steps -> clocks_agree s steps ->
  site_ok (foldl site_step s steps).
Proof.
  induction steps as [|step steps IH]; intros s Hs Hb Hc; [done|]. apply Forall_cons in Hb as [Hb1 Hb2]. destruct Hc as [Hc1 Hc2].
  cbn [foldl]. apply IH; [by apply step_site_ok|done|done].
Qed.

(** C99: each command is acted on at most once, over any history of polls,
    answers, failed writes, crashes at any moment and restarts, also when the
    ledger is lost. *)
Theorem command_acts_once cfg now steps :
  Forall (fun step => dates_ok (step_env step)) steps -> clocks_agree (enabled cfg now) steps ->
  NoDup (acted (st_log (foldl site_step (enabled cfg now) steps))).
Proof.
  intros Hb Hc. apply sk_once, site_run_ok; [|done|done]. constructor; [|done|constructor].
  apply start_rested; [done|]. by intros _ id ?%not_elem_of_nil.
Qed.

End once.

(** ** What a poll leaves alone *)

(** The steps of a poll only add effects, and touch neither the cursor, the
    floor, the token's login nor the settings; without [id] among the comments
    no record of it appears. *)
Record keeps (ids : list string) (r r' : Run) : Prop := {
  ke_effects : exists es, ru_effects r' = ru_effects r ++ es;
  ke_cursor : cl_Cursor (ch_ledger (ru_h r')) = cl_Cursor (ch_ledger (ru_h r));
  ke_floor : ch_floor (ru_h r') = ch_floor (ru_h r);
  ke_token : ch_tokenLogin (ru_h r') = ch_tokenLogin (ru_h r);
  ke_cfg : ch_cfg (ru_h r') = ch_cfg (ru_h r);
  ke_records : forall id, id ∉ ids -> cl_Handled (ch_ledger (ru_h r)) !! id = None -> cl_Handled (ch_ledger (ru_h r')) !! id = None;
}.

Lemma keeps_refl ids r : keeps ids r r.
Proof. constructor; try done. exists []. by rewrite app_nil_r. Qed.

Lemma keeps_trans ids r1 r2 r3 : keeps ids r1 r2 -> keeps ids r2 r3 -> keeps ids r1 r3.
Proof.
  intros [[es1 A1] A2 A3 A4 A5 A6] [[es2 B1] B2 B3 B4 B5 B6].
  constructor; [exists (es1 ++ es2); by rewrite B1, A1, app_assoc|congruence..|]. intros id Hid H. apply B6; [done|by apply A6].
Qed.

Lemma keeps_tell ids es r : keeps ids r (tell es r).
Proof. constructor; try done. by exists es. Qed.

Lemma keeps_perms ids es perms r : keeps ids r (tell es (on_h (with_perms perms) r)).
Proof. constructor; try done. by exists es. Qed.

Lemma save_keeps ids env r ok r' : saveLedger env r = (ok, r') -> keeps ids r r'.
Proof.
  unfold saveLedger. cbn zeta. intros [= _ <-]. constructor; try done; [by eexists|].
  intros id _ Hn. change (in_window (ru_h r) !! id = None). apply map_lookup_filter_None. by left.
Qed.

Lemma record_keeps env c cmd why r retry r' : record_and_act env c cmd why r = (retry, r') -> keeps [rp_ID c] r r'.
Proof.
  intros E. unfold record_and_act in E. set (r0 := on_h _ r) in E.
  assert (H0 : keeps [rp_ID c] r r0).
  { constructor; try done; [exists []; by rewrite app_nil_r|]. intros id Hid Hn.
    change (<[rp_ID c := rp_CreatedAt c]> (cl_Handled (ch_ledger (ru_h r))) !! id = None). rewrite lookup_insert_ne; [done|].
    intros <-. apply Hid. by left. }
  destruct (saveLedger env r0) as [ok r1] eqn:Es. pose proof (save_keeps [rp_ID c] _ _ _ _ Es) as H1.
  eapply keeps_trans; [exact H0|]. eapply keeps_trans; [exact H1|]. destruct ok; injection E as <- <-.
  - destruct why as [w|].
    + unfold refuse. destruct (_ && _); [apply keeps_tell|apply keeps_refl].
    + unfold act_on. destruct (act env (rp_IssueNumber c) cmd) as [err said]. apply keeps_tell.
  - constructor; try done; [exists []; by rewrite app_nil_r|]. intros id _ Hn.
    change (base.delete (rp_ID c) (cl_Handled (ch_ledger (ru_h r1))) !! id = None). apply lookup_delete_None. by right.
Qed.

Lemma handle_keeps env c cmd r retry r' : handle env c cmd r = (retry, r') -> keeps [rp_ID c] r r'.
Proof.
  intros E. unfold handle in E. destruct (authorized env c r) as [why r1] eqn:Ea.
  destruct (authorized_on _ _ _ _ _ Ea) as (es & perms & _ & ->). eapply keeps_trans; [apply keeps_perms|].
  destruct why as [[| |err|perm|]|]; try by eapply record_keeps.
  set (n := default 0 _ + 1) in E. set (r2 := on_h _ _) in E.
  assert (H2 : keeps [rp_ID c] (tell es (on_h (with_perms perms) r)) r2) by (constructor; try done; exists []; by rewrite app_nil_r).
  eapply keeps_trans; [exact H2|]. destruct (n <? _); [injection E as <- <-; apply keeps_refl|by eapply record_keeps].
Qed.

Lemma comment_keeps env start acc c : keeps [rp_ID c] (pa_run acc) (pa_run (poll_comment env start acc c)).
Proof.
  unfold poll_comment. case_bool_decide; [apply keeps_refl|]. destruct (time_before _ _); [apply keeps_refl|].
  destruct (command_of c) as [cmd|]; [|apply keeps_refl]. destruct (handle env c cmd (pa_run acc)) as [retry r'] eqn:Eh.
  by eapply handle_keeps.
Qed.

Lemma keeps_weaken ids ids' r r' : ids ⊆ ids' -> keeps ids r r' -> keeps ids' r r'.
Proof. intros Hs [A1 A2 A3 A4 A5 A6]. constructor; try done. intros id Hid. apply A6. set_solver. Qed.

Lemma comments_keep env start comments : forall acc,
  keeps (map rp_ID comments) (pa_run acc) (pa_run (foldl (poll_comment env start) acc comments)).
Proof.
  induction comments as [|c comments IH]; intros acc; [apply keeps_refl|]. cbn [foldl map]. eapply keeps_trans.
  - eapply keeps_weaken; [|apply comment_keeps]. intros x ->%list_elem_of_singleton. by left.
  - eapply keeps_weaken; [|apply IH]. intros x Hx. by right.
Qed.

(** ** Who may command *)

Section authority.
(** The token's own login, and the settings. *)
Context (L : string) (cfg : CommentCommandsConfig).

(** The author of [c] may command at [t], as the record [pre] shows. *)
Record may_command (pre : list CommandEffect) (c : RepoComment) (cmd : itervoxCommand) (t : Time) : Prop := {
  mc_command : command_of c = Some cmd;
  mc_not_token : cc_AllowTokenUser cfg = true \/ equal_fold (rp_Login c) L = false;
  mc_trusted : existsb (fun a => equal_fold a (rp_Login c)) (cc_Allow cfg) = true \/
    equal_fold (rp_UserType c) "Bot" = false /\
    exists login perm at_, AskedPermission login (inr perm) at_ ∈ pre /\ to_lower login = to_lower (rp_Login c) /\
      (perm = "admin" \/ perm = "write") /\ time_sub t at_ < commentCommandPermTTL;
}.

(** Every action of [es] is one its author may ask for. *)
Fixpoint entitled (pre es : list CommandEffect) : Prop :=
  match es with
  | [] => True
  | e :: es => match e with Acting c cmd t => may_command pre c cmd t | _ => True end /\ entitled (pre ++ [e]) es
  end.

Lemma entitled_app pre a b : entitled pre (a ++ b) <-> entitled pre a /\ entitled (pre ++ a) b.
Proof.
  revert pre. induction a as [|e a IH]; intros pre; cbn [app entitled]; [rewrite app_nil_r; tauto|].
  rewrite IH, <- app_assoc. cbn [app]. tauto.
Qed.

Lemma entitled_quiet pre es : Forall quiet_effect es -> entitled pre es.
Proof. intros H. revert pre. induction H as [|e es He _ IH]; intros pre; [done|]. split; [by destruct e|apply IH]. Qed.

Definition asked_for (pre : list CommandEffect) (perms : gmap string cachedPermission) : Prop :=
  forall key p, perms !! key = Some p ->
    exists login, AskedPermission login (inr (cp_perm p)) (cp_at p) ∈ pre /\ to_lower login = key.

Lemma asked_for_more pre es perms : asked_for pre perms -> asked_for (pre ++ es) perms.
Proof. intros H key p Hp. destruct (H key p Hp) as (login & Hin & E). exists login. split; [apply elem_of_app; by left|done]. Qed.

(** A poll under way, after [pre]. *)
Record proper (pre : list CommandEffect) (r : Run) : Prop := {
  pr_cfg : ch_cfg (ru_h r) = cfg;
  pr_token : cc_AllowTokenUser cfg = true \/ ch_tokenLogin (ru_h r) = L /\ L <> "";
  pr_perms : asked_for (pre ++ ru_effects r) (ch_perms (ru_h r));
  pr_entitled : entitled pre (ru_effects r);
}.

Lemma proper_tell pre es r : Forall quiet_effect es -> proper pre r -> proper pre (tell es r).
Proof.
  intros Hes [H1 H2 H3 H4]. destruct (tell_spec es r) as (E1 & E2 & _). constructor; rewrite ?E1, ?E2; try done.
  - rewrite app_assoc. by apply asked_for_more.
  - apply entitled_app. split; [done|by apply entitled_quiet].
Qed.

Lemma proper_on pre f r : (forall h, ch_cfg (f h) = ch_cfg h /\ ch_tokenLogin (f h) = ch_tokenLogin h /\ ch_perms (f h) = ch_perms h) ->
  proper pre r -> proper pre (on_h f r).
Proof.
  intros Hf [H1 H2 H3 H4]. destruct (Hf (ru_h r)) as (E1 & E2 & E3), (on_h_spec f r) as (F1 & F2 & _).
  constructor; rewrite ?F1, ?F2, ?E1, ?E2, ?E3; done.
Qed.

Lemma save_proper env pre r ok r' : saveLedger env r = (ok, r') -> proper pre r -> proper pre r'.
Proof.
  intros E [H1 H2 H3 H4]. unfold saveLedger in E. cbn zeta in E. injection E as _ <-.
  constructor; cbn [ru_h ru_effects]; try done.
  - rewrite app_assoc. by apply asked_for_more.
  - apply entitled_app. split; [done|]. split; [|done]. by destruct (ce_write _ _).
Qed.

(** What lets an author command, after the check. *)
Definition trusted (pre : list CommandEffect) (env : CommandEnv) (c : RepoComment) : Prop :=
  forall es cmd, command_of c = Some cmd -> may_command (pre ++ es) c cmd (ce_now env).

Lemma permission_proper env pre login r answer r' : permission env login r = (answer, r') -> proper pre r ->
  proper pre r' /\ forall perm, answer = inr perm -> exists login' at_, AskedPermission login' (inr perm) at_ ∈ pre ++ ru_effects r' /\
    to_lower login' = to_lower login /\ time_sub (ce_now env) at_ < commentCommandPermTTL.
Proof.
  intros E Hp. unfold permission in E.
  assert (Hask : ask_permission env login r = (answer, r') -> proper pre r' /\ forall perm, answer = inr perm ->
    exists login' at_, AskedPermission login' (inr perm) at_ ∈ pre ++ ru_effects r' /\ to_lower login' = to_lower login /\ time_sub (ce_now env) at_ < commentCommandPermTTL).
  { unfold ask_permission. intros [= <- <-]. set (asked := AskedPermission login (ce_permission env login) (ce_now env)).
    assert (Hp1 : proper pre (tell [asked] r)) by (apply proper_tell; [by repeat constructor|done]).
    assert (Hin : asked ∈ pre ++ ru_effects (tell [asked] r))
      by (apply elem_of_app; right; apply elem_of_app; right; by left).
    destruct (ce_permission env login) as [err|perm]; [split; [done|by intros perm]|]. split.
    - destruct Hp1 as [P1 P2 P3 P4]. constructor; try done. intros key p H.
      change (<[to_lower login := MkCachedPermission perm (ce_now env)]> (ch_perms (ru_h r)) !! key = Some p) in H.
      apply lookup_insert_Some in H as [[<- <-]|[_ H]]; [exists login; by split|by apply P3].
    - intros ? [= <-]. exists login, (ce_now env). split_and!; [exact Hin|done|]. unfold time_sub. rewrite Z.sub_diag. done. }
  destruct (ch_perms (ru_h r) !! to_lower login) as [p|] eqn:Ep; [|by apply Hask].
  destruct (Z.ltb_spec (time_sub (ce_now env) (cp_at p)) commentCommandPermTTL); [|by apply Hask].
  injection E as <- <-. split; [done|]. intros perm [= <-]. destruct (pr_perms _ _ Hp _ _ Ep) as (login' & Hin & El).
  by exists login', (cp_at p).
Qed.

Lemma authorized_proper env pre c r why r' : authorized env c r = (why, r') -> proper pre r ->
  proper pre r' /\ (why = None -> trusted (pre ++ ru_effects r') env c).
Proof.
  intros E Hp. pose proof (pr_cfg _ _ Hp) as Hc. unfold authorized in E.
  assert (Ht : negb (String.eqb (ch_tokenLogin (ru_h r)) "") && equal_fold (rp_Login c) (ch_tokenLogin (ru_h r)) = false ->
    cc_AllowTokenUser cfg = true \/ equal_fold (rp_Login c) L = false).
  { intros H. destruct (pr_token _ _ Hp) as [Ha|[Et Hne]]; [by left|]. rewrite Et in H.
    apply String.eqb_neq in Hne. rewrite Hne in H. by right. }
  destruct (_ && _); [injection E as <- <-; by split|]. specialize (Ht eq_refl). rewrite Hc in E.
  destruct (existsb _ _) eqn:Ea; [injection E as <- <-; split; [done|]; intros _ es cmd Hcmd; constructor; [done|done|by left]|].
  destruct (equal_fold (rp_UserType c) "Bot") eqn:Eb; [injection E as <- <-; by split|].
  destruct (permission env (rp_Login c) r) as [answer r1] eqn:Ep. destruct (permission_proper env pre _ _ _ _ Ep Hp) as [Hp1 Hw].
  destruct answer as [err|perm]; injection E as <- <-; (split; [done|]); [done|].
  destruct (String.eqb perm "admin" || String.eqb perm "write") eqn:Eq; [|done]. intros _ es cmd Hcmd.
  destruct (Hw perm eq_refl) as (login' & at_ & Hin & El & Hlt). constructor; [done|done|]. right. split; [done|].
  exists login', perm, at_. split_and!; [apply elem_of_app; by left|done| |done].
  apply orb_true_iff in Eq as [Eq|Eq]; apply String.eqb_eq in Eq; [by left|by right].
Qed.

Lemma record_proper env pre c cmd why r retry r' : record_and_act env c cmd why r = (retry, r') -> proper pre r ->
  command_of c = Some cmd -> (why = None -> trusted (pre ++ ru_effects r) env c) -> proper pre r'.
Proof.
  intros E Hp Hcmd Ht. unfold record_and_act in E. set (r0 := on_h _ r) in E.
  assert (H0 : proper pre r0) by (apply proper_on; [intros h; by split_and!|done]).
  destruct (saveLedger env r0) as [ok r1] eqn:Es. pose proof (save_proper _ _ _ _ _ Es H0) as H1.
  assert (Hx : exists e, ru_effects r1 = ru_effects r ++ [e]).
  { unfold saveLedger in Es. cbn zeta in Es. injection Es as _ <-. by eexists. }
  destruct Hx as [e Hx].
  destruct ok; injection E as <- <-; [|apply proper_on; [intros h; by split_and!|done]].
  destruct why as [w|].
  - unfold refuse. destruct (_ && _); [|done]. apply proper_tell; [by repeat constructor|done].
  - unfold act_on. destruct (act env (rp_IssueNumber c) cmd) as [err said] eqn:Eact.
    pose proof (act_quiet env (rp_IssueNumber c) cmd) as Hq. rewrite Eact in Hq.
    match goal with |- proper _ (tell (_ :: ?es) _) => set (more := es) end.
    assert (Hm : Forall quiet_effect more) by (apply Forall_app; split; [done|]; destruct err; by repeat constructor).
    destruct H1 as [P1 P2 P3 P4]. destruct (tell_spec (Acting c cmd (ce_now env) :: more) r1) as (E1 & E2 & _).
    constructor; rewrite ?E1, ?E2; try done.
    + rewrite app_assoc. by apply asked_for_more.
    + apply entitled_app. split; [done|]. split; [|by apply entitled_quiet]. rewrite Hx, app_assoc. by apply Ht.
Qed.

Lemma handle_proper env pre c cmd r retry r' : handle env c cmd r = (retry, r') -> proper pre r -> command_of c = Some cmd -> proper pre r'.
Proof.
  intros E Hp Hcmd. unfold handle in E. destruct (authorized env c r) as [why r1] eqn:Ea.
  destruct (authorized_proper env pre c r why r1 Ea Hp) as [Hp1 Ht].
  destruct why as [[| |err|perm|]|]; try (eapply record_proper; [exact E|done..]).
  set (n := default 0 _ + 1) in E. set (r2 := on_h _ r1) in E.
  assert (Hp2 : proper pre r2) by (apply proper_on; [intros h; by split_and!|done]).
  destruct (n <? _); [by injection E as <- <-|]. by eapply record_proper.
Qed.

Lemma comments_proper env pre start comments : forall acc, proper pre (pa_run acc) ->
  proper pre (pa_run (foldl (poll_comment env start) acc comments)).
Proof.
  induction comments as [|c comments IH]; intros acc Hp; [done|]. cbn [foldl]. apply IH. unfold poll_comment.
  case_bool_decide; [done|]. destruct (time_before _ _); [done|]. destruct (command_of c) as [cmd|] eqn:Ec; [|done].
  destruct (handle env c cmd (pa_run acc)) as [retry r'] eqn:Eh. by eapply handle_proper.
Qed.

(** Between polls. *)
Record settled (log : list CommandEffect) (h : commentCommandHandler) : Prop := {
  se_cfg : ch_cfg h = cfg;
  se_token : ch_tokenLogin h = "" \/ ch_tokenLogin h = L;
  se_perms : asked_for log (ch_perms h);
}.

(** GitHub names one login for the token. *)
Definition token_is (env : CommandEnv) : Prop := L <> "" /\ forall login, ce_login env = Some login -> login = L.

Lemma poll_entitled env h log : token_is env -> settled log h ->
  settled (log ++ (poll env h).2) (poll env h).1 /\ entitled log (poll env h).2.
Proof.
  intros [HL Henv] [H1 H2 H3]. unfold poll. destruct (know_login env h) as [o asked] eqn:Ek.
  destruct (know_login_spec env h o asked Ek) as [Hq Ho].
  destruct o as [h1|]; [|split; [constructor; [done|done|by apply asked_for_more]|by apply entitled_quiet]].
  destruct (Ho h1 eq_refl) as (_ & _ & E1 & E2 & Et & Et').
  assert (Hset : forall es, Forall quiet_effect es -> settled (log ++ es) h1 /\ entitled log es).
  { intros es Hes. split; [|by apply entitled_quiet]. constructor; [by rewrite E1| |rewrite E2; by apply asked_for_more].
    destruct Et as [->|Et]; [done|right; by apply Henv]. }
  assert (Hq' : Forall quiet_effect (asked ++ [Listed (windowStart h1)])) by (apply Forall_app; split; [done|by repeat constructor]).
  destruct (ce_list env (windowStart h1)) as [comments|]; [|by apply Hset].
  set (r0 := MkRun h1 0 _).
  assert (Hp0 : proper log r0).
  { destruct (Hset _ Hq') as [[S1 S2 S3] S4]. constructor; try done. rewrite <- H1. destruct Et' as [Ha|[Hne|Hl]]; [by left|right|right; exact (conj (Henv _ Hl) HL)].
    split; [|done]. change (ch_tokenLogin h1 = L). destruct S2 as [S2|S2]; [|done]. destruct Et as [Et|Et]; [by rewrite <- Et in Hne|by rewrite (Henv _ Et)]. }
  pose proof (comments_proper env log (windowStart h1) comments (MkPollAcc r0 (cl_Cursor (ch_ledger h1)) zero_time) Hp0) as Hp.
  set (acc := foldl _ _ comments) in *. set (r1 := on_h _ (pa_run acc)).
  assert (Hp1 : proper log r1) by (apply proper_on; [intros h'; by split_and!|done]).
  destruct (saveLedger env r1) as [ok r2] eqn:Es. destruct (save_proper _ _ _ _ _ Es Hp1) as [P1 P2 P3 P4].
  split; [|done]. constructor; [done| |done]. destruct P2 as [Ha|[Et2 _]]; [|right; exact Et2].
  assert (Hsame : ch_tokenLogin (ru_h r2) = ch_tokenLogin h1).
  { unfold saveLedger in Es. cbn zeta in Es. injection Es as _ <-. change (ch_tokenLogin (ru_h (pa_run acc)) = ch_tokenLogin h1).
    apply (comments_keep env (windowStart h1) comments (MkPollAcc r0 (cl_Cursor (ch_ledger h1)) zero_time)). }
  change (ch_tokenLogin (ru_h r2) = "" \/ ch_tokenLogin (ru_h r2) = L). rewrite Hsame. destruct (Hset _ Hq') as [[_ S2 _] _]. done.
Qed.

Lemma run_entitled steps : forall s, Forall (fun step => token_is (step_env step)) steps -> settled (st_log s) (st_h s) -> entitled [] (st_log s) ->
  entitled [] (st_log (foldl site_step s steps)).
Proof.
  induction steps as [|step steps IH]; intros s Ht Hs He; [done|]. apply Forall_cons in Ht as [Ht1 Ht2]. cbn [foldl].
  destruct (poll_entitled (step_env step) (st_h s) (st_log s) Ht1 Hs) as [H1 H2].
  apply IH; [done| |]; destruct step as [env|env k now lost]; cbn [step_env site_step] in *.
  - by destruct (poll env (st_h s)).
  - destruct Hs as [S1 _ _]. constructor; unfold newCommentCommandHandler; destruct (loadLedger _ _); cbn; [done|by left|].
    intros key p Hk. by apply (lookup_empty_Some key p) in Hk.
  - destruct (poll env (st_h s)) as [h es]. cbn in *. apply entitled_app. by split.
  - cbn [st_log]. apply entitled_app. split; [done|]. cbn [app]. rewrite <- (firstn_skipn k (poll env (st_h s)).2) in H2.
    by apply entitled_app in H2 as [H2 _].
Qed.

(** C99: whatever comments are written and whatever happens, a command is
    acted on only if its comment is a command on an issue, not Itervox's own,
    its author is not the token's account (unless that is allowed), and is on
    the list or is a user for whom GitHub answered admin or write within the
    last ten minutes. *)
Theorem commands_authorized now steps a c cmd t b :
  Forall (fun step => token_is (step_env step)) steps ->
  st_log (foldl site_step (enabled cfg now) steps) = a ++ Acting c cmd t :: b -> may_command a c cmd t.
Proof.
  intros Ht E. assert (He : entitled [] (st_log (foldl site_step (enabled cfg now) steps))).
  { apply run_entitled; [done| |done]. constructor; [done|by left|]. intros key p Hk. by apply (lookup_empty_Some key p) in Hk. }
  rewrite E in He. apply entitled_app in He as [_ [He _]]. exact He.
Qed.

End authority.

(** ** No command is lost *)

(** The author is on the list and is not the token's account. *)
Definition listed_author (h : commentCommandHandler) (c : RepoComment) : bool :=
  negb (negb (String.eqb (ch_tokenLogin h) "") && equal_fold (rp_Login c) (ch_tokenLogin h)) &&
  existsb (fun a => equal_fold a (rp_Login c)) (cc_Allow (ch_cfg h)).

(** The command is on record in the file, and acted on for an author on the list. *)
Definition recorded (env : CommandEnv) (h : commentCommandHandler) (c : RepoComment) (cmd : itervoxCommand) (es : list CommandEffect) : Prop :=
  (exists l, Wrote l ∈ es /\ cl_Handled l !! rp_ID c = Some (rp_CreatedAt c)) /\
  (listed_author h c = true -> Acting c cmd (ce_now env) ∈ es).

(** Why a command waits. *)
Definition outage (env : CommandEnv) (c : RepoComment) : Prop :=
  (exists k, ce_write env k = false) \/ exists err, ce_permission env (rp_Login c) = inl err.

Lemma record_outcome env c cmd why r retry r' : record_and_act env c cmd why r = (retry, r') ->
  windowStart (ru_h r) <= rp_CreatedAt c ->
  if retry then cl_Handled (ch_ledger (ru_h r')) !! rp_ID c = None /\ exists k, ce_write env k = false
  else (exists l, Wrote l ∈ ru_effects r' /\ cl_Handled l !! rp_ID c = Some (rp_CreatedAt c)) /\
       (why = None -> Acting c cmd (ce_now env) ∈ ru_effects r').
Proof.
  intros E Hw. unfold record_and_act in E. set (r0 := on_h _ r) in E.
  destruct (saveLedger env r0) as [ok r1] eqn:Es. unfold saveLedger in Es. cbn zeta in Es.
  assert (Hb : time_before (rp_CreatedAt c) (windowStart (ru_h r0)) = false) by (by apply Z.ltb_ge).
  assert (Hm : in_window (ru_h r0) !! rp_ID c = Some (rp_CreatedAt c)).
  { unfold in_window. apply map_lookup_filter_Some. cbn [snd]. rewrite Hb. split; [|done].
    change (<[rp_ID c := rp_CreatedAt c]> (cl_Handled (ch_ledger (ru_h r))) !! rp_ID c = Some (rp_CreatedAt c)). apply lookup_insert_eq. }
  injection Es as Eok <-. destruct ok; injection E as <- <-; cbn zeta.
  - rewrite Eok. match goal with |- context[Wrote ?l] => set (wl := l) end.
    assert (Hl : Wrote wl ∈ ru_effects r ++ [Wrote wl]) by (apply elem_of_app; right; by left).
    assert (Hl' : cl_Handled wl !! rp_ID c = Some (rp_CreatedAt c)) by exact Hm.
    destruct why as [w|].
    + split; [|done]. exists wl. split; [|done]. unfold refuse. destruct (_ && _); [|exact Hl].
      apply elem_of_app. left. exact Hl.
    + unfold act_on. destruct (act env (rp_IssueNumber c) cmd) as [err said].
      split; [exists wl; split; [apply elem_of_app; left; exact Hl|done]|]. intros _. apply elem_of_app. right. by left.
  - split; [|by eexists].
    match goal with |- cl_Handled (ch_ledger (ru_h (on_h _ ?x))) !! _ = _ => change (base.delete (rp_ID c) (cl_Handled (ch_ledger (ru_h x))) !! rp_ID c = None) end.
    apply lookup_delete_eq.
Qed.

Lemma handle_outcome env c cmd r retry r' : handle env c cmd r = (retry, r') ->
  cl_Handled (ch_ledger (ru_h r)) !! rp_ID c = None -> windowStart (ru_h r) <= rp_CreatedAt c ->
  if retry then cl_Handled (ch_ledger (ru_h r')) !! rp_ID c = None /\ outage env c
  else recorded env (ru_h r) c cmd (ru_effects r').
Proof.
  intros E Hn Hw. unfold handle in E. destruct (authorized env c r) as [why r1] eqn:Ea.
  destruct (authorized_on _ _ _ _ _ Ea) as (es & perms & _ & Er1).
  assert (Hlist : listed_author (ru_h r) c = true -> why = None).
  { unfold listed_author, authorized in *. destruct (_ && equal_fold _ _); [done|]. cbn [negb andb]. intros Hl. rewrite Hl in Ea. by injection Ea. }
  assert (Herr : forall err, why = Some (CheckFailed err) -> outage env c).
  { intros err ->. right. unfold authorized in Ea. repeat (destruct (_ && _) in Ea; [done|]). destruct (existsb _ _); [done|].
    destruct (equal_fold _ _); [done|]. destruct (permission env (rp_Login c) r) as [answer r2] eqn:Ep.
    destruct answer as [e|perm]; [|by destruct (_ || _) in Ea]. unfold permission, ask_permission in Ep.
    destruct (ch_perms (ru_h r) !! to_lower (rp_Login c)) as [p|]; [destruct (time_sub (ce_now env) (cp_at p) <? commentCommandPermTTL); [discriminate|]|]; injection Ep as Ep _; by eexists. }
  assert (H1 : forall why' r2, record_and_act env c cmd why' r2 = (retry, r') -> windowStart (ru_h r2) = windowStart (ru_h r) ->
    (listed_author (ru_h r) c = true -> why' = None) ->
    if retry then cl_Handled (ch_ledger (ru_h r')) !! rp_ID c = None /\ outage env c else recorded env (ru_h r) c cmd (ru_effects r')).
  { intros why' r2 E' Ew Hl'. pose proof (record_outcome _ _ _ _ _ _ _ E' ltac:(by rewrite Ew)) as H. destruct retry.
    - destruct H as [H1 H2]. split; [done|by left].
    - destruct H as [H1 H2]. split; [done|]. intros Hl. apply H2. by apply Hl'. }
  assert (Ew1 : windowStart (ru_h r1) = windowStart (ru_h r)) by by rewrite Er1.
  destruct why as [[| |err|perm|]|]; try (by eapply H1).
  set (n := default 0 _ + 1) in E. destruct (n <? _).
  - injection E as <- <-. split; [by rewrite Er1|by eapply Herr].
  - eapply H1; [exact E|exact Ew1|]. intros Hl. by specialize (Hlist Hl).
Qed.

(** A command to be looked at again holds the cursor back. *)
Lemma retry_from env start acc c : 0 < rp_CreatedAt c -> (pa_retryFrom acc = 0 \/ 0 < pa_retryFrom acc) ->
  let acc' := poll_comment env start acc c in
  (pa_retryFrom acc' = 0 \/ 0 < pa_retryFrom acc') /\
  forall t, pa_retryFrom acc <> 0 -> pa_retryFrom acc <= t -> pa_retryFrom acc' <> 0 /\ pa_retryFrom acc' <= t.
Proof.
  intros Hc Hr acc'. subst acc'. unfold poll_comment. case_bool_decide; [by split|]. destruct (time_before _ start); [by split|].
  destruct (command_of c) as [cmd|]; [|by split]. destruct (handle env c cmd (pa_run acc)) as [retry r']. cbn [pa_retryFrom].
  destruct retry; cbn [andb]; [|by split]. unfold time_is_zero, time_before.
  destruct (Z.eqb_spec (pa_retryFrom acc) 0); cbn [orb]; [split; [by right|lia]|].
  destruct (Z.ltb_spec (rp_CreatedAt c) (pa_retryFrom acc)); split; try lia; intros t _ Ht; lia.
Qed.

Lemma retry_from_all env start comments : (forall c, c ∈ comments -> 0 < rp_CreatedAt c) -> forall acc,
  (pa_retryFrom acc = 0 \/ 0 < pa_retryFrom acc) ->
  let acc' := foldl (poll_comment env start) acc comments in
  (pa_retryFrom acc' = 0 \/ 0 < pa_retryFrom acc') /\
  forall t, pa_retryFrom acc <> 0 -> pa_retryFrom acc <= t -> pa_retryFrom acc' <> 0 /\ pa_retryFrom acc' <= t.
Proof.
  induction comments as [|c comments IH]; intros Hc acc Hr; [by split|]. cbn [foldl].
  destruct (retry_from env start acc c (Hc c ltac:(by left)) Hr) as [H1 H2].
  destruct (IH ltac:(intros x Hx; apply Hc; by right) _ H1) as [H3 H4]. split; [done|].
  intros t H0 Ht. destruct (H2 t H0 Ht). by apply H4.
Qed.

Lemma held_window cursor latest retryFrom floor t : retryFrom <> 0 -> retryFrom <= t ->
  laterTime (time_add cursor (- commentCommandOverlap)) floor <= t ->
  laterTime (time_add (next_cursor cursor latest retryFrom) (- commentCommandOverlap)) floor <= t.
Proof.
  intros Hz Hr. unfold next_cursor, laterTime, time_after, time_add, time_before, time_is_zero.
  rewrite (proj2 (Z.eqb_neq _ _) Hz). cbn [negb andb]. assert (Ho : 0 < commentCommandOverlap) by done. set (o := commentCommandOverlap) in *. clearbody o.
  destruct (Z.ltb_spec (cursor + - o) floor), (Z.ltb_spec retryFrom latest); intros;
    repeat match goal with |- context[if ?a <? ?b then _ else _] => destruct (Z.ltb_spec a b) end; lia.
Qed.

Lemma recorded_more env h c cmd es es' : recorded env h c cmd es -> recorded env h c cmd (es ++ es').
Proof.
  intros [(l & Hl & Hr) Ha]. split; [exists l; split; [apply elem_of_app; by left|done]|].
  intros H. apply elem_of_app. left. by apply Ha.
Qed.

(** What the comments of a poll come to for one of them. *)
Lemma comments_outcome env start comments acc c cmd :
  NoDup (map rp_ID comments) -> (forall x, x ∈ comments -> 0 < rp_CreatedAt x) -> c ∈ comments -> command_of c = Some cmd ->
  (pa_retryFrom acc = 0 \/ 0 < pa_retryFrom acc) -> windowStart (ru_h (pa_run acc)) = start ->
  cl_Handled (ch_ledger (ru_h (pa_run acc))) !! rp_ID c = None -> start <= rp_CreatedAt c ->
  let acc' := foldl (poll_comment env start) acc comments in
  recorded env (ru_h (pa_run acc)) c cmd (ru_effects (pa_run acc')) \/
  cl_Handled (ch_ledger (ru_h (pa_run acc'))) !! rp_ID c = None /\ outage env c /\
    pa_retryFrom acc' <> 0 /\ pa_retryFrom acc' <= rp_CreatedAt c.
Proof.
  intros Hnd Hpos (pre & post & ->)%list_elem_of_split Hcmd Hr Hst Hn Hw acc'.
  rewrite map_app in Hnd. apply NoDup_app in Hnd as (_ & Hpre & [Hpost _]%NoDup_cons).
  subst acc'. rewrite foldl_app. cbn [foldl]. set (acc1 := foldl (poll_comment env start) acc pre).
  pose proof (comments_keep env start pre acc) as K1. fold acc1 in K1.
  assert (Hn1 : cl_Handled (ch_ledger (ru_h (pa_run acc1))) !! rp_ID c = None).
  { apply (ke_records _ _ _ K1); [|done]. intros Hin. apply (Hpre _ Hin). by left. }
  assert (Hst1 : windowStart (ru_h (pa_run acc1)) = start)
    by (unfold windowStart; by rewrite (ke_cursor _ _ _ K1), (ke_floor _ _ _ K1)).
  destruct (retry_from_all env start pre ltac:(intros x Hx; apply Hpos, elem_of_app; by left) acc Hr) as [Hr1 _]. fold acc1 in Hr1.
  set (acc2 := poll_comment env start acc1 c).
  assert (Hpc : 0 < rp_CreatedAt c) by (apply Hpos, elem_of_app; right; by left).
  destruct (retry_from env start acc1 c Hpc Hr1) as [Hr2 _]. fold acc2 in Hr2.
  pose proof (comments_keep env start post acc2) as K3.
  destruct (retry_from_all env start post ltac:(intros x Hx; apply Hpos, elem_of_app; right; by right) acc2 Hr2) as [_ Hr3].
  set (acc3 := foldl _ acc2 post) in *. destruct (ke_effects _ _ _ K3) as [es3 E3].
  destruct (handle env c cmd (pa_run acc1)) as [retry r'] eqn:Eh.
  pose proof (handle_outcome env c cmd _ _ _ Eh Hn1 ltac:(by rewrite Hst1)) as Ho.
  assert (E2 : acc2 = MkPollAcc r' (if time_after (rp_CreatedAt c) (pa_latest acc1) then rp_CreatedAt c else pa_latest acc1)
    (if retry && (time_is_zero (pa_retryFrom acc1) || time_before (rp_CreatedAt c) (pa_retryFrom acc1)) then rp_CreatedAt c else pa_retryFrom acc1)).
  { subst acc2. unfold poll_comment. rewrite Hn1, Hcmd, Eh. unfold time_before at 1. by rewrite (proj2 (Z.ltb_ge _ _) Hw). }
  assert (El : listed_author (ru_h (pa_run acc1)) c = listed_author (ru_h (pa_run acc)) c)
    by (unfold listed_author; by rewrite (ke_token _ _ _ K1), (ke_cfg _ _ _ K1)).
  destruct retry.
  - right. destruct Ho as [Ho Hout]. split; [apply (ke_records _ _ _ K3); [done|by rewrite E2]|]. split; [done|]. apply Hr3.
    + rewrite E2. cbn [pa_retryFrom andb]. unfold time_is_zero. destruct (Z.eqb_spec (pa_retryFrom acc1) 0); cbn [orb]; [lia|].
      destruct (time_before _ _); lia.
    + rewrite E2. cbn [pa_retryFrom andb]. unfold time_is_zero, time_before. destruct (Z.eqb_spec (pa_retryFrom acc1) 0); cbn [orb]; [lia|].
      destruct (Z.ltb_spec (rp_CreatedAt c) (pa_retryFrom acc1)); lia.
  - left. rewrite E3. apply recorded_more. rewrite E2. cbn [pa_run]. destruct Ho as [H1 H2]. split; [done|]. by rewrite <- El.
Qed.

(** C99: a command that a poll lists inside its window and that is not on
    record is put on record, in the file, before the poll ends, and acted on
    when its author is on the list; or the ledger could not be written or the
    author's permission not be read, and then the command is without a record
    inside the window of the next poll, however long that lasts: an outage
    delays commands and loses none. *)
Theorem no_command_lost env h h1 asked comments c cmd :
  know_login env h = (Some h1, asked) -> ce_list env (windowStart h1) = Some comments ->
  NoDup (map rp_ID comments) -> (forall x, x ∈ comments -> 0 < rp_CreatedAt x) ->
  c ∈ comments -> command_of c = Some cmd -> cl_Handled (ch_ledger h) !! rp_ID c = None -> windowStart h <= rp_CreatedAt c ->
  recorded env h1 c cmd (poll env h).2 \/
  cl_Handled (ch_ledger (poll env h).1) !! rp_ID c = None /\ windowStart (poll env h).1 <= rp_CreatedAt c /\ outage env c.
Proof.
  intros Ek El Hnd Hpos Hc Hcmd Hn Hw. destruct (know_login_spec env h _ _ Ek) as [_ Ho].
  destruct (Ho h1 eq_refl) as (E1 & E2 & _). unfold poll. rewrite Ek, El.
  set (acc0 := MkPollAcc _ _ zero_time). assert (Ew : windowStart h1 = windowStart h) by (unfold windowStart; by rewrite E1, E2).
  pose proof (comments_outcome env (windowStart h1) comments acc0 c cmd Hnd Hpos Hc Hcmd (or_introl eq_refl) eq_refl
    ltac:(change (cl_Handled (ch_ledger h1) !! rp_ID c = None); by rewrite E1) ltac:(by rewrite Ew)) as Hout.
  pose proof (comments_keep env (windowStart h1) comments acc0) as K. set (acc := foldl _ acc0 comments) in *.
  set (r1 := on_h _ (pa_run acc)). destruct (saveLedger env r1) as [ok r2] eqn:Es.
  pose proof (save_keeps [] env r1 ok r2 Es) as K2. change (recorded env h1 c cmd (ru_effects r2) \/
    cl_Handled (ch_ledger (ru_h r2)) !! rp_ID c = None /\ windowStart (ru_h r2) <= rp_CreatedAt c /\ outage env c).
  destruct Hout as [Hrec|(Hnone & Hout & Hz & Hr)].
  - left. destruct (ke_effects _ _ _ K2) as [es ->]. by apply recorded_more.
  - right. split; [apply (ke_records _ _ _ K2); [by apply not_elem_of_nil|done]|]. split; [|done].
    unfold windowStart. rewrite (ke_cursor _ _ _ K2), (ke_floor _ _ _ K2).
    change (ch_floor (ru_h r1)) with (ch_floor (ru_h (pa_run acc))).
    change (cl_Cursor (ch_ledger (ru_h r1))) with (next_cursor (cl_Cursor (ch_ledger (ru_h (pa_run acc)))) (pa_latest acc) (pa_retryFrom acc)).
    rewrite (ke_cursor _ _ _ K), (ke_floor _ _ _ K). apply held_window; [done|done|]. unfold windowStart in Hw. by rewrite <- E1, <- E2 in Hw.
Qed.

(** ** What a command may touch *)

(** The requests and moves of a command are about its own issue. *)
Definition about (number : string) (e : CommandEffect) : Prop :=
  match e with
  | Called request _ =>
      match request with
      | CallCancel i | CallResume i | CallSetProfile i _ | CallDispatchReviewer i => i = "#" +:+ number
      | _ => False
      end
  | AskedState n | Moved n _ _ => n = number
  | Refreshed => True
  | _ => False
  end.

(** What the effects of a command need. *)
Record scoped (env : CommandEnv) (number : string) (es : list CommandEffect) : Prop := {
  sd_about : Forall (about number) es;
  sd_profile : forall i p e, Called (CallSetProfile i p) e ∈ es -> exists prof, ce_profiles env !! p = Some prof /\ ProfileEnabled prof = true;
  sd_move : forall n state e, Moved n state e ∈ es -> exists issue rest, ce_issue env number = inr (issue :: rest) /\
    head (fst (ce_states env)) = Some state /\ state_in (fst (ce_states env)) (issue_State issue) = false /\
    state_in (snd (ce_states env)) (issue_State issue) = false;
}.

Lemma scoped_app env number a b : scoped env number a -> scoped env number b -> scoped env number (a ++ b).
Proof.
  intros [A1 A2 A3] [B1 B2 B3]. constructor; [by apply Forall_app|..].
  - intros i p e [H|H]%elem_of_app; [by eapply A2|by eapply B2].
  - intros n state e [H|H]%elem_of_app; [by eapply A3|by eapply B3].
Qed.

Lemma scoped_one env number e : about number e -> (forall i p x, e <> Called (CallSetProfile i p) x) -> (forall n state x, e <> Moved n state x) ->
  scoped env number [e].
Proof.
  intros H1 H2 H3. constructor; [by repeat constructor|..].
  - intros i p x Hx%list_elem_of_singleton. by destruct (H2 i p x).
  - intros n state x Hx%list_elem_of_singleton. by destruct (H3 n state x).
Qed.

Lemma scoped_nil env number : scoped env number [].
Proof. constructor; [constructor|by intros ? ? ? ?%not_elem_of_nil..]. Qed.

Lemma scoped_profile env number profile : String.eqb profile "" || some_profile env profile = true ->
  scoped env number (set_profile env ("#" +:+ number) profile).
Proof.
  unfold set_profile. destruct (String.eqb profile ""); [intros _; apply scoped_nil|]. cbn [orb]. unfold some_profile. intros H. constructor.
  - by repeat constructor.
  - intros i p e Hx%list_elem_of_singleton. injection Hx as -> -> _. destruct (ce_profiles env !! profile) as [q|]; [by exists q|done].
  - intros n state e Hx%list_elem_of_singleton. done.
Qed.

Lemma run_scoped env number profile : scoped env number (run env number ("#" +:+ number) profile).2.
Proof.
  unfold run. destruct (negb (String.eqb profile "") && negb (some_profile env profile)) eqn:Ep; [apply scoped_nil|].
  assert (Hp : scoped env number (set_profile env ("#" +:+ number) profile)).
  { apply scoped_profile. by destruct (String.eqb profile ""), (some_profile env profile). }
  assert (Hask : scoped env number [AskedState number]) by by apply scoped_one.
  assert (Hr : scoped env number [Refreshed]) by by apply scoped_one.
  case_bool_decide; [apply scoped_nil|]. case_bool_decide.
  { cbn [snd]. apply scoped_app; [done|]. apply (scoped_app _ _ [_]); [by apply scoped_one|]. destruct (ce_call _ _); [apply scoped_nil|done]. }
  destruct (ce_states env) as [active terminal] eqn:Es. destruct (ce_issue env number) as [err|[|i l]] eqn:Ei; [done|done|].
  destruct (state_in terminal (issue_State i)) eqn:Et; [done|].
  assert (Hsaid : scoped env number (AskedState number :: set_profile env ("#" +:+ number) profile)) by by apply (scoped_app _ _ [_]).
  destruct (state_in active (issue_State i)) eqn:Ea; [by apply scoped_app|]. destruct active as [|first active]; [done|].
  assert (Hm : forall e, scoped env number [Moved number first e]).
  { intros e. constructor; [by repeat constructor|by intros ? ? ? ?%list_elem_of_singleton|].
    intros n state x Hx%list_elem_of_singleton. injection Hx as -> -> _. exists i, l. by rewrite Es. }
  destruct (ce_update env number first); cbn [snd]; (apply scoped_app; [done|]); [done|]. by apply (scoped_app _ _ [_] [_]).
Qed.

(** C99: what a command asks of the orchestrator and of the tracker is about
    its own issue only; a profile is set only when it exists and is enabled;
    the issue is moved only from a state that is neither active nor terminal,
    and only to the first active one; a command that reports no error has done
    something, and run does nothing to an issue that is running. *)
Theorem command_scope env number cmd :
  let '(err, es) := act env number cmd in
  scoped env number es /\ (err = None -> es <> []) /\
  (cmd_Verb cmd = "run" -> is_Some (Running (ce_snap env) !! number) -> es = [] /\ err <> None).
Proof.
  destruct (act env number cmd) as [err es] eqn:E. unfold act in E.
  destruct (String.eqb_spec (cmd_Verb cmd) "run") as [Ev|Ev].
  - pose proof (run_scoped env number (cmd_Profile cmd)) as Hs. rewrite E in Hs. split; [done|]. unfold run in E.
    destruct (_ && _); [by injection E as <- <-|]. case_bool_decide as Hr; [by injection E as <- <-|].
    split; [|by intros _ Hrun]. case_bool_decide.
    + injection E as <- <-. intros _. by destruct (set_profile _ _ _).
    + destruct (ce_states env) as [active terminal]. destruct (ce_issue env number) as [e|[|i l]]; [by injection E as <- <-..|].
      destruct (state_in terminal _); [by injection E as <- <-|]. destruct (state_in active _); [by injection E as <- <-|].
      destruct active as [|first active]; [by injection E as <- <-|]. destruct (ce_update _ _ _); by injection E as <- <-.
  - destruct (String.eqb (cmd_Verb cmd) "stop"); [|destruct (String.eqb (cmd_Verb cmd) "review")]; injection E as <- <-.
    + split; [by apply scoped_one|by split].
    + split; [by apply scoped_one|by split].
    + split; [apply scoped_nil|]. by split.
Qed.

(** ** On examples *)

Module Demo.

Definition noon : Time := unix_epoch + 12 * 3600 * Second.

Definition cfg : CommentCommandsConfig := MkCommentCommandsConfig ["ann"] false true.

Definition says (id login body : string) : RepoComment := MkRepoComment id "42" body login "User" noon false.

Definition issue (state : string) : Issue := MkIssue "42" "#42" "title" None None state None None [] [] [] None None.

(** GitHub lists [comments] and answers [perm] for everyone; the ledger can be
    written when [writes] says so. *)
Definition env (now : Time) (comments : list RepoComment) (perm : string + string) (writes : nat -> bool) : CommandEnv :=
  MkCommandEnv now (Some "itervox-bot") (fun _ => Some comments) (fun _ => perm) writes {["qa" := MkAgentProfile "" "" None]} empty_State
    (fun _ => None) (["Todo"], ["Done"]) (fun _ => inr [issue "Backlog"]) (fun _ _ => None).

Definition all_good (comments : list RepoComment) : CommandEnv := env (noon + Minute) comments (inr "write") (fun _ => true).

Definition commands : list RepoComment :=
  [says "1" "ann" "/itervox run qa"; says "2" "bob" "/itervox stop"; says "3" "itervox-bot" "/itervox stop"].

(** A poll that dies after it has recorded and begun the first command, and
    two more. *)
Definition story : list CommandStep :=
  [Restarts (all_good commands) 4 (noon + 2 * Minute) false; Polls (all_good commands); Polls (all_good commands)].

Definition start : Site := enabled cfg (noon - Minute).

Definition log : list CommandEffect := st_log (foldl site_step start story).

Lemma story_dates : Forall (fun step => dates_ok (fun _ => noon) (step_env step)) story.
Proof.
  repeat constructor; intros since comments c [= <-]; cbn [In]; intros Hc; unfold commands in Hc;
    repeat (apply elem_of_cons in Hc as [->|Hc]; [reflexivity|]); by apply not_elem_of_nil in Hc.
Qed.

End Demo.

Lemma command_acts_once_witness : acted Demo.log = ["1"; "2"] /\ NoDup (acted Demo.log).
Proof.
  split; [vm_compute; reflexivity|]. apply (command_acts_once (fun _ => Demo.noon) Demo.cfg (Demo.noon - Minute) Demo.story Demo.story_dates).
  split; [intros H; vm_compute in H; discriminate|]. by repeat split.
Defined.

(** Bob is not on the list: GitHub was asked. *)
Lemma commands_authorized_witness : exists a b,
  Demo.log = a ++ Acting (Demo.says "2" "bob" "/itervox stop") (MkItervoxCommand "stop" "") (Demo.noon + Minute) :: b /\
  may_command "itervox-bot" Demo.cfg a (Demo.says "2" "bob" "/itervox stop") (MkItervoxCommand "stop" "") (Demo.noon + Minute).
Proof.
  eexists (firstn 8 Demo.log), (skipn 9 Demo.log). split; [vm_compute; reflexivity|].
  apply (commands_authorized "itervox-bot" Demo.cfg (Demo.noon - Minute) Demo.story _ _ _ _ (skipn 9 Demo.log)); [|vm_compute; reflexivity].
  repeat constructor; done || (by intros ? [= <-]).
Defined.

Lemma no_command_lost_witness :
  let broken := Demo.env (Demo.noon + Minute) Demo.commands (inl "timeout") (fun _ => true) in
  let h := st_h Demo.start in
  recorded broken (h <| ch_tokenLogin := "itervox-bot" |>) (Demo.says "2" "bob" "/itervox stop") (MkItervoxCommand "stop" "") (poll broken h).2 \/
  cl_Handled (ch_ledger (poll broken h).1) !! "2" = None /\ windowStart (poll broken h).1 <= Demo.noon /\ outage broken (Demo.says "2" "bob" "/itervox stop").
Proof.
  intros broken h. apply (no_command_lost broken h (h <| ch_tokenLogin := "itervox-bot" |>) [AskedLogin] Demo.commands); try reflexivity.
  - vm_compute. repeat (constructor; [set_solver|]). constructor.
  - intros x Hx. unfold Demo.commands in Hx. repeat (apply elem_of_cons in Hx as [->|Hx]; [reflexivity|]). by apply not_elem_of_nil in Hx.
  - right. by left.
  - vm_compute. discriminate.
Defined.

(** ** What a failed command leaves *)

(** A run that cannot move its issue reports an error, and the profile it named
    stays set for the issue. *)
Theorem failed_run_keeps_profile :
  let env := MkCommandEnv Demo.noon None (fun _ => None) (fun _ => inl "") (fun _ => true) {["qa" := MkAgentProfile "" "" None]} empty_State
    (fun _ => None) (["Todo"], ["Done"]) (fun _ => inr [Demo.issue "Backlog"]) (fun _ _ => Some "403") in
  let '(err, es) := act env "42" (MkItervoxCommand "run" "qa") in
  is_Some err /\ Called (CallSetProfile "#42" "qa") None ∈ es.
Proof. vm_compute. split; [by eexists|]. right. by left. Qed.

(** A stop that finds the orchestrator busy is on record, so it is never tried
    again, and is answered as if there were nothing to stop. *)
Theorem busy_stop_is_dropped :
  let env := MkCommandEnv Demo.noon (Some "itervox-bot") (fun _ => Some [Demo.says "1" "ann" "/itervox stop"]) (fun _ => inl "") (fun _ => true) ∅ empty_State
    (fun _ => Some "orchestrator: event channel full") (["Todo"], ["Done"]) (fun _ => inl "") (fun _ _ => None) in
  let '(h, es) := poll env (st_h Demo.start) in
  cl_Handled (ch_ledger h) !! "1" = Some Demo.noon /\ acted (poll env h).2 = [] /\
  Replied "42" (MarkManagedComment "@ann `/itervox stop`: nothing to stop (orchestrator: event channel full)") ∈ es.
Proof. vm_compute. split; [done|]. split; [done|]. do 6 right. by left. Qed.
